(* ===== verification/_CoqProject ===== *)
-Q . S2P
Prelude.v
Enums.v
Uapi.v
Kernel.v
Ctx.v
IncidentLog.v
RateLimit.v
Filter.v
Verdict.v
Parsing.v
TcpAnomaly.v
Dst.v
TcpAuth.v
Syncookies.v
TcpOptions.v
SyncookiesSpec.v
Checksum.v
Dns.v
Xdp.v
XdpSpec.v
XdpSafety.v
Tc.v
Policy.v
Bitset.v
AnomalyFlags.v
IndexPool.v
ShadowMap.v
Config.v
MapsManager.v
ManagerSpec.v
ManagerOps.v
ManagerSrc.v
Manager.v
ManagerClaims.v
ManagerPolicy.v
GeoIp.v
GeoIpSpec.v
GeoImport.v
CountryPolicy.v
StdMap.v
Proto.v
ConfigUpdater.v
UpdaterSpec.v
UpdaterHistory.v
Service.v
ServiceClaims.v
LineConsumer.v
Tcl.v
Cli.v
CliSpec.v
CliBodies.v
CliProgress.v
Serialize.v
ClientMsg.v
ClientExact.v
ClientClaims.v
Window.v
Xxh64.v
Stats.v
Logger.v
LoggerSpec.v
Daemon.v
Guard.v
StatePool.v
Loader.v
LoaderSpec.v
LoaderClaims.v
MapDecls.v
Inet.v
ClientTests.v
ClientDebug.v
Containers.v
Grammar.v
GrammarTurns.v
GrammarRules.v
GrammarEntries.v
GrammarItems.v
GrammarClaims.v
Xfwctl.v
XfwctlClaims.v
