(* ===== verification/Prelude.v ===== *)
(** * Tempesta xFW: a verification library

    ** The program

    xFW is a packet filter for Linux.  Two eBPF programs decide on packets: the
    XDP program on ingress (src/bpf/xdp.c) and the TC program on egress
    (src/bpf/tc.c).  They read their rules from BPF maps and write counters and
    logs of incidents to others (src/bpf_uapi holds the types of the maps).  A
    loader (src/loader) loads the programs and pins the maps; a manager daemon
    (src/manager) receives configurations over gRPC, checks them and writes them
    to the maps; a client (src/cli, src/lib/cli) parses the text of a
    configuration and sends it; a logger plug-in (src/logger) exports the logs of
    incidents to a database; a script (src/xfwctl) starts and stops all of them.

    The library models these programs as Rocq functions, translated from the
    source and named after it, and proves what makes them correct, from the single
    components to the whole way of a rule from the text of a configuration to the
    verdict on a packet.

    ** Conventions

    A [w]-bit C integer is a [Z] kept in range by [wrap] (this file: [u8], [u16],
    [u32], [u64]).  A packet is a list of bytes, read and written with bounds; an
    access outside is a fault, a value of the BPF monad ([Ctx]), so that memory
    safety is a theorem.  Fallible code returns [E + A] (this file: [rbind],
    [let? x := m in k], [m ;? k]); the manager's operations are a monad of state,
    failing system calls and exceptions ([MapsManager]), the client's one of state
    and exceptions ([LineConsumer]).  Code that is not part of the repository is a
    parameter; classes named [..Spec] state its documented behaviour and classes
    named [..Live] that its calls succeed, and every theorem that uses one has an
    example with a concrete instance (the ends of [Ctx] and of the other files).

    ** The eBPF programs (src/bpf, src/bpf_uapi)

    - [Enums], [Uapi]: the enumerations, records and limits of src/bpf_uapi;
      [Kernel]: maps, helpers and the clock of the kernel, the class
      [KernelSpec]; [Ctx]: the context of a packet, the state of the programs and
      the BPF monad (ctx.h).
    - [Filter], [Verdict]: the verdict macros (filter.h) and the contract of a
      filter, which every filter is proved to satisfy.
    - [IncidentLog] (incident_log.h), [RateLimit] (filter.h), [Parsing]
      (parsing_helpers.h), [TcpAnomaly], [Dst], [TcpAuth], [Dns], [Syncookies]
      with [TcpOptions], [SyncookiesSpec] and [Checksum] (the headers of the same
      names).
    - [Xdp] and [Tc]: the two programs.  [XdpSpec], [XdpSafety] and [Tc] prove that
      no packet makes them fault, that every packet is counted once, that a passed
      packet is unmodified, and that evaluation mode never drops.
    - [Policy]: the decisions of the source and DNS filters, and packets for which
      the programs do not do what they are meant to.
    - [Xxh64]: the hash functions of syn_hash.h and xxh64_hash.h are XXH64.

    ** The manager (src/manager, src/lib/bpf)

    - [Bitset], [AnomalyFlags], [IndexPool], [ShadowMap], [Config] (with
      the named rate limits), [Window] (with CONFIG_HZ), [StatePool]: its data structures with their
      invariants.  The synchronisation of a kernel map with its snapshot is proved
      for every failure of the batch calls.
    - [MapsManager]: maps_manager.cc, every operation; [ManagerSpec],
      [ManagerOps], [ManagerSrc], [Manager]: its invariants and effects;
      [ManagerClaims]: a configuration is in force as a whole or not at all, and no
      bucket is lost; [ManagerPolicy]: from a rule to the verdict on a packet.
    - [GeoIp] (geoip.cc; libmaxminddb is the class [MMDB]), [GeoIpSpec],
      [GeoImport], [CountryPolicy]: from the database of countries to the verdict.
    - [StdMap], [Proto], [ConfigUpdater], [UpdaterSpec], [UpdaterHistory]: from a
      message to a configuration (xfw_config_updater.cc); [Service],
      [ServiceClaims]: the service as a state machine over requests
      (grpc_service.cc, xfw.cc).
    - [Stats]: the counters of all CPUs, the statistics and the HTTP service that
      exports them; [Daemon]: start-up and shutdown of the process (main.cc, server.cc,
      shutdown.hh) with its two threads as a step relation.
    - [Guard]: the descriptors and the wrappers of the maps (fd_guard.hh,
      map.hh, map_verifier.hh, hash_map.hh, array_map.hh, array_mmaped_map.hh);
      [Containers]: arrays with an enumeration as index and the hashes of the keys
      (enum_array.hh, map_key_hash.hh), and the hash functions and the loops of
      src/benchmarks.

    ** The client, the loader and the logger

    - [LineConsumer], [Tcl], [Cli]: the parsers of the client; [CliSpec],
      [CliBodies], [CliProgress]: they end, never fail an assertion, and produce
      well-formed configurations; [Serialize]: the message and the
      command line; [ClientMsg], [ClientExact], [ClientClaims]: the manager accepts
      the message as well formed, and what is in force is what the text says.
    - [Grammar]: the configuration language, as an abstract syntax with the text and
      the meaning of each command, and the reading of words and numbers.
      [GrammarTurns] (runs of the parser, what the sections share and the bodies),
      [GrammarEntries], [GrammarRules], [GrammarItems] (the commands) and
      [GrammarClaims] (the lines of a text): the parser gives every text of
      the language its meaning, whether it is accepted or rejected.
    - [Inet]: a reader of IP addresses that meets the assumptions on Boost's;
      [ClientTests]: the unit tests of src/lib/t, which hold in the
      model; [ClientDebug]: the printing of configurations and the last error.
    - [Loader]: loader.c; [LoaderSpec], [LoaderClaims]: nothing is leaked, whatever
      the calls return; programs are pinned and unpinned atomically; the two
      programs run in one DNS mode.  libbpf, the kernel and the file system are the
      record [LibBpf] with the class [LibBpfSpec].
    - [MapDecls]: the declarations of the maps in the programs, the C types with
      their layout, and the objects of user space that open the maps: the two sides
      agree.
    - [Logger], [LoggerSpec]: the plug-in, composed with [IncidentLog]: no incident
      is lost between the program and the writer.
    - [Xfwctl]: the control script, its commands being a parameter;
      [XfwctlClaims]: it loads the programs on all devices or on none.

    ** Bounds and fuel

    Loops of the eBPF programs have the bounds of the source.  [drain_by_batch]
    runs with the number of entries plus one, which is proved enough from
    [BpfBatchSpec]; [apply_delete] and [apply_upsert] with the number of keys, of
    which every step takes at least one; [parse_line] with [parse_fuel], twice the
    length of the line plus two, and [tcp_flags_loop] with the length of the line:
    [ClientClaims] proves that the fuel never runs out; [parse_tokens]
    of the loader with the length of the string plus one, which
    [load_mode_grammar] shows to be enough.

    ** Assumptions

    A prefix map is a map from keys to values whose lookup finds the longest
    matching prefix; two keys that differ only behind their prefix are different
    keys, while the kernel keeps one entry for both (neither the client nor
    src/manager/xfw_config_updater.cc clears these bits).  The per-packet programs run one packet at
    a time: races of several CPUs on one bucket, which the source accepts, are not
    modelled.  In [Daemon] the unguarded accesses to [grpc_server_] are atomic.

    ** Not modelled

    The binary encoding of FlatBuffers messages (generated code: a message is the
    value its accessors read); the option parsers of Boost, jq and the commands that
    the control script runs (parameters); the gRPC, Beast and ClickHouse libraries
    beyond what their calls return; log and error texts, and the action --status of
    the control script, which only prints; and the functional tests in Python and
    the packaging.  [Grammar] has one command on a line and one form of white
    space inside a command; that the parser is total and produces only well-formed
    configurations is proved for every text ([ClientClaims]). *)

From Stdlib Require Export ZArith Lia ZifyBool.
From stdpp Require Export base tactics option list gmap functions numbers.

#[export] Set Default Goal Selector "!".

Declare Scope xfw_scope.
Delimit Scope xfw_scope with xfw.
Open Scope Z_scope.

(** Linear arithmetic with [/] and [mod]. *)
Ltac dlia := Z.to_euclidean_division_equations; lia.

(** ** Machine integers

    A [w]-bit unsigned C integer is a [Z] in [0, 2^w); every operation that can
    leave the range is followed by the wrap-around of its C type. *)

Definition wrap (w x : Z) : Z := x mod 2 ^ w.
Abbreviation u8 := (wrap 8).
Abbreviation u16 := (wrap 16).
Abbreviation u32 := (wrap 32).
Abbreviation u64 := (wrap 64).

Definition UINT8_MAX : Z := 255.
Definition UINT16_MAX : Z := 65535.
Definition UINT32_MAX : Z := 4294967295.
Definition UINT64_MAX : Z := 18446744073709551615.

Lemma wrap_range w x : 0 <= w -> 0 <= wrap w x < 2 ^ w.
Proof. intros. apply Z.mod_pos_bound. by apply Z.pow_pos_nonneg. Qed.

Lemma wrap_small w x : 0 <= x < 2 ^ w -> wrap w x = x.
Proof. apply Z.mod_small. Qed.

Lemma wrap_add_idemp_l w x y : wrap w (wrap w x + y) = wrap w (x + y).
Proof. unfold wrap. apply Zplus_mod_idemp_l. Qed.

Lemma land_low_high a b n : 0 <= n -> 0 <= a < 2 ^ n -> Z.land a (Z.shiftl b n) = 0.
Proof.
  intros Hn Ha. apply Z.bits_inj'. intros i Hi. rewrite Z.land_spec, Z.bits_0.
  destruct (Z.ltb_spec i n).
  - rewrite Z.shiftl_spec_low by lia. apply andb_false_r.
  - rewrite <- (Z.mod_small a (2 ^ n)) by lia. by rewrite Z.mod_pow2_bits_high by lia.
Qed.

(** A bit-or of disjoint bit fields is their sum. *)
Lemma lor_low_high a b n :
  0 <= n -> 0 <= a < 2 ^ n -> Z.lor a (Z.shiftl b n) = a + b * 2 ^ n.
Proof.
  intros Hn Ha. rewrite <- Z.add_nocarry_lor by (by apply land_low_high).
  by rewrite Z.shiftl_mul_pow2.
Qed.

(** C's [x] as a truth value, and a [bool] as a C integer. *)
Definition b2z (b : bool) : Z := if b then 1 else 0.

(** *** Byte order: the target is little endian *)

Definition bswap16 (x : Z) : Z := (x mod 256) * 256 + (x / 256) mod 256.
Definition bswap32 (x : Z) : Z :=
  (x mod 256) * 16777216 + (x / 256 mod 256) * 65536
  + (x / 65536 mod 256) * 256 + (x / 16777216) mod 256.
Abbreviation bpf_htons := bswap16.
Abbreviation bpf_ntohs := bswap16.
Abbreviation bpf_htonl := bswap32.
Abbreviation bpf_ntohl := bswap32.

Lemma bswap16_range x : 0 <= bswap16 x < 65536.
Proof. unfold bswap16. dlia. Qed.

Lemma bswap16_involutive x : 0 <= x < 65536 -> bswap16 (bswap16 x) = x.
Proof. unfold bswap16. intros. dlia. Qed.

Lemma bswap32_range x : 0 <= bswap32 x < 4294967296.
Proof. unfold bswap32. dlia. Qed.

(** *** Bits *)

Lemma testbit_above z w k : 0 <= z < 2 ^ w -> w <= k -> Z.testbit z k = false.
Proof.
  intros Hz Hk. destruct (decide (z = 0)) as [->|]; [apply Z.bits_0|].
  apply Z.bits_above_log2; [lia|]. apply Z.log2_lt_pow2; [lia|].
  destruct (decide (0 <= w)); [|rewrite Z.pow_neg_r in Hz by lia; lia].
  eapply Z.lt_le_trans; [apply Hz|]. apply Z.pow_le_mono_r; lia.
Qed.

(** The bits of a number put together from a high and a low part. *)
Lemma testbit_concat a r w i : 0 <= w -> 0 <= r < 2 ^ w -> 0 <= i ->
  Z.testbit (a * 2 ^ w + r) i = if decide (w <= i) then Z.testbit a (i - w) else Z.testbit r i.
Proof.
  intros Hw Hr Hi. case_decide.
  - rewrite <- (Z.sub_add w i) at 1. rewrite <- Z.shiftr_spec by lia. f_equal.
    rewrite Z.shiftr_div_pow2, Z.div_add_l, (Z.div_small r) by lia. lia.
  - rewrite <- (Z.mod_pow2_bits_low _ w) by lia. f_equal.
    rewrite Z.add_comm, Z.mod_add by lia. by apply Z.mod_small.
Qed.

(** *** Little-endian byte lists: the packet is a list of byte values *)

Definition is_byte (b : Z) : Prop := 0 <= b < 256.

Lemma u8_byte x : is_byte (u8 x).
Proof. unfold is_byte, wrap. dlia. Qed.

Fixpoint le_combine (l : list Z) : Z :=
  match l with
  | [] => 0
  | b :: r => b + 256 * le_combine r
  end.

Fixpoint le_split (n : nat) (v : Z) : list Z :=
  match n with
  | O => []
  | S n' => v mod 256 :: le_split n' (v / 256)
  end.

Lemma length_le_split n v : length (le_split n v) = n.
Proof. revert v. induction n as [|n IH]; intros v; simpl; [done|by rewrite IH]. Qed.

Lemma le_split_bytes n v : Forall is_byte (le_split n v).
Proof.
  revert v. induction n as [|n IH]; intros v; simpl; constructor; [|apply IH].
  unfold is_byte. dlia.
Qed.

Lemma le_combine_range l :
  Forall is_byte l -> 0 <= le_combine l < 256 ^ Z.of_nat (length l).
Proof.
  induction 1 as [|b l Hb _ IH]; simpl le_combine; simpl length.
  - simpl. lia.
  - rewrite Nat2Z.inj_succ, Z.pow_succ_r by lia. unfold is_byte in Hb. lia.
Qed.

(** Writing a value and reading it back gives its low bytes. *)
Lemma le_combine_split n v : le_combine (le_split n v) = v mod 256 ^ Z.of_nat n.
Proof.
  revert v. induction n as [|n IH]; intros v.
  - simpl. by rewrite Z.mod_1_r.
  - simpl le_combine. rewrite IH, Nat2Z.inj_succ, Z.pow_succ_r by lia.
    rewrite Z.rem_mul_r; lia.
Qed.

Lemma le_split_inj n x y : 0 <= x < 256 ^ Z.of_nat n -> 0 <= y < 256 ^ Z.of_nat n ->
  le_split n x = le_split n y -> x = y.
Proof.
  intros Hx Hy He. apply (f_equal le_combine) in He. rewrite !le_combine_split in He.
  by rewrite !Z.mod_small in He.
Qed.

(** ** Sub-ranges of a list addressed with [Z] offsets *)

(** [slice l off n]: [n] elements from offset [off], [None] out of bounds. *)
Definition slice {A} (l : list A) (off n : Z) : option (list A) :=
  if (0 <=? off) && (0 <=? n) && (off + n <=? Z.of_nat (length l))
  then Some (take (Z.to_nat n) (drop (Z.to_nat off) l))
  else None.

(** [splice l off d]: overwrite [length d] elements from [off]. *)
Definition splice {A} (l : list A) (off : Z) (d : list A) : option (list A) :=
  if (0 <=? off) && (off + Z.of_nat (length d) <=? Z.of_nat (length l))
  then Some (take (Z.to_nat off) l ++ d
             ++ drop (Z.to_nat off + length d) l)
  else None.

Lemma slice_Some {A} (l : list A) off n :
  0 <= off -> 0 <= n -> off + n <= Z.of_nat (length l) ->
  slice l off n = Some (take (Z.to_nat n) (drop (Z.to_nat off) l)).
Proof. intros. unfold slice. rewrite !(proj2 (Z.leb_le _ _)) by lia. done. Qed.

Lemma slice_length {A} (l d : list A) off n :
  slice l off n = Some d -> Z.of_nat (length d) = n.
Proof.
  unfold slice. case_match eqn:Hb; [|done]. intros [= <-].
  rewrite length_take, length_drop. lia.
Qed.

Lemma slice_Forall {A} (P : A -> Prop) (l d : list A) off n :
  Forall P l -> slice l off n = Some d -> Forall P d.
Proof.
  intros HP. unfold slice. case_match; [|done]. intros [= <-].
  by apply Forall_take, Forall_drop.
Qed.

Lemma splice_length {A} (l d l' : list A) off :
  splice l off d = Some l' -> length l' = length l.
Proof.
  unfold splice. case_match eqn:Hb; [|done]. intros [= <-].
  rewrite !length_app, length_take, length_drop. lia.
Qed.

Lemma splice_Forall {A} (P : A -> Prop) (l d l' : list A) off :
  Forall P l -> Forall P d -> splice l off d = Some l' -> Forall P l'.
Proof.
  intros Hl Hd. unfold splice. case_match; [|done]. intros [= <-].
  apply Forall_app; split; [by apply Forall_take|].
  apply Forall_app; split; [done|by apply Forall_drop].
Qed.

Lemma splice_Some {A} (l d : list A) off :
  0 <= off -> off + Z.of_nat (length d) <= Z.of_nat (length l) ->
  is_Some (splice l off d).
Proof.
  intros. unfold splice. rewrite !(proj2 (Z.leb_le _ _)) by lia. by eexists.
Qed.

(** Reading inside what was just written. *)
Lemma slice_splice_eq {A} (l d l' : list A) off :
  splice l off d = Some l' ->
  slice l' off (Z.of_nat (length d)) = Some d.
Proof.
  intros Hs. pose proof (splice_length _ _ _ _ Hs) as Hl.
  unfold splice in Hs. case_match eqn:Hb; [|done]. injection Hs as <-.
  rewrite slice_Some by lia. f_equal.
  rewrite drop_app_ge by (rewrite length_take; lia).
  rewrite length_take, Nat2Z.id.
  replace (Z.to_nat off - Z.to_nat off `min` length l)%nat with 0%nat by lia.
  rewrite drop_0. by apply take_app_length'.
Qed.

(** Reading outside what was just written. *)
Lemma slice_splice_ne {A} (l d l' : list A) off o n :
  splice l off d = Some l' ->
  o + n <= off \/ off + Z.of_nat (length d) <= o ->
  slice l' o n = slice l o n.
Proof.
  intros Hs Hd. pose proof (splice_length _ _ _ _ Hs) as Hl.
  unfold splice in Hs. case_match eqn:Hb; [|done]. injection Hs as <-.
  unfold slice. rewrite Hl. case_match eqn:Hc; [|done]. f_equal.
  apply list_eq. intros i.
  destruct (decide (i < Z.to_nat n)%nat) as [Hi|Hi];
    [|rewrite !lookup_take_ge by lia; done].
  rewrite !lookup_take_lt, !lookup_drop by lia.
  destruct Hd as [Hd|Hd].
  - rewrite lookup_app_l by (rewrite length_take; lia).
    by rewrite lookup_take_lt by lia.
  - rewrite lookup_app_r by (rewrite length_take; lia).
    rewrite length_take, lookup_app_r by lia. rewrite lookup_drop. f_equal. lia.
Qed.

(** Writing back what was there restores the list. *)
Lemma splice_restore {A} (l d d' l' : list A) off :
  slice l off (Z.of_nat (length d)) = Some d -> length d' = length d ->
  splice l off d' = Some l' -> splice l' off d = Some l.
Proof.
  intros Hd Hl Hs. pose proof (splice_length _ _ _ _ Hs) as Hlen.
  unfold splice in *. rewrite Hlen, <- Hl. case_match eqn:Hb; [|done].
  injection Hs as <-. unfold slice in Hd. case_match eqn:Hc; [|done].
  injection Hd as Hd. rewrite Nat2Z.id in Hd. f_equal.
  rewrite take_app_le, take_take, Nat.min_id by (rewrite length_take; lia).
  rewrite (app_assoc (take _ l) d'), drop_app_ge by (rewrite !length_app, length_take; lia).
  rewrite length_app, length_take, drop_drop.
  replace (Z.to_nat off + length d' + _)%nat with (Z.to_nat off + length d)%nat by lia.
  rewrite <- (drop_drop l), <- Hd at 1. rewrite take_drop. apply take_drop.
Qed.

(** ** Fallible functions

    A function that throws an exception of type [E] or returns an [A] is a value
    of [E + A]; nothing it computed survives the exception. *)

Definition rbind {E A B} (m : E + A) (k : A -> E + B) : E + B :=
  match m with inl e => inl e | inr a => k a end.
(** [if (!cond) throw e]. *)
Definition rverify {E} (cond : bool) (e : E) : E + unit := if cond then inr tt else inl e.
(** A pointer or an optional that must not be null. *)
Definition rsome {E A} (o : option A) (e : E) : E + A :=
  match o with Some a => inr a | None => inl e end.
(** A loop over [l] that updates [b]. *)
Fixpoint rfold {E A B} (f : B -> A -> E + B) (b : B) (l : list A) : E + B :=
  match l with [] => inr b | x :: l => rbind (f b x) (fun b' => rfold f b' l) end.

Notation "'let?' x := m 'in' k" := (rbind m (fun x => k))
  (at level 10, x name, m at level 200, k at level 200) : xfw_scope.
Notation "m ;? k" := (rbind m (fun _ => k)) (at level 100, right associativity) : xfw_scope.
Open Scope xfw_scope.

Lemma rbind_inr {E A B} (m : E + A) (k : A -> E + B) b :
  rbind m k = inr b <-> exists a, m = inr a /\ k a = inr b.
Proof. destruct m; cbn; naive_solver. Qed.

Lemma rverify_inr {E} (cond : bool) (e : E) u : rverify cond e = inr u <-> cond = true.
Proof. destruct cond, u; cbn; naive_solver. Qed.

Lemma rsome_inr {E A} (o : option A) (e : E) a : rsome o e = inr a <-> o = Some a.
Proof. destruct o; cbn; naive_solver. Qed.

(** An invariant of every iteration holds after the loop. *)
Lemma rfold_ind {E A B} (P : B -> Prop) (f : B -> A -> E + B) l b b' :
  (forall b x b', x ∈ l -> P b -> f b x = inr b' -> P b') ->
  P b -> rfold f b l = inr b' -> P b'.
Proof.
  revert b. induction l as [|x l IH]; intros b Hf Hb; cbn; [by intros [= <-]|].
  intros (b1 & H1 & H2)%rbind_inr. eapply IH; [|eapply (Hf b x)|exact H2]; [|left|done..].
  intros b0 y b'' Hy. apply Hf. by right.
Qed.

Lemma rfold_app {E A B} (f : B -> A -> E + B) b l1 l2 :
  rfold f b (l1 ++ l2) = rbind (rfold f b l1) (fun b' => rfold f b' l2).
Proof.
  revert b. induction l1 as [|x l1 IH]; intros b; cbn; [done|]. destruct (f b x); cbn; [done|apply IH].
Qed.

(** ** Programs: a state monad with faults

    A C function that reads and writes the shared state is a value of
    [M S A]: it maps a state to a result and a new state, or to [None] when it
    performs an access the machine does not allow (a load or store outside the
    packet, an array index out of range).  A theorem that a program reaches a
    postcondition therefore also shows that it never faults. *)

Definition M (S A : Type) : Type := S -> option (A * S).

Section monad.
Context {S : Type}.

Definition ret {A} (a : A) : M S A := fun s => Some (a, s).
Definition bind {A B} (m : M S A) (k : A -> M S B) : M S B :=
  fun s => match m s with Some (a, s') => k a s' | None => None end.
Definition fault {A} : M S A := fun _ => None.
Definition get : M S S := fun s => Some (s, s).
Definition modify (f : S -> S) : M S unit := fun s => Some (tt, f s).
(** An access that is only defined where [o] is. *)
Definition get_opt {A} (o : option A) : M S A :=
  match o with Some a => ret a | None => fault end.
End monad.

Notation "x <- m ;; k" := (bind m (fun x => k))
  (at level 100, m at next level, right associativity) : xfw_scope.
Notation "'let*' p := m 'in' k" := (bind m (fun x => match x with p => k end))
  (at level 10, p strict pattern, m at level 200, k at level 200) : xfw_scope.
Notation "m ;;; k" := (bind m (fun _ => k))
  (at level 100, right associativity) : xfw_scope.
Open Scope xfw_scope.

(** Weakest precondition: [m] runs from [s] without a fault and its result
    and final state satisfy [Q]. *)
Definition wp {S A} (m : M S A) (Q : A -> S -> Prop) (s : S) : Prop :=
  match m s with Some (a, s') => Q a s' | None => False end.

Section wp.
Context {S : Type}.
Implicit Types s : S.

Lemma wp_ret {A} (a : A) (Q : A -> S -> Prop) s : Q a s -> wp (ret a) Q s.
Proof. done. Qed.

Lemma wp_bind {A B} (m : M S A) (k : A -> M S B) (Q : B -> S -> Prop) s :
  wp m (fun a => wp (k a) Q) s -> wp (bind m k) Q s.
Proof. unfold wp, bind. by destruct (m s) as [[a s']|]. Qed.

Lemma wp_mono {A} (m : M S A) (P Q : A -> S -> Prop) s :
  wp m P s -> (forall a s', P a s' -> Q a s') -> wp m Q s.
Proof. unfold wp. destruct (m s) as [[a s']|]; auto. Qed.

(** As [wp_mono], keeping the run that gave the result. *)
Lemma wp_mono_run {A} (m : M S A) (P Q : A -> S -> Prop) s :
  wp m P s -> (forall a s', m s = Some (a, s') -> P a s' -> Q a s') -> wp m Q s.
Proof. unfold wp. destruct (m s) as [[a s']|]; auto. Qed.

Lemma wp_and {A} (m : M S A) (P Q : A -> S -> Prop) s :
  wp m P s -> wp m Q s -> wp m (fun a s' => P a s' /\ Q a s') s.
Proof. unfold wp. destruct (m s) as [[a s']|]; auto. Qed.

Lemma wp_get (Q : S -> S -> Prop) s : Q s s -> wp get Q s.
Proof. done. Qed.

Lemma wp_modify (f : S -> S) (Q : unit -> S -> Prop) s :
  Q tt (f s) -> wp (modify f) Q s.
Proof. done. Qed.

Lemma wp_get_opt {A} (o : option A) a (Q : A -> S -> Prop) s :
  o = Some a -> Q a s -> wp (get_opt o) Q s.
Proof. by intros ->. Qed.

Lemma wp_if {A} (b : bool) (m1 m2 : M S A) (Q : A -> S -> Prop) s :
  (b = true -> wp m1 Q s) -> (b = false -> wp m2 Q s) ->
  wp (if b then m1 else m2) Q s.
Proof. destruct b; auto. Qed.

Lemma wp_match_option {A B} (o : option B) (f : B -> M S A) (m : M S A)
    (Q : A -> S -> Prop) s :
  (forall b, o = Some b -> wp (f b) Q s) -> (o = None -> wp m Q s) ->
  wp (match o with Some b => f b | None => m end) Q s.
Proof. destruct o; auto. Qed.

Lemma wp_run {A} (m : M S A) (Q : A -> S -> Prop) s :
  wp m Q s -> exists a s', m s = Some (a, s') /\ Q a s'.
Proof. unfold wp. destruct (m s) as [[a s']|]; eauto. done. Qed.

(** A run is known from its result alone. *)
Lemma run_result {A} (m : M S A) s a :
  fst <$> m s = Some a -> exists s', m s = Some (a, s').
Proof. destruct (m s) as [[b s']|]; [|done]. intros [= ->]. eauto. Qed.

Lemma run_wp {A} (m : M S A) (Q : A -> S -> Prop) s a s' :
  m s = Some (a, s') -> wp m Q s -> Q a s'.
Proof. unfold wp. by intros ->. Qed.

Lemma wp_known {A} (m : M S A) (Q : A -> S -> Prop) s a s' :
  m s = Some (a, s') -> Q a s' -> wp m Q s.
Proof. unfold wp. by intros ->. Qed.

Lemma bind_run {A B} (m : M S A) (k : A -> M S B) s a s' :
  m s = Some (a, s') -> bind m k s = k a s'.
Proof. intros H. unfold bind. by rewrite H. Qed.

Lemma bind_ret_l {A B} (a : A) (k : A -> M S B) s : bind (ret a) k s = k a s.
Proof. done. Qed.

Lemma bind_assoc {A B C} (m : M S A) (k : A -> M S B) (h : B -> M S C) s :
  bind (bind m k) h s = bind m (fun a => bind (k a) h) s.
Proof. unfold bind. by destruct (m s) as [[a s']|]. Qed.
End wp.

(** Hints that run a program's structure; component lemmas are added to the
    same database and are tried at calls. *)
Create HintDb wpdb discriminated.
#[export] Hint Opaque wp bind : wpdb.

(** One structural step of a [wp] goal. *)
Ltac wp_step :=
  lazymatch goal with
  | |- wp (bind _ _) _ _ => apply wp_bind
  | |- wp (ret _) _ _ => apply wp_ret
  | |- wp get _ _ => apply wp_get
  | |- wp (modify _) _ _ => apply wp_modify
  | |- wp (if ?b then _ else _) _ _ =>
      let H := fresh "Hb" in apply wp_if; intros H
  | |- wp (match ?o with Some _ => _ | None => _ end) _ _ =>
      let x := fresh "x" in let H := fresh "Ho" in
      apply wp_match_option; [intros x H|intros H]
  end; cbv beta.

(** Use the specification [H] of a called function, then continue. *)
Tactic Notation "wp_apply" uconstr(H) := eapply wp_mono; [eapply H|cbv beta].
Tactic Notation "wp_apply" uconstr(H) "as" simple_intropattern(p1)
    simple_intropattern(p2) simple_intropattern(p3) :=
  eapply wp_mono; [eapply H|cbv beta; intros p1 p2 p3].
