(* ===== verification/Enums.v ===== *)
(** * Enums: the enumerations of the statistics and of the default rules

    src/bpf_uapi/drop_stats.h, pass_stats.h, traffic_stats.h, tx_stats.h and
    default_index.h, with the position of every constructor in its C
    enumeration and the derived decidable equality. *)

From S2P Require Import Prelude.

(** An enumeration given by the list of its constructors in C order: its
    integer value is the position, and positions determine constructors. *)
Class Enumeration (T : Type) := {
  enum_values : list T;
  enum_index : T -> nat;
  enum_nth : forall x, enum_values !! enum_index x = Some x
}.

Definition enum_z `{Enumeration T} (x : T) : Z := Z.of_nat (enum_index x).

Lemma enum_index_inj `{Enumeration T} (x y : T) :
  enum_index x = enum_index y -> x = y.
Proof.
  intros E. pose proof (enum_nth x) as Hx. rewrite E, enum_nth in Hx. congruence.
Qed.

Lemma enum_z_range `{Enumeration T} (x : T) :
  0 <= enum_z x < Z.of_nat (length enum_values).
Proof.
  unfold enum_z. pose proof (lookup_lt_Some _ _ _ (enum_nth x)). lia.
Qed.

#[export] Instance enum_eq_dec `{Enumeration T} : EqDecision T.
Proof.
  intros x y. destruct (decide (enum_index x = enum_index y)) as [E|E].
  - left. by apply enum_index_inj.
  - right. by intros ->.
Defined.

(** ** drop_stats.h *)

Inductive XfwDropStat :=
  | XFW_DROP_ICMP_BLOCKED
  | XFW_DROP_SYN_RATE_LIMITED
  | XFW_DROP_RST_RATE_LIMITED
  | XFW_DROP_ICMP_RATE_LIMITED
  | XFW_DROP_ICMP_DEFAULT_BLOCKED
  | XFW_DROP_ICMP_DEFAULT_RATE_LIMITED
  | XFW_DROP_DST_BLOCKED
  | XFW_DROP_DST_RATE_LIMITED
  | XFW_DROP_SRC_PORT_BLOCKED
  | XFW_DROP_SRC_PORT_RATE_LIMITED
  | XFW_DROP_SRC_PORT_DEFAULT_BLOCKED
  | XFW_DROP_SRC_PORT_DEFAULT_RATE_LIMITED
  | XFW_DROP_SRC_IP_BLOCKED
  | XFW_DROP_SRC_IP_RATE_LIMITED
  | XFW_DROP_SRC_IP_DEFAULT_BLOCKED
  | XFW_DROP_SRC_IP_DEFAULT_RATE_LIMITED
  | XFW_DROP_TCP_ANOM_BAD_FLAGS
  | XFW_DROP_TCP_ANOM_SYN_BAD_SEQ
  | XFW_DROP_TCP_ANOM_SYN_NO_OPTIONS
  | XFW_DROP_TCP_ANOM_SYN_HAS_DATA
  | XFW_DROP_TCP_ANOM_ZERO_PORT
  | XFW_DROP_UDP_ANOM_ZERO_PORT
  | XFW_DROP_L2_UNKNOWN_INGRESS
  | XFW_DROP_ETH_BADHDR_INGRESS
  | XFW_DROP_IP4_BADHDR_INGRESS
  | XFW_DROP_IP4_FRAGMENTED_INGRESS
  | XFW_DROP_IP6_BADHDR_INGRESS
  | XFW_DROP_IP6_FRAGMENTED_INGRESS
  | XFW_DROP_TCP_BADHDR_INGRESS
  | XFW_DROP_UDP_BADHDR_INGRESS
  | XFW_DROP_ICMP_BADHDR_INGRESS
  | XFW_DROP_L4_UNSUPPORTED_INGRESS
  | XFW_DROP_TCP_AUTH_FAILED
  | XFW_DROP_TCP_AUTH_TIMEOUT
  | XFW_DROP_SYNCOOKIE_FAILED
  | XFW_DROP_DNS_BADHDR_INGRESS
  | XFW_DROP_DNS_QRY_RCODE_NOT_OK
  | XFW_DROP_DNS_BAD_QUESTION
  | XFW_DROP_DNS_MULTIPLE_QUESTIONS
  | XFW_DROP_DNS_ANS_OR_AUTHS_IN_QUERY
  | XFW_DROP_DNS_IXFR_ANOMALY
  | XFW_DROP_DNS_QRY_BAD_ARCOUNT
  | XFW_DROP_DNS_NOT_ASKED_RESPONSE
  | XFW_DROP_DNS_LARGE_RESPONSE
  | XFW_DROP_DNS_RESP_ANS_OVERLIMIT
  | XFW_DROP_DNS_BAD_RR
  | XFW_DROP_DNS_ANSWER_ANOMALY.

Definition XfwDropStat_values : list XfwDropStat :=
  [ XFW_DROP_ICMP_BLOCKED; XFW_DROP_SYN_RATE_LIMITED;
    XFW_DROP_RST_RATE_LIMITED; XFW_DROP_ICMP_RATE_LIMITED;
    XFW_DROP_ICMP_DEFAULT_BLOCKED; XFW_DROP_ICMP_DEFAULT_RATE_LIMITED;
    XFW_DROP_DST_BLOCKED; XFW_DROP_DST_RATE_LIMITED;
    XFW_DROP_SRC_PORT_BLOCKED; XFW_DROP_SRC_PORT_RATE_LIMITED;
    XFW_DROP_SRC_PORT_DEFAULT_BLOCKED;
    XFW_DROP_SRC_PORT_DEFAULT_RATE_LIMITED; XFW_DROP_SRC_IP_BLOCKED;
    XFW_DROP_SRC_IP_RATE_LIMITED; XFW_DROP_SRC_IP_DEFAULT_BLOCKED;
    XFW_DROP_SRC_IP_DEFAULT_RATE_LIMITED; XFW_DROP_TCP_ANOM_BAD_FLAGS;
    XFW_DROP_TCP_ANOM_SYN_BAD_SEQ; XFW_DROP_TCP_ANOM_SYN_NO_OPTIONS;
    XFW_DROP_TCP_ANOM_SYN_HAS_DATA; XFW_DROP_TCP_ANOM_ZERO_PORT;
    XFW_DROP_UDP_ANOM_ZERO_PORT; XFW_DROP_L2_UNKNOWN_INGRESS;
    XFW_DROP_ETH_BADHDR_INGRESS; XFW_DROP_IP4_BADHDR_INGRESS;
    XFW_DROP_IP4_FRAGMENTED_INGRESS; XFW_DROP_IP6_BADHDR_INGRESS;
    XFW_DROP_IP6_FRAGMENTED_INGRESS; XFW_DROP_TCP_BADHDR_INGRESS;
    XFW_DROP_UDP_BADHDR_INGRESS; XFW_DROP_ICMP_BADHDR_INGRESS;
    XFW_DROP_L4_UNSUPPORTED_INGRESS; XFW_DROP_TCP_AUTH_FAILED;
    XFW_DROP_TCP_AUTH_TIMEOUT; XFW_DROP_SYNCOOKIE_FAILED;
    XFW_DROP_DNS_BADHDR_INGRESS; XFW_DROP_DNS_QRY_RCODE_NOT_OK;
    XFW_DROP_DNS_BAD_QUESTION; XFW_DROP_DNS_MULTIPLE_QUESTIONS;
    XFW_DROP_DNS_ANS_OR_AUTHS_IN_QUERY; XFW_DROP_DNS_IXFR_ANOMALY;
    XFW_DROP_DNS_QRY_BAD_ARCOUNT; XFW_DROP_DNS_NOT_ASKED_RESPONSE;
    XFW_DROP_DNS_LARGE_RESPONSE; XFW_DROP_DNS_RESP_ANS_OVERLIMIT;
    XFW_DROP_DNS_BAD_RR; XFW_DROP_DNS_ANSWER_ANOMALY ].

Definition XfwDropStat_index (x : XfwDropStat) : nat :=
  match x with
  | XFW_DROP_ICMP_BLOCKED => 0
  | XFW_DROP_SYN_RATE_LIMITED => 1
  | XFW_DROP_RST_RATE_LIMITED => 2
  | XFW_DROP_ICMP_RATE_LIMITED => 3
  | XFW_DROP_ICMP_DEFAULT_BLOCKED => 4
  | XFW_DROP_ICMP_DEFAULT_RATE_LIMITED => 5
  | XFW_DROP_DST_BLOCKED => 6
  | XFW_DROP_DST_RATE_LIMITED => 7
  | XFW_DROP_SRC_PORT_BLOCKED => 8
  | XFW_DROP_SRC_PORT_RATE_LIMITED => 9
  | XFW_DROP_SRC_PORT_DEFAULT_BLOCKED => 10
  | XFW_DROP_SRC_PORT_DEFAULT_RATE_LIMITED => 11
  | XFW_DROP_SRC_IP_BLOCKED => 12
  | XFW_DROP_SRC_IP_RATE_LIMITED => 13
  | XFW_DROP_SRC_IP_DEFAULT_BLOCKED => 14
  | XFW_DROP_SRC_IP_DEFAULT_RATE_LIMITED => 15
  | XFW_DROP_TCP_ANOM_BAD_FLAGS => 16
  | XFW_DROP_TCP_ANOM_SYN_BAD_SEQ => 17
  | XFW_DROP_TCP_ANOM_SYN_NO_OPTIONS => 18
  | XFW_DROP_TCP_ANOM_SYN_HAS_DATA => 19
  | XFW_DROP_TCP_ANOM_ZERO_PORT => 20
  | XFW_DROP_UDP_ANOM_ZERO_PORT => 21
  | XFW_DROP_L2_UNKNOWN_INGRESS => 22
  | XFW_DROP_ETH_BADHDR_INGRESS => 23
  | XFW_DROP_IP4_BADHDR_INGRESS => 24
  | XFW_DROP_IP4_FRAGMENTED_INGRESS => 25
  | XFW_DROP_IP6_BADHDR_INGRESS => 26
  | XFW_DROP_IP6_FRAGMENTED_INGRESS => 27
  | XFW_DROP_TCP_BADHDR_INGRESS => 28
  | XFW_DROP_UDP_BADHDR_INGRESS => 29
  | XFW_DROP_ICMP_BADHDR_INGRESS => 30
  | XFW_DROP_L4_UNSUPPORTED_INGRESS => 31
  | XFW_DROP_TCP_AUTH_FAILED => 32
  | XFW_DROP_TCP_AUTH_TIMEOUT => 33
  | XFW_DROP_SYNCOOKIE_FAILED => 34
  | XFW_DROP_DNS_BADHDR_INGRESS => 35
  | XFW_DROP_DNS_QRY_RCODE_NOT_OK => 36
  | XFW_DROP_DNS_BAD_QUESTION => 37
  | XFW_DROP_DNS_MULTIPLE_QUESTIONS => 38
  | XFW_DROP_DNS_ANS_OR_AUTHS_IN_QUERY => 39
  | XFW_DROP_DNS_IXFR_ANOMALY => 40
  | XFW_DROP_DNS_QRY_BAD_ARCOUNT => 41
  | XFW_DROP_DNS_NOT_ASKED_RESPONSE => 42
  | XFW_DROP_DNS_LARGE_RESPONSE => 43
  | XFW_DROP_DNS_RESP_ANS_OVERLIMIT => 44
  | XFW_DROP_DNS_BAD_RR => 45
  | XFW_DROP_DNS_ANSWER_ANOMALY => 46
  end.

#[export] Instance XfwDropStat_enum : Enumeration XfwDropStat := {
  enum_values := XfwDropStat_values;
  enum_index := XfwDropStat_index;
  enum_nth := ltac:(by intros [])
}.

(** ** pass_stats.h *)

Inductive XfwPassStat :=
  | XFW_SRC_PORT_ALLOWED
  | XFW_SRC_IP_ALLOWED
  | XFW_ARP_INGRESS
  | XFW_GRE_INGRESS
  | XFW_SUPPORTED_PROTOCOL_INGRESS
  | XFW_PRELOAD_INGRESS
  | XFW_L2_UNKNOWN_EGRESS
  | XFW_ETH_BADHDR_EGRESS
  | XFW_L4_UNSUPPORTED_EGRESS
  | XFW_IP4_BADHDR_EGRESS
  | XFW_IP6_BADHDR_EGRESS
  | XFW_TCP_BADHDR_EGRESS
  | XFW_UDP_BADHDR_EGRESS
  | XFW_METADATA_CREATION_FAILED
  | XFW_ASSERT_FAILED.

Definition XfwPassStat_values : list XfwPassStat :=
  [ XFW_SRC_PORT_ALLOWED; XFW_SRC_IP_ALLOWED; XFW_ARP_INGRESS;
    XFW_GRE_INGRESS; XFW_SUPPORTED_PROTOCOL_INGRESS; XFW_PRELOAD_INGRESS;
    XFW_L2_UNKNOWN_EGRESS; XFW_ETH_BADHDR_EGRESS; XFW_L4_UNSUPPORTED_EGRESS;
    XFW_IP4_BADHDR_EGRESS; XFW_IP6_BADHDR_EGRESS; XFW_TCP_BADHDR_EGRESS;
    XFW_UDP_BADHDR_EGRESS; XFW_METADATA_CREATION_FAILED; XFW_ASSERT_FAILED ].

Definition XfwPassStat_index (x : XfwPassStat) : nat :=
  match x with
  | XFW_SRC_PORT_ALLOWED => 0
  | XFW_SRC_IP_ALLOWED => 1
  | XFW_ARP_INGRESS => 2
  | XFW_GRE_INGRESS => 3
  | XFW_SUPPORTED_PROTOCOL_INGRESS => 4
  | XFW_PRELOAD_INGRESS => 5
  | XFW_L2_UNKNOWN_EGRESS => 6
  | XFW_ETH_BADHDR_EGRESS => 7
  | XFW_L4_UNSUPPORTED_EGRESS => 8
  | XFW_IP4_BADHDR_EGRESS => 9
  | XFW_IP6_BADHDR_EGRESS => 10
  | XFW_TCP_BADHDR_EGRESS => 11
  | XFW_UDP_BADHDR_EGRESS => 12
  | XFW_METADATA_CREATION_FAILED => 13
  | XFW_ASSERT_FAILED => 14
  end.

#[export] Instance XfwPassStat_enum : Enumeration XfwPassStat := {
  enum_values := XfwPassStat_values;
  enum_index := XfwPassStat_index;
  enum_nth := ltac:(by intros [])
}.

(** ** traffic_stats.h *)

Inductive XfwTrafficStat :=
  | XFW_SYN
  | XFW_ACK
  | XFW_SYNACK
  | XFW_FIN
  | XFW_RST
  | XFW_IP4_TOTAL_INGRESS
  | XFW_IP6_TOTAL_INGRESS
  | XFW_TCP_TOTAL_INGRESS
  | XFW_UDP_TOTAL_INGRESS
  | XFW_ICMP_TOTAL_INGRESS
  | XFW_TOTAL_DOWNSTREAM_INGRESS
  | XFW_PASSED_DOWNSTREAM_INGRESS
  | XFW_IP4_TOTAL_EGRESS
  | XFW_IP6_TOTAL_EGRESS
  | XFW_TCP_TOTAL_EGRESS
  | XFW_UDP_TOTAL_EGRESS
  | XFW_TOTAL_DOWNSTREAM_EGRESS
  | XFW_TOTAL_UPSTREAM_EGRESS
  | XFW_PASSED_DOWNSTREAM_EGRESS
  | XFW_PASSED_UPSTREAM_EGRESS
  | XFW_SYNCOOKIE_RECEIVED
  | XFW_SYNCOOKIE_FAILED.

Definition XfwTrafficStat_values : list XfwTrafficStat :=
  [ XFW_SYN; XFW_ACK; XFW_SYNACK; XFW_FIN; XFW_RST; XFW_IP4_TOTAL_INGRESS;
    XFW_IP6_TOTAL_INGRESS; XFW_TCP_TOTAL_INGRESS; XFW_UDP_TOTAL_INGRESS;
    XFW_ICMP_TOTAL_INGRESS; XFW_TOTAL_DOWNSTREAM_INGRESS;
    XFW_PASSED_DOWNSTREAM_INGRESS; XFW_IP4_TOTAL_EGRESS;
    XFW_IP6_TOTAL_EGRESS; XFW_TCP_TOTAL_EGRESS; XFW_UDP_TOTAL_EGRESS;
    XFW_TOTAL_DOWNSTREAM_EGRESS; XFW_TOTAL_UPSTREAM_EGRESS;
    XFW_PASSED_DOWNSTREAM_EGRESS; XFW_PASSED_UPSTREAM_EGRESS;
    XFW_SYNCOOKIE_RECEIVED; XFW_SYNCOOKIE_FAILED ].

Definition XfwTrafficStat_index (x : XfwTrafficStat) : nat :=
  match x with
  | XFW_SYN => 0
  | XFW_ACK => 1
  | XFW_SYNACK => 2
  | XFW_FIN => 3
  | XFW_RST => 4
  | XFW_IP4_TOTAL_INGRESS => 5
  | XFW_IP6_TOTAL_INGRESS => 6
  | XFW_TCP_TOTAL_INGRESS => 7
  | XFW_UDP_TOTAL_INGRESS => 8
  | XFW_ICMP_TOTAL_INGRESS => 9
  | XFW_TOTAL_DOWNSTREAM_INGRESS => 10
  | XFW_PASSED_DOWNSTREAM_INGRESS => 11
  | XFW_IP4_TOTAL_EGRESS => 12
  | XFW_IP6_TOTAL_EGRESS => 13
  | XFW_TCP_TOTAL_EGRESS => 14
  | XFW_UDP_TOTAL_EGRESS => 15
  | XFW_TOTAL_DOWNSTREAM_EGRESS => 16
  | XFW_TOTAL_UPSTREAM_EGRESS => 17
  | XFW_PASSED_DOWNSTREAM_EGRESS => 18
  | XFW_PASSED_UPSTREAM_EGRESS => 19
  | XFW_SYNCOOKIE_RECEIVED => 20
  | XFW_SYNCOOKIE_FAILED => 21
  end.

#[export] Instance XfwTrafficStat_enum : Enumeration XfwTrafficStat := {
  enum_values := XfwTrafficStat_values;
  enum_index := XfwTrafficStat_index;
  enum_nth := ltac:(by intros [])
}.

(** ** tx_stats.h *)

Inductive XfwTxStat :=
  | XFW_SYNCOOKIE_GENERATED.

Definition XfwTxStat_values : list XfwTxStat :=
  [ XFW_SYNCOOKIE_GENERATED ].

Definition XfwTxStat_index (x : XfwTxStat) : nat :=
  match x with
  | XFW_SYNCOOKIE_GENERATED => 0
  end.

#[export] Instance XfwTxStat_enum : Enumeration XfwTxStat := {
  enum_values := XfwTxStat_values;
  enum_index := XfwTxStat_index;
  enum_nth := ltac:(by intros [])
}.

(** ** default_index.h *)

Inductive DefaultIndex :=
  | XFW_DEFAULT_SRC_IP_TCP_IP4
  | XFW_DEFAULT_SRC_IP_TCP_IP6
  | XFW_DEFAULT_SRC_IP_UDP_IP4
  | XFW_DEFAULT_SRC_IP_UDP_IP6
  | XFW_DEFAULT_SRC_PORT_TCP_IP4
  | XFW_DEFAULT_SRC_PORT_TCP_IP6
  | XFW_DEFAULT_SRC_PORT_UDP_IP4
  | XFW_DEFAULT_SRC_PORT_UDP_IP6
  | XFW_DEFAULT_DST_TCP_IP4
  | XFW_DEFAULT_DST_TCP_IP6
  | XFW_DEFAULT_DST_UDP_IP4
  | XFW_DEFAULT_DST_UDP_IP6
  | XFW_DEFAULT_ICMP_IP4
  | XFW_DEFAULT_ICMP_IP6.

Definition DefaultIndex_values : list DefaultIndex :=
  [ XFW_DEFAULT_SRC_IP_TCP_IP4; XFW_DEFAULT_SRC_IP_TCP_IP6;
    XFW_DEFAULT_SRC_IP_UDP_IP4; XFW_DEFAULT_SRC_IP_UDP_IP6;
    XFW_DEFAULT_SRC_PORT_TCP_IP4; XFW_DEFAULT_SRC_PORT_TCP_IP6;
    XFW_DEFAULT_SRC_PORT_UDP_IP4; XFW_DEFAULT_SRC_PORT_UDP_IP6;
    XFW_DEFAULT_DST_TCP_IP4; XFW_DEFAULT_DST_TCP_IP6;
    XFW_DEFAULT_DST_UDP_IP4; XFW_DEFAULT_DST_UDP_IP6; XFW_DEFAULT_ICMP_IP4;
    XFW_DEFAULT_ICMP_IP6 ].

Definition DefaultIndex_index (x : DefaultIndex) : nat :=
  match x with
  | XFW_DEFAULT_SRC_IP_TCP_IP4 => 0
  | XFW_DEFAULT_SRC_IP_TCP_IP6 => 1
  | XFW_DEFAULT_SRC_IP_UDP_IP4 => 2
  | XFW_DEFAULT_SRC_IP_UDP_IP6 => 3
  | XFW_DEFAULT_SRC_PORT_TCP_IP4 => 4
  | XFW_DEFAULT_SRC_PORT_TCP_IP6 => 5
  | XFW_DEFAULT_SRC_PORT_UDP_IP4 => 6
  | XFW_DEFAULT_SRC_PORT_UDP_IP6 => 7
  | XFW_DEFAULT_DST_TCP_IP4 => 8
  | XFW_DEFAULT_DST_TCP_IP6 => 9
  | XFW_DEFAULT_DST_UDP_IP4 => 10
  | XFW_DEFAULT_DST_UDP_IP6 => 11
  | XFW_DEFAULT_ICMP_IP4 => 12
  | XFW_DEFAULT_ICMP_IP6 => 13
  end.

#[export] Instance DefaultIndex_enum : Enumeration DefaultIndex := {
  enum_values := DefaultIndex_values;
  enum_index := DefaultIndex_index;
  enum_nth := ltac:(by intros [])
}.
