(* ===== verification/Uapi.v ===== *)
(** * Uapi: the data shared by the eBPF programs and the manager

    The constants, enumerations and structures of src/bpf_uapi: actions and
    rules, rate-limiter state, rule keys, statistics, the configuration that
    the manager writes to the [xfw_cfg] map, and the address helpers of
    ip_helpers.h.  C arrays indexed by an enumeration are functions on the
    enumeration; the other arrays are lists. *)

From S2P Require Import Prelude.
From S2P Require Import Enums.

(** ** protocols.h, supported_protocols.h, limits.h, types.h *)

Definition ETH_P_8021AD : Z := 0x88A8.
Definition ETH_P_8021Q : Z := 0x8100.
Definition ETH_P_IP : Z := 0x0800.
Definition ETH_P_IPV6 : Z := 0x86DD.
Definition ETH_P_ARP : Z := 0x0806.

Definition XFW_L4_PROTO_ICMP : Z := 1.
Definition XFW_L4_PROTO_TCP : Z := 6.
Definition XFW_L4_PROTO_UDP : Z := 17.
Definition XFW_L4_PROTO_GRE : Z := 47.
Definition XFW_L4_PROTO_ICMPV6 : Z := 58.
Definition XFW_SUPPORTED_PROTOCOL_MAX : Z := UINT8_MAX.

Definition XFW_MAX_PORTS : Z := 65535.
Definition XFW_MAX_SRC_IP_RULES : Z := 3000000.
Definition XFW_MAX_SRC_RATE_LIMITER_BUCKETS : Z := 1000000.
Definition XFW_MAX_DNS_QRS_TRACKER_BUCKETS : Z := 1000000.
Definition XFW_MAX_ICMP_RULES : Z := 255 * 2.
Definition XFW_MAX_DST_RULES : Z := 2000.
Definition XFW_MAX_NAMED_RATELIMITS : Z := 255.
Definition XFW_MAX_TCP_FLAG_RULES : Z := 2.
Definition XFW_MAX_DEFAULT_RULES : Z := 14.
Definition XFW_MAX_PROTECTED_NET_RULES : Z := 50.
Definition XFW_MAX_CONCURRENT_TCP_CONNECTIONS : Z := 1000000.
Definition XFW_MAX_RATE_LIMITER_BUCKETS : Z :=
  XFW_MAX_ICMP_RULES * 2 + XFW_MAX_DST_RULES * 2
  + XFW_MAX_TCP_FLAG_RULES * 2 + XFW_MAX_DEFAULT_RULES * 2.

Definition XFW_IP_VER_4 : Z := 1.
Definition XFW_IP_VER_6 : Z := 2.

(** [XfwPort] is a big-endian 16-bit integer. *)
Abbreviation XfwPort := Z (only parsing).

(** [XfwIp]: a union of four big-endian words and an [in6_addr]; the words. *)
Record XfwIp := mkIp { addr32_0 : Z; addr32_1 : Z; addr32_2 : Z; addr32_3 : Z }.

#[export] Instance XfwIp_eq_dec : EqDecision XfwIp.
Proof. solve_decision. Defined.
#[export] Instance XfwIp_countable : Countable XfwIp.
Proof.
  refine (inj_countable' (fun a => (addr32_0 a, addr32_1 a, addr32_2 a, addr32_3 a))
            (fun '(a, b, c, d) => mkIp a b c d) _).
  by intros [].
Defined.

Definition zero_ip : XfwIp := mkIp 0 0 0 0.

(** ** ip_helpers.h *)

Definition xfw_ipv4_to_ipv6_mapped (ipv4 : Z) : XfwIp :=
  mkIp 0 0 (bpf_htonl 0x0000ffff) ipv4.

Definition xfw_is_ipv6_mapped_to_ipv4 (a : XfwIp) : bool :=
  (addr32_0 a =? 0) && (addr32_1 a =? 0)
  && ((addr32_2 a =? 0) || (addr32_2 a =? bpf_htonl 0xffff)).

Definition xfw_assign_ip4_addr (ipv4 : Z) : XfwIp := mkIp 0 0 0 ipv4.

(** ** map_names.h: primary and secondary maps *)

Definition MAP_PRIMARY_IDX : Z := 0.
Definition MAP_SECONDARY_IDX : Z := 1.

Definition next_map_idx (idx : Z) : Z :=
  if idx =? MAP_PRIMARY_IDX then MAP_SECONDARY_IDX else MAP_PRIMARY_IDX.

(** A pair of maps declared with [SHADOW_MAP]. *)
Record ShadowPair (T : Type) := mkShadow { sh_primary : T; sh_secondary : T }.
Arguments mkShadow {T}.
Arguments sh_primary {T}.
Arguments sh_secondary {T}.

Definition SELECT_SHADOW_MAP {T} (m : ShadowPair T) (idx : Z) : T :=
  if negb (Z.land idx MAP_SECONDARY_IDX =? 0) then sh_secondary m
  else sh_primary m.

(** ** action_rules.h *)

(** [enum XfwAction : uint8_t]; the rules store it in an integer field. *)
Definition XFW_ACTION_ALLOW : Z := 0.
Definition XFW_ACTION_BLOCK : Z := 1.
Definition XFW_ACTION_RATE_LIMIT : Z := 2.

Record XfwSrcRule := mkSrcRule { src_action : Z; src_named_idx : Z }.

(** The C++ constructor from an [allow] flag and an optional rate limit; the
    index is narrowed to [XfwRLimitIdx]. *)
Definition XfwSrcRule_of (allow : bool) (ratelimit : option Z) : XfwSrcRule :=
  if negb allow then mkSrcRule XFW_ACTION_BLOCK UINT8_MAX
  else match ratelimit with
       | Some i => mkSrcRule XFW_ACTION_RATE_LIMIT (u8 i)
       | None => mkSrcRule XFW_ACTION_ALLOW UINT8_MAX
       end.

Record XfwRLimitSlot := mkSlot { window_idx : Z; pkts : Z; bytes : Z }.

(** [slot[2]], the current and the previous window. *)
Record XfwRLimitSlidingWindow := mkWindow {
  slot0 : XfwRLimitSlot;
  slot1 : XfwRLimitSlot
}.

Definition zero_slot : XfwRLimitSlot := mkSlot 0 0 0.
Definition zero_window : XfwRLimitSlidingWindow := mkWindow zero_slot zero_slot.

Record XfwRLimitRule := mkRLimitRule { bucket_idx : Z; named_idx : Z }.

(** The default constructor marks both indices invalid. *)
Definition XfwRLimitRule_invalid : XfwRLimitRule :=
  mkRLimitRule UINT32_MAX UINT8_MAX.

Record XfwActionRule := mkActionRule { action : Z; rlimit : XfwRLimitRule }.

Definition XfwActionRule_default : XfwActionRule :=
  mkActionRule XFW_ACTION_ALLOW XfwRLimitRule_invalid.

Definition XfwActionRule_of (allow : bool) (ratelimit : option Z)
    : XfwActionRule :=
  if negb allow then mkActionRule XFW_ACTION_BLOCK XfwRLimitRule_invalid
  else match ratelimit with
       | Some i => mkActionRule XFW_ACTION_RATE_LIMIT
                     (mkRLimitRule UINT32_MAX i)
       | None => mkActionRule XFW_ACTION_ALLOW XfwRLimitRule_invalid
       end.

#[export] Instance XfwSrcRule_eq_dec : EqDecision XfwSrcRule.
Proof. solve_decision. Defined.
#[export] Instance XfwRLimitRule_eq_dec : EqDecision XfwRLimitRule.
Proof. solve_decision. Defined.
#[export] Instance XfwActionRule_eq_dec : EqDecision XfwActionRule.
Proof. solve_decision. Defined.

(** ** proto_keys.h: the keys of the rule maps *)

Record XfwIpv4LpmKey := mkIpv4LpmKey { prefixlen4 : Z; lpm_addr4 : Z }.
Record XfwIpv6LpmKey := mkIpv6LpmKey { prefixlen6 : Z; lpm_addr6 : XfwIp }.
Record XfwIcmpKey := mkIcmpKey { icmp_proto : Z; icmp_type : Z }.
Record XfwDstKey := mkDstKey {
  dst_ipver : Z;
  dst_proto : Z;
  dst_port : XfwPort;
  dst_addr : XfwIp
}.

#[export] Instance XfwIpv4LpmKey_eq_dec : EqDecision XfwIpv4LpmKey.
Proof. solve_decision. Defined.
#[export] Instance XfwIpv4LpmKey_countable : Countable XfwIpv4LpmKey.
Proof.
  refine (inj_countable' (fun k => (prefixlen4 k, lpm_addr4 k))
            (fun '(p, a) => mkIpv4LpmKey p a) _).
  by intros [].
Defined.
#[export] Instance XfwIpv6LpmKey_eq_dec : EqDecision XfwIpv6LpmKey.
Proof. solve_decision. Defined.
#[export] Instance XfwIpv6LpmKey_countable : Countable XfwIpv6LpmKey.
Proof.
  refine (inj_countable' (fun k => (prefixlen6 k, lpm_addr6 k))
            (fun '(p, a) => mkIpv6LpmKey p a) _).
  by intros [].
Defined.
#[export] Instance XfwIcmpKey_eq_dec : EqDecision XfwIcmpKey.
Proof. solve_decision. Defined.
#[export] Instance XfwIcmpKey_countable : Countable XfwIcmpKey.
Proof.
  refine (inj_countable' (fun k => (icmp_proto k, icmp_type k))
            (fun '(p, t) => mkIcmpKey p t) _).
  by intros [].
Defined.
#[export] Instance XfwDstKey_eq_dec : EqDecision XfwDstKey.
Proof. solve_decision. Defined.
#[export] Instance XfwDstKey_countable : Countable XfwDstKey.
Proof.
  refine (inj_countable'
            (fun k => (dst_ipver k, dst_proto k, dst_port k, dst_addr k))
            (fun '(v, p, q, a) => mkDstKey v p q a) _).
  by intros [].
Defined.

(** ** stats.h *)

Record XfwPacketStats := mkPacketStats { st_packets : Z; st_bytes : Z }.

Record XfwPerCpuStats := mkPerCpuStats {
  st_pass : XfwPassStat -> XfwPacketStats;
  st_transmitted : XfwTxStat -> XfwPacketStats;
  st_traffic : XfwTrafficStat -> XfwPacketStats
}.

(** [operator+=], with the wrap-around of [uint64_t]. *)
Definition XfwPacketStats_add (a b : XfwPacketStats) : XfwPacketStats :=
  mkPacketStats (u64 (st_packets a + st_packets b))
                (u64 (st_bytes a + st_bytes b)).

Definition XfwPerCpuStats_add (a b : XfwPerCpuStats) : XfwPerCpuStats :=
  mkPerCpuStats
    (fun i => XfwPacketStats_add (st_pass a i) (st_pass b i))
    (fun i => XfwPacketStats_add (st_transmitted a i) (st_transmitted b i))
    (fun i => XfwPacketStats_add (st_traffic a i) (st_traffic b i)).

Definition zero_stats : XfwPerCpuStats :=
  mkPerCpuStats (fun _ => mkPacketStats 0 0) (fun _ => mkPacketStats 0 0)
                (fun _ => mkPacketStats 0 0).

(** ** config.h *)

Record XfwRulesCfgTcpAnomaly := mkTcpAnomaly {
  ta_enabled : bool;
  ta_syn_without_opt_enabled : bool;
  ta_syn_with_payload_enabled : bool;
  ta_syn_seqno_enabled : bool;
  ta_syn_seqno_value : Z;
  ta_bad_flags : list Z
}.

Record XfwRulesCfgSyncookie := mkSyncookie {
  sc_passive_timer_jiff : Z;
  sc_flood_timer_jiff : Z;
  sc_enabled : bool
}.

Inductive XfwFlagsFilter := XFW_FLAGS_FILTER_SYN | XFW_FLAGS_FILTER_RST.

#[export] Instance XfwFlagsFilter_eq_dec : EqDecision XfwFlagsFilter.
Proof. solve_decision. Defined.

Record XfwRulesCfg := mkRulesCfg {
  rc_evaluation_mode : bool;
  rc_ip_proto : list Z;
  rc_syncookie : XfwRulesCfgSyncookie;
  rc_tcp_anomaly : XfwRulesCfgTcpAnomaly;
  rc_tcp_auth : bool;
  rc_dns : bool;
  rc_tcp_flags : XfwFlagsFilter -> XfwActionRule;
  rc_defaults : DefaultIndex -> XfwActionRule
}.

Record XfwPacketRate := mkRate { rate_packets : Z; rate_bytes : Z }.

Record XfwRlWindow := mkRlWindow { wnd_jiffies : Z; wnd_shift : Z; wnd_mask : Z }.

Record XfwFilterCfg := mkFilterCfg {
  rules : XfwRulesCfg;
  rules_active : bool;
  amap_src : Z;
  amap_icmp : Z;
  amap_dst : Z;
  amap_prot_net : Z;
  rl_window : XfwRlWindow;
  named_rates : list XfwPacketRate
}.

(** What the C types fix: the lengths of the arrays ([DECLARE_BITSET64] for
    256 bits, [named_rates[XFW_MAX_NAMED_RATELIMITS]]). *)
Record cfg_wf (c : XfwFilterCfg) : Prop := {
  wf_ip_proto : length (rc_ip_proto (rules c)) = 4%nat;
  wf_bad_flags : length (ta_bad_flags (rc_tcp_anomaly (rules c))) = 4%nat;
  wf_named_rates : Z.of_nat (length (named_rates c)) = XFW_MAX_NAMED_RATELIMITS
}.

(** ** incident_log_types.h *)

Definition MAX_INCIDENTS_PER_CPU : Z := Z.shiftl 1 18.
Definition INCIDENT_FLUSH_THRESHOLD : Z := MAX_INCIDENTS_PER_CPU * 4 / 5.

Record IncidentLogStat := mkIncidentLogStat {
  il_reason : Z;
  il_packets : Z;
  il_bytes : Z
}.

Record IncidentPerCpuNotifyInfo := mkNotifyInfo { swap_ts : Z; drop_cnt : Z }.

(** ** Lemmas *)

(** The two indices name the two maps of a pair, and [next_map_idx] moves
    from one to the other. *)
Lemma select_next_map {T} (m : ShadowPair T) idx :
  idx = MAP_PRIMARY_IDX \/ idx = MAP_SECONDARY_IDX ->
  next_map_idx (next_map_idx idx) = idx
  /\ SELECT_SHADOW_MAP m (next_map_idx idx)
     = (if idx =? 0 then sh_secondary m else sh_primary m).
Proof. by intros [-> | ->]. Qed.

(** Every drop reason has a bit of its own in [IncidentLogReasons]. *)
Lemma drop_stat_fits (r : XfwDropStat) : 0 <= enum_z r < 64.
Proof. pose proof (enum_z_range r) as H. simpl in H. lia. Qed.
