(* ===== verification/Kernel.v ===== *)
(** * Kernel: the interface of the eBPF runtime

    The programs call the Linux kernel through eBPF helpers.  That code is not
    part of the repository, so it is a parameter: the record [Kernel] holds one
    function per helper whose result the sources do not determine, and the
    class [KernelSpec] states the documented behaviour the proofs rely on.
    [ref_kernel] is a concrete instance, used to evaluate the programs. *)

From S2P Require Import Prelude.
From S2P Require Import Enums.
From S2P Require Import Uapi.

Definition ENOENT : Z := 2.
Definition E2BIG : Z := 7.
Definition ENOMEM : Z := 12.
Definition EEXIST : Z := 17.
Definition EINVAL : Z := 22.
Definition EFBIG : Z := 27.

Definition BPF_ANY : Z := 0.
Definition BPF_NOEXIST : Z := 1.
Definition BPF_TCP_LISTEN : Z := 10.

(** ** Maps updated by the programs

    [bpf_map_update_elem(map, key, value, flags)]: the return code and the
    contents of the map afterwards. *)
Definition MapUpdate (K V : Type) `{Countable K} : Type :=
  gmap K V -> K -> V -> Z -> Z * gmap K V.

(** BPF_MAP_TYPE_LRU_HASH: an update may evict other entries, never invents
    or changes one; a negative code means that the entry was not written. *)
Class LruUpdateSpec {K V} `{Countable K} (upd : MapUpdate K V) : Prop := {
  lru_ok : forall m k v f r m', upd m k v f = (r, m') -> 0 <= r ->
    m' !! k = Some v
    /\ forall k' v', k' <> k -> m' !! k' = Some v' -> m !! k' = Some v';
  lru_err : forall m k v f r m', upd m k v f = (r, m') -> r < 0 -> m' ⊆ m;
  lru_noexist : forall m k v x, m !! k = Some x ->
    upd m k v BPF_NOEXIST = (- EEXIST, m)
}.

(** BPF_MAP_TYPE_HASH: a successful update is an insertion, a failed one has
    no effect. *)
Class HashUpdateSpec {K V} `{Countable K} (upd : MapUpdate K V) : Prop := {
  hash_ok : forall m k v f r m', upd m k v f = (r, m') -> 0 <= r ->
    m' = <[k := v]> m;
  hash_err : forall m k v f r m', upd m k v f = (r, m') -> r < 0 -> m' = m;
  hash_noexist : forall m k v x, m !! k = Some x ->
    upd m k v BPF_NOEXIST = (- EEXIST, m)
}.

(** ** Longest-prefix match

    [BPF_MAP_TYPE_LPM_TRIE] compares addresses from the most significant bit
    of their first byte; [key_matches w p a x]: the [p]-bit prefixes of the
    [w]-bit numbers [a] and [x] agree. *)
Definition key_matches (w p a x : Z) : bool :=
  (0 <=? p) && (p <=? w) && (Z.shiftr a (w - p) =? Z.shiftr x (w - p)).

(** The numeric value of an address in network byte order. *)
Definition ip4_value (a : Z) : Z := bswap32 a.
Definition ip6_value (a : XfwIp) : Z :=
  bswap32 (addr32_0 a) * 2 ^ 96 + bswap32 (addr32_1 a) * 2 ^ 64
  + bswap32 (addr32_2 a) * 2 ^ 32 + bswap32 (addr32_3 a).

Definition lpm4_matches (k : XfwIpv4LpmKey) (addr : Z) : bool :=
  key_matches 32 (prefixlen4 k) (ip4_value (lpm_addr4 k)) (ip4_value addr).
Definition lpm6_matches (k : XfwIpv6LpmKey) (addr : XfwIp) : bool :=
  key_matches 128 (prefixlen6 k) (ip6_value (lpm_addr6 k)) (ip6_value addr).

(** ** Sockets *)

(** [XfwSockAddr] of tcp_auth.h, the key of the connection map; its reserved
    bytes are always zero. *)
Record XfwSockAddr := mkSockAddr { sa_addr : XfwIp; sa_port : XfwPort }.

#[export] Instance XfwSockAddr_eq_dec : EqDecision XfwSockAddr.
Proof. solve_decision. Defined.
#[export] Instance XfwSockAddr_countable : Countable XfwSockAddr.
Proof.
  refine (inj_countable' (fun k => (sa_addr k, sa_port k))
            (fun '(a, p) => mkSockAddr a p) _).
  by intros [].
Defined.

(** [struct bpf_sock_tuple]. *)
Inductive SockTuple :=
  | tuple_ipv4 (saddr daddr sport dport : Z)
  | tuple_ipv6 (saddr daddr : XfwIp) (sport dport : Z).

Record Kernel := mkKernel {
  k_lpm4 : forall {V}, gmap XfwIpv4LpmKey V -> Z -> option V;
  k_lpm6 : forall {V}, gmap XfwIpv6LpmKey V -> XfwIp -> option V;
  (** updates of the maps the programs write *)
  k_upd_src_ratelim : MapUpdate XfwIp XfwRLimitSlidingWindow;
  k_upd_src_port_rl : MapUpdate Z XfwRLimitSlidingWindow;
  k_upd_tcp_conns : MapUpdate XfwSockAddr Z;
  k_upd_dns_egr : MapUpdate Z Z;
  k_upd_incidents : MapUpdate XfwIp IncidentLogStat;
  (** [bpf_sk_lookup_tcp]: the state of the socket found *)
  k_sk_lookup_tcp : SockTuple -> option Z;
  (** [bpf_tcp_gen_syncookie] on the IP and TCP header bytes *)
  k_tcp_gen_syncookie : list Z -> list Z -> Z;
  k_raw_check_syncookie_ipv4 : list Z -> list Z -> Z;
  k_raw_check_syncookie_ipv6 : list Z -> list Z -> Z;
  (** [bpf_csum_diff(0, 0, to, to_size, 0)] *)
  k_csum_diff : list Z -> Z;
  (** [bpf_xdp_load_bytes]: the bytes copied, or an error *)
  k_xdp_load_bytes : list Z -> Z -> Z -> option (list Z)
}.

(** The sum of the 16-bit words of a buffer, low byte first. *)
Fixpoint sum16 (l : list Z) : Z :=
  match l with
  | a :: b :: r => a + 256 * b + sum16 r
  | [a] => a
  | [] => 0
  end.

Class KernelSpec (K : Kernel) : Prop := {
  lpm4_some : forall V (m : gmap XfwIpv4LpmKey V) a v, k_lpm4 K m a = Some v ->
    exists k, m !! k = Some v /\ lpm4_matches k a = true
      /\ forall k' v', m !! k' = Some v' -> lpm4_matches k' a = true ->
           prefixlen4 k' <= prefixlen4 k;
  lpm4_none : forall V (m : gmap XfwIpv4LpmKey V) a, k_lpm4 K m a = None ->
    forall k v, m !! k = Some v -> lpm4_matches k a = false;
  lpm6_some : forall V (m : gmap XfwIpv6LpmKey V) a v, k_lpm6 K m a = Some v ->
    exists k, m !! k = Some v /\ lpm6_matches k a = true
      /\ forall k' v', m !! k' = Some v' -> lpm6_matches k' a = true ->
           prefixlen6 k' <= prefixlen6 k;
  lpm6_none : forall V (m : gmap XfwIpv6LpmKey V) a, k_lpm6 K m a = None ->
    forall k v, m !! k = Some v -> lpm6_matches k a = false;
  #[global] spec_src_ratelim :: LruUpdateSpec (k_upd_src_ratelim K);
  #[global] spec_src_port_rl :: HashUpdateSpec (k_upd_src_port_rl K);
  #[global] spec_tcp_conns :: LruUpdateSpec (k_upd_tcp_conns K);
  #[global] spec_dns_egr :: LruUpdateSpec (k_upd_dns_egr K);
  #[global] spec_incidents :: HashUpdateSpec (k_upd_incidents K);
  (** the helper sums the buffer in 32-bit one's complement arithmetic *)
  csum_diff_ok : forall l, (length l mod 4 = 0)%nat -> (length l <= 512)%nat ->
    Forall is_byte l ->
    0 <= k_csum_diff K l < 2 ^ 32 /\ k_csum_diff K l mod 65535 = sum16 l mod 65535;
  (** a copy succeeds exactly inside the packet *)
  load_bytes_ok : forall p off n,
    0 <= off -> 0 < n -> k_xdp_load_bytes K p off n = slice p off n
}.

(** ** A reference instance *)

Section reference.
Context {K V : Type} `{Countable K}.

Definition ref_hash_update (cap : nat) : MapUpdate K V :=
  fun m k v f =>
    if bool_decide (is_Some (m !! k)) then
      if f =? BPF_NOEXIST then (- EEXIST, m) else (0, <[k := v]> m)
    else if bool_decide (cap <= size m)%nat then (- E2BIG, m)
    else (0, <[k := v]> m).

(** A full map gives up its first entry. *)
Definition ref_lru_update (cap : nat) : MapUpdate K V :=
  fun m k v f =>
    if bool_decide (is_Some (m !! k)) then
      if f =? BPF_NOEXIST then (- EEXIST, m) else (0, <[k := v]> m)
    else if bool_decide (cap <= size m)%nat then
      match map_to_list m with
      | (k0, _) :: _ => (0, <[k := v]> (delete k0 m))
      | [] => (0, <[k := v]> m)
      end
    else (0, <[k := v]> m).

#[global] Instance ref_hash_update_spec cap :
  HashUpdateSpec (ref_hash_update cap).
Proof.
  split; unfold ref_hash_update.
  - intros. repeat case_match; simplify_eq; done.
  - intros. repeat case_match; simplify_eq; done.
  - intros m k v x Hx. by rewrite bool_decide_true by eauto.
Qed.

#[global] Instance ref_lru_update_spec cap : LruUpdateSpec (ref_lru_update cap).
Proof.
  split; unfold ref_lru_update.
  - intros m k v f r m' E Hr.
    repeat case_match; simplify_eq; try done;
      (split; [by rewrite lookup_insert_eq|]; intros k' v' Hne;
       rewrite lookup_insert_ne by done; rewrite ?lookup_delete_Some; naive_solver).
  - intros. repeat case_match; simplify_eq; done.
  - intros m k v x Hx. by rewrite bool_decide_true by eauto.
Qed.

(** The best match of a list of candidates. *)
Definition lpm_best (len : K -> Z) (ok : K -> bool) (acc : option (K * V))
    (kv : K * V) : option (K * V) :=
  if ok kv.1 then
    match acc with
    | Some kv' => if len kv'.1 <? len kv.1 then Some kv else acc
    | None => Some kv
    end
  else acc.

Definition ref_lpm (len : K -> Z) (ok : K -> bool) (m : gmap K V) : option V :=
  snd <$> foldl (lpm_best len ok) None (map_to_list m).

Lemma lpm_fold len ok (l : list (K * V)) acc :
  (forall kv, acc = Some kv -> ok kv.1 = true) ->
  match foldl (lpm_best len ok) acc l with
  | Some kv => (acc = Some kv \/ kv ∈ l) /\ ok kv.1 = true
      /\ (forall kv', acc = Some kv' \/ kv' ∈ l -> ok kv'.1 = true ->
            len kv'.1 <= len kv.1)
  | None => acc = None /\ forall kv', kv' ∈ l -> ok kv'.1 = false
  end.
Proof.
  revert acc. induction l as [|kv l IH]; intros acc Hacc; simpl.
  - destruct acc as [kv|]; [|split; [done|set_solver]].
    split; [by left|]. split; [by apply Hacc|].
    intros kv' [Hk|Hk] _; [simplify_eq; lia|set_solver].
  - specialize (IH (lpm_best len ok acc kv)).
    assert (forall kv', lpm_best len ok acc kv = Some kv' -> ok kv'.1 = true) as Hb.
    { intros kv'. unfold lpm_best. repeat case_match; naive_solver. }
    specialize (IH Hb). destruct (foldl _ _ l) as [r|].
    + destruct IH as (Hin & Hok & Hmax). unfold lpm_best in *.
      split; [|split; [done|]].
      * destruct Hin as [Hin|Hin]; [|set_solver].
        repeat case_match; simplify_eq; set_solver.
      * intros kv' Hk Hok'. destruct Hk as [Hk|[->|Hk]%elem_of_cons];
          [| |apply Hmax; auto].
        -- subst acc. repeat case_match; simplify_eq; try (apply Hmax; auto; done).
           specialize (Hmax kv (or_introl eq_refl)). naive_solver lia.
        -- rewrite Hok' in Hmax. repeat case_match; simplify_eq;
             try (apply Hmax; auto; done).
           specialize (Hmax _ (or_introl eq_refl) (Hacc _ eq_refl)). lia.
    + destruct IH as (Hnone & Hall). unfold lpm_best in Hnone.
      repeat case_match; simplify_eq; split; try done; set_solver.
Qed.

Lemma ref_lpm_some len ok m v :
  ref_lpm len ok m = Some v ->
  exists k, m !! k = Some v /\ ok k = true
    /\ forall k' v', m !! k' = Some v' -> ok k' = true -> len k' <= len k.
Proof.
  unfold ref_lpm. intros E. pose proof (lpm_fold len ok (map_to_list m) None) as Hf.
  destruct (foldl _ _ _) as [[k v0]|]; simplify_eq/=.
  destruct Hf as ([|Hin] & Hok & Hmax); try done. exists k.
  split; [by apply elem_of_map_to_list|]. split; [done|].
  intros k' v' Hk Hok'. apply (Hmax (k', v')); [|done].
  right. by apply elem_of_map_to_list.
Qed.

Lemma ref_lpm_none len ok m k v :
  ref_lpm len ok m = None -> m !! k = Some v -> ok k = false.
Proof.
  unfold ref_lpm. intros E Hk. pose proof (lpm_fold len ok (map_to_list m) None) as Hf.
  destruct (foldl _ _ _) as [[k0 v0]|]; simplify_eq/=.
  apply (proj2 (Hf ltac:(done)) (k, v)). by apply elem_of_map_to_list.
Qed.
End reference.

Definition ref_csum_diff (l : list Z) : Z :=
  if (length l <=? 512)%nat then sum16 l else - EINVAL.

(** Capacities, listening sockets and cookie functions are free. *)
Definition ref_kernel (cap : nat) (socks : SockTuple -> option Z)
    (gen check4 check6 : list Z -> list Z -> Z) : Kernel := {|
  k_lpm4 := fun V m a => ref_lpm prefixlen4 (fun k => lpm4_matches k a) m;
  k_lpm6 := fun V m a => ref_lpm prefixlen6 (fun k => lpm6_matches k a) m;
  k_upd_src_ratelim := ref_lru_update cap;
  k_upd_src_port_rl := ref_hash_update cap;
  k_upd_tcp_conns := ref_lru_update cap;
  k_upd_dns_egr := ref_lru_update cap;
  k_upd_incidents := ref_hash_update cap;
  k_sk_lookup_tcp := socks;
  k_tcp_gen_syncookie := gen;
  k_raw_check_syncookie_ipv4 := check4;
  k_raw_check_syncookie_ipv6 := check6;
  k_csum_diff := ref_csum_diff;
  k_xdp_load_bytes := fun p off n => slice p off n
|}.

Lemma sum16_range l :
  Forall is_byte l -> 0 <= sum16 l <= 65535 * Z.of_nat (length l).
Proof.
  remember (length l) as n eqn:Hn. revert l Hn.
  induction (lt_wf n) as [n _ IH]. intros [|a [|b r]] -> Hl; simpl in *.
  - lia.
  - inv Hl. unfold is_byte in *. lia.
  - inversion_clear Hl as [|? ? Ha Hl']. inversion_clear Hl' as [|? ? Hb Hr].
    pose proof (IH (length r) ltac:(lia) r eq_refl Hr). unfold is_byte in *. lia.
Qed.

#[export] Instance ref_kernel_spec cap socks gen check4 check6 :
  KernelSpec (ref_kernel cap socks gen check4 check6).
Proof.
  split; simpl; try apply _.
  - intros V m a v E. exact (ref_lpm_some _ _ _ _ E).
  - intros V m a E k v Hk. exact (ref_lpm_none _ _ _ _ _ E Hk).
  - intros V m a v E. exact (ref_lpm_some _ _ _ _ E).
  - intros V m a E k v Hk. exact (ref_lpm_none _ _ _ _ _ E Hk).
  - intros l _ Hlen Hl. unfold ref_csum_diff.
    rewrite (proj2 (Nat.leb_le _ _)) by lia.
    pose proof (sum16_range l Hl). split; [lia|done].
  - done.
Qed.
