(* ===== verification/Ctx.v ===== *)
(** * Ctx: the packet context, the program state and its primitive operations

    src/bpf/ctx.h and the counting and verdict macros of src/bpf/filter.h.  The
    state holds what a program run can read and write: the packet bytes, the
    metadata in front of them, the packet context and the maps shared by the
    programs.  Pointers into the packet are offsets from [data], so [data] is 0
    and [data_end] is the length of the packet.  At the end are concrete values on
    which the programs are evaluated. *)

From S2P Require Import Prelude.
From S2P Require Import Enums.
From S2P Require Import Uapi.
From S2P Require Import Kernel.

(** The hook a program is compiled for: [XFW_XDP] or [XFW_TC]. *)
Inductive Hook := HOOK_XDP | HOOK_TC.

Definition XDP_DROP : Z := 1.
Definition XDP_PASS : Z := 2.
Definition XDP_TX : Z := 3.
Definition TC_ACT_OK : Z := 0.
Definition TC_ACT_SHOT : Z := 2.

Definition CTX_PASS (h : Hook) : Z :=
  match h with HOOK_XDP => XDP_PASS | HOOK_TC => TC_ACT_OK end.
Definition CTX_DROP (h : Hook) : Z :=
  match h with HOOK_XDP => XDP_DROP | HOOK_TC => TC_ACT_SHOT end.

Definition XFW_CTX_CONTINUE : Z := 128.

Definition XFW_MODE_HOST : Z := 0.
Definition XFW_MODE_GW : Z := 1.
Definition XFW_MODE_SCRUBBER : Z := 2.

(** ** Read-only inputs of a run

    The rule maps, which only the manager writes, and the results of the
    helpers that read the environment. *)

Record RuleMaps := mkRuleMaps {
  map_src_4_udp : ShadowPair (gmap XfwIpv4LpmKey XfwSrcRule);
  map_src_4_tcp : ShadowPair (gmap XfwIpv4LpmKey XfwSrcRule);
  map_src_6_udp : ShadowPair (gmap XfwIpv6LpmKey XfwSrcRule);
  map_src_6_tcp : ShadowPair (gmap XfwIpv6LpmKey XfwSrcRule);
  map_src_p_udp : ShadowPair (gmap XfwPort XfwSrcRule);
  map_src_p_tcp : ShadowPair (gmap XfwPort XfwSrcRule);
  map_icmp : ShadowPair (gmap XfwIcmpKey XfwActionRule);
  map_dst : ShadowPair (gmap XfwDstKey XfwActionRule);
  map_net_ip4 : ShadowPair (gmap XfwIpv4LpmKey Z);
  map_net_ip6 : ShadowPair (gmap XfwIpv6LpmKey Z)
}.

(** [XfwPacketMetadata] of dns.h. *)
Record XfwPacketMetadata := mkMetadata {
  md_cur_pos : Z;
  md_ip_off : Z;
  md_is_ipv4 : Z;
  md_unused : Z
}.

Record Env := mkEnv {
  e_hook : Hook;
  e_kernel : Kernel;
  e_rules : RuleMaps;
  (** [bpf_map_lookup_elem] on [xfw_cfg] and on the per-CPU statistics *)
  e_cfg : option XfwFilterCfg;
  e_has_stats : bool;
  (** [bpf_jiffies64], [bpf_ktime_get_ns], the CPU and [CONFIG_HZ] *)
  e_jiffies : Z;
  e_ktime_ns : Z;
  e_cpu : Z;
  e_hz : Z;
  (** load-time constants *)
  e_deployment_mode : Z;
  e_dns_mode : bool;
  (** [bpf_xdp_adjust_meta]: the contents of the new area, or a failure *)
  e_adjust_meta : option XfwPacketMetadata
}.

(** ** The packet context *)

Record XfwHdrCursor := mkCursor { pos : Z; cend : Z }.

Record XfwGlobalCtx := mkCtx {
  cfg : XfwFilterCfg;
  hdr_cur : XfwHdrCursor;
  ilog_addr : XfwIp;
  ts_jiff : Z;
  pkt_sz : Z;
  ipver : Z;
  l4_off : Z;
  ip_off : Z;
  l4_proto : Z
}.

(** ** State *)

(** incident_log_maps.h: the map of every CPU's active log (the value is the
    address of the log map), the log maps by address, and the two per-CPU
    one-element arrays. *)
Record IncidentPerCpuBpfOnlyInfo := mkBpfOnlyInfo {
  last_used_map_hint : Z;
  insert_cnt : Z
}.

Record IncidentLog := mkIncidentLog {
  ilog_active_fd : gmap Z Z;
  ilog_maps : gmap Z (gmap XfwIp IncidentLogStat);
  ilog_events : option IncidentPerCpuNotifyInfo;
  ilog_ev_cnt : option IncidentPerCpuBpfOnlyInfo
}.

(** tcp_syncookies.h *)
Record XfwTcpSynCookieTs := mkSynCookieTs { last_try_jiff : Z; last_gen_jiff : Z }.

(** The rate-limiter buckets: the array of filter.h and the two maps of
    xdp.c. *)
Record RateMaps := mkRateMaps {
  rm_ratelimit : list XfwRLimitSlidingWindow;
  rm_src_ratelim : gmap XfwIp XfwRLimitSlidingWindow;
  rm_src_port_rl : gmap Z XfwRLimitSlidingWindow
}.

Record St := mkSt {
  s_pkt : list Z;
  s_meta : option XfwPacketMetadata;
  s_ctx : XfwGlobalCtx;
  s_stats : XfwPerCpuStats;
  s_ilog : IncidentLog;
  s_rate : RateMaps;
  s_conns : gmap XfwSockAddr Z;
  s_dns : gmap Z Z;
  s_cookie_ts : option XfwTcpSynCookieTs
}.

Definition set_pkt (x : list Z) (s : St) : St :=
  mkSt x (s_meta s) (s_ctx s) (s_stats s) (s_ilog s) (s_rate s) (s_conns s)
    (s_dns s) (s_cookie_ts s).
Definition set_meta (x : option XfwPacketMetadata) (s : St) : St :=
  mkSt (s_pkt s) x (s_ctx s) (s_stats s) (s_ilog s) (s_rate s) (s_conns s)
    (s_dns s) (s_cookie_ts s).
Definition set_ctx (x : XfwGlobalCtx) (s : St) : St :=
  mkSt (s_pkt s) (s_meta s) x (s_stats s) (s_ilog s) (s_rate s) (s_conns s)
    (s_dns s) (s_cookie_ts s).
Definition set_stats (x : XfwPerCpuStats) (s : St) : St :=
  mkSt (s_pkt s) (s_meta s) (s_ctx s) x (s_ilog s) (s_rate s) (s_conns s)
    (s_dns s) (s_cookie_ts s).
Definition set_ilog (x : IncidentLog) (s : St) : St :=
  mkSt (s_pkt s) (s_meta s) (s_ctx s) (s_stats s) x (s_rate s) (s_conns s)
    (s_dns s) (s_cookie_ts s).
Definition set_rate (x : RateMaps) (s : St) : St :=
  mkSt (s_pkt s) (s_meta s) (s_ctx s) (s_stats s) (s_ilog s) x (s_conns s)
    (s_dns s) (s_cookie_ts s).
Definition set_conns (x : gmap XfwSockAddr Z) (s : St) : St :=
  mkSt (s_pkt s) (s_meta s) (s_ctx s) (s_stats s) (s_ilog s) (s_rate s) x
    (s_dns s) (s_cookie_ts s).
Definition set_dns (x : gmap Z Z) (s : St) : St :=
  mkSt (s_pkt s) (s_meta s) (s_ctx s) (s_stats s) (s_ilog s) (s_rate s)
    (s_conns s) x (s_cookie_ts s).
Definition set_cookie_ts (x : option XfwTcpSynCookieTs) (s : St) : St :=
  mkSt (s_pkt s) (s_meta s) (s_ctx s) (s_stats s) (s_ilog s) (s_rate s)
    (s_conns s) (s_dns s) x.

Definition with_cur (c : XfwHdrCursor) (x : XfwGlobalCtx) : XfwGlobalCtx :=
  mkCtx (cfg x) c (ilog_addr x) (ts_jiff x) (pkt_sz x) (ipver x) (l4_off x)
    (ip_off x) (l4_proto x).
Definition with_ilog_addr (a : XfwIp) (x : XfwGlobalCtx) : XfwGlobalCtx :=
  mkCtx (cfg x) (hdr_cur x) a (ts_jiff x) (pkt_sz x) (ipver x) (l4_off x)
    (ip_off x) (l4_proto x).
Definition with_ipver (v : Z) (x : XfwGlobalCtx) : XfwGlobalCtx :=
  mkCtx (cfg x) (hdr_cur x) (ilog_addr x) (ts_jiff x) (pkt_sz x) v (l4_off x)
    (ip_off x) (l4_proto x).
Definition with_l4_off (o : Z) (x : XfwGlobalCtx) : XfwGlobalCtx :=
  mkCtx (cfg x) (hdr_cur x) (ilog_addr x) (ts_jiff x) (pkt_sz x) (ipver x) o
    (ip_off x) (l4_proto x).
Definition with_ip_off (o : Z) (x : XfwGlobalCtx) : XfwGlobalCtx :=
  mkCtx (cfg x) (hdr_cur x) (ilog_addr x) (ts_jiff x) (pkt_sz x) (ipver x)
    (l4_off x) o (l4_proto x).
Definition with_l4_proto (p : Z) (x : XfwGlobalCtx) : XfwGlobalCtx :=
  mkCtx (cfg x) (hdr_cur x) (ilog_addr x) (ts_jiff x) (pkt_sz x) (ipver x)
    (l4_off x) (ip_off x) p.

(** Programs on this state. *)
Abbreviation P := (M St).

Definition get_ctx : P XfwGlobalCtx := s <- get ;; ret (s_ctx s).
Definition upd_ctx (f : XfwGlobalCtx -> XfwGlobalCtx) : P unit :=
  modify (fun s => set_ctx (f (s_ctx s)) s).

(** ** Packet memory *)

(** Load [n] bytes at an offset as a little-endian integer. *)
Definition ld (n off : Z) : P Z :=
  s <- get ;; b <- get_opt (slice (s_pkt s) off n) ;; ret (le_combine b).
Definition ld8 : Z -> P Z := ld 1.
Definition ld16 : Z -> P Z := ld 2.
Definition ld32 : Z -> P Z := ld 4.
(** Copy [n] bytes. *)
Definition ld_bytes (n off : Z) : P (list Z) :=
  s <- get ;; get_opt (slice (s_pkt s) off n).
(** Store the low [n] bytes of a value. *)
Definition store (n : nat) (off v : Z) : P unit :=
  s <- get ;; p <- get_opt (splice (s_pkt s) off (le_split n v)) ;;
  modify (set_pkt p).
Definition store_bytes (off : Z) (d : list Z) : P unit :=
  s <- get ;; p <- get_opt (splice (s_pkt s) off d) ;; modify (set_pkt p).

(** [XFW_CTX_DATA_BGN], [XFW_CTX_DATA_END]. *)
Definition DATA_BGN : Z := 0.
Definition data_end (s : St) : Z := Z.of_nat (length (s_pkt s)).

(** An array element; an index past the end is a fault.  Indices are of
    unsigned types in the sources. *)
Definition arr_get {A} (l : list A) (i : Z) : P A := get_opt (l !! Z.to_nat i).

(** ** ctx.h: xfw_ctx_init

    The context of a run once the lookups of the configuration and of the
    statistics succeeded. *)
Definition xfw_ctx_init (E : Env) (c : XfwFilterCfg) (len : Z) : XfwGlobalCtx :=
  mkCtx c (mkCursor DATA_BGN len) zero_ip (e_jiffies E) (u32 len) 0 0 0 0.

(** ** Specifications of the memory primitives *)

Lemma wp_ld n off (Q : Z -> St -> Prop) s :
  0 <= off -> 0 <= n -> off + n <= data_end s ->
  (forall b, slice (s_pkt s) off n = Some b -> Q (le_combine b) s) ->
  wp (ld n off) Q s.
Proof.
  intros H1 H2 H3 HQ. unfold ld, wp, bind, get, get_opt. simpl.
  rewrite slice_Some by (unfold data_end in *; lia). simpl. apply HQ.
  apply slice_Some; unfold data_end in *; lia.
Qed.

Lemma wp_ld_bytes n off (Q : list Z -> St -> Prop) s :
  0 <= off -> 0 <= n -> off + n <= data_end s ->
  (forall b, slice (s_pkt s) off n = Some b -> Q b s) ->
  wp (ld_bytes n off) Q s.
Proof.
  intros H1 H2 H3 HQ. unfold ld_bytes, wp, bind, get, get_opt. simpl.
  rewrite slice_Some by (unfold data_end in *; lia). simpl. apply HQ.
  apply slice_Some; unfold data_end in *; lia.
Qed.

Lemma wp_store_bytes off d (Q : unit -> St -> Prop) s :
  0 <= off -> off + Z.of_nat (length d) <= data_end s ->
  (forall p, splice (s_pkt s) off d = Some p -> Q tt (set_pkt p s)) ->
  wp (store_bytes off d) Q s.
Proof.
  intros H1 H2 HQ. unfold store_bytes, wp, bind, get, get_opt. simpl.
  destruct (splice_Some (s_pkt s) d off H1 H2) as [p Hp]. rewrite Hp. simpl.
  by apply HQ.
Qed.

Lemma wp_store n off v (Q : unit -> St -> Prop) s :
  0 <= off -> off + Z.of_nat n <= data_end s ->
  (forall p, splice (s_pkt s) off (le_split n v) = Some p -> Q tt (set_pkt p s)) ->
  wp (store n off v) Q s.
Proof.
  intros H1 H2 HQ. apply (wp_store_bytes off (le_split n v)); try done.
  by rewrite length_le_split.
Qed.

Lemma wp_arr_get {A} (l : list A) i (Q : A -> St -> Prop) s :
  (Z.to_nat i < length l)%nat -> (forall x, l !! Z.to_nat i = Some x -> Q x s) ->
  wp (arr_get l i) Q s.
Proof.
  intros Hi HQ. destruct (lookup_lt_is_Some_2 l _ Hi) as [x Hx].
  unfold arr_get. eapply wp_get_opt; eauto.
Qed.

Lemma wp_get_ctx (Q : XfwGlobalCtx -> St -> Prop) s :
  Q (s_ctx s) s -> wp get_ctx Q s.
Proof. done. Qed.

Lemma wp_upd_ctx f (Q : unit -> St -> Prop) s :
  Q tt (set_ctx (f (s_ctx s)) s) -> wp (upd_ctx f) Q s.
Proof. done. Qed.

(** A value loaded from a packet of bytes is in the range of its width. *)
Lemma loaded_range p off n b :
  Forall is_byte p -> 0 <= n -> slice p off n = Some b ->
  0 <= le_combine b < 256 ^ n.
Proof.
  intros Hp Hn Hb. pose proof (slice_length _ _ _ _ Hb) as Hl. rewrite <- Hl.
  apply le_combine_range. by eapply slice_Forall.
Qed.

(** * Concrete configurations, environments and packets

    Values used to evaluate the programs on concrete inputs. *)

Definition all_bits : list Z := replicate 4 UINT64_MAX.
Definition no_bits : list Z := replicate 4 0.

(** Every filter off, every protocol supported, every default [allow]. *)
Definition sample_rules : XfwRulesCfg :=
  mkRulesCfg false all_bits (mkSyncookie 0 0 false)
    (mkTcpAnomaly false false false false 0 no_bits) false false
    (fun _ => XfwActionRule_default) (fun _ => XfwActionRule_default).

Definition sample_cfg : XfwFilterCfg :=
  mkFilterCfg sample_rules true 0 0 0 0 (mkRlWindow 1024 10 1023)
    (replicate 255 (mkRate 100 100000)).

Definition with_rules (r : XfwRulesCfg) (c : XfwFilterCfg) : XfwFilterCfg :=
  mkFilterCfg r (rules_active c) (amap_src c) (amap_icmp c) (amap_dst c)
    (amap_prot_net c) (rl_window c) (named_rates c).

Lemma sample_cfg_wf : cfg_wf sample_cfg.
Proof. by split. Qed.

Definition no_maps : RuleMaps :=
  let z {K V} `{Countable K} : ShadowPair (gmap K V) := mkShadow ∅ ∅ in
  mkRuleMaps z z z z z z z z z z.

Definition sample_kernel : Kernel :=
  ref_kernel 1000 (fun _ => None) (fun _ _ => - ENOENT) (fun _ _ => 0) (fun _ _ => 0).

Definition sample_env (h : Hook) (c : XfwFilterCfg) : Env :=
  mkEnv h sample_kernel no_maps (Some c) true 1000000 0 0 1000 XFW_MODE_HOST false
    None.

Definition sample_ctx (c : XfwFilterCfg) (len : Z) : XfwGlobalCtx :=
  xfw_ctx_init (sample_env HOOK_XDP c) c len.

Definition sample_log : IncidentLog :=
  mkIncidentLog {[ 0 := 77 ]} {[ 77 := ∅ ]} (Some (mkNotifyInfo 0 0))
    (Some (mkBpfOnlyInfo 0 0)).

Definition sample_state (c : XfwFilterCfg) (p : list Z) : St :=
  mkSt p None (sample_ctx c (Z.of_nat (length p))) zero_stats sample_log
    (mkRateMaps (replicate 16 zero_window) ∅ ∅) ∅ ∅ (Some (mkSynCookieTs 0 0)).

(** An Ethernet/IPv4 frame: TCP SYN from 10.0.0.1:4660 to 10.0.0.2:80. *)
Definition eth_ipv4 : list Z := [1;1;1;1;1;1; 2;2;2;2;2;2; 8;0].
Definition ipv4_hdr (proto : Z) : list Z :=
  [0x45;0;0;40; 0;1;0;0; 64;proto;0;0; 10;0;0;1; 10;0;0;2].
Definition tcp_hdr (flags : Z) : list Z :=
  [0x12;0x34; 0;80; 0;0;0;1; 0;0;0;0; 0x50;flags; 0xff;0xff; 0;0;0;0].
Definition tcp_packet (flags : Z) : list Z := eth_ipv4 ++ ipv4_hdr 6 ++ tcp_hdr flags.
