(* ===== verification/IncidentLog.v ===== *)
(** * IncidentLog: accounting of dropped packets

    src/bpf/incident_log.h.  Every drop goes through [register_incident], which
    updates the log map that is active on the CPU.  The theorems give its
    functional behaviour on every branch, the conservation of incidents over a
    run, and that user space is notified before the map is full. *)

From S2P Require Import Prelude.
From S2P Require Import Enums.
From S2P Require Import Uapi.
From S2P Require Import Kernel.
From S2P Require Import Ctx.

Definition set_events (x : option IncidentPerCpuNotifyInfo) (l : IncidentLog)
    : IncidentLog :=
  mkIncidentLog (ilog_active_fd l) (ilog_maps l) x (ilog_ev_cnt l).
Definition set_ev_cnt (x : option IncidentPerCpuBpfOnlyInfo) (l : IncidentLog)
    : IncidentLog :=
  mkIncidentLog (ilog_active_fd l) (ilog_maps l) (ilog_events l) x.
Definition set_log_map (h : Z) (m : gmap XfwIp IncidentLogStat) (l : IncidentLog)
    : IncidentLog :=
  mkIncidentLog (ilog_active_fd l) (<[h := m]> (ilog_maps l)) (ilog_events l)
    (ilog_ev_cnt l).

Section incident_log.
Context (E : Env).

Definition push_swap_event (l : IncidentLog) : IncidentLog :=
  match ilog_events l with
  | None => l
  | Some ev => set_events (Some (mkNotifyInfo (e_ktime_ns E) (drop_cnt ev))) l
  end.

Definition push_swap_event_and_update_drop_cnt (l : IncidentLog) : IncidentLog :=
  match ilog_events l with
  | None => l
  | Some ev =>
      set_events (Some (mkNotifyInfo (e_ktime_ns E) (u64 (drop_cnt ev + 1)))) l
  end.

Definition update_drop_cnt (l : IncidentLog) : IncidentLog :=
  match ilog_events l with
  | None => l
  | Some ev =>
      set_events (Some (mkNotifyInfo (swap_ts ev) (u64 (drop_cnt ev + 1)))) l
  end.

Definition update_map_info (active_map_hint : Z) (l : IncidentLog)
    : Z * IncidentLog :=
  match ilog_ev_cnt l with
  | None => (0, l)
  | Some inf =>
      if last_used_map_hint inf =? active_map_hint then
        let n := u64 (insert_cnt inf + 1) in
        (n, set_ev_cnt (Some (mkBpfOnlyInfo (last_used_map_hint inf) n)) l)
      else (1, set_ev_cnt (Some (mkBpfOnlyInfo active_map_hint 1)) l)
  end.

(** The log map at an address; the maps of the array of maps always exist. *)
Definition log_map (l : IncidentLog) (h : Z) : gmap XfwIp IncidentLogStat :=
  default ∅ (ilog_maps l !! h).

Definition register_incident (ilog_addr : XfwIp) (pkt_sz : Z)
    (reason : XfwDropStat) (l : IncidentLog) : IncidentLog :=
  match ilog_active_fd l !! e_cpu E with
  | None => update_drop_cnt l
  | Some incident_map =>
      let m := log_map l incident_map in
      match m !! ilog_addr with
      | Some stat =>
          let stat' :=
            mkIncidentLogStat
              (Z.lor (il_reason stat) (u64 (Z.shiftl 1 (enum_z reason))))
              (u64 (il_packets stat + 1)) (u64 (il_bytes stat + pkt_sz)) in
          set_log_map incident_map (<[ilog_addr := stat']> m) l
      | None =>
          let new_stat :=
            mkIncidentLogStat (u64 (Z.shiftl 1 (enum_z reason))) 1 pkt_sz in
          let '(ret, m') :=
            k_upd_incidents (e_kernel E) m ilog_addr new_stat BPF_NOEXIST in
          let l := set_log_map incident_map m' l in
          if 0 <=? ret then
            let '(new_size, l) := update_map_info incident_map l in
            if INCIDENT_FLUSH_THRESHOLD <=? new_size then push_swap_event l else l
          else if (ret =? - ENOMEM) || (ret =? - E2BIG)
          then push_swap_event_and_update_drop_cnt l
          else update_drop_cnt l
      end
  end.
End incident_log.

(** ** Specification *)

(** What one recorded incident does to an entry. *)
Definition stat_add (reason : XfwDropStat) (sz : Z) (o : option IncidentLogStat)
    : IncidentLogStat :=
  let old := default (mkIncidentLogStat 0 0 0) o in
  mkIncidentLogStat (Z.lor (il_reason old) (2 ^ enum_z reason))
    (u64 (il_packets old + 1)) (u64 (il_bytes old + sz)).

(** Incidents counted as lost. *)
Definition lost (l : IncidentLog) : Z :=
  match ilog_events l with Some ev => drop_cnt ev | None => 0 end.

Lemma reason_bit (r : XfwDropStat) : u64 (Z.shiftl 1 (enum_z r)) = 2 ^ enum_z r.
Proof.
  pose proof (drop_stat_fits r). rewrite Z.shiftl_1_l. apply wrap_small.
  split; [apply Z.pow_nonneg; lia|]. apply Z.pow_lt_mono_r; lia.
Qed.

Lemma log_map_set_eq h m l : log_map (set_log_map h m l) h = m.
Proof. unfold log_map. simpl. by rewrite lookup_insert_eq. Qed.

Lemma log_map_set_ne h h' m l :
  h' <> h -> log_map (set_log_map h m l) h' = log_map l h'.
Proof. intros. unfold log_map. simpl. by rewrite lookup_insert_ne. Qed.

(** Two logs that agree on the maps and on the count of lost incidents. *)
Definition log_agree (l l' : IncidentLog) : Prop :=
  ilog_active_fd l' = ilog_active_fd l /\ ilog_maps l' = ilog_maps l
  /\ lost l' = lost l.

(** The incident is in the entry of its address in map [h]. *)
Definition recorded (h : Z) (addr : XfwIp) (sz : Z) (r : XfwDropStat)
    (l l' : IncidentLog) : Prop :=
  ilog_active_fd l' = ilog_active_fd l
  /\ log_map l' h = <[addr := stat_add r sz (log_map l h !! addr)]> (log_map l h)
  /\ (forall h', h' <> h -> log_map l' h' = log_map l h')
  /\ lost l' = lost l.

(** The incident is not in any map; it is counted when the counter exists. *)
Definition discarded (l l' : IncidentLog) : Prop :=
  ilog_active_fd l' = ilog_active_fd l
  /\ (forall h, log_map l' h = log_map l h)
  /\ (is_Some (ilog_events l) -> lost l' = u64 (lost l + 1)).

Lemma recorded_agree h addr sz r l l1 l2 :
  recorded h addr sz r l l1 -> log_agree l1 l2 -> recorded h addr sz r l l2.
Proof.
  intros (A & B & C & D) (A' & B' & C'). unfold recorded, log_map in *.
  rewrite B', A', C'. auto.
Qed.

Lemma set_log_map_recorded h addr sz r l :
  recorded h addr sz r l
    (set_log_map h (<[addr := stat_add r sz (log_map l h !! addr)]> (log_map l h)) l).
Proof.
  split; [done|]. split; [apply log_map_set_eq|]. split; [|done].
  intros h' Hne. by apply log_map_set_ne.
Qed.

Lemma set_log_map_same h l h' : log_map (set_log_map h (log_map l h) l) h' = log_map l h'.
Proof.
  destruct (decide (h' = h)) as [->|Hne];
    [apply log_map_set_eq|by apply log_map_set_ne].
Qed.

(** A sequence of incidents registered on one CPU. *)
Definition incident : Type := XfwIp * Z * XfwDropStat.

Definition register_all (E : Env) (evs : list incident) (l : IncidentLog)
    : IncidentLog :=
  foldl (fun l '(addr, sz, r) => register_incident E addr sz r l) l evs.

(** The packets counted in a log map. *)
Definition logged (m : gmap XfwIp IncidentLogStat) : Z :=
  map_fold (fun _ st n => il_packets st + n) 0 m.

Section theorems.
Context (E : Env) `{!KernelSpec (e_kernel E)}.

Lemma push_swap_event_agree l : log_agree l (push_swap_event E l).
Proof.
  unfold log_agree, push_swap_event, lost.
  by destruct (ilog_events l) eqn:H; rewrite ?H.
Qed.

Lemma update_map_info_agree h l : log_agree l (update_map_info h l).2.
Proof.
  unfold log_agree, update_map_info. destruct (ilog_ev_cnt l) as [inf|]; [|done].
  by destruct (last_used_map_hint inf =? h).
Qed.

Lemma update_drop_cnt_discarded l l1 :
  (forall h, log_map l1 h = log_map l h) -> ilog_active_fd l1 = ilog_active_fd l ->
  ilog_events l1 = ilog_events l ->
  discarded l (update_drop_cnt l1)
  /\ discarded l (push_swap_event_and_update_drop_cnt E l1).
Proof.
  intros Hm Ha He. unfold discarded, update_drop_cnt,
    push_swap_event_and_update_drop_cnt, lost. rewrite He.
  destruct (ilog_events l) eqn:Hl; simpl; repeat split; try done;
    by intros [? ?].
Qed.

Lemma existing_stat r sz stat :
  mkIncidentLogStat (Z.lor (il_reason stat) (u64 (Z.shiftl 1 (enum_z r))))
    (u64 (il_packets stat + 1)) (u64 (il_bytes stat + sz))
  = stat_add r sz (Some stat).
Proof. unfold stat_add; simpl. by rewrite reason_bit. Qed.

Lemma fresh_stat r sz :
  0 <= sz < 2 ^ 64 ->
  mkIncidentLogStat (u64 (Z.shiftl 1 (enum_z r))) 1 sz = stat_add r sz None.
Proof.
  intros. unfold stat_add; simpl. rewrite reason_bit.
  by rewrite !wrap_small by lia.
Qed.

(** Every incident is either in the entry of its address in the map that is
    active on the CPU, or counted as lost. *)
Lemma register_incident_cases addr sz r l :
  0 <= sz < 2 ^ 64 ->
  (exists h, ilog_active_fd l !! e_cpu E = Some h
      /\ recorded h addr sz r l (register_incident E addr sz r l))
  \/ discarded l (register_incident E addr sz r l).
Proof.
  intros Hsz. unfold register_incident.
  destruct (ilog_active_fd l !! e_cpu E) as [h|] eqn:Hh.
  2: { right. by apply update_drop_cnt_discarded. }
  destruct (log_map l h !! addr) as [stat|] eqn:Hs.
  { left. exists h. split; [done|]. rewrite existing_stat, <- Hs.
    apply set_log_map_recorded. }
  destruct (k_upd_incidents _ _ _ _ _) as [rc m'] eqn:Hu.
  destruct (Z.leb_spec 0 rc) as [Hrc|Hrc].
  - left. exists h. split; [done|].
    apply (hash_ok _ _ _ _ _ _ Hu) in Hrc as ->.
    rewrite fresh_stat, <- Hs by done.
    set (l1 := set_log_map _ _ _). pose proof (update_map_info_agree h l1) as Ha.
    destruct (update_map_info h l1) as [n l2]. simpl in Ha.
    assert (recorded h addr sz r l l2) as H2.
    { eapply recorded_agree; [apply set_log_map_recorded|done]. }
    case_match; [|done]. eapply recorded_agree; [done|apply push_swap_event_agree].
  - right. apply (hash_err _ _ _ _ _ _ Hu) in Hrc as ->.
    edestruct (update_drop_cnt_discarded l) as [H1 H2];
      [apply set_log_map_same|done|done|]. case_match; done.
Qed.
End theorems.

(** ** Conservation of incidents *)

Lemma logged_insert_fresh m addr st :
  m !! addr = None -> logged (<[addr := st]> m) = il_packets st + logged m.
Proof.
  intros H. unfold logged. rewrite map_fold_insert_L; [done| |done].
  intros. lia.
Qed.

Lemma logged_insert m addr st :
  logged (<[addr := st]> m)
  = logged m - default 0 (il_packets <$> m !! addr) + il_packets st.
Proof.
  destruct (m !! addr) as [old|] eqn:H; simpl.
  - rewrite <- (insert_delete_id m addr old H) at 2.
    rewrite <- insert_delete_eq, !logged_insert_fresh by apply lookup_delete_eq. lia.
  - rewrite logged_insert_fresh by done. lia.
Qed.

Lemma logged_nonneg m :
  (forall a x, m !! a = Some x -> 0 <= il_packets x) -> 0 <= logged m.
Proof.
  induction m as [|a x m Hn IH] using map_ind; intros Hp; [done|].
  rewrite logged_insert_fresh by done.
  pose proof (Hp a x (lookup_insert_eq _ _ _)).
  enough (0 <= logged m) by lia. apply IH. intros b y Hy. apply (Hp b y).
  rewrite lookup_insert_ne; [done|]. intros ->. congruence.
Qed.

Lemma logged_entry m addr st :
  (forall a x, m !! a = Some x -> 0 <= il_packets x) -> m !! addr = Some st ->
  il_packets st <= logged m.
Proof.
  intros Hpos H. rewrite <- (insert_delete_id m addr st H), logged_insert_fresh
    by apply lookup_delete_eq.
  enough (0 <= logged (delete addr m)) by lia. apply logged_nonneg.
  intros a x [_ Hx]%lookup_delete_Some. eauto.
Qed.

(** The counters of a log on one CPU: what is logged in its active map and
    what is counted as lost. *)
Definition accounted (E : Env) (l : IncidentLog) : Z :=
  match ilog_active_fd l !! e_cpu E with
  | Some h => logged (log_map l h)
  | None => 0
  end + lost l.

(** The counters are in the range of their type. *)
Definition counters_ok (E : Env) (l : IncidentLog) : Prop :=
  is_Some (ilog_events l) /\ 0 <= lost l
  /\ forall h a x, ilog_active_fd l !! e_cpu E = Some h ->
       log_map l h !! a = Some x -> 0 <= il_packets x.

Section conservation.
Context (E : Env) `{!KernelSpec (e_kernel E)}.

Lemma events_kept addr sz r l :
  is_Some (ilog_events l) -> is_Some (ilog_events (register_incident E addr sz r l)).
Proof.
  intros [ev He]. unfold register_incident, update_drop_cnt, push_swap_event,
    push_swap_event_and_update_drop_cnt, update_map_info.
  repeat (case_match; simplify_eq/=); rewrite ?He in *; simplify_eq/=;
    rewrite ?He; eauto.
Qed.

Lemma register_incident_accounted addr sz r l :
  0 <= sz < 2 ^ 64 -> counters_ok E l -> accounted E l + 1 < 2 ^ 64 ->
  counters_ok E (register_incident E addr sz r l)
  /\ accounted E (register_incident E addr sz r l) = accounted E l + 1.
Proof.
  intros Hsz (Hev & Hl & Hp) Hlt. pose proof (events_kept addr sz r l Hev) as Hev'.
  unfold counters_ok, accounted in *.
  destruct (register_incident_cases E addr sz r l Hsz)
    as [(h & Hh & Ha & Hm & _ & Hd)|(Ha & Hm & Hd)].
  - rewrite Ha, Hh, Hm, Hd in *.
    assert (il_packets (stat_add r sz (log_map l h !! addr))
            = default 0 (il_packets <$> log_map l h !! addr) + 1) as Hs.
    { unfold stat_add. destruct (log_map l h !! addr) as [x|] eqn:Hx; simpl; [|done].
      pose proof (Hp h addr x eq_refl Hx).
      pose proof (logged_entry _ _ _ (fun a x => Hp h a x eq_refl) Hx).
      apply wrap_small. lia. }
    rewrite logged_insert, Hs. split; [|lia]. split; [done|]. split; [lia|].
    intros h' a x [= <-]. rewrite Hm.
    intros [[<- <-]|[_ Hx]]%lookup_insert_Some; [|by eapply Hp].
    rewrite Hs. destruct (log_map l h !! addr) eqn:Hx; simpl; [|lia].
    pose proof (Hp h addr _ eq_refl Hx). lia.
  - specialize (Hd Hev). rewrite Ha.
    assert (0 <= match ilog_active_fd l !! e_cpu E with
                 | Some h => logged (log_map l h) | None => 0 end) as Hn.
    { destruct (_ !! _) as [h|] eqn:Hh; [|done].
      apply logged_nonneg. intros a x. by apply Hp. }
    rewrite Hd, wrap_small by lia. split.
    + split; [done|]. split; [lia|]. intros h a x Hh. rewrite Hm. by apply Hp.
    + destruct (_ !! _); rewrite ?Hm; lia.
Qed.

Lemma register_all_conserves evs l :
  counters_ok E l ->
  Forall (fun i => 0 <= i.1.2 < 2 ^ 64) evs ->
  accounted E l + Z.of_nat (length evs) < 2 ^ 64 ->
  accounted E (register_all E evs l) = accounted E l + Z.of_nat (length evs).
Proof.
  revert l. induction evs as [|[[addr sz] r] evs IH]; intros l Hok Hsz Hlt; simpl.
  - lia.
  - inversion_clear Hsz as [|? ? Hi Hr]. simpl in *.
    destruct (register_incident_accounted addr sz r l Hi Hok ltac:(lia)) as [Hok' E'].
    change (foldl _ ?x evs) with (register_all E evs x).
    rewrite IH by (done || (rewrite E'; lia)). lia.
Qed.
End conservation.

(** ** Notification before the map is full

    [update_map_info] estimates the size of the active map by counting
    insertions; the estimate never falls below the size. *)
Definition tracked (l : IncidentLog) (h : Z) : Prop :=
  exists inf, ilog_ev_cnt l = Some inf /\ 0 <= insert_cnt inf < 2 ^ 64 - 1
    /\ if last_used_map_hint inf =? h
       then Z.of_nat (size (log_map l h)) <= insert_cnt inf
       else log_map l h = ∅.

Section notification.
Context (E : Env) `{!KernelSpec (e_kernel E)}.

Lemma update_map_info_tracked h l inf :
  ilog_ev_cnt l = Some inf -> 0 <= insert_cnt inf < 2 ^ 64 - 1 ->
  let n := if last_used_map_hint inf =? h then insert_cnt inf + 1 else 1 in
  update_map_info h l = (n, set_ev_cnt (Some (mkBpfOnlyInfo h n)) l).
Proof.
  intros Hi Hr. unfold update_map_info. rewrite Hi.
  destruct (Z.eqb_spec (last_used_map_hint inf) h) as [->|]; [|done].
  by rewrite wrap_small by lia.
Qed.

(** An insertion that leaves at least 80 per cent of the entries in use
    stamps the notification with the current time. *)
Lemma register_incident_notifies addr sz r l h m' rc ev :
  ilog_active_fd l !! e_cpu E = Some h -> tracked l h ->
  ilog_events l = Some ev -> log_map l h !! addr = None ->
  k_upd_incidents (e_kernel E) (log_map l h) addr
    (mkIncidentLogStat (u64 (Z.shiftl 1 (enum_z r))) 1 sz) BPF_NOEXIST = (rc, m') ->
  0 <= rc ->
  let l' := register_incident E addr sz r l in
  (exists inf, ilog_ev_cnt l' = Some inf /\ last_used_map_hint inf = h
     /\ Z.of_nat (size (log_map l' h)) <= insert_cnt inf)
  /\ (INCIDENT_FLUSH_THRESHOLD <= Z.of_nat (size (log_map l' h)) ->
      swap_ts <$> ilog_events l' = Some (e_ktime_ns E)).
Proof.
  intros Hh (inf & Hi & Hr & Ht) He Hn Hu Hrc l'. subst l'.
  unfold register_incident. rewrite Hh, Hn, Hu.
  rewrite (proj2 (Z.leb_le _ _)) by done.
  pose proof (hash_ok _ _ _ _ _ _ Hu Hrc) as ->.
  set (l1 := set_log_map _ _ _).
  rewrite (update_map_info_tracked h l1 inf) by done. simpl.
  set (n := if last_used_map_hint inf =? h then _ else 1).
  assert (Z.of_nat (size (log_map l1 h)) <= n) as Hsz.
  { unfold l1, n. rewrite log_map_set_eq, map_size_insert_None by done.
    destruct (_ =? h); [lia|]. rewrite Ht, map_size_empty. done. }
  unfold push_swap_event; simpl; rewrite He.
  destruct (INCIDENT_FLUSH_THRESHOLD <=? n) eqn:Hf; simpl.
  - split; [|intros _; reflexivity]. eexists. split; [done|]. split; [done|exact Hsz].
  - split; [eexists; split; [done|]; split; [done|exact Hsz]|].
    unfold log_map in *; simpl in *. lia.
Qed.
End notification.

(** ** Properties *)

(** A registered incident is either merged into the entry of its address
    in the CPU's active log (reason bit set, packets and bytes added, no other
    entry and no other log changed), or it is in no log and counted as lost. *)
Lemma incident_recorded_or_lost E addr sz r l :
  KernelSpec (e_kernel E) -> 0 <= sz < 2 ^ 64 ->
  (exists h, ilog_active_fd l !! e_cpu E = Some h
      /\ recorded h addr sz r l (register_incident E addr sz r l))
  \/ discarded l (register_incident E addr sz r l).
Proof. intros HK Hsz. by apply register_incident_cases. Qed.

(** No incident is forgotten: after any sequence of incidents on a CPU
    the packets in its active log and the count of lost incidents together have
    grown by the number of incidents. *)
Lemma incidents_conserved E evs l :
  KernelSpec (e_kernel E) -> counters_ok E l ->
  Forall (fun i => 0 <= i.1.2 < 2 ^ 64) evs ->
  accounted E l + Z.of_nat (length evs) < 2 ^ 64 ->
  accounted E (register_all E evs l) = accounted E l + Z.of_nat (length evs).
Proof. intros. by apply register_all_conserves. Qed.

Lemma incidents_conserved_example :
  accounted (sample_env HOOK_XDP sample_cfg)
    (register_all (sample_env HOOK_XDP sample_cfg)
       [(zero_ip, 60, XFW_DROP_DST_BLOCKED); (zero_ip, 90, XFW_DROP_ICMP_BLOCKED)] sample_log)
  = 2.
Proof.
  change 2 with (accounted (sample_env HOOK_XDP sample_cfg) sample_log
    + Z.of_nat (length [(zero_ip, 60, XFW_DROP_DST_BLOCKED);
                        (zero_ip, 90, XFW_DROP_ICMP_BLOCKED)])) at 1.
  apply (incidents_conserved (sample_env HOOK_XDP sample_cfg)).
  - apply _.
  - split; [by eexists|]. split; [done|]. intros h a x [= <-]. done.
  - repeat constructor; simpl; lia.
  - reflexivity.
Defined.

(** As long as the insertion counter follows the active log, the
    insertion that brings the log to 80 per cent of its capacity stamps the
    notification that makes user space swap the log. *)
Lemma incident_log_swap_requested E addr sz r l h m' rc ev :
  KernelSpec (e_kernel E) ->
  ilog_active_fd l !! e_cpu E = Some h -> tracked l h ->
  ilog_events l = Some ev -> log_map l h !! addr = None ->
  k_upd_incidents (e_kernel E) (log_map l h) addr
    (mkIncidentLogStat (u64 (Z.shiftl 1 (enum_z r))) 1 sz) BPF_NOEXIST = (rc, m') ->
  0 <= rc ->
  let l' := register_incident E addr sz r l in
  (exists inf, ilog_ev_cnt l' = Some inf /\ last_used_map_hint inf = h
     /\ Z.of_nat (size (log_map l' h)) <= insert_cnt inf)
  /\ (INCIDENT_FLUSH_THRESHOLD <= Z.of_nat (size (log_map l' h)) ->
      swap_ts <$> ilog_events l' = Some (e_ktime_ns E)).
Proof. intros. by eapply register_incident_notifies. Qed.

