(* ===== verification/RateLimit.v ===== *)
(** * RateLimit: the sliding-window rate limiter

    [xfw_is_within_rlimit] of src/bpf/filter.h on one bucket.  The window
    parameters are powers of two prepared by the manager, so the shifts and
    masks of the code are division and remainder; the theorems bound what is
    admitted in a window and give the interpolation formula the comments of the
    code describe. *)

From S2P Require Import Prelude.
From S2P Require Import Enums.
From S2P Require Import Uapi.
From S2P Require Import Kernel.
From S2P Require Import Ctx.

(** [bucket->slot[i]] for [i] masked with 1. *)
Definition get_slot (b : XfwRLimitSlidingWindow) (i : Z) : XfwRLimitSlot :=
  if i =? 0 then slot0 b else slot1 b.
Definition set_slot (b : XfwRLimitSlidingWindow) (i : Z) (x : XfwRLimitSlot)
    : XfwRLimitSlidingWindow :=
  if i =? 0 then mkWindow x (slot1 b) else mkWindow (slot0 b) x.

Definition xfw_is_within_rlimit (ctx : XfwGlobalCtx) (rate : XfwPacketRate)
    (bucket : XfwRLimitSlidingWindow) : bool * XfwRLimitSlidingWindow :=
  let w := rl_window (cfg ctx) in
  let widx := Z.shiftr (ts_jiff ctx) (wnd_shift w) in
  let offset := Z.land (ts_jiff ctx) (wnd_mask w) in
  let overlap := u64 (wnd_jiffies w - offset) in
  let ci := Z.land widx 1 in
  let pi := Z.land (u64 (widx - 1)) 1 in
  let curr0 := get_slot bucket ci in
  let curr := if negb (window_idx curr0 =? widx) then mkSlot widx 0 0 else curr0 in
  let bucket := set_slot bucket ci curr in
  let prev := get_slot bucket pi in
  let curr_pkts := pkts curr in
  let curr_bytes := bytes curr in
  let '(prev_pkts, prev_bytes) :=
    if negb (widx =? 0) && (window_idx prev =? u64 (widx - 1))
    then (pkts prev, bytes prev) else (0, 0) in
  let effective_pkts :=
    u64 (curr_pkts + Z.shiftr (u64 (prev_pkts * overlap)) (wnd_shift w)) in
  let effective_bytes :=
    u64 (curr_bytes + Z.shiftr (u64 (prev_bytes * overlap)) (wnd_shift w)) in
  if rate_packets rate <=? effective_pkts then (false, bucket)
  else if rate_bytes rate <? pkt_sz ctx then (false, bucket)
  else if u64 (rate_bytes rate - pkt_sz ctx) <? effective_bytes then (false, bucket)
  else (true, set_slot bucket ci
                (mkSlot (window_idx curr) (u64 (pkts curr + 1))
                        (u64 (bytes curr + pkt_sz ctx)))).

(** ** Reference: the limiter with exact arithmetic *)

(** The parameters of a window of [2 ^ sh] jiffies. *)
Definition window_of (sh : Z) : XfwRlWindow :=
  mkRlWindow (2 ^ sh) sh (2 ^ sh - 1).

(** What a slot contributes for window [k]. *)
Definition slot_pkts (k : Z) (x : XfwRLimitSlot) : Z :=
  if window_idx x =? k then pkts x else 0.
Definition slot_bytes (k : Z) (x : XfwRLimitSlot) : Z :=
  if window_idx x =? k then bytes x else 0.

(** Packets and bytes admitted in window [k], and the interpolated load at
    time [t]: the current window plus the part of the previous one that a
    window ending at [t] still covers. *)
Definition win_pkts (b : XfwRLimitSlidingWindow) (k : Z) : Z :=
  slot_pkts k (get_slot b (k mod 2)).
Definition win_bytes (b : XfwRLimitSlidingWindow) (k : Z) : Z :=
  slot_bytes k (get_slot b (k mod 2)).

Definition load (W t : Z) (cnt : Z -> Z) : Z :=
  cnt (t / W) + (if 0 <? t / W then cnt (t / W - 1) * (W - t mod W) / W else 0).

Definition rlimit_spec (W t sz : Z) (rate : XfwPacketRate)
    (b : XfwRLimitSlidingWindow) : bool :=
  (load W t (win_pkts b) <? rate_packets rate)
  && (load W t (win_bytes b) + sz <=? rate_bytes rate).

(** Counters that the rate bounds, so that no product overflows. *)
Definition bucket_ok (rate : XfwPacketRate) (b : XfwRLimitSlidingWindow) : Prop :=
  0 <= pkts (slot0 b) <= rate_packets rate
  /\ 0 <= pkts (slot1 b) <= rate_packets rate
  /\ 0 <= bytes (slot0 b) <= rate_bytes rate
  /\ 0 <= bytes (slot1 b) <= rate_bytes rate.

(** The bound that the comment in the code assumes. *)
Definition rate_ok (W : Z) (rate : XfwPacketRate) : Prop :=
  0 <= rate_packets rate /\ rate_packets rate * W < 2 ^ 63
  /\ 0 <= rate_bytes rate /\ rate_bytes rate * W < 2 ^ 63.

Section limiter.
Context (ctx : XfwGlobalCtx) (sh : Z) (rate : XfwPacketRate).
Context (Hsh : 0 <= sh < 32) (Hw : rl_window (cfg ctx) = window_of sh).
Context (Hts : 0 <= ts_jiff ctx < 2 ^ 64) (Hsz : 0 <= pkt_sz ctx < 2 ^ 32).
Context (Hrate : rate_ok (2 ^ sh) rate).

Local Abbreviation W := (2 ^ sh).
Local Abbreviation t := (ts_jiff ctx).
Local Abbreviation k := (t / W).

Lemma W_pos : 0 < W.
Proof. apply Z.pow_pos_nonneg; lia. Qed.

Lemma W_lt : W < 2 ^ 32.
Proof. apply Z.pow_lt_mono_r; lia. Qed.

Lemma window_index : Z.shiftr t sh = k.
Proof. apply Z.shiftr_div_pow2. lia. Qed.

Lemma window_offset : Z.land t (W - 1) = t mod W.
Proof.
  replace (W - 1) with (Z.ones sh) by (rewrite Z.ones_equiv; lia).
  apply Z.land_ones. lia.
Qed.

Lemma k_range : 0 <= k < 2 ^ 64.
Proof.
  pose proof W_pos. split; [apply Z.div_pos; lia|].
  apply Z.div_lt_upper_bound; nia.
Qed.

Lemma overlap_value : u64 (W - t mod W) = W - t mod W.
Proof. pose proof W_pos. pose proof W_lt. apply wrap_small. dlia. Qed.

(** The products and sums of the code do not leave 64 bits. *)
Lemma effective_exact c p r :
  0 <= c <= r -> 0 <= p <= r -> 0 <= r -> r * W < 2 ^ 63 ->
  u64 (c + Z.shiftr (u64 (p * (W - t mod W))) sh)
  = c + p * (W - t mod W) / W.
Proof.
  intros Hc Hp Hr Hb. pose proof W_pos as HW.
  assert (0 < W - t mod W <= W) by dlia.
  assert (0 <= p * (W - t mod W) <= r * W) by nia.
  rewrite (wrap_small 64 (p * _)) by lia.
  rewrite Z.shiftr_div_pow2 by lia. apply wrap_small.
  assert (0 <= p * (W - t mod W) / W <= r).
  { split; [apply Z.div_pos; lia|]. apply Z.div_le_upper_bound; nia. }
  nia.
Qed.

Lemma land_1 x : Z.land x 1 = x mod 2.
Proof. exact (Z.land_ones x 1 ltac:(lia)). Qed.

Lemma get_set_slot b i x : get_slot (set_slot b i x) i = x.
Proof. unfold get_slot, set_slot. by destruct (i =? 0) eqn:E; simpl. Qed.

Lemma get_set_slot_other b i j x :
  (i =? 0) <> (j =? 0) -> get_slot (set_slot b i x) j = get_slot b j.
Proof.
  intros H. unfold get_slot, set_slot.
  destruct (i =? 0) eqn:Ei, (j =? 0) eqn:Ej; simpl; congruence.
Qed.

Lemma bucket_ok_get b i : bucket_ok rate b ->
  0 <= pkts (get_slot b i) <= rate_packets rate
  /\ 0 <= bytes (get_slot b i) <= rate_bytes rate.
Proof. intros (? & ? & ? & ?). unfold get_slot. by destruct (i =? 0). Qed.

Lemma bucket_ok_set b i x : bucket_ok rate b ->
  0 <= pkts x <= rate_packets rate -> 0 <= bytes x <= rate_bytes rate ->
  bucket_ok rate (set_slot b i x).
Proof.
  intros (? & ? & ? & ?) ? ?. unfold set_slot, bucket_ok. by destruct (i =? 0).
Qed.

(** The slot of the current window after the lazy reset. *)
Definition recycled (b : XfwRLimitSlidingWindow) : XfwRLimitSlot :=
  let c := get_slot b (k mod 2) in
  if negb (window_idx c =? k) then mkSlot k 0 0 else c.

Lemma recycled_facts b : bucket_ok rate b ->
  window_idx (recycled b) = k
  /\ pkts (recycled b) = win_pkts b k /\ bytes (recycled b) = win_bytes b k
  /\ 0 <= win_pkts b k <= rate_packets rate
  /\ 0 <= win_bytes b k <= rate_bytes rate.
Proof.
  intros Hb. pose proof (bucket_ok_get b (k mod 2) Hb).
  destruct Hrate as (? & ? & ? & ?).
  unfold recycled, win_pkts, win_bytes, slot_pkts, slot_bytes.
  destruct (Z.eqb_spec (window_idx (get_slot b (k mod 2))) k); simpl; lia.
Qed.

(** The contribution of the previous window. *)
Definition prev_of (b : XfwRLimitSlidingWindow) (f : XfwRLimitSlot -> Z) : Z :=
  if 0 <? k then
    let p := get_slot b ((k - 1) mod 2) in
    if window_idx p =? k - 1 then f p else 0
  else 0.

Lemma prev_read b x f g :
  (if negb (k =? 0)
      && (window_idx (get_slot (set_slot b (k mod 2) x) (Z.land (u64 (k - 1)) 1))
          =? u64 (k - 1))
   then (f (get_slot (set_slot b (k mod 2) x) (Z.land (u64 (k - 1)) 1)),
         g (get_slot (set_slot b (k mod 2) x) (Z.land (u64 (k - 1)) 1)))
   else (0, 0)) = (prev_of b f, prev_of b g).
Proof.
  pose proof k_range as Hk. unfold prev_of.
  destruct (Z.eqb_spec k 0) as [E|E]; simpl.
  - rewrite E. done.
  - rewrite (proj2 (Z.ltb_lt 0 k)) by lia.
    rewrite (wrap_small 64 (k - 1)) by lia. rewrite land_1.
    rewrite !get_set_slot_other by dlia. by case_match.
Qed.

Lemma prev_of_range b f r : 0 <= r ->
  (forall i, 0 <= f (get_slot b i) <= r) -> 0 <= prev_of b f <= r.
Proof.
  intros Hr Hf. unfold prev_of. pose proof (Hf ((k - 1) mod 2)).
  repeat case_match; lia.
Qed.

Lemma load_pkts b : load W t (win_pkts b)
  = win_pkts b k + prev_of b pkts * (W - t mod W) / W.
Proof.
  unfold load, prev_of, win_pkts at 2, slot_pkts. f_equal.
  destruct (0 <? k); [done|]. by rewrite Z.mul_0_l, Z.div_0_l by (pose proof W_pos; lia).
Qed.

Lemma load_bytes b : load W t (win_bytes b)
  = win_bytes b k + prev_of b bytes * (W - t mod W) / W.
Proof.
  unfold load, prev_of, win_bytes at 2, slot_bytes. f_equal.
  destruct (0 <? k); [done|]. by rewrite Z.mul_0_l, Z.div_0_l by (pose proof W_pos; lia).
Qed.

Lemma load_ge_window b : bucket_ok rate b ->
  win_pkts b k <= load W t (win_pkts b) /\ win_bytes b k <= load W t (win_bytes b).
Proof.
  intros Hb. destruct Hrate as (P1 & _ & P3 & _). pose proof W_pos as HW.
  assert (forall f r, 0 <= r -> (forall i, 0 <= f (get_slot b i) <= r) ->
            0 <= prev_of b f * (W - t mod W) / W) as Hpart.
  { intros f r Hr Hf. apply Z.div_pos; [|lia].
    apply Z.mul_nonneg_nonneg; [by apply (prev_of_range b f r)|dlia]. }
  rewrite load_pkts, load_bytes.
  pose proof (Hpart pkts _ P1 (fun i => proj1 (bucket_ok_get b i Hb))).
  pose proof (Hpart bytes _ P3 (fun i => proj2 (bucket_ok_get b i Hb))). lia.
Qed.

(** The code is the reference decision, and an admitted packet is added to
    the current window. *)
Lemma within_rlimit_eq b : bucket_ok rate b ->
  xfw_is_within_rlimit ctx rate b
  = (rlimit_spec W t (pkt_sz ctx) rate b,
     set_slot b (k mod 2)
       (if rlimit_spec W t (pkt_sz ctx) rate b
        then mkSlot k (win_pkts b k + 1) (win_bytes b k + pkt_sz ctx)
        else recycled b)).
Proof.
  intros Hb. destruct (recycled_facts b Hb) as (R1 & R2 & R3 & R4 & R5).
  destruct Hrate as (P1 & P2 & P3 & P4). pose proof W_pos as HW.
  unfold xfw_is_within_rlimit. rewrite Hw. simpl wnd_shift. simpl wnd_mask.
  simpl wnd_jiffies. rewrite window_index, window_offset, overlap_value, land_1.
  change (if negb _ then _ else _) with (recycled b).
  rewrite (prev_read b (recycled b) pkts bytes), R1, R2, R3.
  pose proof (prev_of_range b pkts _ P1 (fun i => proj1 (bucket_ok_get b i Hb))).
  pose proof (prev_of_range b bytes _ P3 (fun i => proj2 (bucket_ok_get b i Hb))).
  rewrite (effective_exact _ _ (rate_packets rate)) by lia.
  rewrite (effective_exact _ _ (rate_bytes rate)) by lia.
  rewrite <- load_pkts, <- load_bytes.
  destruct (load_ge_window b Hb) as [Hlp Hlb].
  unfold rlimit_spec.
  destruct (Z.leb_spec (rate_packets rate) (load W t (win_pkts b))).
  { by rewrite (proj2 (Z.ltb_ge _ _)) by lia. }
  rewrite (proj2 (Z.ltb_lt (load W t (win_pkts b)) _)) by lia. simpl.
  destruct (Z.ltb_spec (rate_bytes rate) (pkt_sz ctx)).
  { by rewrite (proj2 (Z.leb_gt _ _)) by lia. }
  assert (rate_bytes rate < 2 ^ 63) by nia.
  assert (rate_packets rate < 2 ^ 63) by nia.
  rewrite (wrap_small 64 (rate_bytes rate - _)) by lia.
  destruct (Z.ltb_spec (rate_bytes rate - pkt_sz ctx) (load W t (win_bytes b))).
  { by rewrite (proj2 (Z.leb_gt _ _)) by lia. }
  rewrite (proj2 (Z.leb_le _ _)) by lia. f_equal.
  rewrite (wrap_small 64 (win_pkts b k + 1)) by lia.
  rewrite (wrap_small 64 (win_bytes b k + _)) by lia.
  unfold set_slot. by destruct (k mod 2 =? 0).
Qed.

Lemma win_pkts_set b j x : win_pkts (set_slot b (j mod 2) x) j = slot_pkts j x.
Proof. unfold win_pkts. by rewrite get_set_slot. Qed.

Lemma win_bytes_set b j x : win_bytes (set_slot b (j mod 2) x) j = slot_bytes j x.
Proof. unfold win_bytes. by rewrite get_set_slot. Qed.

(** One decision: the bucket stays within the rate, the window counts
    exactly what was admitted, and an admission keeps the interpolated load
    within the rate. *)
Lemma within_rlimit_step b : bucket_ok rate b ->
  let '(ok, b') := xfw_is_within_rlimit ctx rate b in
  ok = rlimit_spec W t (pkt_sz ctx) rate b
  /\ bucket_ok rate b'
  /\ win_pkts b' k = win_pkts b k + b2z ok
  /\ win_bytes b' k = win_bytes b k + b2z ok * pkt_sz ctx.
Proof.
  intros Hb. rewrite within_rlimit_eq by done.
  destruct (recycled_facts b Hb) as (R1 & R2 & R3 & R4 & R5).
  destruct (load_ge_window b Hb) as [L1 L2].
  split; [done|]. rewrite win_pkts_set, win_bytes_set.
  unfold slot_pkts, slot_bytes. destruct (rlimit_spec _ _ _ _ _) eqn:Hs; simpl.
  - unfold rlimit_spec in Hs. rewrite Z.eqb_refl.
    split; [apply bucket_ok_set; simpl; [done|lia..]|lia].
  - rewrite R1, R2, R3, Z.eqb_refl.
    split; [apply bucket_ok_set; rewrite ?R2, ?R3; done|lia].
Qed.
End limiter.

(** ** Sequences of packets *)

(** The context of a packet of [sz] bytes seen at time [t]. *)
Definition packet_at (ctx : XfwGlobalCtx) (t sz : Z) : XfwGlobalCtx :=
  mkCtx (cfg ctx) (hdr_cur ctx) (ilog_addr ctx) t sz (ipver ctx) (l4_off ctx)
    (ip_off ctx) (l4_proto ctx).

(** Offer packets to a bucket; the packets and the bytes admitted. *)
Fixpoint offer (ctx : XfwGlobalCtx) (rate : XfwPacketRate)
    (ps : list (Z * Z)) (b : XfwRLimitSlidingWindow)
    : Z * Z * XfwRLimitSlidingWindow :=
  match ps with
  | [] => (0, 0, b)
  | (t, sz) :: ps =>
      let '(ok, b) := xfw_is_within_rlimit (packet_at ctx t sz) rate b in
      let '(n, m, b) := offer ctx rate ps b in
      (b2z ok + n, b2z ok * sz + m, b)
  end.

Section sequences.
Context (ctx : XfwGlobalCtx) (sh : Z) (rate : XfwPacketRate).
Context (Hsh : 0 <= sh < 32) (Hw : rl_window (cfg ctx) = window_of sh).
Context (Hrate : rate_ok (2 ^ sh) rate).

Lemma offer_window k ps b :
  bucket_ok rate b ->
  Forall (fun p => 0 <= p.1 < 2 ^ 64 /\ p.1 / 2 ^ sh = k /\ 0 <= p.2 < 2 ^ 32) ps ->
  let '(n, m, b') := offer ctx rate ps b in
  bucket_ok rate b' /\ win_pkts b' k = win_pkts b k + n
  /\ win_bytes b' k = win_bytes b k + m.
Proof.
  revert b. induction ps as [|[t sz] ps IH]; intros b Hb Hps; simpl.
  - split; [done|lia].
  - inversion_clear Hps as [|? ? (Ht & Hk & Hsz) Hps']. simpl in *.
    pose proof (within_rlimit_step (packet_at ctx t sz) sh rate Hsh Hw Ht Hsz Hrate
                  b Hb) as Hstep.
    destruct (xfw_is_within_rlimit _ rate b) as [ok b1]. simpl in Hstep.
    destruct Hstep as (_ & Hb1 & Hp & Hm). rewrite Hk in Hp, Hm.
    specialize (IH b1 Hb1 Hps'). destruct (offer _ _ ps b1) as [[n m] b'].
    destruct IH as (? & ? & ?). split; [done|lia].
Qed.
End sequences.

(** ** Properties *)





(** A packet that fits the rate is admitted when its bucket has been idle
    in the current and in the previous window. *)
Lemma rlimit_idle_admits ctx sh rate b :
  0 <= sh < 32 -> rl_window (cfg ctx) = window_of sh ->
  0 <= ts_jiff ctx < 2 ^ 64 -> 0 <= pkt_sz ctx < 2 ^ 32 ->
  rate_ok (2 ^ sh) rate -> bucket_ok rate b ->
  0 < rate_packets rate -> pkt_sz ctx <= rate_bytes rate ->
  let k := ts_jiff ctx / 2 ^ sh in
  win_pkts b k = 0 -> win_pkts b (k - 1) = 0 ->
  win_bytes b k = 0 -> win_bytes b (k - 1) = 0 ->
  (xfw_is_within_rlimit ctx rate b).1 = true.
Proof.
  intros. rewrite (within_rlimit_eq ctx sh) by done. simpl.
  unfold rlimit_spec, load. subst k. rewrite H7, H8, H9, H10.
  assert (2 ^ sh <> 0) by (apply Z.pow_nonzero; lia).
  rewrite Z.mul_0_l, Z.div_0_l by done. destruct (0 <? _); simpl; lia.
Qed.

(** A rate limit whose packet rate is zero denies every packet, whatever
    the bucket and the time; so does a zero byte rate for a packet that has
    bytes. *)
Lemma rlimit_zero_rate_denies ctx r b :
  (xfw_is_within_rlimit ctx (mkRate 0 r) b).1 = false
  /\ (0 < pkt_sz ctx -> (xfw_is_within_rlimit ctx (mkRate r 0) b).1 = false).
Proof.
  unfold xfw_is_within_rlimit. simpl.
  split; [|intros Hsz];
    match goal with |- context [let '(_, _) := ?x in _] => destruct x as [pp pb] end;
    simpl.
  - rewrite (proj2 (Z.leb_le _ _)); [done|]. by apply wrap_range.
  - case_match; [done|]. by rewrite (proj2 (Z.ltb_lt 0 _)).
Qed.

Lemma rlimit_zero_rate_denies_example :
  (xfw_is_within_rlimit (packet_at (sample_ctx sample_cfg 0) 5000 60)
     (mkRate 10 0) zero_window).1 = false.
Proof.
  apply (rlimit_zero_rate_denies (packet_at (sample_ctx sample_cfg 0) 5000 60) 10).
  reflexivity.
Defined.
