(* ===== verification/Filter.v ===== *)
(** * Filter: verdicts, counters and what all filters share

    The macros and inline functions of src/bpf/filter.h that all filters share:
    the counters, the [DROP]/[PASS]/[TX] verdict macros, [CHAIN],
    [finalize_result], the rate-limit check of a rule and the LPM keys; the
    64-bit bitset test of src/bpf/bitset_tools.h.  The contract that
    every filter satisfies is in [Verdict]. *)

From S2P Require Import Prelude.
From S2P Require Import Enums.
From S2P Require Import Uapi.
From S2P Require Import Kernel.
From S2P Require Import Ctx.
From S2P Require Import IncidentLog.
From S2P Require Import RateLimit.

(** ** bitset_tools.h *)

Definition bpf_bitset64_set (bits : list Z) (idx : Z) : list Z :=
  alter (fun w => Z.lor w (Z.shiftl 1 (idx mod 64))) (Z.to_nat (idx / 64)) bits.

Definition bpf_bitset64_test (bits : list Z) (idx : Z) : P bool :=
  w <- arr_get bits (idx / 64) ;;
  ret (negb (Z.land w (Z.shiftl 1 (idx mod 64)) =? 0)).

(** ** filter.h *)

(** One more packet of [sz] bytes. *)
Definition bump (sz : Z) (x : XfwPacketStats) : XfwPacketStats :=
  mkPacketStats (u64 (st_packets x + 1)) (u64 (st_bytes x + sz)).

Definition count_traffic_stat (reason : XfwTrafficStat) : P unit :=
  c <- get_ctx ;;
  modify (fun s => set_stats
    (mkPerCpuStats (st_pass (s_stats s)) (st_transmitted (s_stats s))
       (alter (bump (pkt_sz c)) reason (st_traffic (s_stats s)))) s).

Definition count_pass_stat (reason : XfwPassStat) : P unit :=
  c <- get_ctx ;;
  modify (fun s => set_stats
    (mkPerCpuStats (alter (bump (pkt_sz c)) reason (st_pass (s_stats s)))
       (st_transmitted (s_stats s)) (st_traffic (s_stats s))) s).

Definition count_tx_stat (reason : XfwTxStat) : P unit :=
  c <- get_ctx ;;
  modify (fun s => set_stats
    (mkPerCpuStats (st_pass (s_stats s))
       (alter (bump (pkt_sz c)) reason (st_transmitted (s_stats s)))
       (st_traffic (s_stats s))) s).

(** [VERIFY_TRUE_OR_RETURN(v, r)] followed by the rest of the function. *)
Definition VERIFY {A} (v : bool) (r : A) (rest : P A) : P A :=
  if negb v then ret r else rest.

(** [CHAIN(filter, ...)] followed by the rest of the function. *)
Definition CHAIN (filter : P Z) (rest : P Z) : P Z :=
  r <- filter ;; if negb (r =? XFW_CTX_CONTINUE) then ret r else rest.

(** Keys of the longest-prefix maps; a union in the sources. *)
Inductive XfwIpLpmKey :=
  | LPM_NONE
  | LPM_ADDR4 (k : XfwIpv4LpmKey)
  | LPM_ADDR6 (k : XfwIpv6LpmKey).

Definition ipv4_populate_lpm_key (addr : Z) : XfwIpLpmKey :=
  LPM_ADDR4 (mkIpv4LpmKey 32 addr).
Definition ipv6_populate_lpm_key (addr : XfwIp) : XfwIpLpmKey :=
  LPM_ADDR6 (mkIpv6LpmKey 128 addr).

Section filter.
Context (E : Env).

Definition XFW_CTX_PASS : Z := CTX_PASS (e_hook E).
Definition XFW_CTX_DROP : Z := CTX_DROP (e_hook E).

Definition finalize_result (ctx : XfwGlobalCtx) (code : Z) : Z :=
  if (code =? XFW_CTX_DROP) && rc_evaluation_mode (rules (cfg ctx))
  then XFW_CTX_PASS else code.

(** [REGISTER_INCIDENT] with the address and size of the context it is given. *)
Definition make_drop (addr : XfwIp) (sz : Z) (reason : XfwDropStat) : P Z :=
  modify (fun s => set_ilog (register_incident E addr sz reason (s_ilog s)) s) ;;;
  ret XFW_CTX_DROP.

Definition XFW_MAKE_CTX_DROP (reason : XfwDropStat) : P Z :=
  c <- get_ctx ;; make_drop (ilog_addr c) (pkt_sz c) reason.

Definition XFW_MAKE_CTX_PASS (reason : XfwPassStat) : P Z :=
  count_pass_stat reason ;;; ret XFW_CTX_PASS.

Definition MAKE_XDP_TX (reason : XfwTxStat) : P Z :=
  count_tx_stat reason ;;; ret XDP_TX.

(** [XFW_ASSERT]: a failed check passes the packet and counts it. *)
Definition XFW_ASSERT (v : bool) (rest : P Z) : P Z :=
  if negb v then XFW_MAKE_CTX_PASS XFW_ASSERT_FAILED else rest.

(** Replace one of the rate-limiter structures. *)
Definition set_bucket (i : Z) (b : XfwRLimitSlidingWindow) (s : St) : St :=
  set_rate (mkRateMaps (<[Z.to_nat i := b]> (rm_ratelimit (s_rate s)))
              (rm_src_ratelim (s_rate s)) (rm_src_port_rl (s_rate s))) s.

Definition xfw_is_allowed_by_rlimits (rule : XfwRLimitRule) : P bool :=
  s <- get ;;
  match rm_ratelimit (s_rate s) !! Z.to_nat (bucket_idx rule) with
  | None => ret true
  | Some bucket =>
      if negb (named_idx rule <? XFW_MAX_NAMED_RATELIMITS) then ret true else
      c <- get_ctx ;;
      rate <- arr_get (named_rates (cfg c)) (named_idx rule) ;;
      let '(ok, bucket') := xfw_is_within_rlimit c rate bucket in
      modify (set_bucket (bucket_idx rule) bucket') ;;;
      ret ok
  end.
End filter.
