(* ===== verification/Verdict.v ===== *)
(** * Verdict: the contract of a filter

    What a filter may change for each verdict it returns: a packet that goes on
    or is passed is unmodified and leaves no incident, a dropped packet leaves
    exactly one incident, a packet is transmitted back only by SYN cookies.
    [verdict] composes along [CHAIN], so the theorems about the programs follow
    from the contracts of their filters. *)

From S2P Require Import Prelude.
From S2P Require Import Enums.
From S2P Require Import Uapi.
From S2P Require Import Kernel.
From S2P Require Import Ctx.
From S2P Require Import IncidentLog.
From S2P Require Import RateLimit.
From S2P Require Import Filter.

(** ** Well-formed states *)

Record wf (s : St) : Prop := mkWf {
  wf_bytes : Forall is_byte (s_pkt s);
  wf_cfg : cfg_wf (cfg (s_ctx s));
  wf_end : cend (hdr_cur (s_ctx s)) = data_end s;
  wf_pos : 0 <= pos (hdr_cur (s_ctx s));
  wf_ip_off : 0 <= ip_off (s_ctx s);
  wf_l4_off : 0 <= l4_off (s_ctx s)
}.

(** The counters of the total traffic per direction, which only the programs
    themselves update. *)
Definition dir_stat (t : XfwTrafficStat) : bool :=
  match t with
  | XFW_TOTAL_DOWNSTREAM_INGRESS | XFW_PASSED_DOWNSTREAM_INGRESS
  | XFW_TOTAL_DOWNSTREAM_EGRESS | XFW_TOTAL_UPSTREAM_EGRESS
  | XFW_PASSED_DOWNSTREAM_EGRESS | XFW_PASSED_UPSTREAM_EGRESS => true
  | _ => false
  end.

(** What no filter changes. *)
Record frame (s s' : St) : Prop := mkFrame {
  fr_len : length (s_pkt s') = length (s_pkt s);
  fr_cfg : cfg (s_ctx s') = cfg (s_ctx s);
  fr_sz : pkt_sz (s_ctx s') = pkt_sz (s_ctx s);
  fr_ts : ts_jiff (s_ctx s') = ts_jiff (s_ctx s);
  fr_dir : forall t, dir_stat t = true ->
    st_traffic (s_stats s') t = st_traffic (s_stats s) t;
  fr_wf : wf s -> wf s'
}.

#[export] Instance frame_preorder : PreOrder frame.
Proof.
  split.
  - intros s. by split.
  - intros s1 s2 s3 [] []. split; try congruence; eauto.
    intros t Ht. rewrite fr_dir1, fr_dir0; done.
Qed.

(** A step that is not visible outside: the packet, the incident log and the
    count of transmitted packets are as before. *)
Record quiet (s s' : St) : Prop := mkQuiet {
  qt_frame : frame s s';
  qt_pkt : s_pkt s' = s_pkt s;
  qt_ilog : s_ilog s' = s_ilog s;
  qt_tx : st_transmitted (s_stats s') = st_transmitted (s_stats s)
}.

#[export] Instance quiet_preorder : PreOrder quiet.
Proof.
  split.
  - intros s. by split.
  - intros s1 s2 s3 [] []. split; try congruence. by etrans.
Qed.

(** The context is as before. *)
Definition ctx_kept (s s' : St) : Prop := s_ctx s' = s_ctx s.

#[export] Instance ctx_kept_preorder : PreOrder ctx_kept.
Proof. split; unfold ctx_kept; [done|]. intros ? ? ?. congruence. Qed.

(** ** Verdicts *)

Inductive verdict (E : Env) (s : St) : Z -> St -> Prop :=
  | verdict_continue s' : quiet s s' -> verdict E s XFW_CTX_CONTINUE s'
  | verdict_pass s' : quiet s s' -> verdict E s (XFW_CTX_PASS E) s'
  | verdict_drop s' addr sz reason :
      frame s s' ->
      st_transmitted (s_stats s') = st_transmitted (s_stats s) ->
      s_ilog s' = register_incident E addr sz reason (s_ilog s) ->
      verdict E s (XFW_CTX_DROP E) s'
  | verdict_tx s' :
      e_hook E = HOOK_XDP -> e_deployment_mode E = XFW_MODE_HOST ->
      sc_enabled (rc_syncookie (rules (cfg (s_ctx s)))) = true ->
      frame s s' -> s_ilog s' = s_ilog s ->
      st_transmitted (s_stats s')
      = alter (bump (pkt_sz (s_ctx s))) XFW_SYNCOOKIE_GENERATED
          (st_transmitted (s_stats s)) ->
      verdict E s XDP_TX s'.

Lemma quiet_verdict E s s1 r s2 :
  quiet s s1 -> verdict E s1 r s2 -> verdict E s r s2.
Proof.
  intros Hq Hv. destruct Hv as [s2 H|s2 H|s2 a z rs H1 H2 H3|s2 Hh Hm Hs H1 H2 H3].
  - apply verdict_continue. by etrans.
  - apply verdict_pass. by etrans.
  - destruct Hq. eapply verdict_drop; [by etrans|congruence|].
    by rewrite H3, qt_ilog0.
  - destruct Hq. apply verdict_tx; try done; [|by etrans|congruence|].
    + by rewrite <- (fr_cfg _ _ qt_frame0).
    + by rewrite H3, (fr_sz _ _ qt_frame0), qt_tx0.
Qed.

(** Verdict codes of one hook are distinct. *)
Lemma pass_not_continue E : XFW_CTX_PASS E <> XFW_CTX_CONTINUE.
Proof. unfold XFW_CTX_PASS. by destruct (e_hook E). Qed.
Lemma drop_not_continue E : XFW_CTX_DROP E <> XFW_CTX_CONTINUE.
Proof. unfold XFW_CTX_DROP. by destruct (e_hook E). Qed.
Lemma drop_not_pass E : XFW_CTX_DROP E <> XFW_CTX_PASS E.
Proof. unfold XFW_CTX_DROP, XFW_CTX_PASS. by destruct (e_hook E). Qed.

Lemma verdict_cases E s r s' :
  verdict E s r s' ->
  (r = XFW_CTX_CONTINUE /\ quiet s s') \/ (r = XFW_CTX_PASS E /\ quiet s s')
  \/ r = XFW_CTX_DROP E \/ (r = XDP_TX /\ e_hook E = HOOK_XDP).
Proof. intros []; auto 6. Qed.

Lemma verdict_continue_inv E s s' :
  verdict E s XFW_CTX_CONTINUE s' -> quiet s s'.
Proof.
  intros [[_ H]|[[H _]|[H|[H _]]]]%verdict_cases; [done|..|done].
  - by destruct (pass_not_continue E).
  - by destruct (drop_not_continue E).
Qed.

Lemma verdict_frame E s r s' : verdict E s r s' -> frame s s'.
Proof. intros []; try done; by apply qt_frame. Qed.

(** What the kernel sees of a drop: evaluation mode lets the packet pass. *)
Definition drop_override (E : Env) (c : XfwFilterCfg) : Z :=
  if rc_evaluation_mode (rules c) then XFW_CTX_PASS E else XFW_CTX_DROP E.

Lemma finalize_drop E c x : cfg x = c -> finalize_result E x (XFW_CTX_DROP E) = drop_override E c.
Proof.
  intros <-. unfold finalize_result, drop_override. rewrite Z.eqb_refl. simpl.
  by destruct (rc_evaluation_mode _).
Qed.

Lemma finalize_pass E x : finalize_result E x (XFW_CTX_PASS E) = XFW_CTX_PASS E.
Proof.
  unfold finalize_result. rewrite (proj2 (Z.eqb_neq _ _)); [done|].
  intros H. symmetry in H. by apply drop_not_pass in H.
Qed.

(** ** Quiet steps *)

Create HintDb quietdb.

(** States after the counting macros. *)
Definition traffic_counted (reason : XfwTrafficStat) (s : St) : St :=
  set_stats (mkPerCpuStats (st_pass (s_stats s)) (st_transmitted (s_stats s))
    (alter (bump (pkt_sz (s_ctx s))) reason (st_traffic (s_stats s)))) s.
Definition pass_counted (reason : XfwPassStat) (s : St) : St :=
  set_stats (mkPerCpuStats (alter (bump (pkt_sz (s_ctx s))) reason (st_pass (s_stats s)))
    (st_transmitted (s_stats s)) (st_traffic (s_stats s))) s.

Lemma quiet_set s s1 s2 :
  s_pkt s2 = s_pkt s1 -> s_ctx s2 = s_ctx s1 -> s_stats s2 = s_stats s1 ->
  s_ilog s2 = s_ilog s1 -> quiet s s1 -> quiet s s2.
Proof.
  intros H1 H2 H3 H4 Hq. etrans; [exact Hq|]. split; try congruence.
  split; try congruence. intros []. unfold data_end in *. split; unfold data_end; congruence.
Qed.

Lemma quiet_set_rate s s1 x : quiet s s1 -> quiet s (set_rate x s1).
Proof. by apply quiet_set. Qed.
Lemma quiet_set_conns s s1 x : quiet s s1 -> quiet s (set_conns x s1).
Proof. by apply quiet_set. Qed.
Lemma quiet_set_dns s s1 x : quiet s s1 -> quiet s (set_dns x s1).
Proof. by apply quiet_set. Qed.
Lemma quiet_set_meta s s1 x : quiet s s1 -> quiet s (set_meta x s1).
Proof. by apply quiet_set. Qed.
Lemma quiet_set_cookie_ts s s1 x : quiet s s1 -> quiet s (set_cookie_ts x s1).
Proof. by apply quiet_set. Qed.

Lemma wf_set_stats s x : wf s -> wf (set_stats x s).
Proof. intros []. by split. Qed.
Lemma wf_set_ilog s x : wf s -> wf (set_ilog x s).
Proof. intros []. by split. Qed.

Lemma frame_stats s x :
  (forall t, dir_stat t = true -> st_traffic x t = st_traffic (s_stats s) t) ->
  frame s (set_stats x s).
Proof. intros. split; try done. apply wf_set_stats. Qed.

Lemma frame_traffic_counted s r : dir_stat r = false -> frame s (traffic_counted r s).
Proof.
  intros Hr. apply frame_stats. intros t Ht. simpl. apply fn_lookup_alter_ne.
  intros ->. congruence.
Qed.

Lemma quiet_traffic_counted s s1 r :
  dir_stat r = false -> quiet s s1 -> quiet s (traffic_counted r s1).
Proof.
  intros Hr Hq. etrans; [done|]. split; try done. by apply frame_traffic_counted.
Qed.

Lemma quiet_pass_counted s s1 r : quiet s s1 -> quiet s (pass_counted r s1).
Proof. intros Hq. etrans; [done|]. split; try done. by apply frame_stats. Qed.

#[export] Hint Resolve quiet_set_rate quiet_set_conns quiet_set_dns quiet_set_meta
  quiet_set_cookie_ts quiet_pass_counted : quietdb.
#[export] Hint Extern 1 (quiet _ (traffic_counted _ _)) =>
  (apply quiet_traffic_counted; [reflexivity|]) : quietdb.
#[export] Hint Extern 0 (quiet ?s ?s) => reflexivity : quietdb.
#[export] Hint Extern 0 (ctx_kept ?s ?s) => reflexivity : quietdb.
#[export] Hint Extern 5 (ctx_kept _ _) => (unfold ctx_kept in *; simpl; congruence) : quietdb.

(** ** Rules for the verdict macros *)

Section rules.
Context (E : Env).

Lemma wp_count_traffic r (Q : unit -> St -> Prop) s :
  Q tt (traffic_counted r s) -> wp (count_traffic_stat r) Q s.
Proof. done. Qed.

Lemma wp_count_pass r (Q : unit -> St -> Prop) s :
  Q tt (pass_counted r s) -> wp (count_pass_stat r) Q s.
Proof. done. Qed.

(** Verdict [r] of a function that leaves the context as it was. *)
Definition verdict_c (s : St) (r : Z) (s' : St) : Prop :=
  verdict E s r s' /\ ctx_kept s s'.

Lemma wp_make_drop addr sz reason s s1 :
  quiet s s1 -> ctx_kept s s1 -> wp (make_drop E addr sz reason) (verdict_c s) s1.
Proof.
  intros Hq Hc. split; [|exact Hc]. eapply quiet_verdict; [done|].
  eapply verdict_drop; try done. split; try done. apply wf_set_ilog.
Qed.

Lemma wp_drop reason s s1 :
  quiet s s1 -> ctx_kept s s1 -> wp (XFW_MAKE_CTX_DROP E reason) (verdict_c s) s1.
Proof. intros. unfold XFW_MAKE_CTX_DROP. apply wp_bind. by apply wp_make_drop. Qed.

Lemma wp_pass reason s s1 :
  quiet s s1 -> ctx_kept s s1 -> wp (XFW_MAKE_CTX_PASS E reason) (verdict_c s) s1.
Proof.
  intros Hq Hc. split; [|exact Hc]. apply verdict_pass. by apply quiet_pass_counted.
Qed.

Lemma wp_continue s s1 :
  quiet s s1 -> ctx_kept s s1 -> wp (ret XFW_CTX_CONTINUE) (verdict_c s) s1.
Proof. intros. split; [by apply verdict_continue|done]. Qed.

Lemma wp_ret_pass s s1 :
  quiet s s1 -> ctx_kept s s1 -> wp (ret (XFW_CTX_PASS E)) (verdict_c s) s1.
Proof. intros. split; [by apply verdict_pass|done]. Qed.

Lemma wp_assert v rest (Q : Z -> St -> Prop) s :
  (v = false -> wp (XFW_MAKE_CTX_PASS E XFW_ASSERT_FAILED) Q s) ->
  (v = true -> wp rest Q s) -> wp (XFW_ASSERT E v rest) Q s.
Proof. intros H1 H2. unfold XFW_ASSERT. destruct v; auto. Qed.

Lemma wp_verify {A} v (r : A) rest (Q : A -> St -> Prop) s :
  (v = false -> Q r s) -> (v = true -> wp rest Q s) -> wp (VERIFY v r rest) Q s.
Proof. intros H1 H2. unfold VERIFY. destruct v; [by apply H2|by apply H1]. Qed.

(** A chain: the first filter's verdict, or the rest from where it stopped. *)
Lemma wp_chain f rest s :
  wp f (verdict_c s) s ->
  (forall s1, quiet s s1 -> ctx_kept s s1 -> wp rest (verdict_c s) s1) ->
  wp (CHAIN f rest) (verdict_c s) s.
Proof.
  intros Hf Hr. unfold CHAIN. apply wp_bind. eapply wp_mono; [done|].
  intros r s1 [Hv Hc]. cbv beta. destruct (Z.eqb_spec r XFW_CTX_CONTINUE) as [->|Hn]; simpl.
  - apply Hr; [by eapply verdict_continue_inv|done].
  - by apply wp_ret.
Qed.

Lemma verdict_c_trans s s1 r s2 :
  quiet s s1 -> ctx_kept s s1 -> verdict_c s1 r s2 -> verdict_c s r s2.
Proof.
  intros Hq Hc [Hv Hk]. split; [by eapply quiet_verdict|].
  unfold ctx_kept in *. congruence.
Qed.

(** Call a filter after quiet steps. *)
Lemma wp_call f s s1 :
  quiet s s1 -> ctx_kept s s1 -> wp f (verdict_c s1) s1 -> wp f (verdict_c s) s1.
Proof. intros. eapply wp_mono; [done|]. intros. by eapply verdict_c_trans. Qed.

Lemma quiet_wf s s1 : quiet s s1 -> wf s -> wf s1.
Proof. intros [[]]. auto. Qed.

Lemma allowed_by_rlimits_spec rule s :
  wf s ->
  wp (xfw_is_allowed_by_rlimits rule)
     (fun _ s' => quiet s s' /\ ctx_kept s s') s.
Proof.
  intros Hwf. unfold xfw_is_allowed_by_rlimits. apply wp_bind, wp_get.
  destruct (rm_ratelimit (s_rate s) !! _) as [b|]; [|by split].
  destruct (Z.ltb_spec (named_idx rule) XFW_MAX_NAMED_RATELIMITS); simpl; [|by split].
  apply wp_bind, wp_get_ctx. apply wp_bind.
  apply wp_arr_get.
  { pose proof (wf_named_rates _ (wf_cfg _ Hwf)). unfold XFW_MAX_NAMED_RATELIMITS in *. lia. }
  intros rate _. destruct (xfw_is_within_rlimit _ _ _) as [ok b'].
  apply wp_bind, wp_modify, wp_ret. split; [|done]. unfold set_bucket. auto with quietdb.
Qed.
End rules.

#[export] Hint Resolve quiet_wf : quietdb.

(** Leave the program through one of the verdict macros. *)
Ltac wp_verdict :=
  first [ apply wp_drop | apply wp_make_drop | apply wp_pass | apply wp_continue
        | apply wp_ret_pass ]; auto with quietdb.
