(* ===== verification/Parsing.v ===== *)
(** * Parsing: L2-L4 header parsing

    src/bpf/parsing_helpers.h.  A parser takes the header cursor and returns its
    C result, the header it found (an offset into the packet) and the advanced
    cursor; it reads the packet through bounds-checked loads, so its
    specification shows that it stays inside the packet. *)

From S2P Require Import Prelude.
From S2P Require Import Enums.
From S2P Require Import Uapi.
From S2P Require Import Kernel.
From S2P Require Import Ctx.

Definition IPPROTO_HOPOPTS : Z := 0.
Definition IPPROTO_ROUTING : Z := 43.
Definition IPPROTO_FRAGMENT : Z := 44.
Definition IPPROTO_AH : Z := 51.
Definition IPPROTO_DSTOPTS : Z := 60.
Definition IPPROTO_MH : Z := 135.

Definition VLAN_MAX_DEPTH : nat := 2.
Definition IPV6_EXT_MAX_CHAIN : nat := 6.
Definition IPV6_EXT_HDR_MAXLEN : Z := (UINT8_MAX + 1) * 8.

(** Header sizes. *)
Definition SIZEOF_ETHHDR : Z := 14.
Definition SIZEOF_VLAN_HDR : Z := 4.
Definition SIZEOF_IPHDR : Z := 20.
Definition SIZEOF_IPV6HDR : Z := 40.
Definition SIZEOF_IPV6_OPT_HDR : Z := 2.
Definition SIZEOF_TCPHDR : Z := 20.
Definition SIZEOF_UDPHDR : Z := 8.
Definition SIZEOF_ICMPHDR : Z := 8.
Definition SIZEOF_ICMP6HDR : Z := 8.

Definition L3_OFF_MAX : Z := SIZEOF_ETHHDR + Z.of_nat VLAN_MAX_DEPTH * SIZEOF_VLAN_HDR.
Definition L4_OFF_MAX : Z :=
  L3_OFF_MAX + SIZEOF_IPV6HDR + Z.of_nat IPV6_EXT_MAX_CHAIN * IPV6_EXT_HDR_MAXLEN.

(** ** Header fields *)

(** struct ethhdr, struct vlan_hdr *)
Definition eth_h_proto (eth : Z) : P Z := ld16 (eth + 12).
Definition vlan_encapsulated_proto (vlh : Z) : P Z := ld16 (vlh + 2).
(** struct iphdr *)
Definition ip4_version (iph : Z) : P Z := b <- ld8 iph ;; ret (b / 16).
Definition ip4_ihl (iph : Z) : P Z := b <- ld8 iph ;; ret (b mod 16).
Definition ip4_tot_len (iph : Z) : P Z := ld16 (iph + 2).
Definition ip4_frag_off (iph : Z) : P Z := ld16 (iph + 6).
Definition ip4_ttl (iph : Z) : P Z := ld8 (iph + 8).
Definition ip4_protocol (iph : Z) : P Z := ld8 (iph + 9).
Definition ip4_check (iph : Z) : P Z := ld16 (iph + 10).
Definition ip4_saddr (iph : Z) : P Z := ld32 (iph + 12).
Definition ip4_daddr (iph : Z) : P Z := ld32 (iph + 16).
(** struct ipv6hdr *)
Definition ip6_version (iph : Z) : P Z := b <- ld8 iph ;; ret (b / 16).
Definition ip6_payload_len (iph : Z) : P Z := ld16 (iph + 4).
Definition ip6_nexthdr (iph : Z) : P Z := ld8 (iph + 6).
Definition ld_in6 (off : Z) : P XfwIp :=
  a <- ld32 off ;; b <- ld32 (off + 4) ;; c <- ld32 (off + 8) ;;
  d <- ld32 (off + 12) ;; ret (mkIp a b c d).
Definition ip6_saddr (iph : Z) : P XfwIp := ld_in6 (iph + 8).
Definition ip6_daddr (iph : Z) : P XfwIp := ld_in6 (iph + 24).
(** struct tcphdr *)
Definition th_source (th : Z) : P Z := ld16 th.
Definition th_dest (th : Z) : P Z := ld16 (th + 2).
Definition th_seq (th : Z) : P Z := ld32 (th + 4).
Definition th_doff (th : Z) : P Z := b <- ld8 (th + 12) ;; ret (b / 16).
Definition tcp_flag_word (th : Z) : P Z := ld32 (th + 12).
(** A one-bit flag of byte 13. *)
Definition th_flag (i : Z) (th : Z) : P bool := b <- ld8 (th + 13) ;; ret (Z.testbit b i).
Definition th_fin : Z -> P bool := th_flag 0.
Definition th_syn : Z -> P bool := th_flag 1.
Definition th_rst : Z -> P bool := th_flag 2.
Definition th_ack : Z -> P bool := th_flag 4.
Definition th_ece : Z -> P bool := th_flag 6.
(** struct udphdr *)
Definition uh_source (uh : Z) : P Z := ld16 uh.
Definition uh_dest (uh : Z) : P Z := ld16 (uh + 2).
Definition uh_len (uh : Z) : P Z := ld16 (uh + 4).

(** ** Parsers *)

(** [CUR_CHECK]: [len] bytes at the cursor are inside the packet. *)
Definition cur_has (cur : XfwHdrCursor) (len : Z) : bool :=
  negb (cend cur <? pos cur + len).

Definition advance (cur : XfwHdrCursor) (len : Z) : XfwHdrCursor :=
  mkCursor (pos cur + len) (cend cur).

(** [SIMPLE_PARSE_FUNC_DECL]: a fixed-size structure at the cursor. *)
Definition simple_parse (size : Z) (cur : XfwHdrCursor) : option Z * XfwHdrCursor :=
  if cur_has cur size then (Some (pos cur), advance cur size) else (None, cur).

Definition proto_is_vlan (pn : Z) : bool :=
  (pn =? bpf_htons ETH_P_8021Q) || (pn =? bpf_htons ETH_P_8021AD).

(** The loop over VLAN tags: the EtherType and the position it stops at. *)
Fixpoint skip_vlan (n : nat) (endp vlh h_proto : Z) : P (Z * Z) :=
  match n with
  | O => ret (h_proto, vlh)
  | S n =>
      if negb (proto_is_vlan h_proto) then ret (h_proto, vlh)
      else if endp <? vlh + SIZEOF_VLAN_HDR then ret (h_proto, vlh)
      else h <- vlan_encapsulated_proto vlh ;;
           skip_vlan n endp (vlh + SIZEOF_VLAN_HDR) h
  end.

Definition parse_ethhdr (cur : XfwHdrCursor) : P (Z * XfwHdrCursor) :=
  let eth := pos cur in
  if negb (cur_has cur SIZEOF_ETHHDR) then ret (- EINVAL, cur) else
  let cur := advance cur SIZEOF_ETHHDR in
  h <- eth_h_proto eth ;;
  let* (h_proto, vlh) := skip_vlan VLAN_MAX_DEPTH (cend cur) (pos cur) h in
  ret (h_proto, mkCursor vlh (cend cur)).

(** The loop over IPv6 extension headers, at most [n] of them. *)
Fixpoint skip_ip6hdrext_loop (n : nat) (cur : XfwHdrCursor) (next_hdr_t : Z)
    : P (Z * XfwHdrCursor) :=
  match n with
  | O => ret (- EINVAL, cur)
  | S n =>
      let hdr := pos cur in
      if negb (cur_has cur SIZEOF_IPV6_OPT_HDR) then ret (- EINVAL, cur)
      else if next_hdr_t =? IPPROTO_FRAGMENT then ret (- EFBIG, cur)
      else if next_hdr_t =? IPPROTO_AH then
        hdrlen <- ld8 (hdr + 1) ;; nexthdr <- ld8 hdr ;;
        skip_ip6hdrext_loop n (mkCursor (hdr + (hdrlen + 2) * 4) (cend cur)) nexthdr
      else if negb (next_hdr_t =? IPPROTO_HOPOPTS) && negb (next_hdr_t =? IPPROTO_DSTOPTS)
           && negb (next_hdr_t =? IPPROTO_ROUTING) && negb (next_hdr_t =? IPPROTO_MH)
      then ret (next_hdr_t, cur)
      else
        hdrlen <- ld8 (hdr + 1) ;; nexthdr <- ld8 hdr ;;
        skip_ip6hdrext_loop n (mkCursor (hdr + (hdrlen + 1) * 8) (cend cur)) nexthdr
  end.

Definition skip_ip6hdrext (cur : XfwHdrCursor) (next_hdr_t : Z) : P (Z * XfwHdrCursor) :=
  skip_ip6hdrext_loop IPV6_EXT_MAX_CHAIN cur next_hdr_t.

(** The result is 0, the header is at the old cursor. *)
Definition parse_ip6hdr (cur : XfwHdrCursor) : P (Z * Z * XfwHdrCursor) :=
  let ip6h := pos cur in
  if negb (cur_has cur SIZEOF_IPV6HDR) then ret (- EINVAL, ip6h, cur) else
  v <- ip6_version ip6h ;;
  if negb (v =? 6) then ret (- EINVAL, ip6h, cur) else
  ret (0, ip6h, advance cur SIZEOF_IPV6HDR).

Definition parse_iphdr (cur : XfwHdrCursor) : P (Z * Z * XfwHdrCursor) :=
  let iph := pos cur in
  if negb (cur_has cur SIZEOF_IPHDR) then ret (- EINVAL, iph, cur) else
  v <- ip4_version iph ;;
  if negb (v =? 4) then ret (- EINVAL, iph, cur) else
  ihl <- ip4_ihl iph ;;
  let hdr_sz := Z.shiftl ihl 2 in
  if hdr_sz <? SIZEOF_IPHDR then ret (- EINVAL, iph, cur) else
  if negb (cur_has cur hdr_sz) then ret (- EINVAL, iph, cur) else
  proto <- ip4_protocol iph ;;
  ret (proto, iph, advance cur hdr_sz).

Definition parse_icmp6hdr (cur : XfwHdrCursor) : P (Z * Z * XfwHdrCursor) :=
  let h := pos cur in
  if negb (cur_has cur SIZEOF_ICMP6HDR) then ret (- EINVAL, h, cur) else
  ty <- ld8 h ;; ret (ty, h, advance cur SIZEOF_ICMP6HDR).

Definition parse_icmphdr (cur : XfwHdrCursor) : P (Z * Z * XfwHdrCursor) :=
  let h := pos cur in
  if negb (cur_has cur SIZEOF_ICMPHDR) then ret (- EINVAL, h, cur) else
  ty <- ld8 h ;; ret (ty, h, advance cur SIZEOF_ICMPHDR).

Definition parse_icmphdr_common (cur : XfwHdrCursor) (proto : Z)
    : P (Z * Z * XfwHdrCursor) :=
  let h := pos cur in
  let hdr_sz := if proto =? XFW_L4_PROTO_ICMP then SIZEOF_ICMPHDR else SIZEOF_ICMP6HDR in
  if negb (cur_has cur hdr_sz) then ret (- EINVAL, h, cur) else
  ty <- ld8 h ;; ret (ty, h, advance cur hdr_sz).

(** The cursor moves before the length is checked. *)
Definition parse_udphdr (cur : XfwHdrCursor) : P (Z * Z * XfwHdrCursor) :=
  let h := pos cur in
  if negb (cur_has cur SIZEOF_UDPHDR) then ret (- EINVAL, h, cur) else
  l <- uh_len h ;;
  let len := bpf_ntohs l - SIZEOF_UDPHDR in
  if len <? 0 then ret (- EINVAL, h, advance cur SIZEOF_UDPHDR) else
  ret (len, h, advance cur SIZEOF_UDPHDR).

Definition parse_tcphdr (cur : XfwHdrCursor) : P (Z * Z * XfwHdrCursor) :=
  let h := pos cur in
  if negb (cur_has cur SIZEOF_TCPHDR) then ret (- EINVAL, h, cur) else
  doff <- th_doff h ;;
  let len := doff * 4 in
  if len <? SIZEOF_TCPHDR then ret (- EINVAL, h, cur) else
  if negb (cur_has cur len) then ret (- EINVAL, h, cur) else
  ret (len, h, advance cur len).

(** Run a parser on the cursor of the packet context. *)
Definition on_cur {A} (f : XfwHdrCursor -> P (A * XfwHdrCursor)) : P A :=
  c <- get_ctx ;;
  let* (a, cur) := f (hdr_cur c) in
  upd_ctx (with_cur cur) ;;; ret a.

(** ** Specifications *)

(** A cursor into the packet of a state. *)
Definition cur_ok (s : St) (cur : XfwHdrCursor) : Prop :=
  cend cur = data_end s /\ 0 <= pos cur.

Ltac unfold_sizes :=
  unfold SIZEOF_ETHHDR, SIZEOF_VLAN_HDR, SIZEOF_IPHDR, SIZEOF_IPV6HDR,
    SIZEOF_IPV6_OPT_HDR, SIZEOF_TCPHDR, SIZEOF_UDPHDR, SIZEOF_ICMPHDR,
    SIZEOF_ICMP6HDR, cur_has, advance in *; simpl pos in *; simpl cend in *.

(** A load at the head of the program; its bounds are linear arithmetic. *)
Ltac wp_load :=
  unfold eth_h_proto, vlan_encapsulated_proto, ip4_version, ip4_ihl, ip4_tot_len,
    ip4_frag_off, ip4_ttl, ip4_protocol, ip4_check, ip4_saddr, ip4_daddr,
    ip6_version, ip6_payload_len, ip6_nexthdr, th_source, th_dest, th_seq, th_doff,
    tcp_flag_word, th_fin, th_syn, th_rst, th_ack, th_ece, th_flag, uh_source,
    uh_dest, uh_len, ld8, ld16, ld32;
  repeat lazymatch goal with
  | |- wp (bind _ _) _ _ => apply wp_bind
  end;
  let b := fresh "b" in let Hb := fresh "Hload" in
  apply wp_ld; [unfold_sizes; lia|lia|unfold_sizes; lia|intros b Hb; cbv beta];
  repeat lazymatch goal with
  | |- wp (ret _) _ _ => apply wp_ret; cbv beta
  end.

Section specs.
Context (s : St) (Hbytes : Forall is_byte (s_pkt s)).

Lemma loaded n off b : slice (s_pkt s) off n = Some b -> 0 <= n ->
  0 <= le_combine b < 256 ^ n.
Proof. intros. by eapply loaded_range. Qed.

Lemma ld_in6_spec off :
  0 <= off -> off + 16 <= data_end s ->
  wp (ld_in6 off) (fun _ s' => s' = s) s.
Proof. intros. unfold ld_in6. do 4 wp_load. done. Qed.

Lemma skip_vlan_spec n : forall endp vlh h,
  endp = data_end s -> 0 <= vlh <= endp -> 0 <= h < 65536 ->
  wp (skip_vlan n endp vlh h)
    (fun r s' => s' = s /\ 0 <= r.1 < 65536
       /\ vlh <= r.2 <= vlh + 4 * Z.of_nat n /\ r.2 <= endp) s.
Proof.
  induction n as [|n IH]; intros endp vlh h He Hv Hh; simpl skip_vlan.
  - apply wp_ret. simpl. split; [done|lia].
  - do 2 (wp_step; [apply wp_ret; simpl; split; [done|lia]|]).
    wp_load. pose proof (loaded _ _ _ Hload ltac:(lia)).
    eapply wp_mono; [apply IH; unfold_sizes; lia|].
    intros [r v] s' (-> & ? & ? & ?). unfold_sizes. simpl in *.
    split; [done|lia].
Qed.

(** The EtherType, behind at most two VLAN tags, and the offset of the L3
    header. *)
Lemma parse_ethhdr_spec cur : cur_ok s cur ->
  wp (parse_ethhdr cur)
    (fun r s' => s' = s /\ cur_ok s r.2 /\ pos cur <= pos r.2
       /\ (r.1 = - EINVAL /\ r.2 = cur /\ data_end s < pos cur + SIZEOF_ETHHDR
           \/ 0 <= r.1 < 65536
              /\ pos cur + SIZEOF_ETHHDR <= pos r.2 <= pos cur + L3_OFF_MAX
              /\ pos r.2 <= data_end s)) s.
Proof.
  intros [He Hp]. unfold parse_ethhdr. wp_step.
  - apply wp_ret. unfold_sizes. repeat split; try lia; auto.
    left. repeat split; auto. lia.
  - wp_load. pose proof (loaded _ _ _ Hload ltac:(lia)).
    apply wp_bind. eapply wp_mono; [apply skip_vlan_spec; unfold_sizes; lia|].
    intros [h v] s' (-> & ? & ? & ?). apply wp_ret. unfold_sizes. simpl in *.
    unfold L3_OFF_MAX, VLAN_MAX_DEPTH in *. unfold_sizes.
    split; [done|]. split; [split; simpl; lia|]. simpl. lia.
Qed.

Lemma skip_ip6hdrext_loop_spec n : forall cur t,
  cur_ok s cur -> 0 <= t < 256 ->
  wp (skip_ip6hdrext_loop n cur t)
    (fun r s' => s' = s /\ cur_ok s r.2
       /\ pos cur <= pos r.2 <= pos cur + Z.of_nat n * IPV6_EXT_HDR_MAXLEN
       /\ (r.1 = - EINVAL \/ r.1 = - EFBIG
           \/ 0 <= r.1 < 256 /\ pos r.2 + 2 <= data_end s)) s.
Proof.
  unfold cur_ok, IPV6_EXT_HDR_MAXLEN, UINT8_MAX.
  induction n as [|n IH]; intros cur t [He Hp] Ht; simpl skip_ip6hdrext_loop.
  - apply wp_ret. simpl. repeat split; try lia; auto.
  - wp_step; [apply wp_ret; simpl; repeat split; try lia; auto|].
    wp_step; [apply wp_ret; simpl; repeat split; try lia; auto|].
    wp_step; [|wp_step].
    2: { apply wp_ret. unfold_sizes. simpl. repeat split; lia. }
    all: wp_load; wp_load;
      pose proof (loaded _ _ _ Hload ltac:(lia));
      pose proof (loaded _ _ _ Hload0 ltac:(lia)).
    all: eapply wp_mono; [apply IH; simpl; lia|];
      intros [r c] s' (-> & ? & ? & ?); simpl in *; repeat split; try lia; auto.
Qed.

Lemma skip_ip6hdrext_spec cur t : cur_ok s cur -> 0 <= t < 256 ->
  wp (skip_ip6hdrext cur t)
    (fun r s' => s' = s /\ cur_ok s r.2
       /\ pos cur <= pos r.2
            <= pos cur + Z.of_nat IPV6_EXT_MAX_CHAIN * IPV6_EXT_HDR_MAXLEN
       /\ (r.1 = - EINVAL \/ r.1 = - EFBIG
           \/ 0 <= r.1 < 256 /\ pos r.2 + 2 <= data_end s)) s.
Proof. apply skip_ip6hdrext_loop_spec. Qed.

(** A fixed or variable size header of at least [min] bytes at the cursor. *)
Definition parsed (cur : XfwHdrCursor) (min max : Z)
    (r : Z * Z * XfwHdrCursor) : Prop :=
  r.1.2 = pos cur /\ cur_ok s r.2
  /\ pos cur + min <= pos r.2 <= pos cur + max /\ pos r.2 <= data_end s.

Definition parse_post (cur : XfwHdrCursor) (min max bound : Z)
    (r : Z * Z * XfwHdrCursor) (s' : St) : Prop :=
  s' = s /\ cur_ok s r.2
  /\ (r.1.1 = - EINVAL \/ 0 <= r.1.1 < bound /\ parsed cur min max r).

Lemma parse_ip6hdr_spec cur : cur_ok s cur ->
  wp (parse_ip6hdr cur) (parse_post cur SIZEOF_IPV6HDR SIZEOF_IPV6HDR 1) s.
Proof.
  intros [He Hp]. unfold parse_ip6hdr, parse_post, parsed, cur_ok.
  wp_step; [apply wp_ret; simpl; auto|]. wp_load.
  wp_step; apply wp_ret; unfold_sizes; simpl; repeat split; try lia; auto.
Qed.

Lemma parse_iphdr_spec cur : cur_ok s cur ->
  wp (parse_iphdr cur) (parse_post cur SIZEOF_IPHDR 60 256) s.
Proof.
  intros [He Hp]. unfold parse_iphdr, parse_post, parsed, cur_ok.
  wp_step; [apply wp_ret; simpl; auto|]. wp_load.
  wp_step; [apply wp_ret; simpl; auto|]. wp_load.
  rewrite Z.shiftl_mul_pow2 by lia.
  wp_step; [apply wp_ret; simpl; auto|]. wp_step; [apply wp_ret; simpl; auto|].
  wp_load. pose proof (loaded _ _ _ Hload ltac:(lia)).
  pose proof (loaded _ _ _ Hload1 ltac:(lia)).
  unfold_sizes; simpl; repeat split; try dlia.
Qed.

Lemma parse_icmphdr_common_spec cur p : cur_ok s cur ->
  wp (parse_icmphdr_common cur p) (parse_post cur SIZEOF_ICMPHDR SIZEOF_ICMPHDR 256) s.
Proof.
  intros [He Hp]. unfold parse_icmphdr_common, parse_post, parsed, cur_ok.
  assert ((if p =? XFW_L4_PROTO_ICMP then SIZEOF_ICMPHDR else SIZEOF_ICMP6HDR)
          = SIZEOF_ICMPHDR) as -> by by case_match.
  wp_step; [apply wp_ret; simpl; auto|]. wp_load.
  pose proof (loaded _ _ _ Hload ltac:(lia)).
  unfold_sizes; simpl; repeat split; try lia.
Qed.

Lemma parse_udphdr_spec cur : cur_ok s cur ->
  wp (parse_udphdr cur) (parse_post cur SIZEOF_UDPHDR SIZEOF_UDPHDR 65536) s.
Proof.
  intros [He Hp]. unfold parse_udphdr, parse_post, parsed, cur_ok.
  wp_step; [apply wp_ret; simpl; auto|]. wp_load.
  pose proof (bswap16_range (le_combine b)).
  wp_step; apply wp_ret; unfold_sizes; simpl; repeat split; try lia; auto.
Qed.

Lemma parse_tcphdr_spec cur : cur_ok s cur ->
  wp (parse_tcphdr cur) (parse_post cur SIZEOF_TCPHDR 60 61) s.
Proof.
  intros [He Hp]. unfold parse_tcphdr, parse_post, parsed, cur_ok.
  wp_step; [apply wp_ret; simpl; auto|]. wp_load.
  wp_step; [apply wp_ret; simpl; auto|].
  pose proof (loaded _ _ _ Hload ltac:(lia)).
  wp_step; apply wp_ret; unfold_sizes; simpl; repeat split; try dlia; auto.
Qed.
End specs.

Lemma wp_on_cur {A} (f : XfwHdrCursor -> P (A * XfwHdrCursor))
    (Q : A -> St -> Prop) s :
  wp (f (hdr_cur (s_ctx s)))
     (fun r s' => Q r.1 (set_ctx (with_cur r.2 (s_ctx s')) s')) s ->
  wp (on_cur f) Q s.
Proof.
  intros H. unfold on_cur. apply wp_bind, wp_get_ctx, wp_bind.
  eapply wp_mono; [exact H|]. intros [a cur] s'. by cbv beta.
Qed.
