(* ===== verification/TcpAnomaly.v ===== *)
(** * TcpAnomaly: the TCP anomaly filter

    src/bpf/tcp_anomaly_filter.h. *)

From S2P Require Import Prelude.
From S2P Require Import Enums.
From S2P Require Import Uapi.
From S2P Require Import Kernel.
From S2P Require Import Ctx.
From S2P Require Import Filter.
From S2P Require Import Verdict.
From S2P Require Import Parsing.

Section anomaly.
Context (E : Env).

Definition tcp_anomaly_filter (th : Z) : P Z :=
  c <- get_ctx ;;
  let ta := rc_tcp_anomaly (rules (cfg c)) in
  if negb (ta_enabled ta) then ret XFW_CTX_CONTINUE else
  w <- tcp_flag_word th ;;
  let tcp_flags := u8 (Z.shiftr w 8) in
  r <- bpf_bitset64_test (ta_bad_flags ta) tcp_flags ;;
  if r then XFW_MAKE_CTX_DROP E XFW_DROP_TCP_ANOM_BAD_FLAGS else
  sport <- th_source th ;;
  dport <- th_dest th ;;
  if (sport =? 0) || (dport =? 0) then XFW_MAKE_CTX_DROP E XFW_DROP_TCP_ANOM_ZERO_PORT
  else
  syn <- th_syn th ;;
  if negb syn then ret XFW_CTX_CONTINUE else
  doff <- th_doff th ;;
  if ta_syn_without_opt_enabled ta && (doff <=? 5)
  then XFW_MAKE_CTX_DROP E XFW_DROP_TCP_ANOM_SYN_NO_OPTIONS else
  if ta_syn_with_payload_enabled ta && (th + doff * 4 <? cend (hdr_cur c))
  then XFW_MAKE_CTX_DROP E XFW_DROP_TCP_ANOM_SYN_HAS_DATA else
  seq <- th_seq th ;;
  if ta_syn_seqno_enabled ta && (seq =? ta_syn_seqno_value ta)
  then XFW_MAKE_CTX_DROP E XFW_DROP_TCP_ANOM_SYN_BAD_SEQ else
  ret XFW_CTX_CONTINUE.

Lemma bitset_test_spec bits idx s :
  length bits = 4%nat -> 0 <= idx < 256 ->
  wp (bpf_bitset64_test bits idx) (fun _ s' => s' = s) s.
Proof.
  intros Hl Hi. unfold bpf_bitset64_test. apply wp_bind, wp_arr_get; [dlia|].
  by intros x _.
Qed.

Lemma tcp_anomaly_filter_spec th s :
  wf s -> 0 <= th -> th + SIZEOF_TCPHDR <= data_end s ->
  wp (tcp_anomaly_filter th) (verdict_c E s) s.
Proof.
  intros Hwf Ht He. unfold tcp_anomaly_filter. apply wp_bind, wp_get_ctx.
  wp_step; [wp_verdict|]. wp_load. apply wp_bind. eapply wp_mono.
  { apply bitset_test_spec; [apply Hwf|]. apply wrap_range. lia. }
  intros r s' ->. wp_step; [wp_verdict|]. wp_load. wp_load.
  wp_step; [wp_verdict|]. wp_load. wp_step; [wp_verdict|]. wp_load.
  do 2 (wp_step; [wp_verdict|]). wp_load. wp_step; wp_verdict.
Qed.
End anomaly.
