(* ===== verification/Dst.v ===== *)
(** * Dst: the destination filter

    src/bpf/dst.h, the last protection layer of both programs. *)

From S2P Require Import Prelude.
From S2P Require Import Enums.
From S2P Require Import Uapi.
From S2P Require Import Kernel.
From S2P Require Import Ctx.
From S2P Require Import Filter.
From S2P Require Import Verdict.
From S2P Require Import Parsing.

Section dst.
Context (E : Env).

(** The key and the default index; [None] when the function returns false. *)
Definition populate_dst_info (c : XfwGlobalCtx) : P (option (XfwDstKey * DefaultIndex)) :=
  VERIFY (l4_off c <=? L4_OFF_MAX) None (
  if ipver c =? bpf_ntohs ETH_P_IP then
    let iph4 := DATA_BGN + ip_off c in
    VERIFY (iph4 + SIZEOF_IPHDR <=? cend (hdr_cur c)) None (
    daddr <- ip4_daddr iph4 ;;
    let addr := xfw_assign_ip4_addr daddr in
    if l4_proto c =? XFW_L4_PROTO_TCP then
      let th := DATA_BGN + l4_off c in
      VERIFY (th + SIZEOF_TCPHDR <=? cend (hdr_cur c)) None (
      port <- th_dest th ;;
      ret (Some (mkDstKey XFW_IP_VER_4 (u8 (l4_proto c)) port addr,
                 XFW_DEFAULT_DST_TCP_IP4)))
    else if l4_proto c =? XFW_L4_PROTO_UDP then
      let uh := DATA_BGN + l4_off c in
      VERIFY (uh + SIZEOF_UDPHDR <=? cend (hdr_cur c)) None (
      port <- uh_dest uh ;;
      ret (Some (mkDstKey XFW_IP_VER_4 (u8 (l4_proto c)) port addr,
                 XFW_DEFAULT_DST_UDP_IP4)))
    else ret None)
  else if ipver c =? bpf_ntohs ETH_P_IPV6 then
    let iph6 := DATA_BGN + ip_off c in
    VERIFY (iph6 + SIZEOF_IPV6HDR <=? cend (hdr_cur c)) None (
    addr <- ip6_daddr iph6 ;;
    if l4_proto c =? XFW_L4_PROTO_TCP then
      let th := DATA_BGN + l4_off c in
      VERIFY (th + SIZEOF_TCPHDR <=? cend (hdr_cur c)) None (
      port <- th_dest th ;;
      ret (Some (mkDstKey XFW_IP_VER_6 (u8 (l4_proto c)) port addr,
                 XFW_DEFAULT_DST_TCP_IP6)))
    else if l4_proto c =? XFW_L4_PROTO_UDP then
      let uh := DATA_BGN + l4_off c in
      VERIFY (uh + SIZEOF_UDPHDR <=? cend (hdr_cur c)) None (
      port <- uh_dest uh ;;
      ret (Some (mkDstKey XFW_IP_VER_6 (u8 (l4_proto c)) port addr,
                 XFW_DEFAULT_DST_UDP_IP6)))
    else ret None)
  else ret None).

Definition xfw_dst_filter : P Z :=
  c <- get_ctx ;;
  info <- populate_dst_info c ;;
  match info with
  | None => XFW_ASSERT E false (ret XFW_CTX_CONTINUE)
  | Some (dst_key, dst_default) =>
      match SELECT_SHADOW_MAP (map_dst (e_rules E)) (amap_dst (cfg c)) !! dst_key with
      | None =>
          let default_rule := rc_defaults (rules (cfg c)) dst_default in
          if action default_rule =? XFW_ACTION_BLOCK
          then XFW_MAKE_CTX_DROP E XFW_DROP_DST_BLOCKED else
          if action default_rule =? XFW_ACTION_ALLOW then ret XFW_CTX_CONTINUE else
          XFW_ASSERT E (action default_rule =? XFW_ACTION_RATE_LIMIT) (
          ok <- xfw_is_allowed_by_rlimits (rlimit default_rule) ;;
          if ok then ret XFW_CTX_CONTINUE else
          XFW_MAKE_CTX_DROP E XFW_DROP_DST_RATE_LIMITED)
      | Some rule =>
          if action rule =? XFW_ACTION_BLOCK
          then XFW_MAKE_CTX_DROP E XFW_DROP_DST_BLOCKED else
          if action rule =? XFW_ACTION_ALLOW then ret XFW_CTX_CONTINUE else
          XFW_ASSERT E (action rule =? XFW_ACTION_RATE_LIMIT) (
          ok <- xfw_is_allowed_by_rlimits (rlimit rule) ;;
          if ok then ret XFW_CTX_CONTINUE else
          XFW_MAKE_CTX_DROP E XFW_DROP_DST_RATE_LIMITED)
      end
  end.

Lemma populate_dst_info_spec s : wf s ->
  wp (populate_dst_info (s_ctx s)) (fun _ s' => s' = s) s.
Proof.
  intros Hwf. pose proof (wf_end _ Hwf) as He. pose proof (wf_ip_off _ Hwf).
  pose proof (wf_l4_off _ Hwf). unfold populate_dst_info, DATA_BGN.
  apply wp_verify; intros _; [done|].
  wp_step; [|wp_step; [|done]]; (apply wp_verify; intros Hip; [done|]).
  - wp_load. wp_step; [|wp_step; [|done]]; (apply wp_verify; intros Hl4; [done|]);
      wp_load; done.
  - apply wp_bind. eapply wp_mono.
    { apply ld_in6_spec; unfold_sizes; lia. }
    intros a s' ->. wp_step; [|wp_step; [|done]];
      (apply wp_verify; intros Hl4; [done|]); wp_load; done.
Qed.

(** Apply an action rule: block, allow or rate limit. *)
Lemma action_rule_spec rule (r1 r2 : XfwDropStat) s :
  wf s ->
  wp (if action rule =? XFW_ACTION_BLOCK then XFW_MAKE_CTX_DROP E r1 else
      if action rule =? XFW_ACTION_ALLOW then ret XFW_CTX_CONTINUE else
      XFW_ASSERT E (action rule =? XFW_ACTION_RATE_LIMIT) (
      ok <- xfw_is_allowed_by_rlimits (rlimit rule) ;;
      if ok then ret XFW_CTX_CONTINUE else XFW_MAKE_CTX_DROP E r2))
     (verdict_c E s) s.
Proof.
  intros Hwf. do 2 (wp_step; [wp_verdict|]). apply wp_assert; intros _; [wp_verdict|].
  apply wp_bind. eapply wp_mono; [by apply allowed_by_rlimits_spec|].
  intros ok s1 [Hq Hc]. wp_step; wp_verdict.
Qed.

Lemma xfw_dst_filter_spec s : wf s -> wp xfw_dst_filter (verdict_c E s) s.
Proof.
  intros Hwf. unfold xfw_dst_filter. apply wp_bind, wp_get_ctx, wp_bind.
  eapply wp_mono; [by apply populate_dst_info_spec|]. intros [[key def]|] s' ->.
  - wp_step; by apply action_rule_spec.
  - apply wp_assert; intros _; wp_verdict.
Qed.
End dst.
