(* ===== verification/TcpAuth.v ===== *)
(** * TcpAuth: the TCP connection tracker

    src/bpf/tcp_auth.h.  The state of a connection is the time of its last FIN;
    a connection without an entry is unauthenticated.  The filter is used by
    the ingress program, the learning function by the egress program, on the
    same LRU map. *)

From S2P Require Import Prelude.
From S2P Require Import Enums.
From S2P Require Import Uapi.
From S2P Require Import Kernel.
From S2P Require Import Ctx.
From S2P Require Import IncidentLog.
From S2P Require Import Filter.
From S2P Require Import Verdict.
From S2P Require Import Parsing.

(** [XfwTcpConnState] has one field, [last_fin_time_jiff]. *)
Abbreviation XfwTcpConnState := Z (only parsing).

Inductive XfwTcpAuthEvent :=
  | TCP_AUTH_EVENT_NORMAL
  | TCP_AUTH_EVENT_RST
  | TCP_AUTH_EVENT_FIN.

Section tcp_auth.
Context (E : Env).

(** [60 * JIFFIES_PER_SEC], an [unsigned long]. *)
Definition TCP_AUTH_CONN_CLOSE_TIMEOUT_JIFF : Z := u64 (60 * e_hz E).
Definition TCP_AUTH_CONN_MAX_FIN_TIME_JIFF : Z :=
  u64 (UINT64_MAX - TCP_AUTH_CONN_CLOSE_TIMEOUT_JIFF).

Definition tcp_auth_conn_lookup (addr : XfwSockAddr) : P (option XfwTcpConnState) :=
  s <- get ;; ret (s_conns s !! addr).

Definition tcp_auth_conn_delete (addr : XfwSockAddr) : P unit :=
  modify (fun s => set_conns (delete addr (s_conns s)) s).

Definition tcp_auth_conn_add (addr : XfwSockAddr) : P unit :=
  modify (fun s => set_conns
    (k_upd_tcp_conns (e_kernel E) (s_conns s) addr
       TCP_AUTH_CONN_MAX_FIN_TIME_JIFF BPF_ANY).2 s).

(** Writes through the pointer that the lookup of [addr] returned. *)
Definition tcp_auth_conn_set_fin_time (addr : XfwSockAddr) (fin_time_jiff : Z) : P unit :=
  modify (fun s => set_conns (alter (fun _ => fin_time_jiff) addr (s_conns s)) s).

Definition tcp_auth_is_conn_outdated (c : XfwGlobalCtx) (conn : XfwTcpConnState) : bool :=
  u64 (conn + TCP_AUTH_CONN_CLOSE_TIMEOUT_JIFF) <? ts_jiff c.

Definition tcp_auth_has_conn_trusted (c : XfwGlobalCtx) (addr : XfwSockAddr) : P bool :=
  conn <- tcp_auth_conn_lookup addr ;;
  match conn with
  | None => ret false
  | Some conn => ret (negb (tcp_auth_is_conn_outdated c conn))
  end.

Definition tcp_auth_conn_ingress_filter (addr : XfwSockAddr) (ev : XfwTcpAuthEvent) : P Z :=
  c <- get_ctx ;;
  if negb (rc_tcp_auth (rules (cfg c))) then ret XFW_CTX_CONTINUE else
  conn <- tcp_auth_conn_lookup addr ;;
  match conn with
  | None => XFW_MAKE_CTX_DROP E XFW_DROP_TCP_AUTH_FAILED
  | Some conn =>
      if tcp_auth_is_conn_outdated c conn then
        tcp_auth_conn_delete addr ;;; XFW_MAKE_CTX_DROP E XFW_DROP_TCP_AUTH_TIMEOUT
      else
      match ev with
      | TCP_AUTH_EVENT_RST => tcp_auth_conn_delete addr ;;; ret XFW_CTX_CONTINUE
      | TCP_AUTH_EVENT_FIN =>
          tcp_auth_conn_set_fin_time addr (ts_jiff c) ;;; ret XFW_CTX_CONTINUE
      | TCP_AUTH_EVENT_NORMAL => ret XFW_CTX_CONTINUE
      end
  end.

Definition tcp_auth_conn_egress_learning : P unit :=
  c <- get_ctx ;;
  VERIFY (l4_off c <=? L4_OFF_MAX) tt (
  let th := DATA_BGN + l4_off c in
  VERIFY (th + SIZEOF_TCPHDR <=? cend (hdr_cur c)) tt (
  port <- th_dest th ;;
  let addr := mkSockAddr (ilog_addr c) port in
  rst <- th_rst th ;;
  if rst then tcp_auth_conn_delete addr else
  conn <- tcp_auth_conn_lookup addr ;;
  match conn with
  | None =>
      syn <- th_syn th ;;
      if negb (rc_tcp_auth (rules (cfg c))) || syn
      then tcp_auth_conn_add addr else ret tt
  | Some conn =>
      fin <- th_fin th ;;
      if fin then tcp_auth_conn_set_fin_time addr (ts_jiff c) else
      if tcp_auth_is_conn_outdated c conn
      then tcp_auth_conn_set_fin_time addr TCP_AUTH_CONN_MAX_FIN_TIME_JIFF
      else ret tt
  end)).

(** ** Contracts *)

Lemma tcp_auth_conn_ingress_filter_spec addr ev s :
  wp (tcp_auth_conn_ingress_filter addr ev) (verdict_c E s) s.
Proof.
  unfold tcp_auth_conn_ingress_filter. apply wp_bind, wp_get_ctx.
  wp_step; [wp_verdict|]. apply wp_bind, wp_bind, wp_get, wp_ret.
  wp_step; [|wp_verdict]. wp_step; [apply wp_bind, wp_modify; wp_verdict|].
  destruct ev; [|apply wp_bind, wp_modify..]; wp_verdict.
Qed.

Lemma tcp_auth_conn_egress_learning_spec s : wf s ->
  wp tcp_auth_conn_egress_learning (fun _ s' => quiet s s' /\ ctx_kept s s') s.
Proof.
  intros Hwf. pose proof (wf_end _ Hwf). pose proof (wf_l4_off _ Hwf).
  unfold tcp_auth_conn_egress_learning, DATA_BGN. apply wp_bind, wp_get_ctx.
  apply wp_verify; intros _; [by split|]. apply wp_verify; intros Hl; [by split|].
  wp_load. wp_load. wp_step; [apply wp_modify; split; auto with quietdb|].
  apply wp_bind, wp_bind, wp_get, wp_ret. wp_step; wp_load.
  - wp_step; [apply wp_modify; split; auto with quietdb|].
    wp_step; [apply wp_modify; split; auto with quietdb|by split].
  - wp_step; [apply wp_modify; split; auto with quietdb|by split].
Qed.
End tcp_auth.

(** ** Abstract connection states

    A connection is unknown, open, or closing since its last FIN.  The map
    encodes "open" as a FIN in the far future. *)
Inductive ConnState := CONN_UNKNOWN | CONN_OPEN | CONN_CLOSING (fin : Z).

Definition close_timeout (E : Env) : Z := 60 * e_hz E.

Definition conn_state (E : Env) (m : gmap XfwSockAddr Z) (a : XfwSockAddr) : ConnState :=
  match m !! a with
  | None => CONN_UNKNOWN
  | Some v => if v =? TCP_AUTH_CONN_MAX_FIN_TIME_JIFF E then CONN_OPEN else CONN_CLOSING v
  end.

(** An ingress packet: whether it is accepted, and the next state. *)
Definition ingress_next (timeout now : Z) (st : ConnState) (ev : XfwTcpAuthEvent)
    : bool * ConnState :=
  match st with
  | CONN_UNKNOWN => (false, CONN_UNKNOWN)
  | CONN_CLOSING fin =>
      if fin + timeout <? now then (false, CONN_UNKNOWN) else
      match ev with
      | TCP_AUTH_EVENT_RST => (true, CONN_UNKNOWN)
      | TCP_AUTH_EVENT_FIN => (true, CONN_CLOSING now)
      | TCP_AUTH_EVENT_NORMAL => (true, CONN_CLOSING fin)
      end
  | CONN_OPEN =>
      match ev with
      | TCP_AUTH_EVENT_RST => (true, CONN_UNKNOWN)
      | TCP_AUTH_EVENT_FIN => (true, CONN_CLOSING now)
      | TCP_AUTH_EVENT_NORMAL => (true, CONN_OPEN)
      end
  end.

(** Clock values that the timeout arithmetic covers. *)
Definition clock_ok (E : Env) (now : Z) : Prop :=
  0 < e_hz E <= 1000000 /\ 0 <= now /\ now + close_timeout E < 2 ^ 64 - 1.

(** Entries written by the programs: the far future or an earlier clock value. *)
Definition conns_ok (E : Env) (now : Z) (m : gmap XfwSockAddr Z) : Prop :=
  forall a v, m !! a = Some v ->
    v = TCP_AUTH_CONN_MAX_FIN_TIME_JIFF E \/ 0 <= v <= now.

Section refinement.
Context (E : Env) (now : Z) (Hclk : clock_ok E now).

Lemma timeout_value : TCP_AUTH_CONN_CLOSE_TIMEOUT_JIFF E = close_timeout E.
Proof. unfold TCP_AUTH_CONN_CLOSE_TIMEOUT_JIFF, close_timeout, clock_ok in *.
  apply wrap_small. lia. Qed.

Lemma max_fin_value :
  TCP_AUTH_CONN_MAX_FIN_TIME_JIFF E = UINT64_MAX - close_timeout E.
Proof.
  unfold TCP_AUTH_CONN_MAX_FIN_TIME_JIFF. rewrite timeout_value.
  unfold close_timeout, clock_ok, UINT64_MAX in *. apply wrap_small. lia.
Qed.

(** An open connection is never outdated; a closing one is, once the timeout
    has passed. *)
Lemma outdated_open c : ts_jiff c = now ->
  tcp_auth_is_conn_outdated E c (TCP_AUTH_CONN_MAX_FIN_TIME_JIFF E) = false.
Proof.
  intros Ht. unfold tcp_auth_is_conn_outdated.
  rewrite max_fin_value, timeout_value, Ht.
  unfold clock_ok, close_timeout, UINT64_MAX in *.
  rewrite wrap_small by lia. apply Z.ltb_ge. lia.
Qed.

Lemma outdated_closing c v : ts_jiff c = now -> 0 <= v <= now ->
  tcp_auth_is_conn_outdated E c v = (v + close_timeout E <? now).
Proof.
  intros Ht Hv. unfold tcp_auth_is_conn_outdated. rewrite timeout_value, Ht.
  unfold clock_ok, close_timeout in *. by rewrite wrap_small by lia.
Qed.

Lemma now_not_max : now <> TCP_AUTH_CONN_MAX_FIN_TIME_JIFF E.
Proof.
  rewrite max_fin_value. unfold clock_ok, close_timeout, UINT64_MAX in *. lia.
Qed.

(** What an accepted packet does to the entry. *)
Definition conns_after (m : gmap XfwSockAddr Z) (a : XfwSockAddr)
    (ev : XfwTcpAuthEvent) : gmap XfwSockAddr Z :=
  match ev with
  | TCP_AUTH_EVENT_NORMAL => m
  | TCP_AUTH_EVENT_RST => delete a m
  | TCP_AUTH_EVENT_FIN => alter (fun _ => now) a m
  end.

(** The behaviour of the filter, branch by branch. *)
Lemma ingress_filter_run a ev s :
  rc_tcp_auth (rules (cfg (s_ctx s))) = true -> ts_jiff (s_ctx s) = now ->
  wp (tcp_auth_conn_ingress_filter E a ev) (fun r s' =>
    match s_conns s !! a with
    | None => r = XFW_CTX_DROP E /\ s_conns s' = s_conns s
    | Some v =>
        if tcp_auth_is_conn_outdated E (s_ctx s) v
        then r = XFW_CTX_DROP E /\ s_conns s' = delete a (s_conns s)
        else r = XFW_CTX_CONTINUE /\ s_conns s' = conns_after (s_conns s) a ev
    end) s.
Proof.
  intros Hen Ht. unfold tcp_auth_conn_ingress_filter. apply wp_bind, wp_get_ctx.
  rewrite Hen. simpl. apply wp_bind, wp_bind, wp_get, wp_ret.
  destruct (s_conns s !! a) as [v|]; [|done].
  destruct (tcp_auth_is_conn_outdated E (s_ctx s) v); [done|].
  destruct ev; try done. unfold wp; simpl. by rewrite Ht.
Qed.

Lemma conns_after_lookup m a ev b :
  conns_after m a ev !! b
  = if decide (b = a) then
      match ev with
      | TCP_AUTH_EVENT_NORMAL => m !! a
      | TCP_AUTH_EVENT_RST => None
      | TCP_AUTH_EVENT_FIN => (fun _ => now) <$> m !! a
      end
    else m !! b.
Proof.
  destruct (decide (b = a)) as [->|Hne]; destruct ev; simpl; try done.
  - apply lookup_delete_eq.
  - apply lookup_alter_eq.
  - by apply lookup_delete_ne.
  - by apply lookup_alter_ne.
Qed.

Lemma conns_after_ok m a ev : conns_ok E now m -> conns_ok E now (conns_after m a ev).
Proof.
  intros Hm b v. rewrite conns_after_lookup.
  destruct (decide (b = a)); [|apply Hm].
  destruct ev; [apply Hm|done|]. intros (? & _ & <-)%fmap_Some.
  right. unfold clock_ok in Hclk. lia.
Qed.
End refinement.

(** The filter implements the abstract automaton on the connection of the
    packet and leaves every other connection as it was. *)
Section automaton.
Context (E : Env) (now : Z) (Hclk : clock_ok E now).

Lemma ingress_filter_refines a ev s :
  rc_tcp_auth (rules (cfg (s_ctx s))) = true -> ts_jiff (s_ctx s) = now ->
  conns_ok E now (s_conns s) ->
  wp (tcp_auth_conn_ingress_filter E a ev) (fun r s' =>
    let '(accepted, next) :=
      ingress_next (close_timeout E) now (conn_state E (s_conns s) a) ev in
    r = (if accepted then XFW_CTX_CONTINUE else XFW_CTX_DROP E)
    /\ conn_state E (s_conns s') a = next
    /\ (forall b, b <> a -> conn_state E (s_conns s') b = conn_state E (s_conns s) b)
    /\ conns_ok E now (s_conns s')) s.
Proof.
  intros Hen Ht Hok. eapply wp_mono; [by eapply ingress_filter_run|].
  intros r s' H. unfold conn_state at 1.
  destruct (s_conns s !! a) as [v|] eqn:Hv.
  2: { destruct H as [-> ->]. simpl. unfold conn_state. rewrite Hv. auto. }
  assert (forall ev', s_conns s' = conns_after now (s_conns s) a ev' ->
    (forall b, b <> a -> conn_state E (s_conns s') b = conn_state E (s_conns s) b)
    /\ conns_ok E now (s_conns s')) as Hother.
  { intros ev' ->. split; [|by apply conns_after_ok].
    intros b Hb. unfold conn_state. by rewrite conns_after_lookup, decide_False. }
  pose proof (Hother TCP_AUTH_EVENT_RST) as Hdel. simpl in Hdel.
  pose proof (now_not_max E now Hclk) as Hnm.
  assert (forall ev', r = XFW_CTX_CONTINUE -> s_conns s' = conns_after now (s_conns s) a ev' ->
    r = XFW_CTX_CONTINUE /\ conn_state E (s_conns s') a
      = match ev' with
        | TCP_AUTH_EVENT_NORMAL => conn_state E (s_conns s) a
        | TCP_AUTH_EVENT_RST => CONN_UNKNOWN
        | TCP_AUTH_EVENT_FIN => CONN_CLOSING now
        end) as Hacc.
  { intros ev' -> ->. split; [done|]. unfold conn_state at 1.
    rewrite conns_after_lookup, decide_True by done.
    destruct ev'; simpl; [done..|]. rewrite Hv. simpl.
    by rewrite (proj2 (Z.eqb_neq _ _)). }
  destruct (Z.eqb_spec v (TCP_AUTH_CONN_MAX_FIN_TIME_JIFF E)) as [->|Hne].
  - rewrite (outdated_open E now Hclk) in H by done. destruct H as [Hr Hc].
    destruct (Hacc _ Hr Hc) as [-> Hs]. rewrite Hs.
    unfold conn_state at 1. rewrite Hv, Z.eqb_refl. destruct ev; simpl; eauto.
  - destruct (Hok a v Hv) as [|Hr]; [done|].
    rewrite (outdated_closing E now Hclk) in H by done. simpl.
    destruct (v + close_timeout E <? now).
    + destruct H as [-> Hc]. split; [done|]. split; [|by apply Hdel].
      unfold conn_state. by rewrite Hc, lookup_delete_eq.
    + destruct H as [Hr' Hc]. destruct (Hacc _ Hr' Hc) as [-> Hs]. rewrite Hs.
      unfold conn_state at 1. rewrite Hv, (proj2 (Z.eqb_neq _ _)) by done.
      destruct ev; simpl; eauto.
Qed.
End automaton.

(** ** Histories

    The runs that touch the connection map, in any order and on any packets,
    as a step relation on the map with the history of events. *)
Inductive auth_event :=
  | EvIngress (a : XfwSockAddr) (ev : XfwTcpAuthEvent) (enabled : bool) (verdict : Z)
  | EvEgress (a : XfwSockAddr) (rst syn learning : bool)
  | EvCookie (a : XfwSockAddr).

Inductive conns_reach (E : Env) : gmap XfwSockAddr Z -> list auth_event -> Prop :=
  | reach_empty : conns_reach E ∅ []
  | reach_evict m m' h : conns_reach E m h -> m' ⊆ m -> conns_reach E m' h
  | reach_ingress s s' a ev r h :
      conns_reach E (s_conns s) h ->
      tcp_auth_conn_ingress_filter E a ev s = Some (r, s') ->
      conns_reach E (s_conns s')
        (EvIngress a ev (rc_tcp_auth (rules (cfg (s_ctx s)))) r :: h)
  | reach_egress s s' th port rst syn h :
      conns_reach E (s_conns s) h -> wf s ->
      th = l4_off (s_ctx s) -> th <= L4_OFF_MAX -> th + SIZEOF_TCPHDR <= data_end s ->
      th_dest th s = Some (port, s) -> th_rst th s = Some (rst, s) ->
      th_syn th s = Some (syn, s) ->
      tcp_auth_conn_egress_learning E s = Some (tt, s') ->
      conns_reach E (s_conns s')
        (EvEgress (mkSockAddr (ilog_addr (s_ctx s)) port) rst syn
           (negb (rc_tcp_auth (rules (cfg (s_ctx s))))) :: h)
  | reach_cookie s s' a h :
      conns_reach E (s_conns s) h ->
      tcp_auth_conn_add E a s = Some (tt, s') ->
      conns_reach E (s_conns s') (EvCookie a :: h).

(** The event makes the filter trust [a]: a packet sent to it that opens the
    connection (or any packet while the filter is learning), or a validated
    SYN cookie. *)
Definition trusts (a : XfwSockAddr) (e : auth_event) : Prop :=
  match e with
  | EvEgress b rst syn learning => b = a /\ rst = false /\ (syn = true \/ learning = true)
  | EvCookie b => b = a
  | EvIngress _ _ _ _ => False
  end.

(** The event ends the trust: an RST of the connection, in either direction. *)
Definition revokes (a : XfwSockAddr) (e : auth_event) : Prop :=
  match e with
  | EvEgress b rst _ _ => b = a /\ rst = true
  | EvIngress b ev enabled r =>
      b = a /\ ev = TCP_AUTH_EVENT_RST /\ enabled = true /\ r = XFW_CTX_CONTINUE
  | EvCookie _ => False
  end.

(** Newest event first: [a] was trusted and has not been reset since. *)
Fixpoint trusted_since (a : XfwSockAddr) (h : list auth_event) : Prop :=
  match h with
  | [] => False
  | e :: h => trusts a e \/ (~ revokes a e /\ trusted_since a h)
  end.

Section histories.
Context (E : Env) `{!KernelSpec (e_kernel E)}.

Lemma conn_add_lookup a m b v :
  (k_upd_tcp_conns (e_kernel E) m a (TCP_AUTH_CONN_MAX_FIN_TIME_JIFF E) BPF_ANY).2 !! b
    = Some v ->
  b = a \/ m !! b = Some v.
Proof.
  destruct (k_upd_tcp_conns _ _ _ _ _) as [r m'] eqn:Hu. simpl. intros Hb.
  destruct (decide (b = a)) as [->|Hne]; [by left|right].
  destruct (decide (0 <= r)).
  - by eapply (lru_ok _ _ _ _ _ _ Hu).
  - eapply lookup_weaken; [done|]. eapply (lru_err _ _ _ _ _ _ Hu). lia.
Qed.

(** The ingress filter never adds an entry, and removes the one an accepted
    RST belongs to. *)
Lemma ingress_filter_conns a ev s r s' b v :
  tcp_auth_conn_ingress_filter E a ev s = Some (r, s') ->
  s_conns s' !! b = Some v ->
  is_Some (s_conns s !! b)
  /\ (b = a -> ev = TCP_AUTH_EVENT_RST -> rc_tcp_auth (rules (cfg (s_ctx s))) = true ->
      False).
Proof.
  unfold tcp_auth_conn_ingress_filter, tcp_auth_conn_lookup. simpl.
  unfold bind, get_ctx, bind, get, ret. simpl.
  destruct (rc_tcp_auth _) eqn:Hen; simpl.
  2: { intros [= <- <-]. split; [eauto|congruence]. }
  destruct (s_conns s !! a) as [w|] eqn:Ha; simpl.
  - destruct (tcp_auth_is_conn_outdated _ _ _); simpl; [|destruct ev; simpl];
      intros [= <- <-]; simpl; intros Hb.
    + apply lookup_delete_Some in Hb as [? ?]. split; [eauto|congruence].
    + split; [eauto|congruence].
    + apply lookup_delete_Some in Hb as [? ?]. split; [eauto|congruence].
    + split; [|congruence]. destruct (decide (b = a)) as [->|];
        [rewrite Ha; eauto|rewrite lookup_alter_ne in Hb by done; eauto].
  - intros [= <- <-]. simpl. intros Hb. split; [eauto|]. intros ->. congruence.
Qed.

Lemma egress_learning_conns s port rst syn :
  let th := l4_off (s_ctx s) in
  wf s -> th <= L4_OFF_MAX -> th + SIZEOF_TCPHDR <= data_end s ->
  th_dest th s = Some (port, s) -> th_rst th s = Some (rst, s) ->
  th_syn th s = Some (syn, s) ->
  let a := mkSockAddr (ilog_addr (s_ctx s)) port in
  wp (tcp_auth_conn_egress_learning E) (fun _ s' =>
    forall b v, s_conns s' !! b = Some v ->
      (is_Some (s_conns s !! b) /\ ~ (b = a /\ rst = true))
      \/ (b = a /\ rst = false
          /\ (syn = true \/ negb (rc_tcp_auth (rules (cfg (s_ctx s)))) = true))) s.
Proof.
  intros th Hwf H1 H2 Hp Hr Hs a. pose proof (wf_end _ Hwf) as He.
  pose proof (wf_l4_off _ Hwf). unfold tcp_auth_conn_egress_learning, DATA_BGN.
  rewrite ?Z.add_0_l. apply wp_bind, wp_get_ctx.
  apply wp_verify; intros Hv; [lia|]. cbv zeta. rewrite Z.add_0_l.
  apply wp_verify; intros Hv'; [lia|].
  apply wp_bind. eapply wp_known; [exact Hp|]. apply wp_bind.
  eapply wp_known; [exact Hr|]. fold th a. destruct rst.
  { apply wp_modify. simpl. intros b v [? ?]%lookup_delete_Some. left.
    split; [eauto|]. by intros [-> _]. }
  assert (forall x b v, alter (fun _ => x) a (s_conns s) !! b = Some v ->
            is_Some (s_conns s !! b)) as Halt.
  { intros x b v Hb. destruct (decide (b = a)) as [->|].
    - rewrite lookup_alter_eq in Hb. destruct (s_conns s !! a); [eauto|done].
    - rewrite lookup_alter_ne in Hb; eauto. }
  apply wp_bind, wp_bind, wp_get, wp_ret. wp_step.
  - assert (forall x, forall b v, alter (fun _ => x) a (s_conns s) !! b = Some v ->
      is_Some (s_conns s !! b) /\ ~ (b = a /\ false = true)) as Halt'.
    { intros y b v Hb. split; [by eapply Halt|]. by intros []. }
    wp_load. wp_step; [apply wp_modify; simpl; eauto|].
    wp_step; [apply wp_modify; simpl; eauto|]. apply wp_ret. intros b' v' Hb'.
    left. split; [eauto|by intros []].
  - apply wp_bind. eapply wp_known; [exact Hs|].
    wp_step; [apply wp_modify; simpl|apply wp_ret]; intros b v Hbv.
    + apply conn_add_lookup in Hbv as [->|Hbv].
      * right. split; [done|]. split; [done|]. apply orb_prop in Hb. tauto.
      * left. split; [eauto|by intros []].
    + left. split; [eauto|by intros []].
Qed.

(** Every entry of a reachable map was trusted and not reset since. *)
Lemma reach_trusted m h a v :
  conns_reach E m h -> m !! a = Some v -> trusted_since a h.
Proof.
  intros Hr. revert a v.
  induction Hr as [|m m' h _ IH Hsub|s s' a ev r h _ IH Hrun
                  |s s' th port rst syn h _ IH Hwf -> H1 H2 Hp Hrst Hs Hrun
                  |s s' a h _ IH Hrun]; intros b v Hb; simpl.
  - done.
  - eapply IH. by eapply lookup_weaken.
  - destruct (ingress_filter_conns _ _ _ _ _ _ _ Hrun Hb) as [[w Hw] Hno].
    right. split; [|by eapply IH]. intros (-> & -> & Hen & ->). by apply Hno.
  - pose proof (run_wp _ _ _ _ _ Hrun
      (egress_learning_conns s port rst syn Hwf H1 H2 Hp Hrst Hs) b v Hb) as
      [[[w Hw] Hno]|(-> & -> & Hl)].
    + right. split; [|by eapply IH]. intros [Ha Hr]. by apply Hno.
    + by left.
  - unfold tcp_auth_conn_add, modify in Hrun. injection Hrun as <-. simpl in Hb.
    apply conn_add_lookup in Hb as [->|Hb]; [by left|].
    right. split; [tauto|by eapply IH].
Qed.
End histories.

(** ** Properties *)

Definition auth_rules : XfwRulesCfg :=
  mkRulesCfg false all_bits (mkSyncookie 0 0 false)
    (mkTcpAnomaly false false false false 0 no_bits) true false
    (fun _ => XfwActionRule_default) (fun _ => XfwActionRule_default).
Definition auth_cfg : XfwFilterCfg := with_rules auth_rules sample_cfg.
Definition auth_env : Env := sample_env HOOK_XDP auth_cfg.
Definition auth_addr : XfwSockAddr := mkSockAddr (xfw_ipv4_to_ipv6_mapped 5) 7.
Definition auth_state (m : gmap XfwSockAddr Z) : St :=
  set_conns m (sample_state auth_cfg []).

(** C17: the ingress side of the TCP authentication filter implements the
    connection automaton (unknown, open, closing since a FIN): unknown
    connections and connections whose close timeout has passed are dropped, an
    RST forgets the connection, a FIN starts the timeout, and no other
    connection is affected. *)
Theorem tcp_auth_refines_automaton E now a ev s :
  clock_ok E now ->
  rc_tcp_auth (rules (cfg (s_ctx s))) = true -> ts_jiff (s_ctx s) = now ->
  conns_ok E now (s_conns s) ->
  wp (tcp_auth_conn_ingress_filter E a ev) (fun r s' =>
    let '(accepted, next) :=
      ingress_next (close_timeout E) now (conn_state E (s_conns s) a) ev in
    r = (if accepted then XFW_CTX_CONTINUE else XFW_CTX_DROP E)
    /\ conn_state E (s_conns s') a = next
    /\ (forall b, b <> a -> conn_state E (s_conns s') b = conn_state E (s_conns s) b)
    /\ conns_ok E now (s_conns s')) s.
Proof. intros. by apply ingress_filter_refines. Qed.

Lemma tcp_auth_refines_automaton_witness :
  wp (tcp_auth_conn_ingress_filter auth_env auth_addr TCP_AUTH_EVENT_FIN) (fun r s' =>
    r = XFW_CTX_CONTINUE
    /\ conn_state auth_env (s_conns s') auth_addr = CONN_CLOSING 1000000)
    (auth_state {[ auth_addr := TCP_AUTH_CONN_MAX_FIN_TIME_JIFF auth_env ]}).
Proof.
  eapply wp_mono.
  - apply (tcp_auth_refines_automaton auth_env 1000000); try reflexivity.
    + unfold clock_ok, close_timeout; simpl; lia.
    + intros b v Hb. simpl in Hb. apply lookup_singleton_Some in Hb as [_ <-]. by left.
  - intros r s'.
    assert (conn_state auth_env (s_conns (auth_state
      {[ auth_addr := TCP_AUTH_CONN_MAX_FIN_TIME_JIFF auth_env ]})) auth_addr
      = CONN_OPEN) as -> by (vm_compute; reflexivity).
    simpl. intros (-> & H & _). by split.
Defined.



(** After an accepted FIN at time [t0] the connection is accepted exactly
    until [t0] plus the close timeout. *)
Lemma tcp_auth_fin_window E t0 t1 a s :
  clock_ok E t0 -> clock_ok E t1 -> t0 <= t1 ->
  rc_tcp_auth (rules (cfg (s_ctx s))) = true -> ts_jiff (s_ctx s) = t0 ->
  conns_ok E t0 (s_conns s) -> conn_state E (s_conns s) a = CONN_OPEN ->
  wp (tcp_auth_conn_ingress_filter E a TCP_AUTH_EVENT_FIN) (fun _ s1 =>
    forall s2, s_conns s2 = s_conns s1 ->
      rc_tcp_auth (rules (cfg (s_ctx s2))) = true -> ts_jiff (s_ctx s2) = t1 ->
      wp (tcp_auth_conn_ingress_filter E a TCP_AUTH_EVENT_NORMAL) (fun r _ =>
        r = XFW_CTX_CONTINUE <-> t1 <= t0 + close_timeout E) s2) s.
Proof.
  intros H0 H1 Hle Hen Ht Hok Hopen.
  eapply wp_mono; [by apply (ingress_filter_refines E t0)|]. intros r s1.
  rewrite Hopen. simpl. intros (_ & Hc & _ & Hok1) s2 E2 Hen2 Ht2.
  eapply wp_mono.
  { apply (ingress_filter_refines E t1); try done. rewrite E2. intros b v Hb.
    destruct (Hok1 b v Hb) as [->|]; [by left|right; lia]. }
  intros r2 s3. rewrite E2, Hc. simpl.
  destruct (Z.ltb_spec (t0 + close_timeout E) t1); intros (-> & _).
  - split; [intros Hd; by apply drop_not_continue in Hd|lia].
  - split; [lia|done].
Qed.
