(* ===== verification/Syncookies.v ===== *)
(** * Syncookies: SYN cookies issued and checked by the ingress program

    src/bpf/tcp_syncookies.h: the incremental checksums, the flood and passive
    timers, the TCP option parser, the timestamp cookie, the construction of the
    SYN-ACK in place of the SYN and the SYN and ACK filters.  The socket lookup,
    the cookie functions, the checksum helper and the packet copy are kernel
    helpers (see [Kernel]). *)

From S2P Require Import Prelude.
From S2P Require Import Enums.
From S2P Require Import Uapi.
From S2P Require Import Kernel.
From S2P Require Import Ctx.
From S2P Require Import Filter.
From S2P Require Import Parsing.

Definition XFW_DEFAULT_TTL : Z := 64.
Definition XFW_DEFAULT_WSCALE : Z := 7.
Definition XFW_DEFAULT_WINDOW : Z := 0xffff.
Definition TCP_TS_HZ : Z := 1000.
Definition NSEC_PER_SEC : Z := 1000000000.

Definition TCPOPT_EOL : Z := 0.
Definition TCPOPT_NOP : Z := 1.
Definition TCPOPT_MSS : Z := 2.
Definition TCPOPT_MSS_SZ : Z := 4.
Definition TCPOPT_WSCALE : Z := 3.
Definition TCPOPT_WSCALE_SZ : Z := 3.
Definition TCPOPT_WSCALE_MASK : Z := 0xf.
Definition TCPOPT_WSCALE_MAX : Z := 14.
Definition TCPOPT_SACK_PERM : Z := 4.
Definition TCPOPT_SACK_PERM_SZ : Z := 2.
Definition TCPOPT_TIMESTAMP : Z := 8.
Definition TCPOPT_TIMESTAMP_SZ : Z := 10.

(** [TCP_FLAG_ACK] in the byte order of [tcp_flag_word]. *)
Definition TCP_FLAG_ACK : Z := 0x1000.

(** ** Checksums *)

Definition fold_once (c : Z) : Z :=
  if negb (Z.shiftr c 16 =? 0) then Z.land c 0xffff + Z.shiftr c 16 else c.

(** Four unrolled steps. *)
Definition csum_fold (csum64 : Z) : Z :=
  u16 (Z.lnot (fold_once (fold_once (fold_once (fold_once csum64))))).

Definition csum_unfold (csum : Z) : Z := Z.land (Z.lnot csum) 0xffff.

(** [csum += ~(__be32)old; csum += new]. *)
Definition csum_replace (csum old new : Z) : Z :=
  u64 (u64 (csum + u32 (Z.lnot old)) + new).

Definition ipv4_set_ttl_csum (iph4 csum64 : Z) : P Z :=
  ttl <- ip4_ttl iph4 ;;
  let old_w := bpf_htons (Z.lor (u16 (Z.shiftl ttl 8)) XFW_L4_PROTO_TCP) in
  let new_w := bpf_htons (Z.lor (u16 (Z.shiftl XFW_DEFAULT_TTL 8)) XFW_L4_PROTO_TCP) in
  store 1 (iph4 + 8) XFW_DEFAULT_TTL ;;;
  ret (csum_replace csum64 old_w new_w).

Definition ipv4_set_tot_len_csum (iph4 len csum64 : Z) : P Z :=
  tot_len <- ip4_tot_len iph4 ;;
  store 2 (iph4 + 2) (bpf_htons len) ;;;
  ret (csum_replace csum64 tot_len (bpf_htons len)).

(** Fold to 32 bits twice, then to 16. *)
Definition csum_finish (csum : Z) : Z :=
  let csum := Z.land csum 0xffffffff + Z.shiftr csum 32 in
  let csum := Z.land csum 0xffffffff + Z.shiftr csum 32 in
  csum_fold (Z.land csum 0xffffffff).

Definition tcp_ipv4_csum_update (iph4 th csum : Z) : P unit :=
  saddr <- ip4_saddr iph4 ;;
  daddr <- ip4_daddr iph4 ;;
  doff <- th_doff th ;;
  let csum := u64 (csum + saddr) in
  let csum := u64 (csum + daddr) in
  let csum := u64 (csum + Z.shiftl (XFW_L4_PROTO_TCP + doff * 4) 8) in
  store 2 (th + 16) (csum_finish csum).

(** Add the four words of an IPv6 address. *)
Definition csum_add_in6 (csum : Z) (a : XfwIp) : Z :=
  u64 (u64 (u64 (u64 (csum + addr32_0 a) + addr32_1 a) + addr32_2 a) + addr32_3 a).

Definition tcp_ipv6_csum_update (iph6 th csum : Z) : P unit :=
  saddr <- ip6_saddr iph6 ;;
  daddr <- ip6_daddr iph6 ;;
  doff <- th_doff th ;;
  let csum := csum_add_in6 csum saddr in
  let csum := csum_add_in6 csum daddr in
  let csum := u64 (csum + bpf_htonl (doff * 4)) in
  let csum := u64 (csum + bpf_htonl XFW_L4_PROTO_TCP) in
  store 2 (th + 16) (csum_finish csum).

(** ** Timers *)

Definition tcp_get_tcp_syncookie_ts : P (option XfwTcpSynCookieTs) :=
  s <- get ;; ret (s_cookie_ts s).

Definition set_last_try (t : Z) : P unit :=
  modify (fun s => set_cookie_ts
    ((fun x => mkSynCookieTs t (last_gen_jiff x)) <$> s_cookie_ts s) s).
Definition set_last_gen (t : Z) : P unit :=
  modify (fun s => set_cookie_ts
    ((fun x => mkSynCookieTs (last_try_jiff x) t) <$> s_cookie_ts s) s).

Definition tcp_syncookies_flood_mode (c : XfwGlobalCtx) (ts : XfwTcpSynCookieTs) : P bool :=
  if u64 (ts_jiff c - last_gen_jiff ts)
       <=? sc_flood_timer_jiff (rc_syncookie (rules (cfg c)))
  then set_last_try (ts_jiff c) ;;; ret true
  else ret false.

Definition tcp_syncookies_passive_mode (c : XfwGlobalCtx) (ts : XfwTcpSynCookieTs) : P bool :=
  if sc_passive_timer_jiff (rc_syncookie (rules (cfg c)))
       <=? u64 (ts_jiff c - last_try_jiff ts)
  then set_last_try (ts_jiff c) ;;; ret true
  else ret false.

(** ** TCP options *)

Record XfwTCPOpts := mkTCPOpts { opt_ts : Z; opt_wscale : Z; opt_sack_perm : bool }.

Definition TCP_OPTS_MAX : Z := 40.
Definition TCP_OPTS_BUF_SZ : Z := 48.

Record XfwTCPOptCtx := mkOptCtx {
  oc_buf : list Z;
  oc_opts : XfwTCPOpts;
  oc_opt_len : Z;
  oc_off : Z;
  oc_err : Z
}.

Definition oc_stop (c : XfwTCPOptCtx) (err : Z) : Z * XfwTCPOptCtx :=
  (1, mkOptCtx (oc_buf c) (oc_opts c) (oc_opt_len c) (oc_off c) err).
Definition oc_next (c : XfwTCPOptCtx) (opts : XfwTCPOpts) (off : Z) : Z * XfwTCPOptCtx :=
  (0, mkOptCtx (oc_buf c) opts (oc_opt_len c) off (oc_err c)).

(** The [switch] on the kind of an option of [len] bytes that lies inside the
    options, and the step over it. *)
Definition tcp_opt_switch (c : XfwTCPOptCtx) (kind len : Z) : P (Z * XfwTCPOptCtx) :=
  let off := oc_off c in
  let opts := oc_opts c in
  let bad_opt := ret (oc_stop c (- EINVAL)) in
  if kind =? TCPOPT_WSCALE then
    if negb (len =? TCPOPT_WSCALE_SZ) then bad_opt else
    ws <- arr_get (oc_buf c) (off + 2) ;;
    let w := if ws <=? TCPOPT_WSCALE_MAX then ws else TCPOPT_WSCALE_MAX in
    ret (oc_next c (mkTCPOpts (opt_ts opts) w (opt_sack_perm opts)) (off + len))
  else if kind =? TCPOPT_SACK_PERM then
    if negb (len =? TCPOPT_SACK_PERM_SZ) then bad_opt else
    ret (oc_next c (mkTCPOpts (opt_ts opts) (opt_wscale opts) true) (off + len))
  else if kind =? TCPOPT_TIMESTAMP then
    if negb (len =? TCPOPT_TIMESTAMP_SZ) then bad_opt else
    if opt_ts opts =? 0 then
      b0 <- arr_get (oc_buf c) (off + 2) ;; b1 <- arr_get (oc_buf c) (off + 3) ;;
      b2 <- arr_get (oc_buf c) (off + 4) ;; b3 <- arr_get (oc_buf c) (off + 5) ;;
      ret (oc_next c (mkTCPOpts (le_combine [b0; b1; b2; b3]) (opt_wscale opts)
                        (opt_sack_perm opts)) (off + len))
    else ret (oc_next c opts (off + len))
  else ret (oc_next c opts (off + len)).

(** The callback of [bpf_loop]: 0 to go on, 1 to stop. *)
Definition tcp_parse_one_opt (c : XfwTCPOptCtx) : P (Z * XfwTCPOptCtx) :=
  let off := oc_off c in
  let opt_len := oc_opt_len c in
  let bad_opt := ret (oc_stop c (- EINVAL)) in
  if TCP_OPTS_BUF_SZ <? opt_len then bad_opt else
  if opt_len <=? off then ret (oc_stop c 0) else
  kind <- arr_get (oc_buf c) off ;;
  if kind =? TCPOPT_EOL then ret (oc_stop c 0) else
  if kind =? TCPOPT_NOP then ret (oc_next c (oc_opts c) (off + 1)) else
  if opt_len <? off + 2 then bad_opt else
  len <- arr_get (oc_buf c) (off + 1) ;;
  if (len <? 2) || (opt_len <? off + len) then bad_opt else
  tcp_opt_switch c kind len.

(** [bpf_loop(nr, cb, ctx, 0)]: calls until the callback returns 1 or [nr]
    calls were made; the number of calls. *)
Fixpoint bpf_loop {C} (n : nat) (cb : C -> P (Z * C)) (c : C) : P (Z * C) :=
  match n with
  | O => ret (0, c)
  | S n =>
      let* (r, c) := cb c in
      if r =? 1 then ret (1, c)
      else let* (k, c) := bpf_loop n cb c in ret (1 + k, c)
  end.

Section syncookies.
Context (E : Env).

Definition tcp_clock_ms : Z := u32 (e_ktime_ns E / (NSEC_PER_SEC / TCP_TS_HZ)).

(** The result code and the options found. *)
Definition tcp_parse_opts (th : Z) (opts : XfwTCPOpts) : P (Z * XfwTCPOpts) :=
  let o := th + SIZEOF_TCPHDR in
  doff <- th_doff th ;;
  let th_len := doff * 4 in
  VERIFY (SIZEOF_TCPHDR <=? th_len) (- EINVAL, opts) (
  let opt_len := th_len - SIZEOF_TCPHDR in
  VERIFY (opt_len <=? TCP_OPTS_MAX) (- E2BIG, opts) (
  if opt_len =? 0 then ret (0, opts) else
  s <- get ;;
  match k_xdp_load_bytes (e_kernel E) (s_pkt s) (o - DATA_BGN) opt_len with
  | None => ret (- EINVAL, opts)
  | Some b =>
      let buf := b ++ replicate (Z.to_nat TCP_OPTS_BUF_SZ - length b) 0 in
      let* (r, c) := bpf_loop (Z.to_nat (TCP_OPTS_MAX + 1)) tcp_parse_one_opt
                       (mkOptCtx buf opts opt_len 0 (- E2BIG)) in
      if r <? 0 then ret (r, oc_opts c) else ret (oc_err c, oc_opts c)
  end)).

(** The low bits of the timestamp carry the options:
    4 bits of window scale, SACK, ECN. *)
Definition cookie_bits (opts : XfwTCPOpts) (ece : bool) : Z :=
  let co := if negb (opt_wscale opts =? 0)
            then Z.land (opt_wscale opts) TCPOPT_WSCALE_MASK else TCPOPT_WSCALE_MASK in
  let co := Z.lor co (Z.shiftl (b2z (opt_sack_perm opts)) 4) in
  Z.lor co (Z.shiftl (b2z ece) 5).

(** The host-order timestamp. *)
Definition cookie_ts (ts_now co : Z) : Z :=
  let ts := Z.lor (Z.shiftl (Z.shiftr ts_now 6) 6) co in
  if ts_now <? ts then u32 (ts - Z.shiftl 1 6) else ts.

Definition tcp_syncookies_make_cookie_ts (th : Z) (opts : XfwTCPOpts) : P Z :=
  ece <- th_ece th ;;
  ret (bpf_htonl (cookie_ts tcp_clock_ms (cookie_bits opts ece))).

Definition OPTS_DWORD (a b c d : Z) : Z :=
  bpf_htonl (Z.lor (Z.lor (Z.lor (u32 (Z.shiftl a 24)) (Z.shiftl b 16)) (Z.shiftl c 8)) d).

(** The number of 32-bit words written behind the TCP header. *)
Definition tcp_syncookies_write_opts (th mss : Z) (opts : XfwTCPOpts) : P Z :=
  s <- get ;;
  let d_end := data_end s in
  let o := th + SIZEOF_TCPHDR in
  if d_end <? o + 4 then ret 0 else
  store 4 o (bpf_htonl (Z.lor (Z.lor (u32 (Z.shiftl TCPOPT_MSS 24))
                                (Z.shiftl TCPOPT_MSS_SZ 16)) mss)) ;;;
  let o := o + 4 in
  if d_end <? o + 4 then ret 1 else
  store 4 o (OPTS_DWORD TCPOPT_NOP TCPOPT_WSCALE TCPOPT_WSCALE_SZ XFW_DEFAULT_WSCALE) ;;;
  let o := o + 4 in
  if d_end <? o + 4 then ret 2 else
  if (opt_ts opts =? 0) || (d_end <? o + 12) then
    if opt_sack_perm opts then
      store 4 o (OPTS_DWORD TCPOPT_SACK_PERM TCPOPT_SACK_PERM_SZ TCPOPT_NOP TCPOPT_EOL) ;;;
      ret 3
    else ret 2
  else
  (if opt_sack_perm opts
   then store 4 o (OPTS_DWORD TCPOPT_SACK_PERM TCPOPT_SACK_PERM_SZ
                     TCPOPT_TIMESTAMP TCPOPT_TIMESTAMP_SZ)
   else store 4 o (OPTS_DWORD TCPOPT_NOP TCPOPT_NOP
                     TCPOPT_TIMESTAMP TCPOPT_TIMESTAMP_SZ)) ;;;
  let o := o + 4 in
  cookie <- tcp_syncookies_make_cookie_ts th opts ;;
  store 4 o cookie ;;;
  store 4 (o + 4) (opt_ts opts) ;;;
  ret 5.

(** A write to the 4-bit field [doff]. *)
Definition set_doff (th doff : Z) : P unit :=
  b <- ld8 (th + 12) ;;
  store 1 (th + 12) (Z.lor (Z.land b 0x0f) (Z.shiftl (Z.land doff 0xf) 4)).

(** [SWAP] of two fields of [n] bytes. *)
Definition swap_fields (n : Z) (a b : Z) : P unit :=
  x <- ld_bytes n a ;; y <- ld_bytes n b ;;
  store_bytes a y ;;; store_bytes b x.

Definition tcp_syncookies_make_synack (th cookie mss : Z) (opts : XfwTCPOpts) : P Z :=
  c <- get_ctx ;;
  n <- tcp_syncookies_write_opts th mss opts ;;
  let new_doff := u8 (5 + n) in
  old_doff <- th_doff th ;;
  let d_len := (new_doff - old_doff) * 4 in
  let tcplen := new_doff * 4 in
  let d_end := cend (hdr_cur c) in
  VERIFY (th + tcplen <=? d_end) (- EFBIG) (
  set_doff th new_doff ;;;
  store 2 (th + 14) XFW_DEFAULT_WINDOW ;;;
  store 2 (th + 16) 0 ;;;
  w <- tcp_flag_word th ;;
  store 4 (th + 12) (Z.lor w TCP_FLAG_ACK) ;;;
  seq <- th_seq th ;;
  store 4 (th + 8) (bpf_htonl (u32 (bpf_ntohl seq + 1))) ;;;
  store 4 (th + 4) (bpf_htonl cookie) ;;;
  hdr <- ld_bytes tcplen th ;;
  let csum := k_csum_diff (e_kernel E) hdr in
  VERIFY (0 <=? csum) csum (
  swap_fields 2 th (th + 2) ;;;
  VERIFY (DATA_BGN + SIZEOF_ETHHDR <=? d_end) (- EFBIG) (
  swap_fields 6 DATA_BGN (DATA_BGN + 6) ;;;
  if ipver c =? bpf_ntohs ETH_P_IP then
    let iph4 := DATA_BGN + ip_off c in
    VERIFY (iph4 + SIZEOF_IPHDR <=? cend (hdr_cur c)) (- EINVAL) (
    check <- ip4_check iph4 ;;
    tot_len <- ip4_tot_len iph4 ;;
    let ip_len := u16 (bpf_ntohs tot_len + d_len) in
    ip_csum <- ipv4_set_ttl_csum iph4 (csum_unfold check) ;;
    ip_csum <- ipv4_set_tot_len_csum iph4 ip_len ip_csum ;;
    store 2 (iph4 + 10) (csum_fold ip_csum) ;;;
    swap_fields 4 (iph4 + 12) (iph4 + 16) ;;;
    tcp_ipv4_csum_update iph4 th csum ;;;
    ret 0)
  else if ipver c =? bpf_ntohs ETH_P_IPV6 then
    let iph6 := DATA_BGN + ip_off c in
    VERIFY (iph6 + SIZEOF_IPV6HDR <=? cend (hdr_cur c)) (- EINVAL) (
    store 1 (iph6 + 7) XFW_DEFAULT_TTL ;;;
    payload_len <- ip6_payload_len iph6 ;;
    store 2 (iph6 + 4) (bpf_htons (u16 (bpf_ntohs payload_len + d_len))) ;;;
    swap_fields 16 (iph6 + 8) (iph6 + 24) ;;;
    tcp_ipv6_csum_update iph6 th csum ;;;
    ret 0)
  else ret 0))).

Definition tcp_sk_listen_lookup (c : XfwGlobalCtx) (th : Z) : P (option Z) :=
  if ipver c =? bpf_ntohs ETH_P_IP then
    let iph4 := DATA_BGN + ip_off c in
    VERIFY (iph4 + SIZEOF_IPHDR <=? cend (hdr_cur c)) None (
    sport <- th_source th ;; dport <- th_dest th ;;
    saddr <- ip4_saddr iph4 ;; daddr <- ip4_daddr iph4 ;;
    ret (k_sk_lookup_tcp (e_kernel E) (tuple_ipv4 saddr daddr sport dport)))
  else if ipver c =? bpf_ntohs ETH_P_IPV6 then
    let iph6 := DATA_BGN + ip_off c in
    VERIFY (iph6 + SIZEOF_IPV6HDR <=? cend (hdr_cur c)) None (
    sport <- th_source th ;; dport <- th_dest th ;;
    saddr <- ip6_saddr iph6 ;; daddr <- ip6_daddr iph6 ;;
    ret (k_sk_lookup_tcp (e_kernel E) (tuple_ipv6 saddr daddr sport dport)))
  else ret None.

(** A failed cookie: count and drop. *)
Definition syncookie_drop : P Z :=
  count_traffic_stat XFW_SYNCOOKIE_FAILED ;;;
  XFW_MAKE_CTX_DROP E XFW_DROP_SYNCOOKIE_FAILED.

Definition tcp_syncookies_syn_filter (th : Z) : P Z :=
  c <- get_ctx ;;
  ots <- tcp_get_tcp_syncookie_ts ;;
  match ots with
  | None => XFW_ASSERT E false (ret XFW_CTX_CONTINUE)
  | Some ts =>
      flood <- tcp_syncookies_flood_mode c ts ;;
      try <- (if flood then ret true else tcp_syncookies_passive_mode c ts) ;;
      if negb try then ret XFW_CTX_CONTINUE else
      let is_ip4 := ipver c =? bpf_htons ETH_P_IP in
      let iph := DATA_BGN + ip_off c in
      let iph_len := if is_ip4 then SIZEOF_IPHDR else SIZEOF_IPV6HDR in
      XFW_ASSERT E (iph + iph_len <=? cend (hdr_cur c)) (
      old_doff <- th_doff th ;;
      set_doff th (Z.land (SIZEOF_TCPHDR / 4) 0xf) ;;;
      sk <- tcp_sk_listen_lookup c th ;;
      match sk with
      | None => set_last_gen (ts_jiff c) ;;; syncookie_drop
      | Some _ =>
          iph_b <- ld_bytes iph_len iph ;;
          th_b <- ld_bytes SIZEOF_TCPHDR th ;;
          let seq_mss := k_tcp_gen_syncookie (e_kernel E) iph_b th_b in
          set_doff th (Z.land old_doff 0xf) ;;;
          if seq_mss =? - ENOENT then ret XFW_CTX_CONTINUE else
          set_last_gen (ts_jiff c) ;;;
          if seq_mss <? 0 then syncookie_drop else
          let* (r, opts) := tcp_parse_opts th (mkTCPOpts 0 0 false) in
          if negb (r =? 0) then syncookie_drop else
          r <- tcp_syncookies_make_synack th (u32 seq_mss)
                 (u16 (Z.shiftr seq_mss 32)) opts ;;
          if negb (r =? 0) then syncookie_drop else
          MAKE_XDP_TX XFW_SYNCOOKIE_GENERATED
      end)
  end.

Definition tcp_syncookies_ack_filter (th : Z) : P Z :=
  c <- get_ctx ;;
  sk <- tcp_sk_listen_lookup c th ;;
  match sk with
  | None => syncookie_drop
  | Some state =>
      if negb (state =? BPF_TCP_LISTEN) then ret XFW_CTX_CONTINUE else
      if ipver c =? bpf_ntohs ETH_P_IP then
        let iph4 := DATA_BGN + ip_off c in
        XFW_ASSERT E (iph4 + SIZEOF_IPHDR <=? cend (hdr_cur c)) (
        iph_b <- ld_bytes SIZEOF_IPHDR iph4 ;; th_b <- ld_bytes SIZEOF_TCPHDR th ;;
        if k_raw_check_syncookie_ipv4 (e_kernel E) iph_b th_b <? 0 then syncookie_drop
        else count_traffic_stat XFW_SYNCOOKIE_RECEIVED ;;; ret XFW_CTX_CONTINUE)
      else if ipver c =? bpf_ntohs ETH_P_IPV6 then
        let iph6 := DATA_BGN + ip_off c in
        XFW_ASSERT E (iph6 + SIZEOF_IPV6HDR <=? cend (hdr_cur c)) (
        iph_b <- ld_bytes SIZEOF_IPV6HDR iph6 ;; th_b <- ld_bytes SIZEOF_TCPHDR th ;;
        if k_raw_check_syncookie_ipv6 (e_kernel E) iph_b th_b <? 0 then syncookie_drop
        else count_traffic_stat XFW_SYNCOOKIE_RECEIVED ;;; ret XFW_CTX_CONTINUE)
      else count_traffic_stat XFW_SYNCOOKIE_RECEIVED ;;; ret XFW_CTX_CONTINUE
  end.
End syncookies.
