(* ===== verification/TcpOptions.v ===== *)
(** * TcpOptions: the option parser of the SYN-cookie filter

    [tcp_parse_one_opt] and its [bpf_loop] stay inside the 48-byte buffer, stop
    within the 41 iterations the code allows, and read back every well-formed
    sequence of options. *)

From S2P Require Import Prelude.
From S2P Require Import Enums.
From S2P Require Import Uapi.
From S2P Require Import Kernel.
From S2P Require Import Ctx.
From S2P Require Import Filter.
From S2P Require Import Verdict.
From S2P Require Import Parsing.
From S2P Require Import Syncookies.

(** ** Bounds *)

Definition oc_ok (c : XfwTCPOptCtx) : Prop :=
  Z.of_nat (length (oc_buf c)) = TCP_OPTS_BUF_SZ /\ Forall is_byte (oc_buf c)
  /\ 0 <= oc_opt_len c <= TCP_OPTS_MAX /\ 0 <= oc_off c.

(** An access to the buffer at the head of the program. *)
Ltac wp_buf :=
  let x := fresh "x" in let Hx := fresh "Hx" in
  apply wp_bind, wp_arr_get;
    [unfold TCP_OPTS_BUF_SZ, TCP_OPTS_MAX in *; lia|intros x Hx; cbv beta].

(** One step: it stops with a result, or moves forward inside the options. *)
Lemma tcp_parse_one_opt_spec c s : oc_ok c ->
  wp (tcp_parse_one_opt c) (fun r s' =>
    s' = s /\ oc_buf r.2 = oc_buf c /\ oc_opt_len r.2 = oc_opt_len c
    /\ (r.1 = 1 /\ (oc_err r.2 = 0 \/ oc_err r.2 = - EINVAL)
        \/ r.1 = 0 /\ oc_err r.2 = oc_err c
           /\ oc_off c < oc_off r.2 <= oc_opt_len c)) s.
Proof.
  intros (Hl & Hb & Ho & H0). unfold tcp_parse_one_opt.
  wp_step; [apply wp_ret; simpl; auto 12|]. wp_step; [apply wp_ret; simpl; auto 12|].
  wp_buf. wp_step; [apply wp_ret; simpl; auto 12|].
  wp_step; [apply wp_ret; simpl; repeat split; auto; right; repeat split; lia|].
  wp_step; [apply wp_ret; simpl; auto 12|]. wp_buf.
  wp_step; [apply wp_ret; simpl; auto 12|].
  assert (2 <= x0 /\ oc_off c + x0 <= oc_opt_len c) by lia. unfold tcp_opt_switch.
  wp_step; [|wp_step; [|wp_step]].
  - wp_step; [apply wp_ret; simpl; auto 12|]. wp_buf. apply wp_ret. simpl.
    repeat split; auto. right. repeat split; lia.
  - wp_step; [apply wp_ret; simpl; auto 12|]. apply wp_ret. simpl.
    repeat split; auto. right. repeat split; lia.
  - wp_step; [apply wp_ret; simpl; auto 12|].
    wp_step; [do 4 wp_buf|]; apply wp_ret; simpl; repeat split; auto; right;
      repeat split; lia.
  - apply wp_ret. simpl. repeat split; auto. right. repeat split; lia.
Qed.

(** The loop reaches a result whenever it may run once more than there are
    bytes left. *)
Lemma tcp_opts_loop_spec n : forall c s, oc_ok c ->
  oc_opt_len c - oc_off c < Z.of_nat n -> (oc_off c <= oc_opt_len c) ->
  wp (bpf_loop n tcp_parse_one_opt c) (fun r s' =>
    s' = s /\ 0 <= r.1 <= Z.of_nat n /\ (oc_err r.2 = 0 \/ oc_err r.2 = - EINVAL)) s.
Proof.
  induction n as [|n IH]; intros c s Hc Hn Hle; simpl bpf_loop; [lia|].
  apply wp_bind. eapply wp_mono; [by apply tcp_parse_one_opt_spec|].
  intros [r c'] s' (-> & Hb & Hol & [(Hr & He)|(Hr & He & Ho)]);
    simpl in *; subst r; simpl.
  - apply wp_ret. simpl. split; [done|]. split; [lia|done].
  - destruct Hc as (H1 & H2 & H3 & H4). apply wp_bind. eapply wp_mono.
    { apply IH; [|lia..]. unfold oc_ok. rewrite Hb, Hol. split; [done|].
      split; [done|]. lia. }
    intros [k c''] s' (-> & Hk & He'). apply wp_ret. simpl in *.
    split; [done|]. split; [lia|done].
Qed.

(** ** Round trip

    Options as a sender writes them, and what the parser is expected to keep of
    them: the last window scale (at most 14), whether SACK is permitted, the
    first non-zero timestamp. *)
Inductive TcpOpt :=
  | O_NOP
  | O_WSCALE (w : Z)
  | O_SACK_PERM
  | O_TIMESTAMP (v0 v1 v2 v3 : Z) (echo : list Z)
  | O_OTHER (kind : Z) (data : list Z).

Definition opt_wf (o : TcpOpt) : Prop :=
  match o with
  | O_NOP | O_SACK_PERM => True
  | O_WSCALE w => is_byte w
  | O_TIMESTAMP v0 v1 v2 v3 echo =>
      Forall is_byte [v0; v1; v2; v3] /\ Forall is_byte echo /\ length echo = 4%nat
  | O_OTHER kind data =>
      is_byte kind /\ Forall is_byte data /\ Z.of_nat (length data) <= 253
      /\ kind <> TCPOPT_EOL /\ kind <> TCPOPT_NOP /\ kind <> TCPOPT_WSCALE
      /\ kind <> TCPOPT_SACK_PERM /\ kind <> TCPOPT_TIMESTAMP
  end.

Definition encode_opt (o : TcpOpt) : list Z :=
  match o with
  | O_NOP => [TCPOPT_NOP]
  | O_WSCALE w => [TCPOPT_WSCALE; TCPOPT_WSCALE_SZ; w]
  | O_SACK_PERM => [TCPOPT_SACK_PERM; TCPOPT_SACK_PERM_SZ]
  | O_TIMESTAMP v0 v1 v2 v3 echo =>
      [TCPOPT_TIMESTAMP; TCPOPT_TIMESTAMP_SZ; v0; v1; v2; v3] ++ echo
  | O_OTHER kind data => kind :: Z.of_nat (length data) + 2 :: data
  end.

Definition apply_opt (opts : XfwTCPOpts) (o : TcpOpt) : XfwTCPOpts :=
  match o with
  | O_WSCALE w => mkTCPOpts (opt_ts opts) (Z.min w TCPOPT_WSCALE_MAX) (opt_sack_perm opts)
  | O_SACK_PERM => mkTCPOpts (opt_ts opts) (opt_wscale opts) true
  | O_TIMESTAMP v0 v1 v2 v3 _ =>
      if opt_ts opts =? 0
      then mkTCPOpts (le_combine [v0; v1; v2; v3]) (opt_wscale opts) (opt_sack_perm opts)
      else opts
  | O_NOP | O_OTHER _ _ => opts
  end.

Lemma buf_at {A} (pre e rest : list A) i x :
  e !! i = Some x -> (pre ++ e ++ rest) !! Z.to_nat (Z.of_nat (length pre) + Z.of_nat i) = Some x.
Proof.
  intros Hi. rewrite lookup_app_r by lia.
  rewrite lookup_app_l; [|apply lookup_lt_Some in Hi; lia].
  rewrite <- Hi. f_equal. lia.
Qed.

Section encoded.
Context (pre rest : list Z) (opts : XfwTCPOpts) (n err : Z) (s : St).
Context (Hb : n <= TCP_OPTS_BUF_SZ).

(** The parser in front of the encoding of [o]. *)
Definition in_front_of (o : TcpOpt) : XfwTCPOptCtx :=
  mkOptCtx (pre ++ encode_opt o ++ rest) opts n (Z.of_nat (length pre)) err.

Definition fits (o : TcpOpt) : Prop :=
  Z.of_nat (length pre + length (encode_opt o)) <= n.

Definition parsed_opt (o : TcpOpt) (r : Z * XfwTCPOptCtx) (s' : St) : Prop :=
  s' = s /\ r = oc_next (in_front_of o) (apply_opt opts o)
                 (Z.of_nat (length (pre ++ encode_opt o))).

Lemma wp_byte o i x (k : Z -> P (Z * XfwTCPOptCtx)) Q :
  encode_opt o !! i = Some x -> wp (k x) Q s ->
  wp (bind (arr_get (oc_buf (in_front_of o))
        (oc_off (in_front_of o) + Z.of_nat i)) k) Q s.
Proof.
  intros Hi HQ. apply wp_bind. unfold arr_get. eapply wp_get_opt; [|done].
  simpl. by apply buf_at.
Qed.

Lemma wp_head o x (k : Z -> P (Z * XfwTCPOptCtx)) Q :
  encode_opt o !! 0%nat = Some x -> wp (k x) Q s ->
  wp (bind (arr_get (oc_buf (in_front_of o)) (oc_off (in_front_of o))) k) Q s.
Proof.
  intros Hi HQ. pose proof (wp_byte o 0 x k Q Hi HQ) as H.
  by rewrite Z.add_0_r in H.
Qed.

(** An option with a length byte reaches the [switch]. *)
Lemma parse_tlv o kind len Q :
  fits o -> encode_opt o !! 0%nat = Some kind -> encode_opt o !! 1%nat = Some len ->
  kind <> TCPOPT_EOL -> kind <> TCPOPT_NOP ->
  Z.of_nat (length (encode_opt o)) = len ->
  wp (tcp_opt_switch (in_front_of o) kind len) Q s ->
  wp (tcp_parse_one_opt (in_front_of o)) Q s.
Proof.
  intros Hn H0 H1 Hk1 Hk2 Hlen HQ. pose proof (lookup_lt_Some _ _ _ H1).
  unfold fits in Hn. unfold tcp_parse_one_opt. change (oc_opt_len _) with n.
  rewrite (proj2 (Z.ltb_ge TCP_OPTS_BUF_SZ n)) by done.
  rewrite (proj2 (Z.leb_gt n _)) by (simpl; lia). apply (wp_head o kind); [done|].
  rewrite (proj2 (Z.eqb_neq _ _) Hk1), (proj2 (Z.eqb_neq _ _) Hk2).
  rewrite (proj2 (Z.ltb_ge n _)) by (simpl; lia). apply (wp_byte o 1 len); [done|].
  rewrite (proj2 (Z.ltb_ge len 2)), (proj2 (Z.ltb_ge n _)) by (simpl; lia). done.
Qed.

Lemma next_off o len : Z.of_nat (length (encode_opt o)) = len ->
  Z.of_nat (length (pre ++ encode_opt o)) = oc_off (in_front_of o) + len.
Proof. intros. rewrite length_app. simpl. lia. Qed.

Lemma parse_one_encoded o :
  fits o -> opt_wf o -> wp (tcp_parse_one_opt (in_front_of o)) (parsed_opt o) s.
Proof.
  intros Hn Hwf. pose proof (next_off o) as Ho. unfold parsed_opt.
  destruct o as [|w| |v0 v1 v2 v3 echo|kind data].
  - unfold tcp_parse_one_opt, fits in *. change (oc_opt_len _) with n.
    simpl in Hn. rewrite (proj2 (Z.ltb_ge TCP_OPTS_BUF_SZ n)) by done.
    rewrite (proj2 (Z.leb_gt n _)) by (simpl; lia). apply (wp_head O_NOP 1); [done|].
    simpl (_ =? _). cbv iota. apply wp_ret. split; [done|]. by rewrite (Ho 1).
  - eapply parse_tlv; try done. unfold tcp_opt_switch.
    apply (wp_byte (O_WSCALE w) 2 w); [done|]. apply wp_ret. split; [done|].
    rewrite (Ho 3) by done. unfold apply_opt, TCPOPT_WSCALE_MAX.
    do 2 f_equal. destruct (Z.leb_spec w 14); lia.
  - eapply parse_tlv; try done. apply wp_ret. split; [done|]. by rewrite (Ho 2).
  - destruct Hwf as (_ & _ & Hl). set (o := O_TIMESTAMP v0 v1 v2 v3 echo) in *.
    assert (Z.of_nat (length (encode_opt o)) = 10) as Hlen by (simpl; lia).
    eapply parse_tlv; try done. rewrite (Ho 10 Hlen). unfold tcp_opt_switch.
    do 5 (wp_step; try done); unfold apply_opt, o; simpl in Hb4; rewrite Hb4; fold o.
    + apply (wp_byte o 2 v0); [done|]. apply (wp_byte o 3 v1); [done|].
      apply (wp_byte o 4 v2); [done|]. apply (wp_byte o 5 v3); [done|].
      by apply wp_ret.
    + by apply wp_ret.
  - destruct Hwf as (_ & _ & Hl & H0 & H1 & H2 & H3 & H4).
    set (o := O_OTHER kind data) in *.
    assert (Z.of_nat (length (encode_opt o)) = Z.of_nat (length data) + 2)
      as Hlen by (simpl; lia).
    eapply parse_tlv; try done. unfold tcp_opt_switch.
    rewrite !(proj2 (Z.eqb_neq _ _)) by done. apply wp_ret. split; [done|].
    by rewrite (Ho _ Hlen).
Qed.
End encoded.

Definition encode_opts (os : list TcpOpt) : list Z := concat (encode_opt <$> os).

(** Where the options end: at the end of the area or at an EOL. *)
Definition opts_tail (tail : list Z) : Prop := tail = [] \/ exists t, tail = TCPOPT_EOL :: t.

Lemma parse_tail c s : oc_ok c ->
  oc_off c = oc_opt_len c \/ oc_buf c !! Z.to_nat (oc_off c) = Some TCPOPT_EOL ->
  oc_off c <= oc_opt_len c ->
  wp (tcp_parse_one_opt c) (fun r s' => s' = s /\ r = oc_stop c 0) s.
Proof.
  intros (Hl & _ & Ho & H0) Hend Hle. unfold tcp_parse_one_opt, TCP_OPTS_MAX in *.
  rewrite (proj2 (Z.ltb_ge TCP_OPTS_BUF_SZ _)) by (unfold TCP_OPTS_BUF_SZ; lia).
  wp_step; [by apply wp_ret|]. destruct Hend as [|Hend]; [lia|].
  apply wp_bind. unfold arr_get. eapply wp_get_opt; [exact Hend|]. by apply wp_ret.
Qed.

Lemma encode_opts_cons o os : encode_opts (o :: os) = encode_opt o ++ encode_opts os.
Proof. done. Qed.

Lemma parse_encoded os : forall k pre tail pad opts n err s,
  Forall opt_wf os -> opts_tail tail ->
  Forall is_byte (pre ++ encode_opts os ++ tail ++ pad) ->
  n = Z.of_nat (length (pre ++ encode_opts os ++ tail)) -> n <= TCP_OPTS_MAX ->
  Z.of_nat (length (pre ++ encode_opts os ++ tail ++ pad)) = TCP_OPTS_BUF_SZ ->
  (length os < k)%nat ->
  wp (bpf_loop k tcp_parse_one_opt
        (mkOptCtx (pre ++ encode_opts os ++ tail ++ pad) opts n (Z.of_nat (length pre)) err))
     (fun r s' => s' = s /\ 0 <= r.1 /\ oc_err r.2 = 0
        /\ oc_opts r.2 = foldl apply_opt opts os) s.
Proof.
  induction os as [|o os IH]; intros [|k] pre tail pad opts n err s Hos Ht Hbytes Hn Hmax
    Hbuf Hk; try (simpl in Hk; lia); simpl bpf_loop; apply wp_bind.
  - change (encode_opts []) with (@nil Z) in *. rewrite !app_nil_l in *.
    rewrite length_app in Hn. eapply wp_mono; [apply parse_tail|].
    + split; [done|]. split; [done|]. simpl. lia.
    + destruct Ht as [->|[t ->]]; simpl; [left; simpl in Hn; lia|right].
      rewrite Nat2Z.id, lookup_app_r by lia. by rewrite Nat.sub_diag.
    + simpl. lia.
    + intros [r c] s' (-> & [= -> ->]). apply wp_ret. simpl.
      split; [done|]. split; [lia|done].
  - inversion_clear Hos as [|? ? Ho Hos']. rewrite encode_opts_cons in *.
    rewrite <- !app_assoc in *. eapply wp_mono.
    { apply (parse_one_encoded pre); [unfold TCP_OPTS_MAX, TCP_OPTS_BUF_SZ in *; lia| |done].
      unfold fits. rewrite !length_app in Hn. lia. }
    intros [r c] s' (-> & [= -> ->]). apply wp_bind. rewrite (app_assoc pre) in *.
    eapply wp_mono; [apply IH; try done; simpl in Hk; lia|].
    intros [j c] s' (-> & ? & ? & ?). apply wp_ret. simpl in *. split; [done|].
    split; [lia|done].
Qed.

(** ** tcp_parse_opts *)

Section parse_opts.
Context (E : Env) `{!KernelSpec (e_kernel E)}.

Lemma option_buffer b : Forall is_byte b -> Z.of_nat (length b) <= TCP_OPTS_MAX ->
  let buf := b ++ replicate (Z.to_nat TCP_OPTS_BUF_SZ - length b) 0 in
  Z.of_nat (length buf) = TCP_OPTS_BUF_SZ /\ Forall is_byte buf.
Proof.
  intros Hb Hl. unfold TCP_OPTS_MAX, TCP_OPTS_BUF_SZ in *. split.
  - rewrite length_app, length_replicate. lia.
  - apply Forall_app. split; [done|]. apply Forall_replicate. unfold is_byte. lia.
Qed.

(** Any options: the result is 0 or [-EINVAL], and nothing else changes. *)
Lemma tcp_parse_opts_spec th opts s :
  Forall is_byte (s_pkt s) -> 0 <= th -> th + SIZEOF_TCPHDR <= data_end s ->
  wp (tcp_parse_opts E th opts) (fun r s' =>
    s' = s /\ (r.1 = 0 \/ r.1 = - EINVAL)) s.
Proof.
  intros Hby Ht He. unfold tcp_parse_opts. wp_load.
  pose proof (loaded_range _ _ 1 _ Hby ltac:(lia) Hload) as Hr. simpl in Hr.
  apply wp_verify; intros H1; [auto|]. apply wp_verify; intros H2.
  { unfold TCP_OPTS_MAX in H2. unfold_sizes. dlia. }
  wp_step; [apply wp_ret; by auto|]. apply wp_bind, wp_get. unfold DATA_BGN. unfold_sizes.
  rewrite load_bytes_ok by lia. destruct (slice _ (th + 20 - 0) _) as [bs|] eqn:Hs;
    [|apply wp_ret; by auto].
  pose proof (slice_length _ _ _ _ Hs) as Hlen.
  destruct (option_buffer bs) as [Hbl Hbb]; [by eapply slice_Forall|lia|].
  apply wp_bind. eapply wp_mono.
  { apply tcp_opts_loop_spec; [|simpl; unfold TCP_OPTS_MAX in *; lia..].
    split; [done|]. split; [done|]. simpl. lia. }
  intros [r c] s' (-> & Hr0 & Herr). simpl in *. rewrite (proj2 (Z.ltb_ge r 0)) by lia.
  apply wp_ret. auto.
Qed.
End parse_opts.

(** ** Properties *)

(** Whatever bytes a TCP segment carries as options, the option parser
    reaches a verdict (0 or [-EINVAL]) within its bounded loop, without reading
    outside its stack buffer or the packet and without changing anything. *)
Lemma tcp_opts_total E th opts s :
  KernelSpec (e_kernel E) ->
  Forall is_byte (s_pkt s) -> 0 <= th -> th + SIZEOF_TCPHDR <= data_end s ->
  exists r opts', tcp_parse_opts E th opts s = Some ((r, opts'), s)
    /\ (r = 0 \/ r = - EINVAL).
Proof.
  intros HK Hb H1 H2.
  destruct (wp_run _ _ _ (tcp_parse_opts_spec E th opts s Hb H1 H2))
    as ([r o] & s' & Hrun & -> & Hr). eauto.
Qed.

(** C36: the option parser reads back what a sender wrote: for every sequence
    of well-formed options, alone or closed by an EOL and padding, it reports
    success, the last window scale capped at 14, whether SACK is permitted and
    the first non-zero timestamp. *)
Theorem tcp_opts_roundtrip E th os tail opts s hdr :
  KernelSpec (e_kernel E) ->
  Forall is_byte (s_pkt s) -> 0 <= th ->
  Forall opt_wf os -> opts_tail tail ->
  let area := encode_opts os ++ tail in
  slice (s_pkt s) (th + 12) 1 = Some [hdr] ->
  hdr / 16 * 4 = SIZEOF_TCPHDR + Z.of_nat (length area) ->
  slice (s_pkt s) (th + SIZEOF_TCPHDR) (Z.of_nat (length area)) = Some area ->
  tcp_parse_opts E th opts s = Some ((0, foldl apply_opt opts os), s).
Proof.
  intros HK Hby Ht Hos Htail area Hh Hd Ha.
  pose proof (slice_Forall _ _ _ _ _ Hby Hh) as Hhb. inversion_clear Hhb as [|? ? Hb0 _].
  pose proof (slice_Forall _ _ _ _ _ Hby Ha) as Hab. unfold is_byte in Hb0.
  assert (Z.of_nat (length area) <= TCP_OPTS_MAX) as Hmax.
  { unfold TCP_OPTS_MAX. unfold_sizes. dlia. }
  assert (wp (tcp_parse_opts E th opts) (fun r s' =>
    s' = s /\ r = (0, foldl apply_opt opts os)) s) as Hwp.
  2: { destruct (wp_run _ _ _ Hwp) as (r & s' & -> & -> & ->). done. }
  unfold tcp_parse_opts. apply wp_bind.
  eapply (wp_known _ _ _ (hdr / 16) s).
  { unfold th_doff, ld8, ld, bind, get. rewrite Hh. simpl. unfold ret.
    do 3 f_equal. lia. }
  rewrite Hd. apply wp_verify; intros H1; [lia|]. rewrite Z.add_simpl_l.
  apply wp_verify; intros H2; [lia|].
  wp_step.
  { assert (length area = 0%nat) as Hz%nil_length_inv by lia.
    apply wp_ret. split; [done|]. destruct os as [|o os]; [done|].
    exfalso. unfold area in Hz. rewrite encode_opts_cons in Hz. by destruct o. }
  apply wp_bind, wp_get. unfold DATA_BGN. rewrite Z.sub_0_r.
  rewrite load_bytes_ok by (unfold_sizes; lia). rewrite Ha.
  destruct (option_buffer area Hab Hmax) as [Hbl Hbb]. unfold area in *.
  rewrite <- !app_assoc in Hbl, Hbb |- *. apply wp_bind. eapply wp_mono.
  { apply (parse_encoded os _ [] tail); try done.
    assert (length os <= length (encode_opts os))%nat.
    { clear. induction os as [|o os IH]; [done|]. rewrite encode_opts_cons, length_app.
      simpl. enough (1 <= length (encode_opt o))%nat by lia. destruct o; simpl; lia. }
    rewrite length_app in Hmax. unfold TCP_OPTS_MAX in *. lia. }
  intros [r c] s' (-> & Hr & He & Hopts). simpl in *.
  rewrite (proj2 (Z.ltb_ge r 0)) by lia. apply wp_ret. by rewrite He, Hopts.
Qed.

Definition sample_opts : list TcpOpt := [O_NOP; O_WSCALE 20; O_SACK_PERM; O_NOP].
Definition syn_with_opts : list Z :=
  eth_ipv4 ++ ipv4_hdr 6
  ++ [0x12;0x34; 0;80; 0;0;0;1; 0;0;0;0; 0x70;2; 0xff;0xff; 0;0;0;0]
  ++ encode_opts sample_opts ++ [TCPOPT_EOL].

Lemma tcp_opts_roundtrip_witness :
  tcp_parse_opts (sample_env HOOK_XDP sample_cfg) 34 (mkTCPOpts 0 0 false)
    (sample_state sample_cfg syn_with_opts)
  = Some ((0, mkTCPOpts 0 14 true), sample_state sample_cfg syn_with_opts).
Proof.
  apply (tcp_opts_roundtrip (sample_env HOOK_XDP sample_cfg) 34 sample_opts [TCPOPT_EOL]
           (mkTCPOpts 0 0 false) (sample_state sample_cfg syn_with_opts) 0x70).
  - apply _.
  - repeat constructor; vm_compute; congruence.
  - lia.
  - repeat constructor; vm_compute; congruence.
  - right. by exists [].
  - reflexivity.
  - reflexivity.
  - reflexivity.
Defined.
