(* ===== verification/SyncookiesSpec.v ===== *)
(** * SyncookiesSpec: the SYN-cookie filters satisfy the filter contract

    The filters of [Syncookies] never leave the packet, keep its length, restore
    the TCP header when they let the packet go on, and transmit only in host
    mode with SYN cookies on. *)

From S2P Require Import Prelude.
From S2P Require Import Enums.
From S2P Require Import Uapi.
From S2P Require Import Kernel.
From S2P Require Import Ctx.
From S2P Require Import IncidentLog.
From S2P Require Import Filter.
From S2P Require Import Verdict.
From S2P Require Import Parsing.
From S2P Require Import Syncookies.
From S2P Require Import TcpOptions.

(** ** Programs that only write packet bytes *)

Record pkt_only (s s' : St) : Prop := mkPktOnly {
  po_eq : s' = set_pkt (s_pkt s') s;
  po_len : length (s_pkt s') = length (s_pkt s);
  po_bytes : Forall is_byte (s_pkt s) -> Forall is_byte (s_pkt s')
}.

#[export] Instance pkt_only_preorder : PreOrder pkt_only.
Proof.
  split.
  - intros []. by split.
  - intros s1 s2 s3 [E1 L1 B1] [E2 L2 B2]. split; [|congruence|auto].
    by rewrite E2, E1.
Qed.

Lemma pkt_only_ctx s s' : pkt_only s s' -> s_ctx s' = s_ctx s.
Proof. by intros [-> _ _]. Qed.

Lemma pkt_only_end s s' : pkt_only s s' -> data_end s' = data_end s.
Proof. intros []. unfold data_end. congruence. Qed.

Lemma pkt_only_frame s s' : pkt_only s s' -> frame s s'.
Proof.
  intros [E L B]. split; try (rewrite E; done); try done.
  intros []. split; try (rewrite E; done); [auto|].
  rewrite E. unfold data_end in *. simpl. congruence.
Qed.

Lemma pkt_only_ilog s s' : pkt_only s s' ->
  s_ilog s' = s_ilog s /\ s_stats s' = s_stats s.
Proof. by intros [-> _ _]. Qed.

Section steps.
Context (s : St) (Hby : Forall is_byte (s_pkt s)).

Lemma wp_po_store_bytes s1 off d (Q : unit -> St -> Prop) :
  pkt_only s s1 -> 0 <= off -> off + Z.of_nat (length d) <= data_end s ->
  Forall is_byte d ->
  (forall s2, pkt_only s s2 -> Q tt s2) -> wp (store_bytes off d) Q s1.
Proof.
  intros Hpo H1 H2 Hd HQ. apply wp_store_bytes; [done|by rewrite (pkt_only_end s s1)|].
  intros p Hp. apply HQ. etrans; [exact Hpo|]. split; [done|by eapply splice_length|].
  intros Hb. eapply splice_Forall; [exact Hb|exact Hd|exact Hp].
Qed.

Lemma wp_po_store s1 n off v (Q : unit -> St -> Prop) :
  pkt_only s s1 -> 0 <= off -> off + Z.of_nat n <= data_end s ->
  (forall s2, pkt_only s s2 -> Q tt s2) -> wp (store n off v) Q s1.
Proof.
  intros Hpo H1 H2 HQ. apply wp_po_store_bytes; try done.
  - by rewrite length_le_split.
  - apply le_split_bytes.
Qed.

Lemma wp_po_ld_bytes s1 n off (Q : list Z -> St -> Prop) :
  pkt_only s s1 -> 0 <= off -> 0 <= n -> off + n <= data_end s ->
  (forall b, Forall is_byte b -> Z.of_nat (length b) = n -> Q b s1) ->
  wp (ld_bytes n off) Q s1.
Proof.
  intros Hpo H1 H2 H3 HQ. apply wp_ld_bytes; [done|done|by rewrite (pkt_only_end s s1)|].
  intros b Hb. apply HQ.
  - eapply slice_Forall; [|exact Hb]. by apply (po_bytes _ _ Hpo).
  - apply slice_length in Hb. lia.
Qed.

Lemma wp_po_ld s1 n off (Q : Z -> St -> Prop) :
  pkt_only s s1 -> 0 <= off -> 0 <= n -> off + n <= data_end s ->
  (forall v, 0 <= v < 256 ^ n -> Q v s1) -> wp (ld n off) Q s1.
Proof.
  intros Hpo H1 H2 H3 HQ. apply wp_ld; [done|done|by rewrite (pkt_only_end s s1)|].
  intros b Hb. apply HQ. eapply loaded_range; [by apply (po_bytes _ _ Hpo)|done|exact Hb].
Qed.

Lemma set_doff_po s1 th d (Q : unit -> St -> Prop) :
  pkt_only s s1 -> 0 <= th -> th + SIZEOF_TCPHDR <= data_end s ->
  (forall s2, pkt_only s s2 -> Q tt s2) -> wp (set_doff th d) Q s1.
Proof.
  intros Hpo H1 H2 HQ. unfold set_doff, SIZEOF_TCPHDR in *.
  apply wp_bind, wp_po_ld; try done; try lia. intros v _.
  apply wp_po_store; try done; lia.
Qed.

Lemma swap_fields_po s1 n a b (Q : unit -> St -> Prop) :
  pkt_only s s1 -> 0 <= n -> 0 <= a -> 0 <= b ->
  a + n <= data_end s -> b + n <= data_end s ->
  (forall s2, pkt_only s s2 -> Q tt s2) -> wp (swap_fields n a b) Q s1.
Proof.
  intros Hpo Hn Ha Hb Hea Heb HQ. unfold swap_fields.
  apply wp_bind, wp_po_ld_bytes; try done. intros x Hx Hlx.
  apply wp_bind, wp_po_ld_bytes; try done. intros y Hy Hly.
  apply wp_bind, wp_po_store_bytes; try done; [lia|]. intros s2 H2.
  apply wp_po_store_bytes; try done. lia.
Qed.
End steps.

(** One load or store of a program that only writes the packet. *)
Ltac wp_po :=
  unfold ip4_tot_len, ip4_ttl, ip4_check, ip4_saddr, ip4_daddr, ip6_payload_len,
    ip6_saddr, ip6_daddr, ld_in6, th_source, th_dest, th_seq, th_doff, tcp_flag_word,
    th_ece, th_flag, ld8, ld16, ld32;
  repeat lazymatch goal with
  | |- wp (bind _ _) _ _ => apply wp_bind
  end;
  let s2 := fresh "s" in let Hs := fresh "Hpo" in let v := fresh "v" in
  let Hv := fresh "Hv" in
  lazymatch goal with
  | Hby : Forall is_byte (s_pkt ?s), Hpo : pkt_only ?s ?s1 |- wp _ _ ?s1 =>
    lazymatch goal with
    | |- wp (store _ _ _) _ _ =>
        apply (wp_po_store s); [exact Hpo|unfold_sizes; lia|unfold_sizes; lia|intros s2 Hs]
    | |- wp (ld _ _) _ _ =>
        apply (wp_po_ld s Hby); [exact Hpo|unfold_sizes; lia|lia|unfold_sizes; lia|intros v Hv]
    | |- wp (ld_bytes _ _) _ _ =>
        apply (wp_po_ld_bytes s Hby);
          [exact Hpo|unfold_sizes; lia|unfold_sizes; lia|unfold_sizes; lia|intros v Hv ?]
    | |- wp (set_doff _ _) _ _ =>
        apply (set_doff_po s Hby);
          [exact Hpo|unfold_sizes; lia|unfold_sizes; lia|intros s2 Hs]
    | |- wp (swap_fields _ _ _) _ _ =>
        apply (swap_fields_po s Hby);
          [exact Hpo|lia|unfold_sizes; lia|unfold_sizes; lia|unfold_sizes; lia
          |unfold_sizes; lia|intros s2 Hs]
    end
  end; cbv beta;
  repeat lazymatch goal with
  | |- wp (ret _) _ _ => apply wp_ret; cbv beta
  end.

Section synack.
Context (E : Env) (s : St) (Hby : Forall is_byte (s_pkt s)).

Lemma write_opts_po s1 th mss opts (Q : Z -> St -> Prop) :
  pkt_only s s1 -> 0 <= th -> th + SIZEOF_TCPHDR <= data_end s ->
  (forall n s2, pkt_only s s2 -> 0 <= n <= 5 ->
    th + SIZEOF_TCPHDR + 4 * n <= data_end s -> Q n s2) ->
  wp (tcp_syncookies_write_opts E th mss opts) Q s1.
Proof.
  intros Hpo Ht He HQ. unfold tcp_syncookies_write_opts. apply wp_bind, wp_get.
  rewrite (pkt_only_end s s1 Hpo).
  wp_step; [apply wp_ret, HQ; [done|lia..]|]. wp_po.
  wp_step; [apply wp_ret, HQ; [done|lia..]|]. wp_po.
  wp_step; [apply wp_ret, HQ; [done|lia..]|].
  wp_step.
  - wp_step; [|apply wp_ret, HQ; [done|lia..]]. wp_po. apply HQ; [done|lia..].
  - apply orb_false_iff in Hb2 as [_ Hb2]. apply wp_bind. wp_step.
    all: wp_po; unfold tcp_syncookies_make_cookie_ts; wp_po; wp_po; wp_po; apply HQ; [done|lia..].
Qed.

Lemma make_synack_po s1 th cookie mss opts (Q : Z -> St -> Prop) :
  pkt_only s s1 -> 0 <= th -> th + SIZEOF_TCPHDR <= data_end s ->
  0 <= ip_off (s_ctx s) -> cend (hdr_cur (s_ctx s)) = data_end s ->
  (forall r s2, pkt_only s s2 -> Q r s2) ->
  wp (tcp_syncookies_make_synack E th cookie mss opts) Q s1.
Proof.
  intros Hpo Ht He Hip Hend HQ. unfold tcp_syncookies_make_synack.
  apply wp_bind, wp_get_ctx. rewrite (pkt_only_ctx s s1 Hpo), Hend.
  apply wp_bind, write_opts_po; try done. intros n s2 Hpo2 Hn Hlen.
  assert (u8 (5 + n) = 5 + n) as -> by (apply wrap_small; lia).
  wp_po. apply wp_verify; intros Hb; [by apply HQ|].
  do 8 wp_po. wp_po. apply wp_verify; intros Hcs; [by apply HQ|].
  wp_po. apply wp_verify; intros Hb2; [by apply HQ|].
  unfold DATA_BGN in *. wp_po. wp_step; [|wp_step; [|by apply wp_ret, HQ]].
  - apply wp_verify; intros Hb3; [by apply HQ|]. do 2 wp_po.
    unfold ipv4_set_ttl_csum. do 2 wp_po.
    unfold ipv4_set_tot_len_csum. do 4 wp_po. unfold tcp_ipv4_csum_update.
    do 4 wp_po. by apply HQ.
  - apply wp_verify; intros Hb3; [by apply HQ|]. do 4 wp_po.
    unfold tcp_ipv6_csum_update. do 10 wp_po. by apply HQ.
Qed.

(** The lookup only reads. *)
Lemma sk_listen_lookup_po s1 th (Q : option Z -> St -> Prop) :
  pkt_only s s1 -> 0 <= th -> th + SIZEOF_TCPHDR <= data_end s ->
  0 <= ip_off (s_ctx s) -> cend (hdr_cur (s_ctx s)) = data_end s ->
  (forall sk, Q sk s1) -> wp (tcp_sk_listen_lookup E (s_ctx s) th) Q s1.
Proof.
  intros Hpo Ht He Hip Hend HQ. unfold tcp_sk_listen_lookup. rewrite Hend.
  unfold DATA_BGN. wp_step; [|wp_step; [|by apply wp_ret, HQ]].
  all: apply wp_verify; intros Hb1; [by apply HQ|].
  - do 4 wp_po. by apply HQ.
  - do 10 wp_po. by apply HQ.
Qed.
End synack.

(** ** Steps that may rewrite the packet but leave no other trace *)

Record loose (s s' : St) : Prop := mkLoose {
  ls_frame : frame s s';
  ls_ilog : s_ilog s' = s_ilog s;
  ls_tx : st_transmitted (s_stats s') = st_transmitted (s_stats s);
  ls_ctx : s_ctx s' = s_ctx s
}.

#[export] Instance loose_preorder : PreOrder loose.
Proof.
  split.
  - intros s. by split.
  - intros s1 s2 s3 [] []. split; try congruence. by etrans.
Qed.

Lemma loose_pkt_only s s' : pkt_only s s' -> loose s s'.
Proof.
  intros H. split; [by apply pkt_only_frame|..]; [apply (pkt_only_ilog s s' H)| |].
  - by rewrite (proj2 (pkt_only_ilog s s' H)).
  - by apply pkt_only_ctx.
Qed.

Lemma loose_quiet s s' : quiet s s' -> ctx_kept s s' -> loose s s'.
Proof. intros [] ?. by split. Qed.

Lemma quiet_loose s s' : loose s s' -> s_pkt s' = s_pkt s -> quiet s s' /\ ctx_kept s s'.
Proof. intros [] ?. by split. Qed.

Lemma loose_set_cookie_ts s s1 x : loose s s1 -> loose s (set_cookie_ts x s1).
Proof. intros H. etrans; [exact H|]. apply loose_quiet; auto with quietdb. Qed.

Lemma loose_wf s s1 : loose s s1 -> wf s -> wf s1.
Proof. intros [[]]. auto. Qed.

Lemma loose_end s s1 : loose s s1 -> data_end s1 = data_end s.
Proof. intros [[]]. unfold data_end. congruence. Qed.

Lemma wp_syncookie_drop E s s1 : loose s s1 -> wp (syncookie_drop E) (verdict_c E s) s1.
Proof.
  intros [Hf Hi Ht Hc]. unfold syncookie_drop. apply wp_bind, wp_count_traffic.
  split; [|exact Hc]. eapply verdict_drop.
  - etrans; [exact Hf|]. etrans; [by apply (frame_traffic_counted s1 XFW_SYNCOOKIE_FAILED)|].
    split; try done. apply wf_set_ilog.
  - done.
  - simpl. by rewrite Hi.
Qed.

Lemma wp_synack_tx E s s1 :
  e_hook E = HOOK_XDP -> e_deployment_mode E = XFW_MODE_HOST ->
  sc_enabled (rc_syncookie (rules (cfg (s_ctx s)))) = true ->
  loose s s1 -> wp (MAKE_XDP_TX XFW_SYNCOOKIE_GENERATED) (verdict_c E s) s1.
Proof.
  intros Hh Hm Hs [Hf Hi Ht Hc]. unfold MAKE_XDP_TX, count_tx_stat.
  split; [|exact Hc]. apply verdict_tx; try done.
  - etrans; [exact Hf|]. by apply frame_stats.
  - simpl. by rewrite Hc, Ht.
Qed.

(** ** The data offset is overwritten and restored *)

Definition doff_byte (b doff : Z) : Z :=
  Z.lor (Z.land b 0x0f) (Z.shiftl (Z.land doff 0xf) 4).

Lemma doff_byte_eq b d : doff_byte b d = b mod 16 + d mod 16 * 16.
Proof.
  unfold doff_byte. change 15 with (Z.ones 4). rewrite !Z.land_ones by lia.
  apply lor_low_high; [lia|]. apply Z.mod_pos_bound. lia.
Qed.

Lemma set_doff_exact th d s (Q : unit -> St -> Prop) :
  Forall is_byte (s_pkt s) -> 0 <= th -> th + SIZEOF_TCPHDR <= data_end s ->
  (forall b p, is_byte b -> slice (s_pkt s) (th + 12) 1 = Some [b] ->
     splice (s_pkt s) (th + 12) [doff_byte b d] = Some p -> Q tt (set_pkt p s)) ->
  wp (set_doff th d) Q s.
Proof.
  intros Hby H1 H2 HQ. unfold set_doff, SIZEOF_TCPHDR in *. apply wp_bind, wp_ld; try lia.
  intros bs Hbs. pose proof (slice_length _ _ _ _ Hbs) as Hl.
  pose proof (slice_Forall _ _ _ _ _ Hby Hbs) as Hb.
  destruct bs as [|b [|]]; simpl in Hl; try lia. inversion_clear Hb as [|? ? Hb1].
  simpl le_combine. rewrite Z.add_0_r. apply wp_store; try lia. intros p Hp.
  eapply HQ; [exact Hb1|exact Hbs|].
  assert (le_split 1 (doff_byte b d) = [doff_byte b d]) as <-; [|exact Hp].
  simpl. f_equal. apply Z.mod_small. rewrite doff_byte_eq. unfold is_byte in Hb1. dlia.
Qed.

(** Writing back the old offset restores the packet. *)
Lemma doff_restored (pkt p p' : list Z) off b b' d :
  is_byte b -> slice pkt off 1 = Some [b] ->
  splice pkt off [doff_byte b d] = Some p ->
  slice p off 1 = Some [b'] ->
  splice p off [doff_byte b' (Z.land (b / 16) 0xf)] = Some p' -> p' = pkt.
Proof.
  intros Hb Hs Hp Hs' Hp'. pose proof (slice_splice_eq _ _ _ _ Hp) as H.
  change (Z.of_nat (length [doff_byte b d])) with 1 in H.
  rewrite Hs' in H. injection H as ->.
  assert (doff_byte (doff_byte b d) (Z.land (b / 16) 15) = b) as Hback.
  { rewrite !doff_byte_eq. change 15 with (Z.ones 4). rewrite Z.land_ones by lia.
    change (2 ^ 4) with 16. unfold is_byte in Hb. dlia. }
  rewrite Hback in Hp'.
  pose proof (splice_restore pkt [b] [doff_byte b d] p off Hs eq_refl Hp) as Hr. congruence.
Qed.

Section filters.
Context (E : Env) `{!KernelSpec (e_kernel E)}.

(** The timers only touch their own entry. *)
Lemma flood_mode_spec c ts s :
  wp (tcp_syncookies_flood_mode c ts) (fun _ s' => exists x, s' = set_cookie_ts x s) s.
Proof.
  unfold tcp_syncookies_flood_mode, set_last_try.
  wp_step; [apply wp_bind, wp_modify, wp_ret; eauto|apply wp_ret].
  exists (s_cookie_ts s). by destruct s.
Qed.

Lemma passive_mode_spec c ts s :
  wp (tcp_syncookies_passive_mode c ts) (fun _ s' => exists x, s' = set_cookie_ts x s) s.
Proof.
  unfold tcp_syncookies_passive_mode, set_last_try.
  wp_step; [apply wp_bind, wp_modify, wp_ret; eauto|apply wp_ret].
  exists (s_cookie_ts s). by destruct s.
Qed.

Section syn.
Context (th : Z) (s : St).
Hypothesis Hwf : wf s.
Hypothesis Hth : 0 <= th.
Hypothesis Hend : th + SIZEOF_TCPHDR <= data_end s.
Hypothesis Hhook : e_hook E = HOOK_XDP.
Hypothesis Hhost : e_deployment_mode E = XFW_MODE_HOST.
Hypothesis Hon : sc_enabled (rc_syncookie (rules (cfg (s_ctx s)))) = true.

(** From the answer of the cookie generator on. *)
Lemma synack_spec s1 cookie mss :
  loose s s1 ->
  wp (let* (r, opts) := tcp_parse_opts E th (mkTCPOpts 0 0 false) in
      if negb (r =? 0) then syncookie_drop E else
      r <- tcp_syncookies_make_synack E th cookie mss opts ;;
      if negb (r =? 0) then syncookie_drop E else
      MAKE_XDP_TX XFW_SYNCOOKIE_GENERATED) (verdict_c E s) s1.
Proof.
  intros Hl. pose proof (loose_wf _ _ Hl Hwf) as Hw1. destruct Hw1.
  rewrite <- (loose_end s s1 Hl) in Hend.
  apply wp_bind. eapply wp_mono; [apply tcp_parse_opts_spec; done|].
  intros [r opts] s' [-> _]. wp_step; [by apply wp_syncookie_drop|].
  apply wp_bind, (make_synack_po E s1); try done. intros r' s2 Hpo.
  assert (loose s s2) by (etrans; [exact Hl|by apply loose_pkt_only]).
  wp_step; [by apply wp_syncookie_drop|by apply wp_synack_tx].
Qed.

(** The lookup, the cookie and the reply, with the data offset overwritten
    while the kernel looks at the header. *)
Definition cookie_reply (c : XfwGlobalCtx) (iph_len : Z) : P Z :=
  old_doff <- th_doff th ;;
  set_doff th (Z.land (SIZEOF_TCPHDR / 4) 0xf) ;;;
  sk <- tcp_sk_listen_lookup E c th ;;
  match sk with
  | None => set_last_gen (ts_jiff c) ;;; syncookie_drop E
  | Some _ =>
      iph_b <- ld_bytes iph_len (DATA_BGN + ip_off c) ;;
      th_b <- ld_bytes SIZEOF_TCPHDR th ;;
      let seq_mss := k_tcp_gen_syncookie (e_kernel E) iph_b th_b in
      set_doff th (Z.land old_doff 0xf) ;;;
      if seq_mss =? - ENOENT then ret XFW_CTX_CONTINUE else
      set_last_gen (ts_jiff c) ;;;
      if seq_mss <? 0 then syncookie_drop E else
      let* (r, opts) := tcp_parse_opts E th (mkTCPOpts 0 0 false) in
      if negb (r =? 0) then syncookie_drop E else
      r <- tcp_syncookies_make_synack E th (u32 seq_mss)
             (u16 (Z.shiftr seq_mss 32)) opts ;;
      if negb (r =? 0) then syncookie_drop E else
      MAKE_XDP_TX XFW_SYNCOOKIE_GENERATED
  end.

Lemma cookie_reply_spec s1 iph_len :
  loose s s1 -> s_pkt s1 = s_pkt s -> 0 <= iph_len ->
  ip_off (s_ctx s) + iph_len <= data_end s ->
  wp (cookie_reply (s_ctx s) iph_len) (verdict_c E s) s1.
Proof.
  intros Hl Hpk Hil Hip. pose proof (wf_end _ Hwf) as Hce.
  pose proof (wf_ip_off _ Hwf) as Hi0. pose proof (loose_end _ _ Hl) as Hde.
  pose proof (ls_ctx _ _ Hl) as Hc.
  assert (Forall is_byte (s_pkt s1)) as Hby by (rewrite Hpk; apply Hwf).
  unfold cookie_reply, DATA_BGN. rewrite Z.add_0_l. wp_load.
  apply wp_bind, set_doff_exact; [done|done|lia|]. intros b' p Hb Hs Hp.
  assert (b = [b']) as -> by congruence. change (le_combine [b']) with (b' + 0).
  rewrite Z.add_0_r. set (s2 := set_pkt p s1). assert (pkt_only s1 s2) as Hpo.
  { split; [done|by eapply splice_length|]. intros _.
    eapply splice_Forall; [exact Hby| |exact Hp]. constructor; [|done].
    rewrite doff_byte_eq. unfold is_byte in *. dlia. }
  assert (loose s s2) as Hl2 by (etrans; [exact Hl|by apply loose_pkt_only]).
  rewrite <- Hc. apply wp_bind, (sk_listen_lookup_po E s1); rewrite ?Hc; [done|done|done|lia|done|lia|].
  intros [sk|].
  2: { apply wp_bind, wp_modify, wp_syncookie_drop. by apply loose_set_cookie_ts. }
  wp_po. wp_po.
  assert (Forall is_byte (s_pkt s2)) as Hby2 by (by apply (po_bytes _ _ Hpo)).
  apply wp_bind, set_doff_exact; [done|done|by rewrite (pkt_only_end s1 s2 Hpo), Hde|].
  intros b2 p2 Hb2 Hs2 Hp2. simpl in Hs2, Hp2.
  assert (p2 = s_pkt s1) as -> by (by eapply (doff_restored _ p _ _ b' b2)).
  assert (set_pkt (s_pkt s1) s2 = s1) as -> by (by destruct s1).
  wp_step; [destruct (quiet_loose _ _ Hl Hpk); wp_verdict|].
  apply wp_bind, wp_modify. assert (loose s (set_cookie_ts
    ((fun x => mkSynCookieTs (last_try_jiff x) (ts_jiff (s_ctx s))) <$> s_cookie_ts s1) s1))
    as Hl3 by (by apply loose_set_cookie_ts).
  wp_step; [by apply wp_syncookie_drop|]. by apply synack_spec.
Qed.

Lemma tcp_syncookies_syn_filter_spec :
  wp (tcp_syncookies_syn_filter E th) (verdict_c E s) s.
Proof.
  unfold tcp_syncookies_syn_filter. apply wp_bind, wp_get_ctx.
  apply wp_bind, wp_bind, wp_get, wp_ret. wp_step.
  2: { apply wp_assert; intros ?; wp_verdict. }
  apply wp_bind. wp_apply flood_mode_spec. intros flood s' [ts1 ->]. apply wp_bind.
  apply (wp_mono _ (fun _ s' => exists x, s' = set_cookie_ts x s)).
  { destruct flood; [apply wp_ret; eauto|]. wp_apply passive_mode_spec.
    intros _ s' [ts2 ->]. by exists ts2. }
  intros tried s' [ts2 ->]. wp_step; [wp_verdict|].
  apply wp_assert; intros Hip; [wp_verdict|]. apply (cookie_reply_spec (set_cookie_ts ts2 s)).
  - by apply loose_set_cookie_ts.
  - done.
  - unfold_sizes. destruct (_ =? _); lia.
  - rewrite (wf_end _ Hwf) in Hip. unfold DATA_BGN in Hip. lia.
Qed.
End syn.

Lemma tcp_syncookies_ack_filter_spec th s :
  wf s -> 0 <= th -> th + SIZEOF_TCPHDR <= data_end s ->
  wp (tcp_syncookies_ack_filter E th) (verdict_c E s) s.
Proof.
  intros Hwf Hth Hend. pose proof (wf_end _ Hwf) as Hce. pose proof (wf_ip_off _ Hwf).
  unfold tcp_syncookies_ack_filter, DATA_BGN. apply wp_bind, wp_get_ctx.
  apply wp_bind, (sk_listen_lookup_po E s (wf_bytes _ Hwf)); try done.
  intros [state|]; [|by apply wp_syncookie_drop]. rewrite Hce.
  wp_step; [wp_verdict|]. wp_step; [|wp_step].
  1,2: apply wp_assert; intros Hip; [wp_verdict|].
  1,2: do 2 (apply wp_bind, wp_ld_bytes; [unfold_sizes; lia|unfold_sizes; lia
    |unfold_sizes; lia|]; intros ? _).
  1,2: wp_step; [by apply wp_syncookie_drop|].
  all: apply wp_bind, wp_count_traffic; wp_verdict.
Qed.
End filters.
