(* ===== verification/Checksum.v ===== *)
(** * Checksum: the Internet checksum arithmetic and the timestamp cookie

    Facts about the arithmetic of src/bpf/tcp_syncookies.h: folding a sum to 16
    bits, updating it incrementally (RFC 1624) and packing the TCP options into
    the low bits of a timestamp.  One's complement sums are compared modulo
    65535. *)

From S2P Require Import Prelude.
From S2P Require Import Uapi.
From S2P Require Import Kernel.
From S2P Require Import Ctx.
From S2P Require Import Parsing.
From S2P Require Import Syncookies.

Lemma fold_once_eq c : 0 <= c -> fold_once c = c mod 65536 + c / 65536.
Proof.
  intros Hc. unfold fold_once. change 0xffff with (Z.ones 16).
  rewrite Z.land_ones, Z.shiftr_div_pow2 by lia. change (2 ^ 16) with 65536.
  destruct (Z.eqb_spec (c / 65536) 0); simpl; dlia.
Qed.

Lemma fold_once_range c b : 0 <= c <= b -> 0 <= fold_once c <= 65535 + b / 65536.
Proof. intros Hc. rewrite fold_once_eq by lia. dlia. Qed.

Lemma fold_once_mod c : 0 <= c -> fold_once c mod 65535 = c mod 65535.
Proof. intros Hc. rewrite fold_once_eq by done. dlia. Qed.

(** Four steps are enough for any 64-bit sum. *)
Lemma fold4 c : 0 <= c < 2 ^ 64 ->
  let r := fold_once (fold_once (fold_once (fold_once c))) in
  0 <= r < 65536 /\ r mod 65535 = c mod 65535 /\ (r = 0 -> c = 0).
Proof.
  intros Hc r. subst r.
  pose proof (fold_once_range c (2 ^ 64 - 1) ltac:(lia)) as H1.
  change (65535 + (2 ^ 64 - 1) / 65536) with 281474976776190 in H1.
  assert (0 <= fold_once (fold_once c) <= 4295032830) as H2.
  { rewrite (fold_once_eq (fold_once c)) by lia. dlia. }
  set (d := fold_once (fold_once c)) in *.
  assert (0 <= fold_once d <= 131070) as H3.
  { rewrite fold_once_eq by lia. dlia. }
  split; [|split].
  - rewrite fold_once_eq by lia. dlia.
  - rewrite !fold_once_mod by lia. subst d. by rewrite !fold_once_mod by lia.
  - subst d. intros H0. assert (forall x, 0 <= x -> fold_once x = 0 -> x = 0) as Hz.
    { intros x Hx. rewrite fold_once_eq by done. dlia. }
    do 3 (apply Hz; [lia|]). by apply Hz; [lia|].
Qed.

Lemma u16_lnot c : 0 <= c < 65536 -> u16 (Z.lnot c) = 65535 - c.
Proof. intros Hc. unfold wrap, Z.lnot. change (2 ^ 16) with 65536. dlia. Qed.

Lemma csum_fold_spec c : 0 <= c < 2 ^ 64 ->
  0 <= csum_fold c < 65536 /\ (c + csum_fold c) mod 65535 = 0
  /\ (csum_fold c = 65535 -> c = 0).
Proof.
  intros Hc. destruct (fold4 c Hc) as (Hr & Hm & Hz). unfold csum_fold.
  set (r := fold_once _) in *. rewrite u16_lnot by done.
  split; [lia|]. split; [|intros; apply Hz; lia].
  rewrite Z.add_mod, <- Hm, <- Z.add_mod by lia.
  replace (r + (65535 - r)) with 65535 by lia. done.
Qed.

Lemma csum_unfold_eq c : 0 <= c < 65536 -> csum_unfold c = 65535 - c.
Proof.
  intros Hc. unfold csum_unfold.
  change (Z.land (Z.lnot c) 65535) with (Z.land (Z.lnot c) (Z.ones 16)).
  rewrite Z.land_ones by lia. unfold Z.lnot. change (2 ^ 16) with 65536. dlia.
Qed.

Lemma u32_lnot c : 0 <= c < 2 ^ 32 -> u32 (Z.lnot c) = 4294967295 - c.
Proof. intros Hc. unfold wrap, Z.lnot. change (2 ^ 32) with 4294967296 in *. dlia. Qed.

Lemma csum_replace_spec c old new b :
  0 <= c <= b -> 0 <= old < 2 ^ 32 -> 0 <= new < 2 ^ 32 -> b + 2 ^ 33 < 2 ^ 64 ->
  0 <= csum_replace c old new <= b + 2 ^ 33
  /\ csum_replace c old new mod 65535 = (c - old + new) mod 65535.
Proof.
  intros Hc Ho Hn Hb. unfold csum_replace. rewrite u32_lnot by done.
  rewrite (wrap_small 64 (c + _)) by lia. rewrite wrap_small by lia.
  split; [lia|].
  replace (c + (4294967295 - old) + new) with (c - old + new + 65537 * 65535) by lia.
  apply Z_mod_plus_full.
Qed.

(** ** The IPv4 header *)

(** The checksum of the header after the TTL and length words changed. *)
Definition ip4_new_check (check ttl tot_len len : Z) : Z :=
  csum_fold (csum_replace (csum_replace (csum_unfold check)
    (bpf_htons (Z.lor (u16 (Z.shiftl ttl 8)) XFW_L4_PROTO_TCP))
    (bpf_htons (Z.lor (u16 (Z.shiftl XFW_DEFAULT_TTL 8)) XFW_L4_PROTO_TCP)))
    tot_len (bpf_htons len)).

Lemma ttl_word ttl : 0 <= ttl < 256 ->
  bpf_htons (Z.lor (u16 (Z.shiftl ttl 8)) XFW_L4_PROTO_TCP) = ttl + 256 * XFW_L4_PROTO_TCP.
Proof.
  intros Ht. unfold XFW_L4_PROTO_TCP. rewrite Z.lor_comm.
  assert (u16 (Z.shiftl ttl 8) = Z.shiftl ttl 8) as ->.
  { rewrite Z.shiftl_mul_pow2 by lia. apply wrap_small. lia. }
  rewrite lor_low_high by lia. unfold bswap16. change (2 ^ 8) with 256. dlia.
Qed.

(** The words of the header, the rest of it summed up in [rest]. *)
Lemma ip4_new_check_spec rest check ttl tot_len len :
  0 <= check < 65536 -> 0 <= ttl < 256 -> 0 <= tot_len < 65536 ->
  (rest + (ttl + 256 * XFW_L4_PROTO_TCP) + tot_len + check) mod 65535 = 0 ->
  0 <= ip4_new_check check ttl tot_len len < 65536
  /\ (rest + (XFW_DEFAULT_TTL + 256 * XFW_L4_PROTO_TCP) + bpf_htons len
      + ip4_new_check check ttl tot_len len) mod 65535 = 0.
Proof.
  intros Hc Ht Hl H0. unfold ip4_new_check.
  rewrite !ttl_word by (unfold XFW_DEFAULT_TTL; lia). rewrite csum_unfold_eq by done.
  pose proof (bswap16_range len). unfold XFW_L4_PROTO_TCP, XFW_DEFAULT_TTL in *.
  edestruct (csum_replace_spec (65535 - check) (ttl + 256 * 6) (64 + 256 * 6) 65535)
    as [R1 M1]; [lia..|].
  edestruct (csum_replace_spec _ tot_len (bpf_htons len) _ R1) as [R2 M2]; [lia..|].
  set (y := csum_replace _ (ttl + _) _) in *. set (z := csum_replace y _ _) in *.
  destruct (csum_fold_spec z ltac:(lia)) as (R3 & M3 & _). split; [exact R3|]. dlia.
Qed.

(** ** The TCP checksum *)

Lemma csum_finish_spec c : 0 <= c < 2 ^ 64 ->
  0 <= csum_finish c < 65536 /\ (c + csum_finish c) mod 65535 = 0.
Proof.
  intros Hc. unfold csum_finish.
  change 0xffffffff with (Z.ones 32). rewrite !Z.land_ones, !Z.shiftr_div_pow2 by lia.
  change (2 ^ 32) with 4294967296. change (2 ^ 64) with 18446744073709551616 in Hc.
  set (c1 := c mod 4294967296 + c / 4294967296).
  assert (0 <= c1 <= 8589934590 /\ c1 mod 65535 = c mod 65535) as [R1 M1].
  { subst c1. dlia. }
  set (c2 := c1 mod 4294967296 + c1 / 4294967296).
  assert (0 <= c2 < 4294967296 /\ c2 mod 65535 = c1 mod 65535) as [R2 M2].
  { clearbody c1. subst c2. dlia. }
  rewrite (Z.mod_small c2) by done.
  destruct (csum_fold_spec c2 ltac:(lia)) as (R3 & M3 & _). split; [done|].
  clearbody c1 c2. dlia.
Qed.

(** ** The timestamp cookie *)

Lemma cookie_bits_eq opts ece : 0 <= opt_wscale opts <= TCPOPT_WSCALE_MAX ->
  cookie_bits opts ece
  = (if opt_wscale opts =? 0 then 15 else opt_wscale opts)
    + 16 * b2z (opt_sack_perm opts) + 32 * b2z ece.
Proof.
  unfold TCPOPT_WSCALE_MAX, cookie_bits, TCPOPT_WSCALE_MASK. intros Hw.
  assert ((if negb (opt_wscale opts =? 0) then Z.land (opt_wscale opts) 15 else 15)
          = if opt_wscale opts =? 0 then 15 else opt_wscale opts) as ->.
  { destruct (_ =? 0); simpl; [done|]. change 15 with (Z.ones 4).
    rewrite Z.land_ones by lia. apply Z.mod_small. lia. }
  set (w := if opt_wscale opts =? 0 then 15 else opt_wscale opts). assert (0 <= w <= 15) by (subst w; destruct (_ =? 0); lia).
  rewrite (lor_low_high w) by lia.
  rewrite lor_low_high by (destruct (opt_sack_perm opts); simpl; lia).
  change (2 ^ 4) with 16. change (2 ^ 5) with 32. lia.
Qed.

Lemma cookie_bits_range opts ece :
  0 <= opt_wscale opts <= TCPOPT_WSCALE_MAX -> 0 <= cookie_bits opts ece < 64.
Proof.
  intros Hw. rewrite cookie_bits_eq by done. unfold TCPOPT_WSCALE_MAX in Hw.
  destruct (_ =? 0), (opt_sack_perm opts), ece; simpl; lia.
Qed.

Lemma cookie_ts_spec now co : 64 <= now < 2 ^ 32 -> 0 <= co < 64 ->
  now - 64 < cookie_ts now co <= now /\ cookie_ts now co mod 64 = co.
Proof.
  intros Hn Hc. unfold cookie_ts. rewrite Z.shiftr_div_pow2, Z.lor_comm by lia.
  rewrite lor_low_high by lia. change (2 ^ 6) with 64. change (Z.shiftl 1 6) with 64.
  change (2 ^ 32) with 4294967296 in Hn.
  destruct (Z.ltb_spec now (co + now / 64 * 64)).
  - rewrite wrap_small by (change (2 ^ 32) with 4294967296; dlia). dlia.
  - dlia.
Qed.

(** What a receiver reads back from an echoed timestamp cookie, as the kernel
    does: the window scale, or none, and the SACK and ECN bits. *)
Definition cookie_wscale (ts : Z) : option Z :=
  if ts mod 16 =? 15 then None else Some (ts mod 16).
Definition cookie_sack (ts : Z) : bool := Z.testbit ts 4.
Definition cookie_ecn (ts : Z) : bool := Z.testbit ts 5.

Lemma testbit_div x i : 0 <= i -> Z.testbit x i = Z.odd (x / 2 ^ i).
Proof. intros Hi. rewrite Z.testbit_odd. by rewrite Z.shiftr_div_pow2. Qed.

(** The timestamp of the SYN-ACK is at most the clock and less than 64
    ticks behind it, and carries the client's window scale, SACK and ECN
    options in a form from which they are read back exactly. *)
Lemma cookie_ts_roundtrip now opts ece :
  64 <= now < 2 ^ 32 -> 0 <= opt_wscale opts <= TCPOPT_WSCALE_MAX ->
  let ts := cookie_ts now (cookie_bits opts ece) in
  now - 64 < ts <= now
  /\ cookie_wscale ts = (if opt_wscale opts =? 0 then None else Some (opt_wscale opts))
  /\ cookie_sack ts = opt_sack_perm opts /\ cookie_ecn ts = ece.
Proof.
  intros Hn Hw ts. pose proof (cookie_bits_range opts ece Hw) as Hr.
  destruct (cookie_ts_spec now _ Hn Hr) as [Hts Hm]. split; [done|].
  fold ts in Hm, Hts. clearbody ts. rewrite cookie_bits_eq in Hm by done.
  unfold TCPOPT_WSCALE_MAX in Hw.
  unfold cookie_wscale, cookie_sack, cookie_ecn. rewrite !testbit_div by lia.
  change (2 ^ 4) with 16. change (2 ^ 5) with 32. rewrite !Zodd_mod.
  set (w := if opt_wscale opts =? 0 then 15 else opt_wscale opts) in *.
  assert (ts mod 16 = w) as ->.
  { subst w. destruct (_ =? 0), (opt_sack_perm opts), ece; simpl in *; dlia. }
  assert ((ts / 16) mod 2 = b2z (opt_sack_perm opts)) as ->.
  { subst w. destruct (_ =? 0), (opt_sack_perm opts), ece; simpl in *; dlia. }
  assert ((ts / 32) mod 2 = b2z ece) as ->.
  { subst w. destruct (_ =? 0), (opt_sack_perm opts), ece; simpl in *; dlia. }
  split; [|by destruct (opt_sack_perm opts), ece]. subst w.
  destruct (Z.eqb_spec (opt_wscale opts) 0); [done|].
  by rewrite (proj2 (Z.eqb_neq _ _)) by lia.
Qed.

Lemma cookie_ts_roundtrip_example :
  cookie_wscale (cookie_ts 1000 (cookie_bits (mkTCPOpts 5 7 true) false)) = Some 7.
Proof.
  pose proof (cookie_ts_roundtrip 1000 (mkTCPOpts 5 7 true) false ltac:(lia)
    ltac:(unfold TCPOPT_WSCALE_MAX; simpl; lia)) as (_ & H & _). exact H.
Defined.
