(* ===== verification/Dns.v ===== *)
(** * Dns: the DNS filter

    src/bpf/dns.h.  The ingress program validates queries and lets responses in
    only for transaction ids that the egress program has recorded.  The
    position of the cursor travels through the metadata area in front of the
    packet ([s_meta]), as in the sources. *)

From S2P Require Import Prelude.
From S2P Require Import Enums.
From S2P Require Import Uapi.
From S2P Require Import Kernel.
From S2P Require Import Ctx.
From S2P Require Import IncidentLog.
From S2P Require Import Filter.
From S2P Require Import Verdict.
From S2P Require Import Parsing.

Definition DNS_PORT : Z := 53.
Definition OPCODE_QUERY : Z := 0.
Definition RCODE_OK : Z := 0.
Definition QTYPE_IXFR : Z := 251.
Definition DNS_NAME_COMPRESSION_LABEL : Z := 0xC0.
Definition MAX_DNS_NAME : Z := 255.
Definition MAX_ANCOUNT : Z := 100.
Definition L3_L4_IPV4_UDP_HDRS_MAXLEN : Z := 68.
Definition MAX_DNS_UDP_PACKET : Z := 4096.
Definition DNS_QUERY : Z := 0.
Definition MAX_TTL : Z := 604800.

(** struct XfwDnsHdr, struct XfwDnsQRec, struct XfwDnsRR *)
Definition SIZEOF_DNSHDR : Z := 12.
Definition SIZEOF_DNSQREC : Z := 4.
Definition SIZEOF_DNSRR : Z := 10.
Definition dh_id (dh : Z) : P Z := ld16 dh.
Definition dh_flags (dh : Z) : P Z := ld16 (dh + 2).
Definition dh_qdcount (dh : Z) : P Z := ld16 (dh + 4).
Definition dh_ancount (dh : Z) : P Z := ld16 (dh + 6).
Definition dh_nscount (dh : Z) : P Z := ld16 (dh + 8).
Definition dh_arcount (dh : Z) : P Z := ld16 (dh + 10).
Definition dq_qtype (dq : Z) : P Z := ld16 dq.
Definition dr_ttl (dr : Z) : P Z := ld32 (dr + 4).
Definition dr_rdata_len (dr : Z) : P Z := ld16 (dr + 8).

Definition parse_dnshdr : XfwHdrCursor -> option Z * XfwHdrCursor :=
  simple_parse SIZEOF_DNSHDR.
Definition parse_dns_question_record : XfwHdrCursor -> option Z * XfwHdrCursor :=
  simple_parse SIZEOF_DNSQREC.
Definition parse_dns_rr : XfwHdrCursor -> option Z * XfwHdrCursor :=
  simple_parse SIZEOF_DNSRR.

Definition dns_get_qr (hflags : Z) : Z := u8 (Z.land (Z.shiftr hflags 15) 1).

Definition DNS_LABEL_CONTINUE : Z := 1.
Definition DNS_LABEL_FOUND : Z := 0.
Definition DNS_LABEL_NOTFOUND : Z := -1.

(** The result and the new offset. *)
Definition process_label (c : XfwHdrCursor) (offset : Z) : P (Z * Z) :=
  if MAX_DNS_NAME <? offset then ret (DNS_LABEL_NOTFOUND, offset) else
  let p := pos c + offset in
  if cend c <? p + 1 then ret (DNS_LABEL_NOTFOUND, offset) else
  o <- ld8 p ;;
  if Z.land o DNS_NAME_COMPRESSION_LABEL =? DNS_NAME_COMPRESSION_LABEL
  then ret (DNS_LABEL_FOUND, offset + 2) else
  if (63 <? o) || (cend c <? p + o + 1) then ret (DNS_LABEL_NOTFOUND, offset) else
  let offset := offset + (o + 1) in
  if o =? 0 then ret (DNS_LABEL_FOUND, offset) else ret (DNS_LABEL_CONTINUE, offset).

(** The [bpf_for] loop: the length of the name, if it ends within [n] labels. *)
Fixpoint process_labels (n : nat) (c : XfwHdrCursor) (offset : Z) : P (option Z) :=
  match n with
  | O => ret None
  | S n =>
      let* (r, offset) := process_label c offset in
      if r =? DNS_LABEL_FOUND then ret (Some offset)
      else if r =? DNS_LABEL_NOTFOUND then ret None
      else process_labels n c offset
  end.

Definition with_cur_pos (p : Z) (md : XfwPacketMetadata) : XfwPacketMetadata :=
  mkMetadata p (md_ip_off md) (md_is_ipv4 md) (md_unused md).

(** [INIT_CURSOR_FROM_BPF_CONTEXT]. *)
Definition init_cursor : P XfwHdrCursor :=
  s <- get ;; ret (mkCursor DATA_BGN (data_end s)).

Definition process_dname_global : P Z :=
  cur <- init_cursor ;;
  s <- get ;;
  match s_meta s with
  | None => ret (-1)
  | Some md =>
      if MAX_DNS_UDP_PACKET <? md_cur_pos md then ret (-1) else
      r <- process_labels (Z.to_nat MAX_DNS_NAME) (advance cur (md_cur_pos md)) 0 ;;
      match r with
      | None => ret (-1)
      | Some offset =>
          modify (set_meta (Some (with_cur_pos (u16 (md_cur_pos md + offset)) md))) ;;;
          ret 0
      end
  end.

(** The result and the cursor behind the name. *)
Definition process_dname (hdr_cur : XfwHdrCursor) : P (Z * XfwHdrCursor) :=
  s <- get ;;
  match s_meta s with
  | None => ret (-1, hdr_cur)
  | Some md =>
      modify (set_meta (Some (with_cur_pos (u16 (pos hdr_cur - DATA_BGN)) md))) ;;;
      r <- process_dname_global ;;
      if negb (r =? 0) then ret (-1, hdr_cur) else
      s <- get ;;
      match s_meta s with
      | None => ret (-1, hdr_cur)
      | Some md =>
          if MAX_DNS_UDP_PACKET <? md_cur_pos md then ret (-1, hdr_cur) else
          let hdr_cur := mkCursor (DATA_BGN + md_cur_pos md) (cend hdr_cur) in
          if cend hdr_cur <=? pos hdr_cur then ret (-1, hdr_cur) else
          ret (0, hdr_cur)
      end
  end.

Definition parse_single_dns_question (hdr_cur : XfwHdrCursor)
    : P (option Z * XfwHdrCursor) :=
  let* (r, hdr_cur) := process_dname hdr_cur in
  if negb (r =? 0) then ret (None, hdr_cur) else
  ret (parse_dns_question_record hdr_cur).

Definition parse_full_dns_rr (hdr_cur : XfwHdrCursor) : P (option Z * XfwHdrCursor) :=
  let* (r, hdr_cur) := process_dname hdr_cur in
  if negb (r =? 0) then ret (None, hdr_cur) else
  match parse_dns_rr hdr_cur with
  | (None, hdr_cur) => ret (None, hdr_cur)
  | (Some dr, hdr_cur) =>
      l <- dr_rdata_len dr ;;
      let rdata_len := bpf_ntohs l in
      if MAX_DNS_UDP_PACKET <? rdata_len then ret (None, hdr_cur) else
      if negb (cur_has hdr_cur rdata_len) then ret (None, hdr_cur) else
      ret (Some dr, advance hdr_cur rdata_len)
  end.

(** [XfwDnsCtx] without the packet and the statistics, which are in [St]. *)
Record XfwDnsCtx := mkDnsCtx {
  dc_hdr_cur : XfwHdrCursor;
  dc_ilog_addr : XfwIp;
  dc_pkt_sz : Z
}.

Section dns.
Context (E : Env).

(** [XFW_MAKE_CTX_DROP(dns_ctx, reason)]. *)
Definition dns_drop (d : XfwDnsCtx) (reason : XfwDropStat) : P Z :=
  make_drop E (dc_ilog_addr d) (dc_pkt_sz d) reason.

Definition process_ingress_dns_query (d : XfwDnsCtx) (dh : Z) : P Z :=
  flags <- dh_flags dh ;;
  let hflags := bpf_ntohs flags in
  let opcode := Z.land (Z.shiftr hflags 11) 0xF in
  let rcode := Z.land hflags 0xF in
  if negb (opcode =? OPCODE_QUERY) then ret XFW_CTX_CONTINUE else
  if negb (rcode =? RCODE_OK) then dns_drop d XFW_DROP_DNS_QRY_RCODE_NOT_OK else
  qdcount <- dh_qdcount dh ;; ancount <- dh_ancount dh ;;
  nscount <- dh_nscount dh ;; arcount <- dh_arcount dh ;;
  if (qdcount =? 0) && (ancount =? 0) && (nscount =? 0) && (bpf_ntohs arcount =? 1)
  then ret XFW_CTX_CONTINUE else
  if negb (qdcount =? bpf_htons 1) then dns_drop d XFW_DROP_DNS_MULTIPLE_QUESTIONS else
  let* (odq, hdr_cur) := parse_single_dns_question (dc_hdr_cur d) in
  match odq with
  | None => dns_drop d XFW_DROP_DNS_BAD_QUESTION
  | Some dq =>
      if negb (nscount =? 0) then dns_drop d XFW_DROP_DNS_ANS_OR_AUTHS_IN_QUERY else
      qtype <- dq_qtype dq ;;
      if qtype =? bpf_ntohs QTYPE_IXFR then ret XFW_CTX_CONTINUE else
      if negb (ancount =? 0) then dns_drop d XFW_DROP_DNS_ANS_OR_AUTHS_IN_QUERY else
      if 2 <? bpf_ntohs arcount then dns_drop d XFW_DROP_DNS_QRY_BAD_ARCOUNT else
      ret XFW_CTX_CONTINUE
  end.

(** The loop over the answers. *)
Fixpoint process_answers (n : nat) (d : XfwDnsCtx) (hdr_cur : XfwHdrCursor) : P Z :=
  match n with
  | O => ret XFW_CTX_CONTINUE
  | S n =>
      let* (odr, hdr_cur) := parse_full_dns_rr hdr_cur in
      match odr with
      | None => dns_drop d XFW_DROP_DNS_BAD_RR
      | Some dr =>
          ttl <- dr_ttl dr ;;
          if (ttl =? 0) || (MAX_TTL <? bpf_ntohl ttl)
          then dns_drop d XFW_DROP_DNS_ANSWER_ANOMALY else
          process_answers n d hdr_cur
      end
  end.

Definition process_ingress_dns_response (d : XfwDnsCtx) (dh : Z) : P Z :=
  id <- dh_id dh ;;
  s <- get ;;
  match s_dns s !! id with
  | None => dns_drop d XFW_DROP_DNS_NOT_ASKED_RESPONSE
  | Some _ =>
      if MAX_DNS_UDP_PACKET <? dc_pkt_sz d then dns_drop d XFW_DROP_DNS_LARGE_RESPONSE else
      qdcount <- dh_qdcount dh ;;
      if negb (qdcount =? bpf_htons 1) then dns_drop d XFW_DROP_DNS_MULTIPLE_QUESTIONS else
      let* (odq, hdr_cur) := parse_single_dns_question (dc_hdr_cur d) in
      match odq with
      | None => dns_drop d XFW_DROP_DNS_BAD_QUESTION
      | Some _ =>
          ancount <- dh_ancount dh ;;
          let an_count := bpf_ntohs ancount in
          if MAX_ANCOUNT <? an_count then dns_drop d XFW_DROP_DNS_RESP_ANS_OVERLIMIT else
          process_answers (Z.to_nat an_count) d hdr_cur
      end
  end.

(** The context, or an internal error. *)
Definition init_dns_ctx : P (option XfwDnsCtx) :=
  cur <- init_cursor ;;
  s <- get ;;
  match s_meta s with
  | None => ret None
  | Some md =>
      if L3_OFF_MAX + L3_L4_IPV4_UDP_HDRS_MAXLEN <? md_cur_pos md then ret None else
      let cur := advance cur (md_cur_pos md) in
      if L3_OFF_MAX <? md_ip_off md then ret None else
      let ip_hdr := DATA_BGN + md_ip_off md in
      let pkt_sz := u32 (data_end s - DATA_BGN) in
      if negb (md_is_ipv4 md =? 0) then
        if cend cur <? ip_hdr + SIZEOF_IPHDR then ret None else
        saddr <- ip4_saddr ip_hdr ;;
        ret (Some (mkDnsCtx cur (xfw_ipv4_to_ipv6_mapped saddr) pkt_sz))
      else
        if cend cur <? ip_hdr + SIZEOF_IPV6HDR then ret None else
        saddr <- ip6_saddr ip_hdr ;;
        ret (Some (mkDnsCtx cur saddr pkt_sz))
  end.

Definition ingress_dns_filter_global : P Z :=
  od <- init_dns_ctx ;;
  match od with
  | None => ret XFW_CTX_CONTINUE
  | Some d =>
      match parse_dnshdr (dc_hdr_cur d) with
      | (None, _) => dns_drop d XFW_DROP_DNS_BADHDR_INGRESS
      | (Some dh, cur) =>
          let d := mkDnsCtx cur (dc_ilog_addr d) (dc_pkt_sz d) in
          flags <- dh_flags dh ;;
          if Z.land (Z.shiftr (bpf_ntohs flags) 15) 1 =? DNS_QUERY
          then process_ingress_dns_query d dh
          else process_ingress_dns_response d dh
      end
  end.

Definition ingress_dns_filter (uh : Z) : P Z :=
  c <- get_ctx ;;
  if negb (rc_dns (rules (cfg c))) then ret XFW_CTX_CONTINUE else
  dest <- uh_dest uh ;; source <- uh_source uh ;;
  if negb (dest =? bpf_htons DNS_PORT) && negb (source =? bpf_htons DNS_PORT)
  then ret XFW_CTX_CONTINUE else
  let cur_pos := u16 (pos (hdr_cur c) - DATA_BGN) in
  if negb (ipver c =? bpf_htons ETH_P_IP) && negb (ipver c =? bpf_htons ETH_P_IPV6)
  then ret XFW_CTX_CONTINUE else
  let is_ipv4 := b2z (ipver c =? bpf_htons ETH_P_IP) in
  s <- get ;;
  match s_meta s with
  | None => ret XFW_CTX_CONTINUE
  | Some md =>
      modify (set_meta (Some (mkMetadata cur_pos (ip_off c) is_ipv4 (md_unused md)))) ;;;
      if negb (e_has_stats E) then ret XFW_CTX_CONTINUE else
      ingress_dns_filter_global
  end.

Definition egress_dns_filter (uh : Z) : P unit :=
  c <- get_ctx ;;
  if negb (rc_dns (rules (cfg c))) then ret tt else
  dest <- uh_dest uh ;; source <- uh_source uh ;;
  if negb (dest =? bpf_htons DNS_PORT) && negb (source =? bpf_htons DNS_PORT)
  then ret tt else
  let '(odh, cur) := parse_dnshdr (hdr_cur c) in
  upd_ctx (with_cur cur) ;;;
  match odh with
  | None => ret tt
  | Some dh =>
      flags <- dh_flags dh ;;
      if dns_get_qr (bpf_ntohs flags) =? DNS_QUERY then
        id <- dh_id dh ;;
        modify (fun s => set_dns (k_upd_dns_egr (e_kernel E) (s_dns s) id 0 BPF_NOEXIST).2 s)
      else ret tt
  end.
End dns.

(** ** Contracts *)

(** The name parser only writes the metadata. *)
Definition meta_only (s s' : St) : Prop := exists x, s' = set_meta x s.

#[export] Instance meta_only_preorder : PreOrder meta_only.
Proof.
  split.
  - intros s. exists (s_meta s). by destruct s.
  - intros s1 s2 s3 [x ->] [y ->]. by exists y.
Qed.

Lemma meta_only_quiet s s' : meta_only s s' -> quiet s s' /\ ctx_kept s s'.
Proof. intros [x ->]. split; auto with quietdb. Qed.

Lemma meta_only_end s s' : meta_only s s' -> data_end s' = data_end s.
Proof. by intros [x ->]. Qed.

Lemma process_label_spec c offset s :
  Forall is_byte (s_pkt s) -> cur_ok s c -> 0 <= offset ->
  wp (process_label c offset) (fun r s' => s' = s /\ 0 <= r.2) s.
Proof.
  intros Hby [Hce Hp] Ho. unfold process_label. do 2 (wp_step; [by apply wp_ret|]).
  wp_load. pose proof (loaded_range _ _ 1 _ Hby ltac:(lia) Hload) as Hr. simpl in Hr.
  repeat (wp_step; [apply wp_ret; simpl; split; [done|lia]|]).
  apply wp_ret. simpl. split; [done|lia].
Qed.

Lemma process_labels_spec n : forall c offset s,
  Forall is_byte (s_pkt s) -> cur_ok s c -> 0 <= offset ->
  wp (process_labels n c offset) (fun r s' =>
    s' = s /\ (forall o, r = Some o -> 0 <= o)) s.
Proof.
  induction n as [|n IH]; intros c offset s Hby Hc Ho; simpl; [by apply wp_ret|].
  apply wp_bind. eapply wp_mono; [by apply process_label_spec|].
  intros [r o] s' [-> Hr]. simpl in *.
  wp_step; [apply wp_ret; split; [done|]; by intros ? [= <-]|].
  wp_step; [by apply wp_ret|by apply IH].
Qed.

Section specs.
Context (E : Env) (s0 : St) (Hwf : wf s0).

Lemma meta_bytes s : meta_only s0 s -> Forall is_byte (s_pkt s).
Proof. intros [x ->]. apply Hwf. Qed.

Lemma process_dname_global_spec s md :
  meta_only s0 s -> s_meta s = Some md -> 0 <= md_cur_pos md ->
  wp process_dname_global (fun r s' => meta_only s0 s'
    /\ (r = 0 -> forall md', s_meta s' = Some md' -> 0 <= md_cur_pos md')) s.
Proof.
  intros Hs Hmd Hp. unfold process_dname_global, init_cursor.
  apply wp_bind, wp_bind, wp_get, wp_ret. apply wp_bind, wp_get. rewrite Hmd.
  wp_step; [apply wp_ret; split; [done|lia]|].
  apply wp_bind. eapply wp_mono.
  { apply process_labels_spec; [by apply meta_bytes| |lia]. split; [done|]. simpl. unfold DATA_BGN. lia. }
  intros r s' [-> Hr]. destruct r as [o|]; [|apply wp_ret; split; [done|lia]].
  apply wp_bind, wp_modify, wp_ret. split; [etrans; [exact Hs|by eexists]|].
  intros _ md' [= <-]. simpl. apply wrap_range. lia.
Qed.

Lemma process_dname_spec s cur :
  meta_only s0 s -> cend cur = data_end s0 ->
  wp (process_dname cur) (fun r s' => meta_only s0 s' /\ cend r.2 = data_end s0
    /\ (r.1 = 0 -> 0 <= pos r.2 < data_end s0)) s.
Proof.
  intros Hs Hc. unfold process_dname, DATA_BGN.
  assert (forall s1 c, meta_only s0 s1 -> cend c = data_end s0 ->
    meta_only s0 s1 /\ cend c = data_end s0 /\ (-1 = 0 -> 0 <= pos c < data_end s0)) as Herr.
  { intros. split; [done|]. split; [done|lia]. }
  apply wp_bind, wp_get. wp_step; [|apply wp_ret; by apply Herr].
  apply wp_bind, wp_modify, wp_bind. eapply wp_mono.
  { eapply process_dname_global_spec; [etrans; [exact Hs|by eexists]|done|].
    apply wrap_range. lia. }
  intros r s1 [Hm Hr]. wp_step; [apply wp_ret; by apply Herr|].
  apply wp_bind, wp_get. wp_step; [|apply wp_ret; by apply Herr].
  wp_step; [apply wp_ret; by apply Herr|]. simpl cend. simpl pos.
  wp_step; apply wp_ret; [by apply Herr|]. split; [done|]. split; [done|].
  intros _. simpl. split; [|lia]. apply Hr; [|done]. lia.
Qed.

(** A structure at the cursor is inside the packet. *)
Lemma simple_parse_spec size cur h cur' :
  simple_parse size cur = (Some h, cur') -> 
  h = pos cur /\ pos cur + size <= cend cur /\ cur' = advance cur size.
Proof.
  unfold simple_parse, cur_has. case_match eqn:Hc; [|done]. intros [= <- <-].
  split; [done|]. split; [|done]. lia.
Qed.

Lemma simple_parse_cend size cur o cur' :
  simple_parse size cur = (o, cur') -> cend cur' = cend cur.
Proof. unfold simple_parse. case_match; intros [= _ <-]; done. Qed.

Lemma parse_single_dns_question_spec s cur :
  meta_only s0 s -> cend cur = data_end s0 ->
  wp (parse_single_dns_question cur) (fun r s' => meta_only s0 s'
    /\ cend r.2 = data_end s0
    /\ (forall dq, r.1 = Some dq -> 0 <= dq /\ dq + SIZEOF_DNSQREC <= data_end s0)) s.
Proof.
  intros Hs Hc. unfold parse_single_dns_question. apply wp_bind.
  eapply wp_mono; [by apply process_dname_spec|]. intros [r c] s1 (Hm & Hce & Hr).
  simpl in *. wp_step; apply wp_ret; [by split|].
  unfold parse_dns_question_record. destruct (simple_parse _ _) as [o c'] eqn:Hp. simpl.
  split; [done|]. split; [apply simple_parse_cend in Hp; congruence|].
  intros dq ->. apply simple_parse_spec in Hp as (-> & ? & _). split; [|congruence].
  apply Hr. lia.
Qed.

Lemma parse_full_dns_rr_spec s cur :
  meta_only s0 s -> cend cur = data_end s0 ->
  wp (parse_full_dns_rr cur) (fun r s' => meta_only s0 s' /\ cend r.2 = data_end s0
    /\ (forall dr, r.1 = Some dr -> 0 <= dr /\ dr + SIZEOF_DNSRR <= data_end s0)) s.
Proof.
  intros Hs Hc. unfold parse_full_dns_rr. apply wp_bind.
  eapply wp_mono; [by apply process_dname_spec|]. intros [r c] s1 (Hm & Hce & Hr).
  simpl in *. wp_step; [by apply wp_ret|].
  unfold parse_dns_rr. destruct (simple_parse _ _) as [[dr|] c'] eqn:Hp.
  2: { apply wp_ret. apply simple_parse_cend in Hp. simpl. split; [done|].
       split; [congruence|done]. }
  pose proof (simple_parse_cend _ _ _ _ Hp) as Hce'.
  apply simple_parse_spec in Hp as (-> & Hin & ->). specialize (Hr ltac:(lia)).
  rewrite Hce in Hin. unfold dr_rdata_len, SIZEOF_DNSRR in *.
  pose proof (meta_only_end _ _ Hm) as Hde. wp_load.
  repeat (wp_step; [apply wp_ret; simpl; split; [done|]; split; [congruence|done]|]).
  apply wp_ret. simpl. split; [done|]. split; [congruence|]. intros dr [= <-]. lia.
Qed.
Lemma dns_drop_spec d reason s :
  meta_only s0 s -> wp (dns_drop E d reason) (verdict_c E s0) s.
Proof. intros [? ?]%meta_only_quiet. by apply wp_make_drop. Qed.

Lemma dns_continue_spec s :
  meta_only s0 s -> wp (ret XFW_CTX_CONTINUE) (verdict_c E s0) s.
Proof. intros [? ?]%meta_only_quiet. by apply wp_continue. Qed.

(** A load in a state that differs from [s0] in the metadata. *)
Ltac dns_load := unfold dh_id, dh_flags, dh_qdcount, dh_ancount, dh_nscount, dh_arcount,
  dq_qtype, dr_ttl, SIZEOF_DNSHDR, SIZEOF_DNSRR, SIZEOF_DNSQREC in *; wp_load.
Ltac dns_leave := first [by apply dns_drop_spec | by apply dns_continue_spec].

Lemma process_ingress_dns_query_spec d dh s :
  meta_only s0 s -> cend (dc_hdr_cur d) = data_end s0 ->
  0 <= dh -> dh + SIZEOF_DNSHDR <= data_end s0 ->
  wp (process_ingress_dns_query E d dh) (verdict_c E s0) s.
Proof.
  intros Hs Hc H0 H1. pose proof (meta_only_end _ _ Hs) as Hde.
  unfold process_ingress_dns_query. dns_load. wp_step; [dns_leave|].
  wp_step; [dns_leave|]. do 4 dns_load. do 2 (wp_step; [dns_leave|]).
  apply wp_bind. eapply wp_mono; [by apply parse_single_dns_question_spec|].
  intros [odq c] s1 (Hm & Hce & Hq). pose proof (meta_only_end _ _ Hm).
  wp_step; [|dns_leave]. destruct (Hq _ Ho). wp_step; [dns_leave|]. dns_load.
  repeat (wp_step; [dns_leave|]). dns_leave.
Qed.

Lemma process_answers_spec n : forall d cur s,
  meta_only s0 s -> cend cur = data_end s0 ->
  wp (process_answers E n d cur) (verdict_c E s0) s.
Proof.
  induction n as [|n IH]; intros d cur s Hs Hc; simpl; [dns_leave|].
  apply wp_bind. eapply wp_mono; [by apply parse_full_dns_rr_spec|].
  intros [odr c] s1 (Hm & Hce & Hq). pose proof (meta_only_end _ _ Hm).
  wp_step; [|dns_leave]. destruct (Hq _ Ho). dns_load. wp_step; [dns_leave|by apply IH].
Qed.

Lemma process_ingress_dns_response_spec d dh s :
  meta_only s0 s -> cend (dc_hdr_cur d) = data_end s0 ->
  0 <= dh -> dh + SIZEOF_DNSHDR <= data_end s0 ->
  wp (process_ingress_dns_response E d dh) (verdict_c E s0) s.
Proof.
  intros Hs Hc H0 H1. pose proof (meta_only_end _ _ Hs) as Hde.
  unfold process_ingress_dns_response. dns_load. apply wp_bind, wp_get.
  destruct (s_dns s !! _); [|dns_leave]. wp_step; [dns_leave|].
  dns_load. wp_step; [dns_leave|].
  apply wp_bind. eapply wp_mono; [by apply parse_single_dns_question_spec|].
  intros [odq c] s1 (Hm & Hce & Hq). pose proof (meta_only_end _ _ Hm).
  destruct odq; [|dns_leave]. dns_load.
  wp_step; [dns_leave|by apply process_answers_spec].
Qed.

Lemma init_dns_ctx_spec s md :
  meta_only s0 s -> s_meta s = Some md -> 0 <= md_cur_pos md -> 0 <= md_ip_off md ->
  wp init_dns_ctx (fun od s' => s' = s /\ forall d, od = Some d ->
    dc_hdr_cur d = mkCursor (md_cur_pos md) (data_end s0)) s.
Proof.
  intros Hs Hmd Hp Hi. pose proof (meta_only_end _ _ Hs) as Hde.
  unfold init_dns_ctx, init_cursor, DATA_BGN, advance.
  apply wp_bind, wp_bind, wp_get, wp_ret. apply wp_bind, wp_get. rewrite Hmd.
  simpl pos. simpl cend. do 2 (wp_step; [by apply wp_ret|]).
  wp_step; (wp_step; [by apply wp_ret|]).
  - wp_load. split; [done|]. intros d [= <-]. simpl. by rewrite Hde.
  - unfold ip6_saddr. apply wp_bind. eapply wp_mono; [apply ld_in6_spec; unfold_sizes; lia|].
    intros a s' ->. apply wp_ret. split; [done|]. intros d [= <-]. simpl. by rewrite Hde.
Qed.

Lemma ingress_dns_filter_global_spec s md :
  meta_only s0 s -> s_meta s = Some md -> 0 <= md_cur_pos md -> 0 <= md_ip_off md ->
  wp (ingress_dns_filter_global E) (verdict_c E s0) s.
Proof.
  intros Hs Hmd Hp Hi. pose proof (meta_only_end _ _ Hs) as Hde.
  unfold ingress_dns_filter_global. apply wp_bind.
  eapply wp_mono; [by eapply init_dns_ctx_spec|]. intros od s' [-> Hd].
  wp_step; [|dns_leave]. specialize (Hd _ Ho). unfold parse_dnshdr. rewrite Hd.
  destruct (simple_parse _ _) as [[dh|] cur] eqn:Hh; [|dns_leave].
  pose proof (simple_parse_cend _ _ _ _ Hh) as Hce.
  apply simple_parse_spec in Hh as (-> & Hin & ->). simpl in Hin, Hce. simpl pos.
  dns_load. wp_step;
    [apply process_ingress_dns_query_spec|apply process_ingress_dns_response_spec];
    try done; unfold SIZEOF_DNSHDR; lia.
Qed.
End specs.

Lemma ingress_dns_filter_spec E uh s :
  wf s -> 0 <= uh -> uh + SIZEOF_UDPHDR <= data_end s ->
  wp (ingress_dns_filter E uh) (verdict_c E s) s.
Proof.
  intros Hwf H0 H1. unfold ingress_dns_filter. apply wp_bind, wp_get_ctx.
  wp_step; [wp_verdict|]. do 2 wp_load. do 2 (wp_step; [wp_verdict|]).
  apply wp_bind, wp_get. wp_step; [|wp_verdict]. apply wp_bind, wp_modify.
  wp_step; [wp_verdict|]. eapply (ingress_dns_filter_global_spec E s Hwf);
    [by eexists|done|apply wrap_range; lia|apply Hwf].
Qed.

Lemma egress_dns_filter_spec E uh s :
  wf s -> 0 <= uh -> uh + SIZEOF_UDPHDR <= data_end s ->
  wp (egress_dns_filter E uh) (fun _ s' => quiet s s') s.
Proof.
  intros Hwf H0 H1. pose proof (wf_end _ Hwf) as Hce. pose proof (wf_pos _ Hwf).
  unfold egress_dns_filter, parse_dnshdr. apply wp_bind, wp_get_ctx.
  wp_step; [by apply wp_ret|]. do 2 wp_load. wp_step; [by apply wp_ret|].
  destruct (simple_parse _ _) as [odh cur] eqn:Hh.
  assert (quiet s (set_ctx (with_cur cur (s_ctx s)) s)) as Hq.
  { pose proof (simple_parse_cend _ _ _ _ Hh) as Hce'. split; try done. split; try done.
    intros []. split; try done; simpl; [by rewrite Hce'|].
    revert Hh. unfold simple_parse. case_match; intros [= _ <-]; simpl; [|done].
    unfold SIZEOF_DNSHDR. lia. }
  apply wp_bind, wp_upd_ctx. destruct odh as [dh|]; [|by apply wp_ret].
  apply simple_parse_spec in Hh as (-> & Hin & ->). rewrite Hce in Hin.
  unfold dh_flags, dh_id, SIZEOF_DNSHDR in *.
  change (data_end s) with (data_end (set_ctx (with_cur (advance (hdr_cur (s_ctx s)) 12)
    (s_ctx s)) s)) in Hin.
  wp_load. wp_step; [|by apply wp_ret]. wp_load. apply wp_modify. auto with quietdb.
Qed.
