(* ===== verification/Xdp.v ===== *)
(** * Xdp: the ingress program

    src/bpf/xdp.c: the source, ICMP and TCP flag filters, the L3 and L4 stages
    and the program [xfw_xdp]. *)

From S2P Require Import Prelude.
From S2P Require Import Enums.
From S2P Require Import Uapi.
From S2P Require Import Kernel.
From S2P Require Import Ctx.
From S2P Require Import RateLimit.
From S2P Require Import Filter.
From S2P Require Import Parsing.
From S2P Require Import TcpAnomaly.
From S2P Require Import Dst.
From S2P Require Import TcpAuth.
From S2P Require Import Syncookies.
From S2P Require Import Dns.

(** ** Buckets kept per source *)

(** A map of buckets in the state: how to read, replace and update it. *)
Record BucketMap (K : Type) `{Countable K} := mkBucketMap {
  bm_get : St -> gmap K XfwRLimitSlidingWindow;
  bm_set : gmap K XfwRLimitSlidingWindow -> St -> St;
  bm_update : Env -> MapUpdate K XfwRLimitSlidingWindow
}.
Arguments mkBucketMap {K _ _}.
Arguments bm_get {K _ _}.
Arguments bm_set {K _ _}.
Arguments bm_update {K _ _}.

Definition MAP_SRC_RATELIM_REF : BucketMap XfwIp :=
  mkBucketMap (fun s => rm_src_ratelim (s_rate s))
    (fun m s => set_rate (mkRateMaps (rm_ratelimit (s_rate s)) m (rm_src_port_rl (s_rate s))) s)
    (fun E => k_upd_src_ratelim (e_kernel E)).
Definition MAP_SRC_PORT_RL_REF : BucketMap Z :=
  mkBucketMap (fun s => rm_src_port_rl (s_rate s))
    (fun m s => set_rate (mkRateMaps (rm_ratelimit (s_rate s)) (rm_src_ratelim (s_rate s)) m) s)
    (fun E => k_upd_src_port_rl (e_kernel E)).

Section xdp.
Context (E : Env).

Definition XFW_MAP_LOOKUP_OR_INIT {K} `{Countable K} (m : BucketMap K) (k : K)
    : P (option XfwRLimitSlidingWindow) :=
  s <- get ;;
  match bm_get m s !! k with
  | Some b => ret (Some b)
  | None =>
      modify (fun s => bm_set m (bm_update m E (bm_get m s) k zero_window BPF_NOEXIST).2 s) ;;;
      s <- get ;; ret (bm_get m s !! k)
  end.

(** [xfw_is_within_rlimit] on the bucket that the lookup of [k] returned. *)
Definition within_rlimit_at {K} `{Countable K} (m : BucketMap K) (k : K)
    (b : XfwRLimitSlidingWindow) (idx : Z) : P bool :=
  c <- get_ctx ;;
  rate <- arr_get (named_rates (cfg c)) idx ;;
  let '(ok, b') := xfw_is_within_rlimit c rate b in
  modify (fun s => bm_set m (<[k := b']> (bm_get m s)) s) ;;;
  ret ok.

(** The rate-limit branch of the source filters: the bucket of [k] against the
    named rate [idx]. *)
Definition src_rate_limit {K} `{Countable K} (m : BucketMap K) (k : K) (idx : Z)
    (reason : XfwDropStat) : P Z :=
  ob <- XFW_MAP_LOOKUP_OR_INIT m k ;;
  match ob with
  | None => XFW_ASSERT E false (ret XFW_CTX_CONTINUE)
  | Some b =>
      XFW_ASSERT E (idx <? XFW_MAX_NAMED_RATELIMITS) (
      ok <- within_rlimit_at m k b idx ;;
      if ok then ret XFW_CTX_CONTINUE else XFW_MAKE_CTX_DROP E reason)
  end.

Definition create_metadata : P Z :=
  c <- get_ctx ;;
  if negb (e_dns_mode E) || negb (rc_dns (rules (cfg c))) then ret XFW_CTX_CONTINUE else
  match e_adjust_meta E with
  | None => XFW_MAKE_CTX_PASS E XFW_METADATA_CREATION_FAILED
  | Some md =>
      modify (set_meta (Some md)) ;;;
      cur <- init_cursor ;;
      upd_ctx (with_cur cur) ;;;
      ret XFW_CTX_CONTINUE
  end.

(** ** Filters *)

Definition icmp_default_by_proto (proto : Z) : DefaultIndex :=
  if proto =? XFW_L4_PROTO_ICMP then XFW_DEFAULT_ICMP_IP4 else XFW_DEFAULT_ICMP_IP6.

Definition icmp_filter (key : XfwIcmpKey) : P Z :=
  c <- get_ctx ;;
  match SELECT_SHADOW_MAP (map_icmp (e_rules E)) (amap_icmp (cfg c)) !! key with
  | None =>
      let default_rule := rc_defaults (rules (cfg c)) (icmp_default_by_proto (icmp_proto key)) in
      if action default_rule =? XFW_ACTION_BLOCK
      then XFW_MAKE_CTX_DROP E XFW_DROP_ICMP_DEFAULT_BLOCKED else
      if action default_rule =? XFW_ACTION_ALLOW then ret XFW_CTX_CONTINUE else
      XFW_ASSERT E (action default_rule =? XFW_ACTION_RATE_LIMIT) (
      ok <- xfw_is_allowed_by_rlimits (rlimit default_rule) ;;
      if ok then ret XFW_CTX_CONTINUE else
      XFW_MAKE_CTX_DROP E XFW_DROP_ICMP_DEFAULT_RATE_LIMITED)
  | Some rule =>
      if action rule =? XFW_ACTION_BLOCK
      then XFW_MAKE_CTX_DROP E XFW_DROP_ICMP_BLOCKED else
      if action rule =? XFW_ACTION_ALLOW then ret XFW_CTX_CONTINUE else
      XFW_ASSERT E (action rule =? XFW_ACTION_RATE_LIMIT) (
      ok <- xfw_is_allowed_by_rlimits (rlimit rule) ;;
      if ok then ret XFW_CTX_CONTINUE else
      XFW_MAKE_CTX_DROP E XFW_DROP_ICMP_RATE_LIMITED)
  end.

Definition src_port_default_by_protos (ipver l4_proto : Z) : DefaultIndex :=
  if ipver =? bpf_ntohs ETH_P_IP then
    if l4_proto =? XFW_L4_PROTO_TCP then XFW_DEFAULT_SRC_PORT_TCP_IP4
    else XFW_DEFAULT_SRC_PORT_UDP_IP4
  else
    if l4_proto =? XFW_L4_PROTO_TCP then XFW_DEFAULT_SRC_PORT_TCP_IP6
    else XFW_DEFAULT_SRC_PORT_UDP_IP6.

Definition src_filter_port (port : Z) : P Z :=
  c <- get_ctx ;;
  let maps := if l4_proto c =? XFW_L4_PROTO_UDP then map_src_p_udp (e_rules E)
              else map_src_p_tcp (e_rules E) in
  match SELECT_SHADOW_MAP maps (amap_src (cfg c)) !! port with
  | None =>
      let default_rule := rc_defaults (rules (cfg c))
                            (src_port_default_by_protos (ipver c) (l4_proto c)) in
      if action default_rule =? XFW_ACTION_BLOCK
      then XFW_MAKE_CTX_DROP E XFW_DROP_SRC_PORT_DEFAULT_BLOCKED else
      if action default_rule =? XFW_ACTION_ALLOW then ret XFW_CTX_CONTINUE else
      XFW_ASSERT E (action default_rule =? XFW_ACTION_RATE_LIMIT) (
      src_rate_limit MAP_SRC_PORT_RL_REF port (named_idx (rlimit default_rule))
        XFW_DROP_SRC_PORT_DEFAULT_RATE_LIMITED)
  | Some rule =>
      if src_action rule =? XFW_ACTION_BLOCK
      then XFW_MAKE_CTX_DROP E XFW_DROP_SRC_PORT_BLOCKED else
      if src_action rule =? XFW_ACTION_ALLOW
      then XFW_MAKE_CTX_PASS E XFW_SRC_PORT_ALLOWED else
      XFW_ASSERT E (src_action rule =? XFW_ACTION_RATE_LIMIT) (
      src_rate_limit MAP_SRC_PORT_RL_REF port (src_named_idx rule)
        XFW_DROP_SRC_PORT_RATE_LIMITED)
  end.

(** The lookup in the map that [populate_src_info] selects, and the default.
    The key is a union; a key of the other family is a fault. *)
Definition populate_src_info (c : XfwGlobalCtx) (ip_lpm : XfwIpLpmKey)
    : P (option XfwSrcRule * DefaultIndex) :=
  if ipver c =? bpf_htons ETH_P_IPV6 then
    let '(maps, d) :=
      if l4_proto c =? XFW_L4_PROTO_UDP
      then (map_src_6_udp (e_rules E), XFW_DEFAULT_SRC_IP_UDP_IP6)
      else (map_src_6_tcp (e_rules E), XFW_DEFAULT_SRC_IP_TCP_IP6) in
    a <- get_opt (match ip_lpm with LPM_ADDR6 k => Some (lpm_addr6 k) | _ => None end) ;;
    ret (k_lpm6 (e_kernel E) (SELECT_SHADOW_MAP maps (amap_src (cfg c))) a, d)
  else
    let '(maps, d) :=
      if l4_proto c =? XFW_L4_PROTO_UDP
      then (map_src_4_udp (e_rules E), XFW_DEFAULT_SRC_IP_UDP_IP4)
      else (map_src_4_tcp (e_rules E), XFW_DEFAULT_SRC_IP_TCP_IP4) in
    a <- get_opt (match ip_lpm with LPM_ADDR4 k => Some (lpm_addr4 k) | _ => None end) ;;
    ret (k_lpm4 (e_kernel E) (SELECT_SHADOW_MAP maps (amap_src (cfg c))) a, d).

Definition src_filter_ip (ip_lpm : XfwIpLpmKey) : P Z :=
  c <- get_ctx ;;
  let* (orule, src_default) := populate_src_info c ip_lpm in
  match orule with
  | Some rule =>
      if src_action rule =? XFW_ACTION_BLOCK
      then XFW_MAKE_CTX_DROP E XFW_DROP_SRC_IP_BLOCKED else
      if src_action rule =? XFW_ACTION_ALLOW
      then XFW_MAKE_CTX_PASS E XFW_SRC_IP_ALLOWED else
      XFW_ASSERT E (src_action rule =? XFW_ACTION_RATE_LIMIT) (
      src_rate_limit MAP_SRC_RATELIM_REF (ilog_addr c) (src_named_idx rule)
        XFW_DROP_SRC_IP_RATE_LIMITED)
  | None =>
      let default_rule := rc_defaults (rules (cfg c)) src_default in
      if action default_rule =? XFW_ACTION_BLOCK
      then XFW_MAKE_CTX_DROP E XFW_DROP_SRC_IP_DEFAULT_BLOCKED else
      if action default_rule =? XFW_ACTION_ALLOW then ret XFW_CTX_CONTINUE else
      XFW_ASSERT E (action default_rule =? XFW_ACTION_RATE_LIMIT) (
      src_rate_limit MAP_SRC_RATELIM_REF (ilog_addr c) (named_idx (rlimit default_rule))
        XFW_DROP_SRC_IP_DEFAULT_RATE_LIMITED)
  end.

Definition src_filter (src_port : Z) (src_ip_key : XfwIpLpmKey) : P Z :=
  CHAIN (src_filter_ip src_ip_key) (
  CHAIN (src_filter_port src_port) (
  ret XFW_CTX_CONTINUE)).

Definition rst_rlimit : P Z :=
  c <- get_ctx ;;
  let rule := rc_tcp_flags (rules (cfg c)) XFW_FLAGS_FILTER_RST in
  if negb (action rule =? XFW_ACTION_RATE_LIMIT) then ret XFW_CTX_CONTINUE else
  ok <- xfw_is_allowed_by_rlimits (rlimit rule) ;;
  if ok then ret XFW_CTX_CONTINUE else XFW_MAKE_CTX_DROP E XFW_DROP_RST_RATE_LIMITED.

Definition syn_rlimit : P Z :=
  c <- get_ctx ;;
  let rule := rc_tcp_flags (rules (cfg c)) XFW_FLAGS_FILTER_SYN in
  if negb (action rule =? XFW_ACTION_RATE_LIMIT) then ret XFW_CTX_CONTINUE else
  XFW_ASSERT E (action rule =? XFW_ACTION_RATE_LIMIT) (
  ok <- xfw_is_allowed_by_rlimits (rlimit rule) ;;
  if ok then ret XFW_CTX_CONTINUE else XFW_MAKE_CTX_DROP E XFW_DROP_SYN_RATE_LIMITED).

(** ** L3 *)

(** The verdict of a stage that leaves the source key empty. *)
Definition no_key (m : P Z) : P (Z * XfwIpLpmKey) := r <- m ;; ret (r, LPM_NONE).

(** The verdict and [src_ip_key]. *)
Definition in_process_l3 : P (Z * XfwIpLpmKey) :=
  c <- get_ctx ;;
  if ipver c =? bpf_ntohs ETH_P_IP then
    count_traffic_stat XFW_IP4_TOTAL_INGRESS ;;;
    let* (proto, iph4) := on_cur parse_iphdr in
    if proto <? 0 then no_key (XFW_MAKE_CTX_DROP E XFW_DROP_IP4_BADHDR_INGRESS) else
    saddr <- ip4_saddr iph4 ;;
    upd_ctx (with_ilog_addr (xfw_ipv4_to_ipv6_mapped saddr)) ;;;
    frag_off <- ip4_frag_off iph4 ;;
    if negb (Z.land (bpf_htons frag_off) 0x3fff =? 0)
    then no_key (XFW_MAKE_CTX_DROP E XFW_DROP_IP4_FRAGMENTED_INGRESS) else
    let ip_off := iph4 - DATA_BGN in
    if negb ((0 <=? ip_off) && (ip_off <=? L3_OFF_MAX))
    then no_key (XFW_MAKE_CTX_PASS E XFW_ASSERT_FAILED) else
    upd_ctx (with_ip_off (u8 ip_off)) ;;;
    upd_ctx (with_l4_proto (u8 proto)) ;;;
    ret (XFW_CTX_CONTINUE, ipv4_populate_lpm_key saddr)
  else if ipver c =? bpf_ntohs ETH_P_IPV6 then
    count_traffic_stat XFW_IP6_TOTAL_INGRESS ;;;
    let* (r, iph6) := on_cur parse_ip6hdr in
    if negb (r =? 0) then no_key (XFW_MAKE_CTX_DROP E XFW_DROP_IP6_BADHDR_INGRESS) else
    saddr <- ip6_saddr iph6 ;;
    upd_ctx (with_ilog_addr saddr) ;;;
    nexthdr <- ip6_nexthdr iph6 ;;
    proto <- on_cur (fun cur => skip_ip6hdrext cur nexthdr) ;;
    if proto <? 0 then
      if proto =? - EFBIG
      then no_key (XFW_MAKE_CTX_DROP E XFW_DROP_IP6_FRAGMENTED_INGRESS)
      else no_key (XFW_MAKE_CTX_DROP E XFW_DROP_IP6_BADHDR_INGRESS)
    else
    let ip_off := iph6 - DATA_BGN in
    if negb ((0 <=? ip_off) && (ip_off <=? L3_OFF_MAX))
    then no_key (XFW_MAKE_CTX_PASS E XFW_ASSERT_FAILED) else
    upd_ctx (with_ip_off (u8 ip_off)) ;;;
    upd_ctx (with_l4_proto (u8 proto)) ;;;
    ret (XFW_CTX_CONTINUE, ipv6_populate_lpm_key saddr)
  else if ipver c =? bpf_ntohs ETH_P_ARP then
    no_key (XFW_MAKE_CTX_PASS E XFW_ARP_INGRESS)
  else no_key (XFW_MAKE_CTX_DROP E XFW_DROP_L2_UNKNOWN_INGRESS).

(** ** TCP *)

Definition tcp_rcv_syn_filter (th : Z) : P Z :=
  c <- get_ctx ;;
  CHAIN syn_rlimit (
  if (e_deployment_mode E =? XFW_MODE_HOST) && sc_enabled (rc_syncookie (rules (cfg c)))
  then CHAIN (tcp_syncookies_syn_filter E th) (ret XFW_CTX_CONTINUE)
  else ret XFW_CTX_CONTINUE).

Definition tcp_rcv_ack_filter (th : Z) (addr : XfwSockAddr) : P Z :=
  c <- get_ctx ;;
  if negb (e_deployment_mode E =? XFW_MODE_HOST)
     || negb (sc_enabled (rc_syncookie (rules (cfg c))))
  then tcp_auth_conn_ingress_filter E addr TCP_AUTH_EVENT_NORMAL else
  ots <- tcp_get_tcp_syncookie_ts ;;
  match ots with
  | None => XFW_ASSERT E false (ret XFW_CTX_CONTINUE)
  | Some ts =>
      flood <- tcp_syncookies_flood_mode c ts ;;
      if negb flood then tcp_auth_conn_ingress_filter E addr TCP_AUTH_EVENT_NORMAL else
      trusted <- (if rc_tcp_auth (rules (cfg c)) then tcp_auth_has_conn_trusted E c addr
                  else ret false) ;;
      if trusted then ret XFW_CTX_CONTINUE else
      CHAIN (tcp_syncookies_ack_filter E th) (
      tcp_auth_conn_add E addr ;;;
      ret XFW_CTX_CONTINUE)
  end.

Definition tcp_flags_filter (th : Z) (addr : XfwSockAddr) : P Z :=
  fin <- th_fin th ;;
  if fin then
    count_traffic_stat XFW_FIN ;;;
    tcp_auth_conn_ingress_filter E addr TCP_AUTH_EVENT_FIN
  else
  rst <- th_rst th ;;
  if rst then
    count_traffic_stat XFW_RST ;;;
    CHAIN (tcp_auth_conn_ingress_filter E addr TCP_AUTH_EVENT_RST) rst_rlimit
  else
  syn <- th_syn th ;;
  ack <- th_ack th ;;
  if syn && ack then
    count_traffic_stat XFW_SYNACK ;;;
    tcp_auth_conn_ingress_filter E addr TCP_AUTH_EVENT_NORMAL
  else if syn then
    count_traffic_stat XFW_SYN ;;;
    tcp_rcv_syn_filter th
  else if ack then
    count_traffic_stat XFW_ACK ;;;
    tcp_rcv_ack_filter th addr
  else tcp_auth_conn_ingress_filter E addr TCP_AUTH_EVENT_NORMAL.

(** ** L4 *)

Definition in_process_l4 (src_ip_key : XfwIpLpmKey) : P Z :=
  c <- get_ctx ;;
  supported <- bpf_bitset64_test (rc_ip_proto (rules (cfg c))) (l4_proto c) ;;
  if negb supported then XFW_MAKE_CTX_DROP E XFW_DROP_L4_UNSUPPORTED_INGRESS else
  if l4_proto c =? XFW_L4_PROTO_TCP then
    count_traffic_stat XFW_TCP_TOTAL_INGRESS ;;;
    let* (r, th) := on_cur parse_tcphdr in
    if r <=? 0 then XFW_MAKE_CTX_DROP E XFW_DROP_TCP_BADHDR_INGRESS else
    let l4_off := th - DATA_BGN in
    if (l4_off <? 0) || (L4_OFF_MAX <? l4_off)
    then XFW_MAKE_CTX_DROP E XFW_DROP_TCP_BADHDR_INGRESS else
    upd_ctx (with_l4_off (u16 l4_off)) ;;;
    CHAIN (tcp_anomaly_filter E th) (
    source <- th_source th ;;
    CHAIN (src_filter source src_ip_key) (
    c <- get_ctx ;;
    source <- th_source th ;;
    tcp_flags_filter th (mkSockAddr (ilog_addr c) source)))
  else if l4_proto c =? XFW_L4_PROTO_UDP then
    count_traffic_stat XFW_UDP_TOTAL_INGRESS ;;;
    let* (r, uh) := on_cur parse_udphdr in
    if r <=? 0 then XFW_MAKE_CTX_DROP E XFW_DROP_UDP_BADHDR_INGRESS else
    let l4_off := uh - DATA_BGN in
    if (l4_off <? 0) || (L4_OFF_MAX <? l4_off)
    then XFW_MAKE_CTX_DROP E XFW_DROP_UDP_BADHDR_INGRESS else
    upd_ctx (with_l4_off (u16 l4_off)) ;;;
    source <- uh_source uh ;; dest <- uh_dest uh ;;
    if (source =? 0) || (dest =? 0)
    then XFW_MAKE_CTX_DROP E XFW_DROP_UDP_ANOM_ZERO_PORT else
    CHAIN (if e_dns_mode E then ingress_dns_filter E uh else ret XFW_CTX_CONTINUE) (
    source <- uh_source uh ;;
    src_filter source src_ip_key)
  else if (l4_proto c =? XFW_L4_PROTO_ICMP) || (l4_proto c =? XFW_L4_PROTO_ICMPV6) then
    count_traffic_stat XFW_ICMP_TOTAL_INGRESS ;;;
    let* (r, ih) := on_cur (fun cur => parse_icmphdr_common cur (l4_proto c)) in
    if r <? 0 then XFW_MAKE_CTX_DROP E XFW_DROP_ICMP_BADHDR_INGRESS else
    ty <- ld8 ih ;;
    CHAIN (icmp_filter (mkIcmpKey (l4_proto c) ty)) (
    CHAIN (src_filter_ip src_ip_key) (
    ret (XFW_CTX_PASS E)))
  else if l4_proto c =? XFW_L4_PROTO_GRE then XFW_MAKE_CTX_PASS E XFW_GRE_INGRESS
  else XFW_MAKE_CTX_PASS E XFW_SUPPORTED_PROTOCOL_INGRESS.

(** ** The program *)

(** [CHAIN_PASS_ALL] on the verdict [r], with the code at label [pass]. *)
Definition CHAIN_PASS_ALL (r : Z) (pass rest : P Z) : P Z :=
  if r =? XFW_CTX_CONTINUE then rest else
  if r =? XFW_CTX_PASS E then pass else ret r.

Definition xfw_xdp_filter : P Z :=
  count_traffic_stat XFW_TOTAL_DOWNSTREAM_INGRESS ;;;
  c <- get_ctx ;;
  if negb (rules_active (cfg c)) then
    count_traffic_stat XFW_PASSED_DOWNSTREAM_INGRESS ;;;
    XFW_MAKE_CTX_PASS E XFW_PRELOAD_INGRESS
  else
  v <- on_cur parse_ethhdr ;;
  if v <? 0 then XFW_MAKE_CTX_DROP E XFW_DROP_ETH_BADHDR_INGRESS else
  upd_ctx (with_ipver (u16 v)) ;;;
  let pass := count_traffic_stat XFW_PASSED_DOWNSTREAM_INGRESS ;;; ret (XFW_CTX_PASS E) in
  let* (r, src_ip_key) := in_process_l3 in
  CHAIN_PASS_ALL r pass (
  r <- in_process_l4 src_ip_key ;;
  CHAIN_PASS_ALL r pass (
  r <- xfw_dst_filter E ;;
  CHAIN_PASS_ALL r pass pass)).

(** The program on a packet; [s] holds the packet and the maps, its context is
    set up by [xfw_ctx_init]. *)
Definition xfw_xdp : P Z :=
  match e_cfg E with
  | None => ret (XFW_CTX_PASS E)
  | Some cfg0 =>
      if negb (e_has_stats E) then ret (XFW_CTX_PASS E) else
      modify (fun s => set_ctx (xfw_ctx_init E cfg0 (data_end s)) s) ;;;
      r <- create_metadata ;;
      r <- (if r =? XFW_CTX_CONTINUE then xfw_xdp_filter else ret r) ;;
      c <- get_ctx ;;
      ret (finalize_result E c r)
  end.
End xdp.
