(* ===== verification/XdpSpec.v ===== *)
(** * XdpSpec: the contract of the ingress program

    Every filter and stage of [Xdp] satisfies the contract of [Verdict], and so
    does the program. *)

From S2P Require Import Prelude.
From S2P Require Import Enums.
From S2P Require Import Uapi.
From S2P Require Import Kernel.
From S2P Require Import Ctx.
From S2P Require Import IncidentLog.
From S2P Require Import RateLimit.
From S2P Require Import Filter.
From S2P Require Import Verdict.
From S2P Require Import Parsing.
From S2P Require Import TcpAnomaly.
From S2P Require Import Dst.
From S2P Require Import TcpAuth.
From S2P Require Import Syncookies.
From S2P Require Import SyncookiesSpec.
From S2P Require Import Dns.
From S2P Require Import Xdp.

(** ** Updates of the context *)

Lemma quiet_ctx s s1 c :
  quiet s s1 -> cfg c = cfg (s_ctx s1) -> pkt_sz c = pkt_sz (s_ctx s1) ->
  ts_jiff c = ts_jiff (s_ctx s1) -> (wf s1 -> wf (set_ctx c s1)) ->
  quiet s (set_ctx c s1).
Proof. intros Hq H1 H2 H3 H4. etrans; [exact Hq|]. split; [by split|done..]. Qed.

Lemma quiet_with_cur s s1 cur :
  quiet s s1 -> cur_ok s1 cur -> quiet s (set_ctx (with_cur cur (s_ctx s1)) s1).
Proof. intros Hq [? ?]. apply quiet_ctx; try done. intros []. by split. Qed.
Lemma quiet_with_ilog s s1 a :
  quiet s s1 -> quiet s (set_ctx (with_ilog_addr a (s_ctx s1)) s1).
Proof. intros Hq. apply quiet_ctx; try done. intros []. by split. Qed.
Lemma quiet_with_ipver s s1 v :
  quiet s s1 -> quiet s (set_ctx (with_ipver v (s_ctx s1)) s1).
Proof. intros Hq. apply quiet_ctx; try done. intros []. by split. Qed.
Lemma quiet_with_l4_proto s s1 v :
  quiet s s1 -> quiet s (set_ctx (with_l4_proto v (s_ctx s1)) s1).
Proof. intros Hq. apply quiet_ctx; try done. intros []. by split. Qed.
Lemma quiet_with_l4_off s s1 w o : 0 <= w ->
  quiet s s1 -> quiet s (set_ctx (with_l4_off (wrap w o) (s_ctx s1)) s1).
Proof.
  intros Hw Hq. apply quiet_ctx; try done. intros []. split; try done.
  apply wrap_range. lia.
Qed.
Lemma quiet_with_ip_off s s1 w o : 0 <= w ->
  quiet s s1 -> quiet s (set_ctx (with_ip_off (wrap w o) (s_ctx s1)) s1).
Proof.
  intros Hw Hq. apply quiet_ctx; try done. intros []. split; try done.
  apply wrap_range. lia.
Qed.

#[export] Hint Resolve quiet_with_ilog quiet_with_ipver quiet_with_l4_proto : quietdb.
#[export] Hint Extern 1 (quiet _ (set_ctx (with_l4_off _ _) _)) =>
  (apply quiet_with_l4_off; [lia|]) : quietdb.
#[export] Hint Extern 1 (quiet _ (set_ctx (with_ip_off _ _) _)) =>
  (apply quiet_with_ip_off; [lia|]) : quietdb.

(** A verdict reached after quiet steps, the context being changed. *)
Lemma wp_after E f s s1 :
  quiet s s1 -> wp f (verdict_c E s1) s1 -> wp f (verdict E s) s1.
Proof.
  intros Hq Hf. eapply wp_mono; [exact Hf|]. intros r s2 [Hv _].
  by eapply quiet_verdict.
Qed.

Section filters.
Context (E : Env).

(** ** Source filters *)

(** A bucket map only changes the buckets. *)
Definition bucket_map_ok {K} `{Countable K} (m : BucketMap K) : Prop :=
  forall x s, exists r, bm_set m x s = set_rate r s.

Lemma src_ratelim_ok : bucket_map_ok MAP_SRC_RATELIM_REF.
Proof. intros x s. by eexists. Qed.
Lemma src_port_rl_ok : bucket_map_ok MAP_SRC_PORT_RL_REF.
Proof. intros x s. by eexists. Qed.

Section buckets.
Context {K : Type} `{Countable K} (m : BucketMap K) (Hm : bucket_map_ok m).

Lemma lookup_or_init_spec k s :
  wp (XFW_MAP_LOOKUP_OR_INIT E m k) (fun _ s' => quiet s s' /\ ctx_kept s s') s.
Proof.
  unfold XFW_MAP_LOOKUP_OR_INIT. apply wp_bind, wp_get. wp_step; [by apply wp_ret|].
  apply wp_bind, wp_modify, wp_bind, wp_get, wp_ret.
  destruct (Hm (bm_update m E (bm_get m s) k zero_window BPF_NOEXIST).2 s) as [r ->].
  split; auto with quietdb.
Qed.

Lemma within_rlimit_at_spec k b idx s :
  wf s -> (idx <? XFW_MAX_NAMED_RATELIMITS) = true ->
  wp (within_rlimit_at m k b idx) (fun _ s' => quiet s s' /\ ctx_kept s s') s.
Proof.
  intros Hwf Hidx. unfold within_rlimit_at. apply wp_bind, wp_get_ctx, wp_bind.
  apply wp_arr_get.
  { pose proof (wf_named_rates _ (wf_cfg _ Hwf)). unfold XFW_MAX_NAMED_RATELIMITS in *. lia. }
  intros rate _. destruct (xfw_is_within_rlimit _ _ _) as [ok b'].
  apply wp_bind, wp_modify, wp_ret.
  destruct (Hm (<[k:=b']> (bm_get m s)) s) as [r ->]. split; auto with quietdb.
Qed.

Lemma src_rate_limit_spec k idx reason s :
  wf s -> wp (src_rate_limit E m k idx reason) (verdict_c E s) s.
Proof.
  intros Hwf. unfold src_rate_limit. apply wp_bind.
  eapply wp_mono; [apply lookup_or_init_spec|]. intros ob s1 [Hq Hc].
  wp_step; [|apply wp_assert; intros _; wp_verdict].
  apply wp_assert; intros Hidx; [wp_verdict|]. apply wp_bind.
  eapply wp_mono; [apply within_rlimit_at_spec; eauto with quietdb|].
  intros ok s2 [Hq2 Hc2]. assert (quiet s s2) by (by etrans).
  assert (ctx_kept s s2) by (by etrans). wp_step; wp_verdict.
Qed.
End buckets.

Lemma src_filter_port_spec port s :
  wf s -> wp (src_filter_port E port) (verdict_c E s) s.
Proof.
  intros Hwf. unfold src_filter_port. apply wp_bind, wp_get_ctx.
  wp_step; do 2 (wp_step; [wp_verdict|]); (apply wp_assert; intros _; [wp_verdict|]);
    apply src_rate_limit_spec; auto using src_port_rl_ok.
Qed.

(** The key is of the family of the packet. *)
Definition key_ok (c : XfwGlobalCtx) (key : XfwIpLpmKey) : Prop :=
  if ipver c =? bpf_htons ETH_P_IPV6 then exists k, key = LPM_ADDR6 k
  else exists k, key = LPM_ADDR4 k.

Lemma populate_src_info_spec key s :
  key_ok (s_ctx s) key ->
  wp (populate_src_info E (s_ctx s) key) (fun _ s' => s' = s) s.
Proof.
  unfold key_ok, populate_src_info. destruct (_ =? _); intros [k ->];
    destruct (l4_proto _ =? _); by apply wp_bind.
Qed.

Lemma src_filter_ip_spec key s :
  wf s -> key_ok (s_ctx s) key -> wp (src_filter_ip E key) (verdict_c E s) s.
Proof.
  intros Hwf Hk. unfold src_filter_ip. apply wp_bind, wp_get_ctx, wp_bind.
  eapply wp_mono; [by apply populate_src_info_spec|]. intros [o d] s' ->.
  wp_step; do 2 (wp_step; [wp_verdict|]); (apply wp_assert; intros _; [wp_verdict|]);
    apply src_rate_limit_spec; auto using src_ratelim_ok.
Qed.

Lemma src_filter_spec port key s :
  wf s -> key_ok (s_ctx s) key -> wp (src_filter E port key) (verdict_c E s) s.
Proof.
  intros Hwf Hk. unfold src_filter. apply wp_chain; [by apply src_filter_ip_spec|].
  intros s1 Hq Hc. apply wp_call; [done..|]. apply wp_chain.
  - apply src_filter_port_spec. eauto with quietdb.
  - intros s2 ? ?. wp_verdict.
Qed.

Lemma icmp_filter_spec key s : wf s -> wp (icmp_filter E key) (verdict_c E s) s.
Proof.
  intros Hwf. unfold icmp_filter. apply wp_bind, wp_get_ctx.
  wp_step; by apply action_rule_spec.
Qed.

Lemma rst_rlimit_spec s : wf s -> wp (rst_rlimit E) (verdict_c E s) s.
Proof.
  intros Hwf. unfold rst_rlimit. apply wp_bind, wp_get_ctx. wp_step; [wp_verdict|].
  apply wp_bind. eapply wp_mono; [by apply allowed_by_rlimits_spec|].
  intros ok s1 [? ?]. wp_step; wp_verdict.
Qed.

Lemma syn_rlimit_spec s : wf s -> wp (syn_rlimit E) (verdict_c E s) s.
Proof.
  intros Hwf. unfold syn_rlimit. apply wp_bind, wp_get_ctx. wp_step; [wp_verdict|].
  apply wp_assert; intros _; [wp_verdict|].
  apply wp_bind. eapply wp_mono; [by apply allowed_by_rlimits_spec|].
  intros ok s1 [? ?]. wp_step; wp_verdict.
Qed.
End filters.

(** ** TCP *)

Section tcp.
Context (E : Env) `{!KernelSpec (e_kernel E)} (Hhook : e_hook E = HOOK_XDP).

Lemma wf_after s s1 : wf s -> quiet s s1 -> wf s1 /\ data_end s1 = data_end s.
Proof.
  intros Hwf Hq. split; [by eapply quiet_wf|]. unfold data_end.
  by rewrite (fr_len _ _ (qt_frame _ _ Hq)).
Qed.

Lemma tcp_rcv_syn_filter_spec th s :
  wf s -> 0 <= th -> th + SIZEOF_TCPHDR <= data_end s ->
  wp (tcp_rcv_syn_filter E th) (verdict_c E s) s.
Proof.
  intros Hwf H0 H1. unfold tcp_rcv_syn_filter. apply wp_bind, wp_get_ctx.
  apply wp_chain; [by apply syn_rlimit_spec|]. intros s1 Hq Hc.
  destruct (wf_after s s1) as [Hw1 He1]; [done..|].
  wp_step; [|wp_verdict]. apply andb_true_iff in Hb as [Hm Hs].
  apply wp_call; [done..|]. apply wp_chain; [|intros; wp_verdict].
  apply tcp_syncookies_syn_filter_spec; try done; [lia| |].
  - by apply Z.eqb_eq.
  - by rewrite (fr_cfg _ _ (qt_frame _ _ Hq)).
Qed.

Lemma has_conn_trusted_spec c addr s :
  wp (tcp_auth_has_conn_trusted E c addr) (fun _ s' => s' = s) s.
Proof.
  unfold tcp_auth_has_conn_trusted. apply wp_bind, wp_bind, wp_get, wp_ret.
  by destruct (_ !! _).
Qed.

Lemma tcp_rcv_ack_filter_spec th addr s :
  wf s -> 0 <= th -> th + SIZEOF_TCPHDR <= data_end s ->
  wp (tcp_rcv_ack_filter E th addr) (verdict_c E s) s.
Proof.
  intros Hwf H0 H1. unfold tcp_rcv_ack_filter. apply wp_bind, wp_get_ctx.
  wp_step; [apply tcp_auth_conn_ingress_filter_spec|].
  apply wp_bind, wp_bind, wp_get, wp_ret.
  wp_step; [|apply wp_assert; intros _; wp_verdict].
  apply wp_bind. wp_apply flood_mode_spec. intros flood s' [ts ->].
  set (s1 := set_cookie_ts ts s). assert (quiet s s1) as Hq by (unfold s1; auto with quietdb).
  wp_step; [apply wp_call; [done..|apply tcp_auth_conn_ingress_filter_spec]|].
  apply wp_bind. apply (wp_mono _ (fun _ s' => s' = s1)).
  { destruct (rc_tcp_auth _); [apply has_conn_trusted_spec|done]. }
  intros trusted s' ->. wp_step; [wp_verdict|]. apply wp_call; [done..|].
  apply wp_chain; [apply tcp_syncookies_ack_filter_spec; [by eapply quiet_wf|done..]|].
  intros s2 Hq2 Hc2. apply wp_bind, wp_modify. wp_verdict.
Qed.

Lemma tcp_flags_filter_spec th addr s :
  wf s -> 0 <= th -> th + SIZEOF_TCPHDR <= data_end s ->
  wp (tcp_flags_filter E th addr) (verdict_c E s) s.
Proof.
  intros Hwf H0 H1. unfold tcp_flags_filter.
  assert (forall t, dir_stat t = false -> quiet s (traffic_counted t s)) as Hq
    by (intros; by apply quiet_traffic_counted).
  assert (forall t, dir_stat t = false -> wf (traffic_counted t s)) as Hw
    by (intros; eapply quiet_wf; [by apply Hq|done]).
  wp_load. wp_step.
  { apply wp_bind, wp_count_traffic, wp_call; [by apply Hq|done|].
    apply tcp_auth_conn_ingress_filter_spec. }
  wp_load. wp_step.
  { apply wp_bind, wp_count_traffic, wp_call; [by apply Hq|done|].
    apply wp_chain; [apply tcp_auth_conn_ingress_filter_spec|].
    intros s1 Hq1 Hc1. apply wp_call; [done..|]. apply rst_rlimit_spec.
    eapply quiet_wf; [done|]. by apply Hw. }
  do 2 wp_load. wp_step; [|wp_step; [|wp_step]].
  1-3: apply wp_bind, wp_count_traffic, wp_call; [by apply Hq|done|].
  - apply tcp_auth_conn_ingress_filter_spec.
  - apply tcp_rcv_syn_filter_spec; [by apply Hw|done..].
  - apply tcp_rcv_ack_filter_spec; [by apply Hw|done..].
  - apply tcp_auth_conn_ingress_filter_spec.
Qed.
End tcp.

(** ** L3 *)

Section l3.
Context (E : Env).

(** The contract of the L3 stage: the key and the protocol it leaves. *)
Definition l3_post (s : St) (res : Z * XfwIpLpmKey) (s' : St) : Prop :=
  verdict E s res.1 s'
  /\ (res.1 = XFW_CTX_CONTINUE ->
      key_ok (s_ctx s') res.2 /\ 0 <= l4_proto (s_ctx s') < 256).

Lemma l3_drop reason s s1 :
  quiet s s1 -> wp (no_key (XFW_MAKE_CTX_DROP E reason)) (l3_post s) s1.
Proof.
  intros Hq. unfold no_key. apply wp_bind. eapply wp_mono_run.
  { apply wp_after; [exact Hq|]. by apply wp_drop. }
  intros r s2 Hrun Hv. apply wp_ret. split; [done|]. simpl. intros ->.
  injection Hrun. intros _ Hd. by apply drop_not_continue in Hd.
Qed.

Lemma l3_pass reason s s1 :
  quiet s s1 -> wp (no_key (XFW_MAKE_CTX_PASS E reason)) (l3_post s) s1.
Proof.
  intros Hq. unfold no_key. apply wp_bind. eapply wp_mono_run.
  { apply wp_after; [exact Hq|]. by apply wp_pass. }
  intros r s2 Hrun Hv. apply wp_ret. split; [done|]. simpl. intros ->.
  injection Hrun. intros _ Hd. by apply pass_not_continue in Hd.
Qed.

Lemma quiet_cur_ok s : wf s -> cur_ok s (hdr_cur (s_ctx s)).
Proof. intros []. by split. Qed.

Lemma in_process_l3_ipv4 s : wf s -> ipver (s_ctx s) = bpf_ntohs ETH_P_IP ->
  wp (in_process_l3 E) (l3_post s) s.
Proof.
  intros Hwf Hv. unfold in_process_l3. apply wp_bind, wp_get_ctx. rewrite Hv, Z.eqb_refl.
  apply wp_bind, wp_count_traffic.
  set (s1 := traffic_counted _ s). assert (quiet s s1) as Hq1 by (unfold s1; auto with quietdb).
  assert (wf s1) as Hw1 by eauto with quietdb.
  apply wp_bind, wp_on_cur. eapply wp_mono.
  { apply (parse_iphdr_spec s1 (wf_bytes _ Hw1)). by apply quiet_cur_ok. }
  intros [[proto iph] cur] s' (-> & Hc & Hr). unfold parsed in Hr. cbn [fst snd] in *.
  set (s2 := set_ctx (with_cur cur (s_ctx s1)) s1).
  assert (quiet s s2) as Hq2 by (by apply quiet_with_cur).
  wp_step; [by apply l3_drop|].
  destruct Hr as [->|(Hp & Hiph & _ & Hlen & Hde)]; [done|].
  assert (0 <= iph) by (rewrite Hiph; apply Hw1).
  change (data_end s1) with (data_end s2) in Hde. unfold_sizes.
  wp_load. apply wp_bind, wp_upd_ctx. set (s3 := set_ctx _ s2).
  change (data_end s2) with (data_end s3) in Hde.
  assert (quiet s s3) as Hq3 by (unfold s3; auto with quietdb).
  wp_load. wp_step; [by apply l3_drop|]. wp_step; [by apply l3_pass|].
  apply wp_bind, wp_upd_ctx, wp_bind, wp_upd_ctx, wp_ret. split.
  - apply verdict_continue. auto with quietdb.
  - intros _. split; [|apply wrap_range; lia]. unfold key_ok. simpl. rewrite Hv. by eexists.
Qed.

Lemma in_process_l3_ipv6 s : wf s -> ipver (s_ctx s) = bpf_ntohs ETH_P_IPV6 ->
  wp (in_process_l3 E) (l3_post s) s.
Proof.
  intros Hwf Hv. unfold in_process_l3. apply wp_bind, wp_get_ctx. rewrite Hv, Z.eqb_refl.
  rewrite (proj2 (Z.eqb_neq (bpf_ntohs ETH_P_IPV6) (bpf_ntohs ETH_P_IP))) by done.
  apply wp_bind, wp_count_traffic.
  set (s1 := traffic_counted _ s). assert (quiet s s1) as Hq1 by (unfold s1; auto with quietdb).
  assert (wf s1) as Hw1 by eauto with quietdb.
  apply wp_bind, wp_on_cur. eapply wp_mono.
  { apply (parse_ip6hdr_spec s1 ). by apply quiet_cur_ok. }
  intros [[r iph] cur] s' (-> & Hc & Hr). unfold parsed in Hr. cbn [fst snd] in *.
  set (s2 := set_ctx (with_cur cur (s_ctx s1)) s1).
  assert (quiet s s2) as Hq2 by (by apply quiet_with_cur).
  wp_step; [by apply l3_drop|].
  destruct Hr as [->|(_ & Hiph & _ & Hlen & Hde)]; [done|].
  assert (0 <= iph) by (rewrite Hiph; apply Hw1).
  change (data_end s1) with (data_end s2) in Hde. unfold_sizes. unfold ip6_saddr.
  apply wp_bind. eapply wp_mono; [apply ld_in6_spec; lia|]. intros a s' ->.
  apply wp_bind, wp_upd_ctx. set (s3 := set_ctx _ s2).
  change (data_end s2) with (data_end s3) in Hde.
  assert (quiet s s3) as Hq3 by (unfold s3; auto with quietdb).
  assert (wf s3) as Hw3 by eauto with quietdb.
  wp_load. pose proof (loaded_range _ _ 1 _ (wf_bytes _ Hw3) ltac:(lia) Hload).
  apply wp_bind, wp_on_cur. eapply wp_mono.
  { apply (skip_ip6hdrext_spec s3 (wf_bytes _ Hw3)); [by apply quiet_cur_ok|]. lia. }
  intros [proto cur'] s' (-> & Hc' & Hp). cbn [fst snd] in *.
  set (s4 := set_ctx (with_cur cur' (s_ctx s3)) s3).
  assert (quiet s s4) as Hq4 by (by apply quiet_with_cur).
  wp_step; [wp_step; by apply l3_drop|]. wp_step; [by apply l3_pass|].
  apply wp_bind, wp_upd_ctx, wp_bind, wp_upd_ctx, wp_ret. split.
  - apply verdict_continue. auto with quietdb.
  - intros _. split; [|apply wrap_range; lia]. unfold key_ok. simpl. rewrite Hv. by eexists.
Qed.

Lemma in_process_l3_spec s : wf s -> wp (in_process_l3 E) (l3_post s) s.
Proof.
  intros Hwf. destruct (Z.eqb_spec (ipver (s_ctx s)) (bpf_ntohs ETH_P_IP)) as [Hv|H4];
    [by apply in_process_l3_ipv4|].
  destruct (Z.eqb_spec (ipver (s_ctx s)) (bpf_ntohs ETH_P_IPV6)) as [Hv|H6];
    [by apply in_process_l3_ipv6|].
  unfold in_process_l3. apply wp_bind, wp_get_ctx.
  rewrite (proj2 (Z.eqb_neq _ _) H4), (proj2 (Z.eqb_neq _ _) H6).
  wp_step; [by apply l3_pass|by apply l3_drop].
Qed.
End l3.

(** ** L4 *)

(** Run a parser after a counter and continue from the advanced cursor. *)
Lemma wp_count_parse stat (f : XfwHdrCursor -> P (Z * Z * XfwHdrCursor))
    min max bound (k : Z * Z -> P Z) (Q : Z -> St -> Prop) s :
  dir_stat stat = false -> wf s ->
  (forall s1, wf s1 -> wp (f (hdr_cur (s_ctx s1)))
     (parse_post s1 (hdr_cur (s_ctx s1)) min max bound) s1) ->
  (forall r h s2, quiet s s2 -> wf s2 -> ipver (s_ctx s2) = ipver (s_ctx s) ->
     l4_proto (s_ctx s2) = l4_proto (s_ctx s) ->
     (0 <= r -> 0 <= h /\ h + min <= data_end s2) ->
     wp (k (r, h)) Q s2) ->
  wp (count_traffic_stat stat ;;; x <- on_cur f ;; k x) Q s.
Proof.
  intros Hst Hwf Hf Hk. apply wp_bind, wp_count_traffic.
  set (s1 := traffic_counted stat s).
  assert (quiet s s1) as Hq1 by (by apply quiet_traffic_counted).
  assert (wf s1) as Hw1 by eauto with quietdb. apply wp_bind, wp_on_cur.
  eapply wp_mono; [by apply Hf|]. intros [[r h] cur] s' (-> & Hc & Hr).
  unfold parsed in Hr. cbn [fst snd] in *.
  assert (quiet s (set_ctx (with_cur cur (s_ctx s1)) s1)) as Hq2
    by (by apply quiet_with_cur).
  apply Hk; [done|by eauto with quietdb|done|done|]. intros H0.
  destruct Hr as [->|(_ & -> & _ & Hlen & Hde)]; [done|]. split; [apply Hw1|].
  change (data_end (set_ctx _ s1)) with (data_end s1). lia.
Qed.

Section l4.
Context (E : Env) `{!KernelSpec (e_kernel E)} (Hhook : e_hook E = HOOK_XDP).

Lemma l4_tcp_spec key s : wf s -> key_ok (s_ctx s) key ->
  wp (count_traffic_stat XFW_TCP_TOTAL_INGRESS ;;;
      let* (r, th) := on_cur parse_tcphdr in
      if r <=? 0 then XFW_MAKE_CTX_DROP E XFW_DROP_TCP_BADHDR_INGRESS else
      let l4_off := th - DATA_BGN in
      if (l4_off <? 0) || (L4_OFF_MAX <? l4_off)
      then XFW_MAKE_CTX_DROP E XFW_DROP_TCP_BADHDR_INGRESS else
      upd_ctx (with_l4_off (u16 l4_off)) ;;;
      CHAIN (tcp_anomaly_filter E th) (
      source <- th_source th ;;
      CHAIN (src_filter E source key) (
      c <- get_ctx ;;
      source <- th_source th ;;
      tcp_flags_filter E th (mkSockAddr (ilog_addr c) source)))) (verdict E s) s.
Proof.
  intros Hwf Hk. eapply wp_count_parse; [done|done| |].
  { intros s1 Hw. apply parse_tcphdr_spec; [apply Hw|by apply quiet_cur_ok]. }
  intros r th s2 Hq Hw Hv _ Hth. cbv beta iota. wp_step; [by apply wp_after, wp_drop|].
  destruct (Hth ltac:(lia)) as [H0 H1]. cbv zeta.
  wp_step; [by apply wp_after, wp_drop|]. apply wp_bind, wp_upd_ctx.
  set (s3 := set_ctx _ s2). assert (quiet s s3) as Hq3 by (unfold s3; auto with quietdb).
  assert (wf s3) as Hw3 by eauto with quietdb. apply wp_after; [done|].
  apply wp_chain; [by apply tcp_anomaly_filter_spec|]. intros s4 Hq4 Hc4.
  destruct (wf_after s3 s4) as [Hw4 He4]; [done..|]. change (data_end s3) with (data_end s2) in He4.
  wp_load. apply wp_call; [done..|].
  apply wp_chain. { apply src_filter_spec; [done|]. rewrite Hc4. unfold key_ok in *. simpl. by rewrite Hv. }
  intros s5 Hq5 Hc5. destruct (wf_after s4 s5) as [Hw5 He5]; [done..|].
  apply wp_bind, wp_get_ctx. wp_load. apply wp_call; [done..|].
  apply tcp_flags_filter_spec; try done. lia.
Qed.

Lemma l4_udp_spec key s : wf s -> key_ok (s_ctx s) key ->
  wp (count_traffic_stat XFW_UDP_TOTAL_INGRESS ;;;
      let* (r, uh) := on_cur parse_udphdr in
      if r <=? 0 then XFW_MAKE_CTX_DROP E XFW_DROP_UDP_BADHDR_INGRESS else
      let l4_off := uh - DATA_BGN in
      if (l4_off <? 0) || (L4_OFF_MAX <? l4_off)
      then XFW_MAKE_CTX_DROP E XFW_DROP_UDP_BADHDR_INGRESS else
      upd_ctx (with_l4_off (u16 l4_off)) ;;;
      source <- uh_source uh ;; dest <- uh_dest uh ;;
      if (source =? 0) || (dest =? 0)
      then XFW_MAKE_CTX_DROP E XFW_DROP_UDP_ANOM_ZERO_PORT else
      CHAIN (if e_dns_mode E then ingress_dns_filter E uh else ret XFW_CTX_CONTINUE) (
      source <- uh_source uh ;;
      src_filter E source key)) (verdict E s) s.
Proof.
  intros Hwf Hk. eapply wp_count_parse; [done|done| |].
  { intros s1 Hw. apply parse_udphdr_spec. by apply quiet_cur_ok. }
  intros r uh s2 Hq Hw Hv _ Huh. cbv beta iota. wp_step; [by apply wp_after, wp_drop|].
  destruct (Huh ltac:(lia)) as [H0 H1]. cbv zeta.
  wp_step; [by apply wp_after, wp_drop|]. apply wp_bind, wp_upd_ctx.
  set (s3 := set_ctx _ s2). assert (quiet s s3) as Hq3 by (unfold s3; auto with quietdb).
  assert (wf s3) as Hw3 by eauto with quietdb. change (data_end s2) with (data_end s3) in H1.
  do 2 wp_load. apply wp_after; [done|]. wp_step; [wp_verdict|].
  apply wp_chain. { destruct (e_dns_mode E); [by apply ingress_dns_filter_spec|wp_verdict]. }
  intros s4 Hq4 Hc4. destruct (wf_after s3 s4) as [Hw4 He4]; [done..|].
  wp_load. apply wp_call; [done..|]. apply src_filter_spec; [done|].
  rewrite Hc4. unfold key_ok in *. simpl. by rewrite Hv.
Qed.

Lemma in_process_l4_spec key s :
  wf s -> key_ok (s_ctx s) key -> 0 <= l4_proto (s_ctx s) < 256 ->
  wp (in_process_l4 E key) (verdict E s) s.
Proof.
  intros Hwf Hk Hp. unfold in_process_l4. apply wp_bind, wp_get_ctx, wp_bind.
  eapply wp_mono; [apply bitset_test_spec; [apply Hwf|done]|]. intros ok s' ->.
  wp_step; [by apply wp_after, wp_drop|].
  wp_step; [by apply l4_tcp_spec|]. wp_step; [by apply l4_udp_spec|].
  wp_step; [|wp_step; by apply wp_after, wp_pass].
  eapply (wp_count_parse _ _ SIZEOF_ICMPHDR SIZEOF_ICMPHDR 256); [done|done| |].
  { intros s1 Hw. apply parse_icmphdr_common_spec; [apply Hw|by apply quiet_cur_ok]. }
  intros r ih s2 Hq Hw Hv _ Hih. cbv beta iota. wp_step; [by apply wp_after, wp_drop|].
  destruct (Hih ltac:(lia)) as [H0 H1]. wp_load. apply wp_after; [done|].
  apply wp_chain; [by apply icmp_filter_spec|]. intros s3 Hq3 Hc3.
  apply wp_call; [done..|]. apply wp_chain.
  - apply src_filter_ip_spec; [by eapply quiet_wf|]. rewrite Hc3. unfold key_ok in *. by rewrite Hv.
  - intros s4 ? ?. wp_verdict.
Qed.
End l4.

(** ** The program *)

Abbreviation TOTAL := XFW_TOTAL_DOWNSTREAM_INGRESS.
Abbreviation PASSED := XFW_PASSED_DOWNSTREAM_INGRESS.

(** The end of a run that has counted the packet in state [s]. *)
Inductive xdp_end (E : Env) (s : St) : Z -> St -> Prop :=
  | xdp_end_pass s' :
      s_pkt s' = s_pkt s -> s_ilog s' = s_ilog s ->
      st_transmitted (s_stats s') = st_transmitted (s_stats s) ->
      st_traffic (s_stats s') TOTAL = st_traffic (s_stats s) TOTAL ->
      st_traffic (s_stats s') PASSED
      = bump (pkt_sz (s_ctx s)) (st_traffic (s_stats s) PASSED) ->
      cfg (s_ctx s') = cfg (s_ctx s) ->
      xdp_end E s (XFW_CTX_PASS E) s'
  | xdp_end_drop s' addr sz reason :
      frame s s' -> s_ilog s' = register_incident E addr sz reason (s_ilog s) ->
      st_transmitted (s_stats s') = st_transmitted (s_stats s) ->
      xdp_end E s (XFW_CTX_DROP E) s'
  | xdp_end_tx s' :
      frame s s' -> s_ilog s' = s_ilog s ->
      e_deployment_mode E = XFW_MODE_HOST ->
      sc_enabled (rc_syncookie (rules (cfg (s_ctx s)))) = true ->
      st_transmitted (s_stats s')
      = alter (bump (pkt_sz (s_ctx s))) XFW_SYNCOOKIE_GENERATED
          (st_transmitted (s_stats s)) ->
      xdp_end E s XDP_TX s'.

Section program.
Context (E : Env) `{!KernelSpec (e_kernel E)} (Hhook : e_hook E = HOOK_XDP).

Lemma verdict_end s r s' :
  verdict E s r s' -> r <> XFW_CTX_CONTINUE -> r <> XFW_CTX_PASS E -> xdp_end E s r s'.
Proof.
  intros [] Hc Hp; try done.
  - eapply xdp_end_drop; eauto.
  - apply xdp_end_tx; done.
Qed.

(** The code at label [pass] and the rest of a chain. *)
Lemma wp_end_pass s s1 : quiet s s1 ->
  wp (count_traffic_stat PASSED ;;; ret (XFW_CTX_PASS E)) (xdp_end E s) s1.
Proof.
  intros [Hf ? ? ?]. apply wp_bind, wp_count_traffic, wp_ret.
  apply xdp_end_pass; try done; [|simpl|apply Hf].
  - transitivity (st_traffic (s_stats s1) TOTAL); [|by apply Hf].
    simpl. by rewrite fn_lookup_alter_ne.
  - rewrite fn_lookup_alter. by rewrite (fr_sz _ _ Hf), (fr_dir _ _ Hf).
Qed.

Lemma wp_chain_pass_all r rest s s1 :
  verdict E s r s1 -> (quiet s s1 -> r = XFW_CTX_CONTINUE -> wp rest (xdp_end E s) s1) ->
  wp (CHAIN_PASS_ALL E r (count_traffic_stat PASSED ;;; ret (XFW_CTX_PASS E)) rest)
     (xdp_end E s) s1.
Proof.
  intros Hv Hr. unfold CHAIN_PASS_ALL.
  destruct (Z.eqb_spec r XFW_CTX_CONTINUE) as [->|Hc].
  { apply Hr; [|done]. by eapply verdict_continue_inv. }
  destruct (Z.eqb_spec r (XFW_CTX_PASS E)) as [->|Hp].
  - apply wp_end_pass. apply verdict_cases in Hv as [[? ?]|[[? ?]|[H|[H _]]]]; try done.
    + symmetry in H. by apply drop_not_pass in H.
    + unfold XFW_CTX_PASS in H. by rewrite Hhook in H.
  - apply wp_ret. by apply verdict_end.
Qed.

Definition total_counted (s : St) : St := traffic_counted TOTAL s.

Lemma wp_end_drop reason s s1 :
  quiet s s1 -> wp (XFW_MAKE_CTX_DROP E reason) (xdp_end E s) s1.
Proof.
  intros Hq. eapply wp_mono_run; [apply wp_after; [exact Hq|by apply wp_drop]|].
  intros r s2 Hrun Hv. injection Hrun as <- _. apply verdict_end; [done|..].
  - apply drop_not_continue.
  - apply drop_not_pass.
Qed.

Lemma wf_total_counted s : wf s -> wf (total_counted s).
Proof. apply wf_set_stats. Qed.

Lemma xfw_xdp_filter_spec s : wf s ->
  wp (xfw_xdp_filter E) (xdp_end E (total_counted s)) s.
Proof.
  intros Hwf%wf_total_counted. unfold xfw_xdp_filter. apply wp_bind, wp_count_traffic.
  fold (total_counted s). set (s1 := total_counted s) in *.
  apply wp_bind, wp_get_ctx. wp_step.
  { apply wp_bind, wp_count_traffic. unfold XFW_MAKE_CTX_PASS.
    apply wp_bind, wp_count_pass, wp_ret. by apply xdp_end_pass. }
  apply wp_bind, wp_on_cur. eapply wp_mono.
  { apply (parse_ethhdr_spec s1 (wf_bytes _ Hwf)). by apply quiet_cur_ok. }
  intros [v cur] s' (-> & Hc & _). cbn [fst snd] in *.
  set (s2 := set_ctx (with_cur cur (s_ctx s1)) s1).
  assert (quiet s1 s2) as Hq2 by (by apply quiet_with_cur).
  wp_step; [by apply wp_end_drop|]. apply wp_bind, wp_upd_ctx.
  set (s3 := set_ctx _ s2). assert (quiet s1 s3) as Hq3 by (unfold s3; auto with quietdb).
  assert (wf s3) as Hw3 by eauto with quietdb.
  apply wp_bind. eapply wp_mono; [by apply in_process_l3_spec|].
  intros [r key] s4 [Hv Hk]. cbn [fst snd] in *.
  apply wp_chain_pass_all; [by eapply quiet_verdict|]. intros Hq4 Hr.
  destruct (Hk Hr) as [Hkey Hp]. apply wp_bind. eapply wp_mono.
  { apply in_process_l4_spec; try done. by eapply quiet_wf. }
  intros r4 s5 Hv5. apply wp_chain_pass_all; [by eapply quiet_verdict|]. intros Hq5 _.
  apply wp_bind. eapply wp_mono; [apply xfw_dst_filter_spec; eauto with quietdb|].
  intros r5 s6 [Hv6 _]. apply wp_chain_pass_all; [by eapply quiet_verdict|].
  intros Hq6 _. by apply wp_end_pass.
Qed.
End program.
