(* ===== verification/XdpSafety.v ===== *)
(** * XdpSafety: what the ingress program guarantees

    Properties of [xfw_xdp] on every packet, every state of the maps, every
    well-formed configuration and every kernel that satisfies [KernelSpec]. *)

From S2P Require Import Prelude.
From S2P Require Import Enums.
From S2P Require Import Uapi.
From S2P Require Import Kernel.
From S2P Require Import Ctx.
From S2P Require Import IncidentLog.
From S2P Require Import Filter.
From S2P Require Import Verdict.
From S2P Require Import Dns.
From S2P Require Import Xdp.
From S2P Require Import XdpSpec.

(** The program is left before the filters run. *)
Definition unfiltered (E : Env) : bool :=
  match e_cfg E with
  | None => true
  | Some c =>
      negb (e_has_stats E)
      || (e_dns_mode E && rc_dns (rules c)
          && match e_adjust_meta E with None => true | Some _ => false end)
  end.

(** The state in which the filters start. *)
Record prepared (E : Env) (s : St) (c : XfwFilterCfg) (s0 : St) : Prop := mkPrepared {
  pr_cfg : cfg (s_ctx s0) = c;
  pr_pkt : s_pkt s0 = s_pkt s;
  pr_ilog : s_ilog s0 = s_ilog s;
  pr_stats : s_stats s0 = s_stats s;
  pr_sz : pkt_sz (s_ctx s0) = u32 (data_end s);
  pr_wf : wf s0
}.

Section run.
Context (E : Env) `{!KernelSpec (e_kernel E)} (Hhook : e_hook E = HOOK_XDP).

Lemma create_metadata_prepared s c :
  e_cfg E = Some c -> cfg_wf c -> e_has_stats E = true -> Forall is_byte (s_pkt s) ->
  wp (create_metadata E) (fun r s' =>
    (unfiltered E = false /\ r = XFW_CTX_CONTINUE /\ prepared E s c s')
    \/ (unfiltered E = true /\ r = XFW_CTX_PASS E
        /\ s' = pass_counted XFW_METADATA_CREATION_FAILED
                  (set_ctx (xfw_ctx_init E c (data_end s)) s)))
    (set_ctx (xfw_ctx_init E c (data_end s)) s).
Proof.
  intros Ec Hwc Hst Hby.
  unfold create_metadata, unfiltered. rewrite Ec, Hst. apply wp_bind, wp_get_ctx. simpl.
  destruct (e_dns_mode E && rc_dns (rules c)) eqn:Hd; simpl.
  - apply andb_true_iff in Hd as [-> ->]. simpl. destruct (e_adjust_meta E) as [md|].
    + apply wp_bind, wp_modify. unfold init_cursor.
      apply wp_bind, wp_bind, wp_get, wp_ret, wp_bind, wp_upd_ctx, wp_ret. left.
      split; [done|]. split; [done|].
      by split.
    + by right.
  - apply andb_false_iff in Hd. assert (negb (e_dns_mode E) || negb (rc_dns (rules c)) = true)
      as -> by (destruct Hd as [-> | ->]; [done|apply orb_true_r]).
    apply wp_ret. left. split; [done|]. split; [done|]. by split.
Qed.

(** Either the packet is passed before the filters run, or it ends as
    [xdp_end] describes, up to the override of the evaluation mode. *)
Lemma xfw_xdp_spec s :
  Forall is_byte (s_pkt s) -> (forall c, e_cfg E = Some c -> cfg_wf c) ->
  wp (xfw_xdp E) (fun r s' =>
    (unfiltered E = true /\ r = XFW_CTX_PASS E /\ s_pkt s' = s_pkt s
     /\ s_ilog s' = s_ilog s /\ st_traffic (s_stats s') = st_traffic (s_stats s)
     /\ st_transmitted (s_stats s') = st_transmitted (s_stats s))
    \/ (unfiltered E = false /\ exists c s0 r0, e_cfg E = Some c /\ prepared E s c s0
        /\ xdp_end E (total_counted s0) r0 s'
        /\ r = (if (r0 =? XFW_CTX_DROP E) && rc_evaluation_mode (rules c)
                then XFW_CTX_PASS E else r0))) s.
Proof.
  intros Hby Hcfg. unfold xfw_xdp. destruct (e_cfg E) as [c|] eqn:Ec.
  2: { apply wp_ret. left. unfold unfiltered. by rewrite Ec. }
  wp_step.
  { apply wp_ret. left. unfold unfiltered. by rewrite Ec, Hb. }
  apply negb_false_iff in Hb. apply wp_bind, wp_modify, wp_bind.
  eapply wp_mono; [apply create_metadata_prepared; auto|].
  intros r s' [(Hu & -> & Hpr)|(Hu & -> & ->)]; apply wp_bind.
  - rewrite Z.eqb_refl. eapply wp_mono; [apply xfw_xdp_filter_spec; try done; apply Hpr|].
    intros r s2 Hend. apply wp_bind, wp_get_ctx, wp_ret. right. split; [done|].
    exists c, s', r. split; [done|]. split; [done|]. split; [done|].
    unfold finalize_result. enough (cfg (s_ctx s2) = c) as -> by done.
    rewrite <- (pr_cfg _ _ _ _ Hpr). inv Hend; [done|..];
      match goal with H : frame _ _ |- _ => by rewrite (fr_cfg _ _ H) end.
  - rewrite (proj2 (Z.eqb_neq _ _) (pass_not_continue E)).
    apply wp_ret, wp_bind, wp_get_ctx, wp_ret. left. split; [done|].
    split; [|done]. unfold finalize_result.
    rewrite (proj2 (Z.eqb_neq _ _)); [done|]. intros H. symmetry in H.
    by apply drop_not_pass in H.
Qed.
End run.

(** ** Properties *)

Section codes.
Context (E : Env) (Hhook : e_hook E = HOOK_XDP).

Lemma xdp_codes : XFW_CTX_PASS E = XDP_PASS /\ XFW_CTX_DROP E = XDP_DROP.
Proof. unfold XFW_CTX_PASS, XFW_CTX_DROP. by rewrite Hhook. Qed.

Lemma xdp_end_codes s r s' : xdp_end E s r s' ->
  length (s_pkt s') = length (s_pkt s)
  /\ (r = XDP_PASS \/ r = XDP_DROP \/ r = XDP_TX /\ e_deployment_mode E = XFW_MODE_HOST).
Proof.
  destruct xdp_codes as [Hp Hd]. intros [s1 -> | s1 a z rs [-> _ _ _ _ _] | s1 [-> _ _ _ _ _]];
    rewrite ?Hp, ?Hd; auto 6.
Qed.

Lemma xdp_end_pass_inv s r s' : xdp_end E s r s' -> r = XDP_PASS ->
  s_pkt s' = s_pkt s /\ s_ilog s' = s_ilog s.
Proof.
  destruct xdp_codes as [Hp Hd]. intros [s1 ? ?|s1 a z rs|s1] Hr; [done| |done].
  by rewrite Hd in Hr.
Qed.
End codes.

(** C1: on every packet, in every state of the maps and with every well-formed
    configuration the ingress program terminates without reading or writing
    outside the packet or an array, keeps the length of the packet and returns
    PASS, DROP or, in host mode, TX; the internal code CONTINUE never
    reaches the kernel. *)
Theorem xdp_safe E s :
  KernelSpec (e_kernel E) -> e_hook E = HOOK_XDP ->
  (forall c, e_cfg E = Some c -> cfg_wf c) -> Forall is_byte (s_pkt s) ->
  exists r s', xfw_xdp E s = Some (r, s')
    /\ length (s_pkt s') = length (s_pkt s)
    /\ (r = XDP_PASS \/ r = XDP_DROP \/ r = XDP_TX /\ e_deployment_mode E = XFW_MODE_HOST).
Proof.
  intros HK Hh Hc Hb. destruct (xdp_codes E Hh) as [Hp Hd].
  destruct (wp_run _ _ _ (xfw_xdp_spec E Hh s Hb Hc)) as (r & s' & Hrun & H).
  exists r, s'. split; [done|].
  destruct H as [(_ & -> & -> & _)|(_ & c & s0 & r0 & _ & Hpr & Hend & ->)].
  - by rewrite Hp; auto.
  - destruct (xdp_end_codes E Hh _ _ _ Hend) as [Hl Hr]. split.
    + rewrite Hl. simpl. by rewrite (pr_pkt _ _ _ _ Hpr).
    + destruct (_ && _); [by rewrite Hp; auto|done].
Qed.

Definition xdp_sample : Env := sample_env HOOK_XDP sample_cfg.

Lemma sample_cfgs_wf h c : e_cfg (sample_env h sample_cfg) = Some c -> cfg_wf c.
Proof. intros [= <-]. apply sample_cfg_wf. Qed.

Lemma tcp_packet_bytes : Forall is_byte (tcp_packet 2).
Proof. repeat constructor; unfold is_byte; lia. Qed.

Lemma xdp_safe_witness : exists r s',
  xfw_xdp xdp_sample (sample_state sample_cfg (tcp_packet 2)) = Some (r, s')
  /\ length (s_pkt s') = 54%nat
  /\ (r = XDP_PASS \/ r = XDP_DROP \/ r = XDP_TX /\ XFW_MODE_HOST = XFW_MODE_HOST).
Proof.
  apply (xdp_safe xdp_sample (sample_state sample_cfg (tcp_packet 2))).
  - apply _.
  - reflexivity.
  - apply sample_cfgs_wf.
  - apply tcp_packet_bytes.
Defined.

(** C2: every packet that reaches the filters is counted once in the total
    and ends in exactly one way: it is passed and counted as passed without an
    incident; or exactly one incident is registered and it is dropped (passed in
    evaluation mode); or SYN cookies answer it, which is counted as transmitted
    and happens only in host mode with SYN cookies on. *)
Theorem xdp_accounting E c s r s' :
  KernelSpec (e_kernel E) -> e_hook E = HOOK_XDP -> e_cfg E = Some c -> cfg_wf c ->
  Forall is_byte (s_pkt s) -> unfiltered E = false ->
  xfw_xdp E s = Some (r, s') ->
  let sz := u32 (data_end s) in
  let total := st_traffic (s_stats s') TOTAL in
  let passed := st_traffic (s_stats s') PASSED in
  let tx := st_transmitted (s_stats s') in
  total = bump sz (st_traffic (s_stats s) TOTAL)
  /\ ((r = XDP_PASS /\ passed = bump sz (st_traffic (s_stats s) PASSED)
       /\ s_ilog s' = s_ilog s /\ tx = st_transmitted (s_stats s))
      \/ ((exists addr n reason,
             s_ilog s' = register_incident E addr n reason (s_ilog s))
          /\ r = drop_override E c /\ passed = st_traffic (s_stats s) PASSED
          /\ tx = st_transmitted (s_stats s))
      \/ (r = XDP_TX /\ e_deployment_mode E = XFW_MODE_HOST
          /\ sc_enabled (rc_syncookie (rules c)) = true
          /\ passed = st_traffic (s_stats s) PASSED /\ s_ilog s' = s_ilog s
          /\ tx = alter (bump sz) XFW_SYNCOOKIE_GENERATED (st_transmitted (s_stats s)))).
Proof.
  intros HK Hh Ec Hwc Hb Hu Hrun sz total passed tx. destruct (xdp_codes E Hh) as [Hp Hd].
  assert (forall c', e_cfg E = Some c' -> cfg_wf c') as Hcs by congruence.
  destruct (run_wp _ _ _ _ _ Hrun (xfw_xdp_spec E Hh s Hb Hcs)) as
    [(Hu' & _)|(_ & c' & s0 & r0 & Ec' & [Hc1 _ Hi Hs Hz _] & Hend & ->)]; [congruence|].
  assert (c' = c) as -> by congruence. subst sz total passed tx.
  rewrite <- Hz, <- Hi, <- Hs.
  destruct Hend as [s1 _ Hil Htx Htot Hpas _|s1 a n reason Hf Hil Htx|s1 Hf Hil Hm Hsc Htx];
    unfold total_counted in *; simpl in *.
  - split; [by rewrite Htot, fn_lookup_alter|]. left.
    rewrite (proj2 (Z.eqb_neq (XFW_CTX_PASS E) (XFW_CTX_DROP E))) by (rewrite Hp, Hd; done).
    simpl. rewrite Hpas, fn_lookup_alter_ne by done. by rewrite Hp.
  - rewrite !(fr_dir _ _ Hf) by done. simpl. split; [by rewrite fn_lookup_alter|].
    right. left. rewrite Z.eqb_refl, fn_lookup_alter_ne by done. simpl. split; [eauto|].
    unfold drop_override. by destruct (rc_evaluation_mode _).
  - rewrite !(fr_dir _ _ Hf) by done. simpl. split; [by rewrite fn_lookup_alter|].
    right. right. rewrite Hd, fn_lookup_alter_ne by done. rewrite <- Hc1. auto 8.
Qed.

Definition syn_state : St := sample_state sample_cfg (tcp_packet 2).

(** The sample run. *)
Lemma syn_run : exists s', xfw_xdp xdp_sample syn_state = Some (XDP_PASS, s').
Proof. apply run_result. vm_compute. reflexivity. Qed.

Lemma xdp_accounting_witness : exists s', xfw_xdp xdp_sample syn_state = Some (XDP_PASS, s')
  /\ st_traffic (s_stats s') TOTAL = bump 54 (mkPacketStats 0 0).
Proof.
  destruct syn_run as (s' & Hrun). exists s'. split; [exact Hrun|].
  apply (xdp_accounting xdp_sample sample_cfg syn_state XDP_PASS s' _ eq_refl eq_refl
    sample_cfg_wf tcp_packet_bytes eq_refl Hrun).
Defined.

(** C39: outside evaluation mode a packet that the ingress program passes is
    not modified and leaves no incident. *)
Theorem xdp_passed_unmodified E c s s' :
  KernelSpec (e_kernel E) -> e_hook E = HOOK_XDP -> e_cfg E = Some c -> cfg_wf c ->
  Forall is_byte (s_pkt s) -> rc_evaluation_mode (rules c) = false ->
  xfw_xdp E s = Some (XDP_PASS, s') ->
  s_pkt s' = s_pkt s /\ s_ilog s' = s_ilog s.
Proof.
  intros HK Hh Ec Hwc Hb Hev Hrun. destruct (xdp_codes E Hh) as [Hp Hd].
  assert (forall c', e_cfg E = Some c' -> cfg_wf c') as Hcs by congruence.
  destruct (run_wp _ _ _ _ _ Hrun (xfw_xdp_spec E Hh s Hb Hcs)) as
    [(_ & _ & ? & ? & _)|(_ & c' & s0 & r0 & Ec' & [_ Hpk Hi _ _ _] & Hend & Hr)]; [done|].
  assert (c' = c) as -> by congruence. rewrite Hev, andb_false_r in Hr.
  rewrite <- Hpk, <- Hi. by apply (xdp_end_pass_inv E Hh) in Hend; [destruct Hend|].
Qed.

Lemma xdp_passed_unmodified_witness : exists s',
  xfw_xdp xdp_sample syn_state = Some (XDP_PASS, s')
  /\ s_pkt s' = tcp_packet 2 /\ s_ilog s' = sample_log.
Proof.
  destruct syn_run as (s' & Hrun). exists s'. split; [exact Hrun|].
  exact (xdp_passed_unmodified xdp_sample sample_cfg syn_state s' _ eq_refl eq_refl
    sample_cfg_wf tcp_packet_bytes eq_refl Hrun).
Defined.

(** C40: in evaluation mode the ingress program never drops a packet. *)
Theorem xdp_evaluation_never_drops E c s r s' :
  KernelSpec (e_kernel E) -> e_hook E = HOOK_XDP -> e_cfg E = Some c -> cfg_wf c ->
  Forall is_byte (s_pkt s) -> rc_evaluation_mode (rules c) = true ->
  xfw_xdp E s = Some (r, s') -> r <> XDP_DROP.
Proof.
  intros HK Hh Ec Hwc Hb Hev Hrun. destruct (xdp_codes E Hh) as [Hp Hd].
  assert (forall c', e_cfg E = Some c' -> cfg_wf c') as Hcs by congruence.
  destruct (run_wp _ _ _ _ _ Hrun (xfw_xdp_spec E Hh s Hb Hcs)) as
    [(_ & -> & _)|(_ & c' & s0 & r0 & Ec' & _ & _ & ->)]; [by rewrite Hp|].
  assert (c' = c) as -> by congruence. rewrite Hev, andb_true_r, Hp, Hd.
  by destruct (Z.eqb_spec r0 XDP_DROP).
Qed.

Definition eval_cfg : XfwFilterCfg :=
  with_rules (mkRulesCfg true no_bits (mkSyncookie 0 0 false)
    (mkTcpAnomaly false false false false 0 no_bits) false false
    (fun _ => XfwActionRule_default) (fun _ => XfwActionRule_default)) sample_cfg.

(** No protocol is supported, so the packet would be dropped. *)
Lemma eval_run : exists s',
  xfw_xdp (sample_env HOOK_XDP eval_cfg) syn_state = Some (XDP_PASS, s').
Proof. apply run_result. vm_compute. reflexivity. Qed.

Lemma xdp_evaluation_never_drops_witness : exists r s',
  xfw_xdp (sample_env HOOK_XDP eval_cfg) syn_state = Some (r, s') /\ r <> XDP_DROP.
Proof.
  destruct eval_run as (s' & Hrun). exists XDP_PASS, s'. split; [exact Hrun|].
  apply (xdp_evaluation_never_drops (sample_env HOOK_XDP eval_cfg) eval_cfg syn_state
    XDP_PASS s' _ eq_refl eq_refl); [by split|apply tcp_packet_bytes|reflexivity|exact Hrun].
Defined.

(** While no rules are loaded the ingress program passes every packet unmodified
    and registers no incident. *)
Lemma xdp_inactive_passes E c s :
  KernelSpec (e_kernel E) -> e_hook E = HOOK_XDP -> e_cfg E = Some c -> cfg_wf c ->
  Forall is_byte (s_pkt s) -> rules_active c = false ->
  exists s', xfw_xdp E s = Some (XDP_PASS, s') /\ s_pkt s' = s_pkt s /\ s_ilog s' = s_ilog s.
Proof.
  intros HK Hh Ec Hwc Hb Hact. destruct (xdp_codes E Hh) as [Hp Hd].
  enough (wp (xfw_xdp E) (fun r s' =>
    r = XFW_CTX_PASS E /\ s_pkt s' = s_pkt s /\ s_ilog s' = s_ilog s) s) as Hw.
  { destruct (wp_run _ _ _ Hw) as (r & s' & Hrun & -> & ?). rewrite Hp in Hrun. eauto. }
  assert (forall s0, finalize_result E s0 (XFW_CTX_PASS E) = XFW_CTX_PASS E) as Hfin
    by (intros; unfold finalize_result; by rewrite Hp, Hd).
  unfold xfw_xdp. rewrite Ec. wp_step; [by apply wp_ret|]. apply negb_false_iff in Hb0.
  apply wp_bind, wp_modify, wp_bind.
  eapply wp_mono; [by apply create_metadata_prepared|].
  intros r s1 [(_ & -> & [Hc Hk Hi _ _ _])|(_ & -> & ->)]; apply wp_bind.
  - rewrite Z.eqb_refl. unfold xfw_xdp_filter. apply wp_bind, wp_count_traffic, wp_bind.
    apply wp_get_ctx. change (cfg (s_ctx (traffic_counted TOTAL s1))) with (cfg (s_ctx s1)).
    rewrite Hc, Hact. apply wp_bind, wp_count_traffic. unfold XFW_MAKE_CTX_PASS.
    apply wp_bind, wp_count_pass, wp_ret, wp_bind, wp_get_ctx, wp_ret. by rewrite Hfin.
  - rewrite (proj2 (Z.eqb_neq _ _) (pass_not_continue E)).
    apply wp_ret, wp_bind, wp_get_ctx, wp_ret. by rewrite Hfin.
Qed.
