(* ===== verification/Tc.v ===== *)
(** * Tc: the egress program

    src/bpf/tc.c: the program attached to egress classifies a packet as going
    to the protected network (downstream) or away from it (upstream), applies
    the destination policy to the former and lets the TCP and DNS trackers learn
    from both.  Packets it cannot parse pass. *)

From S2P Require Import Prelude.
From S2P Require Import Enums.
From S2P Require Import Uapi.
From S2P Require Import Kernel.
From S2P Require Import Ctx.
From S2P Require Import IncidentLog.
From S2P Require Import Filter.
From S2P Require Import Verdict.
From S2P Require Import Parsing.
From S2P Require Import Dst.
From S2P Require Import TcpAuth.
From S2P Require Import Dns.
From S2P Require Import XdpSpec.

(** The local variables [prot_net_map] and [prot_net_key]: unset until the L3
    stage has run. *)
Inductive ProtNet :=
  | PROT_NET_UNSET
  | PROT_NET_IP4 (m : gmap XfwIpv4LpmKey Z) (key : XfwIpLpmKey)
  | PROT_NET_IP6 (m : gmap XfwIpv6LpmKey Z) (key : XfwIpLpmKey).

Section tc.
Context (E : Env).

(** [bpf_map_lookup_elem(prot_net_map, &prot_net_key)]; the use of an unset
    variable or of a key of the other family is a fault. *)
Definition prot_net_lookup (n : ProtNet) : P (option Z) :=
  match n with
  | PROT_NET_IP4 m (LPM_ADDR4 k) => ret (k_lpm4 (e_kernel E) m (lpm_addr4 k))
  | PROT_NET_IP6 m (LPM_ADDR6 k) => ret (k_lpm6 (e_kernel E) m (lpm_addr6 k))
  | _ => get_opt None
  end.

(** A verdict that leaves the variables unset. *)
Definition no_net (m : P Z) : P (Z * ProtNet) := r <- m ;; ret (r, PROT_NET_UNSET).

Definition out_process_l3 : P (Z * ProtNet) :=
  c <- get_ctx ;;
  if ipver c =? bpf_ntohs ETH_P_IP then
    count_traffic_stat XFW_IP4_TOTAL_EGRESS ;;;
    let* (proto, iph4) := on_cur parse_iphdr in
    if proto <? 0 then no_net (XFW_MAKE_CTX_PASS E XFW_IP4_BADHDR_EGRESS) else
    let ip_off := iph4 - DATA_BGN in
    if (ip_off <? 0) || (L3_OFF_MAX <? ip_off)
    then no_net (XFW_MAKE_CTX_PASS E XFW_IP4_BADHDR_EGRESS) else
    upd_ctx (with_ip_off (u8 ip_off)) ;;;
    upd_ctx (with_l4_proto (u8 proto)) ;;;
    daddr <- ip4_daddr iph4 ;;
    upd_ctx (with_ilog_addr (xfw_ipv4_to_ipv6_mapped daddr)) ;;;
    ret (XFW_CTX_CONTINUE,
         PROT_NET_IP4 (SELECT_SHADOW_MAP (map_net_ip4 (e_rules E)) (amap_prot_net (cfg c)))
           (ipv4_populate_lpm_key daddr))
  else if ipver c =? bpf_ntohs ETH_P_IPV6 then
    count_traffic_stat XFW_IP6_TOTAL_EGRESS ;;;
    let* (r, iph6) := on_cur parse_ip6hdr in
    if negb (r =? 0) then no_net (XFW_MAKE_CTX_PASS E XFW_IP6_BADHDR_EGRESS) else
    daddr <- ip6_daddr iph6 ;;
    upd_ctx (with_ilog_addr daddr) ;;;
    nexthdr <- ip6_nexthdr iph6 ;;
    proto <- on_cur (fun cur => skip_ip6hdrext cur nexthdr) ;;
    if proto <? 0 then no_net (XFW_MAKE_CTX_PASS E XFW_IP6_BADHDR_EGRESS) else
    let ip_off := iph6 - DATA_BGN in
    if negb ((0 <=? ip_off) && (ip_off <=? L3_OFF_MAX))
    then no_net (XFW_MAKE_CTX_PASS E XFW_ASSERT_FAILED) else
    upd_ctx (with_ip_off (u8 ip_off)) ;;;
    upd_ctx (with_l4_proto (u8 proto)) ;;;
    daddr <- ip6_daddr iph6 ;;
    ret (XFW_CTX_CONTINUE,
         PROT_NET_IP6 (SELECT_SHADOW_MAP (map_net_ip6 (e_rules E)) (amap_prot_net (cfg c)))
           (ipv6_populate_lpm_key daddr))
  else no_net (XFW_MAKE_CTX_PASS E XFW_L2_UNKNOWN_EGRESS).

Definition out_process_l4 : P Z :=
  c <- get_ctx ;;
  if l4_proto c =? XFW_L4_PROTO_TCP then
    count_traffic_stat XFW_TCP_TOTAL_EGRESS ;;;
    let* (r, th) := on_cur parse_tcphdr in
    if r <=? 0 then XFW_MAKE_CTX_PASS E XFW_TCP_BADHDR_EGRESS else
    let l4_off := th - DATA_BGN in
    if (l4_off <? 0) || (L4_OFF_MAX <? l4_off)
    then XFW_MAKE_CTX_PASS E XFW_TCP_BADHDR_EGRESS else
    upd_ctx (with_l4_off (u16 l4_off)) ;;;
    ret XFW_CTX_CONTINUE
  else if l4_proto c =? XFW_L4_PROTO_UDP then
    count_traffic_stat XFW_UDP_TOTAL_EGRESS ;;;
    let* (r, uh) := on_cur parse_udphdr in
    if r <=? 0 then XFW_MAKE_CTX_PASS E XFW_UDP_BADHDR_EGRESS else
    let l4_off := uh - DATA_BGN in
    if (l4_off <? 0) || (L4_OFF_MAX <? l4_off)
    then XFW_MAKE_CTX_PASS E XFW_UDP_BADHDR_EGRESS else
    upd_ctx (with_l4_off (u16 l4_off)) ;;;
    (if e_dns_mode E then egress_dns_filter E uh else ret tt) ;;;
    ret XFW_CTX_CONTINUE
  else XFW_MAKE_CTX_PASS E XFW_L4_UNSUPPORTED_EGRESS.

Definition process_downstream_egress : P Z :=
  CHAIN (xfw_dst_filter E) (ret XFW_CTX_CONTINUE).

(** The verdict and [is_upstream_egress]. *)
Definition xfw_tc_egress_filter : P (Z * bool) :=
  v <- on_cur parse_ethhdr ;;
  if v <? 0 then r <- XFW_MAKE_CTX_PASS E XFW_ETH_BADHDR_EGRESS ;; ret (r, true) else
  upd_ctx (with_ipver (u16 v)) ;;;
  let* (r, net) := out_process_l3 in
  if negb (r =? XFW_CTX_CONTINUE) then ret (r, true) else
  r <- out_process_l4 ;;
  if negb (r =? XFW_CTX_CONTINUE) then ret (r, true) else
  o <- prot_net_lookup net ;;
  let upstream := match o with None => true | Some _ => false end in
  r <- (if negb upstream then process_downstream_egress else ret XFW_CTX_CONTINUE) ;;
  if negb (r =? XFW_CTX_CONTINUE) then ret (r, upstream) else
  c <- get_ctx ;;
  (if l4_proto c =? XFW_L4_PROTO_TCP then tcp_auth_conn_egress_learning E else ret tt) ;;;
  ret (XFW_CTX_PASS E, upstream).

Definition xfw_tc : P Z :=
  match e_cfg E with
  | None => ret (XFW_CTX_PASS E)
  | Some cfg0 =>
      if negb (e_has_stats E) then ret (XFW_CTX_PASS E) else
      modify (fun s => set_ctx (xfw_ctx_init E cfg0 (data_end s)) s) ;;;
      let* (res, is_upstream_egress) := xfw_tc_egress_filter in
      (if is_upstream_egress then
         count_traffic_stat XFW_TOTAL_UPSTREAM_EGRESS ;;;
         if res =? XFW_CTX_PASS E then count_traffic_stat XFW_PASSED_UPSTREAM_EGRESS
         else ret tt
       else
         count_traffic_stat XFW_TOTAL_DOWNSTREAM_EGRESS ;;;
         if res =? XFW_CTX_PASS E then count_traffic_stat XFW_PASSED_DOWNSTREAM_EGRESS
         else ret tt) ;;;
      c <- get_ctx ;;
      ret (finalize_result E c res)
  end.
End tc.

(** ** Contracts *)

Section specs.
Context (E : Env).

(** The parsing stages do not drop. *)
Definition parsed_or_passed (s : St) (r : Z) (s' : St) : Prop :=
  quiet s s' /\ (r = XFW_CTX_CONTINUE \/ r = XFW_CTX_PASS E).

Definition net_ok (n : ProtNet) : Prop :=
  match n with
  | PROT_NET_IP4 _ (LPM_ADDR4 _) | PROT_NET_IP6 _ (LPM_ADDR6 _) => True
  | _ => False
  end.

Definition out_l3_post (s : St) (res : Z * ProtNet) (s' : St) : Prop :=
  parsed_or_passed s res.1 s' /\ (res.1 = XFW_CTX_CONTINUE -> net_ok res.2).

Lemma wp_stage_pass reason s s1 :
  quiet s s1 -> wp (XFW_MAKE_CTX_PASS E reason) (parsed_or_passed s) s1.
Proof.
  intros Hq. unfold XFW_MAKE_CTX_PASS. apply wp_bind, wp_count_pass, wp_ret.
  split; [auto with quietdb|by right].
Qed.

Lemma out_l3_pass reason s s1 :
  quiet s s1 -> wp (no_net (XFW_MAKE_CTX_PASS E reason)) (out_l3_post s) s1.
Proof.
  intros Hq. unfold no_net. apply wp_bind. eapply wp_mono_run; [by apply wp_stage_pass|].
  intros r s2 Hrun Hp. apply wp_ret. split; [done|]. injection Hrun as <- _. simpl.
  intros Hc. by apply pass_not_continue in Hc.
Qed.

Lemma out_process_l3_ipv4 s : wf s -> ipver (s_ctx s) = bpf_ntohs ETH_P_IP ->
  wp (out_process_l3 E) (out_l3_post s) s.
Proof.
  intros Hwf Hv. unfold out_process_l3. apply wp_bind, wp_get_ctx. rewrite Hv, Z.eqb_refl.
  apply wp_bind, wp_count_traffic.
  set (s1 := traffic_counted _ s). assert (quiet s s1) as Hq1 by (unfold s1; auto with quietdb).
  assert (wf s1) as Hw1 by eauto with quietdb.
  apply wp_bind, wp_on_cur. eapply wp_mono.
  { apply (parse_iphdr_spec s1 (wf_bytes _ Hw1)). by apply quiet_cur_ok. }
  intros [[proto iph] cur] s' (-> & Hc & Hr). unfold parsed in Hr. cbn [fst snd] in *.
  set (s2 := set_ctx (with_cur cur (s_ctx s1)) s1).
  assert (quiet s s2) as Hq2 by (by apply quiet_with_cur).
  wp_step; [by apply out_l3_pass|].
  destruct Hr as [->|(Hp & Hiph & _ & Hlen & Hde)]; [done|].
  assert (0 <= iph) by (rewrite Hiph; apply Hw1). cbv zeta.
  wp_step; [by apply out_l3_pass|]. do 2 apply wp_bind, wp_upd_ctx.
  set (s3 := set_ctx _ _). change (data_end s1) with (data_end s3) in Hde.
  assert (quiet s s3) as Hq3 by (unfold s3; auto with quietdb).
  wp_load. apply wp_bind, wp_upd_ctx, wp_ret. split; [|done].
  split; [|by left]. unfold s3. auto with quietdb.
Qed.

Lemma out_process_l3_ipv6 s : wf s -> ipver (s_ctx s) = bpf_ntohs ETH_P_IPV6 ->
  wp (out_process_l3 E) (out_l3_post s) s.
Proof.
  intros Hwf Hv. unfold out_process_l3, ip6_daddr. apply wp_bind, wp_get_ctx.
  rewrite Hv, Z.eqb_refl.
  rewrite (proj2 (Z.eqb_neq (bpf_ntohs ETH_P_IPV6) (bpf_ntohs ETH_P_IP))) by done.
  apply wp_bind, wp_count_traffic.
  set (s1 := traffic_counted _ s). assert (quiet s s1) as Hq1 by (unfold s1; auto with quietdb).
  assert (wf s1) as Hw1 by eauto with quietdb.
  apply wp_bind, wp_on_cur. eapply wp_mono; [apply (parse_ip6hdr_spec s1); by apply quiet_cur_ok|].
  intros [[r iph] cur] s' (-> & Hc & Hr). unfold parsed in Hr. cbn [fst snd] in *.
  set (s2 := set_ctx (with_cur cur (s_ctx s1)) s1).
  assert (quiet s s2) as Hq2 by (by apply quiet_with_cur).
  wp_step; [by apply out_l3_pass|].
  destruct Hr as [->|(_ & Hiph & _ & Hlen & Hde)]; [done|].
  assert (0 <= iph) by (rewrite Hiph; apply Hw1).
  change (data_end s1) with (data_end s2) in Hde. unfold_sizes.
  apply wp_bind. eapply wp_mono; [apply ld_in6_spec; lia|]. intros a s' ->.
  apply wp_bind, wp_upd_ctx. set (s3 := set_ctx _ s2).
  change (data_end s2) with (data_end s3) in Hde.
  assert (quiet s s3) as Hq3 by (unfold s3; auto with quietdb).
  assert (wf s3) as Hw3 by eauto with quietdb.
  wp_load. pose proof (loaded_range _ _ 1 _ (wf_bytes _ Hw3) ltac:(lia) Hload).
  apply wp_bind, wp_on_cur. eapply wp_mono.
  { apply (skip_ip6hdrext_spec s3 (wf_bytes _ Hw3)); [by apply quiet_cur_ok|]. lia. }
  intros [proto cur'] s' (-> & Hc' & Hp). cbn [fst snd] in *.
  set (s4 := set_ctx (with_cur cur' (s_ctx s3)) s3).
  assert (quiet s s4) as Hq4 by (by apply quiet_with_cur).
  wp_step; [by apply out_l3_pass|]. wp_step; [by apply out_l3_pass|].
  do 2 apply wp_bind, wp_upd_ctx. set (s5 := set_ctx _ _).
  change (data_end s3) with (data_end s5) in Hde.
  apply wp_bind. eapply wp_mono; [apply ld_in6_spec; lia|]. intros a' s' ->.
  apply wp_ret. split; [|done]. split; [|by left]. unfold s5. auto with quietdb.
Qed.

Lemma out_process_l3_spec s : wf s -> wp (out_process_l3 E) (out_l3_post s) s.
Proof.
  intros Hwf. destruct (Z.eqb_spec (ipver (s_ctx s)) (bpf_ntohs ETH_P_IP)) as [Hv|H4];
    [by apply out_process_l3_ipv4|].
  destruct (Z.eqb_spec (ipver (s_ctx s)) (bpf_ntohs ETH_P_IPV6)) as [Hv|H6];
    [by apply out_process_l3_ipv6|].
  unfold out_process_l3. apply wp_bind, wp_get_ctx.
  rewrite (proj2 (Z.eqb_neq _ _) H4), (proj2 (Z.eqb_neq _ _) H6). by apply out_l3_pass.
Qed.

Lemma out_process_l4_spec s : wf s -> wp (out_process_l4 E) (parsed_or_passed s) s.
Proof.
  intros Hwf. unfold out_process_l4. apply wp_bind, wp_get_ctx.
  wp_step; [|wp_step; [|by apply wp_stage_pass]].
  - eapply wp_count_parse; [done|done| |].
    { intros s1 Hw. apply parse_tcphdr_spec; [apply Hw|by apply quiet_cur_ok]. }
    intros r th s2 Hq Hw Hv _ Hth. cbv beta iota. wp_step; [by apply wp_stage_pass|].
    cbv zeta. wp_step; [by apply wp_stage_pass|]. apply wp_bind, wp_upd_ctx, wp_ret.
    split; [auto with quietdb|by left].
  - eapply wp_count_parse; [done|done| |].
    { intros s1 Hw. apply parse_udphdr_spec. by apply quiet_cur_ok. }
    intros r uh s2 Hq Hw Hv _ Huh. cbv beta iota. wp_step; [by apply wp_stage_pass|].
    destruct (Huh ltac:(lia)) as [H0 H1]. cbv zeta. wp_step; [by apply wp_stage_pass|].
    apply wp_bind, wp_upd_ctx. set (s3 := set_ctx _ s2).
    assert (quiet s s3) as Hq3 by (unfold s3; auto with quietdb).
    assert (wf s3) as Hw3 by eauto with quietdb.
    apply wp_bind. apply (wp_mono _ (fun _ s' => quiet s3 s')).
    { destruct (e_dns_mode E); [by apply egress_dns_filter_spec|by apply wp_ret]. }
    intros _ s4 Hq4. apply wp_ret. split; [by etrans|by left].
Qed.
End specs.

(** ** The program *)

(** The end of the filter: passed without a trace, or dropped by the
    destination policy on the way to the protected network. *)
Definition tc_end (E : Env) (s : St) (res : Z * bool) (s' : St) : Prop :=
  (res.1 = XFW_CTX_PASS E /\ quiet s s')
  \/ (res.1 = XFW_CTX_DROP E /\ res.2 = false /\ frame s s'
      /\ st_transmitted (s_stats s') = st_transmitted (s_stats s)
      /\ exists addr sz reason,
           s_ilog s' = register_incident E addr sz reason (s_ilog s)).

Section program.
Context (E : Env) (Hhook : e_hook E = HOOK_TC).

Lemma tc_codes : XFW_CTX_PASS E = TC_ACT_OK /\ XFW_CTX_DROP E = TC_ACT_SHOT.
Proof. unfold XFW_CTX_PASS, XFW_CTX_DROP. by rewrite Hhook. Qed.

Lemma prot_net_lookup_spec n s : net_ok n ->
  wp (prot_net_lookup E n) (fun _ s' => s' = s) s.
Proof. by destruct n as [|m [| |]|m [| |]]. Qed.

(** A verdict of the destination filter other than CONTINUE. *)
Lemma downstream_end s s1 r s2 :
  quiet s s1 -> verdict E s1 r s2 -> r <> XFW_CTX_CONTINUE -> tc_end E s (r, false) s2.
Proof.
  intros Hq Hv Hr. eapply quiet_verdict in Hv; [|exact Hq].
  destruct Hv as [| |s2 a z rs H1 H2 H3|]; try done.
  - by left.
  - right. simpl. eauto 8.
  - by rewrite Hhook in *.
Qed.

(** The trackers learn, then the packet passes. *)
Lemma learning_end s s1 u : wf s1 -> quiet s s1 ->
  wp (c <- get_ctx ;;
      (if l4_proto c =? XFW_L4_PROTO_TCP then tcp_auth_conn_egress_learning E
       else ret tt) ;;;
      ret (XFW_CTX_PASS E, u)) (tc_end E s) s1.
Proof.
  intros Hw Hq. apply wp_bind, wp_get_ctx, wp_bind.
  apply (wp_mono _ (fun _ s' => quiet s1 s')).
  { wp_step; [|by apply wp_ret]. eapply wp_mono; [by apply tcp_auth_conn_egress_learning_spec|].
    by intros _ s' []. }
  intros _ s2 Hq2. apply wp_ret. left. split; [done|]. by etrans.
Qed.

Lemma xfw_tc_egress_filter_spec s : wf s -> wp (xfw_tc_egress_filter E) (tc_end E s) s.
Proof.
  intros Hwf. unfold xfw_tc_egress_filter. apply wp_bind, wp_on_cur. eapply wp_mono.
  { apply (parse_ethhdr_spec s (wf_bytes _ Hwf)). by apply quiet_cur_ok. }
  intros [v cur] s' (-> & Hc & _). cbn [fst snd] in *.
  set (s2 := set_ctx (with_cur cur (s_ctx s)) s).
  assert (quiet s s2) as Hq2 by (by apply quiet_with_cur).
  wp_step.
  { apply wp_bind. unfold XFW_MAKE_CTX_PASS. apply wp_bind, wp_count_pass, wp_ret, wp_ret.
    left. split; [done|]. auto with quietdb. }
  apply wp_bind, wp_upd_ctx. set (s3 := set_ctx _ s2).
  assert (quiet s s3) as Hq3 by (unfold s3; auto with quietdb).
  assert (wf s3) as Hw3 by eauto with quietdb.
  apply wp_bind. eapply wp_mono; [by apply out_process_l3_spec|].
  intros [r net] s4 [[Hq4 Hr] Hn]. cbn [fst snd] in *.
  assert (quiet s s4) as Hq by (by etrans).
  wp_step; [apply wp_ret; left; by destruct Hr as [-> | ->]|].
  specialize (Hn ltac:(lia)). assert (wf s4) as Hw4 by eauto with quietdb.
  apply wp_bind. eapply wp_mono; [by apply out_process_l4_spec|].
  intros r4 s5 [Hq5 Hr5]. assert (quiet s s5) as Hq' by (by etrans).
  wp_step; [apply wp_ret; left; by destruct Hr5 as [-> | ->]|].
  assert (wf s5) as Hw5 by eauto with quietdb.
  apply wp_bind. eapply wp_mono; [by apply prot_net_lookup_spec|]. intros o s' ->.
  cbv zeta. destruct o as [n|]; simpl negb; cbv iota; apply wp_bind.
  2: { apply wp_ret. rewrite Z.eqb_refl. simpl. by apply learning_end. }
  unfold process_downstream_egress, CHAIN. apply wp_bind.
  eapply wp_mono; [by apply xfw_dst_filter_spec|]. intros r6 s6 [Hv6 _].
  destruct (Z.eqb_spec r6 XFW_CTX_CONTINUE) as [->|Hne]; simpl; apply wp_ret; simpl.
  - apply verdict_continue_inv in Hv6. apply learning_end; [eauto with quietdb|by etrans].
  - rewrite (proj2 (Z.eqb_neq _ _) Hne). simpl. apply wp_ret. by eapply downstream_end.
Qed.
End program.

(** ** Properties *)

Definition total_stat (upstream : bool) : XfwTrafficStat :=
  if upstream then XFW_TOTAL_UPSTREAM_EGRESS else XFW_TOTAL_DOWNSTREAM_EGRESS.
Definition passed_stat (upstream : bool) : XfwTrafficStat :=
  if upstream then XFW_PASSED_UPSTREAM_EGRESS else XFW_PASSED_DOWNSTREAM_EGRESS.

(** What the counters of the two directions show after a run. *)
Definition tc_counted (u passed : bool) (sz : Z) (t t' : XfwTrafficStat -> XfwPacketStats)
    : Prop :=
  t' (total_stat u) = bump sz (t (total_stat u))
  /\ t' (passed_stat u) = (if passed then bump sz (t (passed_stat u)) else t (passed_stat u))
  /\ t' (total_stat (negb u)) = t (total_stat (negb u))
  /\ t' (passed_stat (negb u)) = t (passed_stat (negb u)).

(** The counting at the end of [xfw_tc]. *)
Lemma tc_count_spec E u res s s1 (Q : unit -> St -> Prop) :
  frame s s1 ->
  (forall t', tc_counted u (res =? XFW_CTX_PASS E) (pkt_sz (s_ctx s))
                (st_traffic (s_stats s)) t' ->
     Q tt (set_stats (mkPerCpuStats (st_pass (s_stats s1)) (st_transmitted (s_stats s1)) t') s1)) ->
  wp (if u then
        count_traffic_stat XFW_TOTAL_UPSTREAM_EGRESS ;;;
        if res =? XFW_CTX_PASS E then count_traffic_stat XFW_PASSED_UPSTREAM_EGRESS
        else ret tt
      else
        count_traffic_stat XFW_TOTAL_DOWNSTREAM_EGRESS ;;;
        if res =? XFW_CTX_PASS E then count_traffic_stat XFW_PASSED_DOWNSTREAM_EGRESS
        else ret tt) Q s1.
Proof.
  intros Hf HQ. pose proof (fr_dir _ _ Hf) as Hd. pose proof (fr_sz _ _ Hf) as Hz.
  unfold tc_counted in HQ.
  destruct u; apply wp_bind, wp_count_traffic;
    (destruct (res =? XFW_CTX_PASS E); [apply wp_count_traffic|apply wp_ret]);
    apply HQ; simpl; rewrite <- Hz, <- !Hd by done; done.
Qed.

Section run.
Context (E : Env) (Hhook : e_hook E = HOOK_TC).

(** A run with a configuration and statistics. *)
Definition tc_outcome (c : XfwFilterCfg) (s : St) (r : Z) (s' : St) : Prop :=
  length (s_pkt s') = length (s_pkt s)
  /\ exists u,
    (r = XFW_CTX_PASS E /\ s_pkt s' = s_pkt s /\ s_ilog s' = s_ilog s
     /\ tc_counted u true (u32 (data_end s)) (st_traffic (s_stats s))
          (st_traffic (s_stats s')))
    \/ (u = false /\ r = drop_override E c
        /\ (exists addr sz reason,
              s_ilog s' = register_incident E addr sz reason (s_ilog s))
        /\ tc_counted u false (u32 (data_end s)) (st_traffic (s_stats s))
             (st_traffic (s_stats s'))).

Lemma xfw_tc_spec c s :
  e_cfg E = Some c -> cfg_wf c -> e_has_stats E = true -> Forall is_byte (s_pkt s) ->
  wp (xfw_tc E) (tc_outcome c s) s.
Proof.
  intros Ec Hwc Hst Hby. unfold xfw_tc. rewrite Ec, Hst. simpl.
  apply wp_bind, wp_modify, wp_bind. set (s0 := set_ctx _ s).
  assert (wf s0) as Hwf by (by split). eapply wp_mono; [by apply xfw_tc_egress_filter_spec|].
  intros [res u] s1 Hend. cbv beta iota. apply wp_bind.
  assert (frame s0 s1) as Hf by (destruct Hend as [[_ []]|(_ & _ & Hf & _)]; done).
  apply (tc_count_spec E u res s0 s1 _ Hf). intros t' Hcnt. cbv beta.
  apply wp_bind, wp_get_ctx, wp_ret. split; [apply Hf|]. exists u. simpl.
  pose proof (fr_cfg _ _ Hf) as Hcf.
  destruct Hend as [[Hr Hq]|(Hr & Hu & _ & _ & Hi)]; simpl in *; subst res.
  - left. rewrite finalize_pass. rewrite Z.eqb_refl in Hcnt. destruct Hq. auto.
  - right. rewrite (finalize_drop E c) by (by rewrite <- Hcf).
    rewrite (proj2 (Z.eqb_neq _ _) (drop_not_pass E)) in Hcnt. auto.
Qed.
End run.


Definition tc_sample : Env := sample_env HOOK_TC sample_cfg.
Definition out_state : St := sample_state sample_cfg (tcp_packet 2).

