(* ===== verification/Policy.v ===== *)
(** * Policy: the decisions of the source and DNS filters

    First packets on which the programs do something else than intended, then the
    theorems on single filters. *)

From S2P Require Import Prelude.
From S2P Require Import Enums.
From S2P Require Import Uapi.
From S2P Require Import Kernel.
From S2P Require Import Ctx.
From S2P Require Import IncidentLog.
From S2P Require Import Filter.
From S2P Require Import Verdict.
From S2P Require Import Parsing.
From S2P Require Import Dns.
From S2P Require Import Xdp.

(** * Packets on which the programs do something else than intended

    Concrete packets, evaluated by the model, for which the behaviour of the
    sources differs from what their comments or their other branches say. *)

(** ** The DNS filter and IPv6 extension headers *)

Definition dns_cfg : XfwFilterCfg :=
  with_rules (mkRulesCfg false all_bits (mkSyncookie 0 0 false)
    (mkTcpAnomaly false false false false 0 no_bits) false true
    (fun _ => XfwActionRule_default) (fun _ => XfwActionRule_default)) sample_cfg.

Definition dns_env : Env :=
  mkEnv HOOK_XDP sample_kernel no_maps (Some dns_cfg) true 1000000 0 0 1000 XFW_MODE_HOST
    true (Some (mkMetadata 0 0 0 0)).

(** An IPv6 frame with the given extension headers around a DNS response that
    nobody asked for. *)
Definition eth_ipv6 : list Z := [1;1;1;1;1;1; 2;2;2;2;2;2; 0x86;0xdd].
Definition ipv6_hdr (nexthdr len : Z) : list Z :=
  [0x60;0;0;0; 0;len;nexthdr;64] ++ replicate 16 1 ++ replicate 16 2.
Definition dns_response : list Z :=
  [0;53; 0x12;0x34; 0;20; 0;0] ++ [0xab;0xcd; 0x80;0; 0;1; 0;0; 0;0; 0;0].
Definition dns_plain : list Z := eth_ipv6 ++ ipv6_hdr 17 20 ++ dns_response.
(** Hop-by-hop options of 32 bytes. *)
Definition dns_with_options : list Z :=
  eth_ipv6 ++ ipv6_hdr 0 52 ++ ([17;3] ++ replicate 30 0) ++ dns_response.

(** The DNS filter drops a response that was not asked for, but lets the
    same response pass when 32 bytes of IPv6 hop-by-hop options precede it: a
    header that ends behind the bound made for IPv4 is taken for an internal
    error and not filtered. *)
Lemma dns_filter_bypassed_by_ipv6_options :
  fst <$> xfw_xdp dns_env (sample_state dns_cfg dns_plain) = Some XDP_DROP
  /\ fst <$> xfw_xdp dns_env (sample_state dns_cfg dns_with_options) = Some XDP_PASS.
Proof. split; vm_compute; reflexivity. Qed.

(** ** Evaluation mode and SYN cookies *)

Definition cookie_eval_cfg : XfwFilterCfg :=
  with_rules (mkRulesCfg true all_bits (mkSyncookie 0 10 true)
    (mkTcpAnomaly false false false false 0 no_bits) false false
    (fun _ => XfwActionRule_default) (fun _ => XfwActionRule_default)) sample_cfg.

(** A SYN with four bytes of options to a port nobody listens on. *)
Definition syn_with_options : list Z :=
  eth_ipv4 ++ [0x45;0;0;44; 0;1;0;0; 64;6;0;0; 10;0;0;1; 10;0;0;2]
  ++ [0x12;0x34; 0;80; 0;0;0;1; 0;0;0;0; 0x60;2; 0xff;0xff; 0;0;0;0; 2;4;5;180].

(** In evaluation mode a SYN that the SYN-cookie filter would drop for
    want of a listening socket is passed to the stack with its data offset
    rewritten to 5: the filter restores the offset only after a successful
    lookup. *)
Lemma evaluation_mode_passes_modified_syn :
  (fun '(r, s) => (r, s_pkt s !! 46%nat))
    <$> xfw_xdp (sample_env HOOK_XDP cookie_eval_cfg)
          (sample_state cookie_eval_cfg syn_with_options)
  = Some (XDP_PASS, Some 0x50)
  /\ syn_with_options !! 46%nat = Some 0x60.
Proof. split; [vm_compute|]; reflexivity. Qed.

(** ** Empty UDP datagrams *)

(** A well-formed UDP datagram without payload is dropped as having a bad
    header, while the parser itself accepts its length. *)
Lemma empty_datagram_dropped :
  fst <$> xfw_xdp (sample_env HOOK_XDP sample_cfg)
    (sample_state sample_cfg (eth_ipv4 ++ ipv4_hdr 17 ++ [0x12;0x34; 0;80; 0;8;0;0]))
  = Some XDP_DROP.
Proof. vm_compute. reflexivity. Qed.

(** * The decisions of the source and DNS filters

    Functional behaviour of single filters of the ingress program: the source
    rule with the longest matching prefix decides, a DNS response needs a
    recorded query, DNS names are skipped exactly. *)

(** ** Source addresses *)

(** [k] is a longest prefix of the map that matches the address. *)
Definition longest_match (m : gmap XfwIpv4LpmKey XfwSrcRule) (a : Z)
    (k : XfwIpv4LpmKey) (rule : XfwSrcRule) : Prop :=
  m !! k = Some rule /\ lpm4_matches k a = true
  /\ forall k' v', m !! k' = Some v' -> lpm4_matches k' a = true ->
       prefixlen4 k' <= prefixlen4 k.

(** The map of source rules that is active for an IPv4 packet. *)
Definition active_src4 (E : Env) (c : XfwGlobalCtx) : gmap XfwIpv4LpmKey XfwSrcRule :=
  SELECT_SHADOW_MAP (if l4_proto c =? XFW_L4_PROTO_UDP then map_src_4_udp (e_rules E)
                     else map_src_4_tcp (e_rules E)) (amap_src (cfg c)).
Definition src4_default (c : XfwGlobalCtx) : XfwActionRule :=
  rc_defaults (rules (cfg c))
    (if l4_proto c =? XFW_L4_PROTO_UDP then XFW_DEFAULT_SRC_IP_UDP_IP4
     else XFW_DEFAULT_SRC_IP_TCP_IP4).

(** Dropped with one incident of the packet's source. *)
Definition dropped_for (E : Env) (reason : XfwDropStat) (s : St) (r : Z) (s' : St) : Prop :=
  r = XFW_CTX_DROP E
  /\ s_ilog s' = register_incident E (ilog_addr (s_ctx s)) (pkt_sz (s_ctx s)) reason (s_ilog s).

Lemma wp_dropped_for E reason s :
  wp (XFW_MAKE_CTX_DROP E reason) (dropped_for E reason s) s.
Proof. unfold XFW_MAKE_CTX_DROP. by apply wp_bind. Qed.

(** What the filter does with the rule that the lookup found. *)
Definition src4_decide (E : Env) (c : XfwGlobalCtx) (orule : option XfwSrcRule) : P Z :=
  match orule with
  | Some rule =>
      if src_action rule =? XFW_ACTION_BLOCK
      then XFW_MAKE_CTX_DROP E XFW_DROP_SRC_IP_BLOCKED else
      if src_action rule =? XFW_ACTION_ALLOW
      then XFW_MAKE_CTX_PASS E XFW_SRC_IP_ALLOWED else
      XFW_ASSERT E (src_action rule =? XFW_ACTION_RATE_LIMIT) (
      src_rate_limit E MAP_SRC_RATELIM_REF (ilog_addr c) (src_named_idx rule)
        XFW_DROP_SRC_IP_RATE_LIMITED)
  | None =>
      let d := src4_default c in
      if action d =? XFW_ACTION_BLOCK
      then XFW_MAKE_CTX_DROP E XFW_DROP_SRC_IP_DEFAULT_BLOCKED else
      if action d =? XFW_ACTION_ALLOW then ret XFW_CTX_CONTINUE else
      XFW_ASSERT E (action d =? XFW_ACTION_RATE_LIMIT) (
      src_rate_limit E MAP_SRC_RATELIM_REF (ilog_addr c) (named_idx (rlimit d))
        XFW_DROP_SRC_IP_DEFAULT_RATE_LIMITED)
  end.

Lemma src_filter_ip_ipv4 E s a : ipver (s_ctx s) = bpf_htons ETH_P_IP ->
  src_filter_ip E (ipv4_populate_lpm_key a) s
  = src4_decide E (s_ctx s) (k_lpm4 (e_kernel E) (active_src4 E (s_ctx s)) a) s.
Proof.
  intros Hv. unfold src_filter_ip, populate_src_info, active_src4, src4_decide, src4_default.
  unfold bind at 1, get_ctx, bind at 1, get, ret at 1. rewrite Hv.
  change (bpf_ntohs ETH_P_IP =? bpf_ntohs ETH_P_IPV6) with false. cbv iota.
  by destruct (l4_proto (s_ctx s) =? XFW_L4_PROTO_UDP).
Qed.

(** For an IPv4 packet the rule of a longest matching prefix of the active
    map decides: BLOCK drops with an incident of the source, ALLOW passes the
    packet for good; only without any matching prefix the default decides,
    where BLOCK drops and ALLOW goes on to the next filter. *)
Lemma src_ip_longest_prefix_decides E s a :
  KernelSpec (e_kernel E) -> ipver (s_ctx s) = bpf_htons ETH_P_IP ->
  let m := active_src4 E (s_ctx s) in
  (exists k rule, longest_match m a k rule
    /\ (src_action rule = XFW_ACTION_BLOCK ->
        wp (src_filter_ip E (ipv4_populate_lpm_key a))
           (dropped_for E XFW_DROP_SRC_IP_BLOCKED s) s)
    /\ (src_action rule = XFW_ACTION_ALLOW ->
        wp (src_filter_ip E (ipv4_populate_lpm_key a))
           (fun r s' => r = XFW_CTX_PASS E /\ s_ilog s' = s_ilog s) s))
  \/ ((forall k v, m !! k = Some v -> lpm4_matches k a = false)
      /\ (action (src4_default (s_ctx s)) = XFW_ACTION_BLOCK ->
          wp (src_filter_ip E (ipv4_populate_lpm_key a))
             (dropped_for E XFW_DROP_SRC_IP_DEFAULT_BLOCKED s) s)
      /\ (action (src4_default (s_ctx s)) = XFW_ACTION_ALLOW ->
          wp (src_filter_ip E (ipv4_populate_lpm_key a))
             (fun r s' => r = XFW_CTX_CONTINUE /\ s' = s) s)).
Proof.
  intros HK Hv m. unfold wp. rewrite (src_filter_ip_ipv4 E s a Hv). fold m.
  destruct (k_lpm4 (e_kernel E) m a) as [rule|] eqn:Hl.
  - left. destruct (lpm4_some _ _ _ _ Hl) as (k & Hk & Hm & Hmax).
    exists k, rule. split; [done|]. unfold src4_decide.
    split; intros ->; [by apply (wp_dropped_for E)|done].
  - right. split; [exact (lpm4_none _ _ _ Hl)|]. unfold src4_decide.
    split; intros ->; [by apply (wp_dropped_for E)|done].
Qed.

(** ** DNS names *)

(** A name as a sequence of labels, RFC 1035. *)
Definition encode_label (l : list Z) : list Z := Z.of_nat (length l) :: l.
Definition encode_name (ls : list (list Z)) : list Z := concat (encode_label <$> ls) ++ [0].

Definition label_wf (l : list Z) : Prop := (0 < length l <= 63)%nat.

Lemma wp_ld8_at p x (Q : Z -> St -> Prop) s :
  0 <= p -> s_pkt s !! Z.to_nat p = Some x -> Q x s -> wp (ld8 p) Q s.
Proof.
  intros Hp Hx HQ. pose proof (lookup_lt_Some _ _ _ Hx). unfold ld8.
  apply wp_ld; [done|lia|unfold data_end; lia|]. intros b Hb.
  rewrite slice_Some in Hb by lia. rewrite (drop_S _ _ _ Hx) in Hb. simpl in Hb.
  rewrite firstn_O in Hb. injection Hb as <-. simpl. by rewrite Z.add_0_r.
Qed.

Lemma encode_name_cons l ls :
  encode_name (l :: ls) = Z.of_nat (length l) :: l ++ encode_name ls.
Proof. unfold encode_name. simpl. by rewrite <- app_assoc. Qed.

(** A length byte has the two high bits clear. *)
Lemma label_not_compressed n : 0 <= n <= 63 -> Z.land n DNS_NAME_COMPRESSION_LABEL = 0.
Proof.
  intros Hn. unfold DNS_NAME_COMPRESSION_LABEL. change 0xC0 with (Z.shiftl 3 6).
  apply land_low_high; lia.
Qed.

Section names.
Context (s : St).

Lemma process_label_at c offset l rest :
  cend c = data_end s -> 0 <= pos c -> 0 <= offset <= MAX_DNS_NAME ->
  (length l <= 63)%nat ->
  drop (Z.to_nat (pos c + offset)) (s_pkt s) = Z.of_nat (length l) :: l ++ rest ->
  wp (process_label c offset) (fun r s' => s' = s
    /\ r = (if Z.of_nat (length l) =? 0 then DNS_LABEL_FOUND else DNS_LABEL_CONTINUE,
            offset + (Z.of_nat (length l) + 1))) s.
Proof.
  intros Hc Hp Ho Hl Hd.
  assert (Z.of_nat (length (Z.of_nat (length l) :: l ++ rest))
          = data_end s - (pos c + offset)) as Hlen.
  { rewrite <- Hd, length_drop. apply (f_equal length) in Hd.
    rewrite length_drop in Hd. simpl in Hd. unfold data_end. lia. }
  simpl in Hlen. rewrite length_app in Hlen.
  unfold process_label. rewrite Hc, (proj2 (Z.ltb_ge _ _)) by lia.
  cbv zeta. rewrite (proj2 (Z.ltb_ge (data_end s) _)) by lia.
  apply wp_bind, (wp_ld8_at _ (Z.of_nat (length l))); [lia| |].
  { rewrite <- (Nat.add_0_r (Z.to_nat _)), <- lookup_drop, Hd. done. }
  rewrite label_not_compressed by lia. simpl (_ =? _). cbv iota.
  rewrite (proj2 (Z.ltb_ge 63 _)), (proj2 (Z.ltb_ge (data_end s) _)) by lia. simpl.
  by destruct (_ =? 0).
Qed.

Lemma process_labels_encoded ls : forall n c offset rest,
  cend c = data_end s -> 0 <= pos c -> 0 <= offset -> (length ls < n)%nat ->
  Forall label_wf ls ->
  drop (Z.to_nat (pos c + offset)) (s_pkt s) = encode_name ls ++ rest ->
  offset + Z.of_nat (length (encode_name ls)) <= MAX_DNS_NAME + 1 ->
  wp (process_labels n c offset) (fun r s' => s' = s
    /\ r = Some (offset + Z.of_nat (length (encode_name ls)))) s.
Proof.
  induction ls as [|l ls IH]; intros n c offset rest Hc Hp Ho Hn Hwf Hd Hmax;
    (destruct n as [|n]; [simpl in Hn; lia|]); simpl process_labels; apply wp_bind.
  - eapply wp_mono; [apply (process_label_at c offset [] rest); try exact Hd; simpl in *; lia|].
    intros [r o] s' (-> & [= -> ->]). by apply wp_ret.
  - rewrite encode_name_cons in *. inversion_clear Hwf as [|? ? Hl Hls].
    unfold label_wf in Hl. simpl in Hmax. rewrite length_app in Hmax.
    assert (0 < Z.of_nat (length (encode_name ls))) as Hpos
      by (unfold encode_name; rewrite length_app; simpl; lia).
    eapply wp_mono.
    { apply (process_label_at c offset l (encode_name ls ++ rest)); try done; try lia.
      rewrite Hd. simpl. by rewrite <- app_assoc. }
    intros [r o] s' (-> & [= -> ->]). rewrite (proj2 (Z.eqb_neq (Z.of_nat (length l)) 0)) by lia. simpl.
    eapply wp_mono.
    { apply (IH n c _ rest); try done; try lia; [simpl in Hn; lia|].
      replace (Z.to_nat (pos c + (offset + (Z.of_nat (length l) + 1))))
        with (Z.to_nat (pos c + offset) + (1 + length l))%nat by lia.
      rewrite <- drop_drop, Hd. simpl. rewrite <- app_assoc. apply drop_app_length. }
    intros r s' (-> & ->). split; [done|]. f_equal. rewrite length_app. lia.
Qed.
End names.

Lemma encode_name_labels ls : Forall label_wf ls ->
  (2 * length ls + 1 <= length (encode_name ls))%nat.
Proof.
  induction 1 as [|l ls Hl _ IH]; [done|]. rewrite encode_name_cons.
  unfold label_wf in Hl. simpl. rewrite length_app. lia.
Qed.

Lemma process_dname_global_encoded s md ls rest :
  s_meta s = Some md -> 0 <= md_cur_pos md ->
  Forall label_wf ls -> Z.of_nat (length (encode_name ls)) <= MAX_DNS_NAME ->
  drop (Z.to_nat (md_cur_pos md)) (s_pkt s) = encode_name ls ++ rest ->
  md_cur_pos md + Z.of_nat (length (encode_name ls)) <= MAX_DNS_UDP_PACKET ->
  wp process_dname_global (fun r s' => r = 0 /\ s' = set_meta (Some (with_cur_pos
    (md_cur_pos md + Z.of_nat (length (encode_name ls))) md)) s) s.
Proof.
  intros Hmd H0 Hwf Hlen Hd Hmax. pose proof (encode_name_labels ls Hwf).
  unfold process_dname_global, init_cursor, MAX_DNS_UDP_PACKET, MAX_DNS_NAME in *.
  apply wp_bind, wp_bind, wp_get, wp_ret, wp_bind, wp_get. rewrite Hmd.
  rewrite (proj2 (Z.ltb_ge _ _)) by lia. apply wp_bind. eapply wp_mono.
  { apply (process_labels_encoded s ls _ _ 0 rest); try done; try (simpl; unfold DATA_BGN; lia).
    - simpl. unfold DATA_BGN. by rewrite Z.add_0_l, Z.add_0_r.
    - unfold MAX_DNS_NAME. lia. }
  intros r s' (-> & ->). apply wp_bind, wp_modify, wp_ret. split; [done|].
  rewrite Z.add_0_l, wrap_small by lia. done.
Qed.

(** A well-formed domain name in a DNS message is skipped exactly: the
    cursor ends behind the terminating zero, and nothing but the parser's own
    metadata changes. *)
Lemma dns_name_skipped s md cur ls rest :
  s_meta s = Some md -> cend cur = data_end s -> 0 <= pos cur ->
  Forall label_wf ls -> Z.of_nat (length (encode_name ls)) <= MAX_DNS_NAME ->
  drop (Z.to_nat (pos cur)) (s_pkt s) = encode_name ls ++ rest -> rest <> [] ->
  pos cur + Z.of_nat (length (encode_name ls)) <= MAX_DNS_UDP_PACKET ->
  exists md', process_dname cur s
    = Some ((0, mkCursor (pos cur + Z.of_nat (length (encode_name ls))) (cend cur)),
            set_meta (Some md') s).
Proof.
  intros Hmd Hc H0 Hwf Hlen Hd Hrest Hmax.
  enough (wp (process_dname cur) (fun r s' =>
    r = (0, mkCursor (pos cur + Z.of_nat (length (encode_name ls))) (cend cur))
    /\ exists md', s' = set_meta (Some md') s) s) as Hw.
  { destruct (wp_run _ _ _ Hw) as (r & s' & Hrun & -> & md' & ->). eauto. }
  assert (pos cur + Z.of_nat (length (encode_name ls)) < cend cur) as Hend.
  { apply (f_equal length) in Hd. rewrite length_drop, length_app in Hd.
    destruct rest; [done|]. rewrite Hc. unfold data_end. simpl in Hd. lia. }
  unfold process_dname, DATA_BGN. apply wp_bind, wp_get. rewrite Hmd.
  apply wp_bind, wp_modify, wp_bind.
  set (md1 := with_cur_pos _ md). unfold MAX_DNS_UDP_PACKET, MAX_DNS_NAME in *.
  assert (md_cur_pos md1 = pos cur) as Hp1 by (simpl; rewrite wrap_small; lia).
  eapply wp_mono.
  { apply (process_dname_global_encoded (set_meta (Some md1) s) md1 ls rest);
      rewrite ?Hp1; done. }
  intros r s' (-> & ->). rewrite Hp1. simpl. apply wp_bind, wp_get. simpl.
  rewrite (proj2 (Z.ltb_ge _ _)) by (unfold MAX_DNS_UDP_PACKET; lia).
  rewrite (proj2 (Z.leb_gt _ _)) by lia. apply wp_ret. split; [done|]. by eexists.
Qed.

(** ** DNS responses *)

(** The transaction ids in the tracker after any runs of the egress filter,
    with the ids of the queries that were sent, newest first. *)
Inductive dns_reach (E : Env) : gmap Z Z -> list Z -> Prop :=
  | dns_reach_empty : dns_reach E ∅ []
  | dns_reach_evict m m' h : dns_reach E m h -> m' ⊆ m -> dns_reach E m' h
  | dns_reach_egress s s' uh dh cur id flags h :
      dns_reach E (s_dns s) h -> wf s -> 0 <= uh -> uh + SIZEOF_UDPHDR <= data_end s ->
      parse_dnshdr (hdr_cur (s_ctx s)) = (Some dh, cur) ->
      slice (s_pkt s) dh 2 = Some id -> slice (s_pkt s) (dh + 2) 2 = Some flags ->
      egress_dns_filter E uh s = Some (tt, s') ->
      dns_reach E (s_dns s')
        (if dns_get_qr (bpf_ntohs (le_combine flags)) =? DNS_QUERY
         then le_combine id :: h else h).

Section responses.
Context (E : Env) `{!KernelSpec (e_kernel E)}.

Lemma dns_upd_lookup m id k v :
  (k_upd_dns_egr (e_kernel E) m id 0 BPF_NOEXIST).2 !! k = Some v ->
  k = id \/ m !! k = Some v.
Proof.
  destruct (k_upd_dns_egr _ _ _ _ _) as [r m'] eqn:Hu. simpl. intros Hk.
  destruct (decide (k = id)) as [->|Hne]; [by left|right].
  destruct (decide (0 <= r)).
  - by eapply (lru_ok _ _ _ _ _ _ Hu).
  - eapply lookup_weaken; [done|]. eapply (lru_err _ _ _ _ _ _ Hu). lia.
Qed.

(** The egress filter adds at most the id of a query. *)
Lemma egress_dns_filter_ids uh s dh cur id flags :
  wf s -> 0 <= uh -> uh + SIZEOF_UDPHDR <= data_end s ->
  parse_dnshdr (hdr_cur (s_ctx s)) = (Some dh, cur) ->
  slice (s_pkt s) dh 2 = Some id -> slice (s_pkt s) (dh + 2) 2 = Some flags ->
  wp (egress_dns_filter E uh) (fun _ s' => forall k v, s_dns s' !! k = Some v ->
    s_dns s !! k = Some v
    \/ (k = le_combine id /\ dns_get_qr (bpf_ntohs (le_combine flags)) = DNS_QUERY)) s.
Proof.
  intros Hwf H0 H1 Hp Hid Hfl. unfold egress_dns_filter. apply wp_bind, wp_get_ctx.
  wp_step; [apply wp_ret; auto|]. do 2 wp_load. wp_step; [apply wp_ret; auto|]. rewrite Hp.
  apply simple_parse_spec in Hp as (-> & Hin & ->). pose proof (wf_end _ Hwf) as Hce.
  pose proof (wf_pos _ Hwf). unfold dh_flags, dh_id, SIZEOF_DNSHDR in *.
  apply wp_bind, wp_upd_ctx. set (s1 := set_ctx _ s). rewrite Hce in Hin.
  change (data_end s) with (data_end s1) in Hin. wp_load.
  assert (b1 = flags) as -> by (simpl in Hload1; congruence).
  wp_step; [|apply wp_ret; auto]. wp_load.
  assert (b1 = id) as -> by (simpl in Hload2; congruence).
  apply wp_modify. intros k v Hk. simpl in Hk. apply dns_upd_lookup in Hk as [->|Hk]; [|auto].
  right. split; [done|]. by apply Z.eqb_eq.
Qed.

Lemma dns_reach_asked m h k v : dns_reach E m h -> m !! k = Some v -> k ∈ h.
Proof.
  intros Hr. revert k v.
  induction Hr as [|m m' h _ IH Hsub
                  |s s' uh dh cur id flags h _ IH Hwf H0 H1 Hp Hid Hfl Hrun]; intros k v Hk.
  - done.
  - eapply IH. by eapply lookup_weaken.
  - destruct (run_wp _ _ _ _ _ Hrun
      (egress_dns_filter_ids uh s dh cur id flags Hwf H0 H1 Hp Hid Hfl) k v Hk)
      as [Hold|[-> Hq]].
    + apply IH in Hold. destruct (_ =? _); [by right|done].
    + rewrite Hq. left.
Qed.
End responses.


(** A query leaves, its response comes back. *)
Definition query_pkt : list Z :=
  eth_ipv4 ++ ipv4_hdr 17 ++ [0x12;0x34; 0;53; 0;20;0;0]
  ++ [0xab;0xcd; 1;0; 0;1; 0;0; 0;0; 0;0].
Definition query_state : St :=
  set_ctx (with_cur (mkCursor 42 54) (sample_ctx dns_cfg 54)) (sample_state dns_cfg query_pkt).
Definition asked : gmap Z Z :=
  match egress_dns_filter dns_env 34 query_state with Some (_, s) => s_dns s | None => ∅ end.
Definition answer_state : St :=
  set_dns asked (set_meta (Some (mkMetadata 0 0 0 0))
    (sample_state dns_cfg ([0xab;0xcd; 0x80;0; 0;1; 0;0; 0;0; 0;0] ++ [0; 0;1; 0;1]))).
Definition answer_ctx : XfwDnsCtx := mkDnsCtx (mkCursor 12 17) zero_ip 17.

Lemma query_sent : exists s', egress_dns_filter dns_env 34 query_state = Some (tt, s')
  /\ s_dns s' = asked.
Proof.
  destruct (egress_dns_filter dns_env 34 query_state) as [[[] s']|] eqn:Hr.
  - exists s'. split; [done|]. unfold asked. by rewrite Hr.
  - exfalso. enough (is_Some (egress_dns_filter dns_env 34 query_state)) as [x Hx] by congruence.
    vm_compute. by eexists.
Qed.

