(* ===== verification/Bitset.v ===== *)
(** * Bitset: the byte-addressed bit set of user space

    src/lib/bitset.hh ([BitSet<EnumType, MaxBit>], an array of bytes indexed by
    an enumeration) and src/lib/proto/bitset_helper.hh. The manager copies the
    bytes over the 64-bit words that the BPF programs test
    (src/bpf/bitset_tools.h); [memcpy_words] is that copy on a little-endian
    machine, and [bitset_upload_agrees] shows that both sides read the same set. *)

From S2P Require Import Prelude.
From S2P Require Import Ctx.
From S2P Require Import Filter.

(** ** bitset.hh

    Indices stay within the enumeration's maximum; the access outside [data_],
    undefined in the source, is written as no change and [false]. *)
Definition ByteCount (MaxBit : Z) : nat := Z.to_nat ((MaxBit + 1 + 7) / 8).

Definition BitSet_empty (MaxBit : Z) : list Z := replicate (ByteCount MaxBit) 0.

Definition BitSet_set (flag : Z) (data : list Z) : list Z :=
  alter (fun b => u8 (Z.lor b (Z.shiftl 1 (flag mod 8)))) (Z.to_nat (flag / 8)) data.

Definition BitSet_unset (flag : Z) (data : list Z) : list Z :=
  alter (fun b => u8 (Z.land b (Z.lnot (Z.shiftl 1 (flag mod 8)))))
    (Z.to_nat (flag / 8)) data.

Definition BitSet_clear (data : list Z) : list Z := replicate (length data) 0.

Definition BitSet_test (flag : Z) (data : list Z) : bool :=
  match data !! Z.to_nat (flag / 8) with
  | Some b => negb (Z.land b (Z.shiftl 1 (flag mod 8)) =? 0)
  | None => false
  end.

(** The constructor from a buffer: what does not fit is left out, what is missing
    is zero. *)
Definition BitSet_of_raw (MaxBit : Z) (raw : list Z) : list Z :=
  take (ByteCount MaxBit) raw ++ drop (length (take (ByteCount MaxBit) raw)) (BitSet_empty MaxBit).

(** [operator==] and [operator!=]. *)
Definition BitSet_eqb (a b : list Z) : bool := bool_decide (a = b).

(** [operator|] and [operator|=]. *)
Definition BitSet_or (a b : list Z) : list Z := zip_with Z.lor a b.

(** ** bitset_helper.hh *)

Definition bitset_serialize (data : list Z) : list Z := data.

Definition bitset_deserialize (MaxBit : Z) (vec : list Z) : option (list Z) :=
  if (length vec =? ByteCount MaxBit)%nat then Some vec else None.

(** [std::memcpy] of the bytes over an array of [n] 64-bit words. *)
Definition memcpy_words (n : nat) (data : list Z) : list Z :=
  map (fun i => le_combine (take 8 (drop (8 * i) data))) (seq 0 n).

(** ** Membership *)

Definition bitset_wf (MaxBit : Z) (data : list Z) : Prop :=
  length data = ByteCount MaxBit /\ Forall is_byte data.

Lemma land_bit w k : 0 <= k -> negb (Z.land w (Z.shiftl 1 k) =? 0) = Z.testbit w k.
Proof.
  intros Hk. rewrite Z.shiftl_1_l. destruct (Z.testbit w k) eqn:Hb.
  - apply negb_true_iff, Z.eqb_neq. intros H0.
    apply (f_equal (fun x => Z.testbit x k)) in H0.
    rewrite Z.land_spec, Hb, Z.pow2_bits_true, Z.bits_0 in H0; done.
  - apply negb_false_iff, Z.eqb_eq, Z.bits_inj'. intros i Hi.
    rewrite Z.land_spec, Z.bits_0. destruct (decide (i = k)) as [->|Hne].
    + by rewrite Hb.
    + rewrite Z.pow2_bits_false by lia. apply andb_false_r.
Qed.

Lemma BitSet_test_lookup flag data :
  BitSet_test flag data
  = match data !! Z.to_nat (flag / 8) with
    | Some b => Z.testbit b (flag mod 8) | None => false end.
Proof.
  unfold BitSet_test. destruct (data !! _); [|done]. apply land_bit. dlia.
Qed.

Lemma byte_testbit_high b i : is_byte b -> 8 <= i -> Z.testbit b i = false.
Proof. intros Hb Hi. by apply (testbit_above b 8). Qed.

Lemma le_combine_testbit l i :
  Forall is_byte l -> 0 <= i ->
  Z.testbit (le_combine l) i
  = match l !! Z.to_nat (i / 8) with
    | Some b => Z.testbit b (i mod 8) | None => false end.
Proof.
  intros Hl. revert i. induction Hl as [|b l Hb Hl IH]; intros i Hi; cbn [le_combine].
  { by rewrite Z.bits_0. }
  assert (b + 256 * le_combine l = Z.lor b (Z.shiftl (le_combine l) 8)) as ->.
  { rewrite lor_low_high by (unfold is_byte in Hb; lia). lia. }
  rewrite Z.lor_spec. destruct (decide (i < 8)).
  - rewrite Z.shiftl_spec_low, orb_false_r by lia.
    rewrite (Z.div_small i 8), (Z.mod_small i 8) by lia. done.
  - rewrite byte_testbit_high by (done || lia). rewrite Z.shiftl_spec, IH by lia.
    replace (Z.to_nat (i / 8)) with (S (Z.to_nat ((i - 8) / 8))) by dlia.
    replace (i mod 8) with ((i - 8) mod 8) by dlia. done.
Qed.

Lemma memcpy_words_lookup n data i :
  (i < n)%nat -> memcpy_words n data !! i = Some (le_combine (take 8 (drop (8 * i) data))).
Proof.
  intros Hi. unfold memcpy_words. rewrite list_lookup_fmap, lookup_seq_lt by done. done.
Qed.

Lemma length_memcpy_words n data : length (memcpy_words n data) = n.
Proof. unfold memcpy_words. by rewrite length_map, length_seq. Qed.

(** The word test of the BPF programs is the byte test of user space. *)
Lemma bpf_bitset64_test_words data idx s :
  Forall is_byte data -> 0 <= idx < 256 ->
  bpf_bitset64_test (memcpy_words 4 data) idx s = Some (BitSet_test idx data, s).
Proof.
  intros Hb Hi. unfold bpf_bitset64_test, arr_get, get_opt, bind, ret.
  rewrite memcpy_words_lookup by dlia. cbv beta iota. do 2 f_equal.
  rewrite land_bit by dlia. rewrite le_combine_testbit;
    [|by apply Forall_take, Forall_drop|dlia].
  rewrite BitSet_test_lookup.
  rewrite lookup_take_lt, lookup_drop by dlia.
  replace (8 * Z.to_nat (idx / 64) + Z.to_nat (idx mod 64 / 8))%nat
    with (Z.to_nat (idx / 8)) by dlia.
  replace (idx mod 64 mod 8) with (idx mod 8) by dlia. done.
Qed.

Lemma length_BitSet_set flag data : length (BitSet_set flag data) = length data.
Proof. apply length_alter. Qed.

Lemma BitSet_set_bytes flag data :
  Forall is_byte data -> Forall is_byte (BitSet_set flag data).
Proof.
  intros Hb. apply Forall_alter; [done|]. intros x _ _. apply (wrap_range 8). lia.
Qed.

Lemma lookup_BitSet_set flag data j :
  BitSet_set flag data !! j
  = if decide (j = Z.to_nat (flag / 8))
    then (fun b => u8 (Z.lor b (Z.shiftl 1 (flag mod 8)))) <$> data !! j
    else data !! j.
Proof.
  unfold BitSet_set. case_decide as Hj.
  - subst. apply list_lookup_alter_eq.
  - by apply list_lookup_alter_ne.
Qed.

Lemma u8_testbit x i : 0 <= i < 8 -> Z.testbit (u8 x) i = Z.testbit x i.
Proof. intros. unfold wrap. by rewrite Z.mod_pow2_bits_low by lia. Qed.

Lemma BitSet_test_set flag f data :
  0 <= flag -> 0 <= f -> (Z.to_nat (flag / 8) < length data)%nat ->
  BitSet_test f (BitSet_set flag data) = (f =? flag) || BitSet_test f data.
Proof.
  intros Hg Hf Hl. rewrite !BitSet_test_lookup, lookup_BitSet_set.
  case_decide as Hj.
  - destruct (data !! Z.to_nat (f / 8)) eqn:Hd; cbn.
    + rewrite u8_testbit by dlia. rewrite Z.lor_spec, Z.shiftl_1_l.
      rewrite Z.pow2_bits_eqb, orb_comm by dlia. f_equal. dlia.
    + apply lookup_ge_None in Hd. lia.
  - destruct (Z.eqb_spec f flag); [subst; done|done].
Qed.

Lemma BitSet_test_or f a b :
  length a = length b -> BitSet_test f (BitSet_or a b) = BitSet_test f a || BitSet_test f b.
Proof.
  intros Hl. rewrite !BitSet_test_lookup. unfold BitSet_or. rewrite lookup_zip_with.
  destruct (a !! _) eqn:Ha, (b !! _) eqn:Hb; cbn; try done.
  - apply Z.lor_spec.
  - apply lookup_lt_Some in Ha. apply lookup_ge_None in Hb. lia.
  - apply lookup_ge_None in Ha. apply lookup_lt_Some in Hb. lia.
Qed.

Lemma lor_byte a b : is_byte a -> is_byte b -> is_byte (Z.lor a b).
Proof.
  unfold is_byte. intros Ha Hb. split; [apply Z.lor_nonneg; lia|].
  destruct (decide (Z.lor a b = 0)) as [->|]; [lia|].
  assert (0 <= Z.lor a b) by (apply Z.lor_nonneg; lia).
  apply (Z.log2_lt_pow2 _ 8); [lia|]. rewrite Z.log2_lor by lia.
  assert (forall x, 0 <= x < 256 -> Z.log2 x < 8).
  { intros x Hx. destruct (decide (x = 0)) as [->|]; [done|].
    apply Z.log2_lt_pow2; lia. }
  apply Z.max_lub_lt; auto.
Qed.

Lemma BitSet_or_wf MaxBit a b :
  bitset_wf MaxBit a -> bitset_wf MaxBit b -> bitset_wf MaxBit (BitSet_or a b).
Proof.
  intros [Ha Hab] [Hb Hbb]. split.
  - unfold BitSet_or. rewrite length_zip_with. lia.
  - unfold BitSet_or. eapply Forall_zip_with_fst; [exact Hab|].
    eapply Forall_impl; [|exact Hbb]. intros y Hy x Hx. by apply lor_byte.
Qed.

Lemma BitSet_set_wf MaxBit flag data :
  bitset_wf MaxBit data -> bitset_wf MaxBit (BitSet_set flag data).
Proof.
  intros [H1 H2]. split; [by rewrite length_BitSet_set|by apply BitSet_set_bytes].
Qed.

Lemma BitSet_empty_wf MaxBit : bitset_wf MaxBit (BitSet_empty MaxBit).
Proof.
  split; [apply length_replicate|]. apply Forall_replicate. unfold is_byte. lia.
Qed.

Lemma BitSet_test_empty MaxBit f : BitSet_test f (BitSet_empty MaxBit) = false.
Proof.
  rewrite BitSet_test_lookup. destruct (_ !! _) eqn:Hx; [|done].
  apply lookup_replicate in Hx as [-> _]. apply Z.bits_0.
Qed.

(** The bytes of a bit set that the manager copies over the configuration
    are read back by the BPF programs as the same set: for every index of the
    256-bit sets the word test of the programs is the byte test of user space. *)
Lemma bitset_upload_agrees data idx s :
  bitset_wf 255 data -> 0 <= idx <= 255 ->
  bpf_bitset64_test (memcpy_words 4 data) idx s = Some (BitSet_test idx data, s).
Proof. intros [_ Hb] Hi. apply bpf_bitset64_test_words; [done|lia]. Qed.
