(* ===== verification/AnomalyFlags.v ===== *)
(** * AnomalyFlags: the forbidden combinations of TCP flags

    src/manager/xfw/tcp_anomaly_flags.cc computes the sets of RFC-prohibited and
    of suspicious combinations which the manager uploads for the anomaly filter
    (src/bpf/tcp_anomaly_filter.h). The theorems connect the two: a segment with
    a combination of the uploaded set is dropped, and the set holds what the
    predicates of the manager say, except for the combination of all flags. *)

From S2P Require Import Prelude.
From S2P Require Import Enums.
From S2P Require Import Uapi.
From S2P Require Import Kernel.
From S2P Require Import Ctx.
From S2P Require Import Filter.
From S2P Require Import Verdict.
From S2P Require Import Parsing.
From S2P Require Import TcpAnomaly.
From S2P Require Import Xdp.
From S2P Require Import Bitset.

(** ** bpf_uapi/tcp_control_bits.h *)

Definition XFW_BIT_NONE : Z := 0x00.
Definition XFW_BIT_FIN : Z := 0x01.
Definition XFW_BIT_SYN : Z := 0x02.
Definition XFW_BIT_RST : Z := 0x04.
Definition XFW_BIT_PSH : Z := 0x08.
Definition XFW_BIT_URG : Z := 0x20.
Definition XFW_BIT_CONTROL_MAX : Z := 0xFF.

(** ** tcp_anomaly_flags.cc *)

Definition flags_match (value mask : Z) : bool := Z.land value mask =? mask.

Definition is_rfc_prohibited_combination (c : Z) : bool :=
  flags_match c (Z.lor XFW_BIT_SYN XFW_BIT_FIN)
  || flags_match c (Z.lor XFW_BIT_SYN XFW_BIT_RST)
  || flags_match c (Z.lor XFW_BIT_RST XFW_BIT_FIN).

Definition is_suspicious_combination (flag : Z) : bool :=
  (flag =? XFW_BIT_FIN) || (flag =? XFW_BIT_NONE)
  || flags_match flag (Z.lor (Z.lor XFW_BIT_FIN XFW_BIT_PSH) XFW_BIT_URG)
  || flags_match flag (Z.lor XFW_BIT_SYN XFW_BIT_PSH)
  || flags_match flag (Z.lor XFW_BIT_SYN XFW_BIT_URG)
  || flags_match flag (Z.lor XFW_BIT_RST XFW_BIT_PSH)
  || flags_match flag (Z.lor XFW_BIT_RST XFW_BIT_URG).

(** The loop of [make_rules_bitset] over [i < XFW_BIT_CONTROL_MAX]. *)
Definition make_rules_bitset (check : Z -> bool) : list Z :=
  foldl (fun (bs : list Z) (i : Z) => if check i then BitSet_set i bs else bs)
    (BitSet_empty XFW_BIT_CONTROL_MAX) (seqZ 0 XFW_BIT_CONTROL_MAX).

Definition xfw_prohibited_rules : list Z := make_rules_bitset is_rfc_prohibited_combination.
Definition xfw_suspicious_rules : list Z := make_rules_bitset is_suspicious_combination.

(** ** What the sets hold *)

Lemma rules_bitset_fold (check : Z -> bool) l bs f :
  Forall (fun i => 0 <= i <= 255) l -> bitset_wf 255 bs -> 0 <= f ->
  let bs' := foldl (fun (bs : list Z) (i : Z) => if check i then BitSet_set i bs else bs) bs l in
  bitset_wf 255 bs'
  /\ BitSet_test f bs' = (bool_decide (f ∈ l) && check f) || BitSet_test f bs.
Proof.
  intros Hl. revert bs. induction Hl as [|i l Hi Hl IH]; intros bs Hwf Hf; cbn.
  { done. }
  destruct (IH (if check i then BitSet_set i bs else bs)) as [Hw Ht];
    [destruct (check i); [by apply BitSet_set_wf|done]|done|].
  split; [done|]. rewrite Ht.
  assert (BitSet_test f (if check i then BitSet_set i bs else bs)
          = ((f =? i) && check i) || BitSet_test f bs) as ->.
  { destruct (check i); [|by rewrite andb_false_r]. rewrite andb_true_r.
    apply BitSet_test_set; [lia|lia|]. destruct Hwf as [-> _].
    change (ByteCount 255) with 32%nat. dlia. }
  rewrite orb_assoc. f_equal. destruct (Z.eqb_spec f i) as [->|Hne].
  - rewrite (bool_decide_eq_true_2 (i ∈ i :: l)) by set_solver.
    destruct (check i); [by rewrite orb_true_r|by rewrite andb_false_r].
  - rewrite orb_false_r. f_equal. apply bool_decide_ext. set_solver.
Qed.

Lemma control_range : Forall (fun i => 0 <= i <= 255) (seqZ 0 XFW_BIT_CONTROL_MAX).
Proof. apply Forall_seqZ. unfold XFW_BIT_CONTROL_MAX. lia. Qed.

Lemma rules_bitset_wf (check : Z -> bool) : bitset_wf 255 (make_rules_bitset check).
Proof.
  apply (rules_bitset_fold check _ _ 0);
    [apply control_range|apply BitSet_empty_wf|lia].
Qed.

Lemma rules_bitset_test (check : Z -> bool) f :
  0 <= f -> BitSet_test f (make_rules_bitset check) = (f <? 255) && check f.
Proof.
  intros Hf. unfold make_rules_bitset.
  change (BitSet_empty XFW_BIT_CONTROL_MAX) with (BitSet_empty 255).
  rewrite (proj2 (rules_bitset_fold check _ _ f control_range (BitSet_empty_wf _) Hf)).
  rewrite BitSet_test_empty, orb_false_r. f_equal.
  destruct (Z.ltb_spec f 255).
  - apply bool_decide_eq_true_2, elem_of_seqZ. unfold XFW_BIT_CONTROL_MAX. lia.
  - apply bool_decide_eq_false_2. rewrite elem_of_seqZ. unfold XFW_BIT_CONTROL_MAX. lia.
Qed.

(** ** End to end *)

Lemma flags_byte s th f :
  Forall is_byte (s_pkt s) -> 0 <= th -> th + SIZEOF_TCPHDR <= data_end s ->
  s_pkt s !! Z.to_nat (th + 13) = Some f ->
  exists w, tcp_flag_word th s = Some (w, s) /\ u8 (Z.shiftr w 8) = f.
Proof.
  unfold SIZEOF_TCPHDR, data_end. intros Hb H0 He Hf.
  unfold tcp_flag_word, ld32, ld, get, bind, get_opt, ret.
  rewrite slice_Some by lia. eexists. split; [done|].
  assert (drop (Z.to_nat (th + 12)) (s_pkt s) !! 1%nat = Some f) as Hd.
  { rewrite lookup_drop. rewrite <- Hf. f_equal. lia. }
  pose proof (Forall_drop _ (Z.to_nat (th + 12)) _ Hb) as Hbd.
  destruct (drop (Z.to_nat (th + 12)) (s_pkt s)) as [|a [|b l]]; [done..|].
  injection Hd as ->. apply Forall_cons_1 in Hbd as [Ha [Hbb Hl]%Forall_cons_1].
  change (Z.to_nat 4) with 4%nat. cbn [take le_combine].
  rewrite Z.shiftr_div_pow2 by lia. unfold wrap. change (2 ^ 8) with 256.
  unfold is_byte in *. clear -Ha Hbb. dlia.
Qed.

Lemma port_run (s : St) off :
  Forall is_byte (s_pkt s) -> 0 <= off -> off + 2 <= data_end s ->
  slice (s_pkt s) off 2 <> Some [0; 0] ->
  exists p, ld16 off s = Some (p, s) /\ (p =? 0) = false.
Proof.
  unfold data_end. intros Hb H0 He Hne. unfold ld16, ld, get, bind, get_opt, ret.
  destruct (slice (s_pkt s) off 2) as [l|] eqn:Hs; cycle 1.
  { unfold slice in Hs. rewrite !(proj2 (Z.leb_le _ _)) in Hs by lia. done. }
  eexists. split; [done|]. pose proof (slice_Forall _ _ _ _ _ Hb Hs) as Hl.
  apply slice_length in Hs. destruct l as [|a [|b [|]]]; cbn [length] in Hs; try lia.
  apply Forall_cons_1 in Hl as [Ha [Hb' _]%Forall_cons_1].
  apply Z.eqb_neq. cbn. unfold is_byte in *. intros Hz. apply Hne.
  do 3 f_equal; lia.
Qed.

(** What the uploaded set decides for a segment whose flags are [f]. *)
Definition bad_combination (extra : list Z) (f : Z) : bool :=
  ((f <? 255) && is_rfc_prohibited_combination f) || BitSet_test f extra.

(** With the anomaly filter on and the set that the manager uploads (the
    RFC-prohibited combinations and any further ones) a TCP segment with a
    combination of the set is dropped for it, whatever else it holds; any other
    segment that is no SYN and has both ports goes on. The combination of all
    eight flags counts as prohibited only if it is one of the further ones. *)
Lemma anomaly_filter_bad_flags E s th f extra :
  let ta := rc_tcp_anomaly (rules (cfg (s_ctx s))) in
  Forall is_byte (s_pkt s) -> 0 <= th -> th + SIZEOF_TCPHDR <= data_end s ->
  s_pkt s !! Z.to_nat (th + 13) = Some f ->
  ta_enabled ta = true -> bitset_wf 255 extra ->
  ta_bad_flags ta = memcpy_words 4 (BitSet_or xfw_prohibited_rules extra) ->
  (bad_combination extra f = true ->
     tcp_anomaly_filter E th s = XFW_MAKE_CTX_DROP E XFW_DROP_TCP_ANOM_BAD_FLAGS s)
  /\ (bad_combination extra f = false -> Z.testbit f 1 = false ->
      slice (s_pkt s) th 2 <> Some [0; 0] -> slice (s_pkt s) (th + 2) 2 <> Some [0; 0] ->
      tcp_anomaly_filter E th s = Some (XFW_CTX_CONTINUE, s)).
Proof.
  intros ta Hb H0 He Hf Hen Hx Hset.
  destruct (flags_byte s th f Hb H0 He Hf) as (w & Hw & Hu).
  assert (Hr : is_byte f) by (rewrite Forall_lookup in Hb; eapply Hb, Hf).
  assert (Ht : bpf_bitset64_test (ta_bad_flags ta) (u8 (Z.shiftr w 8)) s
          = Some (bad_combination extra f, s)).
  { rewrite Hset, Hu, bpf_bitset64_test_words; [|eapply proj2, BitSet_or_wf;
      [apply rules_bitset_wf|done]|exact Hr].
    unfold xfw_prohibited_rules.
    rewrite BitSet_test_or, rules_bitset_test; [done|apply Hr|].
    destruct Hx as [-> _]. apply (rules_bitset_wf _). }
  unfold tcp_anomaly_filter. rewrite (bind_run get_ctx _ s (s_ctx s) s eq_refl).
  cbv beta zeta. fold ta. rewrite Hen. cbn [negb].
  rewrite (bind_run _ _ _ _ _ Hw), (bind_run _ _ _ _ _ Ht).
  split; intros Hc; rewrite Hc; [done|]. intros Hsyn Hsp Hdp.
  unfold SIZEOF_TCPHDR in He.
  destruct (port_run s th Hb H0 ltac:(lia) Hsp) as (p1 & Hp1 & Hz1).
  destruct (port_run s (th + 2) Hb ltac:(lia) ltac:(lia) Hdp) as (p2 & Hp2 & Hz2).
  rewrite (bind_run (th_source th) _ _ _ _ Hp1), (bind_run (th_dest th) _ _ _ _ Hp2).
  rewrite Hz1, Hz2. cbn [orb].
  assert (Hs : th_syn th s = Some (false, s)).
  { unfold th_syn, th_flag. rewrite <- Hsyn.
    assert (ld8 (th + 13) s = Some (f, s)) as Hl; [|by rewrite (bind_run _ _ _ _ _ Hl)].
    unfold ld8, ld, get, bind, get_opt, ret. unfold data_end in He.
    rewrite slice_Some by lia. change (Z.to_nat 1) with 1%nat.
    erewrite drop_S by exact Hf. cbn. by rewrite Z.add_0_r. }
  rewrite (bind_run _ _ _ _ _ Hs). done.
Qed.

(** The anomaly filter on, with the set uploaded when the user names no flags. *)
Definition anomaly_cfg : XfwFilterCfg :=
  with_rules (mkRulesCfg false all_bits (mkSyncookie 0 0 false)
    (mkTcpAnomaly true false false false 0
       (memcpy_words 4 (BitSet_or xfw_prohibited_rules xfw_suspicious_rules)))
    false false (fun _ => XfwActionRule_default) (fun _ => XfwActionRule_default))
    sample_cfg.

Lemma anomaly_filter_bad_flags_example :
  tcp_anomaly_filter (sample_env HOOK_XDP anomaly_cfg) 34
    (sample_state anomaly_cfg (tcp_packet 3))
  = XFW_MAKE_CTX_DROP (sample_env HOOK_XDP anomaly_cfg) XFW_DROP_TCP_ANOM_BAD_FLAGS
      (sample_state anomaly_cfg (tcp_packet 3)).
Proof.
  apply (anomaly_filter_bad_flags _ _ 34 3 xfw_suspicious_rules).
  - by repeat constructor.
  - lia.
  - done.
  - done.
  - done.
  - apply rules_bitset_wf.
  - done.
  - reflexivity.
Defined.

(** The combination of all eight flags is prohibited by the manager's
    predicate, and so is SYN+FIN; but the loop that builds the set ends before
    it, so that the ingress program drops a SYN+FIN segment and passes the
    segment with all flags set. *)
Lemma all_flags_escape_anomaly_filter :
  is_rfc_prohibited_combination 0x03 = true
  /\ is_rfc_prohibited_combination 0xff = true
  /\ fst <$> xfw_xdp (sample_env HOOK_XDP anomaly_cfg)
       (sample_state anomaly_cfg (tcp_packet 0x03)) = Some XDP_DROP
  /\ fst <$> xfw_xdp (sample_env HOOK_XDP anomaly_cfg)
       (sample_state anomaly_cfg (tcp_packet 0xff)) = Some XDP_PASS.
Proof. vm_compute. done. Qed.
