(* ===== verification/IndexPool.v ===== *)
(** * IndexPool: the pool of rate-limit buckets and its transactions

    src/manager/xfw/index_pool.cc. The pool hands out indices of an array of
    buckets ([rlimits_map_] of src/manager/xfw/maps_manager.hh); a transaction
    allocates at once, but releases only when it is committed, and gives back
    what it allocated when it ends without a commit. *)

From S2P Require Import Prelude.
From S2P Require Import Uapi.

(** ** index_pool.cc

    [free_indices_] with the back of the vector first, and the buckets that the
    release callback ([reset_rlimit_bucket]) clears. *)
Record IndexPool := mkPool {
  free_indices : list Z;
  rlimits_map : list XfwRLimitSlidingWindow
}.

(** The constructor: every index is free, the last one on top. *)
Definition IndexPool_init (buckets : list XfwRLimitSlidingWindow) : IndexPool :=
  mkPool (reverse (seqZ 0 (Z.of_nat (length buckets)))) buckets.

Definition IndexPool_allocate (p : IndexPool) : option (Z * IndexPool) :=
  match free_indices p with
  | [] => None
  | i :: l => Some (i, mkPool l (rlimits_map p))
  end.

Definition reset_rlimit_bucket (i : Z) (m : list XfwRLimitSlidingWindow)
    : list XfwRLimitSlidingWindow :=
  <[Z.to_nat i := zero_window]> m.

Definition IndexPool_release (p : IndexPool) (i : Z) : IndexPool :=
  mkPool (i :: free_indices p) (reset_rlimit_bucket i (rlimits_map p)).

(** [IndexPoolTransaction]: the pending indices, in the order of the calls. *)
Record IndexPoolTx := mkTx {
  tx_allocated : list Z;
  tx_released : list Z
}.

Definition tx_empty : IndexPoolTx := mkTx [] [].

Definition tx_allocate (p : IndexPool) (tx : IndexPoolTx)
    : option (Z * IndexPool * IndexPoolTx) :=
  match IndexPool_allocate p with
  | None => None
  | Some (i, p) => Some (i, p, mkTx (tx_allocated tx ++ [i]) (tx_released tx))
  end.

Definition tx_release (i : Z) (tx : IndexPoolTx) : IndexPoolTx :=
  mkTx (tx_allocated tx) (tx_released tx ++ [i]).

Definition tx_commit (p : IndexPool) (tx : IndexPoolTx) : IndexPool * IndexPoolTx :=
  (foldl IndexPool_release p (tx_released tx), tx_empty).

(** [rollback], which is all that the destructor does. *)
Definition tx_rollback (p : IndexPool) (tx : IndexPoolTx) : IndexPool * IndexPoolTx :=
  (foldl IndexPool_release p (tx_allocated tx), tx_empty).

(** ** Ownership

    Every index of the array is free or owned by exactly one user. *)
Definition pool_owns (N : Z) (p : IndexPool) (owned : list Z) : Prop :=
  free_indices p ++ owned ≡ₚ seqZ 0 N /\ Z.of_nat (length (rlimits_map p)) = N.

Lemma pool_owns_NoDup N p owned :
  pool_owns N p owned ->
  NoDup owned /\ NoDup (free_indices p)
  /\ (forall i, i ∈ free_indices p -> i ∉ owned)
  /\ (forall i, i ∈ owned -> 0 <= i < N).
Proof.
  intros [Hp _]. assert (NoDup (free_indices p ++ owned)) as Hnd
    by (rewrite Hp; apply NoDup_seqZ).
  apply list.NoDup_app in Hnd as (H1 & H2 & H3); split_and!; try done.
  intros i Hi. assert (i ∈ seqZ 0 N) as Hs by (rewrite <- Hp; set_solver).
  apply elem_of_seqZ in Hs. lia.
Qed.

Lemma pool_init_owns buckets :
  pool_owns (Z.of_nat (length buckets)) (IndexPool_init buckets) [].
Proof.
  split; [|done]. cbn. rewrite app_nil_r. apply reverse_Permutation.
Qed.

Lemma pool_owns_proper N p o o' : o ≡ₚ o' -> pool_owns N p o -> pool_owns N p o'.
Proof. intros Ho [H1 H2]. split; [by rewrite <- Ho|done]. Qed.

Lemma release_all_owns N p l owned :
  pool_owns N p (l ++ owned) -> pool_owns N (foldl IndexPool_release p l) owned.
Proof.
  revert p. induction l as [|i l IH]; intros p [Hp Hl]; cbn; [done|].
  apply IH. split.
  - cbn. rewrite <- Hp. cbn. by rewrite Permutation_middle.
  - cbn. unfold reset_rlimit_bucket. by rewrite length_insert.
Qed.

Lemma allocate_owns N p i p' owned :
  pool_owns N p owned -> IndexPool_allocate p = Some (i, p') ->
  pool_owns N p' (i :: owned).
Proof.
  unfold IndexPool_allocate. destruct (free_indices p) as [|j l] eqn:Hf; [done|].
  intros [Hp Hl] [= -> <-]. split; [|done]. cbn. rewrite <- Hp, Hf. cbn.
  by rewrite Permutation_middle.
Qed.

Lemma allocate_None_free p : IndexPool_allocate p = None <-> free_indices p = [].
Proof. unfold IndexPool_allocate. by destruct (free_indices p). Qed.

(** ** Transactions *)

Inductive TxOp := TxAllocate | TxRelease (i : Z).

(** The calls of a transaction until one throws; [true] if none did. *)
Fixpoint tx_run (ops : list TxOp) (p : IndexPool) (tx : IndexPoolTx)
    : bool * IndexPool * IndexPoolTx :=
  match ops with
  | [] => (true, p, tx)
  | TxAllocate :: ops =>
      match tx_allocate p tx with
      | None => (false, p, tx)
      | Some (_, p, tx) => tx_run ops p tx
      end
  | TxRelease i :: ops => tx_run ops p (tx_release i tx)
  end.

(** What a transaction holds on top of the owners [owned]. *)
Definition tx_holds (N : Z) (p : IndexPool) (tx : IndexPoolTx) (owned : list Z) : Prop :=
  pool_owns N p (tx_allocated tx ++ owned).

Lemma tx_allocate_holds N p tx i p' tx' owned :
  tx_holds N p tx owned -> tx_allocate p tx = Some (i, p', tx') ->
  tx_holds N p' tx' owned /\ tx_allocated tx' = tx_allocated tx ++ [i]
  /\ tx_released tx' = tx_released tx.
Proof.
  unfold tx_allocate. destruct (IndexPool_allocate p) as [[j q]|] eqn:Ha; [|done].
  intros H [= -> <- <-]. split; [|done]. unfold tx_holds. cbn.
  eapply pool_owns_proper; [|eapply allocate_owns; done].
  rewrite <- app_assoc. cbn. by rewrite Permutation_middle.
Qed.

Lemma tx_rollback_owns N p tx owned :
  tx_holds N p tx owned -> pool_owns N (tx_rollback p tx).1 owned.
Proof. apply release_all_owns. Qed.

(** The owners change by what the transaction allocated and released. *)
Lemma tx_commit_owns N p tx owned owned' :
  tx_holds N p tx owned -> tx_allocated tx ++ owned ≡ₚ tx_released tx ++ owned' ->
  pool_owns N (tx_commit p tx).1 owned'.
Proof. intros H Hp. apply release_all_owns. by eapply pool_owns_proper. Qed.

Lemma tx_run_holds N ops p tx owned :
  tx_holds N p tx owned ->
  let '(_, p', tx') := tx_run ops p tx in tx_holds N p' tx' owned.
Proof.
  revert p tx. induction ops as [|[|i] ops IH]; intros p tx H; cbn; [done| |].
  - destruct (tx_allocate p tx) as [[[i q] tx']|] eqn:Ha; [|done].
    apply IH. by eapply tx_allocate_holds.
  - by apply IH.
Qed.

(** Buckets that are released are cleared before they can be handed out again. *)
Lemma release_all_resets l p i :
  i ∈ l \/ rlimits_map p !! Z.to_nat i = Some zero_window ->
  (Z.to_nat i < length (rlimits_map p))%nat ->
  rlimits_map (foldl IndexPool_release p l) !! Z.to_nat i = Some zero_window.
Proof.
  revert p. induction l as [|j l IH]; intros p Hi Hlt; cbn.
  { destruct Hi as [Hi|]; [by apply elem_of_nil in Hi|done]. }
  apply IH; cbn; unfold reset_rlimit_bucket; [|by rewrite length_insert].
  destruct (decide (Z.to_nat j = Z.to_nat i)) as [He|Hne].
  - right. rewrite He. by apply list_lookup_insert_eq.
  - rewrite list_lookup_insert_ne by done. destruct Hi as [Hi|]; [|by right].
    apply elem_of_cons in Hi as [->|]; [done|by left].
Qed.

(** C20: no bucket is lost and none has two owners, whatever calls a transaction
    makes and wherever it throws. While it runs, its allocations are distinct,
    were free and belong to nobody else; ending without a commit restores the
    owners; a commit hands exactly the released indices back, cleared. *)
Theorem index_pool_transactional N p owned ops :
  pool_owns N p owned ->
  let '(_, p', tx) := tx_run ops p tx_empty in
  NoDup (tx_allocated tx ++ owned)
  /\ (forall i, i ∈ free_indices p' -> i ∉ tx_allocated tx ++ owned)
  /\ pool_owns N (tx_rollback p' tx).1 owned
  /\ forall owned', tx_allocated tx ++ owned ≡ₚ tx_released tx ++ owned' ->
     pool_owns N (tx_commit p' tx).1 owned'
     /\ forall i, i ∈ tx_released tx ->
        rlimits_map (tx_commit p' tx).1 !! Z.to_nat i = Some zero_window.
Proof.
  intros H. pose proof (tx_run_holds N ops p tx_empty owned H) as Hr.
  destruct (tx_run ops p tx_empty) as [[b p'] tx].
  destruct (pool_owns_NoDup _ _ _ Hr) as (H1 & _ & H3 & H4).
  split_and!; [done|done|by apply tx_rollback_owns|].
  intros owned' Hp. split; [by eapply tx_commit_owns|].
  intros i Hi. apply release_all_resets; [by left|].
  destruct (H4 i) as [Hi0 HiN]; [rewrite Hp; set_solver|]. destruct Hr as [_ Hl]. lia.
Qed.

Lemma index_pool_transactional_witness :
  pool_owns 4 (tx_commit (mkPool [2] (replicate 4 zero_window)) (mkTx [3] [0])).1 [1; 3]
  /\ pool_owns 4 (tx_rollback (mkPool [2] (replicate 4 zero_window)) (mkTx [3] [0])).1 [0; 1].
Proof.
  assert (H : pool_owns 4 (mkPool [3; 2] (replicate 4 zero_window)) [0; 1]).
  { split; [|done]. cbn. apply NoDup_Permutation; [|apply NoDup_seqZ|].
    - repeat constructor; set_solver.
    - intros x. rewrite elem_of_seqZ. set_unfold. lia. }
  pose proof (index_pool_transactional 4 (mkPool [3; 2] (replicate 4 zero_window)) [0; 1]
    [TxAllocate; TxRelease 0] H) as (_ & _ & H3 & H4).
  split; [|exact H3]. apply H4. apply (Permutation_app_comm [3] [0; 1]).
Defined.
