(* ===== verification/ShadowMap.v ===== *)
(** * ShadowMap: synchronising a kernel map with a user-space snapshot

    src/lib/bpf/shadow_hash_map.hh ([BpfShadowHashMap]) over the batch calls of
    src/lib/bpf/hash_map.hh. The system calls are a parameter ([BpfBatch]):
    every call takes its number, so that any of them may fail at any time, and
    after a failure the kernel map may hold anything. An [unordered_map] is a
    [gmap]; the order in which it is traversed is that of [map_to_list], and no
    theorem depends on it. *)

From S2P Require Import Prelude.
From S2P Require Import Kernel.

(** ** The batch system calls

    The error code, and the map afterwards; [lookup_and_delete_batch] also takes
    the position of the traversal and the size of the batch, and returns the
    next position and the entries it removed. *)
Class BpfBatch (K V : Type) `{Countable K} := mkBpfBatch {
  update_batch : nat -> list K -> list V -> gmap K V -> Z * gmap K V;
  delete_batch : nat -> list K -> gmap K V -> Z * gmap K V;
  lookup_and_delete_batch : nat -> Z -> nat -> gmap K V ->
    Z * Z * list (K * V) * gmap K V
}.

Definition insert_all {K V} `{Countable K} (kvs : list (K * V)) (m : gmap K V) : gmap K V :=
  foldl (fun m kv => <[kv.1 := kv.2]> m) m kvs.
Definition delete_all {K V} `{Countable K} (ks : list K) (m : gmap K V) : gmap K V :=
  foldl (fun m k => delete k m) m ks.

(** What a call that reports success did, from the documentation of the calls.
    [behind c m]: no entry of [m] lies before position [c] of the traversal. *)
Class BpfBatchSpec (K V : Type) `{BpfBatch K V} := mkBpfBatchSpec {
  update_batch_ok n ks vs m m' :
    update_batch n ks vs m = (0, m') -> m' = insert_all (zip ks vs) m;
  delete_batch_ok n ks m m' :
    delete_batch n ks m = (0, m') -> m' = delete_all ks m;
  behind : Z -> gmap K V -> Prop;
  behind_start m : behind 0 m;
  drain_batch_ok n c sz m c' kvs m' :
    behind c m -> lookup_and_delete_batch n c sz m = (0, c', kvs, m') ->
    behind c' m' /\ map_to_list m ≡ₚ kvs ++ map_to_list m' /\ kvs <> [];
  drain_batch_end n c sz m c' kvs m' :
    behind c m -> lookup_and_delete_batch n c sz m = (- ENOENT, c', kvs, m') ->
    m' = ∅ /\ map_to_list m ≡ₚ kvs
}.

Section shadow.
Context {K V : Type} `{BpfBatch K V} `{!EqDecision V}.

(** ** hash_map.hh

    [drain_by_batch]: the result, the number of the next call, the map, and
    what the callback was given. [None] if the fuel ends. *)
Fixpoint drain_by_batch (fuel n : nat) (in_batch : Z) (batch_size : nat) (m : gmap K V)
    : option (Z * nat * gmap K V * list (K * V)) :=
  match fuel with
  | O => None
  | S fuel =>
      let '(err, out_batch, kvs, m) := lookup_and_delete_batch n in_batch batch_size m in
      if err =? 0 then
        match drain_by_batch fuel (S n) out_batch batch_size m with
        | None => None
        | Some (r, n, m, rest) => Some (r, n, m, kvs ++ rest)
        end
      else if err =? - ENOENT then Some (0, S n, m, kvs)
      else Some (err, S n, m, [])
  end.

(** [clear]. Every batch removes an entry, so that the entries of the map bound
    the number of batches and the fuel does not end ([drain_spec]). *)
Definition clear (n : nat) (batch_size : nat) (m : gmap K V) : Z * nat * gmap K V :=
  match drain_by_batch (S (size m)) n 0 batch_size m with
  | Some (r, n, m, _) => (r, n, m)
  | None => (- EINVAL, n, m)
  end.

(** ** shadow_hash_map.hh *)

Definition BatchSize : nat := 1024.

Record ShadowMap := mkShadowMap {
  snapshot : gmap K V;
  bpf_map : gmap K V;
  resync_required : bool
}.

(** The constructor opens the pinned map [m]. *)
Definition ShadowMap_open (m : gmap K V) : ShadowMap := mkShadowMap ∅ m false.

Definition build_diff (old new_state : gmap K V) : list K * list K * list V :=
  let changed := omap (fun '(k, old_v) =>
    match new_state !! k with
    | Some v => if decide (v = old_v) then None else Some (k, v)
    | None => None
    end) (map_to_list old) in
  let added := filter (fun kv => old !! kv.1 = None) (map_to_list new_state) in
  (omap (fun '(k, _) => match new_state !! k with None => Some k | Some _ => None end)
     (map_to_list old),
   (changed ++ added).*1, (changed ++ added).*2).

(** [apply_delete] and [apply_upsert]: batch after batch, until one fails. The
    fuel is the number of keys. *)
Fixpoint apply_delete (fuel n : nat) (keys : list K) (m : gmap K V)
    : bool * nat * gmap K V :=
  match fuel with
  | O => (true, n, m)
  | S fuel =>
      if decide (keys = []) then (true, n, m) else
      let '(err, m) := delete_batch n (take BatchSize keys) m in
      if err =? 0 then apply_delete fuel (S n) (drop BatchSize keys) m
      else (false, S n, m)
  end.

Fixpoint apply_upsert (fuel n : nat) (keys : list K) (values : list V) (m : gmap K V)
    : bool * nat * gmap K V :=
  match fuel with
  | O => (true, n, m)
  | S fuel =>
      if decide (keys = []) then (true, n, m) else
      let '(err, m) := update_batch n (take BatchSize keys) (take BatchSize values) m in
      if err =? 0 then apply_upsert fuel (S n) (drop BatchSize keys) (drop BatchSize values) m
      else (false, S n, m)
  end.

Definition full_resync (n : nat) (sm : ShadowMap) (state : gmap K V)
    : bool * nat * ShadowMap :=
  let '(err, n, m) := clear n BatchSize (bpf_map sm) in
  if negb (err =? 0) then (false, n, mkShadowMap (snapshot sm) m (resync_required sm)) else
  let kvs := map_to_list state in
  let '(ok, n, m) := apply_upsert (length kvs) n kvs.*1 kvs.*2 m in
  if negb ok then (false, n, mkShadowMap (snapshot sm) m true)
  else (true, n, mkShadowMap state m false).

Definition replace (n : nat) (sm : ShadowMap) (new_state : gmap K V)
    : bool * nat * ShadowMap :=
  if resync_required sm then full_resync n sm new_state else
  let '(del, keys, values) := build_diff (snapshot sm) new_state in
  let '(ok, n, m) := apply_delete (length del) n del (bpf_map sm) in
  if negb ok then (false, n, mkShadowMap (snapshot sm) m true) else
  let '(ok, n, m) := apply_upsert (length keys) n keys values m in
  if negb ok then (false, n, mkShadowMap (snapshot sm) m true) else
  (true, n, mkShadowMap new_state m false).
End shadow.

Arguments ShadowMap K V {_ _}.

(** ** Contents of the map after a batch *)

Section contents.
Context {K V : Type} `{Countable K}.

Lemma insert_all_cons (kv : K * V) kvs (m : gmap K V) :
  insert_all (kv :: kvs) m = insert_all kvs (<[kv.1 := kv.2]> m).
Proof. done. Qed.

Lemma lookup_insert_all_notin (kvs : list (K * V)) (m : gmap K V) k :
  k ∉ kvs.*1 -> insert_all kvs m !! k = m !! k.
Proof.
  revert m. induction kvs as [|[k' v] kvs IH]; intros m Hk; [done|].
  rewrite fmap_cons in Hk. rewrite insert_all_cons, IH by set_solver.
  apply lookup_insert_ne. set_solver.
Qed.

(** Writes that agree on the value of [k]. *)
Lemma lookup_insert_all (kvs : list (K * V)) (m : gmap K V) k v :
  (forall v', (k, v') ∈ kvs -> v' = v) -> (k, v) ∈ kvs -> insert_all kvs m !! k = Some v.
Proof.
  revert m. induction kvs as [|[k' v'] kvs IH]; intros m Hv Hk.
  { by apply elem_of_nil in Hk. }
  rewrite insert_all_cons. cbn [fst snd]. destruct (decide (k ∈ kvs.*1)) as [Hin|Hout].
  { apply list_elem_of_fmap in Hin as ([k2 v2] & -> & Hin). cbn in *.
    assert (v2 = v) as -> by (apply Hv; set_solver). apply IH; [set_solver|done]. }
  rewrite lookup_insert_all_notin by done.
  apply elem_of_cons in Hk as [[= <- <-]|Hk]; [apply lookup_insert_eq|].
  destruct Hout. apply list_elem_of_fmap. by exists (k, v).
Qed.

Lemma lookup_delete_all (ks : list K) (m : gmap K V) k :
  delete_all ks m !! k = if decide (k ∈ ks) then None else m !! k.
Proof.
  revert m. induction ks as [|k' ks IH]; intros m; [done|].
  change (delete_all (k' :: ks) m) with (delete_all ks (delete k' m)). rewrite IH.
  repeat case_decide; try set_solver.
  - assert (k = k') as -> by set_solver. apply lookup_delete_eq.
  - apply lookup_delete_ne. set_solver.
Qed.

Lemma insert_all_app (l1 l2 : list (K * V)) (m : gmap K V) :
  insert_all (l1 ++ l2) m = insert_all l2 (insert_all l1 m).
Proof. apply foldl_app. Qed.

Lemma delete_all_app (l1 l2 : list K) (m : gmap K V) :
  delete_all (l1 ++ l2) m = delete_all l2 (delete_all l1 m).
Proof. apply foldl_app. Qed.

Lemma insert_all_map_to_list (m : gmap K V) : insert_all (map_to_list m) ∅ = m.
Proof.
  apply map_eq. intros k. destruct (m !! k) as [v|] eqn:Hk.
  - apply lookup_insert_all; [|by apply elem_of_map_to_list].
    intros v' Hv'%elem_of_map_to_list. congruence.
  - rewrite lookup_insert_all_notin; [apply lookup_empty|].
    intros ([k' v] & -> & Hv)%list_elem_of_fmap. apply elem_of_map_to_list in Hv. cbn in *.
    congruence.
Qed.

(** Deleting and writing the difference of two maps turns one into the other. *)
Lemma build_diff_correct `{!EqDecision V} (old new : gmap K V) :
  let '(del, ks, vs) := build_diff old new in
  insert_all (zip ks vs) (delete_all del old) = new.
Proof.
  unfold build_diff. set (ch := omap _ _). set (ad := filter _ _).
  rewrite zip_fst_snd. set (del := omap _ (map_to_list old)).
  assert (Hch : forall k v, (k, v) ∈ ch <-> new !! k = Some v
            /\ exists o, old !! k = Some o /\ o <> v).
  { intros k v. unfold ch. rewrite list_elem_of_omap. split.
    - intros ([k' o] & Ho%elem_of_map_to_list & Hv). destruct (new !! k') eqn:Hn; [|done].
      case_decide; [done|]. injection Hv as -> ->. split; [done|]. exists o. naive_solver.
    - intros (Hn & o & Ho & Hne). exists (k, o). rewrite elem_of_map_to_list. split; [done|].
      rewrite Hn. case_decide; congruence. }
  assert (Had : forall k v, (k, v) ∈ ad <-> new !! k = Some v /\ old !! k = None).
  { intros k v. unfold ad. rewrite list_elem_of_filter, elem_of_map_to_list. cbn. tauto. }
  assert (Hdel : forall k, k ∈ del <-> new !! k = None /\ is_Some (old !! k)).
  { intros k. unfold del. rewrite list_elem_of_omap. split.
    - intros ([k' o] & Ho%elem_of_map_to_list & Hv). destruct (new !! k') eqn:Hn; [done|].
      injection Hv as ->. rewrite Ho. eauto.
    - intros (Hn & o & Ho). exists (k, o). rewrite elem_of_map_to_list. by rewrite Hn. }
  clearbody ch ad del. apply map_eq. intros k.
  destruct (new !! k) as [v|] eqn:Hn.
  - destruct (decide ((k, v) ∈ ch ++ ad)) as [Hin|Hout].
    + apply lookup_insert_all; [|done]. intros v' [Hv|Hv]%elem_of_app.
      * apply Hch in Hv. naive_solver.
      * apply Had in Hv. naive_solver.
    + rewrite lookup_insert_all_notin, lookup_delete_all.
      * rewrite decide_False by (rewrite Hdel; naive_solver).
        rewrite elem_of_app, Hch, Had in Hout. destruct (old !! k) as [o|] eqn:Ho.
        -- destruct (decide (o = v)) as [->|]; [done|]. destruct Hout. left. by eauto.
        -- destruct Hout. by right.
      * intros ([k2 v2] & Hk2 & Hi)%list_elem_of_fmap. cbn in Hk2. subst k2. apply Hout.
        assert (v2 = v) as ->; [|done]. apply elem_of_app in Hi as [Hi|Hi].
        -- apply Hch in Hi. naive_solver.
        -- apply Had in Hi. naive_solver.
  - rewrite lookup_insert_all_notin, lookup_delete_all.
    + case_decide as Hd; [done|]. rewrite Hdel in Hd. destruct (old !! k) eqn:Ho; [|done].
      naive_solver.
    + intros ([k2 v2] & Hk2 & [Hi|Hi]%elem_of_app)%list_elem_of_fmap; cbn in Hk2; subst k2.
      * apply Hch in Hi. naive_solver.
      * apply Had in Hi. naive_solver.
Qed.
End contents.

Section synchronised.
Context {K V : Type} `{BpfBatchSpec K V} `{!EqDecision V}.

Lemma apply_delete_ok fuel n (keys : list K) (m : gmap K V) n' m' :
  (length keys <= fuel)%nat -> apply_delete fuel n keys m = (true, n', m') ->
  m' = delete_all keys m.
Proof.
  revert n keys m. induction fuel as [|fuel IH]; intros n keys m Hf; cbn [apply_delete].
  { destruct keys; [|cbn in Hf; lia]. by intros [= _ <-]. }
  case_decide as Hk; [subst; by intros [= _ <-]|].
  destruct (delete_batch n (take BatchSize keys) m) as [err m1] eqn:Hd.
  case_match eqn:He; [|done]. apply Z.eqb_eq in He as ->. intros Hr.
  apply IH in Hr; [|rewrite length_drop; unfold BatchSize; destruct keys; [done|cbn in *; lia]].
  apply delete_batch_ok in Hd as ->. subst m'. by rewrite <- delete_all_app, take_drop.
Qed.

Lemma zip_take_drop (ks : list K) (vs : list V) b :
  zip ks vs = zip (take b ks) (take b vs) ++ zip (drop b ks) (drop b vs).
Proof.
  by rewrite <- (zip_with_take pair), <- (zip_with_drop pair), take_drop.
Qed.

Lemma apply_upsert_ok fuel n (keys : list K) values (m : gmap K V) n' m' :
  (length keys <= fuel)%nat -> apply_upsert fuel n keys values m = (true, n', m') ->
  m' = insert_all (zip keys values) m.
Proof.
  revert n keys values m.
  induction fuel as [|fuel IH]; intros n keys values m Hf; cbn [apply_upsert].
  { destruct keys; [|cbn in Hf; lia]. by intros [= _ <-]. }
  case_decide as Hk; [subst; by intros [= _ <-]|].
  destruct (update_batch n _ _ m) as [err m1] eqn:Hd.
  case_match eqn:He; [|done]. apply Z.eqb_eq in He as ->. intros Hr.
  apply IH in Hr; [|rewrite length_drop; unfold BatchSize; destruct keys; [done|cbn in *; lia]].
  apply update_batch_ok in Hd as ->.
  subst m'. by rewrite <- insert_all_app, <- zip_take_drop.
Qed.

(** [drain_by_batch] ends; when it reports success the map is empty and the
    callback has seen every entry once. *)
Lemma drain_spec fuel n c sz (m : gmap K V) :
  behind c m -> (size m < fuel)%nat ->
  exists r n' m' kvs, drain_by_batch fuel n c sz m = Some (r, n', m', kvs)
    /\ (r = 0 -> m' = ∅ /\ kvs ≡ₚ map_to_list m).
Proof.
  revert n c m. induction fuel as [|fuel IH]; intros n c m Hb Hf; [lia|].
  cbn [drain_by_batch].
  destruct (lookup_and_delete_batch n c sz m) as [[[err c'] kvs] m'] eqn:Hl.
  destruct (Z.eqb_spec err 0) as [->|Hz].
  - destruct (drain_batch_ok _ _ _ _ _ _ _ Hb Hl) as (Hb' & Hp & Hne).
    destruct (IH (S n) c' m') as (r & n2 & m2 & kvs2 & -> & Hr); [done| |].
    { apply Permutation_length in Hp. rewrite length_app, !length_map_to_list in Hp.
      destruct kvs; [done|]. cbn in Hp. lia. }
    do 4 eexists. split; [done|]. intros Hz. destruct (Hr Hz) as [-> Hk].
    split; [done|]. by rewrite Hp, Hk.
  - destruct (Z.eqb_spec err (- ENOENT)) as [->|He]; do 4 eexists; (split; [done|]);
      [|done].
    intros _. destruct (drain_batch_end _ _ _ _ _ _ _ Hb Hl) as [-> Hp]. by split.
Qed.

Lemma clear_ok n sz (m : gmap K V) n' m' : clear n sz m = (0, n', m') -> m' = ∅.
Proof.
  unfold clear.
  destruct (drain_spec (S (size m)) n 0 sz m (behind_start m) ltac:(lia))
    as (r & n2 & m2 & kvs & -> & Hr).
  intros [= -> _ <-]. by apply Hr.
Qed.

(** Unless a resynchronisation is pending the kernel map is the snapshot. *)
Definition shadow_ok (sm : ShadowMap K V) : Prop :=
  resync_required sm = false -> bpf_map sm = snapshot sm.

Definition replaced (sm : ShadowMap K V) (new : gmap K V) (ok : bool) (sm' : ShadowMap K V)
    : Prop :=
  if ok then snapshot sm' = new /\ bpf_map sm' = new /\ resync_required sm' = false
  else snapshot sm' = snapshot sm /\ resync_required sm' = true.

Lemma replace_spec n (sm : ShadowMap K V) new :
  shadow_ok sm ->
  let '(ok, _, sm') := replace n sm new in replaced sm new ok sm' /\ shadow_ok sm'.
Proof.
  intros Hs. unfold replace, full_resync, replaced, shadow_ok.
  destruct (resync_required sm) eqn:Hr.
  - destruct (clear n BatchSize (bpf_map sm)) as [[err n1] m1] eqn:Hc.
    destruct (Z.eqb_spec err 0) as [->|]; [|done]. cbn [negb].
    apply clear_ok in Hc as ->.
    destruct (apply_upsert _ _ _ _ _) as [[ok n2] m2] eqn:Hu. destruct ok; [|done].
    apply apply_upsert_ok in Hu; [|by rewrite length_fmap].
    rewrite zip_fst_snd, insert_all_map_to_list in Hu. by subst.
  - pose proof (build_diff_correct (snapshot sm) new) as Hd.
    destruct (build_diff (snapshot sm) new) as [[del ks] vs].
    destruct (apply_delete _ _ _ _) as [[ok n1] m1] eqn:Hdel. destruct ok; [|done].
    apply apply_delete_ok in Hdel; [|done].
    cbn [negb]. destruct (apply_upsert _ _ _ _ _) as [[ok n2] m2] eqn:Hups.
    destruct ok; [|done]. apply apply_upsert_ok in Hups; [|done].
    rewrite Hs in Hdel by done. by subst.
Qed.
End synchronised.

(** ** Progress

    A kernel that refuses an update only for want of space, a deletion only of
    absent keys, and never a traversal. *)
Class BpfBatchLive (K V : Type) `{BpfBatch K V} (cap : nat) := mkBpfBatchLive {
  update_batch_live n ks vs m :
    (size (insert_all (zip ks vs) m) <= cap)%nat -> (update_batch n ks vs m).1 = 0;
  delete_batch_live n ks m :
    NoDup ks -> (forall k, k ∈ ks -> is_Some (m !! k)) -> (delete_batch n ks m).1 = 0;
  drain_batch_live n c sz m :
    (0 < sz)%nat -> let err := (lookup_and_delete_batch n c sz m).1.1.1 in
    err = 0 \/ err = - ENOENT
}.

Section progress.
Context {K V : Type} `{BpfBatchSpec K V} `{!EqDecision V} (cap : nat).
Context `{!BpfBatchLive K V cap}.

Lemma dom_insert_all (kvs : list (K * V)) (m : gmap K V) :
  dom (insert_all kvs m) ⊆ list_to_set kvs.*1 ∪ dom m.
Proof.
  revert m. induction kvs as [|[k v] kvs IH]; intros m; [set_solver|].
  rewrite insert_all_cons, IH. cbn. rewrite dom_insert. set_solver.
Qed.

Lemma elem_of_take_drop {A} (x : A) n l : x ∈ take n l \/ x ∈ drop n l -> x ∈ l.
Proof. rewrite <- elem_of_app. by rewrite take_drop. Qed.

Lemma apply_upsert_live fuel n (ks : list K) vs (m : gmap K V) (D : gset K) :
  list_to_set ks ∪ dom m ⊆ D -> (size D <= cap)%nat ->
  (apply_upsert fuel n ks vs m).1.1 = true.
Proof.
  intros Hd Hc. revert n ks vs m Hd.
  induction fuel as [|fuel IH]; intros n ks vs m Hd; cbn [apply_upsert]; [done|].
  case_decide; [done|].
  assert (Hin : dom (insert_all (zip (take BatchSize ks) (take BatchSize vs)) m) ⊆ D).
  { etrans; [apply dom_insert_all|]. etrans; [|exact Hd].
    apply union_mono; [|done]. intros k. rewrite !elem_of_list_to_set.
    intros ([k' v] & -> & Hkv)%list_elem_of_fmap. cbn.
    apply elem_of_zip_l in Hkv. eapply elem_of_take_drop. by left. }
  assert ((update_batch n (take BatchSize ks) (take BatchSize vs) m).1 = 0) as He.
  { apply update_batch_live. rewrite <- size_dom. etrans; [|exact Hc]. by apply subseteq_size. }
  destruct (update_batch n _ _ m) as [err m1] eqn:Hu. cbn in He. subst err.
  apply update_batch_ok in Hu as ->. rewrite Z.eqb_refl. apply IH.
  apply union_least; [|done]. intros k. rewrite elem_of_list_to_set. intros Hk.
  apply Hd, elem_of_union_l, elem_of_list_to_set. eapply elem_of_take_drop. by right.
Qed.

Lemma apply_delete_live fuel n (ks : list K) (m : gmap K V) :
  NoDup ks -> (forall k, k ∈ ks -> is_Some (m !! k)) ->
  (apply_delete fuel n ks m).1.1 = true.
Proof.
  revert n ks m. induction fuel as [|fuel IH]; intros n ks m Hnd Hin; cbn [apply_delete];
    [done|].
  case_decide; [done|]. pose proof Hnd as Hnd'.
  rewrite <- (take_drop BatchSize ks) in Hnd'. apply list.NoDup_app in Hnd' as (Ht & Hx & Hd).
  assert ((delete_batch n (take BatchSize ks) m).1 = 0) as He.
  { apply delete_batch_live; [done|]. intros k Hk. apply Hin. eapply elem_of_take_drop. by left. }
  destruct (delete_batch n _ m) as [err m1] eqn:Hu. cbn in He. subst err.
  apply delete_batch_ok in Hu as ->. rewrite Z.eqb_refl. apply IH; [done|].
  intros k Hk. rewrite lookup_delete_all, decide_False by (intros Hk'; by apply (Hx k)).
  apply Hin. eapply elem_of_take_drop. by right.
Qed.

Lemma drain_live fuel n c sz (m : gmap K V) :
  (0 < sz)%nat -> forall r n' m' kvs,
  drain_by_batch fuel n c sz m = Some (r, n', m', kvs) -> r = 0.
Proof.
  intros Hsz. revert n c m.
  induction fuel as [|fuel IH]; intros n c m r n' m' kvs; cbn [drain_by_batch]; [done|].
  pose proof (drain_batch_live n c sz m Hsz) as Hl.
  destruct (lookup_and_delete_batch n c sz m) as [[[err c'] l] m1]. cbn in Hl.
  destruct Hl as [-> | ->]; cbn.
  - destruct (drain_by_batch fuel _ _ _ _) as [[[[r2 n2] m2] l2]|] eqn:Hd; [|done].
    intros [= -> _ _ _]. by eapply IH.
  - by intros [= <- _ _ _].
Qed.

Lemma omap_key_NoDup (new : gmap K V) (l : list (K * V)) :
  NoDup l.*1 ->
  NoDup (omap (fun '(k, _) => match new !! k with None => Some k | Some _ => None end) l).
Proof.
  induction l as [|[k v] l IH]; cbn; [constructor|]. intros [Hk Hl]%list.NoDup_cons.
  destruct (new !! k); [by apply IH|]. apply list.NoDup_cons. split; [|by apply IH].
  intros ([k2 v2] & Hin & Hs)%list_elem_of_omap. destruct (new !! k2); [done|].
  injection Hs as ->. apply Hk, list_elem_of_fmap. by exists (k, v2).
Qed.

Lemma build_diff_keys (old new : gmap K V) :
  let '(del, ks, vs) := build_diff old new in
  NoDup del /\ (forall k, k ∈ del <-> k ∈ dom old /\ k ∉ dom new)
  /\ list_to_set ks ⊆ dom new.
Proof.
  unfold build_diff. split_and!.
  - apply omap_key_NoDup, NoDup_fst_map_to_list.
  - intros k. rewrite list_elem_of_omap. rewrite elem_of_dom, not_elem_of_dom. split.
    + intros ([k' o] & Ho%elem_of_map_to_list & Hv). destruct (new !! k') eqn:Hn; [done|].
      injection Hv as ->. rewrite Ho. eauto.
    + intros ([o Ho] & Hn). exists (k, o). rewrite elem_of_map_to_list. by rewrite Hn.
  - intros k. rewrite elem_of_list_to_set, fmap_app, elem_of_app, !list_elem_of_fmap.
    rewrite elem_of_dom. intros [([k' v] & -> & Hv)|([k' v] & -> & Hv)]; cbn.
    + apply list_elem_of_omap in Hv as ([k2 o] & _ & Hv).
      destruct (new !! k2) eqn:Hn; [|done]. case_decide; [done|].
      injection Hv as -> ->. by rewrite Hn.
    + apply list_elem_of_filter in Hv as [_ Hv%elem_of_map_to_list]. by rewrite Hv.
Qed.

(** A new state that fits the map is stored, whatever the map held before:
    entries are deleted before others are added, so that the space suffices. *)
Lemma replace_live n (sm : ShadowMap K V) new :
  shadow_ok sm -> (size new <= cap)%nat -> (replace n sm new).1.1 = true.
Proof.
  intros Hs Hc. unfold replace, full_resync.
  destruct (resync_required sm) eqn:Hr.
  - unfold clear.
    destruct (drain_spec (S (size (bpf_map sm))) n 0 BatchSize (bpf_map sm)
      (behind_start _) ltac:(lia))
      as (r & n2 & m2 & kvs & Hd & He).
    rewrite Hd. apply drain_live in Hd; [subst r|unfold BatchSize; lia].
    destruct (He eq_refl) as [-> _]. cbn [negb Z.eqb].
    pose proof (apply_upsert_live (length (map_to_list new)) n2 (map_to_list new).*1
      (map_to_list new).*2 ∅ (dom new)) as Hu.
    destruct (apply_upsert _ _ _ _ _) as [[ok n3] m3]. cbn in Hu. rewrite Hu; [done| |].
    + rewrite dom_empty_L, union_empty_r_L. intros k. rewrite elem_of_list_to_set, elem_of_dom.
      intros ([k' v] & -> & Hv%elem_of_map_to_list)%list_elem_of_fmap. by exists v.
    + by rewrite size_dom.
  - pose proof (build_diff_keys (snapshot sm) new) as Hd.
    destruct (build_diff (snapshot sm) new) as [[del ks] vs]. destruct Hd as (Hnd & Hin & Hks).
    rewrite (Hs Hr).
    pose proof (apply_delete_live (length del) n del (snapshot sm) Hnd) as Hdl.
    destruct (apply_delete _ _ _ _) as [[ok n1] m1] eqn:Hap. cbn in Hdl.
    rewrite Hdl in * by (intros k Hk; apply elem_of_dom, Hin, Hk). cbn [negb].
    apply apply_delete_ok in Hap as ->; [|done].
    pose proof (apply_upsert_live (length ks) n1 ks vs (delete_all del (snapshot sm))
      (dom new)) as Hu.
    destruct (apply_upsert _ _ _ _ _) as [[ok2 n3] m3]. cbn in Hu. rewrite Hu; [done| |].
    + apply union_least; [done|]. intros k. rewrite elem_of_dom, lookup_delete_all.
      case_decide as Hk; [by intros []|]. intros Ho%elem_of_dom.
      destruct (decide (k ∈ dom new)); [done|]. destruct Hk. by apply Hin.
    + by rewrite size_dom.
Qed.
End progress.

(** ** A reference kernel

    Batches are executed element by element until one fails; [cap] entries fit. *)
Section reference.
Context {K V : Type} `{Countable K} (cap : nat).

Fixpoint ref_update (kvs : list (K * V)) (m : gmap K V) : Z * gmap K V :=
  match kvs with
  | [] => (0, m)
  | (k, v) :: kvs =>
      if decide (is_Some (m !! k) \/ (size m < cap)%nat)
      then ref_update kvs (<[k := v]> m) else (- E2BIG, m)
  end.

Fixpoint ref_delete (ks : list K) (m : gmap K V) : Z * gmap K V :=
  match ks with
  | [] => (0, m)
  | k :: ks => if decide (is_Some (m !! k)) then ref_delete ks (delete k m) else (- ENOENT, m)
  end.

Definition ref_batch : BpfBatch K V :=
  mkBpfBatch K V _ _ (fun _ ks vs => ref_update (zip ks vs)) (fun _ => ref_delete)
    (fun _ c _ m => (- ENOENT, c, map_to_list m, ∅)).

Lemma ref_update_ok kvs m : (ref_update kvs m).1 = 0 -> (ref_update kvs m).2 = insert_all kvs m.
Proof.
  revert m. induction kvs as [|[k v] kvs IH]; intros m; cbn [ref_update]; [done|].
  case_decide; [apply IH|done].
Qed.

Lemma ref_delete_ok ks m : (ref_delete ks m).1 = 0 -> (ref_delete ks m).2 = delete_all ks m.
Proof.
  revert m. induction ks as [|k ks IH]; intros m; cbn [ref_delete]; [done|].
  case_decide; [apply IH|done].
Qed.

#[export] Instance ref_batch_spec : @BpfBatchSpec K V _ _ ref_batch.
Proof.
  refine (@mkBpfBatchSpec K V _ _ ref_batch _ _ (fun _ _ => True) _ _ _).
  - intros n ks vs m m' Hu. cbn in Hu. pose proof (ref_update_ok (zip ks vs) m) as Ho.
    rewrite Hu in Ho. by apply Ho.
  - intros n ks m m' Hu. cbn in Hu. pose proof (ref_delete_ok ks m) as Ho.
    rewrite Hu in Ho. by apply Ho.
  - done.
  - intros n c sz m c' kvs m' _ Hl. cbn in Hl. done.
  - intros n c sz m c' kvs m' _ Hl. cbn in Hl. by injection Hl as _ <- <-.
Qed.

Lemma size_insert_all (kvs : list (K * V)) (m : gmap K V) :
  (size m <= size (insert_all kvs m))%nat.
Proof.
  revert m. induction kvs as [|[k v] kvs IH]; intros m; [done|].
  rewrite insert_all_cons. etrans; [|apply IH]. cbn.
  destruct (m !! k) eqn:Hk.
  - rewrite map_size_insert_Some; eauto.
  - rewrite map_size_insert_None by done. lia.
Qed.

#[export] Instance ref_batch_live : @BpfBatchLive K V _ _ ref_batch cap.
Proof.
  split.
  - intros n ks vs. cbn. induction (zip ks vs) as [|[k v] kvs IH]; intros m Hs;
      cbn [ref_update]; [done|].
    rewrite insert_all_cons in Hs. case_decide as Hd; [by apply IH|]. destruct Hd.
    destruct (m !! k) eqn:Hk; [by left; eauto|]. right.
    pose proof (size_insert_all kvs (<[k := v]> m)) as Hi. cbn in Hs.
    rewrite map_size_insert_None in Hi by done. lia.
  - intros n ks. cbn. induction ks as [|k ks IH]; intros m Hnd Hin; cbn [ref_delete]; [done|].
    apply list.NoDup_cons in Hnd as [Hk Hnd]. rewrite decide_True by (apply Hin; set_solver).
    apply IH; [done|]. intros k' Hk'. rewrite lookup_delete_ne by set_solver.
    apply Hin. set_solver.
  - intros n c sz m _. cbn. by right.
Qed.
End reference.

(** ** Every shadow map the manager can have

    Opened on a fresh kernel map, then replaced any number of times, with or
    without success. *)
Inductive shadow_reach {K V : Type} `{BpfBatch K V} `{!EqDecision V}
    : ShadowMap K V -> Prop :=
| shadow_fresh : shadow_reach (ShadowMap_open ∅)
| shadow_replace sm n new :
    shadow_reach sm -> shadow_reach (replace n sm new).2.

Section claims.
Context {K V : Type} `{BpfBatchSpec K V} `{!EqDecision V}.

Lemma shadow_reach_ok (sm : ShadowMap K V) : shadow_reach sm -> shadow_ok sm.
Proof.
  induction 1 as [|sm n new _ IH]; [done|].
  pose proof (replace_spec n sm new IH) as Hr.
  destruct (replace n sm new) as [[ok n'] sm']. apply Hr.
Qed.

(** C19: whichever batch calls failed before and wherever, a replacement that
    reports success leaves the kernel map exactly equal to the new state, and
    one that reports failure keeps the snapshot of the last success and
    schedules a full resynchronisation. *)
Theorem shadow_replace_synchronises n (sm : ShadowMap K V) new ok n' sm' :
  shadow_reach sm -> replace n sm new = (ok, n', sm') ->
  (ok = true -> bpf_map sm' = new /\ snapshot sm' = new /\ resync_required sm' = false)
  /\ (ok = false -> snapshot sm' = snapshot sm /\ resync_required sm' = true).
Proof.
  intros Hs Hr. pose proof (replace_spec n sm new (shadow_reach_ok sm Hs)) as H'.
  rewrite Hr in H'. destruct H' as [H' _]. unfold replaced in H'. destruct ok; naive_solver.
Qed.

(** On a kernel that refuses updates only for want of space, a new state
    that fits the map is accepted, whatever the map held before and also after a
    failure: deletions come first, so that the map never exceeds its capacity. *)
Lemma shadow_replace_accepts cap n (sm : ShadowMap K V) new :
  BpfBatchLive K V cap -> shadow_reach sm -> (size new <= cap)%nat ->
  (replace n sm new).1.1 = true /\ bpf_map (replace n sm new).2 = new.
Proof.
  intros Hl Hs Hc. pose proof (shadow_reach_ok sm Hs) as Ho.
  pose proof (replace_live cap n sm new Ho Hc) as Ht.
  pose proof (replace_spec n sm new Ho) as Hr.
  destruct (replace n sm new) as [[ok n'] sm']. cbn in Ht. subst ok. split; [done|].
  by apply Hr.
Qed.

(** A kernel map without the call that drains it is never repaired. *)
Lemma resync_needs_drain n (sm : ShadowMap K V) new :
  (forall n c sz m, let err := (lookup_and_delete_batch n c sz m).1.1.1 in
     err <> 0 /\ err <> - ENOENT) ->
  resync_required sm = true ->
  (replace n sm new).1.1 = false /\ resync_required (replace n sm new).2 = true.
Proof.
  intros Hd Hr. unfold replace, full_resync, clear. rewrite Hr. cbn [drain_by_batch].
  specialize (Hd n 0 BatchSize (bpf_map sm)).
  destruct (lookup_and_delete_batch n 0 BatchSize (bpf_map sm)) as [[[err c] l] m].
  cbn in Hd. rewrite !(proj2 (Z.eqb_neq _ _)) by apply Hd. done.
Qed.
End claims.

(** A kernel whose second call, a deletion, fails. *)
Definition flaky_batch : BpfBatch Z Z :=
  mkBpfBatch Z Z _ _ (@update_batch _ _ _ _ (ref_batch 2))
    (fun n ks m => if (n =? 1)%nat then (- ENOMEM, m) else ref_delete ks m)
    (@lookup_and_delete_batch _ _ _ _ (ref_batch 2)).

#[local] Instance flaky_spec : @BpfBatchSpec Z Z _ _ flaky_batch.
Proof.
  refine (@mkBpfBatchSpec Z Z _ _ flaky_batch _ _ (fun _ _ => True) _ _ _).
  - apply (@update_batch_ok _ _ _ _ _ (ref_batch_spec 2)).
  - intros n ks m m' Hu. cbn in Hu. destruct (n =? 1)%nat; [done|].
    by apply (@delete_batch_ok _ _ _ _ _ (ref_batch_spec 2) n ks m m').
  - done.
  - intros n c sz m c' kvs m' _ Hl. cbn in Hl. done.
  - intros n c sz m c' kvs m' _ Hl. cbn in Hl. by injection Hl as _ <- <-.
Qed.

Definition flaky_failed : ShadowMap Z Z :=
  let _ := flaky_batch in
  (replace 1 (replace 0 (ShadowMap_open ∅) {[1 := 10; 2 := 20]}).2 {[3 := 30; 4 := 40]}).2.

Lemma flaky_failed_reach : @shadow_reach _ _ _ _ flaky_batch _ flaky_failed.
Proof. apply (@shadow_replace _ _ _ _ flaky_batch), shadow_replace, shadow_fresh. Qed.

Lemma shadow_replace_synchronises_witness :
  bpf_map (@replace _ _ _ _ flaky_batch _ 2 flaky_failed {[5 := 50]}).2 = {[5 := 50]}.
Proof.
  apply (@shadow_replace_synchronises _ _ _ _ flaky_batch _ _ 2 flaky_failed {[5 := 50]}
    true (@replace _ _ _ _ flaky_batch _ 2 flaky_failed {[5 := 50]}).1.2).
  - apply flaky_failed_reach.
  - vm_compute. reflexivity.
  - reflexivity.
Defined.
