(* ===== verification/Config.v ===== *)
(** * Config: the configuration the manager keeps and its named rate limits

    [XfwConfig::Ratelimits] of src/manager/xfw/configuration.cc: a fixed array of
    entries whose indices the BPF rules refer to, a map from names to indices
    and a queue of free indices. Entries are deleted in two steps, inactivated
    while a new configuration is applied and freed once it is in force, so that
    an index in use by the old rules is not given to another name meanwhile.
    The lifetime of the string views in [name_to_index_] is not modelled: the
    map holds the names. The second part is the configuration itself. *)

From stdpp Require Import strings.
From S2P Require Import Prelude.
From S2P Require Import Enums.
From S2P Require Import Uapi.
From S2P Require Import Bitset.

Inductive RatelimitState := Active | Inactive | ReadyToUse.

#[export] Instance RatelimitState_eq_dec : EqDecision RatelimitState.
Proof. solve_decision. Defined.

Record Ratelimit := mkRatelimit {
  rl_alias : string;
  rl_pps : Z;
  rl_bps : Z;
  rl_state : RatelimitState
}.

Definition set_state (st : RatelimitState) (e : Ratelimit) : Ratelimit :=
  mkRatelimit (rl_alias e) (rl_pps e) (rl_bps e) st.

Definition MaxEntries : nat := 255.

Record Ratelimits := mkRatelimits {
  ratelimits_ : list Ratelimit;
  name_to_index : gmap string nat;
  rl_free_indices : list nat
}.

(** The default constructor. *)
Definition Ratelimits_init : Ratelimits :=
  mkRatelimits (replicate MaxEntries (mkRatelimit EmptyString 0 0 ReadyToUse)) ∅ (seq 0 MaxEntries).

(** [None] stands for the exception. *)
Definition get_active_index (name : string) (r : Ratelimits) : option nat :=
  match name_to_index r !! name with
  | Some index =>
      match ratelimits_ r !! index with
      | Some e => if decide (rl_state e = Active) then Some index else None
      | None => None
      end
  | None => None
  end.

Definition upsert (name : string) (pps bps : Z) (r : Ratelimits) : option Ratelimits :=
  match name_to_index r !! name with
  | Some index =>
      Some (mkRatelimits
        (alter (fun e => mkRatelimit (rl_alias e) pps bps Active) index (ratelimits_ r))
        (name_to_index r) (rl_free_indices r))
  | None =>
      match rl_free_indices r with
      | [] => None
      | index :: free =>
          Some (mkRatelimits (<[index := mkRatelimit name pps bps Active]> (ratelimits_ r))
            (<[name := index]> (name_to_index r)) free)
      end
  end.

Definition inactivate (name : string) (r : Ratelimits) : option Ratelimits :=
  match name_to_index r !! name with
  | Some index =>
      Some (mkRatelimits (alter (set_state Inactive) index (ratelimits_ r))
        (name_to_index r) (rl_free_indices r))
  | None => None
  end.

Definition inactivate_all (r : Ratelimits) : Ratelimits :=
  mkRatelimits
    (map (fun e => if decide (rl_state e = Active) then set_state Inactive e else e)
       (ratelimits_ r))
    (name_to_index r) (rl_free_indices r).

(** The loop of [free_inactive] over the indices [idxs]. *)
Fixpoint free_inactive_loop (idxs : list nat) (r : Ratelimits) : Ratelimits :=
  match idxs with
  | [] => r
  | i :: idxs =>
      free_inactive_loop idxs
        match ratelimits_ r !! i with
        | Some e =>
            if decide (rl_state e = Inactive)
            then mkRatelimits (alter (set_state ReadyToUse) i (ratelimits_ r))
                   (delete (rl_alias e) (name_to_index r)) (rl_free_indices r ++ [i])
            else r
        | None => r
        end
  end.

Definition free_inactive : Ratelimits -> Ratelimits := free_inactive_loop (seq 0 MaxEntries).

(** Moving a configuration rebuilds the map ([refill_name_to_index]). *)
Definition refill_name_to_index (es : list Ratelimit) : gmap string nat :=
  foldl (fun m ie => if decide (rl_state ie.2 = ReadyToUse) then m
                     else match m !! rl_alias ie.2 with
                          | Some _ => m
                          | None => <[rl_alias ie.2 := ie.1]> m
                          end) ∅ (zip (seq 0 (length es)) es).

Definition Ratelimits_move (r : Ratelimits) : Ratelimits :=
  mkRatelimits (ratelimits_ r) (refill_name_to_index (ratelimits_ r)) (rl_free_indices r).

(** ** Invariant *)

Record rl_inv (r : Ratelimits) : Prop := mkRlInv {
  ri_length : length (ratelimits_ r) = MaxEntries;
  ri_free_NoDup : NoDup (rl_free_indices r);
  ri_free i : i ∈ rl_free_indices r <->
    exists e, ratelimits_ r !! i = Some e /\ rl_state e = ReadyToUse;
  ri_names a i : name_to_index r !! a = Some i <->
    exists e, ratelimits_ r !! i = Some e /\ rl_alias e = a /\ rl_state e <> ReadyToUse
}.

Lemma init_inv : rl_inv Ratelimits_init.
Proof.
  split.
  - apply length_replicate.
  - apply NoDup_seq.
  - intros i. cbn [rl_free_indices Ratelimits_init]. rewrite elem_of_seq. split.
    + intros Hi. eexists. split; [apply lookup_replicate; split; [done|lia]|done].
    + intros (e & He & _). apply lookup_replicate in He. lia.
  - intros a i. split; [done|]. intros (e & He & _ & Hs).
    apply lookup_replicate in He as [-> _]. done.
Qed.

Lemma lookup_alter_entry (f : Ratelimit -> Ratelimit) (i : nat) (es : list Ratelimit) j :
  alter f i es !! j = if decide (i = j) then f <$> es !! j else es !! j.
Proof.
  case_decide as Hj; [subst; apply list_lookup_alter_eq|by apply list_lookup_alter_ne].
Qed.

(** Changing an entry in use without renaming or freeing it. *)
Lemma alter_inv r f i e :
  rl_inv r -> ratelimits_ r !! i = Some e -> rl_state e <> ReadyToUse ->
  rl_alias (f e) = rl_alias e -> rl_state (f e) <> ReadyToUse ->
  rl_inv (mkRatelimits (alter f i (ratelimits_ r)) (name_to_index r) (rl_free_indices r)).
Proof.
  intros [Hl Hn Hf Ha] He Hs Hal Hs'. split; cbn; [by rewrite length_alter|done| |].
  - intros j. rewrite Hf, lookup_alter_entry. case_decide as Hj; [subst j|done].
    rewrite He. cbn. split; intros (e' & [= <-] & Hr); done.
  - intros a j. rewrite Ha, lookup_alter_entry. case_decide as Hj; [subst j|done].
    rewrite He. cbn. split; intros (e' & [= <-] & Ha' & Hr); (eexists; split_and!; [done| |]; done || congruence).
Qed.

Lemma name_entry r a i :
  rl_inv r -> name_to_index r !! a = Some i ->
  exists e, ratelimits_ r !! i = Some e /\ rl_alias e = a /\ rl_state e <> ReadyToUse.
Proof. intros Hr Hi. by apply Hr. Qed.

Lemma upsert_inv name pps bps r r' :
  rl_inv r -> upsert name pps bps r = Some r' -> rl_inv r'.
Proof.
  intros Hr. unfold upsert. destruct (name_to_index r !! name) as [i|] eqn:Hi.
  - intros [= <-]. destruct (name_entry r name i Hr Hi) as (e & He & Ha & Hs).
    by apply (alter_inv r _ i e).
  - destruct (rl_free_indices r) as [|i free] eqn:Hf; [done|]. intros [= <-].
    destruct Hr as [Hl Hn Hfr Hnm]. rewrite Hf in Hn, Hfr.
    apply list.NoDup_cons in Hn as [Hni Hn].
    destruct (proj1 (Hfr i) ltac:(set_solver)) as (e0 & He0 & Hs0).
    assert (Hlt : (i < length (ratelimits_ r))%nat) by (by eapply lookup_lt_Some).
    split; cbn; [by rewrite length_insert|done| |].
    + intros j. destruct (decide (j = i)) as [->|Hj].
      * rewrite list_lookup_insert_eq by done. naive_solver.
      * rewrite list_lookup_insert_ne by done. rewrite <- Hfr. set_solver.
    + intros a j. destruct (decide (a = name)) as [->|Hne].
      * rewrite lookup_insert_eq. split.
        -- intros [= <-]. rewrite list_lookup_insert_eq by done. by eexists.
        -- intros (e & He & Ha & Hs). destruct (decide (j = i)) as [->|Hj]; [done|].
           rewrite list_lookup_insert_ne in He by done.
           assert (name_to_index r !! name = Some j) by (apply Hnm; eauto). congruence.
      * rewrite lookup_insert_ne by done. rewrite Hnm.
        destruct (decide (j = i)) as [->|Hj].
        -- rewrite list_lookup_insert_eq by done. rewrite He0. naive_solver.
        -- by rewrite list_lookup_insert_ne by done.
Qed.

Lemma inactivate_inv name r r' :
  rl_inv r -> inactivate name r = Some r' -> rl_inv r'.
Proof.
  intros Hr. unfold inactivate. destruct (name_to_index r !! name) as [i|] eqn:Hi; [|done].
  intros [= <-]. destruct (name_entry r name i Hr Hi) as (e & He & Ha & Hs).
  by apply (alter_inv r _ i e).
Qed.

Lemma inactivate_all_inv r : rl_inv r -> rl_inv (inactivate_all r).
Proof.
  intros [Hl Hn Hf Ha]. split; cbn; [by rewrite length_map|done| |].
  - intros i. rewrite Hf, list_lookup_fmap. split; intros (e & He & Hs).
    + exists e. rewrite He. cbn. by rewrite decide_False by congruence.
    + destruct (ratelimits_ r !! i) as [e'|]; [|done]. injection He as <-.
      exists e'. case_decide; cbn in *; [done|by split].
  - intros a i. rewrite Ha, list_lookup_fmap. split; intros (e & He & Hal & Hs).
    + rewrite He. cbn. eexists. split; [done|]. case_decide; by split.
    + destruct (ratelimits_ r !! i) as [e'|]; [|done]. injection He as <-.
      exists e'. case_decide; cbn in *; split_and!; try done; congruence.
Qed.

Definition freed (e : Ratelimit) : Ratelimit :=
  if decide (rl_state e = Inactive) then set_state ReadyToUse e else e.

Lemma free_one_inv r i e :
  rl_inv r -> ratelimits_ r !! i = Some e -> rl_state e = Inactive ->
  rl_inv (mkRatelimits (alter (set_state ReadyToUse) i (ratelimits_ r))
            (delete (rl_alias e) (name_to_index r)) (rl_free_indices r ++ [i])).
Proof.
  intros [Hl Hn Hf Ha] He Hs. split; cbn; [by rewrite length_alter| | |].
  - apply list.NoDup_app. split_and!; [done| |apply NoDup_singleton].
    intros j Hj ->%list_elem_of_singleton. apply Hf in Hj as (e' & He' & Hs'). congruence.
  - intros j. rewrite elem_of_app, Hf, list_elem_of_singleton, lookup_alter_entry.
    case_decide as Hj; [subst j; rewrite He|].
    + split; [|by right]. intros _. by eexists.
    + split; [intros [Hx| ->]; done|by left].
  - intros a j. rewrite lookup_alter_entry.
    assert (Hi : name_to_index r !! rl_alias e = Some i).
    { apply Ha. exists e. split_and!; congruence. }
    case_decide as Hj; [subst j; rewrite He; cbn|].
    + split; [|by intros (e' & [= <-] & _ & Hr)]. intros Hd.
      apply lookup_delete_Some in Hd as [Hne Hd]. apply Ha in Hd as (e' & He' & Ha' & _).
      congruence.
    + rewrite <- Ha, lookup_delete_Some. split; [by intros []|]. intros Hk. split; [|done].
      intros <-. congruence.
Qed.

Lemma free_loop_inv idxs r : rl_inv r -> rl_inv (free_inactive_loop idxs r).
Proof.
  revert r. induction idxs as [|i idxs IH]; intros r Hr; cbn; [done|]. apply IH.
  destruct (ratelimits_ r !! i) as [e|] eqn:He; [|done]. case_decide; [|done].
  by apply free_one_inv.
Qed.

Lemma free_loop_entries idxs r j :
  ratelimits_ (free_inactive_loop idxs r) !! j
  = (if decide (j ∈ idxs) then freed else id) <$> ratelimits_ r !! j.
Proof.
  revert r. induction idxs as [|i idxs IH]; intros r; cbn.
  { rewrite decide_False by set_solver. by rewrite option_fmap_id. }
  rewrite IH. clear IH. destruct (decide (i = j)) as [<-|Hne].
  - rewrite (decide_True (P := i ∈ i :: idxs)) by set_solver.
    destruct (ratelimits_ r !! i) as [e|] eqn:He; [|by rewrite He].
    destruct (decide (rl_state e = Inactive)) as [Hs|Hs]; cbn [ratelimits_].
    + rewrite lookup_alter_entry, (decide_True (P := i = i)), He by done. cbn. f_equal.
      unfold freed. rewrite (decide_True (P := rl_state e = Inactive)) by done.
      destruct (decide (i ∈ idxs)); [|done]. by rewrite decide_False.
    + rewrite He. cbn. unfold freed. destruct (decide (i ∈ idxs)); cbn;
      [|by rewrite decide_False by done]. by case_decide.
  - rewrite (decide_ext (j ∈ idxs) (j ∈ i :: idxs)) by set_solver.
    destruct (ratelimits_ r !! i) as [e|] eqn:He; [|done].
    destruct (decide (rl_state e = Inactive)); [cbn [ratelimits_]|done].
    by rewrite lookup_alter_entry, (decide_False (P := i = j)) by done.
Qed.

Lemma free_inactive_entries r j :
  rl_inv r -> ratelimits_ (free_inactive r) !! j = freed <$> ratelimits_ r !! j.
Proof.
  intros Hr. unfold free_inactive. rewrite free_loop_entries. case_decide as Hj; [done|].
  rewrite lookup_ge_None_2; [done|]. rewrite elem_of_seq in Hj. rewrite (ri_length r Hr). lia.
Qed.

Lemma free_inactive_inv r : rl_inv r -> rl_inv (free_inactive r).
Proof. apply free_loop_inv. Qed.

Lemma refill_snoc es e :
  refill_name_to_index (es ++ [e])
  = if decide (rl_state e = ReadyToUse) then refill_name_to_index es
    else match refill_name_to_index es !! rl_alias e with
         | Some _ => refill_name_to_index es
         | None => <[rl_alias e := length es]> (refill_name_to_index es)
         end.
Proof.
  unfold refill_name_to_index. rewrite length_app, seq_app, (zip_with_app pair) by
    apply length_seq.
  by rewrite foldl_app.
Qed.

(** Rebuilding the map of names gives the map that was there. *)
Lemma refill_lookup es a i :
  (forall j k e1 e2, es !! j = Some e1 -> es !! k = Some e2 -> rl_alias e1 = rl_alias e2 ->
     rl_state e1 <> ReadyToUse -> rl_state e2 <> ReadyToUse -> j = k) ->
  refill_name_to_index es !! a = Some i <->
  exists e, es !! i = Some e /\ rl_alias e = a /\ rl_state e <> ReadyToUse.
Proof.
  revert a i. induction es as [|e es IH] using rev_ind; intros a i Hu.
  { split; [done|]. by intros (e & He & _). }
  assert (Hu' : forall j k e1 e2, es !! j = Some e1 -> es !! k = Some e2 ->
    rl_alias e1 = rl_alias e2 -> rl_state e1 <> ReadyToUse -> rl_state e2 <> ReadyToUse ->
    j = k).
  { intros j k e1 e2 H1 H2. apply (Hu j k e1 e2); by apply lookup_app_l_Some. }
  rewrite refill_snoc.
  assert (Hsnoc : (es ++ [e]) !! i = if decide (i = length es) then Some e else es !! i).
  { case_decide as Hi; [subst; by rewrite lookup_app_r, Nat.sub_diag|].
    destruct (decide (i < length es)%nat); [by apply lookup_app_l|].
    rewrite lookup_app_r by lia. rewrite (lookup_ge_None_2 es) by lia.
    destruct (i - length es)%nat eqn:He; [lia|done]. }
  assert (Hes : es !! length es = None) by (apply lookup_ge_None_2; lia).
  rewrite Hsnoc. destruct (decide (rl_state e = ReadyToUse)) as [Hr|Hr].
  { rewrite (IH a i Hu'). case_decide as Hi; [subst i; rewrite Hes|done]. naive_solver. }
  destruct (refill_name_to_index es !! rl_alias e) as [k|] eqn:Hk.
  - apply (IH _ _ Hu') in Hk as (e' & He' & Ha' & Hs').
    assert (k = length es) as ->; [|congruence].
    apply (Hu k (length es) e' e); try done; [by apply lookup_app_l_Some|].
    by rewrite lookup_app_r, Nat.sub_diag.
  - destruct (decide (a = rl_alias e)) as [->|Hne].
    + rewrite lookup_insert_eq. split.
      * intros [= <-]. rewrite decide_True by done. by eexists.
      * intros (e' & He' & Ha' & Hs'). case_decide as Hi; [by subst|].
        assert (refill_name_to_index es !! rl_alias e = Some i) by (apply (IH _ _ Hu'); eauto).
        congruence.
    + rewrite lookup_insert_ne by done. rewrite (IH a i Hu').
      case_decide as Hi; [subst i; rewrite Hes|done]. naive_solver.
Qed.

Lemma move_eq r : rl_inv r -> Ratelimits_move r = r.
Proof.
  intros Hr. destruct r as [es nm fr]. unfold Ratelimits_move. cbn. f_equal.
  apply map_eq. intros a. apply option_eq. intros i.
  destruct Hr as [_ _ _ Hn]. cbn in Hn. rewrite Hn. apply refill_lookup.
  intros j k e1 e2 H1 H2 Ha Hs1 Hs2.
  assert (nm !! rl_alias e1 = Some j) by (apply Hn; eauto).
  assert (nm !! rl_alias e1 = Some k) by (apply Hn; eauto). congruence.
Qed.

Lemma get_active_spec r a i :
  rl_inv r ->
  get_active_index a r = Some i <->
  exists e, ratelimits_ r !! i = Some e /\ rl_alias e = a /\ rl_state e = Active.
Proof.
  intros Hr. unfold get_active_index. split.
  - destruct (name_to_index r !! a) as [j|] eqn:Hj; [|done].
    destruct (name_entry r a j Hr Hj) as (e & He & Ha & _). rewrite He.
    case_decide; [|done]. intros [= ->]. eauto.
  - intros (e & He & Ha & Hs).
    assert (name_to_index r !! a = Some i) as -> by (apply Hr; exists e; split_and!; congruence).
    by rewrite He, decide_True.
Qed.

(** What [upsert] does to its own entry and to the others. *)
Lemma upsert_spec name pps bps r r' :
  rl_inv r -> upsert name pps bps r = Some r' ->
  exists i, name_to_index r' !! name = Some i
    /\ ratelimits_ r' !! i = Some (mkRatelimit name pps bps Active)
    /\ (forall a, a <> name -> name_to_index r' !! a = name_to_index r !! a)
    /\ (forall j, name_to_index r !! name = Some j -> j = i)
    /\ (forall j e, ratelimits_ r !! j = Some e -> rl_state e <> ReadyToUse -> j <> i ->
         ratelimits_ r' !! j = Some e).
Proof.
  intros Hr. unfold upsert. destruct (name_to_index r !! name) as [i|] eqn:Hi.
  - intros [= <-]. cbn. destruct (name_entry r name i Hr Hi) as (e & He & Ha & Hs).
    exists i. split_and!; [done| |done|by intros ? [= ->]|].
    + by rewrite lookup_alter_entry, decide_True, He, <- Ha.
    + intros j e' Hj _ Hne. by rewrite lookup_alter_entry, decide_False.
  - destruct (rl_free_indices r) as [|i free] eqn:Hf; [done|]. intros [= <-]. cbn.
    destruct (proj1 (ri_free r Hr i)) as (e & He & Hs); [rewrite Hf; set_solver|].
    exists i. split_and!; [apply lookup_insert_eq| | |done|].
    + apply list_lookup_insert_eq. by eapply lookup_lt_Some.
    + intros a Ha. by apply lookup_insert_ne.
    + intros j e' Hj _ Hne. by rewrite list_lookup_insert_ne.
Qed.

(** ** Histories *)

Inductive rl_reach : Ratelimits -> Prop :=
| rl_start : rl_reach Ratelimits_init
| rl_upsert name pps bps r r' :
    rl_reach r -> upsert name pps bps r = Some r' -> rl_reach r'
| rl_inactivate name r r' : rl_reach r -> inactivate name r = Some r' -> rl_reach r'
| rl_inactivate_all r : rl_reach r -> rl_reach (inactivate_all r)
| rl_free_inactive r : rl_reach r -> rl_reach (free_inactive r)
| rl_move r : rl_reach r -> rl_reach (Ratelimits_move r).

Lemma rl_reach_inv r : rl_reach r -> rl_inv r.
Proof.
  induction 1 as [|? ? ? ? ? _ IH Hu|? ? ? _ IH Hu|? _ IH|? _ IH|? _ IH].
  - apply init_inv.
  - exact (upsert_inv _ _ _ _ _ IH Hu).
  - exact (inactivate_inv _ _ _ IH Hu).
  - by apply inactivate_all_inv.
  - by apply free_inactive_inv.
  - by rewrite move_eq.
Qed.

(** C32: in every history of the named rate limits a name and its index determine
    each other, the index lies in the array, and [upsert] puts exactly the given
    rates under the name, changes no other active name, and fails only when the
    name is new and all 255 entries are in use. *)
Theorem ratelimit_names_consistent r :
  rl_reach r ->
  (forall a b i, get_active_index a r = Some i -> get_active_index b r = Some i ->
     a = b /\ (i < 255)%nat)
  /\ (forall name pps bps r', upsert name pps bps r = Some r' ->
     (exists i, get_active_index name r' = Some i
        /\ ratelimits_ r' !! i = Some (mkRatelimit name pps bps Active))
     /\ forall a, a <> name -> get_active_index a r' = get_active_index a r)
  /\ (forall name pps bps, upsert name pps bps r = None ->
     name_to_index r !! name = None
     /\ forall i, (i < 255)%nat -> exists e, ratelimits_ r !! i = Some e
        /\ rl_state e <> ReadyToUse).
Proof.
  intros Hr%rl_reach_inv. split_and!.
  - intros a b i (e & He & Ha & _)%get_active_spec (e' & He' & Hb & _)%get_active_spec;
      [|done..]. split; [congruence|].
    apply lookup_lt_Some in He. by rewrite (ri_length r Hr) in He.
  - intros name pps bps r' Hu. pose proof (upsert_inv _ _ _ _ _ Hr Hu) as Hr'.
    destruct (upsert_spec _ _ _ _ _ Hr Hu) as (i & Hi & He & Hn & Hj & Ho). split.
    + exists i. split; [|done]. apply get_active_spec; [done|]. by eexists.
    + intros a Ha. apply option_eq. intros k. unfold get_active_index. rewrite Hn by done.
      destruct (name_to_index r !! a) as [j|] eqn:Hja; [|done].
      destruct (name_entry r a j Hr Hja) as (e & Hej & Hea & Hs).
      rewrite (Ho j e), Hej; [done..|]. intros ->. rewrite <- (Hn a Ha) in Hja.
      apply (name_entry r' a i Hr') in Hja as (e' & He' & Ha' & _).
      rewrite He in He'. injection He' as <-. done.
  - intros name pps bps. unfold upsert.
    destruct (name_to_index r !! name) as [i|] eqn:Hi; [done|].
    destruct (rl_free_indices r) as [|i free] eqn:Hf; [|done]. intros _. split; [done|].
    intros i Hlt. rewrite <- (ri_length r Hr : _ = 255%nat) in Hlt.
    apply lookup_lt_is_Some_2 in Hlt as [e He]. exists e. split; [done|].
    intros Hs. assert (i ∈ rl_free_indices r) as Hin by (apply (ri_free r Hr); eauto).
    rewrite Hf in Hin. by apply elem_of_nil in Hin.
Qed.

Lemma ratelimit_names_consistent_witness :
  exists r' i, upsert "web" 100 1000 Ratelimits_init = Some r'
    /\ get_active_index "web" r' = Some i
    /\ ratelimits_ r' !! i = Some (mkRatelimit "web" 100 1000 Active).
Proof.
  destruct (ratelimit_names_consistent Ratelimits_init rl_start) as (_ & H & _).
  destruct (upsert "web" 100 1000 Ratelimits_init) as [r'|] eqn:Hu; [|discriminate Hu].
  destruct (proj1 (H _ _ _ _ Hu)) as (i & Hi). by exists r', i.
Defined.

(** ** Replacing a configuration

    The named limits of a full configuration: the old ones are inactivated, then
    the new ones inserted (the constructor of [XfwConfigUpdater] and
    [prepare_ratelimits] in src/manager/xfw_config_updater.cc). *)
Definition upsert_all (news : list (string * Z * Z)) (r : Ratelimits) : option Ratelimits :=
  foldl (fun o n => match o with
                    | Some r => upsert n.1.1 n.1.2 n.2 r
                    | None => None
                    end) (Some r) news.

Lemma upsert_all_cons n news r :
  upsert_all (n :: news) r
  = match upsert n.1.1 n.1.2 n.2 r with Some r => upsert_all news r | None => None end.
Proof.
  unfold upsert_all. cbn. destruct (upsert _ _ _ _); [done|].
  induction news as [|m news IH]; [done|]. apply IH.
Qed.

(** The entries of the old configuration that are not given again keep their
    index and rates, and every given name is active afterwards. *)
Definition kept (r r' : Ratelimits) (news : list (string * Z * Z)) : Prop :=
  (forall a i, name_to_index r !! a = Some i -> name_to_index r' !! a = Some i)
  /\ (forall a i, name_to_index r !! a = Some i -> a ∉ news.*1.*1 ->
      ratelimits_ r' !! i = ratelimits_ r !! i)
  /\ (forall a, a ∈ news.*1.*1 -> exists i, get_active_index a r' = Some i)
  /\ (forall a i, get_active_index a r' = Some i -> a ∉ news.*1.*1 ->
      get_active_index a r = Some i).

Lemma upsert_all_kept news r r' :
  rl_inv r -> upsert_all news r = Some r' -> rl_inv r' /\ kept r r' news.
Proof.
  revert r. induction news as [|[[name pps] bps] news IH]; intros r Hr.
  { intros [= <-]. split; [done|]. split_and!; try done. intros a Ha. by apply elem_of_nil in Ha. }
  rewrite upsert_all_cons. cbn [fst snd].
  destruct (upsert name pps bps r) as [r1|] eqn:Hu; [|done]. intros Hn.
  pose proof (upsert_inv _ _ _ _ _ Hr Hu) as Hr1.
  destruct (upsert_spec _ _ _ _ _ Hr Hu) as (k & Hk & Hek & Hother & Hsame & Hent).
  destruct (IH r1 Hr1 Hn) as (Hr' & H1 & H2 & H3 & H4). split; [done|].
  assert (Hold : forall a i, name_to_index r !! a = Some i -> name_to_index r1 !! a = Some i).
  { intros a i Hi. destruct (decide (a = name)) as [->|Hne]; [|by rewrite Hother].
    rewrite Hk. f_equal. symmetry. by apply Hsame. }
  assert (Hkeep : forall a i, name_to_index r !! a = Some i -> a <> name ->
    ratelimits_ r1 !! i = ratelimits_ r !! i).
  { intros a i Hi Hne. destruct (name_entry r a i Hr Hi) as (e & He & Ha & Hs).
    rewrite He. apply Hent; [done..|]. intros ->.
    apply Hold, (name_entry r1 a k Hr1) in Hi as (e' & He' & Ha' & _). rewrite Hek in He'.
    injection He' as <-. done. }
  split_and!.
  - intros a i Hi. by apply H1, Hold.
  - intros a i Hi Hni. cbn in Hni. rewrite (H2 a i); [|by apply Hold|set_solver].
    apply (Hkeep a); [done|set_solver].
  - intros a Ha. cbn in Ha. destruct (decide (a ∈ news.*1.*1)); [by apply H3|].
    assert (a = name) as -> by set_solver. exists k. apply get_active_spec; [done|].
    exists (mkRatelimit name pps bps Active). rewrite <- Hek. split_and!; [|done..].
    by apply (H2 name).
  - intros a i Hi Hni. cbn in Hni. apply H4 in Hi; [|set_solver].
    apply get_active_spec in Hi as (e & He & Ha & Hs); [|done].
    assert (a <> name) as Hne by set_solver.
    assert (name_to_index r !! a = Some i) as Hia.
    { rewrite <- Hother by done. apply Hr1. exists e. split_and!; congruence. }
    apply get_active_spec; [done|]. exists e. rewrite <- (Hkeep a i); done.
Qed.

Lemma inactivate_all_entry r i :
  ratelimits_ (inactivate_all r) !! i
  = (fun e => if decide (rl_state e = Active) then set_state Inactive e else e)
      <$> ratelimits_ r !! i.
Proof. apply list_lookup_fmap. Qed.

Lemma inactivate_all_none r a i :
  rl_inv r -> get_active_index a (inactivate_all r) = Some i -> False.
Proof.
  intros Hr (e & He & _ & Hs)%get_active_spec; [|by apply inactivate_all_inv].
  rewrite inactivate_all_entry in He. destruct (ratelimits_ r !! i) as [e'|]; [|done].
  injection He as <-. case_decide; cbn in *; congruence.
Qed.

Lemma free_inactive_active r a :
  rl_inv r -> get_active_index a (free_inactive r) = get_active_index a r.
Proof.
  intros Hr. apply option_eq. intros i.
  rewrite (get_active_spec _ a i (free_inactive_inv r Hr)), (get_active_spec r a i Hr).
  rewrite free_inactive_entries by done. split.
  - intros (e & He & Ha & Hs). destruct (ratelimits_ r !! i) as [e'|]; [|done].
    injection He as <-. exists e'. unfold freed in *. by case_decide.
  - intros (e & He & Ha & Hs). exists e. rewrite He. cbn. unfold freed.
    by rewrite decide_False by congruence.
Qed.

Lemma free_inactive_names r a i :
  rl_inv r -> name_to_index (free_inactive r) !! a = Some i -> get_active_index a r = Some i.
Proof.
  intros Hr Hi. apply (name_entry _ _ _ (free_inactive_inv r Hr)) in Hi as (e & He & Ha & Hs).
  rewrite free_inactive_entries in He by done. apply get_active_spec; [done|].
  destruct (ratelimits_ r !! i) as [e'|]; [|done]. injection He as <-. exists e'.
  unfold freed in *. case_decide as Hd; [done|]. split_and!; [done|done|].
  by destruct (rl_state e').
Qed.

Definition rates (e : Ratelimit) : Z * Z := (rl_pps e, rl_bps e).

(** While a full configuration replaces another one, the rules of the old one
    that are still in force keep their rate limits: every name of the old
    configuration keeps its index, a name that is not given again keeps its
    rates, and a new name never gets the index of another old name. Once the new
    configuration is in force exactly its own names are left, at unchanged
    indices. *)
Lemma ratelimit_reload_stable r news r' :
  rl_reach r -> upsert_all news (inactivate_all r) = Some r' ->
  (forall a i, name_to_index r !! a = Some i -> name_to_index r' !! a = Some i)
  /\ (forall a i, name_to_index r !! a = Some i -> a ∉ news.*1.*1 ->
      rates <$> ratelimits_ r' !! i = rates <$> ratelimits_ r !! i)
  /\ (forall a b i, get_active_index a r' = Some i -> name_to_index r !! b = Some i -> a = b)
  /\ (forall a, get_active_index a (free_inactive (Ratelimits_move r')) = get_active_index a r')
  /\ (forall a, a ∈ news.*1.*1 <-> is_Some (get_active_index a r'))
  /\ (forall a, a ∉ news.*1.*1 ->
      name_to_index (free_inactive (Ratelimits_move r')) !! a = None).
Proof.
  intros Hr%rl_reach_inv Hu.
  destruct (upsert_all_kept _ _ _ (inactivate_all_inv r Hr) Hu) as (Hr' & H1 & H2 & H3 & H4).
  assert (Hact : forall a i, get_active_index a r' = Some i -> a ∈ news.*1.*1).
  { intros a i Ha. destruct (decide (a ∈ news.*1.*1)); [done|].
    by destruct (inactivate_all_none r a i Hr (H4 a i Ha ltac:(done))). }
  rewrite (move_eq r' Hr'). split_and!.
  - exact H1.
  - intros a i Hi Hn. rewrite (H2 a i Hi Hn), inactivate_all_entry, <- option_fmap_compose.
    apply option_fmap_ext. intros e. cbn. by case_decide.
  - intros a b i Ha Hb. apply H1, (name_entry r' b i Hr') in Hb as (e & He & Hb & _).
    apply get_active_spec in Ha as (e' & He' & Ha & _); [|done]. congruence.
  - intros a. exact (free_inactive_active r' a Hr').
  - intros a. split; [intros Ha; by apply H3|]. intros [i Hi]. by eapply Hact.
  - intros a Ha. destruct (name_to_index (free_inactive r') !! a) as [i|] eqn:Hi; [|done].
    apply free_inactive_names in Hi; [|done]. by destruct Ha; eapply Hact.
Qed.

(** * The configuration

    [XfwConfig] of src/manager/xfw/configuration.hh. A [std::map] from names to
    rules is an association list in the order of the names, because the order
    decides which of two geo rules with a common network wins; a [std::set] is
    the list of its elements. *)

Record SynCookieFilter := mkSynCookieFilter { passive_timer : Z; flood_timer : Z }.

(** [TcpFlagFilter]: the index of a named rate limit. *)
Abbreviation TcpFlagFilter := Z (only parsing).

Record TcpAnomalyFilter := mkTcpAnomalyFilter {
  af_enabled : bool;
  af_syn_without_opt_enabled : bool;
  af_syn_with_payload_enabled : bool;
  af_bad_flags : list Z;
  af_syn_with_seqno : option Z
}.

(** The first field is the union of the prefix length (source rules and
    protected networks) and of the port (destination rules). *)
Record Net4Key := mkNet4Key { n4_prefixlen : Z; n4_addr : Z }.
Record Net6Key := mkNet6Key { n6_prefixlen : Z; n6_addr : XfwIp }.

#[export] Instance Net4Key_eq_dec : EqDecision Net4Key.
Proof. solve_decision. Defined.
#[export] Instance Net6Key_eq_dec : EqDecision Net6Key.
Proof. solve_decision. Defined.

Record NetGeo := mkNetGeo {
  geo_code : Z;
  geo_net4s : list Net4Key;
  geo_net6s : list Net6Key
}.

Record Flags := mkFlags {
  isProcNet : bool;
  isSrc : bool;
  isAllowed : bool;
  isTcp : bool;
  isIpv6 : bool
}.

Record NetIp := mkNetIp {
  ni_ratelimit_index : option Z;
  ni_flags : Flags;
  ni_net4s : list Net4Key;
  ni_net6s : list Net6Key;
  ni_nets : list NetGeo;
  ni_ports : list XfwPort
}.
Abbreviation NetIps := (list (string * NetIp)).

Record IcmpRule := mkIcmpRule {
  ir_isAllowed : bool;
  ir_isIpv6 : bool;
  ir_ratelimit_index : option Z;
  ir_types : list Z
}.
Abbreviation IcmpRules := (list (string * IcmpRule)).

Record Action := mkAction { allow_ : bool; act_ratelimit_index : option Z }.
Abbreviation Defaults := (DefaultIndex -> option Action).

Record XfwConfig := mkXfwConfig {
  evaluation_mode : bool;
  ip_proto_filter : option (list Z);
  syncookie_filter : option SynCookieFilter;
  tcp_syn_flag_filter : option TcpFlagFilter;
  tcp_rst_flag_filter : option TcpFlagFilter;
  anomaly_filter : TcpAnomalyFilter;
  auth_filter : bool;
  dns_filter : bool;
  src_rules : NetIps;
  icmp_rules : IcmpRules;
  dst_rules : NetIps;
  prot_net : NetIps;
  ratelimits : Ratelimits;
  defaults : Defaults
}.

(** A default-constructed configuration. *)
Definition XfwConfig_init : XfwConfig :=
  mkXfwConfig false None None None None
    (mkTcpAnomalyFilter false false false (BitSet_empty 255) None)
    false false [] [] [] [] Ratelimits_init (fun _ => None).
