(* ===== verification/MapsManager.v ===== *)
(** * MapsManager: how the manager writes the rules to the kernel

    [BpfMapsManager] of src/manager/xfw/maps_manager.cc and [Xfw::set_config] of
    src/manager/xfw/xfw.cc. The manager builds new rule sets in user space,
    writes them to the inactive map of a pair ([ShadowMap]), and makes them
    active by uploading the configuration; buckets of rate-limited rules are
    taken from a pool in a transaction ([IndexPool]).

    Exceptions are values of [MgrError]; the state reached when an operation
    throws is kept, as in C++, and the destructor of a transaction that leaves
    its scope rolls it back ([tx_scope]). The kernel is a parameter: any system
    call may fail. *)

From stdpp Require Import strings.
From S2P Require Import Prelude.
From S2P Require Import Enums.
From S2P Require Import Uapi.
From S2P Require Import Bitset.
From S2P Require Import IndexPool.
From S2P Require Import ShadowMap.
From S2P Require Import Config.

(** ** The kernel *)

Class MgrKernel := mkMgrKernel {
  k_cfg_get : nat -> bool;
  k_cfg_set : nat -> bool;
  k_batch : forall (K V : Type) (HE : EqDecision K) (HC : Countable K), BpfBatch K V
}.

#[export] Instance mgr_batch `{MgrKernel} {K V} `{Countable K} : BpfBatch K V :=
  k_batch K V _ _.

Class MgrKernelSpec `{MgrKernel} :=
  k_batch_spec (K V : Type) (HE : EqDecision K) (HC : Countable K) :
    @BpfBatchSpec K V HE HC (k_batch K V HE HC).

#[export] Instance mgr_batch_spec `{MgrKernelSpec} {K V} `{Countable K} :
  BpfBatchSpec K V := k_batch_spec K V _ _.

(** ** State *)

Record SrcMaps := mkSrcMaps {
  v4_udp : ShadowMap XfwIpv4LpmKey XfwSrcRule;
  v4_tcp : ShadowMap XfwIpv4LpmKey XfwSrcRule;
  v6_udp : ShadowMap XfwIpv6LpmKey XfwSrcRule;
  v6_tcp : ShadowMap XfwIpv6LpmKey XfwSrcRule;
  port_udp : ShadowMap XfwPort XfwSrcRule;
  port_tcp : ShadowMap XfwPort XfwSrcRule
}.

Record ProtNetMaps := mkProtNetMaps {
  net_v4 : ShadowMap XfwIpv4LpmKey Z;
  net_v6 : ShadowMap XfwIpv6LpmKey Z
}.

(** [m_cfg] is the value of the kernel's configuration map, [m_calls] the number
    of system calls so far. *)
Record Mgr := mkMgr {
  m_cfg : XfwFilterCfg;
  m_src : ShadowPair SrcMaps;
  m_icmp : ShadowPair (ShadowMap XfwIcmpKey XfwActionRule);
  m_dst : ShadowPair (ShadowMap XfwDstKey XfwActionRule);
  m_net : ShadowPair ProtNetMaps;
  m_pool : IndexPool;
  m_tx : IndexPoolTx;
  m_calls : nat
}.

Definition set_m_cfg c m := mkMgr c (m_src m) (m_icmp m) (m_dst m) (m_net m) (m_pool m) (m_tx m) (m_calls m).
Definition set_m_src x m := mkMgr (m_cfg m) x (m_icmp m) (m_dst m) (m_net m) (m_pool m) (m_tx m) (m_calls m).
Definition set_m_icmp x m := mkMgr (m_cfg m) (m_src m) x (m_dst m) (m_net m) (m_pool m) (m_tx m) (m_calls m).
Definition set_m_dst x m := mkMgr (m_cfg m) (m_src m) (m_icmp m) x (m_net m) (m_pool m) (m_tx m) (m_calls m).
Definition set_m_net x m := mkMgr (m_cfg m) (m_src m) (m_icmp m) (m_dst m) x (m_pool m) (m_tx m) (m_calls m).
Definition set_m_pool p t m := mkMgr (m_cfg m) (m_src m) (m_icmp m) (m_dst m) (m_net m) p t (m_calls m).
Definition set_m_calls n m := mkMgr (m_cfg m) (m_src m) (m_icmp m) (m_dst m) (m_net m) (m_pool m) (m_tx m) n.

(** The part of the configuration that each operation changes. *)
Definition with_rules_cfg (r : XfwRulesCfg) (c : XfwFilterCfg) : XfwFilterCfg :=
  mkFilterCfg r (rules_active c) (amap_src c) (amap_icmp c) (amap_dst c)
    (amap_prot_net c) (rl_window c) (named_rates c).
Definition with_amap_src (i : Z) (c : XfwFilterCfg) : XfwFilterCfg :=
  mkFilterCfg (rules c) (rules_active c) i (amap_icmp c) (amap_dst c)
    (amap_prot_net c) (rl_window c) (named_rates c).
Definition with_amap_icmp (i : Z) (c : XfwFilterCfg) : XfwFilterCfg :=
  mkFilterCfg (rules c) (rules_active c) (amap_src c) i (amap_dst c)
    (amap_prot_net c) (rl_window c) (named_rates c).
Definition with_amap_dst (i : Z) (c : XfwFilterCfg) : XfwFilterCfg :=
  mkFilterCfg (rules c) (rules_active c) (amap_src c) (amap_icmp c) i
    (amap_prot_net c) (rl_window c) (named_rates c).
Definition with_amap_prot_net (i : Z) (c : XfwFilterCfg) : XfwFilterCfg :=
  mkFilterCfg (rules c) (rules_active c) (amap_src c) (amap_icmp c) (amap_dst c)
    i (rl_window c) (named_rates c).
Definition with_named_rates (l : list XfwPacketRate) (c : XfwFilterCfg) : XfwFilterCfg :=
  mkFilterCfg (rules c) (rules_active c) (amap_src c) (amap_icmp c) (amap_dst c)
    (amap_prot_net c) (rl_window c) l.
Definition with_rules_active (c : XfwFilterCfg) : XfwFilterCfg :=
  mkFilterCfg (rules c) true (amap_src c) (amap_icmp c) (amap_dst c)
    (amap_prot_net c) (rl_window c) (named_rates c).
Definition with_defaults (d : DefaultIndex -> XfwActionRule) (r : XfwRulesCfg) : XfwRulesCfg :=
  mkRulesCfg (rc_evaluation_mode r) (rc_ip_proto r) (rc_syncookie r) (rc_tcp_anomaly r)
    (rc_tcp_auth r) (rc_dns r) (rc_tcp_flags r) d.
Definition with_tcp_flags (f : XfwFlagsFilter -> XfwActionRule) (r : XfwRulesCfg)
    : XfwRulesCfg :=
  mkRulesCfg (rc_evaluation_mode r) (rc_ip_proto r) (rc_syncookie r) (rc_tcp_anomaly r)
    (rc_tcp_auth r) (rc_dns r) f (rc_defaults r).
Definition with_tcp_anomaly (a : XfwRulesCfgTcpAnomaly) (r : XfwRulesCfg) : XfwRulesCfg :=
  mkRulesCfg (rc_evaluation_mode r) (rc_ip_proto r) (rc_syncookie r) a
    (rc_tcp_auth r) (rc_dns r) (rc_tcp_flags r) (rc_defaults r).

(** ** Exceptions *)

Inductive MgrError :=
| ERR_CFG_LOAD | ERR_CFG_UPDATE | ERR_MAP_INDEX | ERR_BPF_UPDATE
| ERR_DUPLICATE | ERR_LIMIT | ERR_NO_BUCKET | ERR_RATE | ERR_UPDATE.

Definition X (A : Type) : Type := Mgr -> (MgrError + A) * Mgr.

Definition xret {A} (a : A) : X A := fun m => (inr a, m).
Definition xthrow {A} (e : MgrError) : X A := fun m => (inl e, m).
Definition xbind {A B} (x : X A) (k : A -> X B) : X B :=
  fun m => match x m with
           | (inl e, m) => (inl e, m)
           | (inr a, m) => k a m
           end.
Definition xget : X Mgr := fun m => (inr m, m).
Definition xmodify (f : Mgr -> Mgr) : X unit := fun m => (inr tt, f m).

Notation "'let!' x := m 'in' k" := (xbind m (fun x => k))
  (at level 10, x binder, k at level 200) : xfw_scope.
Notation "m ;! k" := (xbind m (fun _ => k))
  (at level 199, right associativity) : xfw_scope.
Open Scope xfw_scope.

(** [verify(c, ...)], which throws, and [if (...) throw]. *)
Definition xverify (c : bool) (e : MgrError) : X unit := if c then xret tt else xthrow e.

Fixpoint xfoldl {A B} (f : B -> A -> X B) (b : B) (l : list A) : X B :=
  match l with
  | [] => xret b
  | a :: l => let! b' := f b a in xfoldl f b' l
  end.

(** The number of the next system call. *)
Definition next_call : X nat :=
  fun m => (inr (m_calls m), set_m_calls (S (m_calls m)) m).

(** The scope of an [IndexPoolTransaction]: the destructor rolls back. *)
Definition tx_scope {A} (body : X A) : X A := fun m =>
  let '(r, m) := body (set_m_pool (m_pool m) tx_empty m) in
  let '(p, t) := tx_rollback (m_pool m) (m_tx m) in (r, set_m_pool p t m).

Definition xallocate : X Z := fun m =>
  match tx_allocate (m_pool m) (m_tx m) with
  | Some (i, p, t) => (inr i, set_m_pool p t m)
  | None => (inl ERR_NO_BUCKET, m)
  end.

Definition xrelease (i : Z) : X unit :=
  xmodify (fun m => set_m_pool (m_pool m) (tx_release i (m_tx m)) m).

(** ** Window parameters *)

(** [std::bit_ceil] for values above 1. *)
Definition bit_ceil (x : Z) : Z := 2 ^ Z.log2_up x.

Definition xfw_round_pow2 (value : Z) : Z :=
  if value <=? 1 then 1 else
  let hi := bit_ceil value in
  let lo := Z.shiftr hi 1 in
  if value =? hi then hi
  else if value - lo <? hi - value then lo else hi.

(** [std::countr_zero] of a power of two is its logarithm. *)
Definition xfw_ilog2 (value : Z) : Z := Z.log2 value.

(** The constructor, from [CONFIG_HZ]. *)
Definition rl_window_jiffies (hz : Z) : Z := xfw_round_pow2 (u32 hz).
Definition rl_window_shift (hz : Z) : Z := xfw_ilog2 (rl_window_jiffies hz).
Definition rl_window_mask (hz : Z) : Z := rl_window_jiffies hz - 1.
Definition rl_max_rate (hz : Z) : Z := Z.shiftr UINT64_MAX (rl_window_shift hz).

Definition scale_rl_to_window (hz rlps : Z) : Z :=
  if rlps =? 0 then 0
  else Z.max 1 (u64 (Z.shiftl rlps (rl_window_shift hz)) / hz).

Definition make_default_ip_proto : list Z :=
  BitSet_set XFW_L4_PROTO_ICMPV6 (BitSet_set XFW_L4_PROTO_ICMP
    (BitSet_set XFW_L4_PROTO_UDP (BitSet_set XFW_L4_PROTO_TCP
      (BitSet_empty XFW_SUPPORTED_PROTOCOL_MAX)))).

Definition opt_is_rl (r : option XfwActionRule) : bool :=
  match r with Some r => action r =? XFW_ACTION_RATE_LIMIT | None => false end.

Definition set_bucket_idx (i : Z) (r : XfwActionRule) : XfwActionRule :=
  mkActionRule (action r) (mkRLimitRule i (named_idx (rlimit r))).

(** The rule afterwards; the pointers may be null. *)
Definition reconcile_ratelimit_bucket (new_rule cfg_rule : option XfwActionRule)
    : X (option XfwActionRule) :=
  match new_rule, cfg_rule, opt_is_rl new_rule, opt_is_rl cfg_rule with
  | Some new, _, true, false =>
      let! i := xallocate in xret (Some (set_bucket_idx i new))
  | _, Some old, false, true => xrelease (bucket_idx (rlimit old)) ;! xret new_rule
  | Some new, Some old, true, true =>
      if named_idx (rlimit new) =? named_idx (rlimit old)
      then xret (Some (set_bucket_idx (bucket_idx (rlimit old)) new))
      else let! i := xallocate in
           xrelease (bucket_idx (rlimit old)) ;!
           xret (Some (set_bucket_idx i new))
  | _, _, _, _ => xret new_rule
  end.

Section manager.
Context (hz : Z) `{MgrKernel}.

Definition get_config : X XfwFilterCfg :=
  let! n := next_call in
  let! m := xget in
  if k_cfg_get n then xret (m_cfg m) else xthrow ERR_CFG_LOAD.

(** [commit]: whether a transaction was passed. *)
Definition upload_config_changes (cfg : XfwFilterCfg) (commit : bool) : X unit :=
  let! n := next_call in
  xverify (k_cfg_set n) ERR_CFG_UPDATE ;!
  xmodify (set_m_cfg cfg) ;!
  if commit
  then xmodify (fun m => let '(p, t) := tx_commit (m_pool m) (m_tx m) in set_m_pool p t m)
  else xret tt.

(** [get_maps_by_index] and the selection of an element of an array of two. *)
Definition get_maps_by_index {T} (p : ShadowPair T) (map_idx : Z) : X T :=
  if map_idx =? MAP_PRIMARY_IDX then xret (sh_primary p)
  else if map_idx =? MAP_SECONDARY_IDX then xret (sh_secondary p)
  else xthrow ERR_MAP_INDEX.

Definition put_map {T} (p : ShadowPair T) (map_idx : Z) (x : T) : ShadowPair T :=
  if map_idx =? MAP_PRIMARY_IDX then mkShadow x (sh_secondary p)
  else mkShadow (sh_primary p) x.

(** [verify(map.replace(...), ...)] for the shadow map that [get] reads and
    [put] writes back; the map changes also when the call fails. *)
Definition replace_map {K V} `{Countable K} `{!EqDecision V} (get : Mgr -> ShadowMap K V)
    (put : ShadowMap K V -> Mgr -> Mgr) (new_state : gmap K V) : X unit :=
  fun m => let '(ok, n, sm) := replace (m_calls m) (get m) new_state in
           xverify ok ERR_BPF_UPDATE (put sm (set_m_calls n m)).

Definition set_tcp_flag_rule (new_filter : option TcpFlagFilter) (flag : XfwFlagsFilter)
    : X unit :=
  let! cfg := get_config in
  let new_rule :=
    match new_filter with
    | Some i => mkActionRule XFW_ACTION_RATE_LIMIT (mkRLimitRule UINT32_MAX i)
    | None => mkActionRule XFW_ACTION_ALLOW XfwRLimitRule_invalid
    end in
  tx_scope (
    let! r := reconcile_ratelimit_bucket (Some new_rule) (Some (rc_tcp_flags (rules cfg) flag)) in
    let f := fun g => if decide (g = flag) then default new_rule r
                      else rc_tcp_flags (rules cfg) g in
    upload_config_changes (with_rules_cfg (with_tcp_flags f (rules cfg)) cfg) true).

Definition set_tcp_anomaly_rule (filter : TcpAnomalyFilter) : X unit :=
  let! cfg := get_config in
  let a := mkTcpAnomaly (af_enabled filter) (af_syn_without_opt_enabled filter)
             (af_syn_with_payload_enabled filter) (bool_decide (is_Some (af_syn_with_seqno filter)))
             (default 0 (af_syn_with_seqno filter)) (memcpy_words 4 (af_bad_flags filter)) in
  upload_config_changes (with_rules_cfg (with_tcp_anomaly a (rules cfg)) cfg) false.

Definition apply_defaults (ds : Defaults) (indices : list DefaultIndex) (default_action : Z)
    (to : DefaultIndex -> XfwActionRule) : X (DefaultIndex -> XfwActionRule) :=
  xfoldl (fun to idx =>
    let new_rule := match ds idx with
                    | Some a => XfwActionRule_of (allow_ a) (act_ratelimit_index a)
                    | None => mkActionRule default_action XfwRLimitRule_invalid
                    end in
    let! r := reconcile_ratelimit_bucket (Some new_rule) (Some (to idx)) in
    xret (fun i => if decide (i = idx) then default new_rule r else to i)) to indices.

Definition set_simple_rules (config : XfwConfig) : X unit :=
  let! cfg := get_config in
  let s := default make_default_ip_proto (ip_proto_filter config) in
  let r := rules cfg in
  let sc := rc_syncookie r in
  let syncookie :=
    match syncookie_filter config with
    | Some d => mkSyncookie (u64 (passive_timer d * hz)) (u64 (flood_timer d * hz)) true
    | None => mkSyncookie (sc_passive_timer_jiff sc) (sc_flood_timer_jiff sc) false
    end in
  let r' := mkRulesCfg (evaluation_mode config) (memcpy_words 4 s) syncookie
              (rc_tcp_anomaly r) (auth_filter config) (dns_filter config)
              (rc_tcp_flags r) (rc_defaults r) in
  upload_config_changes
    (mkFilterCfg r' (rules_active cfg) (amap_src cfg) (amap_icmp cfg) (amap_dst cfg)
       (amap_prot_net cfg)
       (mkRlWindow (rl_window_jiffies hz) (rl_window_shift hz) (rl_window_mask hz))
       (named_rates cfg)) false.

(** ** Source rules *)

(** [try_emplace] for user rules, where a duplicate is an error, and for geo
    rules, where it is skipped. *)
Definition emplace_user {K V} `{Countable K} (keys : list K) (r : V) (m : gmap K V)
    : X (gmap K V) :=
  xfoldl (fun m k => match m !! k with
                     | None => xret (<[k := r]> m)
                     | Some _ => xthrow ERR_DUPLICATE
                     end) m keys.

Definition emplace_geo {K V} `{Countable K} (keys : list K) (r : V) (m : gmap K V) : gmap K V :=
  foldl (fun m k => match m !! k with None => <[k := r]> m | Some _ => m end) m keys.

Definition lpm4_key (k : Net4Key) : XfwIpv4LpmKey := mkIpv4LpmKey (n4_prefixlen k) (n4_addr k).
Definition lpm6_key (k : Net6Key) : XfwIpv6LpmKey := mkIpv6LpmKey (n6_prefixlen k) (n6_addr k).

(** The snapshots under construction. *)
Record SrcSnapshots := mkSrcSnapshots {
  rules4_udp : gmap XfwIpv4LpmKey XfwSrcRule;
  rules4_tcp : gmap XfwIpv4LpmKey XfwSrcRule;
  rules6_udp : gmap XfwIpv6LpmKey XfwSrcRule;
  rules6_tcp : gmap XfwIpv6LpmKey XfwSrcRule;
  port_rules_udp : gmap XfwPort XfwSrcRule;
  port_rules_tcp : gmap XfwPort XfwSrcRule
}.

Definition add_user_rule (s : SrcSnapshots) (it : string * NetIp) : X SrcSnapshots :=
  let ip := it.2 in
  let r := XfwSrcRule_of (isAllowed (ni_flags ip)) (ni_ratelimit_index ip) in
  if isTcp (ni_flags ip) then
    let! m4 := emplace_user (map lpm4_key (ni_net4s ip)) r (rules4_tcp s) in
    let! m6 := emplace_user (map lpm6_key (ni_net6s ip)) r (rules6_tcp s) in
    let! mp := emplace_user (ni_ports ip) r (port_rules_tcp s) in
    xret (mkSrcSnapshots (rules4_udp s) m4 (rules6_udp s) m6 (port_rules_udp s) mp)
  else
    let! m4 := emplace_user (map lpm4_key (ni_net4s ip)) r (rules4_udp s) in
    let! m6 := emplace_user (map lpm6_key (ni_net6s ip)) r (rules6_udp s) in
    let! mp := emplace_user (ni_ports ip) r (port_rules_udp s) in
    xret (mkSrcSnapshots m4 (rules4_tcp s) m6 (rules6_tcp s) mp (port_rules_tcp s)).

Definition add_geo_rule (s : SrcSnapshots) (it : string * NetIp) : SrcSnapshots :=
  let ip := it.2 in
  let r := XfwSrcRule_of (isAllowed (ni_flags ip)) (ni_ratelimit_index ip) in
  foldl (fun s net =>
    let k4 := map lpm4_key (geo_net4s net) in
    let k6 := map lpm6_key (geo_net6s net) in
    if isTcp (ni_flags ip) then
      mkSrcSnapshots (rules4_udp s) (emplace_geo k4 r (rules4_tcp s)) (rules6_udp s)
        (emplace_geo k6 r (rules6_tcp s)) (port_rules_udp s) (port_rules_tcp s)
    else
      mkSrcSnapshots (emplace_geo k4 r (rules4_udp s)) (rules4_tcp s)
        (emplace_geo k6 r (rules6_udp s)) (rules6_tcp s) (port_rules_udp s) (port_rules_tcp s))
    s (ni_nets ip).

(** The snapshots of a rule set: user rules first, geo rules fill the gaps. *)
Definition build_src_snapshots (rs : NetIps) : X SrcSnapshots :=
  let! s := xfoldl add_user_rule (mkSrcSnapshots ∅ ∅ ∅ ∅ ∅ ∅) rs in
  xret (foldl add_geo_rule s rs).

Definition fits {K V} `{Countable K} (m : gmap K V) (max : Z) : bool :=
  Z.of_nat (size m) <=? max.

Definition src_indices : list DefaultIndex :=
  [ XFW_DEFAULT_SRC_IP_TCP_IP4; XFW_DEFAULT_SRC_IP_UDP_IP4;
    XFW_DEFAULT_SRC_IP_TCP_IP6; XFW_DEFAULT_SRC_IP_UDP_IP6;
    XFW_DEFAULT_SRC_PORT_TCP_IP4; XFW_DEFAULT_SRC_PORT_UDP_IP4;
    XFW_DEFAULT_SRC_PORT_TCP_IP6; XFW_DEFAULT_SRC_PORT_UDP_IP6 ].

(** Replace one of the six maps of the source rules at [idx]. *)
Definition replace_src {K V} `{Countable K} `{!EqDecision V} (idx : Z)
    (get : SrcMaps -> ShadowMap K V) (put : ShadowMap K V -> SrcMaps -> SrcMaps)
    (new_state : gmap K V) : X unit :=
  replace_map
    (fun m => get (if idx =? MAP_PRIMARY_IDX then sh_primary (m_src m) else sh_secondary (m_src m)))
    (fun sm m => set_m_src (put_map (m_src m) idx (put sm
       (if idx =? MAP_PRIMARY_IDX then sh_primary (m_src m) else sh_secondary (m_src m)))) m)
    new_state.

Definition set_src_rules (rs : NetIps) (ds : Defaults) : X unit :=
  let! s := build_src_snapshots rs in
  xverify (fits (rules4_udp s) XFW_MAX_SRC_IP_RULES) ERR_LIMIT ;!
  xverify (fits (rules4_tcp s) XFW_MAX_SRC_IP_RULES) ERR_LIMIT ;!
  xverify (fits (rules6_udp s) XFW_MAX_SRC_IP_RULES) ERR_LIMIT ;!
  xverify (fits (rules6_tcp s) XFW_MAX_SRC_IP_RULES) ERR_LIMIT ;!
  xverify (fits (port_rules_udp s) XFW_MAX_PORTS) ERR_LIMIT ;!
  xverify (fits (port_rules_tcp s) XFW_MAX_PORTS) ERR_LIMIT ;!
  let! cfg := get_config in
  let idx := next_map_idx (amap_src cfg) in
  replace_src idx v4_udp (fun x t => mkSrcMaps x (v4_tcp t) (v6_udp t) (v6_tcp t) (port_udp t)
    (port_tcp t)) (rules4_udp s) ;!
  replace_src idx v4_tcp (fun x t => mkSrcMaps (v4_udp t) x (v6_udp t) (v6_tcp t) (port_udp t)
    (port_tcp t)) (rules4_tcp s) ;!
  replace_src idx v6_udp (fun x t => mkSrcMaps (v4_udp t) (v4_tcp t) x (v6_tcp t) (port_udp t)
    (port_tcp t)) (rules6_udp s) ;!
  replace_src idx v6_tcp (fun x t => mkSrcMaps (v4_udp t) (v4_tcp t) (v6_udp t) x (port_udp t)
    (port_tcp t)) (rules6_tcp s) ;!
  replace_src idx port_udp (fun x t => mkSrcMaps (v4_udp t) (v4_tcp t) (v6_udp t) (v6_tcp t) x
    (port_tcp t)) (port_rules_udp s) ;!
  replace_src idx port_tcp (fun x t => mkSrcMaps (v4_udp t) (v4_tcp t) (v6_udp t) (v6_tcp t)
    (port_udp t) x) (port_rules_tcp s) ;!
  tx_scope (
    let! to := apply_defaults ds src_indices XFW_ACTION_ALLOW (rc_defaults (rules cfg)) in
    upload_config_changes
      (with_rules_cfg (with_defaults to (rules cfg)) (with_amap_src idx cfg)) true).

(** ** ICMP and destination rules *)

(** The inner loops of [set_icmp_rules] and [set_dst_rules]: one rule for several
    keys; the bucket of the rule object [r] is overwritten for every key. *)
Definition add_keys {K} `{Countable K} (active : gmap K XfwActionRule)
    (s : gmap K XfwActionRule * XfwActionRule) (keys : list K)
    : X (gmap K XfwActionRule * XfwActionRule) :=
  xfoldl (fun '(new_rules, r) key =>
    let! o := reconcile_ratelimit_bucket (Some r) (active !! key) in
    let r := default r o in
    match new_rules !! key with
    | None => xret (<[key := r]> new_rules, r)
    | Some _ => xthrow ERR_DUPLICATE
    end) s keys.

(** Return the buckets of removed rules to the pool. *)
Definition release_removed {K} `{Countable K} (active new_rules : gmap K XfwActionRule)
    : X unit :=
  xfoldl (fun _ '(key, rule) =>
    match new_rules !! key with
    | None => reconcile_ratelimit_bucket None (Some rule) ;! xret tt
    | Some _ => xret tt
    end) tt (map_to_list active).

Definition icmp_keys (rule : IcmpRule) : list XfwIcmpKey :=
  map (mkIcmpKey (if ir_isIpv6 rule then XFW_L4_PROTO_ICMPV6 else XFW_L4_PROTO_ICMP))
    (ir_types rule).

Definition icmp_indices : list DefaultIndex := [ XFW_DEFAULT_ICMP_IP4; XFW_DEFAULT_ICMP_IP6 ].

Definition set_icmp_rules (rs : IcmpRules) (ds : Defaults) : X unit :=
  let! cfg := get_config in
  let! m := xget in
  let! active_map := get_maps_by_index (m_icmp m) (amap_icmp cfg) in
  let active := snapshot active_map in
  tx_scope (
    let! new_rules := xfoldl (fun new_rules it =>
        let! s := add_keys active
          (new_rules, XfwActionRule_of (ir_isAllowed it.2) (ir_ratelimit_index it.2))
          (icmp_keys it.2) in
        xret s.1) ∅ rs in
    xverify (fits new_rules XFW_MAX_ICMP_RULES) ERR_LIMIT ;!
    release_removed active new_rules ;!
    let idx := next_map_idx (amap_icmp cfg) in
    replace_map
      (fun m => if idx =? MAP_PRIMARY_IDX then sh_primary (m_icmp m) else sh_secondary (m_icmp m))
      (fun sm m => set_m_icmp (put_map (m_icmp m) idx sm) m) new_rules ;!
    let! to := apply_defaults ds icmp_indices XFW_ACTION_ALLOW (rc_defaults (rules cfg)) in
    upload_config_changes
      (with_rules_cfg (with_defaults to (rules cfg)) (with_amap_icmp idx cfg)) true).

Definition dst_keys (ip : NetIp) : list XfwDstKey :=
  let key := mkDstKey (if isIpv6 (ni_flags ip) then XFW_IP_VER_6 else XFW_IP_VER_4)
               (if isTcp (ni_flags ip) then XFW_L4_PROTO_TCP else XFW_L4_PROTO_UDP) in
  map (fun k => key (n4_prefixlen k) (xfw_assign_ip4_addr (n4_addr k))) (ni_net4s ip)
  ++ map (fun k => key (n6_prefixlen k) (n6_addr k)) (ni_net6s ip).

Definition dst_indices : list DefaultIndex :=
  [ XFW_DEFAULT_DST_TCP_IP4; XFW_DEFAULT_DST_TCP_IP6;
    XFW_DEFAULT_DST_UDP_IP4; XFW_DEFAULT_DST_UDP_IP6 ].

Definition set_dst_rules (rs : NetIps) (ds : Defaults) : X unit :=
  let! cfg := get_config in
  let! m := xget in
  let! active_map := get_maps_by_index (m_dst m) (amap_dst cfg) in
  let active := snapshot active_map in
  tx_scope (
    let! new_rules := xfoldl (fun new_rules it =>
        let! s := add_keys active
          (new_rules, XfwActionRule_of (isAllowed (ni_flags it.2)) (ni_ratelimit_index it.2))
          (dst_keys it.2) in
        xret s.1) ∅ rs in
    xverify (fits new_rules XFW_MAX_DST_RULES) ERR_LIMIT ;!
    release_removed active new_rules ;!
    let idx := next_map_idx (amap_dst cfg) in
    replace_map
      (fun m => if idx =? MAP_PRIMARY_IDX then sh_primary (m_dst m) else sh_secondary (m_dst m))
      (fun sm m => set_m_dst (put_map (m_dst m) idx sm) m) new_rules ;!
    let default_rule := if decide (rs = []) then XFW_ACTION_ALLOW else XFW_ACTION_BLOCK in
    let! to := apply_defaults ds dst_indices default_rule (rc_defaults (rules cfg)) in
    upload_config_changes
      (with_rules_cfg (with_defaults to (rules cfg)) (with_amap_dst idx cfg)) true).

(** ** Protected networks, rates, activation *)

Definition xfw_dummy_value : Z := 1.

Definition set_prot_net_settings (rs : NetIps) : X unit :=
  let! s := xfoldl (fun '(n4, n6) it =>
      let! n4 := emplace_user (map lpm4_key (ni_net4s it.2)) xfw_dummy_value n4 in
      let! n6 := emplace_user (map lpm6_key (ni_net6s it.2)) xfw_dummy_value n6 in
      xret (n4, n6)) (∅, ∅) rs in
  xverify (fits s.1 XFW_MAX_PROTECTED_NET_RULES) ERR_LIMIT ;!
  xverify (fits s.2 XFW_MAX_PROTECTED_NET_RULES) ERR_LIMIT ;!
  let! cfg := get_config in
  let idx := next_map_idx (amap_prot_net cfg) in
  let pick := fun m => if idx =? MAP_PRIMARY_IDX then sh_primary (m_net m)
                       else sh_secondary (m_net m) in
  replace_map (fun m => net_v4 (pick m))
    (fun sm m => set_m_net (put_map (m_net m) idx (mkProtNetMaps sm (net_v6 (pick m)))) m) s.1 ;!
  replace_map (fun m => net_v6 (pick m))
    (fun sm m => set_m_net (put_map (m_net m) idx (mkProtNetMaps (net_v4 (pick m)) sm)) m) s.2 ;!
  upload_config_changes (with_amap_prot_net idx cfg) false.

Definition turn_filtration_on : X unit :=
  let! cfg := get_config in
  upload_config_changes (with_rules_active cfg) false.

Definition set_ratelimits (r : Ratelimits) : X unit :=
  let! cfg := get_config in
  let! rates := xfoldl (fun rates '(i, e) =>
      if decide (rl_state e = Active) then
        xverify (rl_pps e <=? rl_max_rate hz) ERR_RATE ;!
        xverify (rl_bps e <=? rl_max_rate hz) ERR_RATE ;!
        xret (<[i := mkRate (scale_rl_to_window hz (rl_pps e))
                            (scale_rl_to_window hz (rl_bps e))]> rates)
      else xret rates)
    (named_rates cfg) (zip (seq 0 (length (ratelimits_ r))) (ratelimits_ r)) in
  upload_config_changes (with_named_rates rates cfg) false.

(** ** Xfw::set_config

    What the environment offers: whether the maps of the DNS and SYN-cookie modes
    are pinned and the kernel's SYN cookies are on. [config_] is the
    configuration in force; the result is the one afterwards. *)
Record XfwEnv := mkXfwEnv {
  has_dns_map : bool;
  has_syncookies_map : bool;
  sysctl_tcp_syncookies : bool
}.

Definition with_ratelimits (r : Ratelimits) (c : XfwConfig) : XfwConfig :=
  mkXfwConfig (evaluation_mode c) (ip_proto_filter c) (syncookie_filter c)
    (tcp_syn_flag_filter c) (tcp_rst_flag_filter c) (anomaly_filter c) (auth_filter c)
    (dns_filter c) (src_rules c) (icmp_rules c) (dst_rules c) (prot_net c) r (defaults c).

Definition set_config (env : XfwEnv) (config_ : option XfwConfig) (config : XfwConfig)
    : X XfwConfig :=
  xverify (negb (dns_filter config) || has_dns_map env) ERR_UPDATE ;!
  xverify (match syncookie_filter config with
           | Some _ => has_syncookies_map env && sysctl_tcp_syncookies env
           | None => true
           end) ERR_UPDATE ;!
  set_ratelimits (ratelimits config) ;!
  set_simple_rules config ;!
  set_src_rules (src_rules config) (defaults config) ;!
  set_icmp_rules (icmp_rules config) (defaults config) ;!
  set_dst_rules (dst_rules config) (defaults config) ;!
  set_prot_net_settings (prot_net config) ;!
  set_tcp_flag_rule (tcp_rst_flag_filter config) XFW_FLAGS_FILTER_RST ;!
  set_tcp_flag_rule (tcp_syn_flag_filter config) XFW_FLAGS_FILTER_SYN ;!
  set_tcp_anomaly_rule (anomaly_filter config) ;!
  (match config_ with None => turn_filtration_on | Some _ => xret tt end) ;!
  xret (with_ratelimits (free_inactive (Ratelimits_move (ratelimits config))) config).
End manager.
