(* ===== verification/ManagerSpec.v ===== *)
(** * ManagerSpec: invariants of the maps manager

    What holds between the operations of [BpfMapsManager], whatever system calls
    fail and whatever exceptions are thrown: every bucket of the pool is free or
    belongs to exactly one rate-limited rule in force, the active maps equal
    their snapshots, and the configuration is well formed. An operation that
    throws leaves what the BPF programs see as it was. *)

From stdpp Require Import strings.
From S2P Require Import Prelude.
From S2P Require Import Enums.
From S2P Require Import Uapi.
From S2P Require Import Ctx.
From S2P Require Import Bitset.
From S2P Require Import IndexPool.
From S2P Require Import ShadowMap.
From S2P Require Import Config.
From S2P Require Import MapsManager.

(** ** Reasoning about exceptions *)

Definition xwp {A} (x : X A) (Q : MgrError + A -> Mgr -> Prop) (m : Mgr) : Prop :=
  Q (x m).1 (x m).2.

(** An error goes through to the end. *)
Definition on_ok {A B} (Q : MgrError + B -> Mgr -> Prop) (k : A -> Mgr -> Prop)
    : MgrError + A -> Mgr -> Prop :=
  fun r m => match r with inl e => Q (inl e) m | inr a => k a m end.

Lemma xwp_ret {A} (a : A) (Q : MgrError + A -> Mgr -> Prop) m : Q (inr a) m -> xwp (xret a) Q m.
Proof. done. Qed.

Lemma xwp_throw {A} e (Q : MgrError + A -> Mgr -> Prop) m : Q (inl e) m -> xwp (xthrow e) Q m.
Proof. done. Qed.

Lemma xwp_bind {A B} (x : X A) (k : A -> X B) (Q : MgrError + B -> Mgr -> Prop) m :
  xwp x (on_ok Q (fun a => xwp (k a) Q)) m -> xwp (xbind x k) Q m.
Proof.
  unfold xwp, xbind, on_ok. destruct (x m) as [[e|a] m']; done.
Qed.

Lemma xwp_mono {A} (x : X A) (P Q : MgrError + A -> Mgr -> Prop) m :
  xwp x P m -> (forall r m', P r m' -> Q r m') -> xwp x Q m.
Proof. unfold xwp. auto. Qed.

Lemma xwp_get (Q : MgrError + Mgr -> Mgr -> Prop) m : Q (inr m) m -> xwp xget Q m.
Proof. done. Qed.

Lemma xwp_modify f (Q : MgrError + unit -> Mgr -> Prop) m :
  Q (inr tt) (f m) -> xwp (xmodify f) Q m.
Proof. done. Qed.

Lemma xwp_verify c e (Q : MgrError + unit -> Mgr -> Prop) m :
  (c = true -> Q (inr tt) m) -> (c = false -> Q (inl e) m) -> xwp (xverify c e) Q m.
Proof. unfold xverify. destruct c; unfold xwp; cbn; auto. Qed.

(** A loop with an invariant over the accumulator, the elements done and the
    state. *)
Lemma xwp_foldl {A B} (f : B -> A -> X B) (I : B -> list A -> Mgr -> Prop)
    (E : MgrError -> Mgr -> Prop) l b m :
  I b [] m ->
  (forall b done a rest m, l = done ++ a :: rest -> I b done m ->
     xwp (f b a) (fun r m' => match r with inl e => E e m' | inr b' => I b' (done ++ [a]) m' end) m) ->
  xwp (xfoldl f b l) (fun r m' => match r with inl e => E e m' | inr b' => I b' l m' end) m.
Proof.
  intros H0 Hs.
  assert (Hg : forall rest done b m, l = done ++ rest -> I b done m ->
    xwp (xfoldl f b rest)
      (fun r m' => match r with inl e => E e m' | inr b' => I b' l m' end) m).
  { induction rest as [|a rest IH]; intros done b' m' Hl Hi; cbn [xfoldl].
    - apply xwp_ret. rewrite app_nil_r in Hl. by subst.
    - apply xwp_bind. eapply xwp_mono; [by apply (Hs b' done a rest m')|].
      intros [e|b''] m'' Hr; cbn; [done|]. apply (IH (done ++ [a])); [|done].
      by rewrite <- app_assoc. }
  by apply (Hg l []).
Qed.

Ltac xstep :=
  lazymatch goal with
  | |- xwp (xbind _ _) _ _ => apply xwp_bind
  | |- xwp (xret _) _ _ => apply xwp_ret
  | |- xwp (xthrow _) _ _ => apply xwp_throw
  | |- xwp xget _ _ => apply xwp_get
  | |- xwp (xmodify _) _ _ => apply xwp_modify
  | |- on_ok _ _ (inr _) _ => cbn [on_ok]
  | |- on_ok _ _ (inl _) _ => cbn [on_ok]
  end.

(** ** Buckets *)

Definition rl_bucket (r : XfwActionRule) : option Z :=
  if action r =? XFW_ACTION_RATE_LIMIT then Some (bucket_idx (rlimit r)) else None.

Definition opt_bucket (r : option XfwActionRule) : list Z :=
  match r with Some r => option_list (rl_bucket r) | None => [] end.

(** The buckets of the rules of a map, of the default rules and of the rules for
    TCP flags. *)
Definition map_buckets {K} `{Countable K} (m : gmap K XfwActionRule) : list Z :=
  omap (fun kv => rl_bucket kv.2) (map_to_list m).
Definition default_buckets (d : DefaultIndex -> XfwActionRule) : list Z :=
  omap (fun i => rl_bucket (d i)) DefaultIndex_values.
Definition flag_buckets (f : XfwFlagsFilter -> XfwActionRule) : list Z :=
  omap (fun i => rl_bucket (f i)) [XFW_FLAGS_FILTER_SYN; XFW_FLAGS_FILTER_RST].

(** The element of a pair that the configuration selects. *)
Definition pick {T} (p : ShadowPair T) (idx : Z) : T :=
  if idx =? MAP_PRIMARY_IDX then sh_primary p else sh_secondary p.

Definition icmp_in_force (m : Mgr) : gmap XfwIcmpKey XfwActionRule :=
  snapshot (pick (m_icmp m) (amap_icmp (m_cfg m))).
Definition dst_in_force (m : Mgr) : gmap XfwDstKey XfwActionRule :=
  snapshot (pick (m_dst m) (amap_dst (m_cfg m))).

(** The buckets of all rules in force. *)
Definition owned (m : Mgr) : list Z :=
  map_buckets (icmp_in_force m) ++ map_buckets (dst_in_force m)
  ++ default_buckets (rc_defaults (rules (m_cfg m)))
  ++ flag_buckets (rc_tcp_flags (rules (m_cfg m))).

Local Abbreviation N := XFW_MAX_RATE_LIMITER_BUCKETS.

(** A step of the transaction: [da] was allocated, [dr] marked for release. *)
Record tx_step (m m' : Mgr) (da dr : list Z) : Prop := mkTxStep {
  ts_eq : m' = set_m_pool (m_pool m') (m_tx m') m;
  ts_alloc : tx_allocated (m_tx m') = tx_allocated (m_tx m) ++ da;
  ts_rel : tx_released (m_tx m') = tx_released (m_tx m) ++ dr;
  ts_free : free_indices (m_pool m) ≡ₚ da ++ free_indices (m_pool m');
  ts_holds o : tx_holds N (m_pool m) (m_tx m) o -> tx_holds N (m_pool m') (m_tx m') o
}.

Lemma tx_step_refl m : tx_step m m [] [].
Proof. split; rewrite ?app_nil_r; try done. by destruct m. Qed.

Lemma tx_step_trans m1 m2 m3 a b c d :
  tx_step m1 m2 a b -> tx_step m2 m3 c d -> tx_step m1 m3 (a ++ c) (b ++ d).
Proof.
  intros [E1 A1 R1 F1 H1] [E2 A2 R2 F2 H2]. split.
  - rewrite E2 at 1. rewrite E1 at 1. done.
  - by rewrite A2, A1, app_assoc.
  - by rewrite R2, R1, app_assoc.
  - by rewrite F1, F2, app_assoc.
  - auto.
Qed.

Lemma xallocate_spec m :
  xwp xallocate (fun r m' => match r with
    | inl e => m' = m /\ e = ERR_NO_BUCKET /\ free_indices (m_pool m) = []
    | inr i => tx_step m m' [i] []
    end) m.
Proof.
  unfold xwp, xallocate. destruct (tx_allocate (m_pool m) (m_tx m)) as [[[i p] t]|] eqn:Ha; cbn.
  - split; cbn.
    + done.
    + unfold tx_allocate in Ha. destruct (IndexPool_allocate (m_pool m)) as [[j q]|]; [|done].
      by injection Ha as <- <- <-.
    + unfold tx_allocate in Ha. destruct (IndexPool_allocate (m_pool m)) as [[j q]|]; [|done].
      injection Ha as <- <- <-. cbn. by rewrite app_nil_r.
    + unfold tx_allocate, IndexPool_allocate in Ha.
      destruct (free_indices (m_pool m)) as [|j l]; [done|]. by injection Ha as <- <- <-.
    + intros o Ho. by eapply tx_allocate_holds.
  - split_and!; try done. unfold tx_allocate, IndexPool_allocate in Ha.
    by destruct (free_indices (m_pool m)).
Qed.

Lemma xrelease_step i m :
  tx_step m (set_m_pool (m_pool m) (tx_release i (m_tx m)) m) [] [i].
Proof. split; cbn; rewrite ?app_nil_r; try done. Qed.

(** The rule apart from its bucket. *)
Definition rule_of (r : XfwActionRule) : Z * Z := (action r, named_idx (rlimit r)).

Lemma opt_bucket_Some r :
  opt_bucket (Some r) = if opt_is_rl (Some r) then [bucket_idx (rlimit r)] else [].
Proof. cbn. unfold rl_bucket. by destruct (action r =? _). Qed.

Lemma opt_bucket_set i r :
  opt_bucket (Some (set_bucket_idx i r)) = if opt_is_rl (Some r) then [i] else [].
Proof. cbn. unfold rl_bucket. cbn. by destruct (action r =? _). Qed.

(** What [reconcile_ratelimit_bucket] does in the state [m]. *)
Definition reconciled (new old : option XfwActionRule) (m : Mgr)
    (r : MgrError + option XfwActionRule) (m' : Mgr) : Prop :=
  match r with
  | inl e => e = ERR_NO_BUCKET /\ m' = m /\ free_indices (m_pool m) = []
  | inr r' => exists da dr, tx_step m m' da dr /\ (length da <= 1)%nat
      /\ opt_bucket r' ++ dr ≡ₚ opt_bucket old ++ da
      /\ rule_of <$> r' = rule_of <$> new
  end.

(** The bucket of the new rule and the released ones are the bucket of the old
    rule and the allocated ones. *)
Lemma reconcile_spec new old m :
  xwp (reconcile_ratelimit_bucket new old) (reconciled new old m) m.
Proof.
  assert (Hkeep : forall r, opt_bucket r = opt_bucket old -> rule_of <$> r = rule_of <$> new ->
    xwp (xret r) (reconciled new old m) m).
  { intros r Hr Hn. exists [], []. split_and!; [apply tx_step_refl|cbn; lia| |done].
    by rewrite !app_nil_r, Hr. }
  assert (Hrelease : forall o, old = Some o -> opt_is_rl old = true -> opt_bucket new = [] ->
    xwp (xrelease (bucket_idx (rlimit o)) ;! xret new) (reconciled new old m) m).
  { intros o -> Ho Hn. apply xwp_bind, xwp_modify. cbn [on_ok]. apply xwp_ret.
    exists [], [bucket_idx (rlimit o)]. split_and!; [apply xrelease_step|cbn; lia| |done].
    by rewrite opt_bucket_Some, Ho, Hn. }
  assert (Halloc : forall n, new = Some n -> opt_is_rl new = true -> opt_bucket old = [] ->
    xwp (let! i := xallocate in xret (Some (set_bucket_idx i n))) (reconciled new old m) m).
  { intros n -> Hn Ho. apply xwp_bind. eapply xwp_mono; [apply xallocate_spec|].
    intros [er|i] m1 H1; cbn [on_ok]; [naive_solver|]. apply xwp_ret.
    exists [i], []. split_and!; [done|cbn; lia| |done]. by rewrite opt_bucket_set, Hn, Ho. }
  unfold reconcile_ratelimit_bucket.
  destruct new as [new|], old as [old|]; cbn [opt_is_rl] in *.
  - pose proof (opt_bucket_Some new) as Bn. pose proof (opt_bucket_Some old) as Bo.
    pose proof (fun i => opt_bucket_set i new) as Bs. cbn [opt_is_rl] in Bn, Bo, Bs.
    destruct (action new =? _) eqn:Hn, (action old =? _) eqn:Ho; auto.
    + case_match; [apply Hkeep; [by rewrite Bs, Bo|done]|].
      apply xwp_bind. eapply xwp_mono; [apply xallocate_spec|].
      intros [er|i] m1 H1; cbn [on_ok]; [naive_solver|].
      apply xwp_bind, xwp_modify. cbn [on_ok]. apply xwp_ret.
      exists [i], [bucket_idx (rlimit old)]. split_and!; [|cbn; lia| |done].
      * apply (tx_step_trans _ _ _ _ _ _ _ H1 (xrelease_step (bucket_idx (rlimit old)) m1)).
      * rewrite Bs, Bo. apply Permutation_swap.
    + apply Hkeep; [by rewrite Bn, Bo|done].
  - pose proof (opt_bucket_Some new) as Bn. cbn [opt_is_rl] in Bn.
    destruct (action new =? _) eqn:Hn; [by apply Halloc|]. by apply Hkeep.
  - pose proof (opt_bucket_Some old) as Bo. cbn [opt_is_rl] in Bo.
    destruct (action old =? _) eqn:Ho; [by apply Hrelease|]. by apply Hkeep.
  - by apply Hkeep.
Qed.

(** A rule that is gone only releases its bucket. *)
Lemma reconcile_gone r m :
  xwp (reconcile_ratelimit_bucket None (Some r))
    (fun res m' => res = inr None /\ tx_step m m' [] (opt_bucket (Some r))) m.
Proof.
  unfold reconcile_ratelimit_bucket. rewrite opt_bucket_Some. cbn [opt_is_rl].
  destruct (action r =? _).
  - apply xwp_bind, xwp_modify. cbn [on_ok]. apply xwp_ret. split; [done|].
    apply xrelease_step.
  - apply xwp_ret. split; [done|apply tx_step_refl].
Qed.

(** ** The loops over the keys of a rule *)

Section keys.
Context {K : Type} `{Countable K} (act : gmap K XfwActionRule).

(** The buckets of the rules in force whose keys are in [nr]. *)
Definition covered (nr : gmap K XfwActionRule) : list Z :=
  mjoin ((fun kv => opt_bucket (act !! kv.1)) <$> map_to_list nr).

(** Nothing is lost: the buckets of the new rules and the released ones are the
    old ones of the same keys and the allocated ones. *)
Definition balance (nr : gmap K XfwActionRule) (A R : list Z) : Prop :=
  map_buckets nr ++ R ≡ₚ covered nr ++ A.

Lemma map_buckets_insert (nr : gmap K XfwActionRule) k r :
  nr !! k = None -> map_buckets (<[k := r]> nr) ≡ₚ opt_bucket (Some r) ++ map_buckets nr.
Proof.
  intros Hk. unfold map_buckets. rewrite map_to_list_insert by done. cbn.
  unfold rl_bucket. by destruct (action r =? _).
Qed.

Lemma covered_insert (nr : gmap K XfwActionRule) k r :
  nr !! k = None -> covered (<[k := r]> nr) ≡ₚ opt_bucket (act !! k) ++ covered nr.
Proof. intros Hk. unfold covered. by rewrite map_to_list_insert by done. Qed.

Lemma balance_empty : balance ∅ [] [].
Proof. unfold balance, map_buckets, covered. by rewrite map_to_list_empty. Qed.

Lemma balance_insert nr k r A R da dr :
  nr !! k = None -> balance nr A R ->
  opt_bucket (Some r) ++ dr ≡ₚ opt_bucket (act !! k) ++ da ->
  balance (<[k := r]> nr) (A ++ da) (R ++ dr).
Proof.
  intros Hk Hb Hr. unfold balance in *.
  rewrite map_buckets_insert, covered_insert by done.
  transitivity ((opt_bucket (Some r) ++ dr) ++ (map_buckets nr ++ R)).
  { rewrite <- !app_assoc. apply Permutation_app_head.
    rewrite (app_assoc _ R dr). rewrite (Permutation_app_comm _ dr). done. }
  rewrite Hb, Hr. rewrite <- !app_assoc. apply Permutation_app_head.
  rewrite (app_assoc _ A da). apply Permutation_app_comm.
Qed.

(** The keys of one rule, inserted. *)
Definition inserted (keys : list K) (v : Z * Z) (nr : gmap K (Z * Z)) : gmap K (Z * Z) :=
  foldl (fun nr k => <[k := v]> nr) nr keys.

(** The errors of the loops: a key that is there already, or an empty pool. *)
Definition keys_error (m0 : Mgr) (bound : nat) (dup : Prop) (e : MgrError) (m' : Mgr) : Prop :=
  exists A R, tx_step m0 m' A R
    /\ ((e = ERR_DUPLICATE /\ dup)
        \/ (e = ERR_NO_BUCKET /\ free_indices (m_pool m') = [] /\ (length A <= bound)%nat)).

Lemma add_keys_spec nr r keys m0 m A R :
  tx_step m0 m A R -> balance nr A R ->
  xwp (add_keys act (nr, r) keys) (fun res m' => match res with
    | inl e => keys_error m0 (length A + length keys)
                 (~ (NoDup keys /\ forall k, k ∈ keys -> nr !! k = None)) e m'
    | inr s => exists A' R', tx_step m0 m' A' R' /\ balance s.1 A' R'
        /\ (length A' <= length A + length keys)%nat
        /\ rule_of <$> s.1 = inserted keys (rule_of r) (rule_of <$> nr)
        /\ NoDup keys /\ (forall k, k ∈ keys -> nr !! k = None)
    end) m.
Proof.
  intros H0 Hb. unfold add_keys.
  eapply xwp_mono; [apply (xwp_foldl _ (fun s done m' => exists A' R', tx_step m0 m' A' R'
    /\ balance s.1 A' R' /\ (length A' <= length A + length done)%nat
    /\ rule_of <$> s.1 = inserted done (rule_of r) (rule_of <$> nr)
    /\ rule_of s.2 = rule_of r /\ NoDup done /\ (forall k, k ∈ done -> nr !! k = None)
    /\ forall k, s.1 !! k = None <-> nr !! k = None /\ k ∉ done)
    (keys_error m0 (length A + length keys)
       (~ (NoDup keys /\ forall k, k ∈ keys -> nr !! k = None))))|].
  - exists A, R. split_and!; try done; [cbn; lia|constructor|set_solver|set_solver].
  - intros [nr' r'] done k rest m1 Hl (A' & R' & Ht & Hbal & Hlen & Hru & Hr' & Hnd & Hfr & Hdom).
    cbn [fst snd] in *. apply xwp_bind. eapply xwp_mono; [apply reconcile_spec|].
    intros [e|o] m2 Hr; cbn [on_ok].
    + destruct Hr as (-> & -> & Hf). exists A', R'. split; [done|]. right. split_and!; try done.
      subst keys. rewrite length_app. lia.
    + destruct Hr as (da & dr & Ht' & Hda & Hbk & Hro).
      destruct o as [r2|]; [|done]. change (default r' (Some r2)) with r2.
      injection Hro as Ha2 Hn2.
      destruct (nr' !! k) as [?|] eqn:Hk.
      * apply xwp_throw. exists (A' ++ da), (R' ++ dr). split; [by eapply tx_step_trans|].
        left. split; [done|]. intros [Hnd' Hfr']. subst keys.
        assert (k ∉ done) by (apply list.NoDup_app in Hnd' as (_ & Hx & _);
          intros Hin; apply (Hx k Hin); set_solver).
        assert (nr' !! k = None) by (apply Hdom; split; [apply Hfr'; set_solver|done]).
        congruence.
      * apply xwp_ret. apply Hdom in Hk as Hk'. destruct Hk' as [Hk1 Hk2].
        exists (A' ++ da), (R' ++ dr). cbn [fst snd].
        assert (Hr2 : rule_of r2 = rule_of r) by (rewrite <- Hr'; unfold rule_of; congruence).
        split_and!.
        -- by eapply tx_step_trans.
        -- by apply balance_insert.
        -- rewrite !length_app. cbn. lia.
        -- rewrite fmap_insert, Hru, Hr2. unfold inserted. by rewrite foldl_app.
        -- done.
        -- apply list.NoDup_app. split_and!; [done|set_solver|apply NoDup_singleton].
        -- set_solver.
        -- intros k'. rewrite lookup_insert_None, Hdom. set_solver.
  - intros [e|[nr' r']] m' Hr; [done|]. destruct Hr as (A' & R' & Hr). exists A', R'. naive_solver.
Qed.

(** ** The rules of a whole rule set *)

Context {R : Type} (keys : R -> list K) (base : R -> XfwActionRule).

Definition build_rules (rs : list R) : X (gmap K XfwActionRule) :=
  xfoldl (fun nr it => let! s := add_keys act (nr, base it) (keys it) in xret s.1) ∅ rs.

Definition rule_set (rs : list R) : gmap K (Z * Z) :=
  foldl (fun nr it => inserted (keys it) (rule_of (base it)) nr) ∅ rs.

Lemma inserted_None ks v (nr : gmap K (Z * Z)) k :
  inserted ks v nr !! k = None <-> nr !! k = None /\ k ∉ ks.
Proof.
  revert nr. induction ks as [|k' ks IH]; intros nr; cbn; [set_solver|].
  fold (inserted ks v (<[k' := v]> nr)). rewrite IH, lookup_insert_None. set_solver.
Qed.

Lemma rule_set_None rs k : rule_set rs !! k = None <-> k ∉ rs ≫= keys.
Proof.
  unfold rule_set. induction rs as [|it rs IH] using rev_ind; [set_solver|].
  rewrite foldl_app. cbn. rewrite inserted_None, IH, bind_app. cbn. set_solver.
Qed.

Lemma build_rules_spec rs m0 :
  xwp (build_rules rs) (fun res m' => match res with
    | inl e => keys_error m0 (length (rs ≫= keys)) (~ NoDup (rs ≫= keys)) e m'
    | inr nr => exists A R', tx_step m0 m' A R' /\ balance nr A R'
        /\ (length A <= length (rs ≫= keys))%nat
        /\ rule_of <$> nr = rule_set rs /\ NoDup (rs ≫= keys)
    end) m0.
Proof.
  eapply xwp_mono; [apply (xwp_foldl _ (fun nr done m' => exists A R', tx_step m0 m' A R'
    /\ balance nr A R' /\ (length A <= length (done ≫= keys))%nat
    /\ rule_of <$> nr = rule_set done /\ NoDup (done ≫= keys))
    (keys_error m0 (length (rs ≫= keys)) (~ NoDup (rs ≫= keys))))|].
  - exists [], []. split_and!; [apply tx_step_refl|apply balance_empty|cbn; lia
      |apply fmap_empty|constructor].
  - intros nr done it rest m1 Hl (A & R' & Ht & Hb & Hlen & Hru & Hnd).
    assert (Hdom : forall k, nr !! k = None <-> k ∉ done ≫= keys).
    { intros k. by rewrite <- rule_set_None, <- Hru, lookup_fmap, fmap_None. }
    apply xwp_bind. eapply xwp_mono; [by eapply add_keys_spec|].
    assert (Hbind : rs ≫= keys = (done ≫= keys) ++ keys it ++ (rest ≫= keys)).
    { by rewrite Hl, bind_app. }
    intros [e|[nr' r']] m2 Hr; cbn [on_ok].
    + destruct Hr as (A' & R2 & Ht' & He). exists A', R2. split; [done|].
      destruct He as [(-> & Hd)|(-> & Hf & Hle)]; [left|right].
      * split; [done|]. intros Hnd'. apply Hd. rewrite Hbind in Hnd'.
        apply list.NoDup_app in Hnd' as (_ & Hx & Hy).
        apply list.NoDup_app in Hy as (Hy & _ & _). split; [done|].
        intros k Hk. apply Hdom. intros Hin. apply (Hx k Hin). set_solver.
      * split_and!; try done. rewrite Hbind, !length_app. lia.
    + destruct Hr as (A' & R2 & Ht' & Hb' & Hle & Hru' & Hndk & Hfr). apply xwp_ret.
      exists A', R2. cbn [fst] in *. split_and!; try done.
      * rewrite bind_app, length_app. cbn. rewrite app_nil_r. lia.
      * rewrite Hru', Hru. unfold rule_set. by rewrite foldl_app.
      * rewrite bind_app. cbn. rewrite app_nil_r. apply list.NoDup_app. split_and!; try done.
        intros k Hk Hk'. apply Hfr, Hdom in Hk'. done.
  - intros [e|nr] m' Hr; done.
Qed.

(** The buckets of the rules in force whose keys are gone. *)
Definition removed (nr : gmap K XfwActionRule) : list Z :=
  mjoin ((fun kv => match nr !! kv.1 with None => opt_bucket (Some kv.2) | Some _ => [] end)
    <$> map_to_list act).

Lemma release_removed_spec nr m0 :
  xwp (release_removed act nr) (fun res m' => res = inr tt /\ exists R',
    tx_step m0 m' [] R' /\ R' ≡ₚ removed nr) m0.
Proof.
  unfold release_removed. eapply xwp_mono; [apply (xwp_foldl _ (fun _ done m' => exists R',
    tx_step m0 m' [] R' /\ R' ≡ₚ mjoin ((fun kv => match nr !! kv.1 with
      None => opt_bucket (Some kv.2) | Some _ => [] end) <$> done)) (fun _ _ => False))|].
  - exists []. split; [apply tx_step_refl|done].
  - intros [] done [k r] rest m1 Hl (R' & Ht & Hr).
    destruct (nr !! k) eqn:Hk.
    + apply xwp_ret. exists R'. split; [done|]. rewrite fmap_app, join_app, Hr. cbn.
      by rewrite Hk, app_nil_r.
    + apply xwp_bind. eapply xwp_mono; [apply reconcile_gone|].
      intros o m2 (-> & Ht2); cbn [on_ok]. apply xwp_ret. exists (R' ++ opt_bucket (Some r)).
      split; [apply (tx_step_trans _ _ _ _ _ _ _ Ht Ht2)|].
      rewrite fmap_app, join_app, Hr. cbn. by rewrite Hk, app_nil_r.
  - intros [e|[]] m' Hr; [done|]. split; [done|]. destruct Hr as (R' & Hr). by exists R'.
Qed.

Lemma removed_insert nr k r :
  nr !! k = None -> removed nr ≡ₚ opt_bucket (act !! k) ++ removed (<[k := r]> nr).
Proof.
  intros Hk. unfold removed.
  set (f := fun (n : gmap K XfwActionRule) (kv : K * XfwActionRule) =>
    match n !! kv.1 with None => opt_bucket (Some kv.2) | Some _ => [] end).
  change (mjoin (f nr <$> map_to_list act)
    ≡ₚ opt_bucket (act !! k) ++ mjoin (f (<[k := r]> nr) <$> map_to_list act)).
  assert (Hext : forall l : list (K * XfwActionRule), k ∉ l.*1 ->
    f nr <$> l = f (<[k := r]> nr) <$> l).
  { intros l Hl. apply list_fmap_ext. intros i [k' r'] Hi. unfold f. cbn.
    rewrite lookup_insert_ne; [done|]. intros <-. apply Hl, list_elem_of_fmap.
    exists (k, r'). split; [done|]. by eapply list_elem_of_lookup_2. }
  destruct (act !! k) as [o|] eqn:Ho.
  - assert (Hp : map_to_list act ≡ₚ (k, o) :: map_to_list (delete k act)).
    { by rewrite map_to_list_delete. }
    assert (Hn : k ∉ (map_to_list (delete k act)).*1).
    { intros ([k' r'] & -> & Hin%elem_of_map_to_list)%list_elem_of_fmap. cbn in *.
      by rewrite lookup_delete_eq in Hin. }
    rewrite Hp. rewrite !fmap_cons. cbn [mjoin list_join]. rewrite (Hext _ Hn).
    unfold f at 1. cbn [fst snd]. rewrite Hk. unfold f at 2. cbn [fst snd].
    rewrite lookup_insert_eq. done.
  - rewrite (Hext (map_to_list act)); [done|].
    intros ([k' r'] & -> & Hin%elem_of_map_to_list)%list_elem_of_fmap. cbn in *. congruence.
Qed.

Lemma covered_removed nr : covered nr ++ removed nr ≡ₚ map_buckets act.
Proof.
  induction nr as [|k r nr Hk IH] using map_ind.
  - unfold covered, removed, map_buckets. rewrite map_to_list_empty. cbn.
    induction (map_to_list act) as [|[k r] l IHl]; [done|]. rewrite fmap_cons.
    cbn [mjoin list_join]. rewrite lookup_empty. rewrite IHl. cbn. unfold rl_bucket.
    by destruct (action r =? _).
  - rewrite covered_insert by done. rewrite <- IH, (removed_insert nr k r) by done.
    solve_Permutation.
Qed.

(** After both loops the buckets of the rule set in force have become those of
    the new one. *)
Lemma balance_complete nr A R' R2 :
  balance nr A R' -> R2 ≡ₚ removed nr ->
  map_buckets nr ++ R' ++ R2 ≡ₚ map_buckets act ++ A.
Proof.
  unfold balance. intros Hb Hr. rewrite app_assoc, Hb, Hr, <- (covered_removed nr).
  solve_Permutation.
Qed.
End keys.

(** ** Default rules and rules for TCP flags *)

(** Changing the rule of one index of an array. *)
Lemma omap_update {A} `{EqDecision A} (l : list A) (f : A -> XfwActionRule) i r :
  NoDup l -> i ∈ l ->
  omap (fun j => rl_bucket (if decide (j = i) then r else f j)) l ++ opt_bucket (Some (f i))
  ≡ₚ opt_bucket (Some r) ++ omap (fun j => rl_bucket (f j)) l.
Proof.
  intros Hnd Hi. apply elem_of_Permutation in Hi as [l' Hl].
  rewrite Hl in Hnd |- *. apply list.NoDup_cons in Hnd as [Hni _]. cbn [omap list_omap].
  rewrite decide_True by done.
  assert (Hext : omap (fun j => rl_bucket (if decide (j = i) then r else f j)) l'
    = omap (fun j => rl_bucket (f j)) l').
  { clear Hl. induction l' as [|j l' IH]; [done|]. cbn. rewrite decide_False by set_solver.
    rewrite IH by set_solver. done. }
  change (list_omap ?A ?B ?g ?l) with (omap g l). rewrite Hext.
  cbn [opt_bucket]. destruct (rl_bucket r), (rl_bucket (f i)); cbn; solve_Permutation.
Qed.

Lemma DefaultIndex_values_complete i : i ∈ DefaultIndex_values.
Proof. unfold DefaultIndex_values. destruct i; set_solver. Qed.

Lemma DefaultIndex_values_NoDup : NoDup DefaultIndex_values.
Proof. unfold DefaultIndex_values. repeat constructor; set_solver. Qed.

(** The rule that [apply_defaults] computes for an index. *)
Definition default_rule_of (ds : Defaults) (default_action : Z) (i : DefaultIndex)
    : XfwActionRule :=
  match ds i with
  | Some a => XfwActionRule_of (allow_ a) (act_ratelimit_index a)
  | None => mkActionRule default_action XfwRLimitRule_invalid
  end.

(** The default rules afterwards: those of [indices] are new, the others kept. *)
Definition defaults_applied (ds : Defaults) (indices : list DefaultIndex) (default_action : Z)
    (to to' : DefaultIndex -> XfwActionRule) : Prop :=
  forall i, if decide (i ∈ indices) then rule_of (to' i) = rule_of (default_rule_of ds default_action i)
            else to' i = to i.

Lemma apply_defaults_spec ds indices d to m0 :
  xwp (apply_defaults ds indices d to) (fun res m' => match res with
    | inl e => keys_error m0 (length indices) False e m'
    | inr to' => exists A R, tx_step m0 m' A R /\ (length A <= length indices)%nat
        /\ default_buckets to' ++ R ≡ₚ default_buckets to ++ A
        /\ defaults_applied ds indices d to to'
    end) m0.
Proof.
  unfold apply_defaults. eapply xwp_mono; [apply (xwp_foldl _ (fun to' done m' => exists A R,
    tx_step m0 m' A R /\ (length A <= length done)%nat
    /\ default_buckets to' ++ R ≡ₚ default_buckets to ++ A
    /\ defaults_applied ds done d to to')
    (keys_error m0 (length indices) False))|].
  - exists [], []. split_and!; [apply tx_step_refl|done|done|].
    intros i. by rewrite decide_False by set_solver.
  - intros to' done idx rest m1 Hl (A & R & Ht & Hlen & Hb & Happ).
    apply xwp_bind. eapply xwp_mono; [apply reconcile_spec|].
    intros [e|o] m2 Hr; cbn [on_ok].
    + destruct Hr as (-> & -> & Hf). exists A, R. split; [done|]. right. split_and!; try done.
      subst indices. rewrite length_app. lia.
    + destruct Hr as (da & dr & Ht' & Hda & Hbk & Hro). destruct o as [r2|]; [|done].
      apply xwp_ret. change (default _ (Some r2)) with r2.
      exists (A ++ da), (R ++ dr). split_and!.
      * by eapply tx_step_trans.
      * rewrite !length_app. cbn. lia.
      * pose proof (omap_update _ to' idx r2 DefaultIndex_values_NoDup
          (DefaultIndex_values_complete idx)) as Hu.
        fold (default_buckets to') in Hu.
        fold (default_buckets (fun j => if decide (j = idx) then r2 else to' j)) in Hu.
        apply (Permutation_app_inv_l (opt_bucket (Some (to' idx)))).
        transitivity ((default_buckets (fun j => if decide (j = idx) then r2 else to' j)
          ++ opt_bucket (Some (to' idx))) ++ R ++ dr); [solve_Permutation|].
        rewrite Hu. transitivity ((opt_bucket (Some r2) ++ dr) ++ (default_buckets to' ++ R));
          [solve_Permutation|].
        rewrite Hbk, Hb. solve_Permutation.
      * intros i. specialize (Happ i). cbn [fst]. destruct (decide (i = idx)) as [->|Hne].
        -- rewrite decide_True by set_solver. injection Hro as Ha Hn. unfold rule_of in *.
           unfold default_rule_of. congruence.
        -- rewrite (decide_ext (i ∈ done ++ [idx]) (i ∈ done)) by set_solver. done.
  - intros [e|to'] m' Hr; done.
Qed.

(** ** What the BPF programs see *)

Definition kernel_pair {T K V} `{Countable K} (f : T -> ShadowMap K V) (p : ShadowPair T)
    : ShadowPair (gmap K V) :=
  mkShadow (bpf_map (f (sh_primary p))) (bpf_map (f (sh_secondary p))).

Definition kernel_maps (m : Mgr) : RuleMaps :=
  mkRuleMaps (kernel_pair v4_udp (m_src m)) (kernel_pair v4_tcp (m_src m))
    (kernel_pair v6_udp (m_src m)) (kernel_pair v6_tcp (m_src m))
    (kernel_pair port_udp (m_src m)) (kernel_pair port_tcp (m_src m))
    (kernel_pair id (m_icmp m)) (kernel_pair id (m_dst m))
    (kernel_pair net_v4 (m_net m)) (kernel_pair net_v6 (m_net m)).

(** The maps that the programs select for a configuration. *)
Definition active_maps (M : RuleMaps) (c : XfwFilterCfg) :=
  (SELECT_SHADOW_MAP (map_src_4_udp M) (amap_src c),
   SELECT_SHADOW_MAP (map_src_4_tcp M) (amap_src c),
   SELECT_SHADOW_MAP (map_src_6_udp M) (amap_src c),
   SELECT_SHADOW_MAP (map_src_6_tcp M) (amap_src c),
   SELECT_SHADOW_MAP (map_src_p_udp M) (amap_src c),
   SELECT_SHADOW_MAP (map_src_p_tcp M) (amap_src c),
   SELECT_SHADOW_MAP (map_icmp M) (amap_icmp c),
   SELECT_SHADOW_MAP (map_dst M) (amap_dst c),
   SELECT_SHADOW_MAP (map_net_ip4 M) (amap_prot_net c),
   SELECT_SHADOW_MAP (map_net_ip6 M) (amap_prot_net c)).

Definition view (m : Mgr) := (m_cfg m, active_maps (kernel_maps m) (m_cfg m)).

(** ** The invariant *)

Definition map_idx_ok (i : Z) : Prop := i = MAP_PRIMARY_IDX \/ i = MAP_SECONDARY_IDX.

Definition src_forall (P : forall K V (HE : EqDecision K) (HC : Countable K), ShadowMap K V -> Prop)
    (t : SrcMaps) : Prop :=
  P _ _ _ _ (v4_udp t) /\ P _ _ _ _ (v4_tcp t) /\ P _ _ _ _ (v6_udp t)
  /\ P _ _ _ _ (v6_tcp t) /\ P _ _ _ _ (port_udp t) /\ P _ _ _ _ (port_tcp t).
Definition net_forall (P : forall K V (HE : EqDecision K) (HC : Countable K), ShadowMap K V -> Prop)
    (t : ProtNetMaps) : Prop :=
  P _ _ _ _ (net_v4 t) /\ P _ _ _ _ (net_v6 t).

Definition ok_map K V (HE : EqDecision K) (HC : Countable K) (s : ShadowMap K V) : Prop :=
  shadow_ok s.
Definition synced_map K V (HE : EqDecision K) (HC : Countable K) (s : ShadowMap K V) : Prop :=
  resync_required s = false.

Definition both {T} (P : T -> Prop) (p : ShadowPair T) : Prop :=
  P (sh_primary p) /\ P (sh_secondary p).

(** All shadow maps follow their protocol. *)
Record maps_ok (m : Mgr) : Prop := mkMapsOk {
  mo_src : both (src_forall ok_map) (m_src m);
  mo_icmp : both shadow_ok (m_icmp m);
  mo_dst : both shadow_ok (m_dst m);
  mo_net : both (net_forall ok_map) (m_net m)
}.

Record indices_ok (c : XfwFilterCfg) : Prop := mkIndicesOk {
  xo_src : map_idx_ok (amap_src c);
  xo_icmp : map_idx_ok (amap_icmp c);
  xo_dst : map_idx_ok (amap_dst c);
  xo_net : map_idx_ok (amap_prot_net c)
}.

(** No active map waits for a resynchronisation. *)
Record active_synced (m : Mgr) : Prop := mkActiveSynced {
  as_src : src_forall synced_map (pick (m_src m) (amap_src (m_cfg m)));
  as_icmp : resync_required (pick (m_icmp m) (amap_icmp (m_cfg m))) = false;
  as_dst : resync_required (pick (m_dst m) (amap_dst (m_cfg m))) = false;
  as_net : net_forall synced_map (pick (m_net m) (amap_prot_net (m_cfg m)))
}.

Record mgr_inv (m : Mgr) : Prop := mkMgrInv {
  iv_cfg : cfg_wf (m_cfg m);
  iv_idx : indices_ok (m_cfg m);
  iv_maps : maps_ok m;
  iv_active : active_synced m;
  iv_pool : pool_owns N (m_pool m) (owned m);
  iv_tx : m_tx m = tx_empty;
  iv_icmp_size : Z.of_nat (size (icmp_in_force m)) <= XFW_MAX_ICMP_RULES;
  iv_dst_size : Z.of_nat (size (dst_in_force m)) <= XFW_MAX_DST_RULES
}.

(** An operation under way: the configuration and the active maps are those of
    the start, and the transaction keeps the owners. *)
Record stage (m0 m : Mgr) : Prop := mkStage {
  sg_cfg : m_cfg m = m_cfg m0;
  sg_src : pick (m_src m) (amap_src (m_cfg m0)) = pick (m_src m0) (amap_src (m_cfg m0));
  sg_icmp : pick (m_icmp m) (amap_icmp (m_cfg m0)) = pick (m_icmp m0) (amap_icmp (m_cfg m0));
  sg_dst : pick (m_dst m) (amap_dst (m_cfg m0)) = pick (m_dst m0) (amap_dst (m_cfg m0));
  sg_net : pick (m_net m) (amap_prot_net (m_cfg m0)) = pick (m_net m0) (amap_prot_net (m_cfg m0));
  sg_maps : maps_ok m;
  sg_pool : tx_holds N (m_pool m) (m_tx m) (owned m0)
}.

Lemma select_pick {T K V} `{Countable K} (f : T -> ShadowMap K V) p i :
  map_idx_ok i -> SELECT_SHADOW_MAP (kernel_pair f p) i = bpf_map (f (pick p i)).
Proof. by intros [-> | ->]. Qed.

Lemma stage_view m0 m : indices_ok (m_cfg m0) -> stage m0 m -> view m = view m0.
Proof.
  intros [H1 H2 H3 H4] [Hc Hs Hi Hd Hn _ _]. unfold view, active_maps, kernel_maps.
  cbn [map_src_4_udp map_src_4_tcp map_src_6_udp map_src_6_tcp map_src_p_udp map_src_p_tcp
       map_icmp map_dst map_net_ip4 map_net_ip6].
  rewrite Hc, !select_pick by done. by rewrite Hs, Hi, Hd, Hn.
Qed.

Lemma stage_owned m0 m : stage m0 m -> owned m = owned m0.
Proof.
  intros [Hc Hs Hi Hd Hn _ _]. unfold owned, icmp_in_force, dst_in_force.
  by rewrite Hc, Hi, Hd.
Qed.

Lemma stage_tx m0 m m' A R : stage m0 m -> tx_step m m' A R -> stage m0 m'.
Proof.
  intros [Hc Hs Hi Hd Hn [] Hp] [E _ _ _ Hh].
  assert (m_cfg m' = m_cfg m /\ m_src m' = m_src m /\ m_icmp m' = m_icmp m
    /\ m_dst m' = m_dst m /\ m_net m' = m_net m) as (E1 & E2 & E3 & E4 & E5)
    by (rewrite E; done).
  split; rewrite ?E1, ?E2, ?E3, ?E4, ?E5; try done; [|by apply Hh].
  split; rewrite ?E1, ?E2, ?E3, ?E4, ?E5; done.
Qed.

(** Giving up: the transaction is rolled back. *)
Lemma stage_abort m0 m p :
  mgr_inv m0 -> stage m0 m -> pool_owns N p (owned m0) ->
  mgr_inv (set_m_pool p tx_empty m) /\ view (set_m_pool p tx_empty m) = view m0.
Proof.
  intros [Hc Hx Hm Ha Hp Ht H1 H2] Hs Ho.
  assert (Hs' : stage m0 m) by done. destruct Hs as [Sc Ss Si Sd Sn [] Sp]. split.
  - split; unfold icmp_in_force, dst_in_force in *; cbn; rewrite ?Sc; try done.
    + destruct Ha. split; cbn; rewrite ?Sc, ?Ss, ?Si, ?Sd, ?Sn; done.
    + unfold owned, icmp_in_force, dst_in_force in *.
      cbn [m_cfg m_icmp m_dst m_pool set_m_pool]. by rewrite Sc, Si, Sd.
    + by rewrite Si.
    + by rewrite Sd.
  - rewrite <- (stage_view m0 m Hx Hs'). done.
Qed.

Lemma stage_start m : mgr_inv m -> stage m (set_m_pool (m_pool m) tx_empty m).
Proof. intros [Hc Hx [] Ha Hp Ht H1 H2]. split; done. Qed.

Lemma stage_refl m : mgr_inv m -> stage m m.
Proof.
  intros Hi. split; try done; [apply Hi|]. unfold tx_holds. rewrite (iv_tx m Hi). apply Hi.
Qed.

Lemma stage_calls m0 m n : stage m0 m -> stage m0 (set_m_calls n m).
Proof. intros [Sc Ss Si Sd Sn [] Sp]. by split. Qed.

(** A staged state whose transaction is empty is as good as the start. *)
Lemma stage_done m0 m :
  mgr_inv m0 -> stage m0 m -> m_tx m = tx_empty -> mgr_inv m /\ view m = view m0.
Proof.
  intros Hi Hs Ht. pose proof (sg_pool m0 m Hs) as Hp. unfold tx_holds in Hp.
  rewrite Ht in Hp. destruct (stage_abort m0 m (m_pool m) Hi Hs Hp) as [H1 H2].
  assert (set_m_pool (m_pool m) tx_empty m = m) as Heq by (rewrite <- Ht; by destruct m).
  rewrite Heq in H1, H2. done.
Qed.

(** ** The outcome of an operation *)

(** [bad]: what is known of the exception. *)
Definition outcome_e {A} (m : Mgr) (bad : MgrError -> Prop) (ok : A -> Mgr -> Prop)
    (r : MgrError + A) (m' : Mgr) : Prop :=
  mgr_inv m' /\ match r with inl e => view m' = view m /\ bad e | inr a => ok a m' end.

Lemma tx_scope_spec {A} (body : X A) m (bad : MgrError -> Prop) (ok : A -> Mgr -> Prop) :
  mgr_inv m ->
  xwp body (fun r m1 => match r with
    | inl e => stage m m1 /\ bad e | inr a => mgr_inv m1 /\ ok a m1 end)
    (set_m_pool (m_pool m) tx_empty m) ->
  xwp (tx_scope body) (outcome_e m bad ok) m.
Proof.
  unfold xwp, tx_scope, outcome_e. intros Hi Hb.
  destruct (body (set_m_pool (m_pool m) tx_empty m)) as [r m1]. cbn [fst snd] in *.
  destruct r as [e|a].
  - destruct Hb as [Hb Hbad].
    pose proof (tx_rollback_owns _ _ _ _ (sg_pool m m1 Hb)) as Hp.
    unfold tx_rollback in *. cbn [fst snd] in *.
    destruct (stage_abort m m1 _ Hi Hb Hp). by split_and!.
  - destruct Hb as [Hi1 Hok]. unfold tx_rollback. rewrite (iv_tx m1 Hi1). cbn.
    assert (set_m_pool (m_pool m1) tx_empty m1 = m1) as ->; [|done].
    rewrite <- (iv_tx m1 Hi1). by destruct m1.
Qed.

(** ** Enough buckets

    The pool is twice the size of all rules in force together, so that a rule
    set within its limit always finds buckets. *)
Lemma length_omap_le {A B} (f : A -> option B) l : (length (omap f l) <= length l)%nat.
Proof. induction l as [|a l IH]; cbn; [done|]. destruct (f a); cbn; lia. Qed.

Lemma length_map_buckets_le {K} `{Countable K} (m : gmap K XfwActionRule) :
  (length (map_buckets m) <= size m)%nat.
Proof. unfold map_buckets. rewrite <- length_map_to_list. apply length_omap_le. Qed.

Lemma owned_bound m :
  mgr_inv m ->
  Z.of_nat (length (owned m))
  <= XFW_MAX_ICMP_RULES + XFW_MAX_DST_RULES + XFW_MAX_DEFAULT_RULES + XFW_MAX_TCP_FLAG_RULES.
Proof.
  intros [_ _ _ _ _ _ H1 H2]. unfold owned, default_buckets, flag_buckets. rewrite !length_app.
  pose proof (length_map_buckets_le (icmp_in_force m)) as L1.
  pose proof (length_map_buckets_le (dst_in_force m)) as L2.
  pose proof (length_omap_le (fun i => rl_bucket (rc_defaults (rules (m_cfg m)) i))
    DefaultIndex_values) as L3.
  pose proof (length_omap_le (fun i => rl_bucket (rc_tcp_flags (rules (m_cfg m)) i))
    [XFW_FLAGS_FILTER_SYN; XFW_FLAGS_FILTER_RST]) as L4.
  cbn [length DefaultIndex_values] in L3, L4.
  unfold XFW_MAX_DEFAULT_RULES, XFW_MAX_TCP_FLAG_RULES. lia.
Qed.

Lemma free_enough m : mgr_inv m -> 2526 <= Z.of_nat (length (free_indices (m_pool m))).
Proof.
  intros Hi. pose proof (owned_bound m Hi) as Hb. destruct (iv_pool m Hi) as [Hp _].
  apply Permutation_length in Hp. rewrite length_app, length_seqZ in Hp.
  unfold XFW_MAX_RATE_LIMITER_BUCKETS, XFW_MAX_ICMP_RULES, XFW_MAX_DST_RULES,
    XFW_MAX_DEFAULT_RULES, XFW_MAX_TCP_FLAG_RULES in *. lia.
Qed.

Lemma tx_not_exhausted m m' A R :
  mgr_inv m -> tx_step (set_m_pool (m_pool m) tx_empty m) m' A R ->
  free_indices (m_pool m') = [] -> 2526 <= Z.of_nat (length A).
Proof.
  intros Hi Ht Hf. pose proof (free_enough m Hi) as He.
  pose proof (ts_free _ _ _ _ Ht) as Hp. apply Permutation_length in Hp.
  rewrite Hf, app_nil_r in Hp. cbn in Hp. lia.
Qed.

(** ** Exceptions that the kernel causes *)

Section kernel_error.
Context `{MgrKernel}.

(** The kernel refuses a new state with at most [b] entries. *)
Definition refuses (K V : Type) `{Countable K} `{!EqDecision V} (b : Z) : Prop :=
  exists n (sm : ShadowMap K V) new,
    shadow_ok sm /\ Z.of_nat (size new) <= b /\ (replace n sm new).1.1 = false.

(** One of the maps refuses a state within its limit. *)
Inductive map_refused : Prop :=
| MR_src4 : refuses XfwIpv4LpmKey XfwSrcRule XFW_MAX_SRC_IP_RULES -> map_refused
| MR_src6 : refuses XfwIpv6LpmKey XfwSrcRule XFW_MAX_SRC_IP_RULES -> map_refused
| MR_port : refuses XfwPort XfwSrcRule XFW_MAX_PORTS -> map_refused
| MR_icmp : refuses XfwIcmpKey XfwActionRule XFW_MAX_ICMP_RULES -> map_refused
| MR_dst : refuses XfwDstKey XfwActionRule XFW_MAX_DST_RULES -> map_refused
| MR_net4 : refuses XfwIpv4LpmKey Z XFW_MAX_PROTECTED_NET_RULES -> map_refused
| MR_net6 : refuses XfwIpv6LpmKey Z XFW_MAX_PROTECTED_NET_RULES -> map_refused.

Inductive kernel_error : MgrError -> Prop :=
| KE_load n : k_cfg_get n = false -> kernel_error ERR_CFG_LOAD
| KE_update n : k_cfg_set n = false -> kernel_error ERR_CFG_UPDATE
| KE_map : map_refused -> kernel_error ERR_BPF_UPDATE.
End kernel_error.

Section ops.
Context (hz : Z) `{MgrKernelSpec}.

Lemma get_config_spec m :
  xwp get_config (fun r m' => m' = set_m_calls (S (m_calls m)) m
    /\ match r with inl e => kernel_error e | inr c => c = m_cfg m end) m.
Proof.
  unfold get_config, next_call, xwp, xbind. cbn. destruct (k_cfg_get _) eqn:Hk; [done|].
  split; [done|]. by eapply KE_load.
Qed.

(** The configuration and the maps that a commit makes the ones in force. *)
Record committable (m0 m : Mgr) (c' : XfwFilterCfg) : Prop := mkCommittable {
  co_wf : cfg_wf c';
  co_idx : indices_ok c';
  co_active : active_synced (set_m_cfg c' m);
  co_icmp : Z.of_nat (size (icmp_in_force (set_m_cfg c' m))) <= XFW_MAX_ICMP_RULES;
  co_dst : Z.of_nat (size (dst_in_force (set_m_cfg c' m))) <= XFW_MAX_DST_RULES;
  co_owned : tx_allocated (m_tx m) ++ owned m0 ≡ₚ tx_released (m_tx m) ++ owned (set_m_cfg c' m)
}.

Lemma upload_commit_spec m0 m c' :
  stage m0 m -> committable m0 m c' ->
  xwp (upload_config_changes c' true) (fun r m' => match r with
    | inl e => stage m0 m' /\ kernel_error e
    | inr _ => mgr_inv m' /\ exists n p, m' = set_m_pool p tx_empty (set_m_calls n (set_m_cfg c' m))
    end) m.
Proof.
  intros Hs [Hwf Hix Ha Hi Hd Ho]. unfold upload_config_changes, next_call, xwp, xbind. cbn.
  destruct (k_cfg_set _) eqn:Hk; cbn;
    [|split; [by apply stage_calls|by eapply KE_update]].
  split; [|by do 2 eexists].
  pose proof (tx_commit_owns _ _ _ _ _ (sg_pool m0 m Hs) Ho) as Hp.
  destruct (sg_maps m0 m Hs). destruct Ha. by split.
Qed.

(** An upload outside of a transaction keeps the owners. *)
Lemma upload_spec m0 m c' :
  stage m0 m -> m_tx m = tx_empty -> committable m0 m c' ->
  xwp (upload_config_changes c' false) (fun r m' => match r with
    | inl e => stage m0 m' /\ m_tx m' = tx_empty /\ kernel_error e
    | inr _ => mgr_inv m' /\ exists n, m' = set_m_calls n (set_m_cfg c' m)
    end) m.
Proof.
  intros Hs Ht [Hwf Hix Ha Hi Hd Ho]. unfold upload_config_changes, next_call, xwp, xbind. cbn.
  destruct (k_cfg_set _) eqn:Hk; cbn;
    [|split_and!; [by apply stage_calls|done|by eapply KE_update]].
  split; [|by eexists].
  pose proof (sg_pool m0 m Hs) as Hp. unfold tx_holds in Hp. rewrite Ht in Hp, Ho. cbn in Hp, Ho.
  destruct (sg_maps m0 m Hs). destruct Ha. split; try done.
  by eapply pool_owns_proper.
Qed.

Lemma replace_map_spec {K V} `{Countable K} `{!EqDecision V} (get : Mgr -> ShadowMap K V)
    (put : ShadowMap K V -> Mgr -> Mgr) new m :
  shadow_ok (get m) ->
  xwp (replace_map get put new) (fun r m' => exists ok n sm,
    m' = put sm (set_m_calls n m) /\ replaced (get m) new ok sm /\ shadow_ok sm
    /\ (ok = false -> forall b, Z.of_nat (size new) <= b -> refuses K V b)
    /\ r = if ok then inr tt else inl ERR_BPF_UPDATE) m.
Proof.
  intros Hs. unfold xwp, replace_map.
  pose proof (replace_spec (m_calls m) (get m) new Hs) as Hr.
  destruct (replace (m_calls m) (get m) new) as [[ok n] sm] eqn:He.
  exists ok, n, sm. unfold xverify. destruct Hr as [Hr1 Hr2]. split_and!; [by destruct ok|done..| |by destruct ok].
  intros -> b Hb. exists (m_calls m), (get m), new. by rewrite He.
Qed.

(** Operations that change only scalar parts of the configuration: every
    [upload] of a well-formed configuration with the same maps and rules. *)
Definition same_rules (c c' : XfwFilterCfg) : Prop :=
  amap_src c' = amap_src c /\ amap_icmp c' = amap_icmp c /\ amap_dst c' = amap_dst c
  /\ amap_prot_net c' = amap_prot_net c
  /\ rc_defaults (rules c') = rc_defaults (rules c)
  /\ rc_tcp_flags (rules c') = rc_tcp_flags (rules c).

Lemma same_rules_committable m0 m c' :
  mgr_inv m0 -> stage m0 m -> m_tx m = tx_empty -> cfg_wf c' -> same_rules (m_cfg m0) c' ->
  committable m0 m c'.
Proof.
  intros Hi Hs Ht Hwf (E1 & E2 & E3 & E4 & E5 & E6).
  destruct Hi as [Hc [X1 X2 X3 X4] Hm [A1 A2 A3 A4] Hp _ S1 S2].
  destruct Hs as [Sc Ss Si Sd Sn _ _].
  split; unfold icmp_in_force, dst_in_force in *; cbn [m_cfg m_icmp m_dst set_m_cfg] in *;
    rewrite ?E2, ?E3, ?Si, ?Sd; try done.
  - split; congruence.
  - split; cbn; rewrite ?E1, ?E2, ?E3, ?E4, ?Ss, ?Si, ?Sd, ?Sn; done.
  - rewrite Ht. unfold owned, icmp_in_force, dst_in_force.
    cbn [tx_allocated tx_released tx_empty app m_cfg m_icmp m_dst set_m_cfg].
    by rewrite E2, E3, E5, E6, Si, Sd.
Qed.

Lemma simple_op_spec m (f : XfwFilterCfg -> XfwFilterCfg) (x : X unit) :
  mgr_inv m -> (forall c, cfg_wf c -> cfg_wf (f c) /\ same_rules c (f c)) ->
  x = (let! cfg := get_config in upload_config_changes (f cfg) false) ->
  xwp x (outcome_e m kernel_error
    (fun _ m' => exists n, m' = set_m_calls n (set_m_cfg (f (m_cfg m)) m))) m.
Proof.
  intros Hi Hf ->. apply xwp_bind. eapply xwp_mono; [apply get_config_spec|].
  pose proof (stage_calls _ _ (S (m_calls m)) (stage_refl m Hi)) as Hs.
  intros [e|c] m1 (-> & Hc); cbn [on_ok].
  { destruct (stage_done m _ Hi Hs (iv_tx m Hi)). by split_and!. }
  subst c. destruct (Hf _ (iv_cfg m Hi)) as [Hwf Hsr].
  eapply xwp_mono; [apply (upload_spec m)|].
  - done.
  - apply Hi.
  - apply same_rules_committable; try done. apply Hi.
  - intros [e|[]] m' Hr.
    + destruct Hr as (Hs' & Ht' & Hk). destruct (stage_done m _ Hi Hs' Ht'). by split_and!.
    + destruct Hr as (Hi' & n & ->). split; [done|]. by exists n.
Qed.
End ops.
