(* ===== verification/ManagerOps.v ===== *)
(** * ManagerOps: what each operation of the maps manager does

    For every operation of [BpfMapsManager]: the invariant of [ManagerSpec] is
    preserved, an exception leaves what the BPF programs see unchanged, and
    success puts exactly the new rules in force. *)

From stdpp Require Import strings.
From S2P Require Import Prelude.
From S2P Require Import Enums.
From S2P Require Import Uapi.
From S2P Require Import Ctx.
From S2P Require Import Bitset.
From S2P Require Import IndexPool.
From S2P Require Import ShadowMap.
From S2P Require Import Config.
From S2P Require Import MapsManager.
From S2P Require Import ManagerSpec.

Local Abbreviation N := XFW_MAX_RATE_LIMITER_BUCKETS.

Section ops.
Context (hz : Z) `{MgrKernelSpec}.

(** ** Scalar parts of the configuration *)

Definition anomaly_of (filter : TcpAnomalyFilter) : XfwRulesCfgTcpAnomaly :=
  mkTcpAnomaly (af_enabled filter) (af_syn_without_opt_enabled filter)
    (af_syn_with_payload_enabled filter) (bool_decide (is_Some (af_syn_with_seqno filter)))
    (default 0 (af_syn_with_seqno filter)) (memcpy_words 4 (af_bad_flags filter)).

Lemma set_tcp_anomaly_rule_spec filter m :
  mgr_inv m ->
  xwp (set_tcp_anomaly_rule filter) (outcome_e m kernel_error (fun _ m' => exists n, m' = set_m_calls n
    (set_m_cfg (with_rules_cfg (with_tcp_anomaly (anomaly_of filter) (rules (m_cfg m))) (m_cfg m)) m))) m.
Proof.
  intros Hi. apply (simple_op_spec m
    (fun c => with_rules_cfg (with_tcp_anomaly (anomaly_of filter) (rules c)) c)); [done| |done].
  intros c [H1 H2 H3]. split; [|by split_and!]. split; try done; apply length_memcpy_words.
Qed.

Definition simple_cfg (config : XfwConfig) (c : XfwFilterCfg) : XfwFilterCfg :=
  let r := rules c in
  let sc := rc_syncookie r in
  mkFilterCfg
    (mkRulesCfg (evaluation_mode config)
       (memcpy_words 4 (default make_default_ip_proto (ip_proto_filter config)))
       (match syncookie_filter config with
        | Some d => mkSyncookie (u64 (passive_timer d * hz)) (u64 (flood_timer d * hz)) true
        | None => mkSyncookie (sc_passive_timer_jiff sc) (sc_flood_timer_jiff sc) false
        end)
       (rc_tcp_anomaly r) (auth_filter config) (dns_filter config) (rc_tcp_flags r) (rc_defaults r))
    (rules_active c) (amap_src c) (amap_icmp c) (amap_dst c) (amap_prot_net c)
    (mkRlWindow (rl_window_jiffies hz) (rl_window_shift hz) (rl_window_mask hz)) (named_rates c).

Lemma set_simple_rules_spec config m :
  mgr_inv m ->
  xwp (set_simple_rules hz config) (outcome_e m kernel_error (fun _ m' => exists n, m' = set_m_calls n
    (set_m_cfg (simple_cfg config (m_cfg m)) m))) m.
Proof.
  intros Hi. apply (simple_op_spec m (simple_cfg config)); [done| |done].
  intros c [H1 H2 H3]. split; [|by split_and!]. split; try done; apply length_memcpy_words.
Qed.

Lemma turn_filtration_on_spec m :
  mgr_inv m ->
  xwp turn_filtration_on (outcome_e m kernel_error (fun _ m' => exists n, m' = set_m_calls n
    (set_m_cfg (with_rules_active (m_cfg m)) m))) m.
Proof.
  intros Hi. apply (simple_op_spec m with_rules_active); [done| |done].
  intros c [H1 H2 H3]. split; [by split|by split_and!].
Qed.

(** ** Named rates *)

Definition scaled (e : Ratelimit) : XfwPacketRate :=
  mkRate (scale_rl_to_window hz (rl_pps e)) (scale_rl_to_window hz (rl_bps e)).

(** The table of rates: the entries of active names are the scaled rates, the
    others are kept. *)
Definition rates_written (es : list Ratelimit) (old new : list XfwPacketRate) : Prop :=
  length new = length old
  /\ forall i, (i < length old)%nat ->
     new !! i = match es !! i with
                | Some e => if decide (rl_state e = Active) then Some (scaled e) else old !! i
                | None => old !! i
                end.

Definition rates_ok (es : list Ratelimit) : Prop :=
  forall e, e ∈ es -> rl_state e = Active ->
  rl_pps e <= rl_max_rate hz /\ rl_bps e <= rl_max_rate hz.

Lemma rates_loop_spec es old m :
  xwp (xfoldl (fun rates '(i, e) =>
      if decide (rl_state e = Active) then
        xverify (rl_pps e <=? rl_max_rate hz) ERR_RATE ;!
        xverify (rl_bps e <=? rl_max_rate hz) ERR_RATE ;!
        xret (<[i := scaled e]> rates)
      else xret rates) old (zip (seq 0 (length es)) es))
    (fun r m' => match r with
     | inl e => e = ERR_RATE /\ m' = m /\ ~ rates_ok es
     | inr new => m' = m /\ rates_written es old new /\ rates_ok es end) m.
Proof.
  assert (Hlen : length (zip (seq 0 (length es)) es) = length es).
  { rewrite length_zip_with, length_seq. lia. }
  eapply xwp_mono; [apply (xwp_foldl _ (fun new done m' => m' = m
    /\ rates_written (take (length done) es) old new
    /\ rates_ok (take (length done) es)) (fun e m' => e = ERR_RATE /\ m' = m /\ ~ rates_ok es))|].
  - split_and!; [done|split; [done|by intros; rewrite take_0]|].
    rewrite take_0. intros e He. by apply elem_of_nil in He.
  - intros new done [i e] rest m1 Hl (-> & [Hln Hw] & Hok).
    assert (Hie : i = length done /\ es !! length done = Some e).
    { assert (zip (seq 0 (length es)) es !! length done = Some (i, e)) as Hz
        by (rewrite Hl, lookup_app_r, Nat.sub_diag; done).
      apply lookup_zip_Some in Hz as [Hs He]. split; [|done].
      apply lookup_seq in Hs. lia. }
    destruct Hie as [-> He].
    assert (Htk : take (length (done ++ [(length done, e)])) es
                  = take (length done) es ++ [e]).
    { rewrite length_app. cbn. rewrite Nat.add_1_r. by apply take_S_r. }
    assert (Hlt : length (take (length done) es) = length done).
    { rewrite length_take. apply lookup_lt_Some in He. lia. }
    assert (Hwr : forall x, (if decide (rl_state e = Active) then x = Some (scaled e)
                             else x = old !! length done) ->
      forall new', length new' = length old ->
      (forall j, new' !! j = if decide (j = length done) then
          (if decide (length done < length old)%nat then x else None) else new !! j) ->
      rates_written (take (length done) es ++ [e]) old new').
    { intros x Hx new' Hl' Hj. split; [done|]. intros j Hj'. rewrite Hj.
      destruct (decide (j = length done)) as [->|Hd].
      - rewrite decide_True by done.
        rewrite lookup_app_r, Hlt, Nat.sub_diag by lia. cbn.
        by destruct (decide (rl_state e = Active)).
      - rewrite Hw by done. destruct (decide (j < length done)%nat).
        + by rewrite lookup_app_l by lia.
        + rewrite lookup_app_r, Hlt by lia. rewrite (lookup_ge_None_2 (take _ _)) by lia.
          destruct (j - length done)%nat eqn:Hz; [lia|done]. }
    destruct (decide (rl_state e = Active)) as [Ha|Ha].
    + apply xwp_bind, xwp_verify; intros H1; cbn [on_ok]; cycle 1.
      { split_and!; [done..|]. intros Hr. destruct (Hr e) as [Hr1 _]; [|done|lia].
        by eapply list_elem_of_lookup_2. }
      apply xwp_bind, xwp_verify; intros H2; cbn [on_ok]; cycle 1.
      { split_and!; [done..|]. intros Hr. destruct (Hr e) as [_ Hr1]; [|done|lia].
        by eapply list_elem_of_lookup_2. }
      apply xwp_ret. rewrite Htk. split_and!; [done| |].
      * apply (Hwr (Some (scaled e))); [done|by rewrite length_insert|].
        intros j. destruct (decide (j = length done)) as [->|Hj];
          [|by rewrite list_lookup_insert_ne].
        destruct (decide (length done < length old)%nat); [by apply list_lookup_insert_eq; lia|].
        apply lookup_ge_None_2. rewrite length_insert. lia.
      * intros e' [He'| ->%list_elem_of_singleton]%elem_of_app Hs; [by apply Hok|lia].
    + apply xwp_ret. rewrite Htk. split_and!; [done| |].
      * apply (Hwr (old !! length done)); [done|done|].
        intros j. destruct (decide (j = length done)) as [->|Hj]; [|done].
        destruct (decide (length done < length old)%nat).
        -- rewrite Hw by done. rewrite (lookup_ge_None_2 (take _ _)) by lia. done.
        -- apply lookup_ge_None_2. lia.
      * intros e' [He'| ->%list_elem_of_singleton]%elem_of_app Hs; [by apply Hok|done].
  - intros [e|new] m' Hr; [done|]. rewrite Hlen, take_ge in Hr by lia. done.
Qed.

(** An operation that reads the configuration. *)
Lemma get_config_mid {A} m (k : XfwFilterCfg -> X A) (bad : MgrError -> Prop) ok :
  mgr_inv m -> (forall e, kernel_error e -> bad e) ->
  (forall m1, m1 = set_m_calls (S (m_calls m)) m -> mgr_inv m1 -> stage m m1 -> view m1 = view m ->
     xwp (k (m_cfg m)) (outcome_e m bad ok) m1) ->
  xwp (let! cfg := get_config in k cfg) (outcome_e m bad ok) m.
Proof.
  intros Hi Hb Hk. apply xwp_bind. eapply xwp_mono; [apply get_config_spec|].
  pose proof (stage_calls _ _ (S (m_calls m)) (stage_refl m Hi)) as Hs.
  destruct (stage_done m _ Hi Hs (iv_tx m Hi)) as [Hi1 Hv1].
  intros [e|c] m1 (-> & Hc); cbn [on_ok]; [split_and!; [done..|by apply Hb]|]. subst c. by apply Hk.
Qed.

(** Why rates may be refused. *)
Definition rates_refused (r : Ratelimits) (e : MgrError) : Prop :=
  kernel_error e \/ (e = ERR_RATE /\ ~ rates_ok (ratelimits_ r)).

Lemma set_ratelimits_spec r m :
  mgr_inv m ->
  xwp (set_ratelimits hz r) (outcome_e m (rates_refused r) (fun _ m' => exists n rates,
    m' = set_m_calls n (set_m_cfg (with_named_rates rates (m_cfg m)) m)
    /\ rates_written (ratelimits_ r) (named_rates (m_cfg m)) rates
    /\ rates_ok (ratelimits_ r))) m.
Proof.
  intros Hi. apply get_config_mid; [done|by left|]. intros m1 Hm1 Hi1 Hs Hv1.
  apply xwp_bind. eapply xwp_mono; [apply rates_loop_spec|].
  intros [e|rates] m2 Hr; cbn [on_ok].
  { destruct Hr as (-> & -> & ?). split_and!; [done..|by right]. }
  destruct Hr as (-> & Hw & Hok).
  eapply xwp_mono; [apply (upload_spec m)|].
  - done.
  - apply Hi1.
  - apply same_rules_committable; try done; [apply Hi1|].
    destruct (iv_cfg m Hi). split; try done. cbn. destruct Hw as [-> _]. done.
  - intros [e|[]] m' Hr.
    + destruct Hr as (Hs' & Ht' & Hk). destruct (stage_done m _ Hi Hs' Ht').
      split_and!; [done..|by left].
    + destruct Hr as (Hi' & n & ->). split; [done|]. exists n, rates. subst m1. done.
Qed.

(** ** Rules for TCP flags *)

(** One changed rule of an array: what the array gains and loses. *)
Lemma update_balance {A} `{EqDecision A} (l : list A) (f : A -> XfwActionRule) i r da dr :
  NoDup l -> i ∈ l ->
  opt_bucket (Some r) ++ dr ≡ₚ opt_bucket (Some (f i)) ++ da ->
  omap (fun j => rl_bucket (if decide (j = i) then r else f j)) l ++ dr
  ≡ₚ omap (fun j => rl_bucket (f j)) l ++ da.
Proof.
  intros Hnd Hin Hb. pose proof (omap_update l f i r Hnd Hin) as Hu.
  apply (Permutation_app_inv_l (opt_bucket (Some (f i)))).
  transitivity ((omap (fun j => rl_bucket (if decide (j = i) then r else f j)) l
    ++ opt_bucket (Some (f i))) ++ dr); [solve_Permutation|].
  rewrite Hu. transitivity ((opt_bucket (Some r) ++ dr) ++ omap (fun j => rl_bucket (f j)) l);
    [solve_Permutation|].
  rewrite Hb. solve_Permutation.
Qed.

Lemma flag_values_complete i : i ∈ [XFW_FLAGS_FILTER_SYN; XFW_FLAGS_FILTER_RST].
Proof. destruct i; set_solver. Qed.

Lemma flag_values_NoDup : NoDup [XFW_FLAGS_FILTER_SYN; XFW_FLAGS_FILTER_RST].
Proof. repeat constructor; set_solver. Qed.

(** What a staged state tells about the maps a configuration selects. *)
Lemma stage_selected m0 m c' :
  mgr_inv m0 -> stage m0 m ->
  (amap_src c' = amap_src (m_cfg m0) -> src_forall synced_map (pick (m_src m) (amap_src c')))
  /\ (amap_icmp c' = amap_icmp (m_cfg m0) ->
      resync_required (pick (m_icmp m) (amap_icmp c')) = false
      /\ icmp_in_force (set_m_cfg c' m) = icmp_in_force m0)
  /\ (amap_dst c' = amap_dst (m_cfg m0) ->
      resync_required (pick (m_dst m) (amap_dst c')) = false
      /\ dst_in_force (set_m_cfg c' m) = dst_in_force m0)
  /\ (amap_prot_net c' = amap_prot_net (m_cfg m0) ->
      net_forall synced_map (pick (m_net m) (amap_prot_net c'))).
Proof.
  intros [_ _ _ [] _ _ _ _] [Sc Ss Si Sd Sn _ _].
  unfold icmp_in_force, dst_in_force. cbn.
  split_and!; intros ->; rewrite ?Ss, ?Si, ?Sd, ?Sn; done.
Qed.

Definition flag_rule_of (f : option TcpFlagFilter) : XfwActionRule :=
  match f with
  | Some i => mkActionRule XFW_ACTION_RATE_LIMIT (mkRLimitRule UINT32_MAX i)
  | None => mkActionRule XFW_ACTION_ALLOW XfwRLimitRule_invalid
  end.

Lemma set_tcp_flag_rule_spec f flag m :
  mgr_inv m ->
  xwp (set_tcp_flag_rule f flag) (outcome_e m kernel_error (fun _ m' => exists n p r,
    m' = set_m_pool p tx_empty (set_m_calls n (set_m_cfg (with_rules_cfg (with_tcp_flags
      (fun g => if decide (g = flag) then r else rc_tcp_flags (rules (m_cfg m)) g)
      (rules (m_cfg m))) (m_cfg m)) m))
    /\ rule_of r = rule_of (flag_rule_of f))) m.
Proof.
  intros Hi. apply get_config_mid; [done|done|]. intros m1 Hm1 Hi1 Hs Hv1.
  fold (flag_rule_of f). cbv zeta.
  eapply xwp_mono; [apply (tx_scope_spec _ m1 kernel_error); [exact Hi1|]|]; cycle 1.
  { intros [e|a] m' Ho; (split; [apply Ho|]); [|exact (proj2 Ho)].
    destruct Ho as [_ [Ho Hk]]. by rewrite Ho. }
  apply xwp_bind. eapply xwp_mono; [apply reconcile_spec|].
  pose proof (stage_start m1 Hi1) as Hs1.
  intros [e|o] m2 Hr; cbn [on_ok].
  { destruct Hr as (_ & -> & Hf). exfalso. pose proof (free_enough m1 Hi1) as He.
    assert (free_indices (m_pool m1) = []) as Hn by exact Hf. rewrite Hn in He. cbn in He. lia. }
  destruct Hr as (da & dr & Ht & _ & Hbk & Hro). destruct o as [r|]; [|done].
  change (default (flag_rule_of f) (Some r)) with r.
  pose proof (stage_tx _ _ _ _ _ Hs1 Ht) as Hs2.
  set (c' := with_rules_cfg _ _).
  destruct (stage_selected m1 m2 c' Hi1 Hs2) as (Q1 & Q2 & Q3 & Q4).
  assert (Hc : m_cfg m1 = m_cfg m) by apply Hs.
  destruct Q2 as [Q2 Q2']; [by rewrite Hc|]. destruct Q3 as [Q3 Q3']; [by rewrite Hc|].
  eapply xwp_mono; [apply (upload_commit_spec m1 m2 c' Hs2)|].
  - destruct (iv_cfg m Hi), (iv_idx m Hi). split.
    + by split.
    + by split.
    + split; [apply Q1; by rewrite Hc|done|done|apply Q4; by rewrite Hc].
    + rewrite Q2'. apply Hi1.
    + rewrite Q3'. apply Hi1.
    + rewrite (ts_alloc _ _ _ _ Ht), (ts_rel _ _ _ _ Ht). cbn [tx_allocated tx_released m_tx
        set_m_pool tx_empty app]. unfold owned at 2. rewrite Q2', Q3'.
      pose proof (update_balance _ (rc_tcp_flags (rules (m_cfg m))) flag r da dr
        flag_values_NoDup (flag_values_complete flag) Hbk) as Hu.
      unfold owned. rewrite Hc. cbn [m_cfg set_m_cfg c' rules with_rules_cfg rc_defaults
        rc_tcp_flags with_tcp_flags]. unfold flag_buckets. rewrite (Permutation_app_comm da).
      rewrite (Permutation_app_comm dr). rewrite <- !app_assoc.
      by rewrite <- Hu.
  - intros [e|[]] m' Hr; [done|].
    destruct Hr as (Hi' & n & p & ->). split; [done|]. exists n, p, r. split.
    + rewrite (ts_eq _ _ _ _ Ht), Hm1. done.
    + injection Hro as Ha Hn. unfold rule_of. congruence.
Qed.

(** ** ICMP and destination rules *)

(** Why a rule set with the keys [ks] may be refused. *)
Definition refused {K} (max : Z) (ks : list K) (e : MgrError) : Prop :=
  kernel_error e \/ (e = ERR_DUPLICATE /\ ~ NoDup ks) \/ max < Z.of_nat (length ks).

(** The pool is not the reason for a refusal: [a] allocations do not empty it. *)
Lemma exhausted_refused {K} m (a : nat) max (ks : list K) :
  mgr_inv m -> length (free_indices (m_pool m)) = a -> (a <= length ks + 14)%nat ->
  max + 14 < 2526 -> refused max ks ERR_NO_BUCKET.
Proof.
  intros Hi Hf Hl Hm. pose proof (free_enough m Hi). right. right. lia.
Qed.

Lemma step_free_length m m' A R :
  tx_step m m' A R ->
  length (free_indices (m_pool m)) = (length A + length (free_indices (m_pool m')))%nat.
Proof. intros Ht. rewrite (ts_free _ _ _ _ Ht). apply length_app. Qed.

Section rule_sets.
Context {K : Type} `{Countable K} (act : gmap K XfwActionRule).
Context {R : Type} (keys : R -> list K) (base : R -> XfwActionRule) (max : Z).

(** From the rules in force [act] to the new ones: buckets and contents. *)
Definition rules_built (rs : list R) (m0 : Mgr) (nr : gmap K XfwActionRule) (m' : Mgr) : Prop :=
  exists A R', tx_step m0 m' A R' /\ map_buckets nr ++ R' ≡ₚ map_buckets act ++ A
    /\ (length A <= length (rs ≫= keys))%nat
    /\ rule_of <$> nr = rule_set keys base rs /\ NoDup (rs ≫= keys)
    /\ Z.of_nat (size nr) <= max.

Lemma size_rule_set rs :
  NoDup (rs ≫= keys) -> (size (rule_set keys base rs) <= length (rs ≫= keys))%nat.
Proof.
  intros Hnd. rewrite <- size_dom, <- (size_list_to_set (C := gset K) _ Hnd).
  apply subseteq_size. intros k Hk. apply elem_of_list_to_set.
  destruct (decide (k ∈ rs ≫= keys)) as [|Hn]; [done|].
  apply (rule_set_None keys base) in Hn. apply elem_of_dom in Hk as [? Hk]. congruence.
Qed.

Lemma build_phase {B} rs (k : gmap K XfwActionRule -> X B) m0 Q :
  (forall e m', (exists A R', tx_step m0 m' A R') ->
     (e = ERR_NO_BUCKET -> exists A R', tx_step m0 m' A R' /\ free_indices (m_pool m') = []
        /\ (length A <= length (rs ≫= keys))%nat) ->
     e = ERR_NO_BUCKET \/ refused max (rs ≫= keys) e -> Q (inl e) m') ->
  (forall nr m', rules_built rs m0 nr m' -> xwp (k nr) Q m') ->
  xwp (let! nr := build_rules act keys base rs in
       xverify (fits nr max) ERR_LIMIT ;! release_removed act nr ;! k nr) Q m0.
Proof.
  intros He Hk. apply xwp_bind. eapply xwp_mono; [apply build_rules_spec|].
  intros [e|nr] m1 Hr; cbn [on_ok].
  - destruct Hr as (A & R' & Ht & Hr). apply He; [by eauto| |].
    + intros ->. exists A, R'. naive_solver.
    + destruct Hr as [(-> & Hd)|(-> & _)]; [right; right; by left|by left].
  - destruct Hr as (A & R' & Ht & Hb & Hlen & Hru & Hnd).
    apply xwp_bind, xwp_verify; intros Hfit; cbn [on_ok]; cycle 1.
    { apply He; [by eauto|done|]. right. right. right. unfold fits in Hfit.
      apply Z.leb_gt in Hfit. pose proof (size_rule_set rs Hnd) as Hs. rewrite <- Hru in Hs.
      rewrite map_size_fmap in Hs. lia. }
    apply xwp_bind. eapply xwp_mono; [apply release_removed_spec|].
    intros r m2 (-> & R2 & Ht2 & Hrem). cbn [on_ok]. apply Hk.
    exists A, (R' ++ R2). split_and!; try done.
    + rewrite <- (app_nil_r A). by eapply tx_step_trans.
    + by apply balance_complete.
    + unfold fits in Hfit. lia.
Qed.
End rule_sets.

Lemma pick_put {T} (p : ShadowPair T) i x :
  map_idx_ok i -> pick (put_map p (next_map_idx i) x) (next_map_idx i) = x
  /\ pick (put_map p (next_map_idx i) x) i = pick p i.
Proof. by intros [-> | ->]. Qed.

Lemma put_both {T} (P : T -> Prop) p i x : both P p -> P x -> both P (put_map p i x).
Proof. intros [] ?. unfold put_map. by destruct (i =? _); split. Qed.

Lemma get_maps_pick {T} (p : ShadowPair T) i m :
  map_idx_ok i -> get_maps_by_index p i m = (inr (pick p i), m).
Proof. by intros [-> | ->]. Qed.

Lemma next_idx_ok i : map_idx_ok (next_map_idx i).
Proof. unfold next_map_idx. destruct (i =? _); [by right|by left]. Qed.

Lemma both_pick {T} (P : T -> Prop) p i : both P p -> P (pick p i).
Proof. intros []. unfold pick. by destruct (i =? _). Qed.

(** The buckets that change hands when the rules [X] become [X'] and the default
    rules [D] become [D'], beside other rules [Y]. *)
Lemma exchange (X X' D D' A A2 R R2 Y : list Z) :
  X' ++ R ≡ₚ X ++ A -> D' ++ R2 ≡ₚ D ++ A2 ->
  (A ++ A2) ++ X ++ D ++ Y ≡ₚ (R ++ R2) ++ X' ++ D' ++ Y.
Proof.
  intros HX HD. transitivity ((X ++ A) ++ (D ++ A2) ++ Y); [solve_Permutation|].
  rewrite <- HX, <- HD. solve_Permutation.
Qed.

(** *** A family of rules: a pair of maps of which the configuration selects one

    [set_icmp_rules] and [set_dst_rules] have the same shape. *)

Section family.
Context {K : Type} `{Countable K}.
Context (pair : Mgr -> ShadowPair (ShadowMap K XfwActionRule)).
Context (set_pair : ShadowPair (ShadowMap K XfwActionRule) -> Mgr -> Mgr).
Context (amap : XfwFilterCfg -> Z) (with_amap : Z -> XfwFilterCfg -> XfwFilterCfg).
Context {R : Type} (keys : R -> list K) (base : R -> XfwActionRule) (max : Z).
Context (indices : list DefaultIndex).

Definition set_rules (rs : list R) (ds : Defaults) (default_rule : Z) : X unit :=
  let! cfg := get_config in
  let! m := xget in
  let! active_map := get_maps_by_index (pair m) (amap cfg) in
  let active := snapshot active_map in
  tx_scope (
    let! new_rules := build_rules active keys base rs in
    xverify (fits new_rules max) ERR_LIMIT ;!
    release_removed active new_rules ;!
    let idx := next_map_idx (amap cfg) in
    replace_map (fun m => pick (pair m) idx)
      (fun sm m => set_pair (put_map (pair m) idx sm) m) new_rules ;!
    let! to := apply_defaults ds indices default_rule (rc_defaults (rules cfg)) in
    upload_config_changes
      (with_rules_cfg (with_defaults to (rules cfg)) (with_amap idx cfg)) true).

(** The state after the rules were replaced. *)
Definition installed (rs : list R) (ds : Defaults) (d : Z) (m m' : Mgr) : Prop :=
  exists n p sm to,
    let cfg := m_cfg m in let idx := next_map_idx (amap cfg) in
    m' = set_m_pool p tx_empty (set_m_calls n (set_m_cfg
           (with_rules_cfg (with_defaults to (rules cfg)) (with_amap idx cfg))
           (set_pair (put_map (pair m) idx sm) m)))
    /\ rule_of <$> bpf_map sm = rule_set keys base rs /\ NoDup (rs ≫= keys)
    /\ defaults_applied ds indices d (rc_defaults (rules cfg)) to.

Hypothesis amap_ok : forall c, indices_ok c -> map_idx_ok (amap c).
Hypothesis pair_ok : forall m, maps_ok m -> both shadow_ok (pair m).
Hypothesis pair_pool : forall p t m, pair (set_m_pool p t m) = pair m.
Hypothesis pair_calls : forall n m, pair (set_m_calls n m) = pair m.
Hypothesis set_pair_calls : forall p n m, set_pair p (set_m_calls n m) = set_m_calls n (set_pair p m).
Hypothesis set_pair_pool : forall p q t m,
  set_pair p (set_m_pool q t m) = set_m_pool q t (set_pair p m).
Hypothesis set_pair_cfg : forall p c m, set_pair p (set_m_cfg c m) = set_m_cfg c (set_pair p m).
Hypothesis pair_set : forall p m, pair (set_pair p m) = p.
Hypothesis pool_set : forall p m, m_pool (set_pair p m) = m_pool m /\ m_tx (set_pair p m) = m_tx m.

(** Writing the inactive map leaves the operation under way. *)
Hypothesis stage_put : forall m0 m sm, stage m0 m -> map_idx_ok (amap (m_cfg m0)) -> shadow_ok sm ->
  stage m0 (set_pair (put_map (pair m) (next_map_idx (amap (m_cfg m0))) sm) m).

(** The new map and the new defaults can be committed. *)
Hypothesis commit_ok : forall m0 m sm to A A2 R R2,
  let idx := next_map_idx (amap (m_cfg m0)) in
  mgr_inv m0 -> stage m0 m -> pick (pair m) idx = sm -> resync_required sm = false ->
  Z.of_nat (size (snapshot sm)) <= max ->
  tx_allocated (m_tx m) = A ++ A2 -> tx_released (m_tx m) = R ++ R2 ->
  map_buckets (snapshot sm) ++ R
    ≡ₚ map_buckets (snapshot (pick (pair m0) (amap (m_cfg m0)))) ++ A ->
  default_buckets to ++ R2 ≡ₚ default_buckets (rc_defaults (rules (m_cfg m0))) ++ A2 ->
  committable m0 m
    (with_rules_cfg (with_defaults to (rules (m_cfg m0))) (with_amap idx (m_cfg m0))).

(** A refusal by the kernel. *)
Hypothesis refuses_error : refuses K XfwActionRule max -> kernel_error ERR_BPF_UPDATE.

Hypothesis max_small : max + 14 < 2526.
Hypothesis indices_small : (length indices <= 14)%nat.

(** Everything after the new rules were built. *)
Lemma install_spec rs ds d m ms m3 nr A R' :
  mgr_inv m -> ms = set_m_pool (m_pool m) tx_empty m ->
  tx_step ms m3 A R' -> (length A <= length (rs ≫= keys))%nat ->
  map_buckets nr ++ R' ≡ₚ map_buckets (snapshot (pick (pair m) (amap (m_cfg m)))) ++ A ->
  Z.of_nat (size nr) <= max -> rule_of <$> nr = rule_set keys base rs -> NoDup (rs ≫= keys) ->
  let idx := next_map_idx (amap (m_cfg m)) in
  xwp (replace_map (fun m => pick (pair m) idx)
        (fun sm m => set_pair (put_map (pair m) idx sm) m) nr ;!
       let! to := apply_defaults ds indices d (rc_defaults (rules (m_cfg m))) in
       upload_config_changes
         (with_rules_cfg (with_defaults to (rules (m_cfg m))) (with_amap idx (m_cfg m))) true)
    (fun r m1 => match r with
     | inl e => stage m m1 /\ refused max (rs ≫= keys) e
     | inr _ => mgr_inv m1 /\ installed rs ds d m m1 end) m3.
Proof.
  intros Hi -> Ht3 HlenA Hbal Hsz Hru Hnd idx. pose proof (stage_start m Hi) as Hs1.
  pose proof (stage_tx _ _ _ _ _ Hs1 Ht3) as Hs3.
  pose proof (amap_ok _ (iv_idx m Hi)) as Hix.
  apply xwp_bind. eapply xwp_mono; [apply replace_map_spec|].
  { apply both_pick, pair_ok, Hs3. }
  intros r m4 (ok & n & sm & -> & Hrep & Hsm & Hrf & ->).
  rewrite pair_calls, set_pair_calls.
  pose proof (stage_calls _ _ n (stage_put m m3 sm Hs3 Hix Hsm)) as Hs4. fold idx in Hs4.
  set (m4 := set_m_calls n _) in *.
  destruct ok; cbn [on_ok]; cycle 1.
  { split; [done|]. left. by apply refuses_error, Hrf. }
  cbn in Hrep. destruct Hrep as (Hsnap & Hbpf & Hrs).
  apply xwp_bind. eapply xwp_mono; [apply apply_defaults_spec|].
  destruct (pool_set (put_map (pair m3) idx sm) m3) as [Hpo Htx].
  intros [e|to] m5 Hr; cbn [on_ok].
  { destruct Hr as (A2 & R2 & Ht5 & Hr). split; [by eapply stage_tx|].
    destruct Hr as [[_ []]|(-> & Hf & Hl2)].
    apply step_free_length in Ht3, Ht5. rewrite Hf in Ht5.
    change (m_pool m4) with (m_pool (set_pair (put_map (pair m3) idx sm) m3)) in Ht5.
    rewrite Hpo in Ht5. rewrite Ht5 in Ht3.
    eapply (exhausted_refused m); [done|exact Ht3|cbn; lia|lia]. }
  destruct Hr as (A2 & R2 & Ht5 & Hl2 & Hb2 & Happ).
  pose proof (stage_tx _ _ _ _ _ Hs4 Ht5) as Hs5.
  assert (Hpk : pick (pair m5) idx = sm).
  { rewrite (ts_eq _ _ _ _ Ht5), pair_pool. unfold m4. rewrite pair_calls, pair_set.
    by apply pick_put. }
  eapply xwp_mono; [apply (upload_commit_spec m m5)|]; [done| |].
  - rewrite <- Hsnap in Hsz, Hbal. apply (commit_ok m m5 sm to A A2 R' R2); try done.
    + rewrite (ts_alloc _ _ _ _ Ht5). change (m_tx m4) with (m_tx (set_pair (put_map (pair m3) idx sm) m3)).
      by rewrite Htx, (ts_alloc _ _ _ _ Ht3).
    + rewrite (ts_rel _ _ _ _ Ht5). change (m_tx m4) with (m_tx (set_pair (put_map (pair m3) idx sm) m3)).
      by rewrite Htx, (ts_rel _ _ _ _ Ht3).
  - intros [e|[]] m' Hr.
    + destruct Hr as [? ?]. split; [done|by left].
    + destruct Hr as (Hi' & n' & p & ->). split; [done|].
      exists n', p, sm, to. cbv zeta. fold idx. split_and!; [|by rewrite Hbpf|done|done].
      rewrite (ts_eq _ _ _ _ Ht5). unfold m4. rewrite (ts_eq _ _ _ _ Ht3).
      rewrite !pair_pool, !set_pair_pool. done.
Qed.

Lemma set_rules_spec rs ds d m :
  mgr_inv m ->
  xwp (set_rules rs ds d) (outcome_e m (refused max (rs ≫= keys))
    (fun _ m' => installed rs ds d m m')) m.
Proof.
  intros Hi. apply xwp_bind. eapply xwp_mono; [apply get_config_spec|].
  pose proof (stage_calls _ _ (S (m_calls m)) (stage_refl m Hi)) as Hs.
  destruct (stage_done m _ Hi Hs (iv_tx m Hi)) as [Hi1 Hv1].
  intros [e|c] m1 (-> & Hc); cbn [on_ok].
  { split_and!; try done. by left. }
  subst c. set (m1 := set_m_calls (S (m_calls m)) m) in *.
  apply xwp_bind, xwp_get. cbn [on_ok]. apply xwp_bind. unfold xwp at 1.
  rewrite get_maps_pick by (by apply amap_ok, Hi). cbn [fst snd on_ok]. cbv zeta.
  eapply xwp_mono; [apply (tx_scope_spec _ m1 (refused max (rs ≫= keys))
    (fun _ => installed rs ds d m1)); [exact Hi1|]|]; cycle 1.
  { intros [e|a] m' [Hi' Ho]; (split; [done|]); [by rewrite <- Hv1|].
    destruct Ho as (n & p & sm & to & -> & Ho). exists n, p, sm, to. split; [|done].
    unfold m1. by rewrite pair_calls, set_pair_calls. }
  apply build_phase.
  { intros e m' (A & R' & Ht) Hnb Hor. split; [by eapply stage_tx; [apply stage_start|]|].
    destruct Hor as [-> |]; [|done]. destruct (Hnb eq_refl) as (A' & R2 & Ht' & Hf & Hl).
    apply step_free_length in Ht'. rewrite Hf in Ht'.
    eapply (exhausted_refused m1); [done|exact Ht'|cbn; lia|lia]. }
  intros nr m3 (A & R' & Ht3 & Hbal & HlenA & Hru & Hnd & Hsz).
  change (m_cfg m) with (m_cfg m1) in *. by eapply install_spec.
Qed.
End family.

(** *** ICMP rules *)

Definition icmp_base (it : string * IcmpRule) : XfwActionRule :=
  XfwActionRule_of (ir_isAllowed it.2) (ir_ratelimit_index it.2).

Definition icmp_installed : IcmpRules -> Defaults -> Mgr -> Mgr -> Prop :=
  fun rs ds => installed m_icmp set_m_icmp amap_icmp with_amap_icmp
    (fun it => icmp_keys it.2) icmp_base icmp_indices rs ds XFW_ACTION_ALLOW.

Lemma icmp_commit m0 m sm to A A2 R R2 :
  let idx := next_map_idx (amap_icmp (m_cfg m0)) in
  mgr_inv m0 -> stage m0 m -> pick (m_icmp m) idx = sm -> resync_required sm = false ->
  Z.of_nat (size (snapshot sm)) <= XFW_MAX_ICMP_RULES ->
  tx_allocated (m_tx m) = A ++ A2 -> tx_released (m_tx m) = R ++ R2 ->
  map_buckets (snapshot sm) ++ R ≡ₚ map_buckets (icmp_in_force m0) ++ A ->
  default_buckets to ++ R2 ≡ₚ default_buckets (rc_defaults (rules (m_cfg m0))) ++ A2 ->
  committable m0 m
    (with_rules_cfg (with_defaults to (rules (m_cfg m0))) (with_amap_icmp idx (m_cfg m0))).
Proof.
  intros idx Hi Hs Hpk Hrs Hsz HA HR Hb Hd. set (c' := with_rules_cfg _ _).
  destruct (stage_selected m0 m c' Hi Hs) as (Q1 & _ & Q3 & Q4).
  destruct (Q3 eq_refl) as [Q3' Q3''].
  assert (Hnew : icmp_in_force (set_m_cfg c' m) = snapshot sm) by (rewrite <- Hpk; done).
  destruct (iv_cfg m0 Hi), (iv_idx m0 Hi). split.
  - by split.
  - split; try done. apply next_idx_ok.
  - split; [by apply Q1| |done|by apply Q4]. cbn. fold idx. by rewrite Hpk.
  - by rewrite Hnew.
  - rewrite Q3''. apply Hi.
  - rewrite HA, HR. unfold owned. rewrite Hnew, Q3''.
    pose proof (exchange _ _ _ _ _ _ _ _ (map_buckets (dst_in_force m0)
      ++ flag_buckets (rc_tcp_flags (rules (m_cfg m0)))) Hb Hd) as He.
    change (rc_defaults (rules (m_cfg (set_m_cfg c' m)))) with to.
    change (rc_tcp_flags (rules (m_cfg (set_m_cfg c' m)))) with (rc_tcp_flags (rules (m_cfg m0))).
    etrans; [|etrans; [exact He|]]; solve_Permutation.
Qed.

Lemma set_icmp_rules_spec rs ds m :
  mgr_inv m ->
  xwp (set_icmp_rules rs ds) (outcome_e m
    (refused XFW_MAX_ICMP_RULES (rs ≫= (fun it => icmp_keys it.2)))
    (fun _ m' => icmp_installed rs ds m m')) m.
Proof.
  intros Hi. apply (set_rules_spec m_icmp set_m_icmp amap_icmp with_amap_icmp
    (fun it => icmp_keys it.2) icmp_base XFW_MAX_ICMP_RULES icmp_indices); try done.
  - by intros c [].
  - by intros m1 [].
  - intros m0 m1 sm [Sc Ss Si Sd Sn [] Sp] Hx Hsm. split; try done.
    + etrans; [|exact Si]. by apply pick_put.
    + split; try done. by apply put_both.
  - exact icmp_commit.
  - intros Hr. by apply KE_map, MR_icmp.
  - cbn. lia.
Qed.

(** *** Destination rules *)

Definition dst_base (it : string * NetIp) : XfwActionRule :=
  XfwActionRule_of (isAllowed (ni_flags it.2)) (ni_ratelimit_index it.2).

(** What is not listed is blocked as soon as there is a rule. *)
Definition dst_default (rs : NetIps) : Z :=
  if decide (rs = []) then XFW_ACTION_ALLOW else XFW_ACTION_BLOCK.

Definition dst_installed : NetIps -> Defaults -> Mgr -> Mgr -> Prop :=
  fun rs ds => installed m_dst set_m_dst amap_dst with_amap_dst
    (fun it => dst_keys it.2) dst_base dst_indices rs ds (dst_default rs).

Lemma dst_commit m0 m sm to A A2 R R2 :
  let idx := next_map_idx (amap_dst (m_cfg m0)) in
  mgr_inv m0 -> stage m0 m -> pick (m_dst m) idx = sm -> resync_required sm = false ->
  Z.of_nat (size (snapshot sm)) <= XFW_MAX_DST_RULES ->
  tx_allocated (m_tx m) = A ++ A2 -> tx_released (m_tx m) = R ++ R2 ->
  map_buckets (snapshot sm) ++ R ≡ₚ map_buckets (dst_in_force m0) ++ A ->
  default_buckets to ++ R2 ≡ₚ default_buckets (rc_defaults (rules (m_cfg m0))) ++ A2 ->
  committable m0 m
    (with_rules_cfg (with_defaults to (rules (m_cfg m0))) (with_amap_dst idx (m_cfg m0))).
Proof.
  intros idx Hi Hs Hpk Hrs Hsz HA HR Hb Hd. set (c' := with_rules_cfg _ _).
  destruct (stage_selected m0 m c' Hi Hs) as (Q1 & Q2 & _ & Q4).
  destruct (Q2 eq_refl) as [Q2' Q2''].
  assert (Hnew : dst_in_force (set_m_cfg c' m) = snapshot sm) by (rewrite <- Hpk; done).
  destruct (iv_cfg m0 Hi), (iv_idx m0 Hi). split.
  - by split.
  - split; try done. apply next_idx_ok.
  - split; [by apply Q1|done| |by apply Q4]. cbn. fold idx. by rewrite Hpk.
  - rewrite Q2''. apply Hi.
  - by rewrite Hnew.
  - rewrite HA, HR. unfold owned. rewrite Hnew, Q2''.
    pose proof (exchange _ _ _ _ _ _ _ _ (map_buckets (icmp_in_force m0)
      ++ flag_buckets (rc_tcp_flags (rules (m_cfg m0)))) Hb Hd) as He.
    change (rc_defaults (rules (m_cfg (set_m_cfg c' m)))) with to.
    change (rc_tcp_flags (rules (m_cfg (set_m_cfg c' m)))) with (rc_tcp_flags (rules (m_cfg m0))).
    etrans; [|etrans; [exact He|]]; solve_Permutation.
Qed.

Lemma set_dst_rules_spec rs ds m :
  mgr_inv m ->
  xwp (set_dst_rules rs ds) (outcome_e m
    (refused XFW_MAX_DST_RULES (rs ≫= (fun it => dst_keys it.2)))
    (fun _ m' => dst_installed rs ds m m')) m.
Proof.
  intros Hi. apply (set_rules_spec m_dst set_m_dst amap_dst with_amap_dst
    (fun it => dst_keys it.2) dst_base XFW_MAX_DST_RULES dst_indices); try done.
  - by intros c [].
  - by intros m1 [].
  - intros m0 m1 sm [Sc Ss Si Sd Sn [] Sp] Hx Hsm. split; try done.
    + etrans; [|exact Sd]. by apply pick_put.
    + split; try done. by apply put_both.
  - exact dst_commit.
  - intros Hr. by apply KE_map, MR_dst.
  - cbn. lia.
Qed.
End ops.
