(* ===== verification/ManagerSrc.v ===== *)
(** * ManagerSrc: source rules and protected networks

    [set_src_rules] and [set_prot_net_settings] of
    src/manager/xfw/maps_manager.cc. Both fill several maps from one rule set:
    the contents of every map is described as one list of entries of which the
    first entry of a key counts, so that a rule written by the user comes before
    a rule from the geo database. *)

From stdpp Require Import strings.
From S2P Require Import Prelude.
From S2P Require Import Enums.
From S2P Require Import Uapi.
From S2P Require Import Ctx.
From S2P Require Import Bitset.
From S2P Require Import IndexPool.
From S2P Require Import ShadowMap.
From S2P Require Import Config.
From S2P Require Import MapsManager.
From S2P Require Import ManagerSpec.
From S2P Require Import ManagerOps.

(** ** Filling a map *)

Section emplace.
Context {K V : Type} `{Countable K}.

Definition with_rule (r : V) (ks : list K) : list (K * V) := (fun k => (k, r)) <$> ks.

Lemma with_rule_keys r ks : (with_rule r ks).*1 = ks.
Proof. unfold with_rule. rewrite <- list_fmap_compose. by apply list_fmap_id. Qed.

Lemma lookup_entries_None (E : list (K * V)) k :
  (list_to_map E : gmap K V) !! k = None <-> k ∉ E.*1.
Proof. symmetry. apply not_elem_of_list_to_map. Qed.

(** A new last entry counts only if its key is new. *)
Lemma entries_snoc (E : list (K * V)) k r :
  (list_to_map (E ++ [(k, r)]) : gmap K V)
  = match (list_to_map E : gmap K V) !! k with
    | None => <[k := r]> (list_to_map E)
    | Some _ => list_to_map E
    end.
Proof.
  rewrite list_to_map_app. cbn. rewrite insert_empty.
  destruct ((list_to_map E : gmap K V) !! k) as [v|] eqn:Hk.
  - apply map_eq. intros k'. rewrite lookup_union.
    destruct (decide (k' = k)) as [->|].
    + by rewrite Hk, lookup_singleton_eq.
    + by rewrite lookup_singleton_ne, (right_id_L None (∪)) by done.
  - apply map_eq. intros k'. rewrite lookup_union.
    destruct (decide (k' = k)) as [->|].
    + by rewrite Hk, lookup_singleton_eq, lookup_insert_eq.
    + by rewrite lookup_singleton_ne, lookup_insert_ne, (right_id_L None (∪)) by done.
Qed.

Lemma emplace_geo_entries ks (r : V) (E : list (K * V)) :
  emplace_geo ks r (list_to_map E) = (list_to_map (E ++ with_rule r ks) : gmap K V).
Proof.
  revert E. induction ks as [|k ks IH]; intros E; cbn; [by rewrite app_nil_r|].
  rewrite <- entries_snoc. fold (emplace_geo ks r (list_to_map (E ++ [(k, r)]) : gmap K V)).
  rewrite IH. by rewrite <- app_assoc.
Qed.

Lemma emplace_user_entries ks (r : V) (E : list (K * V)) m :
  NoDup E.*1 ->
  xwp (emplace_user ks r (list_to_map E)) (fun res m' => m' = m /\ match res with
    | inl e => e = ERR_DUPLICATE /\ ~ NoDup (E.*1 ++ ks)
    | inr s => s = list_to_map (E ++ with_rule r ks) /\ NoDup (E ++ with_rule r ks).*1
    end) m.
Proof.
  revert E. induction ks as [|k ks IH]; intros E HE.
  - apply xwp_ret. by rewrite app_nil_r.
  - unfold emplace_user. cbn [xfoldl]. apply xwp_bind.
    destruct ((list_to_map E : gmap K V) !! k) as [v|] eqn:Hk.
    + apply xwp_throw. cbn [on_ok]. split_and!; try done. intros Hnd.
      assert (k ∈ E.*1) as Hin.
      { destruct (decide (k ∈ E.*1)) as [|Hn]; [done|]. apply lookup_entries_None in Hn. congruence. }
      apply list.NoDup_app in Hnd as (_ & Hd & _). apply (Hd k Hin). set_solver.
    + apply xwp_ret. cbn [on_ok].
      pose proof (entries_snoc E k r) as Hs. rewrite Hk in Hs. rewrite <- Hs.
      apply lookup_entries_None in Hk.
      eapply xwp_mono; [apply (IH (E ++ [(k, r)]))|].
      * rewrite fmap_app. apply list.NoDup_app. split_and!; [done|set_solver|apply NoDup_singleton].
      * intros [e|s] m' [-> Hr]; (split; [done|]).
        -- destruct Hr as [-> Hr]. split; [done|]. by rewrite fmap_app, <- app_assoc in Hr.
        -- by rewrite <- app_assoc in Hr.
Qed.
End emplace.

(** ** The entries of a rule set *)

Section entries.
Context {K V : Type} (sel : NetIp -> bool) (keys : NetIp -> list K) (val : NetIp -> V).

(** The keys of the selected rules, each with the value of its rule. *)
Definition rule_entries (rs : NetIps) : list (K * V) :=
  rs ≫= fun it => if sel it.2 then with_rule (val it.2) (keys it.2) else [].

Lemma rule_entries_snoc rs it :
  rule_entries (rs ++ [it])
  = rule_entries rs ++ if sel it.2 then with_rule (val it.2) (keys it.2) else [].
Proof. unfold rule_entries. rewrite bind_app. cbn. by rewrite app_nil_r. Qed.

Lemma rule_entries_NoDup_app rs rs' :
  NoDup (rule_entries (rs ++ rs')).*1 -> NoDup (rule_entries rs).*1.
Proof.
  unfold rule_entries. rewrite bind_app, fmap_app. by intros (? & _)%list.NoDup_app.
Qed.
End entries.

Definition net_rule (ip : NetIp) : XfwSrcRule :=
  XfwSrcRule_of (isAllowed (ni_flags ip)) (ni_ratelimit_index ip).
Definition is_tcp (ip : NetIp) : bool := isTcp (ni_flags ip).
Definition is_udp (ip : NetIp) : bool := negb (isTcp (ni_flags ip)).
Definition user4 (ip : NetIp) : list XfwIpv4LpmKey := map lpm4_key (ni_net4s ip).
Definition user6 (ip : NetIp) : list XfwIpv6LpmKey := map lpm6_key (ni_net6s ip).
Definition geo4 (ip : NetIp) : list XfwIpv4LpmKey :=
  ni_nets ip ≫= fun net => map lpm4_key (geo_net4s net).
Definition geo6 (ip : NetIp) : list XfwIpv6LpmKey :=
  ni_nets ip ≫= fun net => map lpm6_key (geo_net6s net).

(** The six maps of a rule set: user rules first, then geo rules. *)
Definition src_entries {K} (sel : NetIp -> bool) (user geo : NetIp -> list K)
    (rs gs : NetIps) : list (K * XfwSrcRule) :=
  rule_entries sel user net_rule rs ++ rule_entries sel geo net_rule gs.

Definition src_snapshots (rs gs : NetIps) : SrcSnapshots :=
  mkSrcSnapshots
    (list_to_map (src_entries is_udp user4 geo4 rs gs))
    (list_to_map (src_entries is_tcp user4 geo4 rs gs))
    (list_to_map (src_entries is_udp user6 geo6 rs gs))
    (list_to_map (src_entries is_tcp user6 geo6 rs gs))
    (list_to_map (rule_entries is_udp ni_ports net_rule rs))
    (list_to_map (rule_entries is_tcp ni_ports net_rule rs)).

(** No key is given twice by the user. *)
Definition src_nodup (rs : NetIps) : Prop :=
  NoDup (rule_entries is_udp user4 net_rule rs).*1
  /\ NoDup (rule_entries is_tcp user4 net_rule rs).*1
  /\ NoDup (rule_entries is_udp user6 net_rule rs).*1
  /\ NoDup (rule_entries is_tcp user6 net_rule rs).*1
  /\ NoDup (rule_entries is_udp ni_ports net_rule rs).*1
  /\ NoDup (rule_entries is_tcp ni_ports net_rule rs).*1.

Lemma src_nodup_app rs rs' : src_nodup (rs ++ rs') -> src_nodup rs.
Proof.
  intros (H1 & H2 & H3 & H4 & H5 & H6).
  repeat split; by eapply rule_entries_NoDup_app.
Qed.

(** One map of a rule. *)
Lemma emplace_rule_spec {K V B} `{Countable K} (sel : NetIp -> bool) (keys : NetIp -> list K)
    (val : NetIp -> V) rs (it : string * NetIp) (k : gmap K V -> X B) Q m :
  sel it.2 = true -> NoDup (rule_entries sel keys val rs).*1 ->
  (~ NoDup (rule_entries sel keys val (rs ++ [it])).*1 -> Q (inl ERR_DUPLICATE) m) ->
  (NoDup (rule_entries sel keys val (rs ++ [it])).*1 ->
     xwp (k (list_to_map (rule_entries sel keys val (rs ++ [it])))) Q m) ->
  xwp (let! s := emplace_user (keys it.2) (val it.2)
         (list_to_map (rule_entries sel keys val rs)) in k s) Q m.
Proof.
  intros Hs Hnd He Hk. apply xwp_bind. eapply xwp_mono; [by apply emplace_user_entries|].
  rewrite rule_entries_snoc, Hs in He, Hk.
  intros [e|s] m' [-> Hr]; cbn [on_ok].
  - destruct Hr as [-> Hr]. apply He. by rewrite fmap_app, with_rule_keys.
  - destruct Hr as [-> Hr]. by apply Hk.
Qed.

Lemma rule_entries_skip {K V} (sel : NetIp -> bool) (keys : NetIp -> list K) (val : NetIp -> V)
    rs it :
  sel it.2 = false -> rule_entries sel keys val (rs ++ [it]) = rule_entries sel keys val rs.
Proof. intros Hs. by rewrite rule_entries_snoc, Hs, app_nil_r. Qed.

Lemma src_snapshots_nil rs :
  src_snapshots rs []
  = mkSrcSnapshots
      (list_to_map (rule_entries is_udp user4 net_rule rs))
      (list_to_map (rule_entries is_tcp user4 net_rule rs))
      (list_to_map (rule_entries is_udp user6 net_rule rs))
      (list_to_map (rule_entries is_tcp user6 net_rule rs))
      (list_to_map (rule_entries is_udp ni_ports net_rule rs))
      (list_to_map (rule_entries is_tcp ni_ports net_rule rs)).
Proof. unfold src_snapshots, src_entries. cbn. by rewrite !app_nil_r. Qed.

Lemma add_user_rule_spec rs it m :
  src_nodup rs ->
  xwp (add_user_rule (src_snapshots rs []) it) (fun res m' => m' = m /\ match res with
    | inl e => e = ERR_DUPLICATE /\ ~ src_nodup (rs ++ [it])
    | inr s => s = src_snapshots (rs ++ [it]) [] /\ src_nodup (rs ++ [it])
    end) m.
Proof.
  intros (N1 & N2 & N3 & N4 & N5 & N6). rewrite !src_snapshots_nil. unfold add_user_rule.
  cbn [rules4_udp rules4_tcp rules6_udp rules6_tcp port_rules_udp port_rules_tcp].
  fold (net_rule it.2) (user4 it.2) (user6 it.2).
  destruct (isTcp (ni_flags it.2)) eqn:Ht.
  - assert (is_tcp it.2 = true) as Hs by done.
    assert (is_udp it.2 = false) as Hn by (unfold is_udp; by rewrite Ht).
    apply (emplace_rule_spec is_tcp user4 net_rule); [done..| |].
    { intros Hd. split_and!; [done..|]. by intros (_ & ? & _). }
    intros M1. apply (emplace_rule_spec is_tcp user6 net_rule); [done..| |].
    { intros Hd. split_and!; [done..|]. by intros (_ & _ & _ & ? & _). }
    intros M2. apply (emplace_rule_spec is_tcp ni_ports net_rule); [done..| |].
    { intros Hd. split_and!; [done..|]. by intros (_ & _ & _ & _ & _ & ?). }
    intros M3. apply xwp_ret. unfold src_nodup. rewrite !(rule_entries_skip is_udp) by done.
    by split_and!.
  - assert (is_tcp it.2 = false) as Hn by done.
    assert (is_udp it.2 = true) as Hs by (unfold is_udp; by rewrite Ht).
    apply (emplace_rule_spec is_udp user4 net_rule); [done..| |].
    { intros Hd. split_and!; [done..|]. by intros (? & _). }
    intros M1. apply (emplace_rule_spec is_udp user6 net_rule); [done..| |].
    { intros Hd. split_and!; [done..|]. by intros (_ & _ & ? & _). }
    intros M2. apply (emplace_rule_spec is_udp ni_ports net_rule); [done..| |].
    { intros Hd. split_and!; [done..|]. by intros (_ & _ & _ & _ & ? & _). }
    intros M3. apply xwp_ret. unfold src_nodup. rewrite !(rule_entries_skip is_tcp) by done.
    by split_and!.
Qed.

(** Geo rules fill the gaps. *)
Lemma emplace_geo_nets {K} `{Countable K} (keys : NetGeo -> list K) (r : XfwSrcRule) nets E :
  foldl (fun m net => emplace_geo (keys net) r m) (list_to_map E) nets
  = (list_to_map (E ++ with_rule r (nets ≫= keys)) : gmap K XfwSrcRule).
Proof.
  revert E. induction nets as [|net nets IH]; intros E; cbn; [by rewrite app_nil_r|].
  rewrite emplace_geo_entries, IH. unfold with_rule. by rewrite fmap_app, app_assoc.
Qed.

Lemma src_entries_snoc {K} (sel : NetIp -> bool) (user geo : NetIp -> list K) rs gs it :
  src_entries sel user geo rs (gs ++ [it])
  = src_entries sel user geo rs gs ++ if sel it.2 then with_rule (net_rule it.2) (geo it.2) else [].
Proof. unfold src_entries. by rewrite rule_entries_snoc, app_assoc. Qed.

Lemma add_geo_rule_spec rs gs it :
  add_geo_rule (src_snapshots rs gs) it = src_snapshots rs (gs ++ [it]).
Proof.
  unfold add_geo_rule. fold (net_rule it.2).
  assert (Hgen : forall nets s,
    foldl (fun s net =>
      let k4 := map lpm4_key (geo_net4s net) in
      let k6 := map lpm6_key (geo_net6s net) in
      if isTcp (ni_flags it.2) then
        mkSrcSnapshots (rules4_udp s) (emplace_geo k4 (net_rule it.2) (rules4_tcp s)) (rules6_udp s)
          (emplace_geo k6 (net_rule it.2) (rules6_tcp s)) (port_rules_udp s) (port_rules_tcp s)
      else
        mkSrcSnapshots (emplace_geo k4 (net_rule it.2) (rules4_udp s)) (rules4_tcp s)
          (emplace_geo k6 (net_rule it.2) (rules6_udp s)) (rules6_tcp s) (port_rules_udp s)
          (port_rules_tcp s)) s nets
    = let f4 := fun m => foldl (fun m net => emplace_geo (map lpm4_key (geo_net4s net)) (net_rule it.2) m) m nets in
      let f6 := fun m => foldl (fun m net => emplace_geo (map lpm6_key (geo_net6s net)) (net_rule it.2) m) m nets in
      if isTcp (ni_flags it.2) then
        mkSrcSnapshots (rules4_udp s) (f4 (rules4_tcp s)) (rules6_udp s) (f6 (rules6_tcp s))
          (port_rules_udp s) (port_rules_tcp s)
      else
        mkSrcSnapshots (f4 (rules4_udp s)) (rules4_tcp s) (f6 (rules6_udp s)) (rules6_tcp s)
          (port_rules_udp s) (port_rules_tcp s)).
  { induction nets as [|net nets IH]; intros s; cbn [foldl].
    - by destruct s, (isTcp (ni_flags it.2)).
    - rewrite IH. by destruct (isTcp (ni_flags it.2)). }
  rewrite Hgen. cbv zeta. unfold src_snapshots.
  cbn [rules4_udp rules4_tcp rules6_udp rules6_tcp port_rules_udp port_rules_tcp].
  rewrite !src_entries_snoc, !emplace_geo_nets. unfold is_tcp, is_udp.
  destruct (isTcp (ni_flags it.2)); cbn [negb]; by rewrite !app_nil_r.
Qed.

Lemma build_src_snapshots_spec rs m :
  xwp (build_src_snapshots rs) (fun res m' => m' = m /\ match res with
    | inl e => e = ERR_DUPLICATE /\ ~ src_nodup rs
    | inr s => s = src_snapshots rs rs /\ src_nodup rs
    end) m.
Proof.
  unfold build_src_snapshots. apply xwp_bind.
  change (mkSrcSnapshots ∅ ∅ ∅ ∅ ∅ ∅) with (src_snapshots [] []).
  eapply xwp_mono; [apply (xwp_foldl _ (fun s done m' => m' = m
    /\ s = src_snapshots done [] /\ src_nodup done)
    (fun e m' => m' = m /\ e = ERR_DUPLICATE /\ ~ src_nodup rs))|].
  - split_and!; [done..|]. repeat split; apply NoDup_nil_2.
  - intros s done it rest m1 Hl (-> & -> & Hnd).
    eapply xwp_mono; [by apply add_user_rule_spec|].
    intros [e|s'] m' [-> Hr]; [|done]. destruct Hr as [-> Hr]. split_and!; [done..|].
    intros Ha. apply Hr. rewrite Hl in Ha. apply (src_nodup_app _ rest). by rewrite <- app_assoc.
  - intros [e|s] m' Hr; cbn [on_ok]; [by destruct Hr as (-> & Hr)|].
    destruct Hr as (-> & -> & Hnd). apply xwp_ret. split_and!; [done| |done].
    assert (Hg : forall l gs, foldl add_geo_rule (src_snapshots rs gs) l = src_snapshots rs (gs ++ l)).
    { induction l as [|it l IH]; intros gs; cbn; [by rewrite app_nil_r|].
      rewrite add_geo_rule_spec, IH. by rewrite <- app_assoc. }
    apply (Hg rs []).
Qed.

(** ** Replacing the maps of a group one after the other *)

(** A map after a successful replacement. *)
Definition holds_rules {K V} `{Countable K} (sm : ShadowMap K V) (new : gmap K V) : Prop :=
  snapshot sm = new /\ bpf_map sm = new /\ resync_required sm = false.

Section group.
Context `{MgrKernelSpec}.
Context {T : Type} (pair : Mgr -> ShadowPair T) (set_pair : ShadowPair T -> Mgr -> Mgr).
Hypothesis pair_calls : forall n m, pair (set_m_calls n m) = pair m.
Hypothesis pair_set : forall p m, pair (set_pair p m) = p.
Hypothesis set_set : forall p q m, set_pair p (set_pair q m) = set_pair p m.
Hypothesis set_calls : forall p n m, set_m_calls n (set_pair p m) = set_pair p (set_m_calls n m).

(** The manager [m] with the group [t] at the index [idx], after system calls. *)
Definition with_group (m : Mgr) (idx : Z) (t : T) (n : nat) : Mgr :=
  set_pair (put_map (pair m) idx t) (set_m_calls n m).

Lemma put_put (p : ShadowPair T) i x y : put_map (put_map p i x) i y = put_map p i y.
Proof. unfold put_map. by destruct (i =? _). Qed.

Lemma put_pick (p : ShadowPair T) i : put_map p i (pick p i) = p.
Proof. unfold put_map, pick. destruct p. by destruct (i =? _). Qed.

Lemma pick_put_same (p : ShadowPair T) i x : pick (put_map p i x) i = x.
Proof. unfold put_map, pick. by destruct (i =? _). Qed.

Lemma replace_member {K V B} `{Countable K} `{!EqDecision V} m idx t n
    (get : T -> ShadowMap K V) (put : ShadowMap K V -> T -> T) new (k : X B) Q :
  shadow_ok (get t) ->
  (forall n' sm, shadow_ok sm -> (forall b, Z.of_nat (size new) <= b -> refuses K V b) ->
     Q (inl ERR_BPF_UPDATE) (with_group m idx (put sm t) n')) ->
  (forall n' sm, shadow_ok sm -> holds_rules sm new ->
     xwp k Q (with_group m idx (put sm t) n')) ->
  xwp (replace_map (fun m => get (pick (pair m) idx))
         (fun sm m => set_pair (put_map (pair m) idx (put sm (pick (pair m) idx))) m) new ;! k) Q
      (with_group m idx t n).
Proof.
  intros Hok He Hk.
  assert (Hp : pick (pair (with_group m idx t n)) idx = t).
  { unfold with_group. by rewrite pair_set, pick_put_same. }
  apply xwp_bind. eapply xwp_mono; [apply replace_map_spec|].
  { by rewrite Hp. }
  intros r m' (ok & n' & sm & -> & Hrep & Hsm & Hrf & ->).
  assert (forall x, set_pair (put_map (pair (set_m_calls n' (with_group m idx t n))) idx x)
    (set_m_calls n' (with_group m idx t n)) = with_group m idx x n') as Hw.
  { intros x. unfold with_group. by rewrite set_calls, set_set, pair_set, put_put. }
  rewrite Hw, pair_calls, Hp. destruct ok; cbn [on_ok].
  - by apply Hk.
  - apply He; [done|by apply Hrf].
Qed.
End group.

(** ** Source rules *)

Section ops.
Context (hz : Z) `{MgrKernelSpec}.

Definition src_holds (t : SrcMaps) (s : SrcSnapshots) : Prop :=
  bpf_map (v4_udp t) = rules4_udp s /\ bpf_map (v4_tcp t) = rules4_tcp s
  /\ bpf_map (v6_udp t) = rules6_udp s /\ bpf_map (v6_tcp t) = rules6_tcp s
  /\ bpf_map (port_udp t) = port_rules_udp s /\ bpf_map (port_tcp t) = port_rules_tcp s.

Definition src_fits (s : SrcSnapshots) : bool :=
  fits (rules4_udp s) XFW_MAX_SRC_IP_RULES && fits (rules4_tcp s) XFW_MAX_SRC_IP_RULES
  && fits (rules6_udp s) XFW_MAX_SRC_IP_RULES && fits (rules6_tcp s) XFW_MAX_SRC_IP_RULES
  && fits (port_rules_udp s) XFW_MAX_PORTS && fits (port_rules_tcp s) XFW_MAX_PORTS.

(** Why source rules may be refused. *)
Definition src_refused (rs : NetIps) (e : MgrError) : Prop :=
  kernel_error e \/ (e = ERR_DUPLICATE /\ ~ src_nodup rs)
  \/ (e = ERR_LIMIT /\ src_fits (src_snapshots rs rs) = false).

(** The state after the source rules were replaced. *)
Definition src_installed (rs : NetIps) (ds : Defaults) (m m' : Mgr) : Prop :=
  exists n p t to,
    let cfg := m_cfg m in let idx := next_map_idx (amap_src cfg) in
    m' = set_m_pool p tx_empty (set_m_calls n (set_m_cfg
           (with_rules_cfg (with_defaults to (rules cfg)) (with_amap_src idx cfg))
           (set_m_src (put_map (m_src m) idx t) m)))
    /\ src_holds t (src_snapshots rs rs)
    /\ defaults_applied ds src_indices XFW_ACTION_ALLOW (rc_defaults (rules cfg)) to.

Abbreviation src_group := (with_group m_src set_m_src).

(** Writing the inactive group leaves the operation under way. *)
Lemma stage_src m0 m t n :
  let idx := next_map_idx (amap_src (m_cfg m0)) in
  mgr_inv m0 -> stage m0 m -> src_forall ok_map t -> stage m0 (src_group m idx t n).
Proof.
  intros idx Hi [Sc Ss Si Sd Sn [] Sp] Ht. split; try done.
  - etrans; [|exact Ss]. apply pick_put. apply Hi.
  - split; try done. by apply put_both.
Qed.

Lemma src_commit m0 m t to A R :
  let idx := next_map_idx (amap_src (m_cfg m0)) in
  mgr_inv m0 -> stage m0 m -> pick (m_src m) idx = t -> src_forall synced_map t ->
  tx_allocated (m_tx m) = A -> tx_released (m_tx m) = R ->
  default_buckets to ++ R ≡ₚ default_buckets (rc_defaults (rules (m_cfg m0))) ++ A ->
  committable m0 m
    (with_rules_cfg (with_defaults to (rules (m_cfg m0))) (with_amap_src idx (m_cfg m0))).
Proof.
  intros idx Hi Hs Hpk Hsy HA HR Hd. set (c' := with_rules_cfg _ _).
  destruct (stage_selected m0 m c' Hi Hs) as (_ & Q2 & Q3 & Q4).
  destruct (Q2 eq_refl) as [Q2' Q2'']. destruct (Q3 eq_refl) as [Q3' Q3''].
  destruct (iv_cfg m0 Hi), (iv_idx m0 Hi). split.
  - by split.
  - split; try done. apply next_idx_ok.
  - split; [|done|done|by apply Q4]. cbn. fold idx. by rewrite Hpk.
  - rewrite Q2''. apply Hi.
  - rewrite Q3''. apply Hi.
  - rewrite HA, HR. unfold owned. rewrite Q2'', Q3''.
    change (rc_defaults (rules (m_cfg (set_m_cfg c' m)))) with to.
    change (rc_tcp_flags (rules (m_cfg (set_m_cfg c' m)))) with (rc_tcp_flags (rules (m_cfg m0))).
    set (D := default_buckets (rc_defaults (rules (m_cfg m0)))) in *.
    transitivity ((D ++ A) ++ map_buckets (icmp_in_force m0) ++ map_buckets (dst_in_force m0)
      ++ flag_buckets (rc_tcp_flags (rules (m_cfg m0)))); [solve_Permutation|].
    rewrite <- Hd. solve_Permutation.
Qed.

(** The last phase: defaults and the switch of the maps. *)
Lemma src_switch_spec rs ds m n t :
  let idx := next_map_idx (amap_src (m_cfg m)) in
  mgr_inv m -> src_forall ok_map t -> src_forall synced_map t ->
  src_holds t (src_snapshots rs rs) ->
  xwp (tx_scope (
    let! to := apply_defaults ds src_indices XFW_ACTION_ALLOW (rc_defaults (rules (m_cfg m))) in
    upload_config_changes
      (with_rules_cfg (with_defaults to (rules (m_cfg m))) (with_amap_src idx (m_cfg m))) true))
    (outcome_e m (src_refused rs) (fun _ => src_installed rs ds m)) (src_group m idx t n).
Proof.
  intros idx Hi Hok Hsy Hh. set (m1 := src_group m idx t n).
  pose proof (stage_src m m t n Hi (stage_refl m Hi) Hok) as Hs. fold idx m1 in Hs.
  destruct (stage_done m m1 Hi Hs (iv_tx m Hi)) as [Hi1 Hv1].
  eapply xwp_mono; [apply (tx_scope_spec _ m1 (src_refused rs)
    (fun _ => src_installed rs ds m)); [done|]|]; cycle 1.
  { intros [e|a] m' [Hi' Ho]; (split; [done|]); [by rewrite <- Hv1|done]. }
  pose proof (stage_start m1 Hi1) as Hs1.
  apply xwp_bind. eapply xwp_mono; [apply apply_defaults_spec|].
  intros [e|to] m2 Hr; cbn [on_ok].
  { destruct Hr as (A & R & Ht & Hr). split; [by eapply stage_tx|].
    destruct Hr as [[_ []]|(-> & Hf & Hl)]. exfalso.
    pose proof (tx_not_exhausted m1 _ _ _ Hi1 Ht Hf). cbn in Hl. lia. }
  destruct Hr as (A & R & Ht & Hl & Hb & Happ).
  pose proof (stage_tx _ _ _ _ _ Hs1 Ht) as Hs2.
  eapply xwp_mono; [apply (upload_commit_spec m1 m2)|]; [done| |].
  - apply (src_commit m1 m2 t to A R); try done.
    + rewrite (ts_eq _ _ _ _ Ht). apply pick_put_same.
    + by rewrite (ts_alloc _ _ _ _ Ht).
    + by rewrite (ts_rel _ _ _ _ Ht).
  - intros [e|[]] m' Hr.
    + destruct Hr as [? ?]. split; [done|by left].
    + destruct Hr as (Hi' & n' & p & ->). split; [done|].
      exists n', p, t, to. cbv zeta. fold idx. split_and!; [|done|done].
      rewrite (ts_eq _ _ _ _ Ht). done.
Qed.
Lemma src_group_start m idx : m = src_group m idx (pick (m_src m) idx) (m_calls m).
Proof. unfold with_group. rewrite put_pick. by destruct m. Qed.

Lemma synced_holds {K V} `{Countable K} (sm : ShadowMap K V) new :
  holds_rules sm new -> resync_required sm = false /\ bpf_map sm = new.
Proof. by intros (_ & ? & ?). Qed.

Lemma replace_src_step {K V B} `{Countable K} `{!EqDecision V} m idx t n
    (get : SrcMaps -> ShadowMap K V) put new (k : X B) Q :
  shadow_ok (get t) ->
  (forall n' sm, shadow_ok sm -> (forall b, Z.of_nat (size new) <= b -> refuses K V b) ->
     Q (inl ERR_BPF_UPDATE) (src_group m idx (put sm t) n')) ->
  (forall n' sm, shadow_ok sm -> holds_rules sm new -> xwp k Q (src_group m idx (put sm t) n')) ->
  xwp (replace_src idx get put new ;! k) Q (src_group m idx t n).
Proof. exact (replace_member m_src set_m_src (fun _ _ => eq_refl) (fun _ _ => eq_refl)
  (fun _ _ _ => eq_refl) (fun _ _ _ => eq_refl) m idx t n get put new k Q). Qed.

Ltac src_simpl := cbn [v4_udp v4_tcp v6_udp v6_tcp port_udp port_tcp].

Lemma src_replace_spec rs ds m :
  mgr_inv m -> src_fits (src_snapshots rs rs) = true ->
  let idx := next_map_idx (amap_src (m_cfg m)) in
  let s := src_snapshots rs rs in
  xwp (replace_src idx v4_udp (fun x t => mkSrcMaps x (v4_tcp t) (v6_udp t) (v6_tcp t) (port_udp t)
         (port_tcp t)) (rules4_udp s) ;!
       replace_src idx v4_tcp (fun x t => mkSrcMaps (v4_udp t) x (v6_udp t) (v6_tcp t) (port_udp t)
         (port_tcp t)) (rules4_tcp s) ;!
       replace_src idx v6_udp (fun x t => mkSrcMaps (v4_udp t) (v4_tcp t) x (v6_tcp t) (port_udp t)
         (port_tcp t)) (rules6_udp s) ;!
       replace_src idx v6_tcp (fun x t => mkSrcMaps (v4_udp t) (v4_tcp t) (v6_udp t) x (port_udp t)
         (port_tcp t)) (rules6_tcp s) ;!
       replace_src idx port_udp (fun x t => mkSrcMaps (v4_udp t) (v4_tcp t) (v6_udp t) (v6_tcp t) x
         (port_tcp t)) (port_rules_udp s) ;!
       replace_src idx port_tcp (fun x t => mkSrcMaps (v4_udp t) (v4_tcp t) (v6_udp t) (v6_tcp t)
         (port_udp t) x) (port_rules_tcp s) ;!
       tx_scope (
         let! to := apply_defaults ds src_indices XFW_ACTION_ALLOW (rc_defaults (rules (m_cfg m))) in
         upload_config_changes
           (with_rules_cfg (with_defaults to (rules (m_cfg m))) (with_amap_src idx (m_cfg m))) true))
    (outcome_e m (src_refused rs) (fun _ => src_installed rs ds m)) m.
Proof.
  intros Hi Hfit idx s. unfold src_fits, fits in Hfit. fold s in Hfit.
  rewrite !andb_true_iff, !Z.leb_le in Hfit. destruct Hfit as [[[[[F1 F2] F3] F4] F5] F6].
  assert (He : forall t n, src_forall ok_map t -> map_refused ->
    outcome_e m (src_refused rs) (fun _ : unit => src_installed rs ds m) (inl ERR_BPF_UPDATE)
      (src_group m idx t n)).
  { intros t n Ht Hmr. pose proof (stage_src m m t n Hi (stage_refl m Hi) Ht) as Hs.
    destruct (stage_done m _ Hi Hs (iv_tx m Hi)). split_and!; try done. left. by apply KE_map. }
  assert (Ht : src_forall ok_map (pick (m_src m) idx)) by apply both_pick, Hi.
  lazymatch goal with |- xwp ?x ?Q _ =>
    cut (xwp x Q (src_group m idx (pick (m_src m) idx) (m_calls m))) end.
  { by rewrite <- src_group_start. }
  destruct Ht as (O1 & O2 & O3 & O4 & O5 & O6).
  apply replace_src_step;
    [done|intros ? ? ? Hr; apply He; [by split_and!|by apply MR_src4, Hr]|]; intros n1 s1 K1 H1; src_simpl.
  apply replace_src_step;
    [done|intros ? ? ? Hr; apply He; [by split_and!|by apply MR_src4, Hr]|]; intros n2 s2 K2 H2; src_simpl.
  apply replace_src_step;
    [done|intros ? ? ? Hr; apply He; [by split_and!|by apply MR_src6, Hr]|]; intros n3 s3 K3 H3; src_simpl.
  apply replace_src_step;
    [done|intros ? ? ? Hr; apply He; [by split_and!|by apply MR_src6, Hr]|]; intros n4 s4 K4 H4; src_simpl.
  apply replace_src_step;
    [done|intros ? ? ? Hr; apply He; [by split_and!|by apply MR_port, Hr]|]; intros n5 s5 K5 H5; src_simpl.
  apply replace_src_step;
    [done|intros ? ? ? Hr; apply He; [by split_and!|by apply MR_port, Hr]|]; intros n6 s6 K6 H6; src_simpl.
  apply synced_holds in H1, H2, H3, H4, H5, H6.
  apply src_switch_spec; [done|by split_and!|split_and!; [apply H1|apply H2|apply H3|apply H4|apply H5|apply H6]|].
  split_and!; [apply H1|apply H2|apply H3|apply H4|apply H5|apply H6].
Qed.

Lemma set_src_rules_spec rs ds m :
  mgr_inv m ->
  xwp (set_src_rules rs ds) (outcome_e m (src_refused rs) (fun _ => src_installed rs ds m)) m.
Proof.
  intros Hi. apply xwp_bind. eapply xwp_mono; [apply build_src_snapshots_spec|].
  intros [e|s] m' [-> Hr]; cbn [on_ok].
  { split; [done|]. split; [done|]. right. by left. }
  destruct Hr as [-> Hnd]. set (s := src_snapshots rs rs).
  assert (Hfit : src_fits s = true -> src_fits (src_snapshots rs rs) = true) by done.
  assert (He : src_fits s = false -> outcome_e m (src_refused rs)
    (fun _ : unit => src_installed rs ds m) (inl ERR_LIMIT) m).
  { intros Hf. split_and!; try done. right. by right. }
  unfold src_fits in He, Hfit at 1.
  do 6 (apply xwp_bind, xwp_verify; intros Hf; cbn [on_ok];
    [rewrite Hf in He, Hfit; clear Hf|apply He; by rewrite Hf, ?andb_false_r]).
  clear He. apply get_config_mid; [done|by left|].
  intros m1 -> Hi1 _ Hv1.
  eapply xwp_mono; [apply (src_replace_spec rs ds _ Hi1 (Hfit eq_refl))|].
  intros [e|[]] m2 [Hi2 Ho]; (split; [done|]); [by rewrite <- Hv1|].
  destruct Ho as (n & p & t & to & -> & Ho). by exists n, p, t, to.
Qed.
(** ** Protected networks *)

Definition net_entries {K} (keys : NetIp -> list K) (rs : NetIps) : list (K * Z) :=
  rule_entries (fun _ => true) keys (fun _ => xfw_dummy_value) rs.

Definition net_nodup (rs : NetIps) : Prop :=
  NoDup (net_entries user4 rs).*1 /\ NoDup (net_entries user6 rs).*1.

Definition net_snapshots (rs : NetIps) : gmap XfwIpv4LpmKey Z * gmap XfwIpv6LpmKey Z :=
  (list_to_map (net_entries user4 rs), list_to_map (net_entries user6 rs)).

Definition net_fits (rs : NetIps) : bool :=
  fits (net_snapshots rs).1 XFW_MAX_PROTECTED_NET_RULES
  && fits (net_snapshots rs).2 XFW_MAX_PROTECTED_NET_RULES.

Definition net_refused (rs : NetIps) (e : MgrError) : Prop :=
  kernel_error e \/ (e = ERR_DUPLICATE /\ ~ net_nodup rs) \/ (e = ERR_LIMIT /\ net_fits rs = false).

Definition net_installed (rs : NetIps) (m m' : Mgr) : Prop :=
  exists n t,
    let cfg := m_cfg m in let idx := next_map_idx (amap_prot_net cfg) in
    m' = set_m_calls n (set_m_cfg (with_amap_prot_net idx cfg)
           (set_m_net (put_map (m_net m) idx t) m))
    /\ bpf_map (net_v4 t) = (net_snapshots rs).1 /\ bpf_map (net_v6 t) = (net_snapshots rs).2.

Lemma net_build_spec rs m :
  xwp (xfoldl (fun '(n4, n6) it =>
      let! n4 := emplace_user (map lpm4_key (ni_net4s it.2)) xfw_dummy_value n4 in
      let! n6 := emplace_user (map lpm6_key (ni_net6s it.2)) xfw_dummy_value n6 in
      xret (n4, n6)) (∅, ∅) rs) (fun res m' => m' = m /\ match res with
    | inl e => e = ERR_DUPLICATE /\ ~ net_nodup rs
    | inr s => s = net_snapshots rs /\ net_nodup rs
    end) m.
Proof.
  change (∅, ∅) with (net_snapshots []).
  eapply xwp_mono; [apply (xwp_foldl _ (fun s done m' => m' = m
    /\ s = net_snapshots done /\ net_nodup done)
    (fun e m' => m' = m /\ e = ERR_DUPLICATE /\ ~ net_nodup rs))|].
  - split_and!; [done..|]. split; apply NoDup_nil_2.
  - intros s done it rest m1 Hl (-> & -> & N4 & N6).
    assert (Hd : ~ net_nodup (done ++ [it]) -> ~ net_nodup rs).
    { intros Hd [H4 H6]. apply Hd. subst rs.
      rewrite (app_assoc done [it] rest : done ++ it :: rest = _) in H4, H6.
      split; by eapply rule_entries_NoDup_app. }
    apply (emplace_rule_spec (fun _ => true) user4 (fun _ => xfw_dummy_value)); [done..| |].
    { intros Hn. split_and!; [done..|]. apply Hd. by intros [? _]. }
    intros M4. apply (emplace_rule_spec (fun _ => true) user6 (fun _ => xfw_dummy_value)); [done..| |].
    { intros Hn. split_and!; [done..|]. apply Hd. by intros [_ ?]. }
    intros M6. apply xwp_ret. by split_and!.
  - by intros [e|s] m' Hr.
Qed.

Abbreviation net_group := (with_group m_net set_m_net).

Lemma stage_net m0 m t n :
  let idx := next_map_idx (amap_prot_net (m_cfg m0)) in
  mgr_inv m0 -> stage m0 m -> net_forall ok_map t -> stage m0 (net_group m idx t n).
Proof.
  intros idx Hi [Sc Ss Si Sd Sn [] Sp] Ht. split; try done.
  - etrans; [|exact Sn]. apply pick_put. apply Hi.
  - split; try done. by apply put_both.
Qed.

Lemma net_commit m0 m t :
  let idx := next_map_idx (amap_prot_net (m_cfg m0)) in
  mgr_inv m0 -> stage m0 m -> pick (m_net m) idx = t -> net_forall synced_map t ->
  m_tx m = tx_empty -> committable m0 m (with_amap_prot_net idx (m_cfg m0)).
Proof.
  intros idx Hi Hs Hpk Hsy Ht. set (c' := with_amap_prot_net _ _).
  destruct (stage_selected m0 m c' Hi Hs) as (Q1 & Q2 & Q3 & _).
  destruct (Q2 eq_refl) as [Q2' Q2'']. destruct (Q3 eq_refl) as [Q3' Q3''].
  destruct (iv_cfg m0 Hi), (iv_idx m0 Hi). split.
  - by split.
  - split; try done. apply next_idx_ok.
  - split; [by apply Q1|done|done|]. cbn. fold idx. by rewrite Hpk.
  - rewrite Q2''. apply Hi.
  - rewrite Q3''. apply Hi.
  - rewrite Ht. unfold owned. rewrite Q2'', Q3''. done.
Qed.

Lemma net_replace_step {K V B} `{Countable K} `{!EqDecision V} m idx t n
    (get : ProtNetMaps -> ShadowMap K V) put new (k : X B) Q :
  shadow_ok (get t) ->
  (forall n' sm, shadow_ok sm -> (forall b, Z.of_nat (size new) <= b -> refuses K V b) ->
     Q (inl ERR_BPF_UPDATE) (net_group m idx (put sm t) n')) ->
  (forall n' sm, shadow_ok sm -> holds_rules sm new -> xwp k Q (net_group m idx (put sm t) n')) ->
  xwp (replace_map (fun m => get (pick (m_net m) idx))
    (fun sm m => set_m_net (put_map (m_net m) idx (put sm (pick (m_net m) idx))) m) new ;! k) Q
    (net_group m idx t n).
Proof. exact (replace_member m_net set_m_net (fun _ _ => eq_refl) (fun _ _ => eq_refl)
  (fun _ _ _ => eq_refl) (fun _ _ _ => eq_refl) m idx t n get put new k Q). Qed.

Lemma net_group_start m idx : m = net_group m idx (pick (m_net m) idx) (m_calls m).
Proof. unfold with_group. rewrite put_pick. by destruct m. Qed.

Lemma set_prot_net_settings_spec rs m :
  mgr_inv m ->
  xwp (set_prot_net_settings rs)
    (outcome_e m (net_refused rs) (fun _ => net_installed rs m)) m.
Proof.
  intros Hi. apply xwp_bind. eapply xwp_mono; [apply net_build_spec|].
  intros [e|s] m' [-> Hr]; cbn [on_ok].
  { split; [done|]. split; [done|]. right. by left. }
  destruct Hr as [-> Hnd].
  assert (Hl : net_fits rs = false -> outcome_e m (net_refused rs)
    (fun _ : unit => net_installed rs m) (inl ERR_LIMIT) m).
  { intros Hf. split_and!; try done. right. by right. }
  unfold net_fits in Hl.
  apply xwp_bind, xwp_verify; intros F4; cbn [on_ok]; [rewrite F4 in Hl|apply Hl; by rewrite F4].
  apply xwp_bind, xwp_verify; intros F6; cbn [on_ok]; [|by apply Hl].
  clear Hl. apply Z.leb_le in F4, F6. apply get_config_mid; [done|by left|]. intros m1 Hm1 Hi1 _ Hv1. cbv zeta.
  assert (Hc : m_cfg m = m_cfg m1) by by rewrite Hm1. rewrite Hc.
  set (idx := next_map_idx (amap_prot_net (m_cfg m1))).
  assert (He : forall t n e, net_forall ok_map t -> kernel_error e ->
    outcome_e m (net_refused rs) (fun _ : unit => net_installed rs m) (inl e)
      (net_group m1 idx t n)).
  { intros t n e Ht Hk. pose proof (stage_net m1 m1 t n Hi1 (stage_refl m1 Hi1) Ht) as Hs.
    destruct (stage_done m1 _ Hi1 Hs (iv_tx m1 Hi1)) as [Hi2 Hv2].
    split; [done|]. split; [by rewrite <- Hv1|by left]. }
  assert (Ht : net_forall ok_map (pick (m_net m1) idx)) by apply both_pick, Hi1.
  destruct Ht as [O1 O2]. lazymatch goal with |- xwp ?x ?Q _ =>
    cut (xwp x Q (net_group m1 idx (pick (m_net m1) idx) (m_calls m1))) end.
  { by rewrite <- net_group_start. }
  apply (net_replace_step m1 idx _ _ net_v4 (fun sm t => mkProtNetMaps sm (net_v6 t)));
    [done|intros ? ? ? Hr; apply He; [done|by apply KE_map, MR_net4, Hr]|]; intros n1 s1 K1 H1.
  apply (net_replace_step m1 idx _ _ net_v6 (fun sm t => mkProtNetMaps (net_v4 t) sm));
    [done|intros ? ? ? Hr; apply He; [done|by apply KE_map, MR_net6, Hr]|]; intros n2 s2 K2 H2. cbn [net_v4 net_v6].
  apply synced_holds in H1, H2. set (t := mkProtNetMaps s1 s2).
  assert (Hok : net_forall ok_map t) by done.
  pose proof (stage_net m1 m1 t n2 Hi1 (stage_refl m1 Hi1) Hok) as Hs. fold idx in Hs.
  eapply xwp_mono; [apply (upload_spec m1)|].
  - exact Hs.
  - apply Hi1.
  - apply (net_commit m1 _ t); [done..| |split; [apply H1|apply H2]|apply Hi1].
    apply pick_put_same.
  - intros [e|[]] m' Hr.
    + destruct Hr as (Hs' & Ht' & Hk). destruct (stage_done m1 _ Hi1 Hs' Ht') as [Hi2 Hv2].
      split; [done|]. split; [by rewrite <- Hv1|by left].
    + destruct Hr as (Hi' & n & ->). split; [done|]. exists n, t. subst m1.
      split_and!; [done|apply H1|apply H2].
Qed.
End ops.
