(* ===== verification/Manager.v ===== *)
(** * Manager: whole configurations, every history of the manager

    [Xfw::set_config] of src/manager/xfw/xfw.cc puts a configuration in force
    piece by piece. A configuration is split into parts; every operation of the
    maps manager establishes its part and keeps the others, so that a successful
    update leaves all parts in force. The invariants hold in every state that a
    manager started on fresh maps can reach, whatever calls fail. *)

From stdpp Require Import strings.
From S2P Require Import Prelude.
From S2P Require Import Enums.
From S2P Require Import Uapi.
From S2P Require Import Ctx.
From S2P Require Import Bitset.
From S2P Require Import IndexPool.
From S2P Require Import ShadowMap.
From S2P Require Import Config.
From S2P Require Import MapsManager.
From S2P Require Import ManagerSpec.
From S2P Require Import ManagerOps.
From S2P Require Import ManagerSrc.

Local Abbreviation N := XFW_MAX_RATE_LIMITER_BUCKETS.

(** ** The parts of a configuration *)

Inductive Part :=
| PART_SIMPLE | PART_SRC | PART_ICMP | PART_DST | PART_NET
| PART_FLAG (f : XfwFlagsFilter) | PART_DEFAULT (i : DefaultIndex)
| PART_ANOMALY | PART_RATES.

#[export] Instance Part_eq_dec : EqDecision Part.
Proof. solve_decision. Defined.

(** The default action of an index when the configuration gives none. *)
Definition default_action (config : XfwConfig) (i : DefaultIndex) : Z :=
  if decide (i ∈ dst_indices) then dst_default (dst_rules config) else XFW_ACTION_ALLOW.

Section parts.
Context (hz : Z).

(** What the BPF programs find: the scalar parts in the configuration, the rules
    in the maps that it selects. A rule is compared without its bucket. *)
Definition in_force (config : XfwConfig) (p : Part) (m : Mgr) : Prop :=
  let c := m_cfg m in
  match p with
  | PART_SIMPLE =>
      rc_evaluation_mode (rules c) = evaluation_mode config
      /\ rc_ip_proto (rules c) = memcpy_words 4 (default make_default_ip_proto (ip_proto_filter config))
      /\ rc_tcp_auth (rules c) = auth_filter config /\ rc_dns (rules c) = dns_filter config
      /\ match syncookie_filter config with
         | Some d => rc_syncookie (rules c)
                     = mkSyncookie (u64 (passive_timer d * hz)) (u64 (flood_timer d * hz)) true
         | None => sc_enabled (rc_syncookie (rules c)) = false
         end
      /\ rl_window c = mkRlWindow (rl_window_jiffies hz) (rl_window_shift hz) (rl_window_mask hz)
  | PART_SRC => src_holds (pick (m_src m) (amap_src c))
                  (src_snapshots (src_rules config) (src_rules config))
  | PART_ICMP => rule_of <$> bpf_map (pick (m_icmp m) (amap_icmp c))
                 = rule_set (fun it => icmp_keys it.2) icmp_base (icmp_rules config)
  | PART_DST => rule_of <$> bpf_map (pick (m_dst m) (amap_dst c))
                = rule_set (fun it => dst_keys it.2) dst_base (dst_rules config)
  | PART_NET => (bpf_map (net_v4 (pick (m_net m) (amap_prot_net c))),
                 bpf_map (net_v6 (pick (m_net m) (amap_prot_net c)))) = net_snapshots (prot_net config)
  | PART_FLAG f => rule_of (rc_tcp_flags (rules c) f)
      = rule_of (flag_rule_of (match f with
          | XFW_FLAGS_FILTER_SYN => tcp_syn_flag_filter config
          | XFW_FLAGS_FILTER_RST => tcp_rst_flag_filter config
          end))
  | PART_DEFAULT i => rule_of (rc_defaults (rules c) i)
      = rule_of (default_rule_of (defaults config) (default_action config i) i)
  | PART_ANOMALY => rc_tcp_anomaly (rules c) = anomaly_of (anomaly_filter config)
  | PART_RATES => forall i e, ratelimits_ (ratelimits config) !! i = Some e -> rl_state e = Active ->
      (i < length (named_rates c))%nat -> named_rates c !! i = Some (scaled hz e)
  end.

(** An operation that establishes the parts [ps] and keeps the others. *)
Definition establishes (config : XfwConfig) (ps : list Part) (m m' : Mgr) : Prop :=
  rules_active (m_cfg m') = rules_active (m_cfg m)
  /\ (forall p, p ∈ ps -> in_force config p m')
  /\ forall p, in_force config p m -> in_force config p m'.

Lemma establishes_trans config ps qs m1 m2 m3 :
  establishes config ps m1 m2 -> establishes config qs m2 m3 -> establishes config (ps ++ qs) m1 m3.
Proof.
  intros (A1 & P1 & K1) (A2 & P2 & K2). split_and!; [congruence| |auto].
  intros p [Hp|Hp]%elem_of_app; auto.
Qed.

Lemma simple_establishes config n m :
  establishes config [PART_SIMPLE] m
    (set_m_calls n (set_m_cfg (simple_cfg hz config (m_cfg m)) m)).
Proof.
  assert (H : in_force config PART_SIMPLE
    (set_m_calls n (set_m_cfg (simple_cfg hz config (m_cfg m)) m))).
  { unfold in_force, simple_cfg. cbn. split_and!; try done. by destruct (syncookie_filter config). }
  split_and!; [done|by intros p ->%list_elem_of_singleton|]. by intros [] Hp.
Qed.

Lemma rates_establishes config n rates m :
  rates_written hz (ratelimits_ (ratelimits config)) (named_rates (m_cfg m)) rates ->
  establishes config [PART_RATES] m
    (set_m_calls n (set_m_cfg (with_named_rates rates (m_cfg m)) m)).
Proof.
  intros [Hl Hw].
  assert (H : in_force config PART_RATES
    (set_m_calls n (set_m_cfg (with_named_rates rates (m_cfg m)) m))).
  { intros i e He Ha Hi. cbn in Hi |- *. rewrite Hw, He by lia. by rewrite decide_True. }
  split_and!; [done|by intros p ->%list_elem_of_singleton|]. by intros [] Hp.
Qed.

Lemma anomaly_establishes config n m :
  establishes config [PART_ANOMALY] m (set_m_calls n (set_m_cfg (with_rules_cfg
    (with_tcp_anomaly (anomaly_of (anomaly_filter config)) (rules (m_cfg m))) (m_cfg m)) m)).
Proof.
  split_and!; [done|by intros p ->%list_elem_of_singleton|]. by intros [] Hp.
Qed.

Lemma flag_establishes config n p r g m :
  rule_of r = rule_of (flag_rule_of (match g with
    | XFW_FLAGS_FILTER_SYN => tcp_syn_flag_filter config
    | XFW_FLAGS_FILTER_RST => tcp_rst_flag_filter config end)) ->
  establishes config [PART_FLAG g] m
    (set_m_pool p tx_empty (set_m_calls n (set_m_cfg (with_rules_cfg (with_tcp_flags
      (fun f => if decide (f = g) then r else rc_tcp_flags (rules (m_cfg m)) f)
      (rules (m_cfg m))) (m_cfg m)) m))).
Proof.
  intros Hr. split_and!; [done| |].
  - intros q ->%list_elem_of_singleton. cbn. by rewrite decide_True.
  - intros [] Hp; try exact Hp. cbn in Hp |- *. destruct (decide (f = g)) as [->|]; done.
Qed.

Lemma defaults_establish config indices d old to :
  (forall i, i ∈ indices -> default_action config i = d) ->
  defaults_applied (defaults config) indices d old to ->
  forall i, i ∈ indices \/ rule_of (old i)
      = rule_of (default_rule_of (defaults config) (default_action config i) i) ->
  rule_of (to i) = rule_of (default_rule_of (defaults config) (default_action config i) i).
Proof.
  intros Hd Ha i Hi. specialize (Ha i). destruct (decide (i ∈ indices)) as [Hin|Hn].
  - by rewrite Ha, (Hd i Hin).
  - rewrite Ha. by destruct Hi.
Qed.

Lemma src_establishes config m m' :
  map_idx_ok (amap_src (m_cfg m)) ->
  src_installed (src_rules config) (defaults config) m m' ->
  establishes config (PART_SRC :: (PART_DEFAULT <$> src_indices)) m m'.
Proof.
  intros Hx (n & p & t & to & -> & Hh & Ha).
  assert (Hd : forall i, i ∈ src_indices -> default_action config i = XFW_ACTION_ALLOW).
  { intros i Hi. unfold default_action. rewrite decide_False; [done|].
    revert Hi. unfold src_indices, dst_indices. set_solver. }
  pose proof (defaults_establish config _ _ _ _ Hd Ha) as Hto.
  assert (Hs : src_holds (pick (put_map (m_src m) (next_map_idx (amap_src (m_cfg m))) t)
    (next_map_idx (amap_src (m_cfg m)))) (src_snapshots (src_rules config) (src_rules config))).
  { by rewrite (proj1 (pick_put _ _ _ Hx)). }
  split_and!; [done| |].
  - intros q [->|(i & -> & Hi)%list_elem_of_fmap]%elem_of_cons; [exact Hs|]. apply Hto. by left.
  - intros [] Hp; try exact Hp; [exact Hs|]. apply Hto. by right.
Qed.

Lemma icmp_establishes config m m' :
  map_idx_ok (amap_icmp (m_cfg m)) ->
  icmp_installed (icmp_rules config) (defaults config) m m' ->
  establishes config (PART_ICMP :: (PART_DEFAULT <$> icmp_indices)) m m'.
Proof.
  intros Hx (n & p & sm & to & -> & Hh & _ & Ha).
  assert (Hd : forall i, i ∈ icmp_indices -> default_action config i = XFW_ACTION_ALLOW).
  { intros i Hi. unfold default_action. rewrite decide_False; [done|].
    revert Hi. unfold icmp_indices, dst_indices. set_solver. }
  pose proof (defaults_establish config _ _ _ _ Hd Ha) as Hto.
  assert (Hs : rule_of <$> bpf_map (pick (put_map (m_icmp m) (next_map_idx (amap_icmp (m_cfg m))) sm)
    (next_map_idx (amap_icmp (m_cfg m))))
    = rule_set (fun it => icmp_keys it.2) icmp_base (icmp_rules config)).
  { by rewrite (proj1 (pick_put _ _ _ Hx)). }
  split_and!; [done| |].
  - intros q [->|(i & -> & Hi)%list_elem_of_fmap]%elem_of_cons; [exact Hs|]. apply Hto. by left.
  - intros [] Hp; try exact Hp; [exact Hs|]. apply Hto. by right.
Qed.

Lemma dst_establishes config m m' :
  map_idx_ok (amap_dst (m_cfg m)) ->
  dst_installed (dst_rules config) (defaults config) m m' ->
  establishes config (PART_DST :: (PART_DEFAULT <$> dst_indices)) m m'.
Proof.
  intros Hx (n & p & sm & to & -> & Hh & _ & Ha).
  assert (Hd : forall i, i ∈ dst_indices -> default_action config i = dst_default (dst_rules config)).
  { intros i Hi. unfold default_action. by rewrite decide_True. }
  pose proof (defaults_establish config _ _ _ _ Hd Ha) as Hto.
  assert (Hs : rule_of <$> bpf_map (pick (put_map (m_dst m) (next_map_idx (amap_dst (m_cfg m))) sm)
    (next_map_idx (amap_dst (m_cfg m))))
    = rule_set (fun it => dst_keys it.2) dst_base (dst_rules config)).
  { by rewrite (proj1 (pick_put _ _ _ Hx)). }
  split_and!; [done| |].
  - intros q [->|(i & -> & Hi)%list_elem_of_fmap]%elem_of_cons; [exact Hs|]. apply Hto. by left.
  - intros [] Hp; try exact Hp; [exact Hs|]. apply Hto. by right.
Qed.

Lemma net_establishes config m m' :
  map_idx_ok (amap_prot_net (m_cfg m)) -> net_installed (prot_net config) m m' ->
  establishes config [PART_NET] m m'.
Proof.
  intros Hx (n & t & -> & H4 & H6).
  assert (Hs : let t := pick (put_map (m_net m) (next_map_idx (amap_prot_net (m_cfg m))) t)
      (next_map_idx (amap_prot_net (m_cfg m))) in
    (bpf_map (net_v4 t), bpf_map (net_v6 t)) = net_snapshots (prot_net config)).
  { cbv zeta. rewrite (proj1 (pick_put _ _ _ Hx)). by rewrite H4, H6. }
  split_and!; [done| |].
  - intros q ->%list_elem_of_singleton. exact Hs.
  - intros [] Hp; try exact Hp. exact Hs.
Qed.
End parts.

(** ** set_config *)

Section set_config.
Context (hz : Z) `{MgrKernelSpec}.

(** Why an update may be refused. *)
Inductive config_refused (env : XfwEnv) (config : XfwConfig) (e : MgrError) : Prop :=
| CR_kernel : kernel_error e -> config_refused env config e
| CR_dns : e = ERR_UPDATE -> dns_filter config = true -> has_dns_map env = false ->
    config_refused env config e
| CR_syncookies : e = ERR_UPDATE -> is_Some (syncookie_filter config) ->
    has_syncookies_map env && sysctl_tcp_syncookies env = false -> config_refused env config e
| CR_rates : e = ERR_RATE -> ~ rates_ok hz (ratelimits_ (ratelimits config)) ->
    config_refused env config e
| CR_src : src_refused (src_rules config) e -> config_refused env config e
| CR_icmp : refused XFW_MAX_ICMP_RULES (icmp_rules config ≫= (fun it => icmp_keys it.2)) e ->
    config_refused env config e
| CR_dst : refused XFW_MAX_DST_RULES (dst_rules config ≫= (fun it => dst_keys it.2)) e ->
    config_refused env config e
| CR_net : net_refused (prot_net config) e -> config_refused env config e.

Definition config_outcome (env : XfwEnv) (config_ : option XfwConfig) (config : XfwConfig)
    (m : Mgr) (r : MgrError + XfwConfig) (m' : Mgr) : Prop :=
  mgr_inv m' /\ match r with
  | inl e => config_refused env config e /\ rules_active (m_cfg m') = rules_active (m_cfg m)
  | inr c => (forall p, in_force hz config p m')
      /\ rules_active (m_cfg m')
         = (if bool_decide (is_Some config_) then rules_active (m_cfg m) else true)
      /\ c = with_ratelimits (free_inactive (Ratelimits_move (ratelimits config))) config
  end.

Lemma view_cfg m m' : view m' = view m -> m_cfg m' = m_cfg m.
Proof. intros Hv. exact (f_equal fst Hv). Qed.

Lemma config_step {A B} config ps qs (op : X B) (k : X A) bad m0 m
    (Q : MgrError + A -> Mgr -> Prop) :
  mgr_inv m -> establishes hz config ps m0 m ->
  xwp op (outcome_e m bad (fun _ m' => establishes hz config qs m m')) m ->
  (forall e m', mgr_inv m' -> rules_active (m_cfg m') = rules_active (m_cfg m0) -> bad e ->
     Q (inl e) m') ->
  (forall m', mgr_inv m' -> establishes hz config (ps ++ qs) m0 m' -> xwp k Q m') ->
  xwp (op ;! k) Q m.
Proof.
  intros Hi He Hop Hbad Hk. apply xwp_bind. eapply xwp_mono; [exact Hop|].
  intros [e|b] m' [Hi' Ho]; cbn [on_ok].
  - destruct Ho as [Hv Hb]. apply Hbad; [done| |done].
    rewrite (view_cfg _ _ Hv). apply He.
  - apply Hk; [done|]. by eapply establishes_trans.
Qed.

Lemma outcome_mono {A} m bad (P Q : A -> Mgr -> Prop) r m' :
  (forall a m', P a m' -> Q a m') -> outcome_e m bad P r m' -> outcome_e m bad Q r m'.
Proof. intros HPQ [Hi Ho]. split; [done|]. destruct r; [done|]. by apply HPQ. Qed.

Lemma all_parts p :
  p ∈ [PART_RATES] ++ [PART_SIMPLE] ++ (PART_SRC :: (PART_DEFAULT <$> src_indices))
    ++ (PART_ICMP :: (PART_DEFAULT <$> icmp_indices)) ++ (PART_DST :: (PART_DEFAULT <$> dst_indices))
    ++ [PART_NET] ++ [PART_FLAG XFW_FLAGS_FILTER_RST] ++ [PART_FLAG XFW_FLAGS_FILTER_SYN]
    ++ [PART_ANOMALY].
Proof.
  destruct p as [| | | | |f|i| |]; try set_solver; [destruct f; set_solver|].
  destruct i; cbn; set_solver.
Qed.

(** One subsystem of [set_config]: the specification of its operation and the
    reason for a refusal. *)
Ltac config_part spec reason :=
  eapply config_step;
    [done|done
    |eapply xwp_mono; [by apply spec|]; intros ? ?; apply outcome_mono
    |intros ? ? ? ? ?; split; [done|]; split; [by apply reason|done]
    |].

Lemma set_config_spec env config_ config m :
  mgr_inv m -> xwp (set_config hz env config_ config) (config_outcome env config_ config m) m.
Proof.
  intros Hi. unfold set_config.
  apply xwp_bind, xwp_verify; intros Hg; cbn [on_ok]; cycle 1.
  { split; [done|]. split; [|done]. apply orb_false_iff in Hg as [Hg1 Hg2].
    apply negb_false_iff in Hg1. by apply CR_dns. }
  apply xwp_bind, xwp_verify; intros Hg'; cbn [on_ok]; cycle 1.
  { split; [done|]. split; [|done]. destruct (syncookie_filter config) eqn:Hs; [|done].
    apply CR_syncookies; [done|by rewrite Hs|done]. }
  assert (He0 : establishes hz config [] m m).
  { split_and!; [done| |done]. intros p Hp. by apply elem_of_nil in Hp. }
  eapply (config_step config [] _ _ _ _ m m); [done..| | |].
  { eapply xwp_mono; [by apply set_ratelimits_spec|]. intros r m'. apply outcome_mono.
    intros _ m2 (n & rates & -> & Hw & _). by apply rates_establishes. }
  { intros e m' Hi' Ha Hb. split; [done|]. split; [|done].
    destruct Hb as [?|[? ?]]; [by apply CR_kernel|by apply CR_rates]. }
  intros m1 Hi1 He1. config_part set_simple_rules_spec CR_kernel.
  { intros _ m2 (n & ->). by apply simple_establishes. }
  intros m2 Hi2 He2. config_part set_src_rules_spec CR_src.
  { intros _ m3 Hs. apply src_establishes; [apply Hi2|done]. }
  intros m3 Hi3 He3. config_part set_icmp_rules_spec CR_icmp.
  { intros _ m4 Hs. apply icmp_establishes; [apply Hi3|done]. }
  intros m4 Hi4 He4. config_part set_dst_rules_spec CR_dst.
  { intros _ m5 Hs. apply dst_establishes; [apply Hi4|done]. }
  intros m5 Hi5 He5. config_part set_prot_net_settings_spec CR_net.
  { intros _ m6 Hs. apply net_establishes; [apply Hi5|done]. }
  intros m6 Hi6 He6. config_part set_tcp_flag_rule_spec CR_kernel.
  { intros _ m7 (n & p & r' & -> & Hr). by apply flag_establishes. }
  intros m7 Hi7 He7. config_part set_tcp_flag_rule_spec CR_kernel.
  { intros _ m8 (n & p & r' & -> & Hr). by apply flag_establishes. }
  intros m8 Hi8 He8. config_part set_tcp_anomaly_rule_spec CR_kernel.
  { intros _ m9 (n & ->). by apply anomaly_establishes. }
  intros m9 Hi9 He9. destruct He9 as (Ha9 & Hp9 & _).
  assert (Hall : forall p, in_force hz config p m9).
  { intros p. apply Hp9. rewrite <- !app_assoc. apply all_parts. }
  apply xwp_bind. destruct config_ as [c|]; cbn [bool_decide].
  { apply xwp_ret. cbn [on_ok]. apply xwp_ret. by split_and!. }
  eapply xwp_mono; [by apply turn_filtration_on_spec|].
  intros [e|[]] m' [Hi' Ho]; cbn [on_ok].
  - destruct Ho as [Hv Hk]. split; [done|]. split; [by apply CR_kernel|].
    by rewrite (view_cfg _ _ Hv).
  - apply xwp_ret. split; [done|]. destruct Ho as (n & ->). split_and!; [|done..].
    intros p. specialize (Hall p). by destruct p.
Qed.

(** ** Every history *)

(** The calls that the daemon makes. *)
Inductive MgrOp :=
| OP_RATELIMITS (r : Ratelimits)
| OP_SIMPLE (config : XfwConfig)
| OP_SRC (rs : NetIps) (ds : Defaults)
| OP_ICMP (rs : IcmpRules) (ds : Defaults)
| OP_DST (rs : NetIps) (ds : Defaults)
| OP_PROT_NET (rs : NetIps)
| OP_TCP_FLAG (f : option TcpFlagFilter) (flag : XfwFlagsFilter)
| OP_TCP_ANOMALY (filter : TcpAnomalyFilter)
| OP_TURN_ON.

Definition run_op (op : MgrOp) : X unit :=
  match op with
  | OP_RATELIMITS r => set_ratelimits hz r
  | OP_SIMPLE config => set_simple_rules hz config
  | OP_SRC rs ds => set_src_rules rs ds
  | OP_ICMP rs ds => set_icmp_rules rs ds
  | OP_DST rs ds => set_dst_rules rs ds
  | OP_PROT_NET rs => set_prot_net_settings rs
  | OP_TCP_FLAG f flag => set_tcp_flag_rule f flag
  | OP_TCP_ANOMALY filter => set_tcp_anomaly_rule filter
  | OP_TURN_ON => turn_filtration_on
  end.

(** A manager on freshly loaded maps: all bytes of the configuration are zero. *)
Definition zero_rule : XfwActionRule := mkActionRule XFW_ACTION_ALLOW (mkRLimitRule 0 0).
Definition zero_cfg : XfwFilterCfg :=
  mkFilterCfg
    (mkRulesCfg false (replicate 4 0) (mkSyncookie 0 0 false)
       (mkTcpAnomaly false false false false 0 (replicate 4 0)) false false
       (fun _ => zero_rule) (fun _ => zero_rule))
    false MAP_PRIMARY_IDX MAP_PRIMARY_IDX MAP_PRIMARY_IDX MAP_PRIMARY_IDX (mkRlWindow 0 0 0)
    (replicate (Z.to_nat XFW_MAX_NAMED_RATELIMITS) (mkRate 0 0)).

Definition Mgr_fresh : Mgr :=
  let o {K V} `{Countable K} : ShadowMap K V := ShadowMap_open ∅ in
  let src := mkSrcMaps o o o o o o in
  let net := mkProtNetMaps o o in
  mkMgr zero_cfg (mkShadow src src) (mkShadow o o) (mkShadow o o) (mkShadow net net)
    (IndexPool_init (replicate (Z.to_nat N) zero_window)) tx_empty 0.

Inductive mgr_reach : Mgr -> Prop :=
| reach_fresh : mgr_reach Mgr_fresh
| reach_op m op : mgr_reach m -> mgr_reach (run_op op m).2
| reach_config m env config_ config :
    mgr_reach m -> mgr_reach (set_config hz env config_ config m).2.

Lemma fresh_inv : mgr_inv Mgr_fresh.
Proof.
  assert (Hs : forall K V (HE : EqDecision K) (HC : Countable K),
    shadow_ok (ShadowMap_open (∅ : gmap K V))) by done.
  split; try done.
  - repeat split; by left.
  - change (owned Mgr_fresh) with (@nil Z). unfold N at 1.
    pose proof (pool_init_owns (replicate (Z.to_nat N) zero_window)) as Hp.
    by rewrite length_replicate, Z2Nat.id in Hp.
Qed.

Lemma run_op_outcome op m :
  mgr_inv m -> mgr_inv (run_op op m).2
  /\ forall e, (run_op op m).1 = inl e -> view (run_op op m).2 = view m.
Proof.
  intros Hi.
  assert (Hw : exists bad ok, xwp (run_op op) (outcome_e m bad ok) m).
  { destruct op; do 2 eexists; cbn [run_op];
      [by apply set_ratelimits_spec|by apply set_simple_rules_spec|by apply set_src_rules_spec
      |by apply set_icmp_rules_spec|by apply set_dst_rules_spec|by apply set_prot_net_settings_spec
      |by apply set_tcp_flag_rule_spec|by apply set_tcp_anomaly_rule_spec
      |by apply turn_filtration_on_spec]. }
  destruct Hw as (bad & ok & Hi' & Ho). split; [done|]. intros e He. rewrite He in Ho. apply Ho.
Qed.

Lemma reach_inv m : mgr_reach m -> mgr_inv m.
Proof.
  induction 1 as [|m op _ IH|m env config_ config _ IH].
  - apply fresh_inv.
  - by apply run_op_outcome.
  - by apply (set_config_spec env config_ config m).
Qed.

(** ** A kernel without failures *)

(** Every system call succeeds, and every map has room for as many entries as it
    was created with. *)
Class MgrKernelLive := mkMgrKernelLive {
  kl_get n : k_cfg_get n = true;
  kl_set n : k_cfg_set n = true;
  kl_src4 : BpfBatchLive XfwIpv4LpmKey XfwSrcRule (Z.to_nat XFW_MAX_SRC_IP_RULES);
  kl_src6 : BpfBatchLive XfwIpv6LpmKey XfwSrcRule (Z.to_nat XFW_MAX_SRC_IP_RULES);
  kl_port : BpfBatchLive XfwPort XfwSrcRule (Z.to_nat XFW_MAX_PORTS);
  kl_icmp : BpfBatchLive XfwIcmpKey XfwActionRule (Z.to_nat XFW_MAX_ICMP_RULES);
  kl_dst : BpfBatchLive XfwDstKey XfwActionRule (Z.to_nat XFW_MAX_DST_RULES);
  kl_net4 : BpfBatchLive XfwIpv4LpmKey Z (Z.to_nat XFW_MAX_PROTECTED_NET_RULES);
  kl_net6 : BpfBatchLive XfwIpv6LpmKey Z (Z.to_nat XFW_MAX_PROTECTED_NET_RULES)
}.

Lemma live_accepts (K V : Type) `{Countable K} `{!EqDecision V} b :
  BpfBatchLive K V (Z.to_nat b) -> ~ refuses K V b.
Proof.
  intros Hl (n & sm & new & Hok & Hs & Hr).
  assert (0 <= b) by lia. rewrite (replace_live (Z.to_nat b)) in Hr; [done|done|lia].
Qed.

Lemma live_no_error (HL : MgrKernelLive) e : ~ kernel_error e.
Proof.
  destruct HL. intros [n Hk|n Hk|[Hr|Hr|Hr|Hr|Hr|Hr|Hr]]; [congruence..| | | | | | |];
    revert Hr; by apply live_accepts.
Qed.

(** What the manager asks of a configuration. *)
Record valid_config (env : XfwEnv) (config : XfwConfig) : Prop := mkValidConfig {
  vc_dns : dns_filter config = true -> has_dns_map env = true;
  vc_syncookies : is_Some (syncookie_filter config) ->
    has_syncookies_map env && sysctl_tcp_syncookies env = true;
  vc_rates : rates_ok hz (ratelimits_ (ratelimits config));
  vc_src : src_nodup (src_rules config);
  vc_src_size : src_fits (src_snapshots (src_rules config) (src_rules config)) = true;
  vc_icmp : NoDup (icmp_rules config ≫= (fun it => icmp_keys it.2));
  vc_icmp_size : Z.of_nat (length (icmp_rules config ≫= (fun it => icmp_keys it.2)))
    <= XFW_MAX_ICMP_RULES;
  vc_dst : NoDup (dst_rules config ≫= (fun it => dst_keys it.2));
  vc_dst_size : Z.of_nat (length (dst_rules config ≫= (fun it => dst_keys it.2)))
    <= XFW_MAX_DST_RULES;
  vc_net : net_nodup (prot_net config);
  vc_net_size : net_fits (prot_net config) = true
}.

Lemma valid_refused_kernel env config e :
  valid_config env config -> config_refused env config e -> kernel_error e.
Proof.
  intros [] [Hk| -> Hd Hm| -> Hd Hm| -> Hr|Hr|Hr|Hr|Hr]; [done|..].
  - by rewrite vc_dns0 in Hm.
  - by rewrite vc_syncookies0 in Hm.
  - done.
  - destruct Hr as [|[[_ ?]|[_ ?]]]; [done|done|congruence].
  - destruct Hr as [|[[_ ?]|?]]; [done|done|lia].
  - destruct Hr as [|[[_ ?]|?]]; [done|done|lia].
  - destruct Hr as [|[[_ ?]|[_ ?]]]; [done|done|congruence].
Qed.
End set_config.
