(* ===== verification/ManagerClaims.v ===== *)
(** * ManagerClaims: what the manager guarantees

    The guarantees hold for every history of a manager that was started on
    freshly loaded maps: any sequence of updates, of which any may fail at any
    system call. *)

From stdpp Require Import strings.
From S2P Require Import Prelude.
From S2P Require Import Enums.
From S2P Require Import Uapi.
From S2P Require Import Kernel.
From S2P Require Import Ctx.
From S2P Require Import Filter.
From S2P Require Import Verdict.
From S2P Require Import Parsing.
From S2P Require Import Dst.
From S2P Require Import Bitset.
From S2P Require Import IndexPool.
From S2P Require Import ShadowMap.
From S2P Require Import Config.
From S2P Require Import MapsManager.
From S2P Require Import ManagerSpec.
From S2P Require Import ManagerOps.
From S2P Require Import ManagerSrc.
From S2P Require Import Manager.

Local Abbreviation N := XFW_MAX_RATE_LIMITER_BUCKETS.

(** ** Concrete kernels and configurations *)

(** All calls succeed; the numbers in [bad] are uploads that fail. *)
Definition mgr_kernel (bad : nat -> bool) : MgrKernel :=
  mkMgrKernel (fun _ => true) (fun n => negb (bad n))
    (fun K V HE HC => @ref_batch K V HE HC (Z.to_nat XFW_MAX_SRC_IP_RULES)).

#[export] Instance mgr_kernel_spec bad : @MgrKernelSpec (mgr_kernel bad).
Proof. intros K V HE HC. apply ref_batch_spec. Qed.

Definition good_kernel : MgrKernel := mgr_kernel (fun _ => false).

Lemma live_mono (K V : Type) `{BpfBatch K V} cap cap' :
  (cap' <= cap)%nat -> BpfBatchLive K V cap -> BpfBatchLive K V cap'.
Proof. intros Hc [H1 H2 H3]. split; [|done|done]. intros. apply H1. lia. Qed.

Lemma good_kernel_live : @MgrKernelLive good_kernel.
Proof.
  split; [done|done|..]; (eapply live_mono; [|apply ref_batch_live]);
    apply Z2Nat.inj_le; done.
Qed.

(** Two rules for the destination 10.0.0.2: port 80 is rate limited, port 22
    blocked; two ICMP types are blocked. *)
Definition dst_rule (allowed : bool) (rl : option Z) (port : Z) : NetIp :=
  mkNetIp rl (mkFlags false false allowed true false) [mkNet4Key port 0x0200000a] [] [] [].

Definition sample_config : XfwConfig :=
  mkXfwConfig false None None None (Some 3) (mkTcpAnomalyFilter true false false
      (BitSet_empty 255) None) false false []
    [("ping"%string, mkIcmpRule false false None [8; 13])]
    [("ssh"%string, dst_rule false None 0x1600); ("web"%string, dst_rule true (Some 1) 0x5000)]
    [] Ratelimits_init (fun _ => None).

Definition sample_mgr_env : XfwEnv := mkXfwEnv false false false.

Lemma sample_config_valid : valid_config 1000 sample_mgr_env sample_config.
Proof.
  split; try done.
  - by intros [? [=]].
  - intros e He Ha. apply elem_of_replicate_inv in He. by subst.
  - repeat split; apply NoDup_nil_2.
  - apply (bool_decide_unpack _). vm_compute. exact I.
  - apply (bool_decide_unpack _). vm_compute. exact I.
  - repeat split; apply NoDup_nil_2.
Qed.

(** The state after the sample configuration on a fresh manager. *)
Definition sample_mgr : Mgr :=
  (@set_config 1000 good_kernel sample_mgr_env None sample_config Mgr_fresh).2.

Lemma sample_mgr_reach : @mgr_reach 1000 good_kernel sample_mgr.
Proof. apply reach_config, reach_fresh. Qed.

(** ** Claims *)

Section claims.
Context (hz : Z) `{MgrKernelSpec}.

(** C12: whatever updates were made and whichever of them failed, every
    rate-limit bucket of the pool is either free or belongs to exactly one
    rate-limited rule in force (of the active ICMP and destination maps, the
    defaults and the TCP flags); no bucket is lost, none is shared and no
    transaction is left open. *)
Theorem mgr_buckets_accounted m :
  mgr_reach hz m ->
  free_indices (m_pool m) ++ owned m ≡ₚ seqZ 0 N
  /\ NoDup (owned m) /\ (forall b, b ∈ free_indices (m_pool m) -> b ∉ owned m)
  /\ m_tx m = tx_empty.
Proof.
  intros Hr. pose proof (reach_inv hz m Hr) as Hi.
  destruct (pool_owns_NoDup _ _ _ (iv_pool m Hi)) as (H1 & _ & H3 & _).
  split_and!; [apply Hi|done..|apply Hi].
Qed.


(** C3: a successful [set_config] puts the whole configuration in force: the
    BPF programs find every scalar setting, exactly the rules of the
    configuration in the maps they select, the defaults, the rates scaled to the
    window and, after the first configuration, the filtration switched on. *)
Theorem config_update_in_force m env config_ config c m' :
  mgr_reach hz m -> set_config hz env config_ config m = (inr c, m') ->
  (forall p, in_force hz config p m')
  /\ (config_ = None -> rules_active (m_cfg m') = true).
Proof.
  intros Hr Hs. pose proof (set_config_spec hz env config_ config m (reach_inv hz m Hr)) as Ho.
  unfold xwp in Ho. rewrite Hs in Ho. destruct Ho as (_ & Hp & Ha & _). split; [done|].
  intros ->. exact Ha.
Qed.

(** [set_config] fails only because a system call failed, because the
    loaded programs lack what it needs, because a rate is too large, or because
    the rules contain duplicates or exceed a limit; the pool of buckets is never
    exhausted by rules within their limits. A failed update does not switch the
    filtration on. *)
Lemma config_failure_reason m env config_ config e m' :
  mgr_reach hz m -> set_config hz env config_ config m = (inl e, m') ->
  config_refused hz env config e /\ rules_active (m_cfg m') = rules_active (m_cfg m)
  /\ (valid_config hz env config -> e <> ERR_NO_BUCKET /\ kernel_error e).
Proof.
  intros Hr Hs. pose proof (set_config_spec hz env config_ config m (reach_inv hz m Hr)) as Ho.
  unfold xwp in Ho. rewrite Hs in Ho. destruct Ho as (_ & Hc & Ha). split_and!; [done..|].
  intros Hv. pose proof (valid_refused_kernel hz env config e Hv Hc) as Hk.
  split; [|done]. by destruct Hk.
Qed.

Lemma config_accepted m env config_ config :
  MgrKernelLive -> mgr_reach hz m -> valid_config hz env config ->
  exists c m', set_config hz env config_ config m = (inr c, m')
    /\ config_outcome hz env config_ config m (inr c) m'.
Proof.
  intros HL Hr Hv.
  pose proof (set_config_spec hz env config_ config m (reach_inv hz m Hr)) as Ho.
  unfold xwp in Ho. destruct (set_config hz env config_ config m) as [[e|c] m'].
  - destruct Ho as (_ & Hc & _). exfalso. apply (live_no_error HL e).
    by eapply valid_refused_kernel.
  - by exists c, m'.
Qed.

(** C25: on a kernel whose calls do not fail every valid configuration is
    accepted, in whatever state earlier updates left the manager and its maps. *)
Theorem valid_config_accepted m env config_ config :
  MgrKernelLive -> mgr_reach hz m -> valid_config hz env config ->
  exists c m', set_config hz env config_ config m = (inr c, m')
    /\ forall p, in_force hz config p m'.
Proof.
  intros HL Hr Hv. destruct (config_accepted m env config_ config HL Hr Hv) as (c & m' & Hs & Ho).
  exists c, m'. split; [done|apply Ho].
Qed.
End claims.

Lemma mgr_buckets_accounted_witness :
  free_indices (m_pool sample_mgr) ++ owned sample_mgr ≡ₚ seqZ 0 N /\ NoDup (owned sample_mgr).
Proof.
  destruct (@mgr_buckets_accounted 1000 good_kernel _ sample_mgr sample_mgr_reach) as (H1 & H2 & _).
  split; [exact H1|exact H2].
Defined.


Lemma config_update_in_force_witness : exists c m',
  @set_config 1000 good_kernel sample_mgr_env None sample_config Mgr_fresh = (inr c, m')
  /\ in_force 1000 sample_config PART_DST m' /\ rules_active (m_cfg m') = true.
Proof.
  destruct (@config_accepted 1000 good_kernel _ Mgr_fresh sample_mgr_env None sample_config
    good_kernel_live (reach_fresh 1000) sample_config_valid) as (c & m' & Hs & _).
  exists c, m'. split; [exact Hs|].
  destruct (@config_update_in_force 1000 good_kernel _ Mgr_fresh sample_mgr_env None sample_config
    c m' (reach_fresh 1000) Hs) as [H1 H2].
  split; [apply H1|by apply H2].
Defined.

Lemma valid_config_accepted_witness : exists c m',
  @set_config 1000 good_kernel sample_mgr_env None sample_config sample_mgr = (inr c, m')
  /\ forall p, in_force 1000 sample_config p m'.
Proof.
  apply (@valid_config_accepted 1000 good_kernel _ sample_mgr sample_mgr_env None sample_config).
  - exact good_kernel_live.
  - exact sample_mgr_reach.
  - exact sample_config_valid.
Defined.

(** ** Source rules: the user comes before the geo database *)

(** The first rule, in the order of the names, that lists a key. *)
Fixpoint first_rule {K} `{EqDecision K} (sel : NetIp -> bool) (keys : NetIp -> list K)
    (rs : NetIps) (k : K) : option XfwSrcRule :=
  match rs with
  | [] => None
  | it :: rs => if sel it.2 && bool_decide (k ∈ keys it.2) then Some (net_rule it.2)
                else first_rule sel keys rs k
  end.

Lemma lookup_with_rule {K V} `{Countable K} (r : V) (ks : list K) k :
  (list_to_map (with_rule r ks) : gmap K V) !! k = if bool_decide (k ∈ ks) then Some r else None.
Proof.
  induction ks as [|k' ks IH]; [done|]. cbn [with_rule fmap list_fmap list_to_map].
  cbn [list_to_map foldr]. destruct (decide (k' = k)) as [->|Hn].
  - cbn. rewrite lookup_insert_eq, bool_decide_eq_true_2; [done|set_solver].
  - cbn. rewrite lookup_insert_ne by done. unfold with_rule in IH. rewrite IH.
    by rewrite (bool_decide_ext (k ∈ k' :: ks) (k ∈ ks)) by set_solver.
Qed.

Lemma lookup_rule_entries {K} `{Countable K} sel (keys : NetIp -> list K) rs k :
  (list_to_map (rule_entries sel keys net_rule rs) : gmap K XfwSrcRule) !! k
  = first_rule sel keys rs k.
Proof.
  induction rs as [|it rs IH]; [done|].
  change (rule_entries sel keys net_rule (it :: rs))
    with ((if sel it.2 then with_rule (net_rule it.2) (keys it.2) else [])
          ++ rule_entries sel keys net_rule rs).
  rewrite list_to_map_app, lookup_union, IH. cbn [first_rule]. destruct (sel it.2); cbn [andb].
  - rewrite lookup_with_rule. destruct (bool_decide _).
    + by destruct (first_rule _ _ _ _).
    + apply (left_id_L None (∪)).
  - apply (left_id_L None (∪)).
Qed.

(** What a source map holds for a key. *)
Definition src_verdict {K} `{EqDecision K} (sel : NetIp -> bool) (user geo : NetIp -> list K)
    (rs : NetIps) (k : K) : option XfwSrcRule :=
  match first_rule sel user rs k with
  | Some r => Some r
  | None => first_rule sel geo rs k
  end.

Lemma lookup_src_entries {K} `{Countable K} sel (user geo : NetIp -> list K) rs k :
  (list_to_map (src_entries sel user geo rs rs) : gmap K XfwSrcRule) !! k
  = src_verdict sel user geo rs k.
Proof.
  unfold src_entries, src_verdict. rewrite list_to_map_app, lookup_union, !lookup_rule_entries.
  destruct (first_rule sel user rs k); [by destruct (first_rule _ _ _ _)|apply (left_id_L None (∪))].
Qed.

Section src_claims.
Context `{MgrKernelSpec}.

(** After source rules were installed, the maps that the BPF programs
    select give every network the rule that the user wrote for it and, only
    where there is none, the first rule in the order of the names whose country
    contains it; nothing else is in the maps. Ports have user rules only. *)
Lemma user_rule_before_geo hz m rs ds m' :
  mgr_reach hz m -> set_src_rules rs ds m = (inr tt, m') ->
  let M := kernel_maps m' in let i := amap_src (m_cfg m') in
  (forall k, SELECT_SHADOW_MAP (map_src_4_udp M) i !! k = src_verdict is_udp user4 geo4 rs k)
  /\ (forall k, SELECT_SHADOW_MAP (map_src_4_tcp M) i !! k = src_verdict is_tcp user4 geo4 rs k)
  /\ (forall k, SELECT_SHADOW_MAP (map_src_6_udp M) i !! k = src_verdict is_udp user6 geo6 rs k)
  /\ (forall k, SELECT_SHADOW_MAP (map_src_6_tcp M) i !! k = src_verdict is_tcp user6 geo6 rs k)
  /\ (forall k, SELECT_SHADOW_MAP (map_src_p_udp M) i !! k = first_rule is_udp ni_ports rs k)
  /\ (forall k, SELECT_SHADOW_MAP (map_src_p_tcp M) i !! k = first_rule is_tcp ni_ports rs k).
Proof.
  intros Hr Hs M i. pose proof (reach_inv hz m Hr) as Hi.
  pose proof (set_src_rules_spec rs ds m Hi) as Ho. unfold xwp in Ho. rewrite Hs in Ho.
  cbn [fst snd] in Ho. destruct Ho as [_ (n & p & t & to & Hm & Hh & _)]. subst m'. destruct Hh as (H1 & H2 & H3 & H4 & H5 & H6).
  assert (Hx : map_idx_ok i) by apply next_idx_ok.
  assert (Ht : forall K V (HE : EqDecision K) (HC : Countable K) (f : SrcMaps -> ShadowMap K V),
    SELECT_SHADOW_MAP (kernel_pair f (put_map (m_src m) i t)) i = bpf_map (f t)).
  { intros K V HE HC f. rewrite select_pick by done. by rewrite pick_put_same. }
  split_and!; intros k; unfold M, kernel_maps;
    cbn [map_src_4_udp map_src_4_tcp map_src_6_udp map_src_6_tcp map_src_p_udp map_src_p_tcp];
    etrans; [by rewrite Ht, H1|apply lookup_src_entries|by rewrite Ht, H2|apply lookup_src_entries
    |by rewrite Ht, H3|apply lookup_src_entries|by rewrite Ht, H4|apply lookup_src_entries
    |by rewrite Ht, H5|apply lookup_rule_entries|by rewrite Ht, H6|apply lookup_rule_entries].
Qed.

Lemma src_accepted rs ds m :
  MgrKernelLive -> mgr_inv m -> src_nodup rs -> src_fits (src_snapshots rs rs) = true ->
  exists m', set_src_rules rs ds m = (inr tt, m').
Proof.
  intros HL Hi Hn Hf. pose proof (set_src_rules_spec rs ds m Hi) as Ho. unfold xwp in Ho.
  destruct (set_src_rules rs ds m) as [[e|[]] m']; [|by exists m'].
  destruct Ho as (_ & _ & [Hk|[[_ ?]|[_ ?]]]); [|done|congruence]. by apply live_no_error in Hk.
Qed.
End src_claims.
