(* ===== verification/ManagerPolicy.v ===== *)
(** * ManagerPolicy: from the rules of a configuration to the verdict on a packet

    The manager and the BPF programs together: the destination filter applied to
    a packet obeys the destination rules that the manager installed, and the
    ingress program passes every packet of a firewall that was never configured. *)

From stdpp Require Import strings.
From S2P Require Import Prelude.
From S2P Require Import Enums.
From S2P Require Import Uapi.
From S2P Require Import Kernel.
From S2P Require Import Ctx.
From S2P Require Import Filter.
From S2P Require Import Verdict.
From S2P Require Import Parsing.
From S2P Require Import Dst.
From S2P Require Import Xdp.
From S2P Require Import XdpSpec.
From S2P Require Import XdpSafety.
From S2P Require Import IndexPool.
From S2P Require Import ShadowMap.
From S2P Require Import Config.
From S2P Require Import MapsManager.
From S2P Require Import ManagerSpec.
From S2P Require Import ManagerOps.
From S2P Require Import ManagerSrc.
From S2P Require Import Manager.
From S2P Require Import ManagerClaims.

Local Abbreviation N := XFW_MAX_RATE_LIMITER_BUCKETS.

(** ** The rule of a key *)

Section rule_set.
Context {K R : Type} `{Countable K} (keys : R -> list K) (base : R -> XfwActionRule).

Lemma inserted_lookup ks v (nr : gmap K (Z * Z)) k :
  inserted ks v nr !! k = if decide (k ∈ ks) then Some v else nr !! k.
Proof.
  revert nr. induction ks as [|k' ks IH]; intros nr; [done|].
  change (inserted (k' :: ks) v nr) with (inserted ks v (<[k' := v]> nr)). rewrite IH.
  destruct (decide (k ∈ ks)) as [|Hn]; [by rewrite decide_True by set_solver|].
  destruct (decide (k = k')) as [->|].
  - by rewrite lookup_insert_eq, decide_True by set_solver.
  - by rewrite lookup_insert_ne, decide_False by set_solver.
Qed.

(** Without duplicates the rule of a key is the rule that lists it. *)
Lemma rule_set_lookup rs it k :
  NoDup (rs ≫= keys) -> it ∈ rs -> k ∈ keys it ->
  rule_set keys base rs !! k = Some (rule_of (base it)).
Proof.
  unfold rule_set. induction rs as [|it' rs IH] using rev_ind; [set_solver|].
  rewrite bind_app, foldl_app. cbn. rewrite app_nil_r. intros (Hn & Hd & _)%list.NoDup_app Hit Hk.
  rewrite inserted_lookup. apply elem_of_app in Hit as [Hit| ->%list_elem_of_singleton].
  - rewrite decide_False; [by apply IH|]. apply Hd. apply list_elem_of_bind. by exists it.
  - by rewrite decide_True.
Qed.
End rule_set.

(** ** The destination filter *)

Lemma populate_dst_index c s k d s' :
  populate_dst_info c s = Some (Some (k, d), s') -> d ∈ dst_indices.
Proof.
  unfold populate_dst_info, VERIFY, bind, ret. intros Hp.
  repeat case_match; simplify_eq; unfold dst_indices; set_solver.
Qed.

Section enforce.
Context (E : Env).

(** What an action rule does with a packet. *)
Definition apply_rule (r : XfwActionRule) : P Z :=
  if action r =? XFW_ACTION_BLOCK then XFW_MAKE_CTX_DROP E XFW_DROP_DST_BLOCKED else
  if action r =? XFW_ACTION_ALLOW then ret XFW_CTX_CONTINUE else
  XFW_ASSERT E (action r =? XFW_ACTION_RATE_LIMIT) (
  ok <- xfw_is_allowed_by_rlimits (rlimit r) ;;
  if ok then ret XFW_CTX_CONTINUE else XFW_MAKE_CTX_DROP E XFW_DROP_DST_RATE_LIMITED).

Lemma xfw_dst_filter_rule s k d :
  populate_dst_info (s_ctx s) s = Some (Some (k, d), s) ->
  xfw_dst_filter E s
  = apply_rule (default (rc_defaults (rules (cfg (s_ctx s))) d)
      (SELECT_SHADOW_MAP (map_dst (e_rules E)) (amap_dst (cfg (s_ctx s))) !! k)) s.
Proof.
  intros Hp. unfold xfw_dst_filter. unfold bind at 1. cbn [get_ctx].
  change (get_ctx s) with (Some (s_ctx s, s)). cbv iota beta.
  rewrite (bind_run _ _ _ _ _ Hp). unfold apply_rule. by destruct (_ !! k).
Qed.

(** What the operator wrote in a rule. *)
Inductive enforced (ip : NetIp) (s : St) (out : option (Z * St)) : Prop :=
| EN_block : isAllowed (ni_flags ip) = false ->
    out = XFW_MAKE_CTX_DROP E XFW_DROP_DST_BLOCKED s -> enforced ip s out
| EN_allow : isAllowed (ni_flags ip) = true -> ni_ratelimit_index ip = None ->
    out = Some (XFW_CTX_CONTINUE, s) -> enforced ip s out
| EN_limit i b : isAllowed (ni_flags ip) = true -> ni_ratelimit_index ip = Some i -> 0 <= b < N ->
    out = bind (xfw_is_allowed_by_rlimits (mkRLimitRule b i)) (fun ok =>
      if ok then ret XFW_CTX_CONTINUE else XFW_MAKE_CTX_DROP E XFW_DROP_DST_RATE_LIMITED) s ->
    enforced ip s out.

Lemma apply_rule_enforced it r s :
  rule_of r = rule_of (dst_base it) -> (action r = XFW_ACTION_RATE_LIMIT -> 0 <= bucket_idx (rlimit r) < N) ->
  enforced it.2 s (apply_rule r s).
Proof.
  unfold rule_of, dst_base, XfwActionRule_of. intros Hr Hb.
  destruct (isAllowed (ni_flags it.2)) eqn:Ha; cbn [negb] in Hr; cycle 1.
  { injection Hr as Hx _. apply EN_block; [done|]. unfold apply_rule. by rewrite Hx. }
  destruct (ni_ratelimit_index it.2) as [i|] eqn:Hi; cbn in Hr; injection Hr as Hx Hn.
  - apply (EN_limit _ _ _ i (bucket_idx (rlimit r))); [done|done|by apply Hb|].
    unfold apply_rule. rewrite Hx. cbn [Z.eqb]. destruct r as [a [b j]]. cbn in Hn. by subst j.
  - apply EN_allow; [done|done|]. unfold apply_rule. by rewrite Hx.
Qed.
End enforce.

(** The bucket of a rule in force is owned. *)
Lemma map_buckets_lookup {K} `{Countable K} (nr : gmap K XfwActionRule) k r :
  nr !! k = Some r -> action r = XFW_ACTION_RATE_LIMIT -> bucket_idx (rlimit r) ∈ map_buckets nr.
Proof.
  intros Hk Ha. unfold map_buckets. apply list_elem_of_omap. exists (k, r).
  split; [by apply elem_of_map_to_list|]. unfold rl_bucket. cbn. by rewrite Ha.
Qed.

Lemma dst_bucket_range m k r :
  mgr_inv m -> bpf_map (pick (m_dst m) (amap_dst (m_cfg m))) !! k = Some r ->
  action r = XFW_ACTION_RATE_LIMIT -> 0 <= bucket_idx (rlimit r) < N.
Proof.
  intros Hi Hk Ha.
  assert (Hs : bpf_map (pick (m_dst m) (amap_dst (m_cfg m))) = dst_in_force m).
  { apply (both_pick shadow_ok); [apply Hi|apply Hi]. }
  rewrite Hs in Hk. destruct (pool_owns_NoDup _ _ _ (iv_pool m Hi)) as (_ & _ & _ & Hr).
  apply Hr. unfold owned. rewrite !elem_of_app. right. left. by eapply map_buckets_lookup.
Qed.

(** C7: the destination rules that an operator configured decide about
    packets: once the manager has installed them, the destination filter blocks,
    lets through or rate-limits a packet to a listed address, protocol and port
    as its rule says, with a bucket of the pool and the rate of the rule; a
    packet to any other destination is blocked, unless a default says otherwise
    or there are no destination rules at all. *)
Theorem dst_policy_enforced `{MgrKernelSpec} hz m rs ds m' E s k d :
  mgr_reach hz m -> set_dst_rules rs ds m = (inr tt, m') ->
  e_rules E = kernel_maps m' -> cfg (s_ctx s) = m_cfg m' ->
  populate_dst_info (s_ctx s) s = Some (Some (k, d), s) ->
  (forall it, it ∈ rs -> k ∈ dst_keys it.2 -> enforced E it.2 s (xfw_dst_filter E s))
  /\ ((forall it, it ∈ rs -> k ∉ dst_keys it.2) -> ds d = None ->
      xfw_dst_filter E s = if decide (rs = []) then Some (XFW_CTX_CONTINUE, s)
                           else XFW_MAKE_CTX_DROP E XFW_DROP_DST_BLOCKED s).
Proof.
  intros Hr Hs HE Hc Hp. pose proof (reach_inv hz m Hr) as Hi.
  pose proof (set_dst_rules_spec rs ds m Hi) as Ho. unfold xwp in Ho. rewrite Hs in Ho.
  cbn [fst snd] in Ho. destruct Ho as [Hi' (n & p & sm & to & Hm & Hru & Hnd & Ha)].
  rewrite (xfw_dst_filter_rule E s k d Hp), HE, Hc.
  set (idx := next_map_idx (amap_dst (m_cfg m))) in *.
  assert (Hx : amap_dst (m_cfg m') = idx) by by rewrite Hm.
  assert (Hd : rc_defaults (rules (m_cfg m')) = to) by by rewrite Hm.
  assert (Hpk : pick (m_dst m') idx = sm) by (rewrite Hm; apply pick_put_same).
  assert (Hsel : SELECT_SHADOW_MAP (map_dst (kernel_maps m')) (amap_dst (m_cfg m')) = bpf_map sm).
  { unfold kernel_maps. cbn [map_dst]. rewrite select_pick, Hx; [|rewrite Hx; apply next_idx_ok].
    by rewrite Hpk. }
  rewrite Hsel, Hd. split.
  - intros it Hit Hk. pose proof (rule_set_lookup _ dst_base rs it k Hnd Hit Hk) as Hl.
    rewrite <- Hru, lookup_fmap in Hl. destruct (bpf_map sm !! k) as [r|] eqn:Hbk; [|done].
    injection Hl as Hl1 Hl2. apply apply_rule_enforced; [by unfold rule_of; f_equal|].
    apply (dst_bucket_range m' k); [done|]. by rewrite Hx, Hpk.
  - intros Hno Hdn. assert (bpf_map sm !! k = None) as ->.
    { assert (rule_set (fun it => dst_keys it.2) dst_base rs !! k = None) as Hl.
      { apply rule_set_None. intros (it & Hk & Hit)%list_elem_of_bind. by apply (Hno it). }
      rewrite <- Hru, lookup_fmap in Hl. by destruct (bpf_map sm !! k). }
    specialize (Ha d). rewrite decide_True in Ha by (by eapply populate_dst_index).
    unfold default_rule_of in Ha. rewrite Hdn in Ha. injection Ha as Ha _. cbn [default].
    unfold apply_rule. change (default (to d) None) with (to d). rewrite Ha. unfold dst_default.
    by destruct (decide (rs = [])).
Qed.

(** ** Before the first configuration *)

Section start.
Context (hz : Z) `{MgrKernelSpec}.

(** A manager of which every attempt to configure it has failed. *)
Inductive unconfigured : Mgr -> Prop :=
| UC_fresh : unconfigured Mgr_fresh
| UC_failed m env config e m' :
    unconfigured m -> set_config hz env None config m = (inl e, m') -> unconfigured m'.

Lemma unconfigured_inactive m : unconfigured m -> mgr_inv m /\ rules_active (m_cfg m) = false.
Proof.
  induction 1 as [|m env config e m' _ [Hi Ha] Hs]; [split; [apply fresh_inv|done]|].
  pose proof (set_config_spec hz env None config m Hi) as Ho. unfold xwp in Ho. rewrite Hs in Ho.
  destruct Ho as (Hi' & _ & Ha'). cbn [snd] in *. split; [done|congruence].
Qed.

(** Until a configuration has been installed completely every packet
    passes the ingress program unmodified and leaves no incident, however many
    attempts to configure the firewall failed and wherever they failed: a
    partly written configuration never filters. *)
Lemma unconfigured_firewall_passes m E s :
  unconfigured m -> e_cfg E = Some (m_cfg m) -> KernelSpec (e_kernel E) ->
  e_hook E = HOOK_XDP -> Forall is_byte (s_pkt s) ->
  exists s', xfw_xdp E s = Some (XDP_PASS, s') /\ s_pkt s' = s_pkt s /\ s_ilog s' = s_ilog s.
Proof.
  intros Hu Hc HK Hh Hb. destruct (unconfigured_inactive m Hu) as [Hi Ha].
  apply (xdp_inactive_passes E (m_cfg m)); [done|done|done|apply Hi|done|done].
Qed.
End start.

(** ** Concrete cases *)

(** The second system call of the first update, the upload of the rates, fails. *)
Definition failed_start : Mgr :=
  (@set_config 1000 (mgr_kernel (Nat.eqb 1)) sample_mgr_env None sample_config Mgr_fresh).2.

Definition managed_env (m : Mgr) : Env :=
  mkEnv HOOK_XDP sample_kernel (kernel_maps m) (Some (m_cfg m)) true 1000000 0 0 1000
    XFW_MODE_HOST false None.

Lemma unconfigured_firewall_passes_example : exists s',
  xfw_xdp (managed_env failed_start) (sample_state sample_cfg (tcp_packet 2)) = Some (XDP_PASS, s')
  /\ s_pkt s' = tcp_packet 2 /\ s_ilog s' = sample_log.
Proof.
  apply (@unconfigured_firewall_passes 1000 (mgr_kernel (Nat.eqb 1)) _ failed_start
    (managed_env failed_start)).
  - apply (UC_failed 1000 Mgr_fresh sample_mgr_env sample_config ERR_CFG_UPDATE);
      [apply UC_fresh|reflexivity].
  - reflexivity.
  - apply _.
  - reflexivity.
  - apply tcp_packet_bytes.
Defined.

(** A SYN to 10.0.0.2, port 80, in the context that the parsers leave. *)
Definition syn_to_web (m : Mgr) : St :=
  set_ctx (mkCtx (m_cfg m) (mkCursor (DATA_BGN + 54) (DATA_BGN + 54)) zero_ip 0 54
    (bpf_ntohs ETH_P_IP) 34 14 XFW_L4_PROTO_TCP) (sample_state sample_cfg (tcp_packet 2)).

Lemma dst_accepted : exists m',
  @set_dst_rules good_kernel (dst_rules sample_config) (fun _ => None) Mgr_fresh = (inr tt, m').
Proof.
  pose proof (@set_dst_rules_spec good_kernel _ (dst_rules sample_config) (fun _ => None) Mgr_fresh
    fresh_inv) as Ho. unfold xwp in Ho.
  destruct (set_dst_rules _ _ _) as [[e|[]] m']; [|by exists m'].
  destruct sample_config_valid. exfalso.
  destruct Ho as (_ & _ & [Hk|[[_ ?]|?]]); [|done|lia].
  by apply (@live_no_error good_kernel _ good_kernel_live) in Hk.
Qed.

Lemma dst_policy_enforced_witness : exists m' b,
  @set_dst_rules good_kernel (dst_rules sample_config) (fun _ => None) Mgr_fresh = (inr tt, m')
  /\ 0 <= b < N
  /\ xfw_dst_filter (managed_env m') (syn_to_web m')
     = bind (xfw_is_allowed_by_rlimits (mkRLimitRule b 1)) (fun ok =>
         if ok then ret XFW_CTX_CONTINUE
         else XFW_MAKE_CTX_DROP (managed_env m') XFW_DROP_DST_RATE_LIMITED) (syn_to_web m').
Proof.
  destruct dst_accepted as [m' Hs].
  destruct (@dst_policy_enforced good_kernel _ 1000 Mgr_fresh (dst_rules sample_config)
    (fun _ => None) m' (managed_env m') (syn_to_web m')
    (mkDstKey XFW_IP_VER_4 XFW_L4_PROTO_TCP 0x5000 (xfw_assign_ip4_addr 0x0200000a))
    XFW_DEFAULT_DST_TCP_IP4) as [Hen _].
  - apply reach_fresh.
  - exact Hs.
  - reflexivity.
  - reflexivity.
  - reflexivity.
  - destruct (Hen ("web"%string, dst_rule true (Some 1) 0x5000)) as [Hf _|_ Hf _|i b _ Hi Hb Ho].
    + apply list_elem_of_further, list_elem_of_here.
    + apply list_elem_of_here.
    + discriminate.
    + discriminate.
    + injection Hi as <-. exists m', b. split; [exact Hs|]. split; [exact Hb|exact Ho].
Defined.
