(* ===== verification/GeoIp.v ===== *)
(** * GeoIp: the import of a GeoIP database

    src/manager/xfw/geoip.cc, geoip.hh and [Xfw::load_geo_entry] of
    src/manager/xfw/xfw.cc. The database is a binary trie over the bits of an
    address whose leaves refer to data records; the importer walks it, reads the
    country of every leaf, merges sibling networks of one country, and builds a
    sorted list of networks per country.

    libmaxminddb is a parameter ([MMDB]): reading a node, reading a field of a
    data record, the metadata and the start of the IPv4 subtree. An exception is
    a value of [GeoError]. *)

From Stdlib Require Import Sorting.Sorted.
From stdpp Require Import sorting.
From S2P Require Import Prelude.
From S2P Require Import Uapi.
From S2P Require Import Kernel.
From S2P Require Import Config.

Inductive GeoError :=
  | GEO_PREFIX_LEN | GEO_CONFLICT | GEO_FIELD | GEO_COUNTRY_CODE | GEO_READ_NODE
  | GEO_DEPTH | GEO_NODE_NUMBER | GEO_RECORD_TYPE | GEO_IPV4_DEPTH | GEO_LOOKUP
  | GEO_OPEN | GEO_NO_DATABASE | GEO_NO_COUNTRY.

(** ** geoip.hh *)

(** Two lower-case letters. *)
Definition IsoCountryId : Type := Z * Z.

(** The functions of <ctype.h> in the C locale. *)
Definition isalpha (c : Z) : bool :=
  ((65 <=? c) && (c <=? 90)) || ((97 <=? c) && (c <=? 122)).
Definition tolower (c : Z) : Z := if (65 <=? c) && (c <=? 90) then c + 32 else c.

Definition mkIsoCountryId (code : list Z) : GeoError + IsoCountryId :=
  match code with
  | [c0; c1] =>
      if negb (isalpha c0) || negb (isalpha c1) then inl GEO_COUNTRY_CODE
      else inr (tolower c0, tolower c1)
  | _ => inl GEO_COUNTRY_CODE
  end.

(** [Net4Geo], [Net6Geo]: like the keys of a rule, a prefix length and an
    address in network byte order. *)
Record GeoCountry := mkGeoCountry { ip4 : list Net4Key; ip6 : list Net6Key }.

Abbreviation CountryMap := (gmap IsoCountryId GeoCountry).

(** ** libmaxminddb *)

Inductive MMDB_record :=
  | MMDB_RECORD_TYPE_EMPTY
  | MMDB_RECORD_TYPE_DATA (entry : Z)
  | MMDB_RECORD_TYPE_SEARCH_NODE (node : Z)
  | MMDB_RECORD_TYPE_INVALID.

(** The result of [MMDB_aget_value]: another error than a missing path; a missing
    path or a value without data; a value that is no string; a string. *)
Inductive MMDB_value :=
  | VALUE_ERROR | VALUE_ABSENT | VALUE_OTHER_TYPE | VALUE_STRING (s : list Z).

Inductive IsoPath := country_path | registered_country_path.

Class MMDB := {
  (** The left and the right record; [None] is an error. *)
  MMDB_read_node : Z -> option (MMDB_record * MMDB_record);
  MMDB_aget_value : Z -> IsoPath -> MMDB_value;
  ip_version : Z;
  node_count : Z;
  ipv4_start_node : Z;
  ipv4_start_netmask : Z;
  (** [MMDB_lookup_sockaddr] of 0.0.0.0: [inl] is an error. *)
  MMDB_lookup_root4 : unit + option Z
}.

(** ** geoip.cc

    An address is the array of its bytes. *)

Definition addr_bits (addr : list Z) : nat := length addr * 8.

Definition prefix_mask (bit : nat) : Z := u8 (Z.shiftr 0x80 (Z.land (Z.of_nat bit) 7)).
Definition octet_of (bit : nat) : nat := Z.to_nat (Z.shiftr (Z.of_nat bit) 3).

Definition set_prefix_bit (addr : list Z) (bit : nat) (value : bool) : list Z :=
  let mask := prefix_mask bit in
  alter (fun b => if value then u8 (Z.lor b mask) else u8 (Z.land b (u8 (Z.lnot mask))))
    (octet_of bit) addr.

Definition canonicalize_prefix (addr : list Z) (prefixlen : nat) : GeoError + list Z :=
  if (addr_bits addr <? prefixlen)%nat then inl GEO_PREFIX_LEN else
  if (prefixlen =? addr_bits addr)%nat then inr addr else
  let octet := octet_of prefixlen in
  let rem := Z.land (Z.of_nat prefixlen) 7 in
  let '(addr, octet) :=
    if rem =? 0 then (addr, octet)
    else (alter (fun b => Z.land b (u8 (Z.shiftl 0xff (8 - rem)))) octet addr, S octet) in
  inr (take octet addr ++ replicate (length addr - octet) 0).

(** [PrefixBuckets]: one map per prefix length. *)
Abbreviation PrefixMap := (gmap (list Z) IsoCountryId).
Abbreviation PrefixBuckets := (list PrefixMap).

Definition bucket (buckets : PrefixBuckets) (prefixlen : nat) : PrefixMap :=
  default ∅ (buckets !! prefixlen).

(** Flip the last network bit. *)
Definition sibling_of (addr : list Z) (bit : nat) : list Z :=
  alter (fun b => u8 (Z.lxor b (prefix_mask bit))) (octet_of bit) addr.

(** The loop of [merge_prefix]; [prefixlen] decreases. *)
Fixpoint merge_loop (country : IsoCountryId) (buckets : PrefixBuckets) (addr : list Z)
    (prefixlen : nat) : PrefixBuckets * list Z * nat :=
  match prefixlen with
  | O => (buckets, addr, O)
  | S bit =>
      let sibling := sibling_of addr bit in
      match bucket buckets prefixlen !! sibling with
      | Some c =>
          if decide (c = country)
          then merge_loop country (alter (delete sibling) prefixlen buckets)
                 (set_prefix_bit addr bit false) bit
          else (buckets, addr, prefixlen)
      | None => (buckets, addr, prefixlen)
      end
  end.

Definition merge_prefix (buckets : PrefixBuckets) (country : IsoCountryId) (addr : list Z)
    (prefixlen : nat) : GeoError + PrefixBuckets :=
  let? addr := canonicalize_prefix addr prefixlen in
  let '(buckets, addr, prefixlen) := merge_loop country buckets addr prefixlen in
  match bucket buckets prefixlen !! addr with
  | None => inr (alter (insert addr country) prefixlen buckets)
  | Some c => if decide (c = country) then inr buckets else inl GEO_CONFLICT
  end.

Section import.
Context `{MMDB}.

Definition read_iso_code (entry : Z) (path : IsoPath) : GeoError + option IsoCountryId :=
  match MMDB_aget_value entry path with
  | VALUE_ABSENT => inr None
  | VALUE_ERROR | VALUE_OTHER_TYPE => inl GEO_FIELD
  | VALUE_STRING s =>
      if negb (length s =? 2)%nat then inl GEO_FIELD
      else let? c := mkIsoCountryId s in inr (Some c)
  end.

Definition read_country (entry : Z) : GeoError + option IsoCountryId :=
  let? country := read_iso_code entry country_path in
  match country with
  | Some _ => inr country
  | None => read_iso_code entry registered_country_path
  end.

Definition add_country_prefix (entry : Z) (addr : list Z) (prefixlen : nat)
    (buckets : PrefixBuckets) : GeoError + PrefixBuckets :=
  let? country := read_country entry in
  match country with
  | Some c => merge_prefix buckets c addr prefixlen
  | None => inr buckets
  end.

(** The lambda of [walk_search_tree]; [walk] is the recursive call. *)
Definition visit_rec (walk : Z -> list Z -> nat -> PrefixBuckets -> GeoError + PrefixBuckets)
    (skipped_search_node : option Z) (prefix : list Z) (depth : nat)
    (rec : MMDB_record) (is_right : bool) (buckets : PrefixBuckets) : GeoError + PrefixBuckets :=
  let child_prefix := set_prefix_bit prefix depth is_right in
  match rec with
  | MMDB_RECORD_TYPE_EMPTY => inr buckets
  | MMDB_RECORD_TYPE_DATA entry => add_country_prefix entry child_prefix (S depth) buckets
  | MMDB_RECORD_TYPE_SEARCH_NODE rec =>
      if UINT32_MAX <? rec then inl GEO_NODE_NUMBER else
      if decide (skipped_search_node = Some rec) then inr buckets else
      walk rec child_prefix (S depth) buckets
  | MMDB_RECORD_TYPE_INVALID => inl GEO_RECORD_TYPE
  end.

(** [remaining] is [bits - depth]: at zero the tree exceeds the address width. *)
Fixpoint walk_search_tree (skipped_search_node : option Z) (remaining : nat)
    (node_number : Z) (prefix : list Z) (depth : nat) (buckets : PrefixBuckets)
    : GeoError + PrefixBuckets :=
  match remaining with
  | O => inl GEO_DEPTH
  | S remaining =>
      match MMDB_read_node node_number with
      | None => inl GEO_READ_NODE
      | Some (left_record, right_record) =>
          let visit := visit_rec (walk_search_tree skipped_search_node remaining)
                         skipped_search_node prefix depth in
          let? buckets := visit left_record false buckets in
          visit right_record true buckets
      end
  end.

Definition Ip4Addr_zero : list Z := replicate 4 0.
Definition Ip6Addr_zero : list Z := replicate 16 0.

Definition import_ipv4_tree (prefixes : PrefixBuckets) : GeoError + PrefixBuckets :=
  if ip_version =? 4 then walk_search_tree None 32 0 Ip4Addr_zero 0 prefixes else
  if ipv4_start_node <? node_count then
    if ipv4_start_netmask =? 96
    then walk_search_tree None 32 ipv4_start_node Ip4Addr_zero 0 prefixes
    else inl GEO_IPV4_DEPTH
  else if ipv4_start_node =? node_count then inr prefixes
  else match MMDB_lookup_root4 with
       | inl _ => inl GEO_LOOKUP
       | inr (Some entry) => add_country_prefix entry Ip4Addr_zero 0 prefixes
       | inr None => inr prefixes
       end.

Definition ipv4_subtree : option Z :=
  if (ipv4_start_netmask =? 96) && (ipv4_start_node <? node_count)
  then Some ipv4_start_node else None.

Definition import_ipv6_tree (prefixes : PrefixBuckets) : GeoError + PrefixBuckets :=
  if negb (ip_version =? 6) then inr prefixes
  else walk_search_tree ipv4_subtree 128 0 Ip6Addr_zero 0 prefixes.
End import.

(** Sorting by the bytes of the address, then by the length of the prefix. *)
Definition net4_bytes (n : Net4Key) : list Z := le_split 4 (n4_addr n).
Definition ip6_bytes (a : XfwIp) : list Z :=
  le_split 4 (addr32_0 a) ++ le_split 4 (addr32_1 a)
  ++ le_split 4 (addr32_2 a) ++ le_split 4 (addr32_3 a).
Definition net6_bytes (n : Net6Key) : list Z := ip6_bytes (n6_addr n).

(** [operator<] of [std::array]. *)
Fixpoint lex_ltb (a b : list Z) : bool :=
  match a, b with
  | x :: a, y :: b => (x <? y) || ((x =? y) && lex_ltb a b)
  | [], _ :: _ => true
  | _, _ => false
  end.

(** Not after in the order of the comparison function of the sort. *)
Definition net4_le (a b : Net4Key) : Prop :=
  lex_ltb (net4_bytes a) (net4_bytes b) = true
  \/ (net4_bytes a = net4_bytes b /\ n4_prefixlen a <= n4_prefixlen b).
Definition net6_le (a b : Net6Key) : Prop :=
  lex_ltb (net6_bytes a) (net6_bytes b) = true
  \/ (net6_bytes a = net6_bytes b /\ n6_prefixlen a <= n6_prefixlen b).

#[export] Instance net4_le_dec : RelDecision net4_le.
Proof. intros a b. unfold net4_le. apply _. Defined.
#[export] Instance net6_le_dec : RelDecision net6_le.
Proof. intros a b. unfold net6_le. apply _. Defined.

Definition ip6_of_bytes (b : list Z) : XfwIp :=
  mkIp (le_combine (take 4 b)) (le_combine (take 4 (drop 4 b)))
    (le_combine (take 4 (drop 8 b))) (le_combine (take 4 (drop 12 b))).

(** [map[country].ip4.push_back(n)]. *)
Definition push_ip4 (map : CountryMap) (country : IsoCountryId) (n : Net4Key) : CountryMap :=
  let g := default (mkGeoCountry [] []) (map !! country) in
  <[country := mkGeoCountry (ip4 g ++ [n]) (ip6 g)]> map.
Definition push_ip6 (map : CountryMap) (country : IsoCountryId) (n : Net6Key) : CountryMap :=
  let g := default (mkGeoCountry [] []) (map !! country) in
  <[country := mkGeoCountry (ip4 g) (ip6 g ++ [n])]> map.

(** The elements of all buckets in the order of the loops. *)
Definition bucket_entries (prefixes : PrefixBuckets) : list (nat * (list Z * IsoCountryId)) :=
  plen ← seq 0 (length prefixes); (pair plen) <$> map_to_list (bucket prefixes plen).

Definition sort_country_prefixes (map : CountryMap) : CountryMap :=
  (fun g => mkGeoCountry (merge_sort net4_le (ip4 g)) (merge_sort net6_le (ip6 g))) <$> map.

Definition build_country_map (ip4_prefixes ip6_prefixes : PrefixBuckets) : CountryMap :=
  let map := foldl (fun map e =>
      push_ip4 map e.2.2 (mkNet4Key (u16 (Z.of_nat e.1)) (le_combine e.2.1)))
    ∅ (bucket_entries ip4_prefixes) in
  let map := foldl (fun map e =>
      push_ip6 map e.2.2 (mkNet6Key (u16 (Z.of_nat e.1)) (ip6_of_bytes e.2.1)))
    map (bucket_entries ip6_prefixes) in
  sort_country_prefixes map.

Definition import_maxmind_geodata `{MMDB} : GeoError + CountryMap :=
  let? ip4_prefixes := import_ipv4_tree (replicate 33 ∅) in
  let? ip6_prefixes := import_ipv6_tree (replicate 129 ∅) in
  inr (build_country_map ip4_prefixes ip6_prefixes).

(** [Country2IpMap::reload]: [None] when the file cannot be opened; the map is
    replaced only after a complete import. *)
Definition reload (db : option MMDB) (map_ : CountryMap) : option GeoError * CountryMap :=
  match db with
  | None => (Some GEO_OPEN, map_)
  | Some db =>
      match @import_maxmind_geodata db with
      | inl e => (Some e, map_)
      | inr new_map => (None, new_map)
      end
  end.

(** [Xfw::load_geo_entry] on the entry with the given code. *)
Definition load_geo_entry (geodb : CountryMap) (code : Z) (includeIp4 includeIp6 : bool)
    : GeoError + NetGeo :=
  if decide (geodb = ∅) then inl GEO_NO_DATABASE else
  let? country := mkIsoCountryId (le_split 2 code) in
  match geodb !! country with
  | None => inl GEO_NO_COUNTRY
  | Some ips => inr (mkNetGeo code (if includeIp4 then ip4 ips else [])
                       (if includeIp6 then ip6 ips else []))
  end.
