(* ===== verification/GeoIpSpec.v ===== *)
(** * GeoIpSpec: the imported networks are those of the database

    Merging networks keeps the set of addresses of every country, the walk of the
    tree visits every address exactly once, and the lists built for the countries
    hold exactly the merged networks, so that an address matches a network of a
    country exactly if the database maps the address to that country. *)

From Stdlib Require Import Sorting.Sorted.
From stdpp Require Import sorting.
From S2P Require Import Prelude.
From S2P Require Import Uapi.
From S2P Require Import Kernel.
From S2P Require Import Config.
From S2P Require Import GeoIp.

(** ** The bits of an address, from the most significant one *)

Definition wf_addr (n : nat) (a : list Z) : Prop := length a = n /\ Forall is_byte a.

Definition abit (a : list Z) (i : nat) : bool :=
  match a !! (i / 8)%nat with
  | Some b => Z.testbit b (7 - Z.of_nat (i mod 8))
  | None => false
  end.

Lemma octet_of_div i : octet_of i = (i / 8)%nat.
Proof.
  unfold octet_of. rewrite Z.shiftr_div_pow2 by lia. change (2 ^ 3) with (Z.of_nat 8).
  by rewrite <- Nat2Z.inj_div, Nat2Z.id.
Qed.

Lemma land_7 i : Z.land (Z.of_nat i) 7 = Z.of_nat (i mod 8).
Proof. rewrite (Z.land_ones _ 3) by lia. by rewrite Nat2Z.inj_mod. Qed.

Lemma prefix_mask_bit i k : 0 <= k ->
  Z.testbit (prefix_mask i) k = bool_decide (k = 7 - Z.of_nat (i mod 8)).
Proof.
  intros Hk. unfold prefix_mask. rewrite land_7.
  pose proof (Nat.mod_upper_bound i 8 ltac:(lia)) as Hi.
  assert (Hm : u8 (Z.shiftr 128 (Z.of_nat (i mod 8))) = 2 ^ (7 - Z.of_nat (i mod 8))).
  { destruct (i mod 8)%nat as [|[|[|[|[|[|[|[|?]]]]]]]]; [reflexivity..|lia]. }
  rewrite Hm. destruct (bool_decide_reflect (k = 7 - Z.of_nat (i mod 8))) as [->|Hne].
  - apply Z.pow2_bits_true. lia.
  - apply Z.pow2_bits_false. lia.
Qed.

(** Same octet and same bit in it. *)
Lemma same_bit i j :
  (i / 8 = j / 8)%nat -> (i mod 8 = j mod 8)%nat -> i = j.
Proof. intros. rewrite (Nat.div_mod_eq i 8), (Nat.div_mod_eq j 8). lia. Qed.

Lemma u8_bit x k : 0 <= k < 8 -> Z.testbit (u8 x) k = Z.testbit x k.
Proof. intros. unfold wrap. by rewrite Z.mod_pow2_bits_low by lia. Qed.

(** Changing one octet bit by bit. *)
Lemma abit_alter (f : Z -> Z) (g : bool -> bool) bit a i :
  (i < addr_bits a)%nat ->
  (forall b k, 0 <= k < 8 -> Z.testbit (f b) k
     = if decide (k = 7 - Z.of_nat (bit mod 8)) then g (Z.testbit b k) else Z.testbit b k) ->
  abit (alter f (octet_of bit) a) i = if decide (i = bit) then g (abit a i) else abit a i.
Proof.
  intros Hi Hf. unfold abit. rewrite octet_of_div. unfold addr_bits in Hi.
  destruct (lookup_lt_is_Some_2 a (i / 8)) as [b Hb].
  { apply Nat.Div0.div_lt_upper_bound. lia. }
  pose proof (Nat.mod_upper_bound i 8 ltac:(lia)).
  destruct (decide (bit / 8 = i / 8)%nat) as [He|He].
  - rewrite He, list_lookup_alter_eq, Hb. cbn [fmap option_fmap option_map]. rewrite Hf by lia.
    destruct (decide (i = bit)) as [->|Hne]; [by rewrite decide_True|].
    rewrite decide_False; [done|]. intros Hk. apply Hne, same_bit; [done|].
    pose proof (Nat.mod_upper_bound bit 8 ltac:(lia)). lia.
  - rewrite list_lookup_alter_ne, Hb by done. by rewrite decide_False by congruence.
Qed.

Lemma wf_alter n (f : Z -> Z) k a :
  (forall b, is_byte b -> is_byte (f b)) -> wf_addr n a -> wf_addr n (alter f k a).
Proof.
  intros Hf [Hl Ha]. split; [by rewrite length_alter|].
  apply Forall_alter; [done|]. eauto.
Qed.

Lemma set_prefix_bit_wf n a bit v : wf_addr n a -> wf_addr n (set_prefix_bit a bit v).
Proof. apply wf_alter. intros b Hb. destruct v; apply u8_byte. Qed.

Lemma abit_set a bit v i : (i < addr_bits a)%nat ->
  abit (set_prefix_bit a bit v) i = if decide (i = bit) then v else abit a i.
Proof.
  intros Hi. apply (abit_alter _ (fun _ => v)); [done|]. intros b k Hk. destruct v.
  - rewrite u8_bit, Z.lor_spec, prefix_mask_bit by lia.
    case_decide; [rewrite bool_decide_eq_true_2 by done; apply orb_true_r|].
    by rewrite bool_decide_eq_false_2, orb_false_r by done.
  - rewrite u8_bit, Z.land_spec, u8_bit, Z.lnot_spec, prefix_mask_bit by lia.
    case_decide; [rewrite bool_decide_eq_true_2 by done; apply andb_false_r|].
    by rewrite bool_decide_eq_false_2, andb_true_r by done.
Qed.

Lemma sibling_wf n a bit : wf_addr n a -> wf_addr n (sibling_of a bit).
Proof. apply wf_alter. intros b Hb. apply u8_byte. Qed.

Lemma abit_sibling a bit i : (i < addr_bits a)%nat ->
  abit (sibling_of a bit) i = if decide (i = bit) then negb (abit a i) else abit a i.
Proof.
  intros Hi. apply (abit_alter _ negb); [done|]. intros b k Hk.
  rewrite u8_bit, Z.lxor_spec, prefix_mask_bit by lia.
  case_decide; [rewrite bool_decide_eq_true_2 by done; apply xorb_true_r|].
  by rewrite bool_decide_eq_false_2, xorb_false_r by done.
Qed.

(** Two addresses with the same bits are equal. *)
Lemma abit_ext n a b :
  wf_addr n a -> wf_addr n b -> (forall i, (i < n * 8)%nat -> abit a i = abit b i) -> a = b.
Proof.
  intros [Hla Ha] [Hlb Hb] He. apply (list_eq_same_length _ _ n); [done..|].
  intros j x y Hj Hx Hy.
  rewrite Forall_lookup in Ha, Hb. pose proof (Ha _ _ Hx) as Hbx. pose proof (Hb _ _ Hy) as Hby.
  apply Z.bits_inj'. intros k Hk. destruct (decide (k < 8)) as [Hk8|Hk8].
  - specialize (He (j * 8 + Z.to_nat (7 - k))%nat ltac:(lia)). unfold abit in He.
    rewrite Nat.div_add_l, (Nat.div_small (Z.to_nat _)), Nat.add_0_r in He by lia.
    rewrite Nat.add_comm, Nat.Div0.mod_add, Nat.mod_small, Hx, Hy in He by lia.
    by replace (7 - Z.of_nat (Z.to_nat (7 - k))) with k in He by lia.
  - assert (H : forall z, is_byte z -> Z.testbit z k = false); [|by rewrite !H].
    intros z Hz. apply (testbit_above z 8); [exact Hz|lia].
Qed.

(** The bits after the prefix are cleared. *)
Definition canonical (n : nat) (a : list Z) (l : nat) : Prop :=
  wf_addr n a /\ (l <= n * 8)%nat /\ forall i, (l <= i)%nat -> abit a i = false.

Lemma abit_out n a i : wf_addr n a -> (n * 8 <= i)%nat -> abit a i = false.
Proof.
  intros [Hl _] Hi. unfold abit. rewrite lookup_ge_None_2; [done|]. rewrite Hl.
  apply Nat.div_le_lower_bound; lia.
Qed.

Lemma div8_lt i j : (i / 8 < j)%nat <-> (i < j * 8)%nat.
Proof.
  split; intros.
  - pose proof (Nat.div_mod_eq i 8). pose proof (Nat.mod_upper_bound i 8). lia.
  - apply Nat.Div0.div_lt_upper_bound. lia.
Qed.

(** Keep [o] octets and clear the others. *)
Lemma abit_fill a o i : (o <= length a)%nat ->
  abit (take o a ++ replicate (length a - o) 0) i = if decide (i < o * 8)%nat then abit a i else false.
Proof.
  intros Ho. unfold abit. destruct (decide (i / 8 < o)%nat) as [Hi|Hi].
  - rewrite lookup_app_l, lookup_take_lt by (rewrite ?length_take; lia).
    by rewrite decide_True by by apply div8_lt.
  - rewrite decide_False by (by rewrite <- div8_lt).
    rewrite lookup_app_r by (rewrite length_take; lia).
    destruct (replicate _ _ !! _) as [z|] eqn:Hz; [|done].
    apply lookup_replicate in Hz as [-> _]. apply Z.bits_0.
Qed.

Lemma clear_mask_bit r k : 1 <= r <= 7 -> 0 <= k < 8 ->
  Z.testbit (u8 (Z.shiftl 255 (8 - r))) k = bool_decide (8 - r <= k).
Proof.
  intros Hr Hk. rewrite u8_bit by lia. rewrite Z.shiftl_spec by lia.
  case_bool_decide as H.
  - rewrite (Z.testbit_ones_nonneg 8); [|lia..]. apply Z.ltb_lt. lia.
  - apply Z.testbit_neg_r. lia.
Qed.

Lemma abit_clear a l i :
  (l mod 8 <> 0)%nat -> (i / 8 <= l / 8)%nat ->
  abit (alter (fun b => Z.land b (u8 (Z.shiftl 255 (8 - Z.of_nat (l mod 8))))) (l / 8)%nat a) i
  = if decide (i < l)%nat then abit a i else false.
Proof.
  intros Hr Hi. pose proof (Nat.mod_upper_bound l 8 ltac:(lia)) as Hl.
  pose proof (Nat.mod_upper_bound i 8 ltac:(lia)) as Hm.
  pose proof (Nat.div_mod_eq i 8) as Hdi. pose proof (Nat.div_mod_eq l 8) as Hdl.
  unfold abit. destruct (decide (l / 8 = i / 8)%nat) as [He|He].
  - rewrite He, list_lookup_alter_eq. destruct (a !! (i / 8)%nat) as [b|];
      cbn [fmap option_fmap option_map]; [|by case_decide].
    rewrite Z.land_spec, clear_mask_bit by lia.
    case_bool_decide; case_decide; rewrite ?andb_true_r, ?andb_false_r; done || lia.
  - rewrite list_lookup_alter_ne by done. by rewrite decide_True by lia.
Qed.

Lemma land_byte b m : is_byte b -> is_byte m -> is_byte (Z.land b m).
Proof.
  intros Hb Hm. assert (Z.land b m = u8 (Z.land b m)) as ->; [|apply u8_byte].
  unfold wrap. symmetry. apply Z.mod_small. split; [apply Z.land_nonneg; left; apply Hb|].
  unfold is_byte in *. destruct (decide (Z.land b m = 0)) as [->|]; [lia|].
  assert (0 <= Z.land b m) by (apply Z.land_nonneg; lia).
  apply Z.log2_lt_pow2; [lia|]. eapply Z.le_lt_trans; [apply Z.log2_land; lia|].
  apply Z.min_lt_iff. left. destruct (decide (b = 0)) as [->|]; [cbn; lia|].
  apply Z.log2_lt_pow2; lia.
Qed.

Lemma fill_wf n a o : wf_addr n a -> (o <= n)%nat ->
  wf_addr n (take o a ++ replicate (length a - o) 0).
Proof.
  intros [Hl Ha] Ho. split; [rewrite length_app, length_take, length_replicate; lia|].
  apply Forall_app. split; [by apply Forall_take|].
  apply Forall_replicate. unfold is_byte. lia.
Qed.

Lemma canonicalize_spec n a l : wf_addr n a -> (l <= n * 8)%nat ->
  exists a', canonicalize_prefix a l = inr a' /\ canonical n a' l
    /\ forall i, (i < l)%nat -> abit a' i = abit a i.
Proof.
  intros Hwf Hl. pose proof Hwf as [Hn _]. unfold canonicalize_prefix, addr_bits. rewrite Hn.
  rewrite (proj2 (Nat.ltb_ge _ _)) by lia. destruct (Nat.eqb_spec l (n * 8)) as [->|Hne].
  { exists a. split_and!; [done| |done]. split_and!; [done..|]. intros i. by apply abit_out. }
  rewrite octet_of_div, land_7.
  pose proof (Nat.div_mod_eq l 8) as Hd. pose proof (Nat.mod_upper_bound l 8 ltac:(lia)) as Hm.
  destruct (Z.eqb_spec (Z.of_nat (l mod 8)) 0) as [H0|H0].
  - exists (take (l / 8) a ++ replicate (length a - l / 8) 0). rewrite Hn.
    assert (He : (l / 8 * 8 = l)%nat) by lia.
    pose proof (abit_fill a (l / 8)) as Hf. rewrite Hn, He in Hf.
    split_and!; [done|split_and!|].
    + rewrite <- Hn at 2. apply fill_wf; [done|lia].
    + done.
    + intros i Hi. rewrite Hf by lia. by rewrite decide_False by lia.
    + intros i Hi. rewrite Hf by lia. by rewrite decide_True by lia.
  - set (a1 := alter _ (l / 8)%nat a).
    assert (Hwf1 : wf_addr n a1).
    { apply wf_alter; [|done]. intros b Hb. apply land_byte; [done|apply u8_byte]. }
    destruct (Hwf1) as [Hn1 _]. eexists. split_and!; [done|split_and!|].
    + rewrite Hn1. rewrite <- Hn1 at 2. apply fill_wf; [done|lia].
    + done.
    + intros i Hi. rewrite abit_fill by lia. case_decide; [|done].
      unfold a1. rewrite abit_clear by (rewrite ?Nat.lt_succ_r, <- ?div8_lt in *; lia).
      by rewrite decide_False by lia.
    + intros i Hi. rewrite abit_fill by lia. rewrite decide_True by lia.
      unfold a1. rewrite abit_clear by (try apply Nat.Div0.div_le_mono; lia).
      by rewrite decide_True by lia.
Qed.

(** ** Merging networks *)

(** [x] belongs to the network [p]/[l]. *)
Definition in_prefix (x p : list Z) (l : nat) : Prop :=
  forall i, (i < l)%nat -> abit x i = abit p i.

Definition covers (b : PrefixBuckets) (c : IsoCountryId) (x : list Z) : Prop :=
  exists l p, bucket b l !! p = Some c /\ in_prefix x p l.

Section merge.
Context (n : nat).

(** No address of [p]/[l] belongs to a network yet. *)
Definition free (b : PrefixBuckets) (p : list Z) (l : nat) : Prop :=
  forall c x, wf_addr n x -> in_prefix x p l -> ~ covers b c x.

(** The networks are canonical and disjoint, and no two halves of a network
    belong to the same country. *)
Record buckets_inv (b : PrefixBuckets) : Prop := mkBucketsInv {
  bi_length : length b = S (n * 8);
  bi_canonical l p c : bucket b l !! p = Some c -> canonical n p l;
  bi_disjoint l1 p1 c1 l2 p2 c2 x :
    bucket b l1 !! p1 = Some c1 -> bucket b l2 !! p2 = Some c2 ->
    wf_addr n x -> in_prefix x p1 l1 -> in_prefix x p2 l2 -> l1 = l2 /\ p1 = p2;
  bi_merged bit p c :
    bucket b (S bit) !! p = Some c -> bucket b (S bit) !! sibling_of p bit <> Some c
}.

Lemma bucket_alter (b : PrefixBuckets) (f : PrefixMap -> PrefixMap) l j :
  (l < length b)%nat -> bucket (alter f l b) j = if decide (j = l) then f (bucket b l) else bucket b j.
Proof.
  intros Hl. unfold bucket. case_decide as Hj.
  - subst j. rewrite list_lookup_alter_eq. destruct (lookup_lt_is_Some_2 b l Hl) as [m ->]. done.
  - by rewrite list_lookup_alter_ne by done.
Qed.

Lemma wf_bits a : wf_addr n a -> addr_bits a = (n * 8)%nat.
Proof. intros [Hl _]. unfold addr_bits. by rewrite Hl. Qed.

(** Both halves of a network. *)
Lemma in_prefix_halves x a bit :
  wf_addr n a -> (bit < n * 8)%nat ->
  in_prefix x (set_prefix_bit a bit false) bit
  <-> in_prefix x a (S bit) \/ in_prefix x (sibling_of a bit) (S bit).
Proof.
  intros Ha Hb. pose proof (wf_bits a Ha) as Hn.
  assert (Hp : in_prefix x (set_prefix_bit a bit false) bit <-> in_prefix x a bit).
  { split; intros Hx i Hi; specialize (Hx i Hi); rewrite abit_set in * by lia;
      by rewrite decide_False in * by lia. }
  assert (HS : forall p, in_prefix x p (S bit) <-> in_prefix x p bit /\ abit x bit = abit p bit).
  { intros p. split.
    - intros Hx. split; [intros i Hi; apply Hx; lia|apply Hx; lia].
    - intros [Hx He] i Hi. destruct (decide (i = bit)) as [->|]; [done|apply Hx; lia]. }
  assert (Hs : in_prefix x (sibling_of a bit) bit <-> in_prefix x a bit).
  { split; intros Hx i Hi; specialize (Hx i Hi); rewrite abit_sibling in * by lia;
      by rewrite decide_False in * by lia. }
  rewrite Hp, !HS, Hs, abit_sibling, decide_True by lia || done.
  destruct (abit x bit), (abit a bit); naive_solver.
Qed.

Lemma parent_canonical a bit : canonical n a (S bit) -> canonical n (set_prefix_bit a bit false) bit.
Proof.
  intros (Hw & Hl & H0). split_and!; [by apply set_prefix_bit_wf|lia|]. intros i Hi.
  destruct (decide (i < n * 8)%nat) as [Hn|Hn].
  - rewrite abit_set by by rewrite (wf_bits a Hw). case_decide; [done|]. apply H0. lia.
  - apply (abit_out n); [by apply set_prefix_bit_wf|lia].
Qed.

(** Entries of [b1] are entries of [b]. *)
Lemma delete_entry (b : PrefixBuckets) bit s l p c : (S bit < length b)%nat ->
  bucket (alter (delete s) (S bit) b) l !! p = Some c
  <-> bucket b l !! p = Some c /\ ~ (l = S bit /\ p = s).
Proof.
  intros Hl. rewrite bucket_alter by done. case_decide as Hj; [subst l|naive_solver].
  rewrite lookup_delete_Some. naive_solver.
Qed.

Lemma delete_inv (b : PrefixBuckets) bit s : (S bit < length b)%nat ->
  buckets_inv b -> buckets_inv (alter (delete s) (S bit) b).
Proof.
  intros Hlt [Hl Hc Hd Hm]. split.
  - by rewrite length_alter.
  - intros l p c Hp. apply delete_entry in Hp as [Hp _]; [by eapply Hc|done].
  - intros l1 p1 c1 l2 p2 c2 x H1 H2.
    apply delete_entry in H1 as [H1 _], H2 as [H2 _]; [by apply (Hd _ _ c1 _ _ c2)|done..].
  - intros bi p c H1 H2.
    apply delete_entry in H1 as [H1 _], H2 as [H2 _]; [by apply (Hm bi p c)|done..].
Qed.

Lemma covers_delete (b : PrefixBuckets) bit s c c' x : (S bit < length b)%nat ->
  bucket b (S bit) !! s = Some c ->
  covers b c' x
  <-> covers (alter (delete s) (S bit) b) c' x \/ (c' = c /\ in_prefix x s (S bit)).
Proof.
  intros Hlt Hs. split.
  - intros (l & p & Hp & Hx). destruct (decide (l = S bit /\ p = s)) as [[-> ->]|Hne].
    + right. split; [congruence|done].
    + left. exists l, p. by rewrite delete_entry.
  - intros [(l & p & Hp & Hx)|[-> Hx]]; [|by exists (S bit), s].
    apply delete_entry in Hp as [Hp _]; [by exists l, p|done].
Qed.

(** What is left to insert when the loop stops. *)
Record merged_to (c : IsoCountryId) (b : PrefixBuckets) (a : list Z) (l : nat)
    (b' : PrefixBuckets) (a' : list Z) (l' : nat) : Prop := mkMergedTo {
  mt_inv : buckets_inv b';
  mt_canonical : canonical n a' l';
  mt_free : free b' a' l';
  mt_covers c' x : wf_addr n x ->
    covers b' c' x \/ (c' = c /\ in_prefix x a' l') <-> covers b c' x \/ (c' = c /\ in_prefix x a l);
  mt_sibling bit : l' = S bit -> bucket b' l' !! sibling_of a' bit <> Some c
}.

(** One step up: the sibling is removed and the parent takes its place. *)
Lemma merge_step c b a bit :
  buckets_inv b -> canonical n a (S bit) -> free b a (S bit) ->
  bucket b (S bit) !! sibling_of a bit = Some c ->
  let b1 := alter (delete (sibling_of a bit)) (S bit) b in
  let a1 := set_prefix_bit a bit false in
  buckets_inv b1 /\ canonical n a1 bit /\ free b1 a1 bit
  /\ forall c' x, wf_addr n x ->
       covers b1 c' x \/ (c' = c /\ in_prefix x a1 bit)
       <-> covers b c' x \/ (c' = c /\ in_prefix x a (S bit)).
Proof.
  intros Hi Hc Hf Hs b1 a1. destruct Hc as (Hw & Hl & H0).
  assert (Hlt : (S bit < length b)%nat) by (rewrite (bi_length _ Hi); lia).
  pose proof (fun x => in_prefix_halves x a bit Hw Hl) as Hh.
  pose proof (fun c' x => covers_delete b bit (sibling_of a bit) c c' x Hlt Hs) as Hcd.
  split_and!; [by apply delete_inv|by apply parent_canonical| |].
  - intros c' x Hx Hin (l & p & Hp & Hxp).
    apply delete_entry in Hp as [Hp Hne]; [|done]. apply Hh in Hin as [Hin|Hin].
    + apply (Hf c' x Hx Hin). by exists l, p.
    + apply Hne. apply (bi_disjoint _ Hi l p c' (S bit) _ c x); done.
  - intros c' x Hx. unfold a1. rewrite Hh, Hcd. fold b1. naive_solver.
Qed.

Lemma merge_loop_spec c l : forall b a,
  buckets_inv b -> canonical n a l -> free b a l ->
  let '(b', a', l') := merge_loop c b a l in merged_to c b a l b' a' l'.
Proof.
  induction l as [|bit IH]; intros b a Hi Hc Hf; cbn [merge_loop]; [by split|].
  destruct (bucket b (S bit) !! sibling_of a bit) as [c'|] eqn:Hs.
  2:{ split; try done. intros bit' [= <-]. by rewrite Hs. }
  case_decide as Hcc; [subst c'|split; try done; intros bit' [= <-]; rewrite Hs; congruence].
  destruct (merge_step c b a bit Hi Hc Hf Hs) as (Hi1 & Hc1 & Hf1 & Hcov).
  specialize (IH _ _ Hi1 Hc1 Hf1). destruct (merge_loop _ _ _ bit) as [[b' a'] l'].
  destruct IH as [? ? ? Hcv ?]. split; try done.
  intros c' x Hx. by rewrite Hcv, Hcov.
Qed.

Lemma sibling_sibling a bit : wf_addr n a -> (bit < n * 8)%nat ->
  sibling_of (sibling_of a bit) bit = a.
Proof.
  intros Ha Hb. pose proof (sibling_wf n a bit Ha) as Hs.
  apply (abit_ext n); [by apply sibling_wf|done|]. intros i Hi.
  rewrite !abit_sibling by (rewrite wf_bits; done).
  case_decide; [apply negb_involutive|done].
Qed.

Lemma insert_entry (b : PrefixBuckets) a c l l' p c' : (l < length b)%nat ->
  bucket b l !! a = None ->
  bucket (alter (insert a c) l b) l' !! p = Some c'
  <-> bucket b l' !! p = Some c' \/ (l' = l /\ p = a /\ c' = c).
Proof.
  intros Hl Hn. rewrite bucket_alter by done. case_decide as Hj; [subst l'|naive_solver].
  rewrite lookup_insert_Some. split; [naive_solver|].
  intros [Hp|(_ & -> & ->)]; [right; split; [congruence|done]|by left].
Qed.

Lemma insert_inv b a c l :
  buckets_inv b -> canonical n a l -> free b a l ->
  (forall bit, l = S bit -> bucket b l !! sibling_of a bit <> Some c) ->
  bucket b l !! a = None
  /\ buckets_inv (alter (insert a c) l b)
  /\ forall c' x, covers (alter (insert a c) l b) c' x
       <-> covers b c' x \/ (c' = c /\ in_prefix x a l).
Proof.
  intros Hi Hc Hf Hs. pose proof Hc as (Hw & Hl & H0).
  assert (Hlt : (l < length b)%nat) by (rewrite (bi_length _ Hi); lia).
  assert (Hn : bucket b l !! a = None).
  { destruct (bucket b l !! a) as [c0|] eqn:H1; [|done]. exfalso.
    apply (Hf c0 a Hw); [done|]. by exists l, a. }
  pose proof (fun l' p c' => insert_entry b a c l l' p c' Hlt Hn) as He.
  split_and!; [done| |].
  - destruct Hi as [Hlen Hcan Hdis Hmer]. split.
    + by rewrite length_alter.
    + intros l' p c' [Hp|(-> & -> & ->)]%He; [by eapply Hcan|done].
    + intros l1 p1 c1 l2 p2 c2 x [H1|(-> & -> & ->)]%He [H2|(-> & -> & ->)]%He Hx Hx1 Hx2;
        [by apply (Hdis l1 p1 c1 l2 p2 c2 x)|exfalso..|done].
      * apply (Hf c1 x Hx Hx2). by exists l1, p1.
      * apply (Hf c2 x Hx Hx1). by exists l2, p2.
    + intros bit p c' [H1|(H1 & -> & ->)]%He [H2|(H2 & H3 & H4)]%He.
      * by apply (Hmer bit p c').
      * subst. apply (Hs bit); [done|]. rewrite sibling_sibling; [done| |].
        -- by apply (Hcan _ _ _ H1).
        -- lia.
      * by apply (Hs bit); subst.
      * subst l. assert (abit a bit = abit (sibling_of a bit) bit) as Hb by (by rewrite H3).
        rewrite abit_sibling, decide_True in Hb by (rewrite ?wf_bits by done; lia || done).
        by destruct (abit a bit).
  - intros c' x. split.
    + intros (l' & p & [Hp|(-> & -> & ->)]%He & Hx); [left; by exists l', p|by right].
    + intros [(l' & p & Hp & Hx)|[-> Hx]]; [exists l', p|exists l, a];
        (split; [apply He; auto|done]).
Qed.

(** A network that is free is added, whatever it is merged with. *)
Lemma merge_prefix_spec b c a l :
  buckets_inv b -> wf_addr n a -> (l <= n * 8)%nat -> free b a l ->
  exists b', merge_prefix b c a l = inr b' /\ buckets_inv b'
    /\ forall c' x, wf_addr n x ->
         covers b' c' x <-> covers b c' x \/ (c' = c /\ in_prefix x a l).
Proof.
  intros Hi Hw Hl Hf. unfold merge_prefix.
  destruct (canonicalize_spec n a l Hw Hl) as (a0 & -> & Hc & Hb). cbn [rbind].
  assert (Hp : forall x, in_prefix x a0 l <-> in_prefix x a l).
  { intros x. split; intros Hx i Hil; rewrite (Hx i Hil); [|symmetry]; by apply Hb. }
  assert (Hf0 : free b a0 l) by (intros c' x Hx Hxp%Hp; by apply Hf).
  pose proof (merge_loop_spec c l b a0 Hi Hc Hf0) as Hm.
  destruct (merge_loop c b a0 l) as [[b1 a1] l1]. destruct Hm as [Hi1 Hc1 Hf1 Hcov Hs].
  destruct (insert_inv b1 a1 c l1 Hi1 Hc1 Hf1 Hs) as (-> & Hi2 & Hcov2).
  eexists. split_and!; [done|done|]. intros c' x Hx. by rewrite Hcov2, Hcov, Hp.
Qed.
End merge.

(** ** Walking the tree *)

Section walk.
Context `{MMDB}.

(** Errors that come from the database; the remaining ones cannot happen. *)
Definition db_error (e : GeoError) : Prop := e <> GEO_PREFIX_LEN /\ e <> GEO_CONFLICT.

(** The look-up that the format of the database prescribes: the bits of the
    address choose the left or the right record. *)
Definition rec_lookup (look : Z -> nat -> option Z) (skip : option Z) (depth : nat)
    (rec : MMDB_record) : option Z :=
  match rec with
  | MMDB_RECORD_TYPE_DATA entry => Some entry
  | MMDB_RECORD_TYPE_SEARCH_NODE m => if decide (skip = Some m) then None else look m depth
  | _ => None
  end.

Fixpoint trie_lookup (skip : option Z) (x : list Z) (remaining : nat) (node : Z)
    (depth : nat) : option Z :=
  match remaining with
  | O => None
  | S remaining =>
      '(left_record, right_record) ← MMDB_read_node node;
      rec_lookup (trie_lookup skip x remaining) skip (S depth)
        (if abit x depth then right_record else left_record)
  end.

(** The database maps an entry to the country [c]. *)
Definition entry_country (o : option Z) (c : IsoCountryId) : Prop :=
  exists e, o = Some e /\ read_country e = inr (Some c).

Lemma mkIsoCountryId_error s e : mkIsoCountryId s = inl e -> db_error e.
Proof.
  unfold mkIsoCountryId. repeat case_match; intros [= <-]; by split.
Qed.

Lemma read_iso_code_error entry path e : read_iso_code entry path = inl e -> db_error e.
Proof.
  unfold read_iso_code. repeat case_match; try (intros [= <-]; by split).
  destruct (mkIsoCountryId s) eqn:Hc; cbn; [|done]. intros [= <-]. by eapply mkIsoCountryId_error.
Qed.

Lemma read_country_error entry e : read_country entry = inl e -> db_error e.
Proof.
  unfold read_country. destruct (read_iso_code entry country_path) eqn:Hr; cbn.
  - intros [= <-]. by eapply read_iso_code_error.
  - case_match; [done|]. by apply read_iso_code_error.
Qed.

Context (n : nat) (skip : option Z).

(** [r] adds to [b] the addresses for which [P] holds, or fails. *)
Definition adds (b : PrefixBuckets) (r : GeoError + PrefixBuckets)
    (P : IsoCountryId -> list Z -> Prop) : Prop :=
  match r with
  | inl e => db_error e
  | inr b' => buckets_inv n b'
      /\ forall c x, wf_addr n x -> covers b' c x <-> covers b c x \/ P c x
  end.

Lemma adds_nothing b P : buckets_inv n b ->
  (forall c x, wf_addr n x -> ~ P c x) -> adds b (inr b) P.
Proof. intros Hi HP. split; [done|]. intros c x Hx. specialize (HP c x Hx). naive_solver. Qed.

Lemma add_country_prefix_spec entry a l b :
  buckets_inv n b -> wf_addr n a -> (l <= n * 8)%nat -> free n b a l ->
  adds b (add_country_prefix entry a l b)
    (fun c x => in_prefix x a l /\ entry_country (Some entry) c).
Proof.
  intros Hi Hw Hl Hf. unfold add_country_prefix, entry_country.
  destruct (read_country entry) as [e|[c|]] eqn:Hc; cbn [rbind].
  - by eapply read_country_error.
  - destruct (merge_prefix_spec n b c a l Hi Hw Hl Hf) as (b' & -> & Hi' & Hcov).
    split; [done|]. intros c' x Hx. rewrite Hcov by done. apply or_iff_compat_l. split.
    + intros [-> Hp]. eauto.
    + intros (Hp & e & [= <-] & He). split; [congruence|done].
  - apply adds_nothing; [done|]. intros c x _ (_ & e & [= <-] & He). congruence.
Qed.

(** One record of a node, given the specification of the recursive call. *)
Lemma visit_rec_spec walk look prefix depth rec v b :
  buckets_inv n b -> canonical n prefix depth -> (depth < n * 8)%nat ->
  free n b (set_prefix_bit prefix depth v) (S depth) ->
  (forall m b', buckets_inv n b' -> free n b' (set_prefix_bit prefix depth v) (S depth) ->
     adds b' (walk m (set_prefix_bit prefix depth v) (S depth) b')
       (fun c x => in_prefix x (set_prefix_bit prefix depth v) (S depth)
                   /\ entry_country (look x m (S depth)) c)) ->
  adds b (visit_rec walk skip prefix depth rec v b)
    (fun c x => in_prefix x (set_prefix_bit prefix depth v) (S depth)
                /\ entry_country (rec_lookup (look x) skip (S depth) rec) c).
Proof.
  intros Hi (Hw & _ & _) Hd Hf Hwalk. unfold visit_rec. destruct rec as [|entry|m|]; cbn [rec_lookup].
  - apply adds_nothing; [done|]. intros c x _ (_ & e & He & _). done.
  - apply add_country_prefix_spec; [done|by apply set_prefix_bit_wf|lia|done].
  - destruct (_ <? m); [by split|]. case_decide.
    + apply adds_nothing; [done|]. intros c x _ (_ & e & He & _). done.
    + by apply Hwalk.
  - by split.
Qed.

Lemma child_canonical prefix depth v : canonical n prefix depth -> (depth < n * 8)%nat ->
  canonical n (set_prefix_bit prefix depth v) (S depth).
Proof.
  intros (Hw & _ & H0) Hd. split_and!; [by apply set_prefix_bit_wf|lia|]. intros i Hi.
  destruct (decide (i < n * 8)%nat) as [Hn|Hn].
  - rewrite abit_set by by rewrite (wf_bits n prefix Hw). rewrite decide_False by lia. apply H0. lia.
  - apply (abit_out n); [by apply set_prefix_bit_wf|lia].
Qed.

(** The two children of a prefix. *)
Lemma in_child x prefix depth v : wf_addr n prefix -> (depth < n * 8)%nat ->
  in_prefix x (set_prefix_bit prefix depth v) (S depth)
  <-> in_prefix x prefix depth /\ abit x depth = v.
Proof.
  intros Hw Hd. pose proof (wf_bits n prefix Hw) as Hn. split.
  - intros Hx. split.
    + intros i Hi. rewrite (Hx i) by lia. rewrite abit_set by lia. by rewrite decide_False by lia.
    + rewrite (Hx depth) by lia. rewrite abit_set by lia. by rewrite decide_True.
  - intros [Hx <-] i Hi. rewrite abit_set by lia. case_decide; [by subst|]. apply Hx. lia.
Qed.

Lemma walk_search_tree_spec remaining : forall node prefix depth b,
  buckets_inv n b -> canonical n prefix depth -> (depth + remaining = n * 8)%nat ->
  free n b prefix depth ->
  adds b (walk_search_tree skip remaining node prefix depth b)
    (fun c x => in_prefix x prefix depth
                /\ entry_country (trie_lookup skip x remaining node depth) c).
Proof.
  induction remaining as [|remaining IH]; intros node prefix depth b Hi Hc Hd Hf;
    cbn [walk_search_tree trie_lookup]; [by split|].
  destruct (MMDB_read_node node) as [[lr rr]|]; [|by split]. cbn [mbind option_bind].
  assert (Hw : wf_addr n prefix) by apply Hc.
  pose proof (fun x v => in_child x prefix depth v Hw ltac:(lia)) as Hch.
  assert (Hcall : forall v m b', buckets_inv n b' -> free n b' (set_prefix_bit prefix depth v) (S depth) ->
     adds b' (walk_search_tree skip remaining m (set_prefix_bit prefix depth v) (S depth) b')
       (fun c x => in_prefix x (set_prefix_bit prefix depth v) (S depth)
                   /\ entry_country (trie_lookup skip x remaining m (S depth)) c)).
  { intros v m b' Hi' Hf'. apply IH; [done|by apply child_canonical; [|lia]|lia|done]. }
  assert (Hfv : forall v, free n b (set_prefix_bit prefix depth v) (S depth)).
  { intros v c x Hx [Hp _]%Hch. by apply Hf. }
  pose proof (visit_rec_spec _ (fun x => trie_lookup skip x remaining) prefix depth lr false b
    Hi Hc ltac:(lia) (Hfv false) (Hcall false)) as H1.
  destruct (visit_rec _ skip prefix depth lr false b) as [e|b1]; cbn [rbind]; [done|].
  destruct H1 as [Hi1 Hcov1].
  assert (Hf1 : free n b1 (set_prefix_bit prefix depth true) (S depth)).
  { intros c x Hx Hp. rewrite Hcov1 by done. intros [Hcx|[Hp' _]]; [by apply (Hfv true c x)|].
    apply Hch in Hp as [_ Hp], Hp' as [_ Hp']. congruence. }
  pose proof (visit_rec_spec _ (fun x => trie_lookup skip x remaining) prefix depth rr true b1
    Hi1 Hc ltac:(lia) Hf1 (Hcall true)) as H2.
  destruct (visit_rec _ skip prefix depth rr true b1) as [e|b2]; [done|].
  destruct H2 as [Hi2 Hcov2]. split; [done|]. intros c x Hx. rewrite Hcov2, Hcov1, !Hch by done.
  destruct (abit x depth); naive_solver.
Qed.
End walk.
