(* ===== verification/GeoImport.v ===== *)
(** * GeoImport: from the database to the networks of a country

    The import as a whole: the networks stored for a country match exactly the
    addresses that the database maps to the country, with the matching of the
    kernel's longest-prefix maps ([lpm4_matches], [lpm6_matches]). *)

From stdpp Require Import sorting.
From S2P Require Import Prelude.
From S2P Require Import Uapi.
From S2P Require Import Kernel.
From S2P Require Import Config.
From S2P Require Import GeoIp.
From S2P Require Import GeoIpSpec.

(** ** Addresses as numbers in network byte order *)

Fixpoint be_value (a : list Z) : Z :=
  match a with [] => 0 | b :: r => b * 2 ^ (8 * Z.of_nat (length r)) + be_value r end.

Lemma be_value_range a : Forall is_byte a -> 0 <= be_value a < 2 ^ (8 * Z.of_nat (length a)).
Proof.
  induction 1 as [|b r Hb _ IH]; cbn [be_value length]; [cbn; lia|].
  rewrite Nat2Z.inj_succ, Z.mul_succ_r, Z.pow_add_r by lia. unfold is_byte in Hb.
  change (2 ^ 8) with 256. nia.
Qed.

Lemma be_value_app a b :
  be_value (a ++ b) = be_value a * 2 ^ (8 * Z.of_nat (length b)) + be_value b.
Proof.
  induction a as [|x a IH]; cbn [be_value app]; [lia|]. rewrite IH, length_app.
  rewrite Nat2Z.inj_add, Z.mul_add_distr_l, Z.pow_add_r by lia. lia.
Qed.

Lemma be_value_bit a i : Forall is_byte a -> (i < length a * 8)%nat ->
  Z.testbit (be_value a) (8 * Z.of_nat (length a) - 1 - Z.of_nat i) = abit a i.
Proof.
  intros Ha. revert i. induction Ha as [|b r Hb Hr IH]; intros i Hi; cbn [length] in Hi; [lia|].
  pose proof (be_value_range r Hr) as Hv. cbn [be_value length].
  rewrite testbit_concat by lia.
  unfold abit. destruct (decide (i < 8)%nat) as [Hi8|Hi8].
  - rewrite Nat.div_small, Nat.mod_small by lia. cbn [lookup list_lookup].
    rewrite decide_True by lia. f_equal. lia.
  - destruct i as [|[|[|[|[|[|[|[|i]]]]]]]]; try lia.
    replace (S (S (S (S (S (S (S (S i)))))))) with (i + 1 * 8)%nat by lia.
    rewrite Nat.div_add, Nat.Div0.mod_add by lia. rewrite (Nat.add_comm (i / 8)).
    change ((b :: r) !! (1 + i / 8)%nat) with (r !! (i / 8)%nat).
    specialize (IH i ltac:(lia)). unfold abit in IH. rewrite <- IH.
    rewrite decide_False by lia. f_equal. lia.
Qed.

(** Matching a prefix of numbers is matching the bits of the addresses. *)
Lemma key_matches_prefix n p x l :
  wf_addr n p -> wf_addr n x -> (l <= n * 8)%nat ->
  key_matches (8 * Z.of_nat n) (Z.of_nat l) (be_value p) (be_value x) = true <-> in_prefix x p l.
Proof.
  intros [Hlp Hp] [Hlx Hx] Hl. unfold key_matches.
  rewrite !(proj2 (Z.leb_le _ _)) by lia. cbn [andb]. rewrite Z.eqb_eq.
  pose proof (be_value_range p Hp) as Hvp. pose proof (be_value_range x Hx) as Hvx.
  rewrite Hlp in Hvp. rewrite Hlx in Hvx. split.
  - intros He i Hi. rewrite <- !be_value_bit by (done || lia). rewrite Hlp, Hlx.
    apply (f_equal (fun z => Z.testbit z (Z.of_nat l - 1 - Z.of_nat i))) in He.
    rewrite !Z.shiftr_spec in He by lia. symmetry in He.
    by replace (Z.of_nat l - 1 - Z.of_nat i + (8 * Z.of_nat n - Z.of_nat l))
      with (8 * Z.of_nat n - 1 - Z.of_nat i) in He by lia.
  - intros Hin. apply Z.bits_inj'. intros k Hk. rewrite !Z.shiftr_spec by lia.
    destruct (decide (k < Z.of_nat l)) as [Hkl|Hkl].
    + specialize (Hin (Z.to_nat (Z.of_nat l - 1 - k)) ltac:(lia)).
      rewrite <- !be_value_bit in Hin by (done || lia). rewrite Hlp, Hlx in Hin.
      replace (8 * Z.of_nat n - 1 - Z.of_nat (Z.to_nat (Z.of_nat l - 1 - k)))
        with (k + (8 * Z.of_nat n - Z.of_nat l)) in Hin by lia. done.
    + assert (H : forall z, 0 <= z < 2 ^ (8 * Z.of_nat n) ->
          Z.testbit z (k + (8 * Z.of_nat n - Z.of_nat l)) = false); [|by rewrite !H].
      intros z Hz. by apply (testbit_above z (8 * Z.of_nat n)); [|lia].
Qed.

Lemma le_combine_cons b r : is_byte b ->
  le_combine (b :: r) mod 256 = b /\ le_combine (b :: r) / 256 = le_combine r.
Proof. intros Hb. unfold is_byte in Hb. cbn [le_combine]. dlia. Qed.

Lemma ip4_value_bytes a : wf_addr 4 a -> ip4_value (le_combine a) = be_value a.
Proof.
  intros [Hl Ha]. destruct a as [|b0 [|b1 [|b2 [|b3 [|? ?]]]]]; try done.
  rewrite !list.Forall_cons in Ha. destruct Ha as (Hb0 & Hb1 & Hb2 & Hb3 & _).
  unfold ip4_value, bswap32.
  set (v := le_combine _).
  assert (E1 : v / 65536 = v / 256 / 256) by (rewrite Z.div_div by lia; done).
  assert (E2 : v / 16777216 = v / 256 / 256 / 256) by (rewrite !Z.div_div by lia; done).
  rewrite E1, E2. unfold v.
  repeat match goal with |- context [le_combine (?b :: ?r)] =>
    rewrite ?(proj1 (le_combine_cons b r ltac:(done))), ?(proj2 (le_combine_cons b r ltac:(done))) end.
  change (be_value _) with (b0 * 16777216 + (b1 * 65536 + (b2 * 256 + (b3 * 1 + 0)))). lia.
Qed.

Lemma wf_take m n a : wf_addr n a -> (m <= n)%nat -> wf_addr m (take m a) /\ wf_addr (n - m) (drop m a).
Proof.
  intros [Hl Ha] Hm. repeat split; [rewrite length_take; lia|by apply Forall_take
    |rewrite length_drop; lia|by apply Forall_drop].
Qed.

Lemma ip6_value_bytes a : wf_addr 16 a -> ip6_value (ip6_of_bytes a) = be_value a.
Proof.
  intros Hw. destruct (wf_take 4 16 a Hw ltac:(lia)) as [H0 Hr].
  destruct (wf_take 4 12 _ Hr ltac:(lia)) as [H1 Hr1].
  destruct (wf_take 4 8 _ Hr1 ltac:(lia)) as [H2 Hr2].
  destruct (wf_take 4 4 _ Hr2 ltac:(lia)) as [H3 _]. rewrite !drop_drop in *. cbn [Nat.add] in *.
  assert (Ha : a = take 4 a ++ take 4 (drop 4 a) ++ take 4 (drop 8 a) ++ take 4 (drop 12 a)).
  { destruct Hw as [Hl _]. do 16 (destruct a as [|? a]; [done|]). by destruct a. }
  unfold ip6_value, ip6_of_bytes. cbn [addr32_0 addr32_1 addr32_2 addr32_3].
  change bswap32 with ip4_value. rewrite !ip4_value_bytes by done. rewrite Ha at 5.
  rewrite !be_value_app, !length_app. rewrite (proj1 H1), (proj1 H2), (proj1 H3).
  change (8 * Z.of_nat (4 + (4 + 4))) with 96. change (8 * Z.of_nat (4 + 4)) with 64.
  change (8 * Z.of_nat 4) with 32. lia.
Qed.

(** ** The networks of a country *)

Definition nets4 (m : CountryMap) (c : IsoCountryId) : list Net4Key :=
  match m !! c with Some g => ip4 g | None => [] end.
Definition nets6 (m : CountryMap) (c : IsoCountryId) : list Net6Key :=
  match m !! c with Some g => ip6 g | None => [] end.

(** The entries of country [c]. *)
Definition of_country {K} (key : nat -> list Z -> K) (c : IsoCountryId)
    (e : nat * (list Z * IsoCountryId)) : option K :=
  if decide (e.2.2 = c) then Some (key e.1 e.2.1) else None.

Definition key4 (l : nat) (p : list Z) : Net4Key := mkNet4Key (u16 (Z.of_nat l)) (le_combine p).
Definition key6 (l : nat) (p : list Z) : Net6Key := mkNet6Key (u16 (Z.of_nat l)) (ip6_of_bytes p).

Lemma push_ip4_nets m c' k c :
  nets4 (push_ip4 m c' k) c = nets4 m c ++ (if decide (c' = c) then [k] else [])
  /\ nets6 (push_ip4 m c' k) c = nets6 m c.
Proof.
  unfold push_ip4, nets4, nets6. case_decide as Hc.
  - subst c'. rewrite lookup_insert_eq. by destruct (m !! c).
  - rewrite lookup_insert_ne by done. by rewrite app_nil_r.
Qed.

Lemma push_ip6_nets m c' k c :
  nets6 (push_ip6 m c' k) c = nets6 m c ++ (if decide (c' = c) then [k] else [])
  /\ nets4 (push_ip6 m c' k) c = nets4 m c.
Proof.
  unfold push_ip6, nets4, nets6. case_decide as Hc.
  - subst c'. rewrite lookup_insert_eq. by destruct (m !! c).
  - rewrite lookup_insert_ne by done. by rewrite app_nil_r.
Qed.

Lemma push_ip4_all es m c :
  nets4 (foldl (fun m e => push_ip4 m e.2.2 (key4 e.1 e.2.1)) m es) c
  = nets4 m c ++ omap (of_country key4 c) es
  /\ nets6 (foldl (fun m e => push_ip4 m e.2.2 (key4 e.1 e.2.1)) m es) c = nets6 m c.
Proof.
  revert m. induction es as [|e es IH]; intros m; cbn [foldl]; [by rewrite app_nil_r|].
  destruct (IH (push_ip4 m e.2.2 (key4 e.1 e.2.1))) as [-> ->].
  destruct (push_ip4_nets m e.2.2 (key4 e.1 e.2.1) c) as [-> ->].
  split; [|done]. rewrite <- app_assoc. f_equal. cbn. unfold of_country. by case_decide.
Qed.

Lemma push_ip6_all es m c :
  nets6 (foldl (fun m e => push_ip6 m e.2.2 (key6 e.1 e.2.1)) m es) c
  = nets6 m c ++ omap (of_country key6 c) es
  /\ nets4 (foldl (fun m e => push_ip6 m e.2.2 (key6 e.1 e.2.1)) m es) c = nets4 m c.
Proof.
  revert m. induction es as [|e es IH]; intros m; cbn [foldl]; [by rewrite app_nil_r|].
  destruct (IH (push_ip6 m e.2.2 (key6 e.1 e.2.1))) as [-> ->].
  destruct (push_ip6_nets m e.2.2 (key6 e.1 e.2.1) c) as [-> ->].
  split; [|done]. rewrite <- app_assoc. f_equal. cbn. unfold of_country. by case_decide.
Qed.

Lemma sort_nets m c :
  nets4 (sort_country_prefixes m) c ≡ₚ nets4 m c /\ nets6 (sort_country_prefixes m) c ≡ₚ nets6 m c.
Proof.
  unfold sort_country_prefixes, nets4, nets6. rewrite lookup_fmap. destruct (m !! c); cbn; [|done].
  split; apply merge_sort_Permutation.
Qed.

Lemma elem_of_bucket_entries b l p c :
  (l, (p, c)) ∈ bucket_entries b <-> bucket b l !! p = Some c.
Proof.
  unfold bucket_entries. rewrite list_elem_of_bind. setoid_rewrite list_elem_of_fmap.
  setoid_rewrite elem_of_seq. split.
  - intros (l' & (pc & He & Hp) & _). injection He as -> <-. by apply elem_of_map_to_list in Hp.
  - intros Hp. exists l. split; [exists (p, c); split; [done|by apply elem_of_map_to_list]|].
    split; [lia|]. unfold bucket in Hp. destruct (b !! l) as [m|] eqn:Hb; [|done].
    apply lookup_lt_Some in Hb. lia.
Qed.

Lemma elem_of_country {K} (key : nat -> list Z -> K) b c k :
  k ∈ omap (of_country key c) (bucket_entries b)
  <-> exists l p, bucket b l !! p = Some c /\ k = key l p.
Proof.
  rewrite list_elem_of_omap. unfold of_country. split.
  - intros ([l [p c']] & He & Hk). cbn in Hk. case_decide; [|done]. subst. injection Hk as <-.
    exists l, p. by rewrite <- elem_of_bucket_entries.
  - intros (l & p & Hp & ->). exists (l, (p, c)). rewrite elem_of_bucket_entries. split; [done|].
    cbn. by rewrite decide_True.
Qed.

Lemma build_country_map_nets b4 b6 c :
  (forall k, k ∈ nets4 (build_country_map b4 b6) c
     <-> exists l p, bucket b4 l !! p = Some c /\ k = key4 l p)
  /\ (forall k, k ∈ nets6 (build_country_map b4 b6) c
     <-> exists l p, bucket b6 l !! p = Some c /\ k = key6 l p).
Proof.
  unfold build_country_map.
  set (m4 := foldl _ ∅ (bucket_entries b4)). set (m6 := foldl _ m4 (bucket_entries b6)).
  destruct (sort_nets m6 c) as [H4 H6].
  destruct (push_ip6_all (bucket_entries b6) m4 c) as [E6 E4].
  destruct (push_ip4_all (bucket_entries b4) ∅ c) as [F4 F6].
  split; intros k.
  - rewrite H4. change m6 with (foldl (fun m e => push_ip6 m e.2.2 (key6 e.1 e.2.1)) m4 (bucket_entries b6)).
    rewrite E4. change m4 with (foldl (fun m e => push_ip4 m e.2.2 (key4 e.1 e.2.1)) ∅ (bucket_entries b4)).
    rewrite F4. apply elem_of_country.
  - rewrite H6. change m6 with (foldl (fun m e => push_ip6 m e.2.2 (key6 e.1 e.2.1)) m4 (bucket_entries b6)).
    rewrite E6. change m4 with (foldl (fun m e => push_ip4 m e.2.2 (key4 e.1 e.2.1)) ∅ (bucket_entries b4)).
    rewrite F6. apply elem_of_country.
Qed.

(** ** The import *)

Section import.
Context `{MMDB}.

(** What the database says about an address: the record that the tree leads to,
    from the root of the IPv4 addresses. *)
Definition geo_lookup4 (x : list Z) : option Z :=
  if ip_version =? 4 then trie_lookup None x 32 0 0 else
  if ipv4_start_node <? node_count then trie_lookup None x 32 ipv4_start_node 0 else
  if ipv4_start_node =? node_count then None else
  match MMDB_lookup_root4 with inr o => o | inl _ => None end.

(** The IPv4 subtree and its aliases are not part of the IPv6 addresses. *)
Definition geo_lookup6 (x : list Z) : option Z :=
  if ip_version =? 6 then trie_lookup ipv4_subtree x 128 0 0 else None.

Lemma empty_bucket k l : bucket (replicate k ∅) l = ∅.
Proof.
  unfold bucket. destruct (replicate k ∅ !! l) as [m|] eqn:Hm; [|done].
  by apply lookup_replicate in Hm as [-> _].
Qed.

Lemma empty_inv n : buckets_inv n (replicate (S (n * 8)) ∅).
Proof.
  split; [apply length_replicate|..]; intros *; by rewrite !empty_bucket.
Qed.

Lemma empty_covers k c x : ~ covers (replicate k ∅) c x.
Proof. intros (l & p & Hp & _). by rewrite empty_bucket in Hp. Qed.

Lemma zero_canonical n : canonical n (replicate n 0) 0.
Proof.
  split_and!; [split; [apply length_replicate|]|lia|].
  - apply Forall_replicate. unfold is_byte. lia.
  - intros i _. unfold abit. destruct (_ !! _) as [z|] eqn:Hz; [|done].
    apply lookup_replicate in Hz as [-> _]. apply Z.bits_0.
Qed.

(** The result of a walk from the root of an empty set of networks. *)
Lemma adds_all n r (P : IsoCountryId -> list Z -> Prop) Q :
  adds n (replicate (S (n * 8)) ∅) r P -> (forall c x, P c x <-> Q c x) ->
  match r with
  | inl e => db_error e
  | inr b => buckets_inv n b /\ forall c x, wf_addr n x -> covers b c x <-> Q c x
  end.
Proof.
  destruct r as [e|b]; [done|]. intros [Hi Hc] HPQ. split; [done|]. intros c x Hx.
  rewrite Hc, HPQ by done. split; [intros [He|]; [by apply empty_covers in He|done]|by right].
Qed.

Lemma root_free n k : free n (replicate k ∅) (replicate n 0) 0.
Proof. intros c x _ _. apply empty_covers. Qed.

Lemma walk_from_root n skip node :
  match walk_search_tree skip (n * 8) node (replicate n 0) 0 (replicate (S (n * 8)) ∅) with
  | inl e => db_error e
  | inr b => buckets_inv n b
      /\ forall c x, wf_addr n x -> covers b c x <-> entry_country (trie_lookup skip x (n * 8) node 0) c
  end.
Proof.
  eapply adds_all.
  - apply walk_search_tree_spec; [apply empty_inv|apply zero_canonical|lia|apply root_free].
  - intros c x. cbv beta. split; [by intros [_ ?]|]. intros He. split; [|done]. intros i Hi. lia.
Qed.

Lemma import_ipv4_tree_spec :
  match import_ipv4_tree (replicate 33 ∅) with
  | inl e => db_error e
  | inr b => buckets_inv 4 b /\ forall c x, wf_addr 4 x -> covers b c x <-> entry_country (geo_lookup4 x) c
  end.
Proof.
  unfold import_ipv4_tree, geo_lookup4. destruct (ip_version =? 4); [apply (walk_from_root 4)|].
  destruct (ipv4_start_node <? node_count).
  { destruct (_ =? 96); [apply (walk_from_root 4)|by split]. }
  assert (Hnone : buckets_inv 4 (replicate 33 ∅) /\ forall c x, wf_addr 4 x ->
            covers (replicate 33 ∅) c x <-> entry_country None c).
  { split; [apply (empty_inv 4)|]. intros c x _. split; [by intros ?%empty_covers|by intros (? & ? & _)]. }
  destruct (_ =? _); [done|]. destruct MMDB_lookup_root4 as [u|[e|]]; [by split| |done].
  apply (adds_all 4 _ (fun c x => in_prefix x Ip4Addr_zero 0 /\ entry_country (Some e) c)).
  - apply add_country_prefix_spec; [apply (empty_inv 4)|apply zero_canonical|lia|apply root_free].
  - intros c x. split; [by intros [_ ?]|]. intros He. split; [|done]. intros i Hi. lia.
Qed.

Lemma import_ipv6_tree_spec :
  match import_ipv6_tree (replicate 129 ∅) with
  | inl e => db_error e
  | inr b => buckets_inv 16 b /\ forall c x, wf_addr 16 x -> covers b c x <-> entry_country (geo_lookup6 x) c
  end.
Proof.
  unfold import_ipv6_tree, geo_lookup6. destruct (ip_version =? 6); [apply (walk_from_root 16)|].
  split; [apply (empty_inv 16)|].
  intros c x _. split; [by intros ?%empty_covers|by intros (? & ? & _)].
Qed.

(** A network of the country [c] in the imported map matches the address [x]. *)
Definition matches4 (m : CountryMap) (c : IsoCountryId) (x : list Z) (k : Net4Key) : Prop :=
  k ∈ nets4 m c /\ lpm4_matches (mkIpv4LpmKey (n4_prefixlen k) (n4_addr k)) (le_combine x) = true.
Definition matches6 (m : CountryMap) (c : IsoCountryId) (x : list Z) (k : Net6Key) : Prop :=
  k ∈ nets6 m c /\ lpm6_matches (mkIpv6LpmKey (n6_prefixlen k) (n6_addr k)) (ip6_of_bytes x) = true.

Lemma key4_matches p x l : wf_addr 4 p -> wf_addr 4 x -> (l <= 32)%nat ->
  lpm4_matches (mkIpv4LpmKey (n4_prefixlen (key4 l p)) (n4_addr (key4 l p))) (le_combine x) = true
  <-> in_prefix x p l.
Proof.
  intros Hp Hx Hl. unfold lpm4_matches. cbn. rewrite !ip4_value_bytes by done.
  unfold wrap. rewrite Z.mod_small by lia. apply (key_matches_prefix 4); [done..|lia].
Qed.

Lemma key6_matches p x l : wf_addr 16 p -> wf_addr 16 x -> (l <= 128)%nat ->
  lpm6_matches (mkIpv6LpmKey (n6_prefixlen (key6 l p)) (n6_addr (key6 l p))) (ip6_of_bytes x) = true
  <-> in_prefix x p l.
Proof.
  intros Hp Hx Hl. unfold lpm6_matches. cbn [key6 n6_prefixlen n6_addr prefixlen6 lpm_addr6].
  rewrite !ip6_value_bytes by done.
  unfold wrap. rewrite Z.mod_small by lia. apply (key_matches_prefix 16); [done..|lia].
Qed.

Lemma covers_matches4 b4 b6 c x : buckets_inv 4 b4 -> wf_addr 4 x ->
  (exists k, matches4 (build_country_map b4 b6) c x k) <-> covers b4 c x.
Proof.
  intros Hi Hx. unfold matches4, covers. setoid_rewrite (proj1 (build_country_map_nets b4 b6 c)). split.
  - intros (k & (l & p & Hp & ->) & Hm). destruct (bi_canonical _ _ Hi l p c Hp) as (Hw & Hl & _).
    exists l, p. split; [done|]. by apply key4_matches in Hm.
  - intros (l & p & Hp & Hin). destruct (bi_canonical _ _ Hi l p c Hp) as (Hw & Hl & _).
    exists (key4 l p). split; [by exists l, p|]. by apply key4_matches.
Qed.

Lemma covers_matches6 b4 b6 c x : buckets_inv 16 b6 -> wf_addr 16 x ->
  (exists k, matches6 (build_country_map b4 b6) c x k) <-> covers b6 c x.
Proof.
  intros Hi Hx. unfold matches6, covers. setoid_rewrite (proj2 (build_country_map_nets b4 b6 c)). split.
  - intros (k & (l & p & Hp & ->) & Hm). destruct (bi_canonical _ _ Hi l p c Hp) as (Hw & Hl & _).
    exists l, p. split; [done|]. by apply key6_matches in Hm.
  - intros (l & p & Hp & Hin). destruct (bi_canonical _ _ Hi l p c Hp) as (Hw & Hl & _).
    exists (key6 l p). split; [by exists l, p|]. by apply key6_matches.
Qed.

Lemma import_matches :
  match import_maxmind_geodata with
  | inl e => db_error e
  | inr m => forall c,
      (forall x, wf_addr 4 x -> (exists k, matches4 m c x k) <-> entry_country (geo_lookup4 x) c)
      /\ (forall x, wf_addr 16 x -> (exists k, matches6 m c x k) <-> entry_country (geo_lookup6 x) c)
  end.
Proof.
  unfold import_maxmind_geodata.
  pose proof import_ipv4_tree_spec as H4. destruct (import_ipv4_tree _) as [e|b4]; [done|].
  pose proof import_ipv6_tree_spec as H6. cbn [rbind].
  destruct (import_ipv6_tree _) as [e|b6]; [done|]. cbn [rbind].
  destruct H4 as [Hi4 Hc4], H6 as [Hi6 Hc6]. intros c. split; intros x Hx.
  - rewrite covers_matches4 by done. by apply Hc4.
  - rewrite covers_matches6 by done. by apply Hc6.
Qed.

(** C13: the import of a GeoIP database is exact. It fails only if the database is
    malformed, never on networks in conflict; and when it succeeds, an address
    matches one of the networks stored for a country, by the matching of the
    kernel's longest-prefix maps, exactly if the database leads from the address
    to a record of that country, for both address families and however the
    networks were merged. *)
Theorem geo_import_exact :
  match import_maxmind_geodata with
  | inl e => db_error e
  | inr m => forall c,
      (forall x, wf_addr 4 x -> (exists k, matches4 m c x k) <-> entry_country (geo_lookup4 x) c)
      /\ (forall x, wf_addr 16 x -> (exists k, matches6 m c x k) <-> entry_country (geo_lookup6 x) c)
  end.
Proof. exact import_matches. Qed.
End import.

(** A database with the networks 0.0.0.0/1 (US), 128.0.0.0/2 (DE, only as the
    registered country) and 192.0.0.0/2 (US). *)
Definition sample_db : MMDB := {|
  MMDB_read_node n :=
    if n =? 0 then Some (MMDB_RECORD_TYPE_DATA 1, MMDB_RECORD_TYPE_SEARCH_NODE 1)
    else if n =? 1 then Some (MMDB_RECORD_TYPE_DATA 2, MMDB_RECORD_TYPE_DATA 1) else None;
  MMDB_aget_value e path :=
    match e, path with
    | 1, country_path => VALUE_STRING [85; 83]
    | 2, registered_country_path => VALUE_STRING [68; 69]
    | _, _ => VALUE_ABSENT
    end;
  ip_version := 4; node_count := 2; ipv4_start_node := 0; ipv4_start_netmask := 0;
  MMDB_lookup_root4 := inr None
|}.

(** The address 200.0.0.1 is in a network of the US and in none of DE. *)
Lemma geo_import_exact_witness : exists m,
  @import_maxmind_geodata sample_db = inr m
  /\ (exists k, matches4 m (117, 115) [200; 0; 0; 1] k)
  /\ ~ (exists k, matches4 m (100, 101) [200; 0; 0; 1] k).
Proof.
  pose proof (@geo_import_exact sample_db) as Hg.
  destruct import_maxmind_geodata as [e|m] eqn:Hm; [vm_compute in Hm; discriminate|].
  assert (Hx : wf_addr 4 [200; 0; 0; 1]).
  { split; [reflexivity|]. repeat constructor; discriminate. }
  exists m. split; [reflexivity|]. split.
  - apply (proj2 (proj1 (Hg (117, 115)) _ Hx)). exists 1. split; reflexivity.
  - intros (e & He & Hc)%(proj1 (proj1 (Hg (100, 101)) _ Hx)). vm_compute in He.
    injection He as <-. vm_compute in Hc. discriminate.
Defined.
