(* ===== verification/CountryPolicy.v ===== *)
(** * CountryPolicy: from the GeoIP database to the verdict on a packet

    The import of the database, the loading of the networks of a rule, the
    manager and the source filter together: which rule of the operator decides
    about an IPv4 source address, in terms of the database and of the rules. *)

From stdpp Require Import strings.
From S2P Require Import Prelude.
From S2P Require Import Enums.
From S2P Require Import Uapi.
From S2P Require Import Kernel.
From S2P Require Import Ctx.
From S2P Require Import Filter.
From S2P Require Import Xdp.
From S2P Require Import Policy.
From S2P Require Import IndexPool.
From S2P Require Import ShadowMap.
From S2P Require Import Config.
From S2P Require Import MapsManager.
From S2P Require Import ManagerSpec.
From S2P Require Import ManagerOps.
From S2P Require Import ManagerSrc.
From S2P Require Import Manager.
From S2P Require Import ManagerClaims.
From S2P Require Import ManagerPolicy.
From S2P Require Import GeoIp.
From S2P Require Import GeoIpSpec.
From S2P Require Import GeoImport.

(** ** The rules that hold a key *)

Section keys.
Context {K : Type} `{Countable K} (sel : NetIp -> bool).

Lemma first_rule_Some (keys : NetIp -> list K) rs k r :
  first_rule sel keys rs k = Some r ->
  exists it, it ∈ rs /\ sel it.2 = true /\ k ∈ keys it.2 /\ r = net_rule it.2.
Proof.
  induction rs as [|it rs IH]; cbn [first_rule]; [done|].
  destruct (sel it.2) eqn:Hs; cbn [andb]; [case_bool_decide as Hk|].
  - intros [= <-]. exists it. split; [left|done].
  - intros (it' & Hi & Hr)%IH. exists it'. split; [by right|done].
  - intros (it' & Hi & Hr)%IH. exists it'. split; [by right|done].
Qed.

Lemma first_rule_None (keys : NetIp -> list K) rs k it :
  first_rule sel keys rs k = None -> it ∈ rs -> sel it.2 = true -> k ∉ keys it.2.
Proof.
  induction rs as [|it' rs IH]; cbn [first_rule]; [set_solver|].
  destruct (sel it'.2 && bool_decide (k ∈ keys it'.2)) eqn:Hb; [done|].
  intros Hn [->|Hi]%elem_of_cons Hs; [|by apply IH].
  rewrite Hs in Hb. cbn [andb] in Hb. by apply bool_decide_eq_false in Hb.
Qed.

Lemma src_verdict_Some (user geo : NetIp -> list K) rs k r :
  src_verdict sel user geo rs k = Some r ->
  exists it, it ∈ rs /\ sel it.2 = true /\ k ∈ user it.2 ++ geo it.2 /\ r = net_rule it.2
    /\ forall it', it' ∈ rs -> sel it'.2 = true -> k ∈ user it'.2 -> k ∈ user it.2.
Proof.
  unfold src_verdict. destruct (first_rule sel user rs k) as [r'|] eqn:Hu.
  - intros [= ->]. apply first_rule_Some in Hu as (it & Hi & Hs & Hk & Hr).
    exists it. split_and!; [done|done|set_solver|done|done].
  - intros (it & Hi & Hs & Hk & Hr)%first_rule_Some. exists it.
    split_and!; [done|done|set_solver|done|].
    intros it' Hi' Hs' Hk'. by apply (first_rule_None _ _ _ _ Hu Hi' Hs') in Hk'.
Qed.

Lemma src_verdict_None (user geo : NetIp -> list K) rs k it :
  src_verdict sel user geo rs k = None -> it ∈ rs -> sel it.2 = true -> k ∉ user it.2 ++ geo it.2.
Proof.
  unfold src_verdict. destruct (first_rule sel user rs k) eqn:Hu; [done|]. intros Hg Hi Hs.
  rewrite elem_of_app. intros [Hk|Hk]; [by apply (first_rule_None _ _ _ _ Hu Hi Hs)|].
  by apply (first_rule_None _ _ _ _ Hg Hi Hs).
Qed.
End keys.

(** ** What an operator wrote about an address *)

Section cover.
Context `{MMDB}.

(** The networks of a rule's countries are those of the database, of the address
    family of the rule. *)
Definition geo_loaded (geodb : CountryMap) (ip : NetIp) : Prop :=
  forall g, g ∈ ni_nets ip ->
    load_geo_entry geodb (geo_code g) (negb (isIpv6 (ni_flags ip))) (isIpv6 (ni_flags ip)) = inr g.

(** A rule covers an IPv4 address by one of its networks, or because it is for
    IPv4 and the database maps the address to one of its countries. *)
Definition covers_by_net (ip : NetIp) (a : list Z) : Prop :=
  exists k, k ∈ ni_net4s ip /\ lpm4_matches (lpm4_key k) (le_combine a) = true.
Definition covers_by_country (ip : NetIp) (a : list Z) : Prop :=
  isIpv6 (ni_flags ip) = false
  /\ exists g c, g ∈ ni_nets ip /\ mkIsoCountryId (le_split 2 (geo_code g)) = inr c
    /\ entry_country (geo_lookup4 a) c.
Definition rule_covers (ip : NetIp) (a : list Z) : Prop :=
  covers_by_net ip a \/ covers_by_country ip a.

Lemma load_geo_entry_nets geodb code w4 w6 g :
  load_geo_entry geodb code w4 w6 = inr g ->
  exists c, mkIsoCountryId (le_split 2 code) = inr c
    /\ geo_net4s g = if w4 then nets4 geodb c else [].
Proof.
  unfold load_geo_entry, nets4. case_decide; [done|].
  intros (c & Hc & Hg)%rbind_inr. destruct (geodb !! c) as [ips|] eqn:Hl; [|done].
  injection Hg as <-. exists c. split; [done|]. cbn [geo_net4s]. by rewrite Hl.
Qed.

Lemma covers_geo4 geodb ip a :
  import_maxmind_geodata = inr geodb -> geo_loaded geodb ip -> wf_addr 4 a ->
  (exists k, k ∈ geo4 ip /\ lpm4_matches k (le_combine a) = true) <-> covers_by_country ip a.
Proof.
  intros Him Hld Ha. pose proof import_matches as Hx. rewrite Him in Hx.
  unfold geo4, covers_by_country.
  setoid_rewrite list_elem_of_bind. setoid_rewrite list_elem_of_fmap.
  assert (Hns : forall g, g ∈ ni_nets ip -> exists c, mkIsoCountryId (le_split 2 (geo_code g)) = inr c
    /\ geo_net4s g = if isIpv6 (ni_flags ip) then [] else nets4 geodb c).
  { intros g Hg. destruct (load_geo_entry_nets _ _ _ _ _ (Hld g Hg)) as (c & Hc & Hn).
    exists c. split; [done|]. rewrite Hn. by destruct (isIpv6 (ni_flags ip)). }
  split.
  - intros (k & (g & (n & -> & Hn) & Hg) & Hm). destruct (Hns g Hg) as (c & Hc & Hgn).
    rewrite Hgn in Hn. destruct (isIpv6 (ni_flags ip)); [by apply not_elem_of_nil in Hn|].
    split; [done|]. exists g, c. split_and!; [done..|].
    apply (proj1 (Hx c) a Ha). by exists n.
  - intros (Hv & g & c & Hg & Hc & He). destruct (Hns g Hg) as (c' & Hc' & Hgn).
    assert (c' = c) as -> by congruence. rewrite Hv in Hgn.
    apply (proj1 (Hx c) a Ha) in He as (n & Hn & Hm). exists (lpm4_key n). split; [|done].
    exists g. split; [|done]. exists n. split; [done|]. rewrite Hgn. exact Hn.
Qed.

Lemma covers_keys geodb ip a :
  import_maxmind_geodata = inr geodb -> geo_loaded geodb ip -> wf_addr 4 a ->
  (exists k, k ∈ user4 ip ++ geo4 ip /\ lpm4_matches k (le_combine a) = true) <-> rule_covers ip a.
Proof.
  intros Him Hld Ha. unfold rule_covers. rewrite <- (covers_geo4 geodb ip a Him Hld Ha).
  unfold covers_by_net, user4. setoid_rewrite elem_of_app. setoid_rewrite list_elem_of_fmap. split.
  - intros (k & [(n & -> & Hn)|Hk] & Hm); [left; by exists n|right; by exists k].
  - intros [(n & Hn & Hm)|(k & Hk & Hm)]; [exists (lpm4_key n)|exists k]; split; try done; [|by right].
    left. by exists n.
Qed.
End cover.

(** ** The verdict *)

Section verdict.
Context (E : Env).

(** What the operator wrote in a source rule. *)
Inductive src_enforced (ip : NetIp) (s : St) (out : option (Z * St)) : Prop :=
| SE_block : isAllowed (ni_flags ip) = false ->
    out = XFW_MAKE_CTX_DROP E XFW_DROP_SRC_IP_BLOCKED s -> src_enforced ip s out
| SE_allow : isAllowed (ni_flags ip) = true -> ni_ratelimit_index ip = None ->
    out = XFW_MAKE_CTX_PASS E XFW_SRC_IP_ALLOWED s -> src_enforced ip s out
| SE_limit i : isAllowed (ni_flags ip) = true -> ni_ratelimit_index ip = Some i ->
    out = src_rate_limit E MAP_SRC_RATELIM_REF (ilog_addr (s_ctx s)) (u8 i)
            XFW_DROP_SRC_IP_RATE_LIMITED s -> src_enforced ip s out.

Lemma src4_decide_enforced ip s :
  src_enforced ip s (src4_decide E (s_ctx s) (Some (net_rule ip)) s).
Proof.
  unfold src4_decide, net_rule, XfwSrcRule_of.
  destruct (isAllowed (ni_flags ip)) eqn:Ha; cbn [negb src_action]; [|by apply SE_block].
  destruct (ni_ratelimit_index ip) as [i|] eqn:Hi; [by apply (SE_limit _ _ _ i)|by apply SE_allow].
Qed.

(** The rules for the protocol of a packet. *)
Definition for_packet (c : XfwGlobalCtx) (ip : NetIp) : bool :=
  if l4_proto c =? XFW_L4_PROTO_UDP then is_udp ip else is_tcp ip.

Lemma active_src4_verdict `{MgrKernelSpec} hz m rs ds m' c k :
  mgr_reach hz m -> set_src_rules rs ds m = (inr tt, m') ->
  e_rules E = kernel_maps m' -> cfg c = m_cfg m' ->
  active_src4 E c !! k = src_verdict (for_packet c) user4 geo4 rs k.
Proof.
  intros Hr Hs HE Hc. unfold active_src4, for_packet. rewrite HE, Hc.
  destruct (user_rule_before_geo hz m rs ds m' Hr Hs) as (Hu & Ht & _).
  destruct (l4_proto c =? XFW_L4_PROTO_UDP); [apply Hu|apply Ht].
Qed.
End verdict.

(** The rule [it] covers the address with a network that is the longest of all
    rules for the protocol; the operator's own networks precede those of the
    countries. *)
Definition most_specific (rs : NetIps) (c : XfwGlobalCtx) (it : string * NetIp) (a : Z) : Prop :=
  exists k, k ∈ user4 it.2 ++ geo4 it.2 /\ lpm4_matches k a = true
    /\ forall it', it' ∈ rs -> for_packet c it'.2 = true ->
       (k ∈ user4 it'.2 -> k ∈ user4 it.2)
       /\ forall k', k' ∈ user4 it'.2 ++ geo4 it'.2 -> lpm4_matches k' a = true ->
          prefixlen4 k' <= prefixlen4 k.


(** ** Concrete cases *)

(** The US (code letters 85 and 83) is blocked but for the network 200.0.0.0/8. *)
Definition sample_geodb : CountryMap :=
  match @import_maxmind_geodata sample_db with inr m => m | inl _ => ∅ end.
Definition us_networks : NetGeo :=
  match load_geo_entry sample_geodb (le_combine [85; 83]) true false with
  | inr g => g
  | inl _ => mkNetGeo 0 [] []
  end.
Definition country_rules : NetIps :=
  [("no-us"%string, mkNetIp None (mkFlags false true false true false) [] [] [us_networks] []);
   ("office"%string,
    mkNetIp None (mkFlags false true true true false) [mkNet4Key 8 200] [] [] [])].

Lemma country_rules_accepted : exists m',
  @set_src_rules good_kernel country_rules (fun _ => None) Mgr_fresh = (inr tt, m').
Proof.
  apply (@src_accepted good_kernel _ country_rules (fun _ => None) Mgr_fresh good_kernel_live fresh_inv).
  - unfold src_nodup. split_and!; apply (bool_decide_unpack _); vm_compute; exact I.
  - vm_compute. reflexivity.
Qed.

