(* ===== verification/StdMap.v ===== *)
(** * StdMap: [std::map] and [std::set] as sorted lists

    The rules of a configuration are kept in [std::map]s from names and their
    networks in [std::set]s (src/manager/xfw/configuration.hh). Both are lists
    sorted by the comparison of the key; two keys are the same if neither is
    less than the other. [key] projects an element to its key: [fst] for a map,
    the identity for a set. *)

From stdpp Require Import strings sorting.
From S2P Require Import Prelude.
From S2P Require Import Uapi.
From S2P Require Import Config.
From S2P Require Import GeoIp.

(** A [Compare] of the standard library; [key_ok] holds of the values that the C++
    type can have. *)
Class Compare (K : Type) := {
  ltb : K -> K -> bool;
  key_ok : K -> Prop;
  ltb_irrefl k : ltb k k = false;
  ltb_trans a b c : ltb a b = true -> ltb b c = true -> ltb a c = true;
  ltb_total a b : key_ok a -> key_ok b -> ltb a b = false -> ltb b a = false -> a = b
}.

Section container.
Context {A K : Type} (key : A -> K) `{Compare K}.

Definition equiv_keys (a b : K) : bool := negb (ltb a b) && negb (ltb b a).

Fixpoint std_find (k : K) (l : list A) : option A :=
  match l with
  | [] => None
  | y :: l => if equiv_keys (key y) k then Some y else std_find k l
  end.

(** [map.insert_or_assign]. *)
Fixpoint insert_or_assign (x : A) (l : list A) : list A :=
  match l with
  | [] => [x]
  | y :: l' =>
      if ltb (key x) (key y) then x :: l
      else if ltb (key y) (key x) then y :: insert_or_assign x l'
      else x :: l'
  end.

(** [set.insert]: [None] if the element was there already. *)
Definition set_insert (x : A) (l : list A) : option (list A) :=
  match std_find (key x) l with Some _ => None | None => Some (insert_or_assign x l) end.

(** [erase(find(k))]: [None] if there is no such element. *)
Fixpoint std_erase (k : K) (l : list A) : option (list A) :=
  match l with
  | [] => None
  | y :: l => if equiv_keys (key y) k then Some l else cons y <$> std_erase k l
  end.

(** ** Laws *)

Definition std_ok (l : list A) : Prop :=
  StronglySorted (fun a b => ltb (key a) (key b) = true) l /\ Forall (fun a => key_ok (key a)) l.

Lemma equiv_keys_refl k : equiv_keys k k = true.
Proof. unfold equiv_keys. by rewrite ltb_irrefl. Qed.

Lemma equiv_keys_eq a b : key_ok a -> key_ok b -> equiv_keys a b = true -> a = b.
Proof. unfold equiv_keys. intros Ha Hb [H1 H2]%andb_prop. apply negb_true_iff in H1, H2. by apply ltb_total. Qed.

Lemma ltb_not_equiv a b : ltb a b = true -> equiv_keys a b = false /\ equiv_keys b a = false.
Proof. unfold equiv_keys. intros ->. cbn. by rewrite andb_false_r. Qed.

Lemma std_ok_nil : std_ok [].
Proof. split; constructor. Qed.

Lemma std_ok_cons x l :
  std_ok (x :: l) <-> key_ok (key x) /\ std_ok l /\ Forall (fun b => ltb (key x) (key b) = true) l.
Proof.
  unfold std_ok. split.
  - intros [Hs Hk]. apply StronglySorted_inv in Hs as [Hs Hx]. by apply list.Forall_cons in Hk as [? ?].
  - intros (Hx & [Hs Hk] & Hf). split; constructor; done.
Qed.

Lemma insert_elem x l y : y ∈ insert_or_assign x l -> y = x \/ y ∈ l.
Proof.
  induction l as [|z l IH]; cbn; [set_solver|]. destruct (ltb (key x) (key z)); [set_solver|].
  destruct (ltb (key z) (key x)); set_solver.
Qed.

Lemma insert_ok x l : key_ok (key x) -> std_ok l -> std_ok (insert_or_assign x l).
Proof.
  intros Hx. induction l as [|y l IH]; intros Hl; cbn [insert_or_assign].
  { apply std_ok_cons. split_and!; [done|apply std_ok_nil|constructor]. }
  pose proof Hl as (Hy & Hl' & Hf)%std_ok_cons.
  destruct (ltb (key x) (key y)) eqn:Hxy; [|destruct (ltb (key y) (key x)) eqn:Hyx].
  - apply std_ok_cons. split_and!; [done..|]. constructor; [done|].
    eapply list.Forall_impl; [exact Hf|]. cbn. intros b. by apply ltb_trans.
  - apply std_ok_cons. split_and!; [done|by apply IH|]. apply list.Forall_forall.
    intros b [->|Hb]%insert_elem; [done|]. rewrite list.Forall_forall in Hf. by apply Hf.
  - apply std_ok_cons. split_and!; [done..|]. by rewrite (ltb_total _ _ Hx Hy Hxy Hyx).
Qed.

Lemma find_insert x l k : key_ok (key x) -> key_ok k -> Forall (fun a => key_ok (key a)) l ->
  std_find k (insert_or_assign x l) = if equiv_keys (key x) k then Some x else std_find k l.
Proof.
  intros Hx Hk. induction l as [|y l IH]; intros Hl; cbn [insert_or_assign std_find]; [done|].
  apply list.Forall_cons in Hl as [Hy Hl].
  destruct (ltb (key x) (key y)) eqn:Hxy; [done|].
  destruct (ltb (key y) (key x)) eqn:Hyx; cbn [std_find].
  - destruct (equiv_keys (key y) k) eqn:Hyk; [|by apply IH].
    apply equiv_keys_eq in Hyk as <-; [|done..].
    by rewrite (proj2 (ltb_not_equiv _ _ Hyx)).
  - rewrite (ltb_total _ _ Hx Hy Hxy Hyx). by destruct (equiv_keys (key y) k).
Qed.

Lemma find_Some k l x : std_find k l = Some x -> x ∈ l /\ equiv_keys (key x) k = true.
Proof.
  induction l as [|y l IH]; cbn; [done|]. destruct (equiv_keys (key y) k) eqn:Hy.
  - intros [= <-]. split; [left|done].
  - intros Hf. apply IH in Hf as [??]. split; [by right|done].
Qed.

(** Everything after the head of a sorted list differs from it. *)
Lemma find_tail k y l : key_ok k -> std_ok (y :: l) -> equiv_keys (key y) k = true -> std_find k l = None.
Proof.
  intros Hk (Hy & [_ Hl] & Hf)%std_ok_cons He. apply equiv_keys_eq in He as <-; [|done..].
  induction l as [|z l IH]; cbn; [done|]. apply list.Forall_cons in Hf as [Hz Hf], Hl as [_ Hl].
  rewrite (proj2 (ltb_not_equiv _ _ Hz)). by apply IH.
Qed.

Lemma erase_elem k l l' y : std_erase k l = Some l' -> y ∈ l' -> y ∈ l.
Proof.
  revert l'. induction l as [|z l IH]; intros l'; cbn; [done|]. destruct (equiv_keys _ _).
  - intros [= <-]. by right.
  - destruct (std_erase k l) as [l1|] eqn:He; [|done].
    intros [= <-] [->|Hb]%elem_of_cons; [left|right; by eapply IH].
Qed.

Lemma erase_ok k l l' : std_ok l -> std_erase k l = Some l' -> std_ok l'.
Proof.
  revert l'. induction l as [|y l IH]; intros l' Hl; cbn; [done|].
  pose proof Hl as (Hy & Hl1 & Hf)%std_ok_cons. destruct (equiv_keys _ _); [by intros [= <-]|].
  destruct (std_erase k l) as [l1|] eqn:He; [|done]. intros [= <-].
  apply std_ok_cons. split_and!; [done|by apply IH|].
  rewrite list.Forall_forall in *. intros b Hb. apply Hf. by eapply erase_elem.
Qed.

Lemma find_erase k k' l l' : key_ok k -> key_ok k' -> std_ok l -> std_erase k l = Some l' ->
  std_find k' l' = if equiv_keys k k' then None else std_find k' l.
Proof.
  intros Hk Hk'. revert l'. induction l as [|y l IH]; intros l' Hl; cbn; [done|].
  pose proof Hl as (Hy & Hl1 & _)%std_ok_cons. destruct (equiv_keys (key y) k) eqn:Hyk.
  - intros [= <-]. pose proof (find_tail k y l Hk Hl Hyk) as Hn.
    apply equiv_keys_eq in Hyk as <-; [|done..]. destruct (equiv_keys (key y) k') eqn:He; [|done].
    by apply equiv_keys_eq in He as <-.
  - destruct (std_erase k l) as [l1|] eqn:He; [|done]. intros [= <-]. cbn.
    rewrite (IH l1) by done. destruct (equiv_keys (key y) k') eqn:Hyk'; [|done].
    apply equiv_keys_eq in Hyk' as <-; [|done..]. destruct (equiv_keys k (key y)) eqn:Hky; [|done].
    apply equiv_keys_eq in Hky as ->; [|done..]. by rewrite equiv_keys_refl in Hyk.
Qed.

Lemma erase_None k l : std_erase k l = None <-> std_find k l = None.
Proof.
  induction l as [|y l IH]; cbn; [done|]. destruct (equiv_keys _ _); [done|].
  rewrite <- IH. by destruct (std_erase k l).
Qed.

(** Deleting what was just added. *)
Lemma erase_insert x l : key_ok (key x) -> std_ok l -> std_find (key x) l = None ->
  std_erase (key x) (insert_or_assign x l) = Some l.
Proof.
  intros Hx. induction l as [|y l IH]; intros Hl; cbn [insert_or_assign std_find std_erase].
  { by rewrite equiv_keys_refl. }
  pose proof Hl as (Hy & Hl1 & _)%std_ok_cons. destruct (equiv_keys (key y) (key x)) eqn:He; [done|].
  intros Hn. destruct (ltb (key x) (key y)) eqn:Hxy; cbn [std_erase]; [by rewrite equiv_keys_refl|].
  destruct (ltb (key y) (key x)) eqn:Hyx; cbn [std_erase].
  - rewrite He. by rewrite IH.
  - unfold equiv_keys in He. by rewrite Hxy, Hyx in He.
Qed.

Lemma set_insert_Some x l l' :
  set_insert x l = Some l' <-> std_find (key x) l = None /\ l' = insert_or_assign x l.
Proof. unfold set_insert. destruct (std_find _ _); naive_solver. Qed.
End container.

(** ** The comparisons of the configuration *)

(** [std::less<>] on strings: bytes are compared as unsigned numbers. *)
Fixpoint string_ltb (a b : string) : bool :=
  match a, b with
  | EmptyString, String _ _ => true
  | String x a, String y b =>
      (Ascii.N_of_ascii x <? Ascii.N_of_ascii y)%N
      || ((Ascii.N_of_ascii x =? Ascii.N_of_ascii y)%N && string_ltb a b)
  | _, EmptyString => false
  end.

(** [Net4Key::operator<]. *)
Definition net4_ltb (a b : Net4Key) : bool :=
  if negb (n4_addr a =? n4_addr b) then n4_addr a <? n4_addr b
  else n4_prefixlen a <? n4_prefixlen b.

(** [Net6Key::operator<]. *)
Definition net6_ltb (a b : Net6Key) : bool :=
  if negb (n6_prefixlen a =? n6_prefixlen b) then n6_prefixlen a <? n6_prefixlen b
  else lex_ltb (net6_bytes a) (net6_bytes b).

Lemma string_ltb_irrefl s : string_ltb s s = false.
Proof. induction s as [|c s IH]; cbn; [done|]. by rewrite N.ltb_irrefl, N.eqb_refl, IH. Qed.

Lemma string_ltb_trans a b c : string_ltb a b = true -> string_ltb b c = true -> string_ltb a c = true.
Proof.
  revert b c. induction a as [|x a IH]; intros [|y b] [|z c]; cbn; try done.
  rewrite !orb_true_iff, !andb_true_iff, !N.ltb_lt, !N.eqb_eq.
  intros [H1|[H1 H1']] [H2|[H2 H2']]; [left; lia..|]. right. split; [lia|]. by eapply IH.
Qed.

Lemma string_ltb_total a b : string_ltb a b = false -> string_ltb b a = false -> a = b.
Proof.
  revert b. induction a as [|x a IH]; intros [|y b]; cbn; try done.
  rewrite !orb_false_iff, !andb_false_iff, !N.ltb_ge, !N.eqb_neq. intros [H1 H1'] [H2 H2'].
  assert (He : Ascii.N_of_ascii x = Ascii.N_of_ascii y) by lia. f_equal.
  - rewrite <- (Ascii.ascii_N_embedding x), <- (Ascii.ascii_N_embedding y). by rewrite He.
  - apply IH; naive_solver.
Qed.

#[export] Instance string_compare : Compare string := {|
  ltb := string_ltb; key_ok _ := True; ltb_irrefl := string_ltb_irrefl;
  ltb_trans := string_ltb_trans; ltb_total a b _ _ := string_ltb_total a b
|}.

#[export, program] Instance net4_compare : Compare Net4Key := {| ltb := net4_ltb; key_ok _ := True |}.
Next Obligation. intros k. unfold net4_ltb. rewrite Z.eqb_refl. apply Z.ltb_irrefl. Qed.
Next Obligation. intros a b c. unfold net4_ltb. repeat case_match; lia. Qed.
Next Obligation.
  intros [p a] [q b] _ _. unfold net4_ltb. cbn. repeat case_match; intros; f_equal; lia.
Qed.

Lemma lex_ltb_irrefl a : lex_ltb a a = false.
Proof. induction a as [|x a IH]; cbn; [done|]. by rewrite Z.ltb_irrefl, Z.eqb_refl, IH. Qed.

Lemma lex_ltb_trans a b c : lex_ltb a b = true -> lex_ltb b c = true -> lex_ltb a c = true.
Proof.
  revert b c. induction a as [|x a IH]; intros [|y b] [|z c]; cbn; try done.
  rewrite !orb_true_iff, !andb_true_iff, !Z.ltb_lt, !Z.eqb_eq.
  intros [H1|[H1 H1']] [H2|[H2 H2']]; [left; lia..|]. right. split; [lia|]. by eapply IH.
Qed.

Lemma lex_ltb_total a b : lex_ltb a b = false -> lex_ltb b a = false -> a = b.
Proof.
  revert b. induction a as [|x a IH]; intros [|y b]; cbn; try done.
  rewrite !orb_false_iff, !andb_false_iff, !Z.ltb_ge, !Z.eqb_neq. intros [H1 H1'] [H2 H2'].
  f_equal; [lia|]. apply IH; naive_solver lia.
Qed.

(** The words of an address fit into 32 bits. *)
Definition ip_ok (a : XfwIp) : Prop :=
  0 <= addr32_0 a < 2 ^ 32 /\ 0 <= addr32_1 a < 2 ^ 32
  /\ 0 <= addr32_2 a < 2 ^ 32 /\ 0 <= addr32_3 a < 2 ^ 32.

Lemma ip6_bytes_inj a b : ip_ok a -> ip_ok b -> ip6_bytes a = ip6_bytes b -> a = b.
Proof.
  intros (A0 & A1 & A2 & A3) (B0 & B1 & B2 & B3). unfold ip6_bytes.
  intros (H0 & (H1 & (H2 & H3)%app_inj_1)%app_inj_1)%app_inj_1; [|by rewrite !length_le_split..].
  destruct a, b. cbn in *. f_equal; by apply (le_split_inj 4).
Qed.

#[export, program] Instance net6_compare : Compare Net6Key :=
  {| ltb := net6_ltb; key_ok k := ip_ok (n6_addr k) |}.
Next Obligation. intros k. unfold net6_ltb. rewrite Z.eqb_refl. apply lex_ltb_irrefl. Qed.
Next Obligation.
  intros a b c. unfold net6_ltb.
  destruct (Z.eqb_spec (n6_prefixlen a) (n6_prefixlen b)), (Z.eqb_spec (n6_prefixlen b) (n6_prefixlen c)),
    (Z.eqb_spec (n6_prefixlen a) (n6_prefixlen c)); cbn [negb]; try lia. apply lex_ltb_trans.
Qed.
Next Obligation.
  intros [p a] [q b] Ha Hb. unfold net6_ltb, net6_bytes. cbn [n6_prefixlen n6_addr] in *.
  destruct (Z.eqb_spec p q) as [Hpq|], (Z.eqb_spec q p); cbn [negb]; try lia. subst q.
  intros H1 H2. f_equal. apply ip6_bytes_inj; [done..|]. by apply lex_ltb_total.
Qed.
