(* ===== verification/Proto.v ===== *)
(** * Proto: the messages of the management protocol

    The tables of src/lib/proto/proto.fbs as records, and the wrapper of
    src/manager/proto_wrappers.hh that validates a rule of a message. A field that
    may be absent is an [option]; the elements of a vector of tables are options
    where the reader checks them for null. A scalar keeps the range of its type. *)

From stdpp Require Import strings.
From S2P Require Import Prelude.
From S2P Require Import Bitset.
From S2P Require Import GeoIp.

(** ** proto.fbs *)

(** [XFWOpt]. *)
Definition XFW_CONFIG_PATCH : Z := 0.
Definition TCP_ANOMALY_FILTER_OFF : Z := 1.
Definition TCP_AUTH_FILTER_ON : Z := 2.
Definition TCP_AUTH_FILTER_OFF : Z := 3.
Definition EVALUATION_MODE_ON : Z := 4.
Definition EVALUATION_MODE_OFF : Z := 5.
Definition TCP_SYNCOOKIE_FILTER_OFF : Z := 6.
Definition TCP_SYN_FLAGS_FILTER_OFF : Z := 7.
Definition TCP_RST_FLAGS_FILTER_OFF : Z := 8.
Definition DNS_FILTER_ON : Z := 9.
Definition DNS_FILTER_OFF : Z := 10.
Definition IP_PROTO_FILTER_OFF : Z := 11.
Definition XFWOpt_MAX : Z := IP_PROTO_FILTER_OFF.

Record SyncookieMsg := mkSyncookieMsg { sm_passive_timer : Z; sm_flood_timer : Z }.

Record TcpAnomalyMsg := mkTcpAnomalyMsg {
  tm_features : option (list Z);
  tm_bad_tcp_flags : option (list Z);
  tm_seqno_value : Z
}.

Record IpProtoMsg := mkIpProtoMsg { pm_protocols : option (list Z) }.

(** [TcpFlagType]; other values are possible on the wire. *)
Definition TcpFlagType_ALL : Z := 0.
Definition TcpFlagType_SYN : Z := 1.
Definition TcpFlagType_RST : Z := 2.

Record TcpFlagsFilterMsg := mkTcpFlagsFilterMsg { fm_flag : Z; fm_ratelimit : option string }.

Record Net4 := mkNet4 { m4_addr : option (list Z); m4_port : Z; m4_prefix : Z }.
Record Net6 := mkNet6 { m6_addr : option (list Z); m6_port : Z; m6_prefix : Z }.
Record NetCode := mkNetCode { nc_port : Z; nc_code : Z }.
Record PortPair := mkPortPair { pp_port : Z; pp_port_end : Z }.

(** [NetRuleOpt]. *)
Definition NetRuleOpt_IPV6 : Z := 0.
Definition NetRuleOpt_TCP : Z := 1.
Definition NetRuleOpt_SRC : Z := 2.
Definition NetRuleOpt_ALLOW : Z := 3.
Definition NetRuleOpt_REPLACE : Z := 4.
Definition NetRuleOpt_DELETE : Z := 5.
Definition NetRuleOpt_PROTECTED_NET : Z := 6.
Definition NetRuleOpt_MAX : Z := NetRuleOpt_PROTECTED_NET.

Record NetRule := mkNetRule {
  nr_alias : option string;
  nr_flags : option (list Z);
  nr_net6s : option (list (option Net6));
  nr_net4s : option (list (option Net4));
  nr_nets : option (list (option NetCode));
  nr_ports : option (list PortPair);
  nr_ratelimit : option string
}.

(** [IcmpRuleOpt]. *)
Definition IcmpRuleOpt_IPV6 : Z := 0.
Definition IcmpRuleOpt_ALLOW : Z := 1.
Definition IcmpRuleOpt_REPLACE : Z := 2.
Definition IcmpRuleOpt_DELETE : Z := 3.
Definition IcmpRuleOpt_MAX : Z := IcmpRuleOpt_DELETE.

Record IcmpRuleMsg := mkIcmpRuleMsg {
  im_alias : option string;
  im_flags : option (list Z);
  im_types : option (list Z);
  im_ratelimit : option string
}.

(** [RatelimitOpt]. *)
Definition RatelimitOpt_DELETE : Z := 0.
Definition RatelimitOpt_MAX : Z := RatelimitOpt_DELETE.

Record RatelimitMsg := mkRatelimitMsg {
  rm_alias : option string;
  rm_flags : option (list Z);
  rm_pps : Z;
  rm_bps : Z
}.

Record DefaultAction := mkDefaultAction {
  da_flags : option (list Z);
  da_allow : bool;
  da_ratelimit : option string
}.

Record XFWCfg := mkXFWCfg {
  xc_flags : option (list Z);
  xc_ip_proto : option IpProtoMsg;
  xc_syncookie : option SyncookieMsg;
  xc_tcp_flags : option (list (option TcpFlagsFilterMsg));
  xc_net_rules : option (list (option NetRule));
  xc_icmp_rules : option (list (option IcmpRuleMsg));
  xc_ratelimits : option (list (option RatelimitMsg));
  xc_defaults : option (list (option DefaultAction));
  xc_tcp_anomaly : option TcpAnomalyMsg
}.

(** ** Errors of an update *)

(** [UpdateError] by its cause, and the exceptions of the GeoIP database. *)
Inductive UpdateError :=
  | UE_NULL_FIELD            (** a field that is not allowed to be null or empty *)
  | UE_BITSET_SIZE           (** unexpected number of bytes of a set of flags *)
  | UE_ALIAS_SIZE
  | UE_REPLACE_AND_DELETE
  | UE_RULE_NOT_FOUND (alias : string)
  | UE_ADDR_SIZE
  | UE_PORT_PROHIBITED
  | UE_PORT_REQUIRED
  | UE_ZERO_ADDRESS
  | UE_PORT_RANGE
  | UE_ALREADY_EXISTS        (** an address, a port or a type *)
  | UE_DOES_NOT_EXIST
  | UE_ONLY_SRC              (** ports and countries outside a source rule *)
  | UE_RATELIMIT (name : string)
  | UE_RATELIMITS_FULL
  | UE_DEFAULT_TWICE
  | UE_SYNCOOKIES_EVALUATION
  | UE_TCP_FLAG_TYPE
  | UE_GEO (e : GeoError).

Definition geo {A} (r : GeoError + A) : UpdateError + A :=
  match r with inl e => inl (UE_GEO e) | inr a => inr a end.

(** ** proto_wrappers.hh *)

Inductive EditAction := ADD | DELETE | REPLACE.

(** The traits of a rule type of the protocol ([ProtoFlags] and the
    specialisations of [action] and [has_matchers]). *)
Class ProtoRule (T : Type) := {
  pr_alias : T -> option string;
  pr_flags : T -> option (list Z);
  MaxBit : Z;
  opt_replace : Z;
  opt_delete : Z;
  pr_has_matchers : T -> bool
}.

Record ProtoWrapper (T : Type) := mkProtoWrapper {
  pw_rule : T;
  pw_alias : string;
  pw_flags : list Z
}.
Arguments mkProtoWrapper {T}.
Arguments pw_rule {T}.
Arguments pw_alias {T}.
Arguments pw_flags {T}.

Section wrapper.
Context `{ProtoRule T}.

Definition MaxAliasSize : Z := 100.

Definition read_alias (rule : T) : UpdateError + string :=
  let? alias := rsome (pr_alias rule) UE_NULL_FIELD in
  rverify (Z.of_nat (String.length alias) <? MaxAliasSize) UE_ALIAS_SIZE ;?
  inr alias.

Definition read_flags (rule : T) : UpdateError + list Z :=
  let? bytes := rsome (pr_flags rule) UE_NULL_FIELD in
  rsome (bitset_deserialize MaxBit bytes) UE_BITSET_SIZE.

(** The constructor. *)
Definition ProtoWrapper_of (rule : option T) : UpdateError + ProtoWrapper T :=
  let? rule := rsome rule UE_NULL_FIELD in
  let? alias := read_alias rule in
  let? flags := read_flags rule in
  inr (mkProtoWrapper rule alias flags).

Definition edit_action (p : ProtoWrapper T) : UpdateError + EditAction :=
  if BitSet_test opt_replace (pw_flags p) then
    rverify (negb (BitSet_test opt_delete (pw_flags p))) UE_REPLACE_AND_DELETE ;?
    inr REPLACE
  else if BitSet_test opt_delete (pw_flags p) then inr DELETE
  else inr ADD.

Definition has_matchers (p : ProtoWrapper T) : bool := pr_has_matchers (pw_rule p).
End wrapper.

(** The vector is present and not empty. *)
Definition nonempty {A} (v : option (list A)) : bool :=
  match v with Some (_ :: _) => true | _ => false end.

Definition NetRule_proto : ProtoRule NetRule := {|
  pr_alias := nr_alias; pr_flags := nr_flags; MaxBit := NetRuleOpt_MAX;
  opt_replace := NetRuleOpt_REPLACE; opt_delete := NetRuleOpt_DELETE;
  pr_has_matchers r := nonempty (nr_net4s r) || nonempty (nr_net6s r)
                       || nonempty (nr_nets r) || nonempty (nr_ports r)
|}.
#[export] Existing Instance NetRule_proto.

Definition IcmpRule_proto : ProtoRule IcmpRuleMsg := {|
  pr_alias := im_alias; pr_flags := im_flags; MaxBit := IcmpRuleOpt_MAX;
  opt_replace := IcmpRuleOpt_REPLACE; opt_delete := IcmpRuleOpt_DELETE;
  pr_has_matchers r := nonempty (im_types r)
|}.
#[export] Existing Instance IcmpRule_proto.
