(* ===== verification/ConfigUpdater.v ===== *)
(** * ConfigUpdater: from a message to a configuration

    [XfwConfigUpdater] of src/manager/xfw_config_updater.cc. A message either
    replaces the configuration or patches the present one. The updater works on a
    copy, so that an exception leaves the configuration of the manager as it was;
    every [prepare_*] function returns the new value of the members it sets. *)

From stdpp Require Import strings.
From S2P Require Import Prelude.
From S2P Require Import Enums.
From S2P Require Import Uapi.
From S2P Require Import Bitset.
From S2P Require Import AnomalyFlags.
From S2P Require Import Config.
From S2P Require Import GeoIp.
From S2P Require Import StdMap.
From S2P Require Import Proto.

(** tcp_anomaly_features.h. *)
Definition XFW_BAD_FLAGS : Z := 0.
Definition XFW_SYN_WIHOUT_OPTIONS : Z := 1.
Definition XFW_SYN_WITH_PAYLOAD : Z := 2.
Definition XFW_SYN_WITH_SEQ_NO : Z := 3.
Definition XFW_TCP_ANOMALY_FEATURE_MAX : Z := 4.

(** ** Rules by name *)

Section rules.
Context {V : Type}.

Definition get_rule (map : list (string * V)) (alias : string) : UpdateError + V :=
  match std_find fst alias map with
  | Some (_, rule) => inr rule
  | None => inl (UE_RULE_NOT_FOUND alias)
  end.

Definition delete_rule (alias : string) (from : list (string * V))
    : UpdateError + list (string * V) :=
  rsome (std_erase fst alias from) (UE_RULE_NOT_FOUND alias).
End rules.

(** ** Keys of networks *)

(** Four bytes read as a [__be32]. *)
Definition get_net4key_prot_net (data : Net4) (addr : list Z) : UpdateError + Net4Key :=
  rverify (m4_port data =? 0) UE_PORT_PROHIBITED ;?
  inr (mkNet4Key (m4_prefix data) (le_combine addr)).

Definition get_net4key_src (data : Net4) (addr : list Z) (flags : Flags) : UpdateError + Net4Key :=
  rverify (negb (isAllowed flags) || (m4_port data =? 0)) UE_PORT_PROHIBITED ;?
  rverify (m4_port data =? 0) UE_PORT_PROHIBITED ;?
  inr (mkNet4Key (m4_prefix data) (le_combine addr)).

Definition get_net4key_dst (data : Net4) (addr : list Z) : UpdateError + Net4Key :=
  rverify (negb (m4_port data =? 0)) UE_PORT_REQUIRED ;?
  rverify (negb (forallb (Z.eqb 0) addr)) UE_ZERO_ADDRESS ;?
  inr (mkNet4Key (bpf_htons (m4_port data)) (le_combine addr)).

Definition get_net4key (data : option Net4) (flags : Flags) : UpdateError + Net4Key :=
  let? data := rsome data UE_NULL_FIELD in
  let? addr := rsome (m4_addr data) UE_NULL_FIELD in
  rverify (length addr =? 4)%nat UE_ADDR_SIZE ;?
  if isProcNet flags then get_net4key_prot_net data addr
  else if isSrc flags then get_net4key_src data addr flags
  else get_net4key_dst data addr.

Definition get_net6key_prot_net (data : Net6) (addr : list Z) : UpdateError + Net6Key :=
  rverify (m6_port data =? 0) UE_PORT_PROHIBITED ;?
  inr (mkNet6Key (m6_prefix data) (ip6_of_bytes addr)).

Definition get_net6key_src (data : Net6) (addr : list Z) (flags : Flags) : UpdateError + Net6Key :=
  rverify (negb (isAllowed flags) || (m6_port data =? 0)) UE_PORT_PROHIBITED ;?
  rverify (m6_port data =? 0) UE_PORT_PROHIBITED ;?
  inr (mkNet6Key (m6_prefix data) (ip6_of_bytes addr)).

Definition get_net6key_dst (data : Net6) (addr : list Z) : UpdateError + Net6Key :=
  rverify (negb (m6_port data =? 0)) UE_PORT_REQUIRED ;?
  rverify (negb (forallb (Z.eqb 0) addr)) UE_ZERO_ADDRESS ;?
  inr (mkNet6Key (bpf_htons (m6_port data)) (ip6_of_bytes addr)).

Definition get_net6key (data : option Net6) (flags : Flags) : UpdateError + Net6Key :=
  let? data := rsome data UE_NULL_FIELD in
  let? addr := rsome (m6_addr data) UE_NULL_FIELD in
  rverify (length addr =? 16)%nat UE_ADDR_SIZE ;?
  if isProcNet flags then get_net6key_prot_net data addr
  else if isSrc flags then get_net6key_src data addr flags
  else get_net6key_dst data addr.

Definition ports_from_range (port port_end : Z) : UpdateError + list Z :=
  if port_end =? 0 then inr [port] else
  if port_end <=? port then inl UE_PORT_RANGE else
  inr (seqZ port (port_end - port + 1)).

(** ** Vectors without repetition *)

(** [find] and [push_back]. *)
Definition vec_add (l : list Z) (x : Z) : UpdateError + list Z :=
  if decide (x ∈ l) then inl UE_ALREADY_EXISTS else inr (l ++ [x]).

(** [erase(find(x))]: the first occurrence. *)
Fixpoint vec_erase (x : Z) (l : list Z) : option (list Z) :=
  match l with
  | [] => None
  | y :: l => if x =? y then Some l else cons y <$> vec_erase x l
  end.
Definition vec_delete (l : list Z) (x : Z) : UpdateError + list Z :=
  rsome (vec_erase x l) UE_DOES_NOT_EXIST.

(** A loop over a vector that may be absent. *)
Definition over {A B} (v : option (list A)) (f : B -> A -> UpdateError + B) (b : B)
    : UpdateError + B :=
  match v with Some l => rfold f b l | None => inr b end.

(** The ports of a pair, each in network byte order. *)
Definition over_ports (f : list Z -> Z -> UpdateError + list Z) (ports : list Z) (p : PortPair)
    : UpdateError + list Z :=
  let? range := ports_from_range (pp_port p) (pp_port_end p) in
  rfold (fun ports _p => f ports (bpf_htons _p)) ports range.

Definition set_net4s n4 (to : NetIp) : NetIp :=
  mkNetIp (ni_ratelimit_index to) (ni_flags to) n4 (ni_net6s to) (ni_nets to) (ni_ports to).
Definition set_net6s n6 (to : NetIp) : NetIp :=
  mkNetIp (ni_ratelimit_index to) (ni_flags to) (ni_net4s to) n6 (ni_nets to) (ni_ports to).
Definition set_nets nets (to : NetIp) : NetIp :=
  mkNetIp (ni_ratelimit_index to) (ni_flags to) (ni_net4s to) (ni_net6s to) nets (ni_ports to).
Definition set_ports ports (to : NetIp) : NetIp :=
  mkNetIp (ni_ratelimit_index to) (ni_flags to) (ni_net4s to) (ni_net6s to) (ni_nets to) ports.

(** What depends on the kind of a rule: the specialisations of
    [set_attributes_to], [add_matchers_to] and [delete_matchers_from]. *)
Class EditTarget (P T : Type) := {
  target_init : T;
  set_attributes_to : ProtoWrapper P -> T -> UpdateError + T;
  add_matchers_to : ProtoWrapper P -> T -> UpdateError + T;
  delete_matchers_from : ProtoWrapper P -> T -> UpdateError + T
}.

Section updater.
Context (geodb : CountryMap) (ratelimits_ : Ratelimits).

Definition get_ratelimit_idx (name : option string) : UpdateError + option Z :=
  match name with
  | None => inr None
  | Some name =>
      rverify (negb (String.length name =? 0)%nat) UE_NULL_FIELD ;?
      let? i := rsome (get_active_index name ratelimits_) (UE_RATELIMIT name) in
      inr (Some (Z.of_nat i))
  end.

(** ** Network rules *)

Definition add_net6 (to : NetIp) (data : option Net6) : UpdateError + NetIp :=
  let? key := get_net6key data (ni_flags to) in
  let? n6 := rsome (set_insert id key (ni_net6s to)) UE_ALREADY_EXISTS in
  inr (set_net6s n6 to).

Definition add_net4 (to : NetIp) (data : option Net4) : UpdateError + NetIp :=
  let? key := get_net4key data (ni_flags to) in
  let? n4 := rsome (set_insert id key (ni_net4s to)) UE_ALREADY_EXISTS in
  inr (set_net4s n4 to).

Definition add_geo (to : NetIp) (data : option NetCode) : UpdateError + NetIp :=
  let? data := rsome data UE_NULL_FIELD in
  rverify (nc_port data =? 0) UE_PORT_PROHIBITED ;?
  let? g := geo (load_geo_entry geodb (nc_code data)
                   (negb (isIpv6 (ni_flags to))) (isIpv6 (ni_flags to))) in
  inr (set_nets (ni_nets to ++ [g]) to).

Definition net_add_matchers_to (p : ProtoWrapper NetRule) (to : NetIp) : UpdateError + NetIp :=
  let proto := pw_rule p in
  let? to := over (nr_net6s proto) add_net6 to in
  let? to := over (nr_net4s proto) add_net4 to in
  let? to := match nr_ports proto with
    | None => inr to
    | Some ports =>
        rverify (isSrc (ni_flags to)) UE_ONLY_SRC ;?
        let? l := rfold (over_ports vec_add) (ni_ports to) ports in
        inr (set_ports l to)
    end in
  match nr_nets proto with
  | None => inr to
  | Some nets => rverify (isSrc (ni_flags to)) UE_ONLY_SRC ;? rfold add_geo to nets
  end.

Definition delete_net6 (from : NetIp) (data : option Net6) : UpdateError + NetIp :=
  let? key := get_net6key data (ni_flags from) in
  let? n6 := rsome (std_erase id key (ni_net6s from)) UE_DOES_NOT_EXIST in
  inr (set_net6s n6 from).

Definition delete_net4 (from : NetIp) (data : option Net4) : UpdateError + NetIp :=
  let? key := get_net4key data (ni_flags from) in
  let? n4 := rsome (std_erase id key (ni_net4s from)) UE_DOES_NOT_EXIST in
  inr (set_net4s n4 from).

Definition delete_geo (from : NetIp) (data : option NetCode) : UpdateError + NetIp :=
  let? data := rsome data UE_NULL_FIELD in
  let kept := filter (fun r => geo_code r <> nc_code data) (ni_nets from) in
  rverify (negb (length kept =? length (ni_nets from))%nat) UE_DOES_NOT_EXIST ;?
  inr (set_nets kept from).

Definition net_delete_matchers_from (p : ProtoWrapper NetRule) (from : NetIp)
    : UpdateError + NetIp :=
  let proto := pw_rule p in
  let? from := over (nr_net6s proto) delete_net6 from in
  let? from := over (nr_net4s proto) delete_net4 from in
  let? from := match nr_ports proto with
    | None => inr from
    | Some ports =>
        rverify (isSrc (ni_flags from)) UE_ONLY_SRC ;?
        let? l := rfold (over_ports vec_delete) (ni_ports from) ports in
        inr (set_ports l from)
    end in
  match nr_nets proto with
  | None => inr from
  | Some nets => rverify (isSrc (ni_flags from)) UE_ONLY_SRC ;? rfold delete_geo from nets
  end.

Definition net_set_attributes_to (p : ProtoWrapper NetRule) (rule : NetIp) : UpdateError + NetIp :=
  let? idx := get_ratelimit_idx (nr_ratelimit (pw_rule p)) in
  let test := fun opt => BitSet_test opt (pw_flags p) in
  inr (mkNetIp idx
    (mkFlags (test NetRuleOpt_PROTECTED_NET) (test NetRuleOpt_SRC) (test NetRuleOpt_ALLOW)
       (test NetRuleOpt_TCP) (test NetRuleOpt_IPV6))
    (ni_net4s rule) (ni_net6s rule) (ni_nets rule) (ni_ports rule)).

(** [NetIp{}]. *)
Definition NetIp_init : NetIp := mkNetIp None (mkFlags false false false false false) [] [] [] [].

#[export] Instance net_target : EditTarget NetRule NetIp := {|
  target_init := NetIp_init; set_attributes_to := net_set_attributes_to;
  add_matchers_to := net_add_matchers_to; delete_matchers_from := net_delete_matchers_from
|}.

(** ** ICMP rules *)

Definition set_types types (r : IcmpRule) : IcmpRule :=
  mkIcmpRule (ir_isAllowed r) (ir_isIpv6 r) (ir_ratelimit_index r) types.

Definition icmp_add_matchers_to (p : ProtoWrapper IcmpRuleMsg) (out : IcmpRule)
    : UpdateError + IcmpRule :=
  let? types := over (im_types (pw_rule p)) vec_add (ir_types out) in
  inr (set_types types out).

(** Only called with matchers, so the types are present. *)
Definition icmp_delete_matchers_from (p : ProtoWrapper IcmpRuleMsg) (from : IcmpRule)
    : UpdateError + IcmpRule :=
  let? types := over (im_types (pw_rule p)) vec_delete (ir_types from) in
  inr (set_types types from).

Definition icmp_set_attributes_to (p : ProtoWrapper IcmpRuleMsg) (rule : IcmpRule)
    : UpdateError + IcmpRule :=
  let? idx := get_ratelimit_idx (im_ratelimit (pw_rule p)) in
  inr (mkIcmpRule (BitSet_test IcmpRuleOpt_ALLOW (pw_flags p))
         (BitSet_test IcmpRuleOpt_IPV6 (pw_flags p)) idx (ir_types rule)).

(** [IcmpRule{}]. *)
Definition IcmpRule_init : IcmpRule := mkIcmpRule false false None [].

#[export] Instance icmp_target : EditTarget IcmpRuleMsg IcmpRule := {|
  target_init := IcmpRule_init; set_attributes_to := icmp_set_attributes_to;
  add_matchers_to := icmp_add_matchers_to; delete_matchers_from := icmp_delete_matchers_from
|}.

(** ** Editing a set of rules *)

Definition apply_edit_action `{ProtoRule P} `{!EditTarget P T} (proto : ProtoWrapper P)
    (set : list (string * T)) : UpdateError + list (string * T) :=
  let? act := edit_action proto in
  let alias := pw_alias proto in
  match act with
  | REPLACE =>
      if has_matchers proto then
        let? net := set_attributes_to proto target_init in
        let? net := add_matchers_to proto net in
        inr (insert_or_assign fst (alias, net) set)
      else
        let? net := get_rule set alias in
        let? net := set_attributes_to proto net in
        inr (insert_or_assign fst (alias, net) set)
  | DELETE =>
      if has_matchers proto then
        let? net := get_rule set alias in
        let? net := delete_matchers_from proto net in
        inr (insert_or_assign fst (alias, net) set)
      else delete_rule alias set
  | ADD =>
      let? net := get_rule set alias in
      let? net := add_matchers_to proto net in
      inr (insert_or_assign fst (alias, net) set)
  end.

(** ** The sections of a message *)

(** The source rules, the protected networks and the destination rules. *)
Record NetRules := mkNetRules { nrs_src : NetIps; nrs_prot : NetIps; nrs_dst : NetIps }.

Definition prepare_net_rule (sets : NetRules) (msg : option NetRule) : UpdateError + NetRules :=
  let? rule := ProtoWrapper_of msg in
  if BitSet_test NetRuleOpt_SRC (pw_flags rule) then
    let? s := apply_edit_action rule (nrs_src sets) in
    inr (mkNetRules s (nrs_prot sets) (nrs_dst sets))
  else if BitSet_test NetRuleOpt_PROTECTED_NET (pw_flags rule) then
    let? s := apply_edit_action rule (nrs_prot sets) in
    inr (mkNetRules (nrs_src sets) s (nrs_dst sets))
  else
    let? s := apply_edit_action rule (nrs_dst sets) in
    inr (mkNetRules (nrs_src sets) (nrs_prot sets) s).

Definition prepare_net_rules (msg : XFWCfg) (sets : NetRules) : UpdateError + NetRules :=
  over (xc_net_rules msg) prepare_net_rule sets.

Definition prepare_icmp_rules (msg : XFWCfg) (rs : IcmpRules) : UpdateError + IcmpRules :=
  over (xc_icmp_rules msg) (fun rs m =>
    let? rule := ProtoWrapper_of m in apply_edit_action rule rs) rs.

(** The inner loop of [prepare_defaults]: one action for a set of indices. *)
Definition set_default (flags : list Z) (a : Action) (ds : Defaults) (idx : DefaultIndex)
    : UpdateError + Defaults :=
  if negb (BitSet_test (enum_z idx) flags) then inr ds else
  match ds idx with
  | Some _ => inl UE_DEFAULT_TWICE
  | None => inr (fun i => if decide (i = idx) then Some a else ds i)
  end.

Definition XFW_DEFAULT_MAX : Z := 14.

Definition prepare_default (ds : Defaults) (rule : option DefaultAction) : UpdateError + Defaults :=
  let? rule := rsome rule UE_NULL_FIELD in
  let? bytes := rsome (da_flags rule) UE_NULL_FIELD in
  let? ratelimit_idx := get_ratelimit_idx (da_ratelimit rule) in
  let? flags := rsome (bitset_deserialize XFW_DEFAULT_MAX bytes) UE_BITSET_SIZE in
  rfold (set_default flags (mkAction (da_allow rule) ratelimit_idx)) ds enum_values.

Definition prepare_defaults (msg : XFWCfg) (ds : Defaults) : UpdateError + Defaults :=
  match xc_defaults msg with
  | None => inr ds
  | Some l => rfold prepare_default (fun _ => None) l
  end.

(** The SYN and the RST limit. *)
Definition prepare_tcp_flag (filters : option Z * option Z) (rule : option TcpFlagsFilterMsg)
    : UpdateError + option Z * option Z :=
  let? rule := rsome rule UE_NULL_FIELD in
  let? name := rsome (fm_ratelimit rule) UE_NULL_FIELD in
  rverify (negb (String.length name =? 0)%nat) UE_NULL_FIELD ;?
  let? i := rsome (get_active_index name ratelimits_) (UE_RATELIMIT name) in
  let idx := Some (Z.of_nat i) in
  if fm_flag rule =? TcpFlagType_ALL then inr (idx, idx) else
  if fm_flag rule =? TcpFlagType_SYN then inr (idx, filters.2) else
  if fm_flag rule =? TcpFlagType_RST then inr (filters.1, idx) else
  inl UE_TCP_FLAG_TYPE.

Definition prepare_tcp_flags_filter (msg_flags : list Z) (msg : XFWCfg)
    (syn rst : option TcpFlagFilter) : UpdateError + option Z * option Z :=
  let syn := if BitSet_test TCP_SYN_FLAGS_FILTER_OFF msg_flags then None else syn in
  let rst := if BitSet_test TCP_RST_FLAGS_FILTER_OFF msg_flags then None else rst in
  over (xc_tcp_flags msg) prepare_tcp_flag (syn, rst).
End updater.

Definition prepare_evaluation_mode (msg_flags : list Z) (old : bool) : bool :=
  if BitSet_test EVALUATION_MODE_OFF msg_flags then false
  else if BitSet_test EVALUATION_MODE_ON msg_flags then true else old.

Definition prepare_protocols (msg_flags : list Z) (msg : XFWCfg) (old : option (list Z))
    : UpdateError + option (list Z) :=
  if BitSet_test IP_PROTO_FILTER_OFF msg_flags then inr None else
  match xc_ip_proto msg with
  | None => inr old
  | Some ip_proto =>
      let? bytes := rsome (pm_protocols ip_proto) UE_NULL_FIELD in
      let? protocols := rsome (bitset_deserialize XFW_SUPPORTED_PROTOCOL_MAX bytes) UE_BITSET_SIZE in
      inr (Some protocols)
  end.

Definition prepare_tcp_anomaly_filter (msg_flags : list Z) (msg : XFWCfg) (old : TcpAnomalyFilter)
    : UpdateError + TcpAnomalyFilter :=
  if BitSet_test TCP_ANOMALY_FILTER_OFF msg_flags then
    inr (mkTcpAnomalyFilter false (af_syn_without_opt_enabled old) (af_syn_with_payload_enabled old)
           (af_bad_flags old) (af_syn_with_seqno old))
  else match xc_tcp_anomaly msg with
  | None => inr old
  | Some m =>
      let? bytes := rsome (tm_features m) UE_NULL_FIELD in
      let? features := rsome (bitset_deserialize XFW_TCP_ANOMALY_FEATURE_MAX bytes) UE_BITSET_SIZE in
      let test := fun f => BitSet_test f features in
      let? bad_flags :=
        if test XFW_BAD_FLAGS then
          match tm_bad_tcp_flags m with
          | None => inr (BitSet_or xfw_prohibited_rules xfw_suspicious_rules)
          | Some bytes =>
              let? user_defined_rules :=
                rsome (bitset_deserialize XFW_BIT_CONTROL_MAX bytes) UE_BITSET_SIZE in
              inr (BitSet_or xfw_prohibited_rules user_defined_rules)
          end
        else inr xfw_prohibited_rules in
      inr (mkTcpAnomalyFilter true
        (if test XFW_SYN_WIHOUT_OPTIONS then true else af_syn_without_opt_enabled old)
        (if test XFW_SYN_WITH_PAYLOAD then true else af_syn_with_payload_enabled old)
        bad_flags
        (if test XFW_SYN_WITH_SEQ_NO then Some (bpf_htonl (tm_seqno_value m))
         else af_syn_with_seqno old))
  end.

Definition prepare_dns_filter (msg_flags : list Z) (old : bool) : bool :=
  if BitSet_test DNS_FILTER_OFF msg_flags then false
  else if BitSet_test DNS_FILTER_ON msg_flags then true else old.

Definition prepare_tcp_auth_filter (msg_flags : list Z) (old : bool) : bool :=
  if BitSet_test TCP_AUTH_FILTER_OFF msg_flags then false
  else if BitSet_test TCP_AUTH_FILTER_ON msg_flags then true else old.

Definition prepare_syncookie_filter (msg_flags : list Z) (msg : XFWCfg)
    (old : option SynCookieFilter) : option SynCookieFilter :=
  match xc_syncookie msg with
  | None => old
  | Some m =>
      if BitSet_test TCP_SYNCOOKIE_FILTER_OFF msg_flags then None
      else Some (mkSynCookieFilter (sm_passive_timer m) (sm_flood_timer m))
  end.

Definition prepare_ratelimit (r : Ratelimits) (rule : option RatelimitMsg)
    : UpdateError + Ratelimits :=
  let? rule := rsome rule UE_NULL_FIELD in
  let? alias := rsome (rm_alias rule) UE_NULL_FIELD in
  rverify (negb (String.length alias =? 0)%nat) UE_NULL_FIELD ;?
  let? bytes := rsome (rm_flags rule) UE_NULL_FIELD in
  let? flags := rsome (bitset_deserialize RatelimitOpt_MAX bytes) UE_BITSET_SIZE in
  if BitSet_test RatelimitOpt_DELETE flags
  then rsome (inactivate alias r) (UE_RATELIMIT alias)
  else rsome (upsert alias (rm_pps rule) (rm_bps rule) r) UE_RATELIMITS_FULL.

Definition prepare_ratelimits (msg : XFWCfg) (r : Ratelimits) : UpdateError + Ratelimits :=
  over (xc_ratelimits msg) prepare_ratelimit r.

(** ** The update *)

(** The constructor: the flags of the message and the configuration to work on. *)
Definition XfwConfigUpdater (config : option XfwConfig) (msg : XFWCfg)
    : UpdateError + list Z * XfwConfig :=
  let? bytes := rsome (xc_flags msg) UE_NULL_FIELD in
  let? msg_flags := rsome (bitset_deserialize XFWOpt_MAX bytes) UE_BITSET_SIZE in
  inr (msg_flags,
    match config with
    | None => XfwConfig_init
    | Some config =>
        if BitSet_test XFW_CONFIG_PATCH msg_flags then config
        else mkXfwConfig false None None None None (anomaly_filter XfwConfig_init) false false
               [] [] [] [] (inactivate_all (ratelimits config)) (fun _ => None)
    end).

Definition prepare_update (geodb : CountryMap) (msg_flags : list Z) (msg : XFWCfg) (c : XfwConfig)
    : UpdateError + XfwConfig :=
  let? ip_proto := prepare_protocols msg_flags msg (ip_proto_filter c) in
  let? rl := prepare_ratelimits msg (ratelimits c) in
  let? ds := prepare_defaults rl msg (defaults c) in
  let? nets := prepare_net_rules geodb rl msg (mkNetRules (src_rules c) (prot_net c) (dst_rules c)) in
  let? anomaly := prepare_tcp_anomaly_filter msg_flags msg (anomaly_filter c) in
  let auth := prepare_tcp_auth_filter msg_flags (auth_filter c) in
  let dns := prepare_dns_filter msg_flags (dns_filter c) in
  let evaluation := prepare_evaluation_mode msg_flags (evaluation_mode c) in
  let syncookie := prepare_syncookie_filter msg_flags msg (syncookie_filter c) in
  rverify (negb evaluation || bool_decide (syncookie = None)) UE_SYNCOOKIES_EVALUATION ;?
  let? flags := prepare_tcp_flags_filter rl msg_flags msg (tcp_syn_flag_filter c) (tcp_rst_flag_filter c) in
  let? icmp := prepare_icmp_rules rl msg (icmp_rules c) in
  inr (mkXfwConfig evaluation ip_proto syncookie flags.1 flags.2 anomaly auth dns
         (nrs_src nets) icmp (nrs_dst nets) (nrs_prot nets) rl ds).

(** [XfwConfigUpdater r(xfw, cfg); r.prepare_update()]. *)
Definition prepared_config (geodb : CountryMap) (config : option XfwConfig) (msg : XFWCfg)
    : UpdateError + XfwConfig :=
  let? r := XfwConfigUpdater config msg in
  prepare_update geodb r.1 msg r.2.
