(* ===== verification/UpdaterSpec.v ===== *)
(** * UpdaterSpec: what every accepted configuration satisfies

    The configurations that [ConfigUpdater] produces are well formed, whatever
    sequence of messages led to them: the rules and the networks of a rule are
    proper maps and sets, a rule is of the kind of the section it is in, and SYN
    cookies are never combined with the evaluation mode. *)

From stdpp Require Import strings.
From S2P Require Import Prelude.
From S2P Require Import Enums.
From S2P Require Import Uapi.
From S2P Require Import Bitset.
From S2P Require Import AnomalyFlags.
From S2P Require Import Config.
From S2P Require Import GeoIp.
From S2P Require Import GeoIpSpec.
From S2P Require Import StdMap.
From S2P Require Import Proto.
From S2P Require Import ConfigUpdater.

(** ** The types of the fields of a message *)

Record net4_typed (d : Net4) : Prop := mkNet4Typed {
  t4_addr a : m4_addr d = Some a -> Forall is_byte a;
  t4_port : 0 <= m4_port d < 2 ^ 16
}.
Record net6_typed (d : Net6) : Prop := mkNet6Typed {
  t6_addr a : m6_addr d = Some a -> Forall is_byte a;
  t6_port : 0 <= m6_port d < 2 ^ 16
}.
Record net_rule_typed (r : NetRule) : Prop := mkNetRuleTyped {
  tr_net4s l d : nr_net4s r = Some l -> Some d ∈ l -> net4_typed d;
  tr_net6s l d : nr_net6s r = Some l -> Some d ∈ l -> net6_typed d
}.
Definition msg_typed (m : XFWCfg) : Prop :=
  forall l r, xc_net_rules m = Some l -> Some r ∈ l -> net_rule_typed r.

(** ** Well-formed rules *)

Inductive RuleKind := KIND_SRC | KIND_PROT | KIND_DST.
#[export] Instance RuleKind_eq_dec : EqDecision RuleKind.
Proof. solve_decision. Defined.

Definition kind_of (f : Flags) : RuleKind :=
  if isSrc f then KIND_SRC else if isProcNet f then KIND_PROT else KIND_DST.

(** The index of a rate limit is one of the array of named rates. *)
Definition idx_ok (o : option Z) : Prop :=
  forall i, o = Some i -> 0 <= i < Z.of_nat MaxEntries.

Record net_ok (kind : RuleKind) (r : NetIp) : Prop := mkNetOk {
  no_kind : kind_of (ni_flags r) = kind;
  no_net4s : std_ok id (ni_net4s r);
  no_net6s : std_ok id (ni_net6s r);
  no_ports : NoDup (ni_ports r);
  no_src_only : kind <> KIND_SRC -> ni_ports r = [] /\ ni_nets r = [];
  no_dst4 k : kind = KIND_DST -> k ∈ ni_net4s r -> 0 < n4_prefixlen k < 2 ^ 16 /\ n4_addr k <> 0;
  no_dst6 k : kind = KIND_DST -> k ∈ ni_net6s r ->
    0 < n6_prefixlen k < 2 ^ 16 /\ n6_addr k <> zero_ip;
  no_idx : idx_ok (ni_ratelimit_index r)
}.

Record icmp_ok (r : IcmpRule) : Prop := mkIcmpOk {
  io_types : NoDup (ir_types r);
  io_idx : idx_ok (ir_ratelimit_index r)
}.

(** A map of rules that satisfy [P]. *)
Definition rules_ok {V} (P : V -> Prop) (l : list (string * V)) : Prop :=
  std_ok fst l /\ Forall (fun it => P it.2) l.

Record config_ok (c : XfwConfig) : Prop := mkConfigOk {
  co_ratelimits : rl_inv (ratelimits c);
  co_src : rules_ok (net_ok KIND_SRC) (src_rules c);
  co_prot : rules_ok (net_ok KIND_PROT) (prot_net c);
  co_dst : rules_ok (net_ok KIND_DST) (dst_rules c);
  co_icmp : rules_ok icmp_ok (icmp_rules c);
  co_defaults i a : defaults c i = Some a -> idx_ok (act_ratelimit_index a);
  co_syn : idx_ok (tcp_syn_flag_filter c);
  co_rst : idx_ok (tcp_rst_flag_filter c);
  co_syncookies : ~ (evaluation_mode c = true /\ is_Some (syncookie_filter c))
}.

(** ** Keys *)

Lemma le_combine_zero a : Forall is_byte a -> le_combine a = 0 -> forallb (Z.eqb 0) a = true.
Proof.
  induction 1 as [|b r Hb Hr IH]; cbn [le_combine forallb]; [done|]. unfold is_byte in Hb.
  pose proof (le_combine_range r Hr). intros H0. assert (b = 0) as -> by lia. apply IH. lia.
Qed.

Lemma bswap16_nonzero p : 0 < p < 2 ^ 16 -> 0 < bpf_htons p < 2 ^ 16.
Proof. unfold bswap16. intros. dlia. Qed.

Lemma word_range a : Forall is_byte a -> length a = 4%nat -> 0 <= le_combine a < 2 ^ 32.
Proof. intros Ha Hl. pose proof (le_combine_range a Ha) as Hr. by rewrite Hl in Hr. Qed.

Lemma ip6_of_bytes_words a : Forall is_byte a -> length a = 16%nat ->
  ip_ok (ip6_of_bytes a) /\ (ip6_of_bytes a = zero_ip -> forallb (Z.eqb 0) a = true).
Proof.
  intros Ha Hl.
  assert (Hw : forall k, (k <= 12)%nat -> Forall is_byte (take 4 (drop k a)) /\ length (take 4 (drop k a)) = 4%nat).
  { intros k Hk. split; [by apply Forall_take, Forall_drop|]. rewrite length_take, length_drop. lia. }
  pose proof (Hw 0%nat ltac:(lia)) as Hw0. rewrite drop_0 in Hw0. split.
  - unfold ip_ok, ip6_of_bytes. cbn [addr32_0 addr32_1 addr32_2 addr32_3].
    split_and!; apply word_range; first [apply Hw0|apply Hw; lia].
  - intros [= H0 H1 H2 H3].
    assert (He : a = take 4 a ++ take 4 (drop 4 a) ++ take 4 (drop 8 a) ++ take 4 (drop 12 a)).
    { clear -Hl. do 16 (destruct a as [|? a]; [done|]). by destruct a. }
    rewrite He, !forallb_app.
    apply le_combine_zero in H0, H1, H2, H3; try (first [apply Hw0|apply Hw; lia]).
    by rewrite H0, H1, H2, H3.
Qed.

(** What the functions that build a key ensure. *)
Lemma get_net4key_inr d f k : (forall d', d = Some d' -> net4_typed d') -> get_net4key d f = inr k ->
  kind_of f = KIND_DST -> 0 < n4_prefixlen k < 2 ^ 16 /\ n4_addr k <> 0.
Proof.
  unfold get_net4key, kind_of. intros Ht.
  intros (d' & ->%rsome_inr & (a & Ha%rsome_inr & (u & Hl%rverify_inr & Hk)%rbind_inr)%rbind_inr)%rbind_inr.
  destruct (Ht d' eq_refl) as [Hb Hp]. specialize (Hb a Ha).
  destruct (isSrc f); [done|]. destruct (isProcNet f); [done|]. intros _.
  unfold get_net4key_dst in Hk.
  apply rbind_inr in Hk as (? & Hport%rverify_inr & Hk). apply rbind_inr in Hk as (? & Hz%rverify_inr & [= <-]).
  cbn. split; [apply bswap16_nonzero; lia|]. intros H0. by rewrite le_combine_zero in Hz.
Qed.

Lemma get_net6key_inr d f k : (forall d', d = Some d' -> net6_typed d') -> get_net6key d f = inr k ->
  ip_ok (n6_addr k)
  /\ (kind_of f = KIND_DST -> 0 < n6_prefixlen k < 2 ^ 16 /\ n6_addr k <> zero_ip).
Proof.
  unfold get_net6key, kind_of. intros Ht.
  intros (d' & ->%rsome_inr & (a & Ha%rsome_inr & (u & Hl%rverify_inr & Hk)%rbind_inr)%rbind_inr)%rbind_inr.
  destruct (Ht d' eq_refl) as [Hb Hp]. specialize (Hb a Ha). apply Nat.eqb_eq in Hl.
  destruct (ip6_of_bytes_words a Hb Hl) as [Hok Hzero].
  unfold get_net6key_prot_net, get_net6key_src, get_net6key_dst in Hk.
  destruct (isProcNet f), (isSrc f); repeat (apply rbind_inr in Hk as (? & ?%rverify_inr & Hk));
    injection Hk as <-; (split; [done|]); try done.
  intros _. cbn. split; [apply bswap16_nonzero; lia|]. intros H1.
  apply Hzero in H1. by rewrite H1 in *.
Qed.

(** ** Matchers *)

Section matchers.
Context (kind : RuleKind).

Lemma set_net4s_ok n4 r :
  net_ok kind r -> std_ok id n4 ->
  (forall k, kind = KIND_DST -> k ∈ n4 -> 0 < n4_prefixlen k < 2 ^ 16 /\ n4_addr k <> 0) ->
  net_ok kind (set_net4s n4 r).
Proof. intros [] Hs Hd. by split. Qed.

Lemma set_net6s_ok n6 r :
  net_ok kind r -> std_ok id n6 ->
  (forall k, kind = KIND_DST -> k ∈ n6 -> 0 < n6_prefixlen k < 2 ^ 16 /\ n6_addr k <> zero_ip) ->
  net_ok kind (set_net6s n6 r).
Proof. intros [] Hs Hd. by split. Qed.

Lemma add_net4_ok r d r' : (forall d', d = Some d' -> net4_typed d') ->
  net_ok kind r -> add_net4 r d = inr r' -> net_ok kind r'.
Proof.
  intros Ht Hr. unfold add_net4.
  intros (k & Hk & (n4 & [Hn ->]%rsome_inr%set_insert_Some & [= <-])%rbind_inr)%rbind_inr.
  apply set_net4s_ok; [done|by apply insert_ok; [|apply Hr]|].
  intros k' Hd [->|Hk']%insert_elem; [|by apply (no_dst4 _ _ Hr)].
  apply (get_net4key_inr d (ni_flags r)); [done..|]. by rewrite (no_kind _ _ Hr).
Qed.

Lemma add_net6_ok r d r' : (forall d', d = Some d' -> net6_typed d') ->
  net_ok kind r -> add_net6 r d = inr r' -> net_ok kind r'.
Proof.
  intros Ht Hr. unfold add_net6.
  intros (k & Hk & (n6 & [Hn ->]%rsome_inr%set_insert_Some & [= <-])%rbind_inr)%rbind_inr.
  destruct (get_net6key_inr d (ni_flags r) k Ht Hk) as [Hok Hdst].
  apply set_net6s_ok; [done|by apply insert_ok; [|apply Hr]|].
  intros k' Hd [->|Hk']%insert_elem; [|by apply (no_dst6 _ _ Hr)].
  apply Hdst. by rewrite (no_kind _ _ Hr).
Qed.

Lemma delete_net4_ok r d r' : net_ok kind r -> delete_net4 r d = inr r' -> net_ok kind r'.
Proof.
  intros Hr. unfold delete_net4.
  intros (k & Hk & (n4 & He%rsome_inr & [= <-])%rbind_inr)%rbind_inr.
  apply set_net4s_ok; [done|eapply erase_ok; [apply Hr|done]|].
  intros k' Hd Hk'. apply (no_dst4 _ _ Hr); [done|exact (erase_elem id k _ _ _ He Hk')].
Qed.

Lemma delete_net6_ok r d r' : net_ok kind r -> delete_net6 r d = inr r' -> net_ok kind r'.
Proof.
  intros Hr. unfold delete_net6.
  intros (k & Hk & (n6 & He%rsome_inr & [= <-])%rbind_inr)%rbind_inr.
  apply set_net6s_ok; [done|eapply erase_ok; [apply Hr|done]|].
  intros k' Hd Hk'. apply (no_dst6 _ _ Hr); [done|exact (erase_elem id k _ _ _ He Hk')].
Qed.

Lemma src_kind r : net_ok kind r -> isSrc (ni_flags r) = true -> kind = KIND_SRC.
Proof. intros Hr Hs. rewrite <- (no_kind _ _ Hr). unfold kind_of. by rewrite Hs. Qed.

Lemma set_nets_ok nets r : net_ok kind r -> kind = KIND_SRC -> net_ok kind (set_nets nets r).
Proof. intros [] Hk. by split. Qed.

Lemma set_ports_ok ports r :
  net_ok kind r -> kind = KIND_SRC -> NoDup ports -> net_ok kind (set_ports ports r).
Proof. intros [] Hk Hp. by split. Qed.
End matchers.

Lemma vec_add_NoDup l x l' : NoDup l -> vec_add l x = inr l' -> NoDup l'.
Proof.
  intros Hl. unfold vec_add. case_decide as Hx; [done|]. intros [= <-].
  apply list.NoDup_app. split_and!; [done| |apply NoDup_singleton].
  by intros y Hy ->%list_elem_of_singleton.
Qed.

Lemma vec_erase_Permutation x l l' : vec_erase x l = Some l' -> l ≡ₚ x :: l'.
Proof.
  revert l'. induction l as [|y l IH]; intros l'; cbn; [done|].
  destruct (Z.eqb_spec x y) as [->|]; [by intros [= <-]|].
  destruct (vec_erase x l) as [l1|]; [|done]. intros [= <-]. rewrite (IH l1) by done. constructor.
Qed.

Lemma vec_delete_NoDup l x l' : NoDup l -> vec_delete l x = inr l' -> NoDup l'.
Proof.
  unfold vec_delete. intros Hl Hv%rsome_inr%vec_erase_Permutation. rewrite Hv in Hl.
  by apply list.NoDup_cons in Hl as [_ ?].
Qed.

(** A function on vectors keeps them free of repetitions over all pairs. *)
Lemma over_ports_NoDup f pairs l l' :
  (forall l x l', NoDup l -> f l x = inr l' -> NoDup l') ->
  NoDup l -> rfold (over_ports f) l pairs = inr l' -> NoDup l'.
Proof.
  intros Hf. apply rfold_ind. intros b p b' _ Hb. unfold over_ports.
  intros (range & _ & Hr)%rbind_inr. revert Hb Hr. apply rfold_ind. intros ? ? ? _. apply Hf.
Qed.

Lemma over_ind {A B} (P : B -> Prop) v (f : B -> A -> UpdateError + B) b b' :
  (forall l b x b', v = Some l -> x ∈ l -> P b -> f b x = inr b' -> P b') ->
  P b -> over v f b = inr b' -> P b'.
Proof.
  intros Hf Hb. unfold over. destruct v as [l|]; [|by intros [= <-]].
  apply rfold_ind; [|done]. intros b0 x b1 Hx. by apply (Hf l).
Qed.

(** ** Rules *)

Section rules.
Context (geodb : CountryMap) (rl : Ratelimits).

Lemma net_add_matchers_ok kind p r r' : net_rule_typed (pw_rule p) ->
  net_ok kind r -> net_add_matchers_to geodb p r = inr r' -> net_ok kind r'.
Proof.
  intros [T4 T6] Hr. unfold net_add_matchers_to.
  intros (r1 & H1 & (r2 & H2 & (r3 & H3 & H4)%rbind_inr)%rbind_inr)%rbind_inr.
  assert (Hr1 : net_ok kind r1).
  { revert Hr H1. apply over_ind. intros l b x b' Hl Hx. apply add_net6_ok. intros d ->. by eapply T6. }
  assert (Hr2 : net_ok kind r2).
  { revert Hr1 H2. apply over_ind. intros l b x b' Hl Hx. apply add_net4_ok. intros d ->. by eapply T4. }
  assert (Hr3 : net_ok kind r3).
  { destruct (nr_ports (pw_rule p)); [|by injection H3 as <-].
    apply rbind_inr in H3 as (? & Hs%rverify_inr & (ports & Hp & [= <-])%rbind_inr).
    apply set_ports_ok; [done|by eapply src_kind|].
    eapply over_ports_NoDup; [apply vec_add_NoDup|apply Hr2|exact Hp]. }
  destruct (nr_nets (pw_rule p)) as [l|]; [|by injection H4 as <-].
  apply rbind_inr in H4 as (u & Hs%rverify_inr & Hg). pose proof (src_kind _ _ Hr3 Hs) as Hk.
  revert Hr3 Hg. apply rfold_ind. intros b x b' _ Hb. unfold add_geo.
  intros (? & _ & (? & _ & (? & _ & [= <-])%rbind_inr)%rbind_inr)%rbind_inr. by apply set_nets_ok.
Qed.

Lemma net_delete_matchers_ok kind p r r' :
  net_ok kind r -> net_delete_matchers_from p r = inr r' -> net_ok kind r'.
Proof.
  intros Hr. unfold net_delete_matchers_from.
  intros (r1 & H1 & (r2 & H2 & (r3 & H3 & H4)%rbind_inr)%rbind_inr)%rbind_inr.
  assert (Hr1 : net_ok kind r1).
  { revert Hr H1. apply over_ind. intros l b x b' _ _. apply delete_net6_ok. }
  assert (Hr2 : net_ok kind r2).
  { revert Hr1 H2. apply over_ind. intros l b x b' _ _. apply delete_net4_ok. }
  assert (Hr3 : net_ok kind r3).
  { destruct (nr_ports (pw_rule p)); [|by injection H3 as <-].
    apply rbind_inr in H3 as (? & Hs%rverify_inr & (ports & Hp & [= <-])%rbind_inr).
    apply set_ports_ok; [done|by eapply src_kind|].
    eapply over_ports_NoDup; [apply vec_delete_NoDup|apply Hr2|exact Hp]. }
  destruct (nr_nets (pw_rule p)) as [l|]; [|by injection H4 as <-].
  apply rbind_inr in H4 as (u & Hs%rverify_inr & Hg). pose proof (src_kind _ _ Hr3 Hs) as Hk.
  revert Hr3 Hg. apply rfold_ind. intros b x b' _ Hb. unfold delete_geo.
  intros (? & _ & (? & _ & [= <-])%rbind_inr)%rbind_inr. by apply set_nets_ok.
Qed.

Lemma active_index_range name i : rl_inv rl -> get_active_index name rl = Some i -> (i < MaxEntries)%nat.
Proof.
  intros Hr. unfold get_active_index. destruct (name_to_index rl !! name) as [j|]; [|done].
  destruct (ratelimits_ rl !! j) as [e|] eqn:He; [|done]. case_decide; [|done]. intros [= <-].
  apply lookup_lt_Some in He. by rewrite (ri_length _ Hr) in He.
Qed.

Lemma get_ratelimit_idx_ok name o : rl_inv rl -> get_ratelimit_idx rl name = inr o -> idx_ok o.
Proof.
  intros Hr. unfold get_ratelimit_idx. destruct name as [name|]; [|by intros [= <-]].
  intros (? & _ & (i & Hi%rsome_inr & [= <-])%rbind_inr)%rbind_inr. intros j [= <-].
  apply active_index_range in Hi; [|done]. lia.
Qed.

(** The kind of the section to which the flags of a message route a rule. *)
Definition route (flags : list Z) : RuleKind :=
  if BitSet_test NetRuleOpt_SRC flags then KIND_SRC
  else if BitSet_test NetRuleOpt_PROTECTED_NET flags then KIND_PROT else KIND_DST.

Lemma net_set_attributes_ok p r r' : rl_inv rl ->
  r = NetIp_init \/ net_ok (route (pw_flags p)) r ->
  net_set_attributes_to rl p r = inr r' -> net_ok (route (pw_flags p)) r'.
Proof.
  intros Hrl Hr. unfold net_set_attributes_to. intros (idx & Hi & [= <-])%rbind_inr.
  apply get_ratelimit_idx_ok in Hi; [|done].
  destruct Hr as [->|[]]; [|by split].
  split; cbn; [done|apply std_ok_nil|apply std_ok_nil|apply NoDup_nil_2|done|..|done];
    intros k _ Hk; by apply elem_of_nil in Hk.
Qed.

(** Editing keeps the rules well formed, given that the operations on one rule do. *)
Lemma apply_edit_action_ok `{ProtoRule P} `{!EditTarget P T} (Q : T -> Prop) (proto : ProtoWrapper P) set set' :
  (forall r r', r = target_init \/ Q r -> set_attributes_to proto r = inr r' -> Q r') ->
  (forall r r', Q r -> add_matchers_to proto r = inr r' -> Q r') ->
  (forall r r', Q r -> delete_matchers_from proto r = inr r' -> Q r') ->
  rules_ok Q set -> apply_edit_action proto set = inr set' -> rules_ok Q set'.
Proof.
  intros Hattr Hadd Hdel [Hs Hf].
  assert (Hput : forall r, Q r -> rules_ok Q (insert_or_assign fst (pw_alias proto, r) set)).
  { intros r Hq. split; [by apply insert_ok|]. rewrite list.Forall_forall in *.
    intros it [->|Hit]%insert_elem; [done|by apply Hf]. }
  assert (Hget : forall r, get_rule set (pw_alias proto) = inr r -> Q r).
  { intros r. unfold get_rule. destruct (std_find _ _ _) as [[a r']|] eqn:Hfd; [|done]. intros [= <-].
    apply find_Some in Hfd as [Hin _]. rewrite list.Forall_forall in Hf. exact (Hf _ Hin). }
  unfold apply_edit_action. intros (act & _ & Ha)%rbind_inr. destruct act.
  - apply rbind_inr in Ha as (r & Hr%Hget & (r' & Hr' & [= <-])%rbind_inr). eauto.
  - destruct (has_matchers proto).
    + apply rbind_inr in Ha as (r & Hr%Hget & (r' & Hr' & [= <-])%rbind_inr). eauto.
    + unfold delete_rule in Ha. apply rsome_inr in Ha.
      split; [by eapply erase_ok|]. rewrite list.Forall_forall in *. intros it Hit. apply Hf.
      exact (erase_elem fst _ _ _ _ Ha Hit).
  - destruct (has_matchers proto); apply rbind_inr in Ha as (r & Hr & (r' & Hr' & [= <-])%rbind_inr); eauto.
Qed.
End rules.

(** ** Sections *)

Lemma ProtoWrapper_of_inr `{ProtoRule T} (m : option T) p :
  ProtoWrapper_of m = inr p -> m = Some (pw_rule p).
Proof.
  unfold ProtoWrapper_of.
  intros (r & Hr%rsome_inr & (a & _ & (f & _ & [= <-])%rbind_inr)%rbind_inr)%rbind_inr. done.
Qed.

Definition nets_ok (s : NetRules) : Prop :=
  rules_ok (net_ok KIND_SRC) (nrs_src s) /\ rules_ok (net_ok KIND_PROT) (nrs_prot s)
  /\ rules_ok (net_ok KIND_DST) (nrs_dst s).

Lemma prepare_net_rule_ok geodb rl s m s' : rl_inv rl ->
  (forall r, m = Some r -> net_rule_typed r) ->
  nets_ok s -> prepare_net_rule geodb rl s m = inr s' -> nets_ok s'.
Proof.
  intros Hrl Ht (Hsrc & Hprot & Hdst). unfold prepare_net_rule. intros (p & Hp & Hs)%rbind_inr.
  apply ProtoWrapper_of_inr in Hp. specialize (Ht _ Hp).
  assert (He : forall set set', rules_ok (net_ok (route (pw_flags p))) set ->
    apply_edit_action (EditTarget0 := net_target geodb rl) p set = inr set' ->
    rules_ok (net_ok (route (pw_flags p))) set').
  { intros set set'. apply apply_edit_action_ok.
    - intros r r'. by apply net_set_attributes_ok.
    - intros r r'. by apply net_add_matchers_ok.
    - intros r r'. by apply net_delete_matchers_ok. }
  unfold route in He. repeat case_match; apply rbind_inr in Hs as (l & Hl & [= <-]);
    split_and!; try done; by eapply He.
Qed.

Lemma prepare_icmp_rules_ok rl msg rs rs' : rl_inv rl ->
  rules_ok icmp_ok rs -> prepare_icmp_rules rl msg rs = inr rs' -> rules_ok icmp_ok rs'.
Proof.
  intros Hrl. apply over_ind. intros l b m b' _ _ Hb (p & _ & Hp)%rbind_inr. revert Hb Hp.
  apply apply_edit_action_ok.
  - intros r r' Hr (idx & Hi & [= <-])%rbind_inr. apply get_ratelimit_idx_ok in Hi; [|done].
    split; [|done]. by destruct Hr as [->|[]]; [apply NoDup_nil_2|].
  - intros r r' [Ht Hi] (types & Hv & [= <-])%rbind_inr. split; [cbn|done]. revert Ht Hv.
    apply over_ind. intros ? ? ? ? _ _. apply vec_add_NoDup.
  - intros r r' [Ht Hi] (types & Hv & [= <-])%rbind_inr. split; [cbn|done]. revert Ht Hv.
    apply over_ind. intros ? ? ? ? _ _. apply vec_delete_NoDup.
Qed.

Lemma prepare_ratelimits_inv msg r r' : rl_inv r -> prepare_ratelimits msg r = inr r' -> rl_inv r'.
Proof.
  apply over_ind. intros l b m b' _ _ Hb. unfold prepare_ratelimit.
  intros (m' & _ & (a & _ & (u & _ & (bytes & _ & (flags & _ & Hs)%rbind_inr)%rbind_inr)%rbind_inr)%rbind_inr)%rbind_inr.
  case_match; apply rsome_inr in Hs; [by eapply inactivate_inv|by eapply upsert_inv].
Qed.

Definition defaults_ok (ds : Defaults) : Prop :=
  forall i a, ds i = Some a -> idx_ok (act_ratelimit_index a).

Lemma prepare_defaults_ok rl msg ds ds' : rl_inv rl ->
  defaults_ok ds -> prepare_defaults rl msg ds = inr ds' -> defaults_ok ds'.
Proof.
  intros Hrl Hd. unfold prepare_defaults. destruct (xc_defaults msg) as [l|]; [|by intros [= <-]].
  apply (rfold_ind defaults_ok); [|done]. intros b m b' _ Hb. unfold prepare_default.
  intros (m' & _ & (bytes & _ & (idx & Hi & (flags & _ & Hs)%rbind_inr)%rbind_inr)%rbind_inr)%rbind_inr.
  apply get_ratelimit_idx_ok in Hi; [|done]. revert Hb Hs. apply rfold_ind.
  intros ds0 i ds1 _ H0. unfold set_default. case_match; [by intros [= <-]|].
  destruct (ds0 i); [done|]. intros [= <-] j a. case_decide; [by intros [= <-]|apply H0].
Qed.

Lemma prepare_tcp_flags_ok rl flags msg syn rst r : rl_inv rl -> idx_ok syn -> idx_ok rst ->
  prepare_tcp_flags_filter rl flags msg syn rst = inr r -> idx_ok r.1 /\ idx_ok r.2.
Proof.
  intros Hrl Hs Hr. unfold prepare_tcp_flags_filter.
  apply (over_ind (fun r => idx_ok r.1 /\ idx_ok r.2)); [|cbn; split; by case_match].
  intros l [b1 b2] m [b1' b2'] _ _ [H1 H2]. unfold prepare_tcp_flag.
  intros (m' & _ & (n & _ & (u & _ & (i & Hi%rsome_inr & He)%rbind_inr)%rbind_inr)%rbind_inr)%rbind_inr.
  assert (Hok : idx_ok (Some (Z.of_nat i))).
  { intros j [= <-]. apply active_index_range in Hi; [lia|done]. }
  repeat case_match; by simplify_eq.
Qed.

(** The configuration that the updater starts from. *)
Lemma updater_start_ok config msg r :
  (forall c, config = Some c -> config_ok c) -> XfwConfigUpdater config msg = inr r -> config_ok r.2.
Proof.
  assert (Hfresh : forall rl af, rl_inv rl ->
    config_ok (mkXfwConfig false None None None None af false false [] [] [] [] rl (fun _ => None))).
  { intros rl af Hrl. assert (Hn : forall V (P : V -> Prop), rules_ok P []) by (by split; [apply std_ok_nil|]).
    split; cbn; try done; try apply Hn. by intros []. }
  intros Hc. unfold XfwConfigUpdater.
  intros (bytes & _ & (flags & _ & [= <-])%rbind_inr)%rbind_inr. cbn [snd].
  destruct config as [c|]; [|apply Hfresh, init_inv]. specialize (Hc c eq_refl).
  case_match; [done|]. apply Hfresh, inactivate_all_inv, Hc.
Qed.

Lemma prepare_update_ok geodb flags msg c c' :
  msg_typed msg -> config_ok c -> prepare_update geodb flags msg c = inr c' -> config_ok c'.
Proof.
  intros Ht [Hrl Hsrc Hprot Hdst Hicmp Hds Hsyn Hrst Hsc]. unfold prepare_update.
  intros (ip & _ & (rl & Hrl'%prepare_ratelimits_inv & (ds & Hd & (nets & Hn & (af & _ & Hc)%rbind_inr)
    %rbind_inr)%rbind_inr)%rbind_inr)%rbind_inr; [|done].
  apply rbind_inr in Hc as (u & Hv%rverify_inr & (fl & Hf & (ic & Hi & [= <-])%rbind_inr)%rbind_inr).
  assert (Hnets : nets_ok nets).
  { revert Hn. apply over_ind; [|done]. intros l b m b' Hl Hm. apply prepare_net_rule_ok; [done|].
    intros r ->. by eapply Ht. }
  destruct Hnets as (H1 & H2 & H3). apply prepare_defaults_ok in Hd; [|done..].
  apply prepare_tcp_flags_ok in Hf as [H4 H5]; [|done..].
  split; cbn; try done; [by eapply prepare_icmp_rules_ok|].
  intros [He [sc Hs]]. rewrite He, Hs in Hv. by rewrite bool_decide_eq_false_2 in Hv.
Qed.
