(* ===== verification/UpdaterHistory.v ===== *)
(** * UpdaterHistory: a full configuration does not depend on the past

    The indices of the named rate limits depend on the configurations that were
    in force before. Up to these indices, the configuration that a full message
    produces depends on the message only: the rules, the names of their rate
    limits and the rates of these names are the same whatever the history. *)

From stdpp Require Import strings.
From S2P Require Import Prelude.
From S2P Require Import Enums.
From S2P Require Import Uapi.
From S2P Require Import Bitset.
From S2P Require Import AnomalyFlags.
From S2P Require Import Config.
From S2P Require Import GeoIp.
From S2P Require Import StdMap.
From S2P Require Import Proto.
From S2P Require Import ConfigUpdater.
From S2P Require Import UpdaterSpec.

(** ** The rates of the active names *)

Definition active_rate (r : Ratelimits) (a : string) : option (Z * Z) :=
  i ← get_active_index a r; rates <$> ratelimits_ r !! i.

Lemma active_rate_upsert name pps bps r r' a : rl_inv r -> upsert name pps bps r = Some r' ->
  active_rate r' a = if decide (a = name) then Some (pps, bps) else active_rate r a.
Proof.
  intros Hr Hu. destruct (upsert_spec _ _ _ _ _ Hr Hu) as (i & Hi & He & Hn & Hj & Ho).
  unfold active_rate, get_active_index. case_decide as Ha.
  - subst a. rewrite Hi, He, decide_True by done. cbn [mbind option_bind]. by rewrite He.
  - rewrite Hn by done. destruct (name_to_index r !! a) as [j|] eqn:Hja; [|done].
    destruct (name_entry r a j Hr Hja) as (e & Hej & Hal & Hs).
    assert (Hne : j <> i).
    { intros ->. assert (Hni : name_to_index r' !! a = Some i) by (by rewrite Hn).
      destruct (name_entry r' a i (upsert_inv _ _ _ _ _ Hr Hu) Hni) as (e' & He' & Hal' & _).
      rewrite He in He'. injection He' as <-. by apply Ha. }
    rewrite (Ho j e Hej Hs Hne), Hej. case_decide; [|done]. cbn [mbind option_bind].
    by rewrite (Ho j e Hej Hs Hne), Hej.
Qed.

Lemma active_rate_inactivate name r r' a : rl_inv r -> inactivate name r = Some r' ->
  active_rate r' a = if decide (a = name) then None else active_rate r a.
Proof.
  intros Hr. unfold inactivate. destruct (name_to_index r !! name) as [i|] eqn:Hi; [|done].
  intros [= <-]. unfold active_rate, get_active_index. cbn [ratelimits_ name_to_index].
  destruct (name_entry r name i Hr Hi) as (e & He & Hal & Hs). case_decide as Ha.
  - subst a. by rewrite Hi, lookup_alter_entry, decide_True, He.
  - destruct (name_to_index r !! a) as [j|] eqn:Hja; [|done].
    destruct (name_entry r a j Hr Hja) as (e' & Hej & Hal' & Hs').
    assert (Hne : i <> j) by congruence. rewrite lookup_alter_entry, decide_False by done.
    rewrite Hej. case_decide; [|done]. cbn [mbind option_bind].
    by rewrite lookup_alter_entry, decide_False.
Qed.

Lemma active_rate_none r a : rl_inv r -> active_rate (inactivate_all r) a = None.
Proof.
  intros Hr. unfold active_rate. destruct (get_active_index a (inactivate_all r)) as [i|] eqn:Hi; [|done].
  by apply inactivate_all_none in Hi.
Qed.

(** ** Two runs of the updater *)

(** If both functions return, their results are related. *)
Definition both {A B} (R : A -> B -> Prop) (r1 : UpdateError + A) (r2 : UpdateError + B) : Prop :=
  forall a b, r1 = inr a -> r2 = inr b -> R a b.

Lemma both_ret {A B} (R : A -> B -> Prop) a b : R a b -> both R (inr a) (inr b).
Proof. by intros ? ? ? [= <-] [= <-]. Qed.

Lemma both_bind {A B C D} (R : A -> B -> Prop) (Q : C -> D -> Prop) r1 r2 k1 k2 :
  both R r1 r2 -> (forall a b, R a b -> both Q (k1 a) (k2 b)) -> both Q (rbind r1 k1) (rbind r2 k2).
Proof.
  intros Hr Hk c d (a & Ha & Hc)%rbind_inr (b & Hb & Hd)%rbind_inr.
  exact (Hk a b (Hr a b Ha Hb) c d Hc Hd).
Qed.

(** The same function on both sides. *)
Lemma both_same {A C D} (Q : C -> D -> Prop) (r : UpdateError + A) k1 k2 :
  (forall a, both Q (k1 a) (k2 a)) -> both Q (rbind r k1) (rbind r k2).
Proof. intros Hk. destruct r as [e|a]; [by intros ? ? ?|apply Hk]. Qed.

Lemma both_inl {A B} (R : A -> B -> Prop) e r : both R (inl e) r.
Proof. by intros a b ?. Qed.

Lemma both_fold {A B C} (R : B -> C -> Prop) (f : B -> A -> UpdateError + B)
    (g : C -> A -> UpdateError + C) l b c :
  (forall b c x, R b c -> both R (f b x) (g c x)) -> R b c -> both R (rfold f b l) (rfold g c l).
Proof.
  intros Hfg. revert b c. induction l as [|x l IH]; intros b c Hr; cbn; [by apply both_ret|].
  by eapply both_bind; [apply Hfg|].
Qed.

Lemma both_over {A B C} (R : B -> C -> Prop) v (f : B -> A -> UpdateError + B)
    (g : C -> A -> UpdateError + C) b c :
  (forall b c x, R b c -> both R (f b x) (g c x)) -> R b c -> both R (over v f b) (over v g c).
Proof. intros Hfg Hr. destruct v; cbn; [by apply both_fold|by apply both_ret]. Qed.

(** ** Rules that differ in the indices only *)

Definition name_at (r : Ratelimits) (i : Z) : option string :=
  rl_alias <$> ratelimits_ r !! Z.to_nat i.

Section rel.
Context (rl1 rl2 : Ratelimits) (Hrl1 : rl_inv rl1) (Hrl2 : rl_inv rl2).

(** No rate limit on both sides, or limits of the same name. *)
Definition idx_rel (o1 o2 : option Z) : Prop :=
  match o1, o2 with
  | None, None => True
  | Some i, Some j => exists a, name_at rl1 i = Some a /\ name_at rl2 j = Some a
  | _, _ => False
  end.

Record net_rel (r1 r2 : NetIp) : Prop := mkNetRel {
  nl_idx : idx_rel (ni_ratelimit_index r1) (ni_ratelimit_index r2);
  nl_flags : ni_flags r1 = ni_flags r2;
  nl_net4s : ni_net4s r1 = ni_net4s r2;
  nl_net6s : ni_net6s r1 = ni_net6s r2;
  nl_nets : ni_nets r1 = ni_nets r2;
  nl_ports : ni_ports r1 = ni_ports r2
}.

Record icmp_rel (r1 r2 : IcmpRule) : Prop := mkIcmpRel {
  il_idx : idx_rel (ir_ratelimit_index r1) (ir_ratelimit_index r2);
  il_allowed : ir_isAllowed r1 = ir_isAllowed r2;
  il_ipv6 : ir_isIpv6 r1 = ir_isIpv6 r2;
  il_types : ir_types r1 = ir_types r2
}.

Definition map_rel {V} (R : V -> V -> Prop) : list (string * V) -> list (string * V) -> Prop :=
  Forall2 (fun a b => a.1 = b.1 /\ R a.2 b.2).

Definition action_rel (a b : option Action) : Prop :=
  match a, b with
  | None, None => True
  | Some a, Some b => allow_ a = allow_ b /\ idx_rel (act_ratelimit_index a) (act_ratelimit_index b)
  | _, _ => False
  end.

Lemma active_name name i j :
  get_active_index name rl1 = Some i -> get_active_index name rl2 = Some j ->
  idx_rel (Some (Z.of_nat i)) (Some (Z.of_nat j)).
Proof.
  intros (e1 & He1 & Ha1 & _)%get_active_spec (e2 & He2 & Ha2 & _)%get_active_spec; [|done..].
  exists name. unfold name_at. rewrite !Nat2Z.id, He1, He2. cbn. by rewrite Ha1, Ha2.
Qed.

Lemma get_ratelimit_idx_rel name : both idx_rel (get_ratelimit_idx rl1 name) (get_ratelimit_idx rl2 name).
Proof.
  unfold get_ratelimit_idx. destruct name as [name|]; [|by apply both_ret].
  apply both_same. intros _. eapply (both_bind (fun i j => idx_rel (Some (Z.of_nat i)) (Some (Z.of_nat j)))).
  - intros i j Hi%rsome_inr Hj%rsome_inr. by eapply active_name.
  - intros i j Hr. by apply both_ret.
Qed.

Ltac rel_step := first [apply both_same; intros ?|apply both_ret; split; cbn; by first [done|congruence]].

Lemma add_net6_rel r1 r2 x : net_rel r1 r2 -> both net_rel (add_net6 r1 x) (add_net6 r2 x).
Proof. intros []. unfold add_net6. rewrite nl_flags0, nl_net6s0. repeat rel_step. Qed.

Lemma add_net4_rel r1 r2 x : net_rel r1 r2 -> both net_rel (add_net4 r1 x) (add_net4 r2 x).
Proof. intros []. unfold add_net4. rewrite nl_flags0, nl_net4s0. repeat rel_step. Qed.

Lemma add_geo_rel geodb r1 r2 x : net_rel r1 r2 -> both net_rel (add_geo geodb r1 x) (add_geo geodb r2 x).
Proof. intros []. unfold add_geo. rewrite nl_flags0, nl_nets0. repeat rel_step. Qed.

Lemma delete_net6_rel r1 r2 x : net_rel r1 r2 -> both net_rel (delete_net6 r1 x) (delete_net6 r2 x).
Proof. intros []. unfold delete_net6. rewrite nl_flags0, nl_net6s0. repeat rel_step. Qed.

Lemma delete_net4_rel r1 r2 x : net_rel r1 r2 -> both net_rel (delete_net4 r1 x) (delete_net4 r2 x).
Proof. intros []. unfold delete_net4. rewrite nl_flags0, nl_net4s0. repeat rel_step. Qed.

Lemma delete_geo_rel r1 r2 x : net_rel r1 r2 -> both net_rel (delete_geo r1 x) (delete_geo r2 x).
Proof. intros []. unfold delete_geo. rewrite nl_nets0. repeat rel_step. Qed.

(** The loops over the ports and the countries of a source rule. *)
Lemma ports_rel v f r1 r2 : net_rel r1 r2 ->
  both net_rel
    (match v with
     | None => inr r1
     | Some ports => rverify (isSrc (ni_flags r1)) UE_ONLY_SRC ;?
         let? l := rfold (over_ports f) (ni_ports r1) ports in inr (set_ports l r1)
     end)
    (match v with
     | None => inr r2
     | Some ports => rverify (isSrc (ni_flags r2)) UE_ONLY_SRC ;?
         let? l := rfold (over_ports f) (ni_ports r2) ports in inr (set_ports l r2)
     end).
Proof.
  intros Hr. destruct v as [ports|]; [|by apply both_ret]. destruct Hr.
  rewrite nl_flags0, nl_ports0. repeat rel_step.
Qed.

Lemma nets_rel (v : option (list (option NetCode))) f r1 r2 :
  (forall r1 r2 x, net_rel r1 r2 -> both net_rel (f r1 x) (f r2 x)) -> net_rel r1 r2 ->
  both net_rel
    (match v with
     | None => inr r1
     | Some nets => rverify (isSrc (ni_flags r1)) UE_ONLY_SRC ;? rfold f r1 nets
     end)
    (match v with
     | None => inr r2
     | Some nets => rverify (isSrc (ni_flags r2)) UE_ONLY_SRC ;? rfold f r2 nets
     end).
Proof.
  intros Hf Hr. destruct v as [nets|]; [|by apply both_ret]. rewrite (nl_flags _ _ Hr).
  apply both_same. intros _. by apply both_fold.
Qed.

Lemma net_add_rel geodb p r1 r2 : net_rel r1 r2 ->
  both net_rel (net_add_matchers_to geodb p r1) (net_add_matchers_to geodb p r2).
Proof.
  intros Hr. unfold net_add_matchers_to.
  eapply (both_bind net_rel); [apply both_over; [intros; by apply add_net6_rel|done]|]. intros a1 a2 Ha.
  eapply (both_bind net_rel); [apply both_over; [intros; by apply add_net4_rel|done]|]. intros b1 b2 Hb.
  eapply (both_bind net_rel); [by apply ports_rel|]. intros c1 c2 Hc.
  apply nets_rel; [intros; by apply add_geo_rel|done].
Qed.

Lemma net_delete_rel p r1 r2 : net_rel r1 r2 ->
  both net_rel (net_delete_matchers_from p r1) (net_delete_matchers_from p r2).
Proof.
  intros Hr. unfold net_delete_matchers_from.
  eapply (both_bind net_rel); [apply both_over; [intros; by apply delete_net6_rel|done]|]. intros a1 a2 Ha.
  eapply (both_bind net_rel); [apply both_over; [intros; by apply delete_net4_rel|done]|]. intros b1 b2 Hb.
  eapply (both_bind net_rel); [by apply ports_rel|]. intros c1 c2 Hc.
  apply nets_rel; [intros; by apply delete_geo_rel|done].
Qed.

(** Attributes replace the index, so the old ones need not be related. *)
Lemma net_attributes_rel p r1 r2 :
  ni_net4s r1 = ni_net4s r2 -> ni_net6s r1 = ni_net6s r2 -> ni_nets r1 = ni_nets r2 ->
  ni_ports r1 = ni_ports r2 ->
  both net_rel (net_set_attributes_to rl1 p r1) (net_set_attributes_to rl2 p r2).
Proof.
  intros H1 H2 H3 H4. unfold net_set_attributes_to.
  eapply both_bind; [apply get_ratelimit_idx_rel|]. intros i j Hij. by apply both_ret.
Qed.

(** ** Sets of rules *)

Section sets.
Context {P T : Type} `{ProtoRule P} (T1 T2 : EditTarget P T) (R : T -> T -> Prop).
Context (Hinit : @target_init P T T1 = @target_init P T T2).

Lemma find_rel s1 s2 a : map_rel R s1 s2 ->
  match std_find fst a s1, std_find fst a s2 with
  | None, None => True
  | Some (_, r1), Some (_, r2) => R r1 r2
  | _, _ => False
  end.
Proof.
  induction 1 as [|[a1 r1] [a2 r2] s1 s2 [Ha Hr] _ IH]; cbn [std_find fst snd] in *; [done|].
  subst a2. by destruct (equiv_keys a1 a).
Qed.

Lemma insert_rel s1 s2 a r1 r2 : map_rel R s1 s2 -> R r1 r2 ->
  map_rel R (insert_or_assign fst (a, r1) s1) (insert_or_assign fst (a, r2) s2).
Proof.
  intros Hs Hr. induction Hs as [|[a1 q1] [a2 q2] s1 s2 [Ha Hq] Hs IH]; cbn [insert_or_assign fst snd] in *.
  - by repeat constructor.
  - subst a2. destruct (ltb a a1); [by repeat constructor|].
    destruct (ltb a1 a); by repeat constructor.
Qed.

Lemma erase_rel s1 s2 a : map_rel R s1 s2 ->
  both (map_rel R) (delete_rule a s1) (delete_rule a s2).
Proof.
  intros Hs. unfold delete_rule. intros l1 l2 H1%rsome_inr H2%rsome_inr. revert l1 l2 H1 H2.
  induction Hs as [|[a1 q1] [a2 q2] s1 s2 [Ha Hq] Hs IH]; intros l1 l2;
    cbn [std_erase fst snd] in *; [done|]. subst a2.
  destruct (equiv_keys a1 a); [by intros [= <-] [= <-]|].
  destruct (std_erase fst a s1) as [e1|], (std_erase fst a s2) as [e2|]; try done.
  intros [= <-] [= <-]. constructor; [done|]. by apply IH.
Qed.

Lemma get_rule_rel s1 s2 a : map_rel R s1 s2 -> both R (get_rule s1 a) (get_rule s2 a).
Proof.
  intros Hs. unfold get_rule. pose proof (find_rel s1 s2 a Hs) as Hf.
  destruct (std_find _ _ s1) as [[? r1]|], (std_find _ _ s2) as [[? r2]|]; try done; by apply both_ret.
Qed.

Lemma apply_edit_action_rel (p : ProtoWrapper P) s1 s2 :
  (forall r1 r2, r1 = r2 \/ R r1 r2 ->
     both R (set_attributes_to (EditTarget := T1) p r1) (set_attributes_to (EditTarget := T2) p r2)) ->
  (forall r1 r2, R r1 r2 ->
     both R (add_matchers_to (EditTarget := T1) p r1) (add_matchers_to (EditTarget := T2) p r2)) ->
  (forall r1 r2, R r1 r2 ->
     both R (delete_matchers_from (EditTarget := T1) p r1) (delete_matchers_from (EditTarget := T2) p r2)) ->
  map_rel R s1 s2 ->
  both (map_rel R) (apply_edit_action (EditTarget0 := T1) p s1) (apply_edit_action (EditTarget0 := T2) p s2).
Proof.
  intros Hattr Hadd Hdel Hs. unfold apply_edit_action. apply both_same. intros act.
  assert (Hput : forall r1 r2, R r1 r2 -> both (map_rel R)
    (inr (insert_or_assign fst (pw_alias p, r1) s1)) (inr (insert_or_assign fst (pw_alias p, r2) s2))).
  { intros r1 r2 Hr. apply both_ret. by apply insert_rel. }
  pose proof (get_rule_rel s1 s2 (pw_alias p) Hs) as Hget.
  destruct act; [|destruct (has_matchers p)..].
  - eapply both_bind; [exact Hget|]. intros r1 r2 Hr. eapply both_bind; [by apply Hadd|exact Hput].
  - eapply both_bind; [exact Hget|]. intros r1 r2 Hr. eapply both_bind; [by apply Hdel|exact Hput].
  - by apply erase_rel.
  - eapply both_bind; [apply Hattr; by left|]. intros r1 r2 Hr. eapply both_bind; [by apply Hadd|exact Hput].
  - eapply both_bind; [exact Hget|]. intros r1 r2 Hr. eapply both_bind; [apply Hattr; by right|exact Hput].
Qed.
End sets.

(** ** Sections of a message *)

Definition sets_rel (s1 s2 : NetRules) : Prop :=
  map_rel net_rel (nrs_src s1) (nrs_src s2) /\ map_rel net_rel (nrs_prot s1) (nrs_prot s2)
  /\ map_rel net_rel (nrs_dst s1) (nrs_dst s2).

Lemma prepare_net_rule_rel geodb m s1 s2 : sets_rel s1 s2 ->
  both sets_rel (prepare_net_rule geodb rl1 s1 m) (prepare_net_rule geodb rl2 s2 m).
Proof.
  intros (Hs & Hp & Hd). unfold prepare_net_rule. apply both_same. intros p.
  assert (He : forall t1 t2, map_rel net_rel t1 t2 -> both (map_rel net_rel)
    (apply_edit_action (EditTarget0 := net_target geodb rl1) p t1)
    (apply_edit_action (EditTarget0 := net_target geodb rl2) p t2)).
  { intros t1 t2. apply apply_edit_action_rel; [done|..].
    - intros r1 r2 Hr. apply net_attributes_rel; by destruct Hr as [->|[]].
    - intros r1 r2. apply net_add_rel.
    - intros r1 r2. apply net_delete_rel. }
  repeat case_match; (eapply both_bind; [by apply He|]); intros l1 l2 Hl; by apply both_ret.
Qed.

Lemma prepare_icmp_rules_rel msg s1 s2 : map_rel icmp_rel s1 s2 ->
  both (map_rel icmp_rel) (prepare_icmp_rules rl1 msg s1) (prepare_icmp_rules rl2 msg s2).
Proof.
  intros Hs. apply both_over; [|done]. intros t1 t2 m Ht. apply both_same. intros p. revert Ht.
  apply apply_edit_action_rel; [done|..].
  - intros r1 r2 Hr. cbn. unfold icmp_set_attributes_to.
    eapply both_bind; [apply get_ratelimit_idx_rel|]. intros i j Hij. apply both_ret.
    split; [done..|]. by destruct Hr as [->|[]].
  - intros r1 r2 []. cbn. unfold icmp_add_matchers_to. rewrite il_types0. repeat rel_step.
  - intros r1 r2 []. cbn. unfold icmp_delete_matchers_from. rewrite il_types0. repeat rel_step.
Qed.

Definition defaults_rel (d1 d2 : Defaults) : Prop := forall i, action_rel (d1 i) (d2 i).

Lemma prepare_default_rel d1 d2 m : defaults_rel d1 d2 ->
  both defaults_rel (prepare_default rl1 d1 m) (prepare_default rl2 d2 m).
Proof.
  intros Hd. unfold prepare_default. do 2 (apply both_same; intros ?).
  eapply both_bind; [apply get_ratelimit_idx_rel|]. intros i j Hij.
  apply both_same. intros flags. apply both_fold; [|done]. intros e1 e2 idx He. unfold set_default.
  case_match; [by apply both_ret|]. specialize (He idx) as Hi. unfold action_rel in Hi.
  destruct (e1 idx), (e2 idx); try done; try apply both_inl. apply both_ret. intros k.
  case_decide; [by split|apply He].
Qed.

Lemma prepare_defaults_rel msg d1 d2 : defaults_rel d1 d2 ->
  both defaults_rel (prepare_defaults rl1 msg d1) (prepare_defaults rl2 msg d2).
Proof.
  intros Hd. unfold prepare_defaults. destruct (xc_defaults msg); [|by apply both_ret].
  apply both_fold; [|by intros i]. intros. by apply prepare_default_rel.
Qed.

Definition flags_rel (a b : option Z * option Z) : Prop := idx_rel a.1 b.1 /\ idx_rel a.2 b.2.

Lemma prepare_tcp_flag_rel m f1 f2 : flags_rel f1 f2 ->
  both flags_rel (prepare_tcp_flag rl1 f1 m) (prepare_tcp_flag rl2 f2 m).
Proof.
  intros [H1 H2]. unfold prepare_tcp_flag. do 3 (apply both_same; intros ?).
  eapply (both_bind (fun i j => idx_rel (Some (Z.of_nat i)) (Some (Z.of_nat j)))).
  - intros i j Hi%rsome_inr Hj%rsome_inr. by eapply active_name.
  - intros i j Hr. repeat case_match; try apply both_inl; by apply both_ret.
Qed.

Lemma prepare_tcp_flags_rel flags msg : forall f1 f2, flags_rel f1 f2 ->
  both flags_rel (prepare_tcp_flags_filter rl1 flags msg f1.1 f1.2)
    (prepare_tcp_flags_filter rl2 flags msg f2.1 f2.2).
Proof.
  intros f1 f2 [H1 H2]. unfold prepare_tcp_flags_filter. apply both_over.
  - intros. by apply prepare_tcp_flag_rel.
  - split; cbn; by case_match.
Qed.
End rel.

(** ** Whole configurations *)

(** The same policy, although the rate limits may have other indices. *)
Record same_policy (c1 c2 : XfwConfig) : Prop := mkSamePolicy {
  sp_evaluation : evaluation_mode c1 = evaluation_mode c2;
  sp_ip_proto : ip_proto_filter c1 = ip_proto_filter c2;
  sp_syncookie : syncookie_filter c1 = syncookie_filter c2;
  sp_flags : flags_rel (ratelimits c1) (ratelimits c2)
    (tcp_syn_flag_filter c1, tcp_rst_flag_filter c1) (tcp_syn_flag_filter c2, tcp_rst_flag_filter c2);
  sp_anomaly : anomaly_filter c1 = anomaly_filter c2;
  sp_auth : auth_filter c1 = auth_filter c2;
  sp_dns : dns_filter c1 = dns_filter c2;
  sp_src : map_rel (net_rel (ratelimits c1) (ratelimits c2)) (src_rules c1) (src_rules c2);
  sp_prot : map_rel (net_rel (ratelimits c1) (ratelimits c2)) (prot_net c1) (prot_net c2);
  sp_dst : map_rel (net_rel (ratelimits c1) (ratelimits c2)) (dst_rules c1) (dst_rules c2);
  sp_icmp : map_rel (icmp_rel (ratelimits c1) (ratelimits c2)) (icmp_rules c1) (icmp_rules c2);
  sp_defaults : defaults_rel (ratelimits c1) (ratelimits c2) (defaults c1) (defaults c2);
  sp_rates a : active_rate (ratelimits c1) a = active_rate (ratelimits c2) a
}.

Definition rates_rel (r1 r2 : Ratelimits) : Prop :=
  rl_inv r1 /\ rl_inv r2 /\ forall a, active_rate r1 a = active_rate r2 a.

Lemma prepare_ratelimits_rel msg r1 r2 : rates_rel r1 r2 ->
  both rates_rel (prepare_ratelimits msg r1) (prepare_ratelimits msg r2).
Proof.
  apply both_over. intros q1 q2 m (H1 & H2 & Hq). unfold prepare_ratelimit.
  do 5 (apply both_same; intros ?).
  case_match; intros s1 s2 Hs1%rsome_inr Hs2%rsome_inr.
  - split_and!; [exact (inactivate_inv _ _ _ H1 Hs1)|exact (inactivate_inv _ _ _ H2 Hs2)|]. intros a'.
    by rewrite (active_rate_inactivate _ _ _ a' H1 Hs1), (active_rate_inactivate _ _ _ a' H2 Hs2), Hq.
  - split_and!; [exact (upsert_inv _ _ _ _ _ H1 Hs1)|exact (upsert_inv _ _ _ _ _ H2 Hs2)|]. intros a'.
    by rewrite (active_rate_upsert _ _ _ _ _ a' H1 Hs1), (active_rate_upsert _ _ _ _ _ a' H2 Hs2), Hq.
Qed.

(** Equal but for the rate limits, and without rules. *)
Lemma prepare_update_rel geodb flags msg af rl1 rl2 : rates_rel rl1 rl2 ->
  let start rl := mkXfwConfig false None None None None af false false [] [] [] [] rl (fun _ => None) in
  both same_policy (prepare_update geodb flags msg (start rl1)) (prepare_update geodb flags msg (start rl2)).
Proof.
  intros Hr start. unfold prepare_update. cbn [ip_proto_filter ratelimits defaults src_rules prot_net
    dst_rules anomaly_filter auth_filter dns_filter evaluation_mode syncookie_filter
    tcp_syn_flag_filter tcp_rst_flag_filter icmp_rules start].
  apply both_same. intros ip. eapply both_bind; [by apply prepare_ratelimits_rel|].
  intros q1 q2 (Hq1 & Hq2 & Hq).
  eapply both_bind; [apply (prepare_defaults_rel q1 q2 Hq1 Hq2); by intros i|]. intros d1 d2 Hd.
  eapply (both_bind (sets_rel q1 q2)).
  { apply both_over; [intros; by apply prepare_net_rule_rel|]. repeat split; constructor. }
  intros n1 n2 (Hn1 & Hn2 & Hn3). apply both_same. intros an. apply both_same. intros _.
  eapply (both_bind (flags_rel q1 q2)).
  { apply (prepare_tcp_flags_rel q1 q2 Hq1 Hq2 flags msg (None, None) (None, None)). by split. }
  intros f1 f2 [Hf1 Hf2]. eapply (both_bind (map_rel (icmp_rel q1 q2))).
  { apply prepare_icmp_rules_rel; [done..|constructor]. }
  intros i1 i2 Hi. apply both_ret. by split.
Qed.

Lemma init_active_rate a : active_rate Ratelimits_init a = None.
Proof. unfold active_rate, get_active_index. cbn [name_to_index Ratelimits_init]. by rewrite lookup_empty. Qed.

Lemma deserialize_bytes n v w : bitset_deserialize n v = Some w -> w = v.
Proof. unfold bitset_deserialize. destruct (_ =? _)%nat; [|done]. by intros [= <-]. Qed.

(** A message that is not a patch starts from an empty configuration. *)
Lemma full_start config msg bytes r :
  (forall c, config = Some c -> config_ok c) ->
  xc_flags msg = Some bytes -> BitSet_test XFW_CONFIG_PATCH bytes = false ->
  XfwConfigUpdater config msg = inr r ->
  exists rl, r = (bytes, mkXfwConfig false None None None None (anomaly_filter XfwConfig_init) false
                           false [] [] [] [] rl (fun _ => None))
    /\ rl_inv rl /\ forall a, active_rate rl a = None.
Proof.
  intros Hc Hb Hp. unfold XfwConfigUpdater. rewrite Hb. cbn [rsome rbind].
  intros (flags & ->%rsome_inr%deserialize_bytes & [= <-])%rbind_inr. destruct config as [c|].
  - rewrite Hp. exists (inactivate_all (ratelimits c)). specialize (Hc c eq_refl).
    split_and!; [done|apply inactivate_all_inv, Hc|]. intros a. apply active_rate_none, Hc.
  - exists Ratelimits_init. split_and!; [done|apply init_inv|apply init_active_rate].
Qed.

Lemma full_update_rel geodb config1 config2 msg bytes :
  (forall c, config1 = Some c -> config_ok c) -> (forall c, config2 = Some c -> config_ok c) ->
  xc_flags msg = Some bytes -> BitSet_test XFW_CONFIG_PATCH bytes = false ->
  both same_policy (prepared_config geodb config1 msg) (prepared_config geodb config2 msg).
Proof.
  intros H1 H2 Hb Hp d1 d2 (r1 & Hr1 & Hd1)%rbind_inr (r2 & Hr2 & Hd2)%rbind_inr.
  destruct (full_start _ _ _ _ H1 Hb Hp Hr1) as (rl1 & -> & Hi1 & Ha1).
  destruct (full_start _ _ _ _ H2 Hb Hp Hr2) as (rl2 & -> & Hi2 & Ha2).
  eapply prepare_update_rel; [|exact Hd1|exact Hd2]. split_and!; [done..|]. intros a. by rewrite Ha1.
Qed.

(** ** References to rate limits *)

(** The index is that of an active rate limit. *)
Definition idx_active (rl : Ratelimits) (o : option Z) : Prop :=
  forall i, o = Some i -> exists e, ratelimits_ rl !! Z.to_nat i = Some e /\ rl_state e = Active.

Record refs_active (c : XfwConfig) : Prop := mkRefsActive {
  ra_src : Forall (fun it => idx_active (ratelimits c) (ni_ratelimit_index it.2)) (src_rules c);
  ra_prot : Forall (fun it => idx_active (ratelimits c) (ni_ratelimit_index it.2)) (prot_net c);
  ra_dst : Forall (fun it => idx_active (ratelimits c) (ni_ratelimit_index it.2)) (dst_rules c);
  ra_icmp : Forall (fun it => idx_active (ratelimits c) (ir_ratelimit_index it.2)) (icmp_rules c);
  ra_defaults i a : defaults c i = Some a -> idx_active (ratelimits c) (act_ratelimit_index a);
  ra_syn : idx_active (ratelimits c) (tcp_syn_flag_filter c);
  ra_rst : idx_active (ratelimits c) (tcp_rst_flag_filter c)
}.

(** No rate limit is deleted by the message. *)
Definition deletes_no_limit (msg : XFWCfg) : Prop :=
  forall l m bytes, xc_ratelimits msg = Some l -> Some m ∈ l -> rm_flags m = Some bytes ->
    BitSet_test RatelimitOpt_DELETE bytes = false.

Lemma upsert_active name pps bps r r' o :
  rl_inv r -> upsert name pps bps r = Some r' -> idx_active r o -> idx_active r' o.
Proof.
  intros Hr Hu Ho i Hi. destruct (Ho i Hi) as (e & He & Hs).
  destruct (upsert_spec _ _ _ _ _ Hr Hu) as (j & _ & Hj & _ & _ & Hk).
  destruct (decide (Z.to_nat i = j)) as [->|Hne]; [by eexists|].
  exists e. split; [|done]. apply Hk; [done|congruence|done].
Qed.

Lemma prepare_ratelimits_active msg r r' o :
  deletes_no_limit msg -> rl_inv r -> prepare_ratelimits msg r = inr r' ->
  idx_active r o -> idx_active r' o.
Proof.
  intros Hd Hr Hp Ho. unfold prepare_ratelimits in Hp.
  enough (rl_inv r' /\ idx_active r' o) by naive_solver. revert Hp.
  apply (over_ind (fun r => rl_inv r /\ idx_active r o)); [|done].
  intros l b m b' Hl Hm [Hb Hob]. unfold prepare_ratelimit.
  intros (m' & ->%rsome_inr & (a & _ & (u & _ & (bytes & Hby%rsome_inr & (flags & ->%rsome_inr%deserialize_bytes & Hs)
    %rbind_inr)%rbind_inr)%rbind_inr)%rbind_inr)%rbind_inr.
  rewrite (Hd l m' bytes Hl Hm Hby) in Hs. apply rsome_inr in Hs.
  split; [by eapply upsert_inv|by eapply upsert_active].
Qed.

Section refs.
Context (geodb : CountryMap) (rl : Ratelimits) (Hrl : rl_inv rl).

Lemma active_index_active name i :
  get_active_index name rl = Some i -> idx_active rl (Some (Z.of_nat i)).
Proof.
  intros (e & He & _ & Hs)%get_active_spec; [|done]. intros j [= <-]. exists e. by rewrite Nat2Z.id.
Qed.

Lemma get_ratelimit_idx_active name o : get_ratelimit_idx rl name = inr o -> idx_active rl o.
Proof.
  unfold get_ratelimit_idx. destruct name as [name|]; [|by intros [= <-]].
  intros (? & _ & (i & Hi%rsome_inr & [= <-])%rbind_inr)%rbind_inr. by eapply active_index_active.
Qed.

(** Matchers do not touch the index. *)
Lemma net_add_index i p r r' : ni_ratelimit_index r = i ->
  net_add_matchers_to geodb p r = inr r' -> ni_ratelimit_index r' = i.
Proof.
  intros Hr. unfold net_add_matchers_to.
  intros (r1 & H1 & (r2 & H2 & (r3 & H3 & H4)%rbind_inr)%rbind_inr)%rbind_inr.
  assert (Hr1 : ni_ratelimit_index r1 = i).
  { revert Hr H1. apply (over_ind (fun r => ni_ratelimit_index r = i)). intros l b x b' _ _ Hb.
    by intros (k & _ & (n6 & _ & [= <-])%rbind_inr)%rbind_inr. }
  assert (Hr2 : ni_ratelimit_index r2 = i).
  { revert Hr1 H2. apply (over_ind (fun r => ni_ratelimit_index r = i)). intros l b x b' _ _ Hb.
    by intros (k & _ & (n6 & _ & [= <-])%rbind_inr)%rbind_inr. }
  assert (Hr3 : ni_ratelimit_index r3 = i).
  { destruct (nr_ports (pw_rule p)); [|by injection H3 as <-].
    by apply rbind_inr in H3 as (? & _ & (ports & _ & [= <-])%rbind_inr). }
  destruct (nr_nets (pw_rule p)) as [l|]; [|by injection H4 as <-].
  apply rbind_inr in H4 as (u & _ & Hg). revert Hr3 Hg.
  apply (rfold_ind (fun r => ni_ratelimit_index r = i)). intros b x b' _ Hb.
  by intros (? & _ & (? & _ & (? & _ & [= <-])%rbind_inr)%rbind_inr)%rbind_inr.
Qed.

Lemma net_delete_index i p r r' : ni_ratelimit_index r = i ->
  net_delete_matchers_from p r = inr r' -> ni_ratelimit_index r' = i.
Proof.
  intros Hr. unfold net_delete_matchers_from.
  intros (r1 & H1 & (r2 & H2 & (r3 & H3 & H4)%rbind_inr)%rbind_inr)%rbind_inr.
  assert (Hr1 : ni_ratelimit_index r1 = i).
  { revert Hr H1. apply (over_ind (fun r => ni_ratelimit_index r = i)). intros l b x b' _ _ Hb.
    by intros (k & _ & (n6 & _ & [= <-])%rbind_inr)%rbind_inr. }
  assert (Hr2 : ni_ratelimit_index r2 = i).
  { revert Hr1 H2. apply (over_ind (fun r => ni_ratelimit_index r = i)). intros l b x b' _ _ Hb.
    by intros (k & _ & (n6 & _ & [= <-])%rbind_inr)%rbind_inr. }
  assert (Hr3 : ni_ratelimit_index r3 = i).
  { destruct (nr_ports (pw_rule p)); [|by injection H3 as <-].
    by apply rbind_inr in H3 as (? & _ & (ports & _ & [= <-])%rbind_inr). }
  destruct (nr_nets (pw_rule p)) as [l|]; [|by injection H4 as <-].
  apply rbind_inr in H4 as (u & _ & Hg). revert Hr3 Hg.
  apply (rfold_ind (fun r => ni_ratelimit_index r = i)). intros b x b' _ Hb.
  by intros (? & _ & (? & _ & [= <-])%rbind_inr)%rbind_inr.
Qed.

Definition net_active (r : NetIp) : Prop := idx_active rl (ni_ratelimit_index r).
Definition icmp_active (r : IcmpRule) : Prop := idx_active rl (ir_ratelimit_index r).

Definition nets_active (s : NetRules) : Prop :=
  rules_ok net_active (nrs_src s) /\ rules_ok net_active (nrs_prot s) /\ rules_ok net_active (nrs_dst s).

Lemma prepare_net_rule_active s m s' :
  nets_active s -> prepare_net_rule geodb rl s m = inr s' -> nets_active s'.
Proof.
  intros (Hs & Hp & Hd) (p & _ & Hn)%rbind_inr.
  assert (He : forall set set', rules_ok net_active set ->
    apply_edit_action (EditTarget0 := net_target geodb rl) p set = inr set' -> rules_ok net_active set').
  { intros set set'. apply apply_edit_action_ok; intros r r' Hr.
    - intros (idx & Hi & [= <-])%rbind_inr. by eapply get_ratelimit_idx_active.
    - intros Ha%(net_add_index _ _ _ _ eq_refl). unfold net_active. by rewrite Ha.
    - intros Ha%(net_delete_index _ _ _ _ eq_refl). unfold net_active. by rewrite Ha. }
  repeat case_match; apply rbind_inr in Hn as (l & Hl & [= <-]); split_and!;
    first [assumption|eapply He; [|exact Hl]; assumption].
Qed.

Lemma prepare_icmp_rules_active msg rs rs' :
  rules_ok icmp_active rs -> prepare_icmp_rules rl msg rs = inr rs' -> rules_ok icmp_active rs'.
Proof.
  apply over_ind. intros l b m b' _ _ Hb (p & _ & Hp)%rbind_inr. revert Hb Hp.
  apply apply_edit_action_ok; intros r r' Hr.
  - intros (idx & Hi & [= <-])%rbind_inr. by eapply get_ratelimit_idx_active.
  - by intros (types & _ & [= <-])%rbind_inr.
  - by intros (types & _ & [= <-])%rbind_inr.
Qed.

Lemma prepare_defaults_active msg ds ds' :
  (forall i a, ds i = Some a -> idx_active rl (act_ratelimit_index a)) ->
  prepare_defaults rl msg ds = inr ds' ->
  forall i a, ds' i = Some a -> idx_active rl (act_ratelimit_index a).
Proof.
  intros Hd. unfold prepare_defaults. destruct (xc_defaults msg) as [l|]; [|by intros [= <-]].
  set (Q := fun ds : Defaults => forall i a, ds i = Some a -> idx_active rl (act_ratelimit_index a)).
  apply (rfold_ind Q); [|done]. intros b m b' _ Hb.
  intros (m' & _ & (bytes & _ & (idx & Hi & (flags & _ & Hs)%rbind_inr)%rbind_inr)%rbind_inr)%rbind_inr.
  apply get_ratelimit_idx_active in Hi. revert Hb Hs. apply (rfold_ind Q).
  intros ds0 i ds1 _ H0. unfold set_default. case_match; [by intros [= <-]|].
  destruct (ds0 i); [done|]. intros [= <-] j a. case_decide; [by intros [= <-]|apply H0].
Qed.

Lemma prepare_tcp_flags_active flags msg syn rst r : idx_active rl syn -> idx_active rl rst ->
  prepare_tcp_flags_filter rl flags msg syn rst = inr r -> idx_active rl r.1 /\ idx_active rl r.2.
Proof.
  intros Hs Hr. unfold prepare_tcp_flags_filter.
  apply (over_ind (fun r => idx_active rl r.1 /\ idx_active rl r.2)); [|cbn; split; by case_match].
  intros l [b1 b2] m [b1' b2'] _ _ [H1 H2].
  intros (m' & _ & (n & _ & (u & _ & (i & Hi%rsome_inr & He)%rbind_inr)%rbind_inr)%rbind_inr)%rbind_inr.
  apply active_index_active in Hi.
  do 3 (case_match; [injection He as <- <-; cbn [fst snd]; done|]). done.
Qed.
End refs.

(** A configuration whose rules refer to active limits, after a message. *)
Lemma prepare_update_active geodb flags msg c c' :
  config_ok c -> refs_active c ->
  deletes_no_limit msg \/ (src_rules c = [] /\ prot_net c = [] /\ dst_rules c = []
    /\ icmp_rules c = [] /\ (forall i, defaults c i = None) /\ tcp_syn_flag_filter c = None
    /\ tcp_rst_flag_filter c = None) ->
  prepare_update geodb flags msg c = inr c' -> refs_active c'.
Proof.
  intros Hok [Hsrc Hprot Hdst Hicmp Hds Hsyn Hrst] Hmsg. unfold prepare_update.
  intros (ip & _ & (rl & Hp & (ds & Hd & (nets & Hn & (af & _ & Hc)%rbind_inr)
    %rbind_inr)%rbind_inr)%rbind_inr)%rbind_inr.
  apply rbind_inr in Hc as (u & _ & (fl & Hf & (ic & Hi & [= <-])%rbind_inr)%rbind_inr).
  destruct Hok as [Hrl Osrc Oprot Odst Oicmp _ _ _ _].
  pose proof (prepare_ratelimits_inv _ _ _ Hrl Hp) as Hrl'.
  assert (Hkeep : forall o, idx_active (ratelimits c) o -> deletes_no_limit msg -> idx_active rl o).
  { intros o Ho Hd'. exact (prepare_ratelimits_active msg _ _ o Hd' Hrl Hp Ho). }
  assert (Hl : forall V (f : V -> option Z) (P : V -> Prop) l, rules_ok P l ->
    Forall (fun it => idx_active (ratelimits c) (f it.2)) l -> deletes_no_limit msg \/ l = [] ->
    rules_ok (fun r => idx_active rl (f r)) l).
  { intros V f P l [Hs _] Hfl [Hdel| ->]; (split; [done|]); [|constructor].
    eapply list.Forall_impl; [exact Hfl|]. intros it. by eauto. }
  assert (Hds' : forall i a, ds i = Some a -> idx_active rl (act_ratelimit_index a)).
  { eapply (prepare_defaults_active rl Hrl'); [|exact Hd]. intros i a Ha.
    destruct Hmsg as [Hdel|(_ & _ & _ & _ & Hnone & _)]; [eauto|by rewrite Hnone in Ha]. }
  apply prepare_tcp_flags_active in Hf as [H4 H5]; [|done|..].
  2,3: destruct Hmsg as [Hdel|(_ & _ & _ & _ & _ & Hn1 & Hn2)]; [by apply Hkeep|by rewrite ?Hn1, ?Hn2].
  apply prepare_icmp_rules_active in Hi; [|done|eapply (Hl _ ir_ratelimit_index); [done..|naive_solver]].
  assert (Hnets : nets_active rl nets).
  { revert Hn. apply (over_ind (nets_active rl)); [intros ? ? ? ? _ _; by apply prepare_net_rule_active|].
    split_and!; (eapply (Hl _ ni_ratelimit_index); [done..|naive_solver]). }
  destruct Hnets as ([_ ?] & [_ ?] & [_ ?]), Hi as [_ ?]. by split.
Qed.

Lemma empty_refs af rl :
  refs_active (mkXfwConfig false None None None None af false false [] [] [] [] rl (fun _ => None)).
Proof. split; cbn; constructor || done. Qed.

Lemma prepared_active geodb config msg bytes c :
  (forall old, config = Some old -> config_ok old) -> xc_flags msg = Some bytes ->
  BitSet_test XFW_CONFIG_PATCH bytes = false
  \/ (deletes_no_limit msg /\ forall old, config = Some old -> refs_active old) ->
  prepared_config geodb config msg = inr c -> rl_inv (ratelimits c) /\ refs_active c.
Proof.
  intros Hok Hb Hmsg (r & Hr & Hp)%rbind_inr.
  pose proof (updater_start_ok config msg r Hok Hr) as Hstart.
  split.
  { unfold prepare_update in Hp. apply rbind_inr in Hp as (ip & _ & (rl & Hrl & Hc)%rbind_inr).
    apply prepare_ratelimits_inv in Hrl; [|apply Hstart].
    by do 5 (apply rbind_inr in Hc as (? & _ & Hc)); apply rbind_inr in Hc as (? & _ & [= <-]). }
  destruct (BitSet_test XFW_CONFIG_PATCH bytes) eqn:Hpatch.
  - destruct Hmsg as [?|[Hdel Hrefs]]; [done|].
    eapply prepare_update_active; [exact Hstart| |by left|exact Hp].
    unfold XfwConfigUpdater in Hr. rewrite Hb in Hr. cbn [rsome rbind] in Hr.
    apply rbind_inr in Hr as (flags & ->%rsome_inr%deserialize_bytes & [= <-]). cbn [snd].
    destruct config as [old|]; [|apply empty_refs]. rewrite Hpatch. by apply Hrefs.
  - destruct (full_start _ _ _ _ Hok Hb Hpatch Hr) as (rl & -> & _).
    eapply prepare_update_active; [exact Hstart|apply empty_refs|by right|exact Hp].
Qed.

(** Freeing the slots of the deleted limits keeps the active ones. *)
Lemma free_active rl o : rl_inv rl -> idx_active rl o -> idx_active (free_inactive rl) o.
Proof.
  intros Hrl Ho i Hi. destruct (Ho i Hi) as (e & He & Hs). exists e.
  rewrite free_inactive_entries, He by done. cbn. unfold freed. by rewrite decide_False by congruence.
Qed.
