(* ===== verification/Service.v ===== *)
(** * Service: the manager as a state machine over requests

    [Xfw] of src/manager/xfw/xfw.cc and xfw.hh, [update_xfw_config] of
    src/manager/xfw_config_updater.cc and [ManagerGrpcService::send] of
    src/manager/grpc_service.cc: a request is a list of records, each of which is
    applied to the GeoIP database, the configuration and the maps of the manager.

    The generated accessors of the message and the transport are not modelled: a
    record is given as a value. What the manager finds outside itself when it
    handles a record (pinned maps, sysctls, the GeoIP file) is its [World]. *)

From stdpp Require Import strings.
From S2P Require Import Prelude.
From S2P Require Import Enums.
From S2P Require Import Uapi.
From S2P Require Import Bitset.
From S2P Require Import Config.
From S2P Require Import MapsManager.
From S2P Require Import ManagerSpec.
From S2P Require Import ManagerOps.
From S2P Require Import ManagerSrc.
From S2P Require Import Manager.
From S2P Require Import GeoIp.
From S2P Require Import StdMap.
From S2P Require Import Proto.
From S2P Require Import ConfigUpdater.
From S2P Require Import UpdaterSpec.
From S2P Require Import UpdaterHistory.

(** The members of [Xfw]; [geodb_path_] is whether a path was given. *)
Record Xfw := mkXfw {
  geodb_ : CountryMap;
  maps_manager_ : Mgr;
  config_ : option XfwConfig;
  geodb_path_ : bool
}.

Record World := mkWorld {
  w_env : XfwEnv;
  (** The GeoIP file; [None] if it cannot be opened. *)
  w_file : option MMDB
}.

(** Exceptions by their class. *)
Inductive SvcError :=
  | SE_UPDATE (e : UpdateError)
  | SE_MGR (e : MgrError)
  | SE_GEO (e : GeoError)
  | SE_VERSION.

Section service.
Context (hz : Z) `{MgrKernel}.

(** [Xfw::set_config] with the members it changes. *)
Definition xfw_set_config (env : XfwEnv) (config : XfwConfig) (x : Xfw) : option SvcError * Xfw :=
  match set_config hz env (config_ x) config (maps_manager_ x) with
  | (inl e, m) => (Some (SE_MGR e), mkXfw (geodb_ x) m (config_ x) (geodb_path_ x))
  | (inr c, m) => (None, mkXfw (geodb_ x) m (Some c) (geodb_path_ x))
  end.

Definition update_xfw_config (env : XfwEnv) (msg : XFWCfg) (x : Xfw) : option SvcError * Xfw :=
  match prepared_config (geodb_ x) (config_ x) msg with
  | inl e => (Some (SE_UPDATE e), x)
  | inr c => xfw_set_config env c x
  end.

Definition reload_geodb_if_present (file : option MMDB) (x : Xfw) : option SvcError * Xfw :=
  if geodb_path_ x then
    let '(e, db) := reload file (geodb_ x) in
    (SE_GEO <$> e, mkXfw db (maps_manager_ x) (config_ x) true)
  else (None, x).

Definition reload_config_if_present (env : XfwEnv) (x : Xfw) : option SvcError * Xfw :=
  match config_ x with
  | None => (None, x)
  | Some c => xfw_set_config env c x
  end.

(** The constructor, over the maps that the loader has just created. *)
Definition Xfw_start (path : bool) (file : option MMDB) : option SvcError * Xfw :=
  reload_geodb_if_present file (mkXfw ∅ Mgr_fresh None path).

(** The records of a request; those of Tempesta TL and FW and the status request
    are only logged. *)
Inductive ReqRecord :=
  | RRT_TL_OBJ (txt : string)
  | RRT_XFW_CFG (msg : XFWCfg)
  | RRT_TFW_CFG (txt : string)
  | RRT_STATUS
  | RRT_TFW_CFG_RLD
  | RRT_UNKNOWN.

Inductive StatusCode := OK | INTERNAL | NOT_FOUND.

(** One turn of the loop: [inl] is an exception. *)
Definition handle_record (w : World) (rec : ReqRecord) (rs : StatusCode) (x : Xfw)
    : (SvcError + StatusCode) * Xfw :=
  match rec with
  | RRT_TL_OBJ _ | RRT_TFW_CFG _ | RRT_STATUS => (inr rs, x)
  | RRT_XFW_CFG msg =>
      match update_xfw_config (w_env w) msg x with
      | (Some e, x') => (inl e, x')
      | (None, x') => (inr rs, x')
      end
  | RRT_TFW_CFG_RLD =>
      match reload_geodb_if_present (w_file w) x with
      | (Some e, x') => (inl e, x')
      | (None, x') =>
          match reload_config_if_present (w_env w) x' with
          | (Some e, x'') => (inl e, x'')
          | (None, x'') => (inr rs, x'')
          end
      end
  | RRT_UNKNOWN => (inr NOT_FOUND, x)
  end.

Fixpoint handle_records (recs : list (World * ReqRecord)) (rs : StatusCode) (x : Xfw)
    : StatusCode * Xfw :=
  match recs with
  | [] => (rs, x)
  | (w, rec) :: recs =>
      match handle_record w rec rs x with
      | (inl _, x') => (INTERNAL, x')
      | (inr rs', x') => handle_records recs rs' x'
      end
  end.

Definition ProtoVersion : Z := 0.

(** The status of the response and the state afterwards. *)
Definition send (proto_ver : Z) (recs : list (World * ReqRecord)) (x : Xfw) : StatusCode * Xfw :=
  if negb (proto_ver =? ProtoVersion) then (INTERNAL, x) else handle_records recs OK x.

(** ** Every history of requests *)

Definition recs_typed (recs : list (World * ReqRecord)) : Prop :=
  forall w msg, (w, RRT_XFW_CFG msg) ∈ recs -> msg_typed msg.

Inductive xfw_reach : Xfw -> Prop :=
| xreach_start path file x : Xfw_start path file = (None, x) -> xfw_reach x
| xreach_send ver recs x : xfw_reach x -> recs_typed recs -> xfw_reach (send ver recs x).2.

Record xfw_inv (x : Xfw) : Prop := mkXfwInv {
  xi_maps : mgr_inv (maps_manager_ x);
  xi_config c : config_ x = Some c -> config_ok c
}.

Context `{!MgrKernelSpec}.

(** After an update the slots of the deleted rate limits are free. *)
Lemma committed_ok c : config_ok c ->
  config_ok (with_ratelimits (free_inactive (Ratelimits_move (ratelimits c))) c).
Proof.
  intros [Hrl ? ? ? ? ? ? ? ?].
  assert (Hf : rl_inv (free_inactive (Ratelimits_move (ratelimits c)))).
  { rewrite move_eq by done. by apply free_inactive_inv. }
  split; [exact Hf|assumption..].
Qed.

Lemma committed_active c : rl_inv (ratelimits c) -> refs_active c ->
  refs_active (with_ratelimits (free_inactive (Ratelimits_move (ratelimits c))) c).
Proof.
  intros Hrl [Hsrc Hprot Hdst Hicmp Hds Hsyn Hrst]. rewrite move_eq by done.
  assert (Hl : forall V (f : V -> option Z) (l : list V),
    Forall (fun it => idx_active (ratelimits c) (f it)) l ->
    Forall (fun it => idx_active (free_inactive (ratelimits c)) (f it)) l).
  { intros V f l Hf. eapply list.Forall_impl; [exact Hf|]. intros it. by apply free_active. }
  split; [exact (Hl _ (fun it => ni_ratelimit_index it.2) _ Hsrc)
    |exact (Hl _ (fun it => ni_ratelimit_index it.2) _ Hprot)
    |exact (Hl _ (fun it => ni_ratelimit_index it.2) _ Hdst)
    |exact (Hl _ (fun it => ir_ratelimit_index it.2) _ Hicmp)| | |].
  - intros i a Ha. apply free_active; [done|]. exact (Hds i a Ha).
  - by apply (free_active (ratelimits c)).
  - by apply (free_active (ratelimits c)).
Qed.

Lemma xfw_set_config_spec env c x : xfw_inv x -> config_ok c ->
  let '(e, x') := xfw_set_config env c x in
  xfw_inv x' /\ geodb_ x' = geodb_ x
  /\ match e with
     | None => (forall p, in_force hz c p (maps_manager_ x'))
         /\ (config_ x = None -> rules_active (m_cfg (maps_manager_ x')) = true)
         /\ config_ x' = Some (with_ratelimits (free_inactive (Ratelimits_move (ratelimits c))) c)
     | Some e => config_ x' = config_ x
         /\ rules_active (m_cfg (maps_manager_ x')) = rules_active (m_cfg (maps_manager_ x))
         /\ exists me, e = SE_MGR me /\ config_refused hz env c me
     end.
Proof.
  intros [Hm Hc] Hok. unfold xfw_set_config.
  pose proof (set_config_spec hz env (config_ x) c (maps_manager_ x) Hm) as Ho. unfold xwp in Ho.
  destruct (set_config _ _ _ _ _) as [[e|c'] m']; destruct Ho as [Hm' Ho]; cbn [fst snd] in *.
  - destruct Ho as [Hr Ha]. split_and!; [by split|done|done|done|]. by exists e.
  - destruct Ho as (Hf & Ha & Hc'). split_and!; [|reflexivity|exact Hf| |exact (f_equal Some Hc')].
    + split; [exact Hm'|]. intros c0 Hc0. cbn [config_] in Hc0. injection Hc0 as <-. rewrite Hc'.
      by apply committed_ok.
    + intros Hn. cbn [maps_manager_]. rewrite Ha. by rewrite Hn.
Qed.

Lemma prepared_ok x msg c :
  xfw_inv x -> msg_typed msg -> prepared_config (geodb_ x) (config_ x) msg = inr c -> config_ok c.
Proof.
  intros Hx Ht. unfold prepared_config. intros (r & Hr & Hp)%rbind_inr.
  eapply prepare_update_ok; [done| |exact Hp]. eapply updater_start_ok; [|exact Hr]. apply Hx.
Qed.

Lemma update_inv env msg x : xfw_inv x -> msg_typed msg -> xfw_inv (update_xfw_config env msg x).2.
Proof.
  intros Hx Ht. unfold update_xfw_config. destruct (prepared_config _ _ _) as [e|c] eqn:Hp; [done|].
  pose proof (xfw_set_config_spec env c x Hx (prepared_ok x msg c Hx Ht Hp)) as Hs.
  destruct (xfw_set_config env c x). apply Hs.
Qed.

Lemma reload_geodb_inv file x : xfw_inv x -> xfw_inv (reload_geodb_if_present file x).2.
Proof.
  intros [Hm Hc]. unfold reload_geodb_if_present. destruct (geodb_path_ x); [|by split].
  by destruct (reload file (geodb_ x)).
Qed.

Lemma reload_config_inv env x : xfw_inv x -> xfw_inv (reload_config_if_present env x).2.
Proof.
  intros Hx. unfold reload_config_if_present. destruct (config_ x) as [c|] eqn:Hc; [|done].
  pose proof (xfw_set_config_spec env c x Hx (xi_config x Hx c Hc)) as Hs.
  destruct (xfw_set_config env c x). apply Hs.
Qed.

Lemma handle_record_inv w rec rs x :
  xfw_inv x -> (forall msg, rec = RRT_XFW_CFG msg -> msg_typed msg) ->
  xfw_inv (handle_record w rec rs x).2.
Proof.
  intros Hx Ht. destruct rec as [|msg| | | |]; cbn [handle_record snd]; try done.
  - pose proof (update_inv (w_env w) msg x Hx (Ht msg eq_refl)) as Hu.
    by destruct (update_xfw_config _ _ _) as [[e|] x'].
  - pose proof (reload_geodb_inv (w_file w) x Hx) as H1.
    destruct (reload_geodb_if_present _ _) as [[e|] x1]; [done|].
    pose proof (reload_config_inv (w_env w) x1 H1) as H2.
    by destruct (reload_config_if_present _ _) as [[e|] x2].
Qed.

Lemma handle_records_inv recs rs x :
  xfw_inv x -> recs_typed recs -> xfw_inv (handle_records recs rs x).2.
Proof.
  revert rs x. induction recs as [|[w rec] recs IH]; intros rs x Hx Ht; cbn [handle_records snd]; [done|].
  pose proof (handle_record_inv w rec rs x Hx) as Hr.
  assert (Hh : xfw_inv (handle_record w rec rs x).2).
  { apply Hr. intros msg ->. apply (Ht w). left. }
  destruct (handle_record w rec rs x) as [[e|rs'] x']; [done|]. apply IH; [done|].
  intros w' msg Hm. apply (Ht w'). by right.
Qed.

Lemma xfw_reach_inv x : xfw_reach x -> xfw_inv x.
Proof.
  induction 1 as [path file x Hs|ver recs x _ IH Ht].
  - assert (Hi : xfw_inv (mkXfw ∅ Mgr_fresh None path)) by (split; [apply fresh_inv|done]).
    pose proof (reload_geodb_inv file _ Hi) as H1. unfold Xfw_start in Hs. by rewrite Hs in H1.
  - unfold send. destruct (negb _); [done|]. by apply handle_records_inv.
Qed.
End service.
