(* ===== verification/ServiceClaims.v ===== *)
(** * ServiceClaims: what the management service guarantees

    Guarantees over every history of requests to a manager that was started on
    freshly loaded maps, and the requests that do not do what they are meant to. *)

From stdpp Require Import strings.
From S2P Require Import Prelude.
From S2P Require Import Enums.
From S2P Require Import Uapi.
From S2P Require Import Bitset.
From S2P Require Import Config.
From S2P Require Import MapsManager.
From S2P Require Import ManagerSpec.
From S2P Require Import ManagerOps.
From S2P Require Import ManagerSrc.
From S2P Require Import Manager.
From S2P Require Import ManagerClaims.
From S2P Require Import GeoIp.
From S2P Require Import StdMap.
From S2P Require Import Proto.
From S2P Require Import ConfigUpdater.
From S2P Require Import UpdaterSpec.
From S2P Require Import UpdaterHistory.
From S2P Require Import Service.

Section claims.
Context (hz : Z) `{MgrKernelSpec}.


(** C21: an update either succeeds, and then the configuration built from the
    message and the present one is kept by the manager and in force in the maps of
    the BPF programs; or the message is rejected, and then nothing at all has
    changed; or writing the maps fails for a reason that the maps manager reports,
    and then the manager keeps its old configuration and filtration is neither
    switched on nor off. *)
Theorem update_outcomes x env msg e x' :
  xfw_reach hz x -> msg_typed msg -> update_xfw_config hz env msg x = (e, x') ->
  match e with
  | None => exists c, prepared_config (geodb_ x) (config_ x) msg = inr c
      /\ (forall p, in_force hz c p (maps_manager_ x'))
      /\ config_ x' = Some (with_ratelimits (free_inactive (Ratelimits_move (ratelimits c))) c)
      /\ (config_ x = None -> rules_active (m_cfg (maps_manager_ x')) = true)
  | Some (SE_UPDATE ue) => prepared_config (geodb_ x) (config_ x) msg = inl ue /\ x' = x
  | Some (SE_MGR me) => exists c, prepared_config (geodb_ x) (config_ x) msg = inr c
      /\ config_refused hz env c me /\ config_ x' = config_ x
      /\ rules_active (m_cfg (maps_manager_ x')) = rules_active (m_cfg (maps_manager_ x))
  | _ => False
  end.
Proof.
  intros Hx Ht. apply (xfw_reach_inv hz) in Hx. unfold update_xfw_config.
  destruct (prepared_config _ _ _) as [ue|c] eqn:Hp; [by intros [= <- <-]|].
  pose proof (xfw_set_config_spec hz env c x Hx (prepared_ok x msg c Hx Ht Hp)) as Hs.
  intros Hu. rewrite Hu in Hs. destruct Hs as (_ & _ & Hs). destruct e as [e|].
  - destruct Hs as (Hc & Ha & me & -> & Hr). by exists c.
  - destruct Hs as (Hf & Ha & Hc). by exists c.
Qed.

(** C15: the result of a full configuration message does not depend on the history
    of the manager: two managers with the same GeoIP database that accept the
    message end up with the same rules, limits and settings; a rule refers to a
    rate limit of the same name with the same rates, although the index of the
    limit may differ. *)
Theorem full_update_history_free x1 x2 msg bytes c1 c2 :
  xfw_reach hz x1 -> xfw_reach hz x2 -> geodb_ x1 = geodb_ x2 ->
  xc_flags msg = Some bytes -> BitSet_test XFW_CONFIG_PATCH bytes = false ->
  prepared_config (geodb_ x1) (config_ x1) msg = inr c1 ->
  prepared_config (geodb_ x2) (config_ x2) msg = inr c2 ->
  same_policy c1 c2.
Proof.
  intros Hx1 Hx2 Hg Hb Hp H1 H2. rewrite <- Hg in H2. apply (xfw_reach_inv hz) in Hx1, Hx2.
  exact (full_update_rel _ _ _ _ _ (xi_config x1 Hx1) (xi_config x2 Hx2) Hb Hp c1 c2 H1 H2).
Qed.

(** C26: the rate limit of a rule exists: after a full configuration, and after a
    patch that deletes no rate limit if it was so before, every rule, default and
    TCP flag limit refers to an active rate limit, also once the slots of the
    deleted limits are free again. *)
Theorem limits_stay_referenced x msg bytes c :
  xfw_reach hz x -> xc_flags msg = Some bytes ->
  BitSet_test XFW_CONFIG_PATCH bytes = false
  \/ (deletes_no_limit msg /\ forall old, config_ x = Some old -> refs_active old) ->
  prepared_config (geodb_ x) (config_ x) msg = inr c ->
  refs_active c
  /\ refs_active (with_ratelimits (free_inactive (Ratelimits_move (ratelimits c))) c).
Proof.
  intros Hx Hb Hmsg Hp. apply (xfw_reach_inv hz) in Hx.
  destruct (prepared_active (geodb_ x) (config_ x) msg bytes c (xi_config x Hx) Hb Hmsg Hp) as [Hrl Ha].
  split; [done|by apply committed_active].
Qed.

(** A reload request re-applies the configuration with the networks that the
    countries had when the rules were added: whatever the reloaded GeoIP database
    says, the source rules kept and in force stay as they were. *)
Lemma reload_keeps_old_networks x c w rs r x' :
  xfw_reach hz x -> config_ x = Some c -> handle_record hz w RRT_TFW_CFG_RLD rs x = (inr r, x') ->
  (exists c', config_ x' = Some c' /\ src_rules c' = src_rules c)
  /\ (forall p, in_force hz c p (maps_manager_ x')).
Proof.
  intros Hr Hc. apply (xfw_reach_inv hz) in Hr. cbn [handle_record].
  pose proof (reload_geodb_inv (w_file w) x Hr) as Hg.
  assert (Hc1 : config_ (reload_geodb_if_present (w_file w) x).2 = Some c).
  { unfold reload_geodb_if_present. destruct (geodb_path_ x); [|done]. by destruct (reload _ _). }
  destruct (reload_geodb_if_present (w_file w) x) as [[e|] x1]; [done|]. cbn [snd] in *.
  unfold reload_config_if_present. rewrite Hc1.
  pose proof (xfw_set_config_spec hz (w_env w) c x1 Hg (xi_config x1 Hg c Hc1)) as Hs.
  destruct (xfw_set_config hz (w_env w) c x1) as [[e|] x2]; [done|]. intros [= _ <-].
  destruct Hs as (_ & _ & Hf & _ & Hk). split; [|exact Hf]. by eexists.
Qed.
End claims.

(** ** Requests that do not do what they are meant to *)

(** A patch that has no section of the SYN-cookie filter leaves the filter as
    it was, also if it carries the flag that switches the filter off, which is how
    the client deletes it. *)
Lemma syncookie_delete_ignored geodb c msg bytes c' :
  xc_flags msg = Some bytes -> BitSet_test XFW_CONFIG_PATCH bytes = true ->
  xc_syncookie msg = None -> prepared_config geodb (Some c) msg = inr c' ->
  syncookie_filter c' = syncookie_filter c.
Proof.
  intros Hb Hp Hs. unfold prepared_config, XfwConfigUpdater. rewrite Hb. cbn [rsome rbind].
  intros (r & (flags & ->%rsome_inr%deserialize_bytes & [= <-])%rbind_inr & Hu)%rbind_inr.
  cbn [fst snd] in Hu. rewrite Hp in Hu. unfold prepare_update, prepare_syncookie_filter in Hu.
  rewrite Hs in Hu. do 7 apply rbind_inr in Hu as (? & _ & Hu). apply rbind_inr in Hu as (? & _ & Hu).
  by injection Hu as <-.
Qed.

(** The same for the features of the TCP anomaly filter: a patch of its section can
    switch them on, but never off. *)
Lemma anomaly_feature_stays geodb c msg bytes c' :
  xc_flags msg = Some bytes -> BitSet_test XFW_CONFIG_PATCH bytes = true ->
  prepared_config geodb (Some c) msg = inr c' ->
  (af_syn_without_opt_enabled (anomaly_filter c) = true ->
     af_syn_without_opt_enabled (anomaly_filter c') = true)
  /\ (af_syn_with_payload_enabled (anomaly_filter c) = true ->
     af_syn_with_payload_enabled (anomaly_filter c') = true).
Proof.
  intros Hb Hp. unfold prepared_config, XfwConfigUpdater. rewrite Hb. cbn [rsome rbind].
  intros (r & (flags & ->%rsome_inr%deserialize_bytes & [= <-])%rbind_inr & Hu)%rbind_inr.
  cbn [fst snd] in Hu. rewrite Hp in Hu. unfold prepare_update in Hu.
  do 4 apply rbind_inr in Hu as (? & _ & Hu). apply rbind_inr in Hu as (af & Ha & Hu).
  do 2 apply rbind_inr in Hu as (? & _ & Hu). apply rbind_inr in Hu as (? & _ & Hu).
  injection Hu as <-. cbn [anomaly_filter]. unfold prepare_tcp_anomaly_filter in Ha.
  case_match; [by injection Ha as <-|]. destruct (xc_tcp_anomaly msg); [|by injection Ha as <-].
  do 3 apply rbind_inr in Ha as (? & _ & Ha). injection Ha as <-. cbn.
  split; intros H1; by case_match.
Qed.

(** ** Concrete requests *)

(** A full configuration: the limit "a" and the destination 10.0.0.2:80 limited by
    it; the flags of the rule are REPLACE, ALLOW and TCP. *)
Definition sample_msg : XFWCfg :=
  mkXFWCfg (Some [0; 0]) None None None
    (Some [Some (mkNetRule (Some "web"%string) (Some [26]) None
             (Some [Some (mkNet4 (Some [10; 0; 0; 2]) 80 32)]) None None (Some "a"%string))])
    None (Some [Some (mkRatelimitMsg (Some "a"%string) (Some [0]) 10 1000)]) None None.

(** A patch that deletes the limit "a". *)
Definition delete_limit_msg : XFWCfg :=
  mkXFWCfg (Some [1; 0]) None None None None None
    (Some [Some (mkRatelimitMsg (Some "a"%string) (Some [1]) 0 0)]) None None.

Definition sample_prepared : XfwConfig :=
  match prepared_config ∅ None sample_msg with inr c => c | inl _ => XfwConfig_init end.

Definition committed (c : XfwConfig) : XfwConfig :=
  with_ratelimits (free_inactive (Ratelimits_move (ratelimits c))) c.

Lemma sample_prepared_eq : prepared_config ∅ None sample_msg = inr sample_prepared.
Proof. vm_compute. reflexivity. Qed.

(** Deleting a rate limit that a rule still uses is accepted: the rule keeps the
    index of the limit, whose slot then waits in the queue of free slots for another
    name. *)
Lemma deleted_limit_still_referenced :
  match prepared_config ∅ (Some (committed sample_prepared)) delete_limit_msg with
  | inl _ => False
  | inr c => ((fun it => (it.1, ni_ratelimit_index it.2)) <$> dst_rules c) = [("web"%string, Some 0)]
      /\ rl_state <$> ratelimits_ (ratelimits (committed c)) !! 0%nat = Some ReadyToUse
      /\ list.last (rl_free_indices (ratelimits (committed c))) = Some 0%nat
  end.
Proof. vm_compute. repeat split. Qed.

(** ** Witnesses *)

Lemma sample_msg_typed : msg_typed sample_msg.
Proof.
  intros l r [= <-] Hr%list_elem_of_singleton. injection Hr as ->. split.
  - intros l d [= <-] Hd%list_elem_of_singleton. injection Hd as ->. split; [|cbn; lia].
    intros a [= <-]. repeat constructor; discriminate.
  - by intros l d [=].
Qed.

Lemma sample_prepared_valid r :
  ratelimits_ r = ratelimits_ (ratelimits sample_prepared) ->
  valid_config 1000 sample_mgr_env (with_ratelimits r sample_prepared).
Proof.
  intros Hr. split; try done; cbn [with_ratelimits src_rules icmp_rules dst_rules prot_net ratelimits].
  - by intros [? [=]].
  - rewrite Hr. intros e He _. apply list_elem_of_lookup in He as [i Hi].
    assert (Hall : forallb (fun e => (rl_pps e <=? rl_max_rate 1000) && (rl_bps e <=? rl_max_rate 1000))
      (ratelimits_ (ratelimits sample_prepared)) = true) by (vm_compute; reflexivity).
    rewrite forallb_forall in Hall. specialize (Hall e). rewrite andb_true_iff, !Z.leb_le in Hall.
    apply Hall. rewrite <- list_elem_of_In. by eapply list_elem_of_lookup_2.
  - repeat split; apply NoDup_nil_2.
  - apply (bool_decide_unpack _). vm_compute. exact I.
  - apply (bool_decide_unpack _). vm_compute. exact I.
  - repeat split; apply NoDup_nil_2.
Qed.

(** A manager before and after the sample configuration. *)
Definition start_xfw : Xfw := mkXfw ∅ Mgr_fresh None false.

Lemma start_reach : @xfw_reach 1000 good_kernel start_xfw.
Proof. by apply (xreach_start _ false None). Qed.

Lemma with_ratelimits_same : with_ratelimits (ratelimits sample_prepared) sample_prepared = sample_prepared.
Proof. unfold with_ratelimits. by destruct sample_prepared. Qed.

Lemma sample_update : exists m,
  @update_xfw_config 1000 good_kernel sample_mgr_env sample_msg start_xfw
  = (None, mkXfw ∅ m (Some (committed sample_prepared)) false)
  /\ @mgr_reach 1000 good_kernel m.
Proof.
  pose proof (sample_prepared_valid _ eq_refl) as Hv. rewrite with_ratelimits_same in Hv.
  destruct (@config_accepted 1000 good_kernel _ Mgr_fresh sample_mgr_env None sample_prepared
    good_kernel_live (reach_fresh 1000) Hv) as (c & m & Hs & Ho).
  exists m. split.
  - unfold update_xfw_config. cbn [geodb_ config_ start_xfw]. rewrite sample_prepared_eq.
    unfold xfw_set_config. cbn [geodb_ config_ geodb_path_ maps_manager_ start_xfw]. rewrite Hs.
    destruct Ho as (_ & _ & _ & ->). reflexivity.
  - pose proof (@reach_config 1000 good_kernel Mgr_fresh sample_mgr_env None sample_prepared
      (reach_fresh 1000)) as Hr. by rewrite Hs in Hr.
Qed.

Lemma sample_reach m :
  @update_xfw_config 1000 good_kernel sample_mgr_env sample_msg start_xfw
  = (None, mkXfw ∅ m (Some (committed sample_prepared)) false) ->
  @xfw_reach 1000 good_kernel (mkXfw ∅ m (Some (committed sample_prepared)) false).
Proof.
  intros Hu. pose proof (@xreach_send 1000 good_kernel 0 [(mkWorld sample_mgr_env None, RRT_XFW_CFG sample_msg)]
    start_xfw start_reach) as Hr.
  assert (Ht : recs_typed [(mkWorld sample_mgr_env None, RRT_XFW_CFG sample_msg)]).
  { intros w msg Hm%list_elem_of_singleton. injection Hm as -> ->. apply sample_msg_typed. }
  specialize (Hr Ht). cbn [send handle_records handle_record w_env Z.eqb ProtoVersion negb] in Hr.
  by rewrite Hu in Hr.
Qed.

Lemma committed_sample_valid : valid_config 1000 sample_mgr_env (committed sample_prepared).
Proof. apply sample_prepared_valid. vm_compute. reflexivity. Qed.

Lemma sample_reload m :
  @mgr_reach 1000 good_kernel m -> exists x',
  @handle_record 1000 good_kernel (mkWorld sample_mgr_env None) RRT_TFW_CFG_RLD OK
    (mkXfw ∅ m (Some (committed sample_prepared)) false) = (inr OK, x').
Proof.
  intros Hm.
  destruct (@config_accepted 1000 good_kernel _ m sample_mgr_env (Some (committed sample_prepared))
    (committed sample_prepared) good_kernel_live Hm committed_sample_valid) as (c & m' & Hs & _).
  exists (mkXfw ∅ m' (Some c) false).
  cbn [handle_record reload_geodb_if_present reload_config_if_present geodb_path_ config_ w_env].
  unfold xfw_set_config. cbn [geodb_ config_ geodb_path_ maps_manager_]. by rewrite Hs.
Qed.


Lemma update_outcomes_witness : exists m,
  @update_xfw_config 1000 good_kernel sample_mgr_env sample_msg start_xfw
    = (None, mkXfw ∅ m (Some (committed sample_prepared)) false)
  /\ rules_active (m_cfg m) = true.
Proof.
  destruct sample_update as (m & Hu & _). exists m. split; [exact Hu|].
  destruct (@update_outcomes 1000 good_kernel _ start_xfw sample_mgr_env sample_msg None _
    start_reach sample_msg_typed Hu) as (c & _ & _ & _ & Ha).
  exact (Ha eq_refl).
Defined.

(** The message is accepted by a fresh manager and by one that has it already. *)
Lemma full_update_history_free_witness : exists c,
  prepared_config ∅ (Some (committed sample_prepared)) sample_msg = inr c
  /\ same_policy sample_prepared c.
Proof.
  destruct sample_update as (m & Hu & _).
  destruct (prepared_config ∅ (Some (committed sample_prepared)) sample_msg) as [e|c] eqn:Hc.
  { vm_compute in Hc. discriminate. }
  exists c. split; [reflexivity|].
  apply (@full_update_history_free 1000 good_kernel _ start_xfw
    (mkXfw ∅ m (Some (committed sample_prepared)) false) sample_msg [0; 0]).
  - exact start_reach.
  - exact (sample_reach m Hu).
  - reflexivity.
  - reflexivity.
  - reflexivity.
  - exact sample_prepared_eq.
  - exact Hc.
Defined.

Lemma limits_stay_referenced_witness : refs_active sample_prepared.
Proof.
  apply (@limits_stay_referenced 1000 good_kernel _ start_xfw sample_msg [0; 0]).
  - exact start_reach.
  - reflexivity.
  - left. reflexivity.
  - exact sample_prepared_eq.
Defined.

Lemma reload_keeps_old_networks_example : exists x' c',
  config_ x' = Some c' /\ src_rules c' = src_rules (committed sample_prepared).
Proof.
  destruct sample_update as (m & Hu & Hm). destruct (sample_reload m Hm) as (x' & Hx').
  destruct (@reload_keeps_old_networks 1000 good_kernel _
    (mkXfw ∅ m (Some (committed sample_prepared)) false) (committed sample_prepared)
    (mkWorld sample_mgr_env None) OK OK x') as [(c' & Hc & Hs) _].
  - exact (sample_reach m Hu).
  - reflexivity.
  - exact Hx'.
  - exists x', c'. split; [exact Hc|exact Hs].
Defined.

(** The message that the client sends to delete the SYN-cookie filter. *)
Lemma syncookie_delete_ignored_example :
  let c := mkXfwConfig false None (Some (mkSynCookieFilter 1 1)) None None
             (anomaly_filter XfwConfig_init) false false [] [] [] [] Ratelimits_init (fun _ => None) in
  exists c', prepared_config ∅ (Some c)
      (mkXFWCfg (Some [65; 0]) None None None None None None None None) = inr c'
    /\ BitSet_test TCP_SYNCOOKIE_FILTER_OFF [65; 0] = true
    /\ syncookie_filter c' = Some (mkSynCookieFilter 1 1).
Proof.
  intros c. eexists. split; [reflexivity|]. split; [reflexivity|].
  apply (syncookie_delete_ignored ∅ c
    (mkXFWCfg (Some [65; 0]) None None None None None None None None) [65; 0]); reflexivity.
Defined.
