(* ===== verification/LineConsumer.v ===== *)
(** * LineConsumer: reading a line of a configuration text

    src/lib/cli/line_consumer.cc and line_consumer.hh, the base of the parsers of
    the command line client, and the functions of the C++ library that they use
    on text ([std::from_chars], [std::stoul], [isspace]). A text is a list of
    characters. An exception is a value of [CliError]; a failed assertion is one
    of them, so that its absence can be proved. *)

From Stdlib Require Export Ascii.
From stdpp Require Export strings.
From S2P Require Import Prelude.

Abbreviation text := (list ascii).

Definition T (s : string) : text := String.list_ascii_of_string s.
Definition to_string (t : text) : string := String.string_of_list_ascii t.

Inductive CliError :=
  | CE_ASSERT                (** a failed assertion *)
  | CE_INT                   (** not a number of the type *)
  | CE_EXPECTED_CHAR
  | CE_UNKNOWN_SYMBOLS
  | CE_NO_ATTRIBUTES         (** the section has no attributes *)
  | CE_NO_BODY
  | CE_TWO_ACTIONS
  | CE_TWO_EDITS
  | CE_BAD_PROTO
  | CE_BAD_IP
  | CE_BAD_MASK
  | CE_BAD_PORT
  | CE_MASK_AND_PORT
  | CE_NO_PROTO
  | CE_NO_NAME
  | CE_ACTION_NOT_ALLOWED
  | CE_EDIT_NOT_ALLOWED
  | CE_SAME_ALIAS
  | CE_TCP_FLAGS
  | CE_VALUE_REQUIRED
  | CE_TWO_SECTIONS
  | CE_UNKNOWN_SECTION
  | CE_PROTOCOL
  | CE_BAD_FLAGS
  | CE_FLAG_ALREADY_SET
  | CE_INCOMPLETE
  | CE_NOTHING_TO_SEND
  | CE_FUEL.                 (** the bound on the number of steps, see [Cli] *)

(** ** A state monad with exceptions *)

Definition C (S A : Type) : Type := S -> CliError + A * S.

#[export] Instance C_ret S : MRet (C S) := fun A a s => inr (a, s).
#[export] Instance C_bind S : MBind (C S) := fun A B k m s =>
  match m s with inl e => inl e | inr (a, s') => k a s' end.

Definition cthrow {S A} (e : CliError) : C S A := fun _ => inl e.
Definition cget {S} : C S S := fun s => inr (s, s).
Definition cput {S} (s : S) : C S unit := fun _ => inr (tt, s).
Definition cverify {S} (cond : bool) (e : CliError) : C S unit :=
  if cond then mret tt else cthrow e.
(** A function without state. *)
Definition cpure {S A} (r : CliError + A) : C S A := fun s =>
  match r with inl e => inl e | inr a => inr (a, s) end.

(** No assertion fails, and the result satisfies [Q]. *)
Definition cwp {S A} (m : C S A) (Q : A -> S -> Prop) (s : S) : Prop :=
  match m s with inl e => e <> CE_ASSERT /\ e <> CE_FUEL | inr (a, s') => Q a s' end.

Lemma cwp_ret {S A} (a : A) Q (s : S) : Q a s -> cwp (mret a) Q s.
Proof. done. Qed.

Lemma cwp_bind {S A B} (m : C S A) (k : A -> C S B) Q s :
  cwp m (fun a => cwp (k a) Q) s -> cwp (m ≫= k) Q s.
Proof. unfold cwp, mbind, C_bind. by destruct (m s) as [e|[a s']]. Qed.

Lemma cwp_mono {S A} (m : C S A) (P Q : A -> S -> Prop) s :
  cwp m P s -> (forall a s', P a s' -> Q a s') -> cwp m Q s.
Proof. unfold cwp. destruct (m s) as [e|[a s']]; auto. Qed.

Lemma cwp_throw {S A} e (Q : A -> S -> Prop) s :
  e <> CE_ASSERT -> e <> CE_FUEL -> cwp (cthrow e) Q s.
Proof. by split. Qed.

Lemma cwp_verify {S} cond e (Q : unit -> S -> Prop) s :
  e <> CE_ASSERT -> e <> CE_FUEL -> (cond = true -> Q tt s) -> cwp (cverify cond e) Q s.
Proof. unfold cverify. destruct cond; intros He Hf HQ; [by apply HQ|by apply cwp_throw]. Qed.

(** ** Characters *)

Definition nul : ascii := "000"%char.
Definition tab : ascii := "009"%char.
Definition newline : ascii := "010"%char.
Definition carriage_return : ascii := "013"%char.

Definition char_eqb (a b : ascii) : bool := bool_decide (a = b).
Definition text_eqb (a b : text) : bool := bool_decide (a = b).

(** [isspace] in the C locale. *)
Definition isspace (c : ascii) : bool :=
  let n := Z.of_nat (nat_of_ascii c) in ((9 <=? n) && (n <=? 13)) || (n =? 32).

Definition spaces : text := [" "%char; tab].
Definition delimeters : text :=
  ["="%char; ","%char; ";"%char; "{"%char; "}"%char; " "%char; tab; carriage_return; newline].

(** Everything before the first character of [terminators]. *)
Fixpoint until (terminators : text) (l : text) : text :=
  match l with
  | [] => []
  | c :: l => if bool_decide (c ∈ terminators) then [] else c :: until terminators l
  end.

(** The number of leading white space characters. *)
Fixpoint leading_spaces (l : text) : nat :=
  match l with
  | c :: l => if isspace c then S (leading_spaces l) else O
  | [] => O
  end.

(** ** Numbers *)

Definition digit (c : ascii) : option Z :=
  let n := Z.of_nat (nat_of_ascii c) in if (48 <=? n) && (n <=? 57) then Some (n - 48) else None.

(** The value of the leading digits and what follows them. *)
Fixpoint read_digits (acc : Z) (l : text) : Z * text :=
  match l with
  | c :: r => match digit c with Some d => read_digits (10 * acc + d) r | None => (acc, l) end
  | [] => (acc, [])
  end.

Definition starts_with_digit (l : text) : bool :=
  match l with c :: _ => bool_decide (is_Some (digit c)) | [] => false end.

(** [parse_as] for an unsigned type of [w] bits: [std::from_chars] reads digits
    only and nothing may follow them. *)
Definition parse_as (w : Z) (lv : text) : CliError + Z :=
  if negb (starts_with_digit lv) then inl CE_INT else
  let '(n, rest) := read_digits 0 lv in
  if 2 ^ w <=? n then inl CE_INT else
  match rest with [] => inr n | _ => inl CE_INT end.

(** [std::stoul]: white space, a sign, digits; what follows them is ignored.
    The negative of a value wraps around in 64 bits. *)
Definition stoul (s : text) : option Z :=
  let s := drop (leading_spaces s) s in
  let '(neg, s) := match s with
    | c :: r => if char_eqb c "+"%char then (false, r)
                else if char_eqb c "-"%char then (true, r) else (false, s)
    | [] => (false, [])
    end in
  if negb (starts_with_digit s) then None else
  let '(n, _) := read_digits 0 s in
  if 2 ^ 64 <=? n then None else Some (if (neg : bool) then u64 (- n) else n).

(** ** [LineConsumer] *)

Record LineConsumer := mkLineConsumer {
  line_ : text;
  accumulated_ : text;
  accumulate_enabled_ : bool;
  accumulate_spaces_ : bool
}.

Definition set_line (lv : text) (c : LineConsumer) : LineConsumer :=
  mkLineConsumer lv (accumulated_ c) (accumulate_enabled_ c) (accumulate_spaces_ c).
Definition set_accumulate (b : bool) (c : LineConsumer) : LineConsumer :=
  mkLineConsumer (line_ c) (accumulated_ c) b (accumulate_spaces_ c).

Abbreviation L := (C LineConsumer).

(** [consume(count, accumulate)] and [consume(count)]. *)
Definition consume_acc (count : nat) (accumulate : bool) : L unit :=
  c ← cget;
  _ ← cverify (count <=? length (line_ c))%nat CE_ASSERT;
  cput (mkLineConsumer (drop count (line_ c))
          (if accumulate then accumulated_ c ++ take count (line_ c) else accumulated_ c)
          (accumulate_enabled_ c) (accumulate_spaces_ c)).
Definition consume (count : nat) : L unit :=
  c ← cget; consume_acc count (accumulate_enabled_ c).

Definition consume_all : L unit := c ← cget; consume (length (line_ c)).

Definition consume_prefix (prefix : text) : L unit :=
  c ← cget;
  _ ← cverify (text_eqb (take (length prefix) (line_ c)) prefix) CE_ASSERT;
  consume (length prefix).

Definition peek_until (terminators : text) : L text :=
  c ← cget; mret (until terminators (line_ c)).
Definition peek_until_delimeters : L text := peek_until delimeters.

Definition consume_until (terminators : text) : L text :=
  result ← peek_until terminators;
  _ ← consume (length result);
  mret result.
Definition consume_until_delimeters : L text := consume_until delimeters.

Definition is_empty : L bool := c ← cget; mret (bool_decide (line_ c = [])).

Definition peek : L ascii :=
  c ← cget; mret (match line_ c with [] => nul | a :: _ => a end).

Definition consume_expected_char (expected : ascii) : L unit :=
  e ← is_empty;
  _ ← cverify (negb e) CE_EXPECTED_CHAR;
  actual ← peek;
  _ ← cverify (char_eqb actual expected) CE_EXPECTED_CHAR;
  consume 1.

Definition skip_spaces : L unit :=
  c ← cget; consume_acc (leading_spaces (line_ c)) (accumulate_spaces_ c).

Definition consume_assignment (key : text) : L text :=
  _ ← consume_prefix key;
  _ ← skip_spaces;
  _ ← consume_expected_char "="%char;
  _ ← skip_spaces;
  consume_until delimeters.

Definition consume_typed_assignment (w : Z) (key : text) : L Z :=
  value ← consume_assignment key;
  cpure (parse_as w value).
