(* ===== verification/Tcl.v ===== *)
(** * Tcl: the configuration that the client builds

    The structures of src/lib/cli/tcl_private.hh and tempesta_client.hh: what the
    parsers of the command line client fill in and the serialiser reads. A member
    of a class that is moved from is not read again, so that a move is a copy. *)

From S2P Require Import Prelude.
From S2P Require Import Uapi.
From S2P Require Import Bitset.
From S2P Require Import AnomalyFlags.
From S2P Require Import ConfigUpdater.
From S2P Require Import LineConsumer.

Record CliSyncookie := mkCliSyncookie { sk_passive_timer : Z; sk_flood_timer : Z }.

Record TcpAnomalyRule := mkTcpAnomalyRule {
  ta_features : list Z;
  ta_bad_tcp_flags : option (list Z);
  ta_seqno_value : Z
}.
Definition TcpAnomalyRule_init : TcpAnomalyRule :=
  mkTcpAnomalyRule (BitSet_empty XFW_TCP_ANOMALY_FEATURE_MAX) None 0.

(** [Ratelimit::Attr] *)
Definition RatelimitAttr_DELETE : Z := 0.
Definition RatelimitAttr_MAX_BIT : Z := 1.

Record CliRatelimit := mkCliRatelimit {
  crl_alias : text;
  crl_flags : list Z;
  crl_pps : option Z;
  crl_bps : option Z
}.
Definition CliRatelimit_init : CliRatelimit :=
  mkCliRatelimit [] (BitSet_empty RatelimitAttr_MAX_BIT) None None.

Record CliDefaultAction := mkCliDefaultAction {
  cd_ratelimit : text;
  cd_allow : bool;
  cd_flags : list Z
}.

(** [TcpFlags::FlagType] *)
Inductive FlagType := FT_ALL | FT_SYN | FT_RST.
#[export] Instance FlagType_eq_dec : EqDecision FlagType.
Proof. solve_decision. Defined.

Record CliTcpFlags := mkCliTcpFlags { ct_flag : FlagType; ct_ratelimit : text }.

Record CliNet4 := mkCliNet4 { c4_addr : list Z; c4_port : Z; c4_prefix : Z }.
Record CliNet6 := mkCliNet6 { c6_addr : list Z; c6_port : Z; c6_prefix : Z }.
Record CliNetCode := mkCliNetCode { cc_port : Z; cc_code : Z }.

(** [NetRule::Attr] *)
Definition NetRuleAttr_IPV6 : Z := 0.
Definition NetRuleAttr_TCP : Z := 1.
Definition NetRuleAttr_SRC : Z := 2.
Definition NetRuleAttr_ALLOW : Z := 3.
Definition NetRuleAttr_REPLACE : Z := 4.
Definition NetRuleAttr_DELETE : Z := 5.
Definition NetRuleAttr_PROTECTED_NET : Z := 6.
Definition NetRuleAttr_MAX_BIT : Z := 7.

Record CliNetRule := mkCliNetRule {
  cn_alias : text;
  cn_flags : list Z;
  cn_net6s : list CliNet6;
  cn_net4s : list CliNet4;
  cn_nets : list CliNetCode;
  cn_ports : list (Z * option Z);
  cn_ratelimit : text
}.

(** The constructor of [NetRule]. *)
Definition NetRule_init (flag : option Z) : CliNetRule :=
  let flags := BitSet_empty NetRuleAttr_MAX_BIT in
  mkCliNetRule [] (match flag with Some f => BitSet_set f flags | None => flags end)
    [] [] [] [] [].

Definition set_cn_flags (f : list Z) (r : CliNetRule) : CliNetRule :=
  mkCliNetRule (cn_alias r) f (cn_net6s r) (cn_net4s r) (cn_nets r) (cn_ports r) (cn_ratelimit r).
Definition cn_set (flag : Z) (r : CliNetRule) : CliNetRule :=
  set_cn_flags (BitSet_set flag (cn_flags r)) r.
Definition cn_test (flag : Z) (r : CliNetRule) : bool := BitSet_test flag (cn_flags r).

(** [NetRule::set_proto] *)
Definition set_proto (proto : text) (r : CliNetRule) : CliError + CliNetRule :=
  if text_eqb proto (T "ip4.tcp") then inr (cn_set NetRuleAttr_TCP r) else
  if text_eqb proto (T "ip6.tcp") then
    inr (cn_set NetRuleAttr_TCP (cn_set NetRuleAttr_IPV6 r)) else
  if text_eqb proto (T "ip4.udp") then inr r else
  if text_eqb proto (T "ip6.udp") then inr (cn_set NetRuleAttr_IPV6 r) else
  inl CE_BAD_PROTO.

(** [IcmpRule::Attr] *)
Definition IcmpRuleAttr_IPV6 : Z := 0.
Definition IcmpRuleAttr_ALLOW : Z := 1.
Definition IcmpRuleAttr_REPLACE : Z := 2.
Definition IcmpRuleAttr_DELETE : Z := 3.
Definition IcmpRuleAttr_MAX_BIT : Z := 4.

Record CliIcmpRule := mkCliIcmpRule {
  ci_alias : text;
  ci_flags : list Z;
  ci_types : list Z;
  ci_ratelimit : text
}.
Definition IcmpRule_empty : CliIcmpRule :=
  mkCliIcmpRule [] (BitSet_empty IcmpRuleAttr_MAX_BIT) [] [].
Definition ci_set (flag : Z) (r : CliIcmpRule) : CliIcmpRule :=
  mkCliIcmpRule (ci_alias r) (BitSet_set flag (ci_flags r)) (ci_types r) (ci_ratelimit r).

(** [IcmpRule::set_proto] *)
Definition icmp_set_proto (proto : text) (r : CliIcmpRule) : CliError + CliIcmpRule :=
  if text_eqb proto (T "ip6") then inr (ci_set IcmpRuleAttr_IPV6 r) else
  if text_eqb proto (T "ip4") then inr r else inl CE_BAD_PROTO.

(** [XfwConf::Opt] *)
Definition Opt_XFW_CONFIG_PATCH : Z := 0.
Definition Opt_TCP_ANOMALY_FILTER_OFF : Z := 1.
Definition Opt_TCP_AUTH_FILTER_ON : Z := 2.
Definition Opt_TCP_AUTH_FILTER_OFF : Z := 3.
Definition Opt_EVALUATION_MODE_ON : Z := 4.
Definition Opt_EVALUATION_MODE_OFF : Z := 5.
Definition Opt_TCP_SYNCOOKIE_FILTER_OFF : Z := 6.
Definition Opt_TCP_SYN_FLAGS_FILTER_OFF : Z := 7.
Definition Opt_TCP_RST_FLAGS_FILTER_OFF : Z := 8.
Definition Opt_DNS_FILTER_ON : Z := 9.
Definition Opt_DNS_FILTER_OFF : Z := 10.
Definition Opt_IP_PROTO_FILTER_OFF : Z := 11.
Definition Opt_MAX_BIT : Z := 12.

Record XfwConf := mkXfwConf {
  x_flags : list Z;
  x_ip_proto : option (list Z);
  x_syncookie : option CliSyncookie;
  x_net_rules : list CliNetRule;
  x_tcp_flags : list CliTcpFlags;
  x_ratelimits : list CliRatelimit;
  x_icmp_rules : list CliIcmpRule;
  x_defaults : list CliDefaultAction;
  x_tcp_anomaly : option TcpAnomalyRule
}.
Definition XfwConf_init : XfwConf :=
  mkXfwConf (BitSet_empty Opt_MAX_BIT) None None [] [] [] [] [] None.

Definition x_set (flag : Z) (x : XfwConf) : XfwConf :=
  mkXfwConf (BitSet_set flag (x_flags x)) (x_ip_proto x) (x_syncookie x) (x_net_rules x)
    (x_tcp_flags x) (x_ratelimits x) (x_icmp_rules x) (x_defaults x) (x_tcp_anomaly x).
Definition set_x_ip_proto v (x : XfwConf) : XfwConf :=
  mkXfwConf (x_flags x) v (x_syncookie x) (x_net_rules x) (x_tcp_flags x) (x_ratelimits x)
    (x_icmp_rules x) (x_defaults x) (x_tcp_anomaly x).
Definition set_x_syncookie v (x : XfwConf) : XfwConf :=
  mkXfwConf (x_flags x) (x_ip_proto x) v (x_net_rules x) (x_tcp_flags x) (x_ratelimits x)
    (x_icmp_rules x) (x_defaults x) (x_tcp_anomaly x).
Definition set_x_net_rules v (x : XfwConf) : XfwConf :=
  mkXfwConf (x_flags x) (x_ip_proto x) (x_syncookie x) v (x_tcp_flags x) (x_ratelimits x)
    (x_icmp_rules x) (x_defaults x) (x_tcp_anomaly x).
Definition set_x_tcp_flags v (x : XfwConf) : XfwConf :=
  mkXfwConf (x_flags x) (x_ip_proto x) (x_syncookie x) (x_net_rules x) v (x_ratelimits x)
    (x_icmp_rules x) (x_defaults x) (x_tcp_anomaly x).
Definition set_x_ratelimits v (x : XfwConf) : XfwConf :=
  mkXfwConf (x_flags x) (x_ip_proto x) (x_syncookie x) (x_net_rules x) (x_tcp_flags x) v
    (x_icmp_rules x) (x_defaults x) (x_tcp_anomaly x).
Definition set_x_icmp_rules v (x : XfwConf) : XfwConf :=
  mkXfwConf (x_flags x) (x_ip_proto x) (x_syncookie x) (x_net_rules x) (x_tcp_flags x)
    (x_ratelimits x) v (x_defaults x) (x_tcp_anomaly x).
Definition set_x_defaults v (x : XfwConf) : XfwConf :=
  mkXfwConf (x_flags x) (x_ip_proto x) (x_syncookie x) (x_net_rules x) (x_tcp_flags x)
    (x_ratelimits x) (x_icmp_rules x) v (x_tcp_anomaly x).
Definition set_x_tcp_anomaly v (x : XfwConf) : XfwConf :=
  mkXfwConf (x_flags x) (x_ip_proto x) (x_syncookie x) (x_net_rules x) (x_tcp_flags x)
    (x_ratelimits x) (x_icmp_rules x) (x_defaults x) v.

(** [XfwConf::add_netrule]: the same section and the same name. *)
Definition same_netrule (nr rule : CliNetRule) : bool :=
  Bool.eqb (cn_test NetRuleAttr_SRC rule) (cn_test NetRuleAttr_SRC nr)
  && Bool.eqb (cn_test NetRuleAttr_PROTECTED_NET rule) (cn_test NetRuleAttr_PROTECTED_NET nr)
  && text_eqb (cn_alias rule) (cn_alias nr).
Definition add_netrule (nr : CliNetRule) (x : XfwConf) : CliError + XfwConf :=
  if existsb (same_netrule nr) (x_net_rules x) then inl CE_SAME_ALIAS
  else inr (set_x_net_rules (x_net_rules x ++ [nr]) x).

(** [XfwConf::add_rule] *)
Definition add_rule {R} (alias : R -> text) (r : R) (rules : list R) : CliError + list R :=
  if existsb (fun rule => text_eqb (alias rule) (alias r)) rules then inl CE_SAME_ALIAS
  else inr (rules ++ [r]).

(** [TlProgConf] with its private part. *)
Record TlProgConf := mkTlProgConf {
  tfw_conf : text;
  tl_prog_txt : text;
  xfw_conf : option XfwConf
}.
Definition TlProgConf_init : TlProgConf := mkTlProgConf [] [] None.
