(* ===== verification/Cli.v ===== *)
(** * Cli: the parsers of a configuration text

    src/lib/cli/parser.cc, section.cc, action_processor.hh, edit_processor.hh,
    defaults_section.cc, ip_proto_section.cc and tcp_anomaly_section.cc. A section
    of a text is parsed by an object of its own class; the objects form a stack,
    of which the top one consumes the line until it has ended or opens another
    section. The class hierarchy is the type [Members].

    Sections write to members of the sections they are part of: the rules to the
    [XfwConf] of the xfw section, the defaults to the defaults section. Only one
    of each exists at a time, and these members are kept in a [Heap] that all
    sections share. The texts of the errors are left out.

    Reading an IP address is a function of Boost ([BoostIp]). *)

From S2P Require Import Prelude.
From S2P Require Import Enums.
From S2P Require Import Uapi.
From S2P Require Import Bitset.
From S2P Require Import AnomalyFlags.
From S2P Require Import ConfigUpdater.
From S2P Require Import LineConsumer.
From S2P Require Import Tcl.

Open Scope Z_scope.

(** [boost::asio::ip::address] and its [from_string]. *)
Inductive IpAddress := IP_V4 (bytes : list Z) | IP_V6 (bytes : list Z).
Class BoostIp := { from_string : text -> option IpAddress }.
(** The bytes of an address. *)
Class BoostIpSpec `{BoostIp} : Prop := {
  from_string_v4 t b : from_string t = Some (IP_V4 b) -> length b = 4%nat /\ Forall is_byte b;
  from_string_v6 t b : from_string t = Some (IP_V6 b) -> length b = 16%nat /\ Forall is_byte b
}.

(** ** The objects *)

Inductive State :=
  | Start | ProcessEditAction | ReadingAttributes | ProcessingAction | ProcessingBody | End_.

(** [EditProcessor::EditType] and [ActionProcessor::Action] *)
Inductive EditType := EDIT_ADD | EDIT_DELETE | EDIT_REPLACE.
Record CliAction := mkCliAction { act_ratelimit : text; act_allow : bool }.

#[export] Instance State_eq_dec : EqDecision State.
Proof. solve_decision. Defined.
#[export] Instance EditType_eq_dec : EqDecision EditType.
Proof. solve_decision. Defined.

(** The classes derived from [NetRuleSection]. *)
Inductive NetKind := SrcSection | DstSection | ProtectedNetSection.
(** [DefaultsSection::DataType] *)
Inductive DataType := SRC_IP | SRC_PORT | DST | ICMP.

Inductive Members :=
  | TfwSection (bcnt : Z)
  | TlSection (bcnt : Z)
  | XfwSection
  | NetRuleSection (kind : NetKind) (nr : CliNetRule) (has_protocol : bool)
  | IcmpSection (icmp_rule : CliIcmpRule)
  | TcpFlagSection (flag : FlagType)
  | DnsFilterSection
  | EvaluationModeSection
  | TcpAuthSection
  | TcpSyncookieSection (f_timer p_timer : option Z)
  | RatelimitSection (ratelimit : CliRatelimit)
  | TcpAnomalySection (anomaly : TcpAnomalyRule)
  | DefaultsSection
  | TcpIpDefaultSection (type : DataType) (flags : list Z)
  | IpProtoDefaultSection (type : DataType) (flags : list Z)
  | IpProtoSection (ip_proto : option (list Z)).

(** [DefaultsSection::type_to_name] *)
Definition type_to_name (type : DataType) : text :=
  match type with
  | SRC_IP => T "src_ip" | SRC_PORT => T "src_port" | DST => T "dst" | ICMP => T "icmp"
  end.

(** The arguments of the constructor of [Section]. *)
Definition name_ (m : Members) : text :=
  match m with
  | TfwSection _ => T "tfw" | TlSection _ => T "tl" | XfwSection => T "xfw"
  | NetRuleSection SrcSection _ _ => T "src" | NetRuleSection DstSection _ _ => T "dst"
  | NetRuleSection ProtectedNetSection _ _ => T "net"
  | IcmpSection _ => T "icmp" | TcpFlagSection _ => T "tcp_flags"
  | DnsFilterSection => T "dns_filter" | EvaluationModeSection => T "evaluation_mode"
  | TcpAuthSection => T "tcp_auth_filter" | TcpSyncookieSection _ _ => T "tcp_syncookies"
  | RatelimitSection _ => T "ratelimit" | TcpAnomalySection _ => T "tcp_anomaly_filter"
  | DefaultsSection => T "defaults" | IpProtoSection _ => T "ip_proto"
  | TcpIpDefaultSection type _ | IpProtoDefaultSection type _ => type_to_name type
  end.

Definition has_action_processor (m : Members) : bool :=
  match m with
  | NetRuleSection _ _ _ | IcmpSection _ | TcpFlagSection _ | RatelimitSection _
  | TcpIpDefaultSection _ _ | IpProtoDefaultSection _ _ => true
  | _ => false
  end.

Definition has_edit_processor (m : Members) : bool :=
  match m with
  | NetRuleSection _ _ _ | IcmpSection _ | TcpFlagSection _ | DnsFilterSection
  | EvaluationModeSection | TcpAuthSection | TcpSyncookieSection _ _ | RatelimitSection _
  | TcpAnomalySection _ | IpProtoSection _ => true
  | _ => false
  end.

Definition accumulate_comments_ (m : Members) : bool :=
  match m with TlSection _ => true | _ => false end.

Record Sec := mkSec {
  base_ : LineConsumer;
  state_ : State;
  section_alias_ : text;
  action_ : option CliAction;
  edit_type_ : option EditType;
  members_ : Members
}.

Definition new_sec (m : Members) : Sec :=
  mkSec (mkLineConsumer [] []
           (match m with TlSection _ | TfwSection _ => true | _ => false end)
           (match m with TlSection _ => true | _ => false end))
    Start [] None None m.

(** The members that sections share: the [TlProgConf], the [XfwConf] of the xfw
    section, and [defaults_] and [presence_flags_] of the defaults section. *)
Record Heap := mkHeap {
  h_conf : TlProgConf;
  h_xfw : XfwConf;
  h_defaults : list CliDefaultAction;
  h_presence : list Z
}.
Definition set_h_xfw v (h : Heap) : Heap := mkHeap (h_conf h) v (h_defaults h) (h_presence h).
Definition set_h_conf v (h : Heap) : Heap := mkHeap v (h_xfw h) (h_defaults h) (h_presence h).

Definition with_base b (o : Sec) : Sec :=
  mkSec b (state_ o) (section_alias_ o) (action_ o) (edit_type_ o) (members_ o).
Definition with_state st (o : Sec) : Sec :=
  mkSec (base_ o) st (section_alias_ o) (action_ o) (edit_type_ o) (members_ o).
Definition with_alias a (o : Sec) : Sec :=
  mkSec (base_ o) (state_ o) a (action_ o) (edit_type_ o) (members_ o).
Definition with_action a (o : Sec) : Sec :=
  mkSec (base_ o) (state_ o) (section_alias_ o) a (edit_type_ o) (members_ o).
Definition with_edit t (o : Sec) : Sec :=
  mkSec (base_ o) (state_ o) (section_alias_ o) (action_ o) t (members_ o).
Definition with_members m (o : Sec) : Sec :=
  mkSec (base_ o) (state_ o) (section_alias_ o) (action_ o) (edit_type_ o) m.

Abbreviation Ps := (C (Sec * Heap)).

Definition line {A} (m : L A) : Ps A := fun '(o, h) =>
  match m (base_ o) with
  | inl e => inl e
  | inr (a, b) => inr (a, (with_base b o, h))
  end.

Definition this : Ps Sec := s ← cget; mret s.1.
Definition modify_this (f : Sec -> Sec) : Ps unit := s ← cget; cput (f s.1, s.2).
Definition heap : Ps Heap := s ← cget; mret s.2.
Definition set_heap (h : Heap) : Ps unit := s ← cget; cput (s.1, h).
Definition modify_xfw (f : XfwConf -> XfwConf) : Ps unit :=
  h ← heap; set_heap (set_h_xfw (f (h_xfw h)) h).

Definition set_state (st : State) : Ps unit := modify_this (with_state st).
Definition set_alias (a : text) : Ps unit := modify_this (with_alias a).
Definition set_members (m : Members) : Ps unit := modify_this (with_members m).

(** ** [ActionProcessor] and [EditProcessor] *)

Definition set_action (a : CliAction) : Ps unit :=
  o ← this;
  _ ← cverify (bool_decide (action_ o = None)) CE_TWO_ACTIONS;
  modify_this (with_action (Some a)).

Definition action_process : Ps bool :=
  name ← line peek_until_delimeters;
  if text_eqb name (T "allow") then
    _ ← set_action (mkCliAction [] true); _ ← line (consume (length name)); mret true
  else if text_eqb name (T "block") then
    _ ← set_action (mkCliAction [] false); _ ← line (consume (length name)); mret true
  else if text_eqb name (T "ratelimit") then
    rl ← line (consume_assignment name); _ ← set_action (mkCliAction rl true); mret true
  else mret false.

Definition set_edit_type (t : EditType) : Ps unit :=
  o ← this;
  _ ← cverify (bool_decide (edit_type_ o = None)) CE_TWO_EDITS;
  modify_this (with_edit (Some t)).

Definition edit_process : Ps bool :=
  name ← line peek_until_delimeters;
  if text_eqb name (T "/add") then
    _ ← set_edit_type EDIT_ADD; _ ← line (consume (length name)); mret true
  else if text_eqb name (T "/del") then
    _ ← set_edit_type EDIT_DELETE; _ ← line (consume (length name)); mret true
  else if text_eqb name (T "/replace") then
    _ ← set_edit_type EDIT_REPLACE; _ ← line (consume (length name)); mret true
  else mret false.

(** ** Addresses and ports *)

(** The position of the first and of the last occurrence of a character. *)
Fixpoint find_first (c : ascii) (l : text) : option nat :=
  match l with
  | [] => None
  | d :: l => if char_eqb c d then Some O else S <$> find_first c l
  end.
Fixpoint find_last (c : ascii) (l : text) : option nat :=
  match l with
  | [] => None
  | d :: l => match find_last c l with
              | Some i => Some (S i)
              | None => if char_eqb c d then Some O else None
              end
  end.
(** [substr(0, pos)]; no position is the end of the text. *)
Definition before (pos : option nat) (l : text) : text :=
  match pos with Some i => take i l | None => l end.
(** [a < b] of two positions, of which none is the greatest value. *)
Definition pos_lt (a : option nat) (b : nat) : bool :=
  match a with Some i => (i <? b)%nat | None => false end.

Definition MAX_PORTS : Z := 65535.

Definition ascii_z (c : ascii) : Z := Z.of_nat (nat_of_ascii c).

Definition get_netcode (code : text) (port : option Z) : CliError + CliNetCode :=
  match code with
  | [c0; c1] => inr (mkCliNetCode (default 0 port) (le_combine [ascii_z c0; ascii_z c1]))
  | _ => inl CE_ASSERT
  end.

Definition get_net4 (ip : IpAddress) (mask port : option Z) : CliError + CliNet4 :=
  rverify (negb (bool_decide (is_Some port) && bool_decide (is_Some mask))) CE_MASK_AND_PORT ;?
  match ip with
  | IP_V4 b => inr (mkCliNet4 b (default 0 port) (default 32 mask))
  | IP_V6 _ => inl CE_BAD_IP
  end.

Definition get_net6 (ip : IpAddress) (mask port : option Z) : CliError + CliNet6 :=
  rverify (negb (bool_decide (is_Some port) && bool_decide (is_Some mask))) CE_MASK_AND_PORT ;?
  match ip with
  | IP_V6 b => inr (mkCliNet6 b (default 0 port) (default 128 mask))
  | IP_V4 _ => inl CE_BAD_IP
  end.

Definition convert_ip `{BoostIp} (ip : text) : CliError + IpAddress := rsome (from_string ip) CE_BAD_IP.

(** The text between the slash and the colon; a colon before the slash makes the
    length of [substr] wrap around, so that the text goes to the end. *)
Definition mask_text (lv : text) (slash_pos : nat) (colon_pos : option nat) : text :=
  let rest := drop (S slash_pos) lv in
  match colon_pos with
  | Some c => if (slash_pos <? c)%nat then take (c - slash_pos - 1) rest else rest
  | None => rest
  end.

(** The value of [std::stoul] is stored in 32 bits. *)
Definition read_mask (lv : text) (slash_pos colon_pos : option nat) (limit : Z)
    : CliError + option Z :=
  match slash_pos with
  | None => inr None
  | Some slash_pos =>
      let? v := rsome (stoul (mask_text lv slash_pos colon_pos)) CE_BAD_MASK in
      let mask_val := u32 v in
      rverify (mask_val <=? limit) CE_BAD_MASK ;?
      inr (Some (u8 mask_val))
  end.
Definition read_mask4 lv slash_pos colon_pos := read_mask lv slash_pos colon_pos 32.
Definition read_mask6 lv slash_pos colon_pos := read_mask lv slash_pos colon_pos 128.

Definition read_ports (interval_begin interval_end : text) : CliError + Z * option Z :=
  let? port := parse_as 32 interval_begin in
  rverify (negb ((MAX_PORTS <? port) || (port =? 0))) CE_BAD_PORT ;?
  match interval_end with
  | [] => inr (u16 port, None)
  | _ =>
      let? port_end := parse_as 32 interval_end in
      rverify (negb (MAX_PORTS <? port_end)) CE_BAD_PORT ;?
      rverify (negb (port_end <=? port)) CE_BAD_PORT ;?
      inr (u16 port, Some (u16 port_end))
  end.

(** The two functions [read_port]. *)
Definition read_port (lv : text) : CliError + Z :=
  let? port := parse_as 32 lv in
  rverify (negb ((MAX_PORTS <? port) || (port =? 0))) CE_BAD_PORT ;?
  inr (u16 port).
Definition read_port_at (lv : text) (colon_pos : option nat) : CliError + option Z :=
  match colon_pos with
  | None => inr None
  | Some c => let? p := read_port (drop (S c) lv) in inr (Some p)
  end.

Definition is_iso_country_code (lv : text) : bool :=
  let colon_pos_l := find_last ":"%char lv in
  (length (before colon_pos_l lv) =? 2)%nat
  && bool_decide (find_first ":"%char lv = colon_pos_l).

Definition is_port (lv : text) : CliError + bool :=
  match lv with
  | c :: r =>
      if negb (char_eqb c ":"%char) then inr false else
      match r with
      | [] => inl CE_BAD_PORT
      | d :: _ => inr (negb (char_eqb d ":"%char))
      end
  | [] => inl CE_ASSERT
  end.

Definition read_iso_code_address (lv : text) : CliError + text * option Z :=
  let colon_pos := find_last ":"%char lv in
  let? port := read_port_at lv colon_pos in
  inr (before colon_pos lv, port).

Definition read_ip6_address (lv : text) : CliError + text * option Z * option Z :=
  let slash_pos := find_first "/"%char lv in
  let port_colon_pos := find_last ":"%char lv in
  match lv with
  | [] => inl CE_ASSERT
  | c :: r =>
      let? where_ := (
        if char_eqb c "["%char then
          let? close_brace_pos := rsome (find_first "]"%char lv) CE_BAD_IP in
          rverify (bool_decide (slash_pos = None)) CE_MASK_AND_PORT ;?
          inr (Some (take (close_brace_pos - 1) r,
                     if pos_lt port_colon_pos close_brace_pos then None else port_colon_pos))
        else match slash_pos with
          | None => inr None
          | Some s => inr (Some (take s lv,
                                 if pos_lt port_colon_pos s then None else port_colon_pos))
          end) in
      match where_ with
      | None => inr (lv, None, None)
      | Some (ip, port_colon_pos) =>
          let? mask := read_mask6 lv slash_pos port_colon_pos in
          let? port := read_port_at lv port_colon_pos in
          inr (ip, mask, port)
      end
  end.

Definition pos_min (a b : option nat) : option nat :=
  match a, b with
  | Some i, Some j => Some (Nat.min i j)
  | Some i, None | None, Some i => Some i
  | None, None => None
  end.

Definition read_ip4_address (lv : text) : CliError + text * option Z * option Z :=
  match lv with
  | [] => inl CE_ASSERT
  | _ =>
      let slash_pos := find_first "/"%char lv in
      let colon_pos := find_first ":"%char lv in
      let? mask := read_mask4 lv slash_pos colon_pos in
      let? port := read_port_at lv colon_pos in
      inr (before (pos_min slash_pos colon_pos) lv, mask, port)
  end.

(** ** Attributes *)

Definition starts_with_ip (name : text) : bool := text_eqb (take 2 name) (T "ip").

(** [if (section_alias_.empty()) section_alias_ = name;] *)
Definition default_alias (name : text) : Ps unit :=
  o ← this;
  if bool_decide (section_alias_ o = []) then set_alias name else mret tt.

(** [SrcSection::process_attributes] and [DstSection::process_attributes] *)
Definition net_attributes (kind : NetKind) (nr : CliNetRule) : Ps bool :=
  name ← line (peek_until (delimeters ++ T ":"));
  if starts_with_ip name then
    nr' ← cpure (set_proto name nr);
    _ ← set_members (NetRuleSection kind nr' true);
    _ ← default_alias name;
    _ ← line (consume (length name));
    mret true
  else mret false.

(** [ProtectedNetSection::process_attributes] *)
Definition protected_attributes (nr : CliNetRule) : Ps bool :=
  name ← line peek_until_delimeters;
  if text_eqb name (T "ip6") then
    _ ← default_alias name;
    _ ← set_members (NetRuleSection ProtectedNetSection (cn_set NetRuleAttr_IPV6 nr) true);
    _ ← line (consume (length name));
    mret true
  else if text_eqb name (T "ip4") then
    _ ← default_alias name;
    _ ← set_members (NetRuleSection ProtectedNetSection nr true);
    _ ← line (consume (length name));
    mret true
  else mret false.

Definition icmp_attributes (rule : CliIcmpRule) : Ps bool :=
  name ← line (peek_until (delimeters ++ T ":"));
  if bool_decide (name = []) then mret false else
  if starts_with_ip name then
    rule' ← cpure (icmp_set_proto name rule);
    _ ← set_members (IcmpSection rule');
    _ ← default_alias name;
    _ ← line (consume (length name));
    mret true
  else mret false.

Definition tcp_flag_attributes (flag : FlagType) : Ps bool :=
  name ← line (peek_until (delimeters ++ T ":"));
  let set f :=
    _ ← cverify (bool_decide (flag = FT_ALL)) CE_TCP_FLAGS;
    _ ← set_members (TcpFlagSection f);
    _ ← line (consume (length name));
    mret true in
  if text_eqb name (T "syn") then set FT_SYN
  else if text_eqb name (T "rst") then set FT_RST
  else mret false.

Definition syncookie_attributes (f_timer p_timer : option Z) : Ps bool :=
  name ← line peek_until_delimeters;
  if text_eqb name (T "passive_timer") then
    v ← line (consume_typed_assignment 32 name);
    _ ← set_members (TcpSyncookieSection f_timer (Some v)); mret true
  else if text_eqb name (T "flood_timer") then
    v ← line (consume_typed_assignment 32 name);
    _ ← set_members (TcpSyncookieSection (Some v) p_timer); mret true
  else mret false.

Definition ratelimit_attributes (rl : CliRatelimit) : Ps bool :=
  name ← line peek_until_delimeters;
  if text_eqb name (T "bps") then
    v ← line (consume_typed_assignment 64 name);
    _ ← set_members (RatelimitSection
          (mkCliRatelimit (crl_alias rl) (crl_flags rl) (crl_pps rl) (Some v))); mret true
  else if text_eqb name (T "pps") then
    v ← line (consume_typed_assignment 64 name);
    _ ← set_members (RatelimitSection
          (mkCliRatelimit (crl_alias rl) (crl_flags rl) (Some v) (crl_bps rl))); mret true
  else mret false.

(** *** tcp_anomaly_section.cc *)

Definition XFW_BIT_ACK : Z := 0x10.
Definition XFW_BIT_ECE : Z := 0x40.
Definition XFW_BIT_CWR : Z := 0x80.

Definition tcp_flag_to_bit (tcp_flag : text) : CliError + Z :=
  if text_eqb tcp_flag (T "0") then inr XFW_BIT_NONE else
  if text_eqb tcp_flag (T "ACK") then inr XFW_BIT_ACK else
  if text_eqb tcp_flag (T "CWR") then inr XFW_BIT_CWR else
  if text_eqb tcp_flag (T "ECE") then inr XFW_BIT_ECE else
  if text_eqb tcp_flag (T "FIN") then inr XFW_BIT_FIN else
  if text_eqb tcp_flag (T "PSH") then inr XFW_BIT_PSH else
  if text_eqb tcp_flag (T "RST") then inr XFW_BIT_RST else
  if text_eqb tcp_flag (T "SYN") then inr XFW_BIT_SYN else
  if text_eqb tcp_flag (T "URG") then inr XFW_BIT_URG else
  inl CE_BAD_FLAGS.

Definition set_features (f : Z) (a : TcpAnomalyRule) : TcpAnomalyRule :=
  mkTcpAnomalyRule (BitSet_set f (ta_features a)) (ta_bad_tcp_flags a) (ta_seqno_value a).

Definition save_tcp_flags_combination (c : Z) (a : TcpAnomalyRule) : TcpAnomalyRule :=
  mkTcpAnomalyRule (ta_features a)
    (Some (BitSet_set c (default (BitSet_empty XFW_BIT_CONTROL_MAX) (ta_bad_tcp_flags a))))
    (ta_seqno_value a).

(** The loop of [consume_tcp_flags]; every turn consumes a character, so that the
    length of the line bounds the number of turns ([consume_tcp_flags_ok]). *)
Fixpoint tcp_flags_loop (fuel : nat) (comb : option Z) (a : TcpAnomalyRule) : L TcpAnomalyRule :=
  match fuel with
  | O => cthrow CE_FUEL
  | S fuel =>
      e ← is_empty;
      if (e : bool) then cthrow CE_BAD_FLAGS else
      _ ← skip_spaces;
      c ← peek;
      if char_eqb c ")"%char then
        _ ← consume 1;
        mret (match comb with Some b => save_tcp_flags_combination b a | None => a end)
      else
      tcp_flag ← consume_until (spaces ++ T "+,)");
      tcp_flag_e ← cpure (tcp_flag_to_bit tcp_flag);
      let comb := Z.lor tcp_flag_e (default XFW_BIT_NONE comb) in
      _ ← skip_spaces;
      c ← peek;
      if char_eqb c "+"%char then _ ← consume 1; tcp_flags_loop fuel (Some comb) a else
      if char_eqb c ","%char then
        _ ← consume 1; tcp_flags_loop fuel None (save_tcp_flags_combination comb a)
      else tcp_flags_loop fuel (Some comb) a
  end.

Definition consume_tcp_flags (a : TcpAnomalyRule) : L TcpAnomalyRule :=
  _ ← consume 1;
  c ← cget;
  tcp_flags_loop (S (length (line_ c))) None a.

Definition anomaly_attributes (a : TcpAnomalyRule) : Ps bool :=
  name ← line (peek_until (delimeters ++ T "()"));
  if text_eqb name (T "syn_without_opt") then
    _ ← set_members (TcpAnomalySection (set_features XFW_SYN_WIHOUT_OPTIONS a));
    _ ← line (consume (length name)); mret true
  else if text_eqb name (T "syn_with_payload") then
    _ ← set_members (TcpAnomalySection (set_features XFW_SYN_WITH_PAYLOAD a));
    _ ← line (consume (length name)); mret true
  else if text_eqb name (T "syn_with_seqno") then
    let a := set_features XFW_SYN_WITH_SEQ_NO a in
    v ← line (consume_typed_assignment 32 name);
    _ ← set_members (TcpAnomalySection (mkTcpAnomalyRule (ta_features a) (ta_bad_tcp_flags a) v));
    mret true
  else if text_eqb name (T "bad_flags") then
    let a := set_features XFW_BAD_FLAGS a in
    _ ← set_members (TcpAnomalySection a);
    _ ← line (consume (length name));
    _ ← line skip_spaces;
    c ← line peek;
    if char_eqb c "("%char then
      a' ← line (consume_tcp_flags a);
      _ ← set_members (TcpAnomalySection a'); mret true
    else mret true
  else mret false.

(** *** defaults_section.cc *)

(** [DefaultsSection::get_index]; the arguments are the values of the
    enumerations [DataType], [TransportProtocol] and [IPVersion]. *)
Definition data_type_z (type : DataType) : Z :=
  match type with SRC_IP => 0 | SRC_PORT => 1 | DST => 2 | ICMP => 3 end.
Definition TP_NONE : Z := 0.
Definition TP_TCP : Z := 0.
Definition TP_UDP : Z := 1.
Definition IPV_IP4 : Z := 0.
Definition IPV_IP6 : Z := 1.
Definition get_index (type : DataType) (tp ipv : Z) : Z :=
  Z.lor (Z.lor (Z.shiftl (data_type_z type) 2) (Z.shiftl tp 1)) ipv.

(** [DefaultsSection::set_presence_or_throw] *)
Definition set_presence_or_throw (flag : Z) : Ps unit :=
  h ← heap;
  _ ← cverify (negb (BitSet_test flag (h_presence h))) CE_FLAG_ALREADY_SET;
  set_heap (mkHeap (h_conf h) (h_xfw h) (h_defaults h) (BitSet_set flag (h_presence h))).

(** [set_flag] of both kinds of sections: the new value of [flags_]. *)
Definition set_flag (flag : Z) (flags : list Z) : Ps (list Z) :=
  _ ← set_presence_or_throw flag;
  mret (BitSet_set flag flags).

(** The part of [TcpIpDefaultSection::process_attributes] after the version. *)
Definition tcp_ip_version (type : DataType) (flags : list Z) (ipv : Z) : Ps bool :=
  let tcp := get_index type TP_TCP ipv in
  let udp := get_index type TP_UDP ipv in
  let save flags := (_ ← set_members (TcpIpDefaultSection type flags); mret true) in
  c ← line peek;
  if char_eqb c "."%char then
    _ ← line (consume 1);
    name ← line (consume_until (delimeters ++ T ":"));
    if text_eqb name (T "tcp") then flags' ← set_flag tcp flags; save flags'
    else if text_eqb name (T "udp") then flags' ← set_flag udp flags; save flags'
    else cthrow CE_BAD_PROTO
  else
    flags' ← set_flag tcp flags;
    flags'' ← set_flag udp flags';
    save flags''.

Definition tcp_ip_default_attributes (type : DataType) (flags : list Z) : Ps bool :=
  name ← line (peek_until (delimeters ++ T ":."));
  if text_eqb name (T "ip4") then
    _ ← line (consume (length name)); tcp_ip_version type flags IPV_IP4
  else if text_eqb name (T "ip6") then
    _ ← line (consume (length name)); tcp_ip_version type flags IPV_IP6
  else mret false.

Definition ip_proto_default_attributes (type : DataType) (flags : list Z) : Ps bool :=
  name ← line (peek_until (delimeters ++ T ":"));
  let set ipv :=
    _ ← line (consume (length name));
    flags' ← set_flag (get_index type TP_NONE ipv) flags;
    _ ← set_members (IpProtoDefaultSection type flags');
    mret true in
  if text_eqb name (T "ip4") then set IPV_IP4
  else if text_eqb name (T "ip6") then set IPV_IP6
  else mret false.

(** The virtual function [process_attributes]. *)
Definition process_attributes : Ps bool :=
  o ← this;
  match members_ o with
  | NetRuleSection ProtectedNetSection nr _ => protected_attributes nr
  | NetRuleSection kind nr _ => net_attributes kind nr
  | IcmpSection rule => icmp_attributes rule
  | TcpFlagSection flag => tcp_flag_attributes flag
  | TcpSyncookieSection f p => syncookie_attributes f p
  | RatelimitSection rl => ratelimit_attributes rl
  | TcpAnomalySection a => anomaly_attributes a
  | TcpIpDefaultSection type flags => tcp_ip_default_attributes type flags
  | IpProtoDefaultSection type flags => ip_proto_default_attributes type flags
  | _ => cthrow CE_NO_ATTRIBUTES
  end.

(** ** Bodies

    The result of [process_body]: [{false, nullptr}], [{true, this}] or
    [{true, child}]. *)
Inductive Body := NotMine | Mine | Child (s : Sec).

(** [GenericSection::process_body]: the loop over the rest of the line, and the
    number of braces that are open. *)
Fixpoint generic_loop (n : nat) (bcnt : Z) : L (bool * Z) :=
  match n with
  | O => mret (true, bcnt)
  | S n =>
      c ← peek;
      let bcnt := if char_eqb c "{"%char then bcnt + 1
                  else if char_eqb c "}"%char then bcnt - 1 else bcnt in
      if char_eqb c "}"%char && (bcnt =? -1) then mret (false, bcnt) else
      _ ← consume 1;
      generic_loop n bcnt
  end.

Definition generic_body (mk : Z -> Members) (bcnt : Z) : Ps Body :=
  o ← this;
  _ ← cverify (bool_decide (state_ o = ProcessingBody)) CE_ASSERT;
  r ← line (c ← cget; generic_loop (length (line_ c)) bcnt);
  _ ← set_members (mk r.2);
  mret (if (r.1 : bool) then Mine else NotMine).

(** A new section and the members that it brings. *)
Definition open_child (m : Members) : Ps Body := mret (Child (new_sec m)).
Definition open_defaults : Ps Body :=
  h ← heap;
  _ ← set_heap (mkHeap (h_conf h) (h_xfw h) [] (BitSet_empty XFW_DEFAULT_MAX));
  open_child DefaultsSection.

Definition xfw_body : Ps Body :=
  name ← line (peek_until (delimeters ++ T "/"));
  let named s := text_eqb name (T s) in
  if named "src" then open_child (NetRuleSection SrcSection (NetRule_init (Some NetRuleAttr_SRC)) false)
  else if named "dst" then open_child (NetRuleSection DstSection (NetRule_init None) false)
  else if named "ratelimit" then open_child (RatelimitSection CliRatelimit_init)
  else if named "tcp_flags" then open_child (TcpFlagSection FT_ALL)
  else if named "evaluation_mode" then open_child EvaluationModeSection
  else if named "tcp_anomaly_filter" then open_child (TcpAnomalySection TcpAnomalyRule_init)
  else if named "dns_filter" then open_child DnsFilterSection
  else if named "tcp_auth_filter" then open_child TcpAuthSection
  else if named "tcp_syncookies" then open_child (TcpSyncookieSection None None)
  else if named "net" then
    open_child (NetRuleSection ProtectedNetSection (NetRule_init (Some NetRuleAttr_PROTECTED_NET)) false)
  else if named "icmp" then open_child (IcmpSection IcmpRule_empty)
  else if named "defaults" then open_defaults
  else if named "ip_proto" then open_child (IpProtoSection None)
  else mret NotMine.

Definition defaults_body : Ps Body :=
  name ← line (peek_until (delimeters ++ T ":"));
  let flags := BitSet_empty XFW_DEFAULT_MAX in
  if text_eqb name (T "src_ip") then open_child (TcpIpDefaultSection SRC_IP flags)
  else if text_eqb name (T "src_port") then open_child (TcpIpDefaultSection SRC_PORT flags)
  else if text_eqb name (T "dst") then open_child (TcpIpDefaultSection DST flags)
  else if text_eqb name (T "icmp") then open_child (IpProtoDefaultSection ICMP flags)
  else mret NotMine.

(** [if (peek() == ',') consume(1);] *)
Definition skip_comma : Ps unit :=
  c ← line peek; if char_eqb c ","%char then line (consume 1) else mret tt.

(** The second port of a range, empty if there is none. *)
Definition interval_end : Ps text :=
  _ ← line skip_spaces;
  c ← line peek;
  if char_eqb c "-"%char then
    _ ← line (consume 1); _ ← line skip_spaces; line consume_until_delimeters
  else mret [].

Definition add_net_code (n : CliNetCode) (r : CliNetRule) : CliNetRule :=
  mkCliNetRule (cn_alias r) (cn_flags r) (cn_net6s r) (cn_net4s r) (cn_nets r ++ [n]) (cn_ports r)
    (cn_ratelimit r).
Definition add_ports (p : Z * option Z) (r : CliNetRule) : CliNetRule :=
  mkCliNetRule (cn_alias r) (cn_flags r) (cn_net6s r) (cn_net4s r) (cn_nets r) (cn_ports r ++ [p])
    (cn_ratelimit r).
Definition add_cli_net4 (n : CliNet4) (r : CliNetRule) : CliNetRule :=
  mkCliNetRule (cn_alias r) (cn_flags r) (cn_net6s r) (cn_net4s r ++ [n]) (cn_nets r) (cn_ports r)
    (cn_ratelimit r).
Definition add_cli_net6 (n : CliNet6) (r : CliNetRule) : CliNetRule :=
  mkCliNetRule (cn_alias r) (cn_flags r) (cn_net6s r ++ [n]) (cn_net4s r) (cn_nets r) (cn_ports r)
    (cn_ratelimit r).

Section boost.
Context `{BoostIp}.

(** An address of the family of the rule. *)
Definition read_address (ipv : text) (nr : CliNetRule) : CliError + CliNetRule :=
  if cn_test NetRuleAttr_IPV6 nr then
    let? r := read_ip6_address ipv in
    let? ip := convert_ip r.1.1 in
    let? net := get_net6 ip r.1.2 r.2 in
    inr (add_cli_net6 net nr)
  else
    let? r := read_ip4_address ipv in
    let? ip := convert_ip r.1.1 in
    let? net := get_net4 ip r.1.2 r.2 in
    inr (add_cli_net4 net nr).

Definition net_rule_body (kind : NetKind) (nr : CliNetRule) (has_protocol : bool) : Ps Body :=
  ipv ← line (consume_until (delimeters ++ T "-"));
  if bool_decide (ipv = []) then mret NotMine else
  nr' ← (
    if is_iso_country_code ipv then
      cpure (let? r := read_iso_code_address ipv in
             let? net := get_netcode r.1 r.2 in inr (add_net_code net nr))
    else
    port ← cpure (is_port ipv);
    if (port : bool) then
      e ← interval_end;
      cpure (let? p := read_ports (drop 1 ipv) e in inr (add_ports p nr))
    else cpure (read_address ipv nr));
  _ ← set_members (NetRuleSection kind nr' has_protocol);
  _ ← skip_comma;
  mret Mine.

Definition icmp_body (rule : CliIcmpRule) : Ps Body :=
  nv ← line consume_until_delimeters;
  if bool_decide (nv = []) then mret NotMine else
  num ← cpure (parse_as 32 nv);
  _ ← set_members (IcmpSection (mkCliIcmpRule (ci_alias rule) (ci_flags rule)
        (ci_types rule ++ [u8 num]) (ci_ratelimit rule)));
  _ ← skip_comma;
  mret Mine.

Definition ip_proto_body (ip_proto : option (list Z)) : Ps Body :=
  nv ← line consume_until_delimeters;
  if bool_decide (nv = []) then mret NotMine else
  num ← cpure (parse_as 32 nv);
  _ ← cverify (num <=? XFW_SUPPORTED_PROTOCOL_MAX) CE_PROTOCOL;
  _ ← set_members (IpProtoSection
        (Some (BitSet_set num (default (BitSet_empty XFW_SUPPORTED_PROTOCOL_MAX) ip_proto))));
  _ ← line skip_spaces;
  _ ← skip_comma;
  mret Mine.

(** The virtual function [process_body]. *)
Definition process_body : Ps Body :=
  o ← this;
  match members_ o with
  | TfwSection bcnt => generic_body TfwSection bcnt
  | TlSection bcnt => generic_body TlSection bcnt
  | XfwSection => xfw_body
  | DefaultsSection => defaults_body
  | NetRuleSection kind nr has_protocol => net_rule_body kind nr has_protocol
  | IcmpSection rule => icmp_body rule
  | IpProtoSection ip_proto => ip_proto_body ip_proto
  | _ => cthrow CE_NO_BODY
  end.

(** ** The end of a section

    [commit] moves the data out of the object. *)

Definition not_deleted {A} (edit : option EditType) (del keep : Ps A) : Ps A :=
  match edit with
  | None => keep
  | Some EDIT_DELETE => del
  | Some _ => cthrow CE_EDIT_NOT_ALLOWED
  end.

Definition generic_commit (store : text -> TlProgConf -> TlProgConf) : Ps unit :=
  o ← this; h ← heap;
  match accumulated_ (base_ o) with
  | [] => mret tt
  | acc => set_heap (set_h_conf (store acc (h_conf h)) h)
  end.

(** The action of a rule: what it sets in the flags, and the rate limit. *)
Definition net_rule_commit (nr : CliNetRule) (has_protocol : bool) : Ps unit :=
  o ← this; h ← heap;
  let '(nr, ratelimit) := match action_ o with
    | Some a => (if act_allow a then cn_set NetRuleAttr_ALLOW nr else nr, act_ratelimit a)
    | None => (nr, cn_ratelimit nr)
    end in
  _ ← cverify (has_protocol || (bool_decide (cn_nets nr = []) && bool_decide (cn_net4s nr = [])
               && bool_decide (cn_net6s nr = []))) CE_NO_PROTO;
  _ ← cverify (negb (bool_decide (section_alias_ o = []))) CE_NO_NAME;
  nr' ← (match default EDIT_REPLACE (edit_type_ o) with
         | EDIT_ADD =>
             _ ← cverify (bool_decide (action_ o = None)) CE_ACTION_NOT_ALLOWED; mret nr
         | EDIT_DELETE =>
             _ ← cverify (bool_decide (action_ o = None)) CE_ACTION_NOT_ALLOWED;
             mret (cn_set NetRuleAttr_DELETE nr)
         | EDIT_REPLACE => mret (cn_set NetRuleAttr_REPLACE nr)
         end);
  x ← cpure (add_netrule (mkCliNetRule (section_alias_ o) (cn_flags nr') (cn_net6s nr') (cn_net4s nr')
               (cn_nets nr') (cn_ports nr') ratelimit) (h_xfw h));
  set_heap (set_h_xfw x h).

Definition icmp_commit (rule : CliIcmpRule) : Ps unit :=
  o ← this; h ← heap;
  let '(rule, ratelimit) := match action_ o with
    | Some a => (if act_allow a then ci_set IcmpRuleAttr_ALLOW rule else rule, act_ratelimit a)
    | None => (rule, ci_ratelimit rule)
    end in
  _ ← cverify (negb (bool_decide (section_alias_ o = []))) CE_NO_NAME;
  let rule := match edit_type_ o with
    | Some EDIT_ADD => rule
    | Some EDIT_DELETE => ci_set IcmpRuleAttr_DELETE rule
    | Some EDIT_REPLACE | None => ci_set IcmpRuleAttr_REPLACE rule
    end in
  rules ← cpure (add_rule ci_alias (mkCliIcmpRule (section_alias_ o) (ci_flags rule) (ci_types rule)
                   ratelimit) (x_icmp_rules (h_xfw h)));
  modify_xfw (set_x_icmp_rules rules).

Definition tcp_flag_commit (flag : FlagType) : Ps unit :=
  o ← this; h ← heap;
  not_deleted (edit_type_ o)
    (_ ← cverify (bool_decide (action_ o = None)) CE_ACTION_NOT_ALLOWED;
     modify_xfw (fun x => match flag with
       | FT_SYN => x_set Opt_TCP_SYN_FLAGS_FILTER_OFF x
       | FT_RST => x_set Opt_TCP_RST_FLAGS_FILTER_OFF x
       | FT_ALL => x_set Opt_TCP_RST_FLAGS_FILTER_OFF (x_set Opt_TCP_SYN_FLAGS_FILTER_OFF x)
       end))
    (match action_ o with
     | None => cthrow CE_VALUE_REQUIRED
     | Some a =>
         _ ← cverify (negb (bool_decide (act_ratelimit a = []))) CE_VALUE_REQUIRED;
         let tcp_flags := x_tcp_flags (h_xfw h) in
         let rule_exist := (bool_decide (flag = FT_ALL) && negb (bool_decide (tcp_flags = [])))
           || existsb (fun rule => bool_decide (ct_flag rule = flag)
                                   || bool_decide (ct_flag rule = FT_ALL)) tcp_flags in
         _ ← cverify (negb rule_exist) CE_TCP_FLAGS;
         modify_xfw (set_x_tcp_flags (tcp_flags ++ [mkCliTcpFlags flag (act_ratelimit a)]))
     end).

(** [DnsFilterSection], [EvaluationModeSection] and [TcpAuthSection]: two flags. *)
Definition switch_commit (on off : Z) : Ps unit :=
  o ← this; not_deleted (edit_type_ o) (modify_xfw (x_set off)) (modify_xfw (x_set on)).

(** The conversion of an unsigned 32-bit value to [int]. *)
Definition to_int (v : Z) : Z := if v <? 2 ^ 31 then v else v - 2 ^ 32.

Definition syncookie_commit (f_timer p_timer : option Z) : Ps unit :=
  o ← this;
  not_deleted (edit_type_ o) (modify_xfw (x_set Opt_TCP_SYNCOOKIE_FILTER_OFF))
    (_ ← cverify (bool_decide (is_Some f_timer) || bool_decide (is_Some p_timer)) CE_VALUE_REQUIRED;
     modify_xfw (set_x_syncookie (Some (mkCliSyncookie (to_int (default 1 p_timer)) (to_int (default 1 f_timer)))))).

Definition ratelimit_commit (rl : CliRatelimit) : Ps unit :=
  o ← this; h ← heap;
  flags ← not_deleted (edit_type_ o) (mret (BitSet_set RatelimitAttr_DELETE (crl_flags rl)))
            (mret (crl_flags rl));
  _ ← cverify (negb (bool_decide (section_alias_ o = []))) CE_NO_NAME;
  _ ← cverify (bool_decide (is_Some (crl_bps rl)) || bool_decide (is_Some (crl_pps rl))
               || BitSet_test RatelimitAttr_DELETE flags) CE_VALUE_REQUIRED;
  rules ← cpure (add_rule crl_alias (mkCliRatelimit (section_alias_ o) flags (crl_pps rl) (crl_bps rl))
                   (x_ratelimits (h_xfw h)));
  modify_xfw (set_x_ratelimits rules).

Definition anomaly_commit (a : TcpAnomalyRule) : Ps unit :=
  o ← this;
  not_deleted (edit_type_ o) (modify_xfw (x_set Opt_TCP_ANOMALY_FILTER_OFF))
    (modify_xfw (set_x_tcp_anomaly (Some a))).

Definition ip_proto_commit (ip_proto : option (list Z)) : Ps unit :=
  o ← this;
  not_deleted (edit_type_ o) (modify_xfw (x_set Opt_IP_PROTO_FILTER_OFF))
    (modify_xfw (set_x_ip_proto ip_proto)).

Definition defaults_commit : Ps unit :=
  h ← heap;
  _ ← cverify (bool_decide (x_defaults (h_xfw h) = [])) CE_TWO_SECTIONS;
  set_heap (mkHeap (h_conf h) (set_x_defaults (h_defaults h) (h_xfw h)) [] (h_presence h)).

(** The indices of a default section: all of them if none was given. *)
Fixpoint set_flags (indices : list Z) (flags : list Z) : Ps (list Z) :=
  match indices with
  | [] => mret flags
  | i :: indices => flags' ← set_flag i flags; set_flags indices flags'
  end.
Definition default_commit (indices : list Z) (flags : list Z) : Ps unit :=
  o ← this;
  match action_ o with
  | None => cthrow CE_VALUE_REQUIRED
  | Some a =>
      flags ← (if existsb (fun i => BitSet_test i flags) indices then mret flags
               else set_flags indices flags);
      h ← heap;
      set_heap (mkHeap (h_conf h) (h_xfw h)
        (h_defaults h ++ [mkCliDefaultAction (act_ratelimit a) (act_allow a) flags]) (h_presence h))
  end.

(** The virtual function [commit]. *)
Definition commit : Ps unit :=
  o ← this; h ← heap;
  match members_ o with
  | TfwSection _ => generic_commit (fun t c => mkTlProgConf t (tl_prog_txt c) (xfw_conf c))
  | TlSection _ => generic_commit (fun t c => mkTlProgConf (tfw_conf c) t (xfw_conf c))
  | XfwSection => set_heap (set_h_conf
      (mkTlProgConf (tfw_conf (h_conf h)) (tl_prog_txt (h_conf h)) (Some (h_xfw h))) h)
  | NetRuleSection _ nr has_protocol => net_rule_commit nr has_protocol
  | IcmpSection rule => icmp_commit rule
  | TcpFlagSection flag => tcp_flag_commit flag
  | DnsFilterSection => switch_commit Opt_DNS_FILTER_ON Opt_DNS_FILTER_OFF
  | EvaluationModeSection => switch_commit Opt_EVALUATION_MODE_ON Opt_EVALUATION_MODE_OFF
  | TcpAuthSection => switch_commit Opt_TCP_AUTH_FILTER_ON Opt_TCP_AUTH_FILTER_OFF
  | TcpSyncookieSection f p => syncookie_commit f p
  | RatelimitSection rl => ratelimit_commit rl
  | TcpAnomalySection a => anomaly_commit a
  | IpProtoSection ip_proto => ip_proto_commit ip_proto
  | DefaultsSection => defaults_commit
  | TcpIpDefaultSection type flags =>
      default_commit [get_index type TP_TCP IPV_IP4; get_index type TP_TCP IPV_IP6;
                      get_index type TP_UDP IPV_IP4; get_index type TP_UDP IPV_IP6] flags
  | IpProtoDefaultSection type flags =>
      default_commit [get_index type TP_NONE IPV_IP4; get_index type TP_NONE IPV_IP6] flags
  end.

(** ** section.cc *)

(** What [consume_line] returns: this object, a child, or null at the end. *)
Inductive Next := N_this | N_child (s : Sec) | N_done.

Definition process_name : Ps unit :=
  o ← this;
  _ ← cverify (bool_decide (state_ o = Start)) CE_ASSERT;
  _ ← line (consume_prefix (name_ (members_ o)));
  c ← line peek;
  if char_eqb c "="%char then
    _ ← line (consume_expected_char "="%char);
    alias ← line (consume_until (delimeters ++ T "/"));
    set_alias alias
  else mret tt.

Definition process_comment : Ps unit :=
  o ← this;
  line (
    c ← cget;
    _ ← cput (set_accumulate (accumulate_comments_ (members_ o)) c);
    _ ← consume_all;
    c' ← cget;
    cput (set_accumulate (accumulate_enabled_ c) c')).

(** [state_ = End; consume(1); commit(); return nullptr;] *)
Definition finish : Ps Next :=
  _ ← set_state End_; _ ← line (consume 1); _ ← commit; mret N_done.
Definition open_body : Ps Next :=
  _ ← set_state ProcessingBody; _ ← line (consume 1); mret N_this.

Definition reading_attributes : Ps Next :=
  o ← this;
  s ← line peek;
  if char_eqb s ";"%char then finish
  else if char_eqb s "{"%char then open_body
  else if char_eqb s ":"%char && has_action_processor (members_ o) then
    _ ← set_state ProcessingAction; _ ← line (consume 1); mret N_this
  else
  ok ← process_attributes;
  if (ok : bool) then mret N_this else cthrow CE_UNKNOWN_SYMBOLS.

Definition processing_action : Ps Next :=
  o ← this;
  _ ← cverify (has_action_processor (members_ o)) CE_ASSERT;
  ok ← action_process;
  if (ok : bool) then mret N_this else
  s ← line peek;
  if char_eqb s ";"%char then finish
  else if char_eqb s "{"%char then open_body
  else cthrow CE_UNKNOWN_SYMBOLS.

Definition processing_body : Ps Next :=
  r ← process_body;
  match r with
  | Mine => mret N_this
  | Child s => mret (N_child s)
  | NotMine =>
      s ← line peek;
      if char_eqb s "}"%char then finish else cthrow CE_UNKNOWN_SYMBOLS
  end.

Definition processing_edit : Ps Next :=
  o ← this;
  _ ← cverify (has_edit_processor (members_ o)) CE_ASSERT;
  ok ← edit_process;
  if (ok : bool) then mret N_this else
  _ ← set_state ReadingAttributes; mret N_this.

Definition starting : Ps Next :=
  _ ← process_name;
  o ← this;
  s ← line peek;
  _ ← set_state (if char_eqb s "/"%char && has_edit_processor (members_ o)
                 then ProcessEditAction else ReadingAttributes);
  mret N_this.

(** [Section::consume_line] *)
Definition section_line : Ps Next :=
  o ← this;
  _ ← cverify (negb (bool_decide (state_ o = End_))) CE_ASSERT;
  _ ← line skip_spaces;
  e ← line is_empty;
  if (e : bool) then mret N_this else
  c ← line peek;
  if char_eqb c "#"%char then _ ← process_comment; mret N_this else
  match state_ o with
  | Start => starting
  | ProcessEditAction => processing_edit
  | ReadingAttributes => reading_attributes
  | ProcessingAction => processing_action
  | ProcessingBody => processing_body
  | End_ => cthrow CE_ASSERT
  end.

(** [LineConsumer::consume_line(lv, line_num)] of a section: the rest of the line. *)
Definition consume_line (o : Sec) (h : Heap) (lv : text) : CliError + (text * Next * Sec * Heap) :=
  let? r := section_line (with_base (set_line lv (base_ o)) o, h) in
  inr (line_ (base_ r.2.1), r.1, r.2.1, r.2.2).

(** [RootSection::consume_line]: the rest of the line and a section that starts. *)
Definition root_line (h : Heap) (lv : text) : CliError + (text * option Sec * Heap) :=
  let lv := drop (leading_spaces lv) lv in
  match lv with
  | [] => inr ([], None, h)
  | c :: _ =>
      if char_eqb c "#"%char then inr ([], None, h) else
      let name := until delimeters lv in
      if text_eqb name (T "tfw") then
        rverify (bool_decide (tfw_conf (h_conf h) = [])) CE_TWO_SECTIONS ;?
        inr (lv, Some (new_sec (TfwSection 0)), h)
      else if text_eqb name (T "xfw") then
        rverify (bool_decide (xfw_conf (h_conf h) = None)) CE_TWO_SECTIONS ;?
        inr (lv, Some (new_sec XfwSection), set_h_xfw XfwConf_init h)
      else if text_eqb name (T "tl") then
        rverify (bool_decide (tl_prog_txt (h_conf h) = [])) CE_TWO_SECTIONS ;?
        inr (lv, Some (new_sec (TlSection 0)), h)
      else inl CE_UNKNOWN_SECTION
  end.

(** ** parse_config *)

(** One turn of the inner loop of [parse_config]; the stack of [ParserManager]
    has its top first, the root section is not on it. *)
Definition parse_step (stack : list Sec) (h : Heap) (lv : text)
    : CliError + (list Sec * Heap * text) :=
  match stack with
  | [] =>
      let? r := root_line h lv in
      inr (match r.1.2 with Some s => [s] | None => [] end, r.2, r.1.1)
  | o :: rest =>
      let? r := consume_line o h lv in
      let o' := r.1.2 in
      inr (match r.1.1.2 with
           | N_this => o' :: rest
           | N_child s => s :: o' :: rest
           | N_done => rest
           end, r.2, r.1.1.1)
  end.

(** [while (!lv.empty())]. A turn consumes a character or changes the state, see
    [parse_step_progress]: twice the length of the line bounds their number. *)
Fixpoint parse_line (fuel : nat) (stack : list Sec) (h : Heap) (lv : text)
    : CliError + (list Sec * Heap) :=
  match lv with
  | [] => inr (stack, h)
  | _ =>
      match fuel with
      | O => inl CE_FUEL
      | S fuel =>
          let? r := parse_step stack h lv in
          parse_line fuel r.1.1 r.1.2 r.2
      end
  end.

(** The lines of a text, each with its newline. *)
Fixpoint split_lines (cur : text) (t : text) : list text :=
  match t with
  | [] => [cur]
  | c :: t => if char_eqb c newline then (cur ++ [c]) :: split_lines [] t
              else split_lines (cur ++ [c]) t
  end.

Definition parse_fuel (lv : text) : nat := 2 * length lv + 2.

Definition parse_config (t : text) : CliError + TlProgConf :=
  let h := mkHeap TlProgConf_init XfwConf_init [] (BitSet_empty XFW_DEFAULT_MAX) in
  let? r := rfold (fun r lv => parse_line (parse_fuel lv) r.1 r.2 lv) ([], h) (split_lines [] t) in
  match r.1 with
  | [] => inr (h_conf r.2)
  | _ => inl CE_INCOMPLETE
  end.

(** [tcl_parse_conf] for a full configuration and for a patch; an exception is
    reported as null. *)
Definition tcl_parse_conf (t : text) (is_patch : bool) : option TlProgConf :=
  match parse_config t with
  | inl _ => None
  | inr c => Some (mkTlProgConf (tfw_conf c) (tl_prog_txt c)
      ((if is_patch then x_set Opt_XFW_CONFIG_PATCH else id) <$> xfw_conf c))
  end.
(** [tcl_parse_tl] *)
Definition tcl_parse_tl (t : text) : option TlProgConf :=
  match parse_config (T "tl {" ++ [newline] ++ t ++ [newline] ++ T "}") with
  | inl _ => None
  | inr c => Some c
  end.
Definition tcl_parse_full_conf (t : text) : option TlProgConf := tcl_parse_conf t false.
Definition tcl_parse_patch_conf (t : text) : option TlProgConf := tcl_parse_conf t true.
End boost.
