(* ===== verification/CliSpec.v ===== *)
(** * CliSpec: the parsers of the client are total and safe

    Every call of a parser ends with a result or with an exception; no assertion
    fails, whatever the text. A turn of the loop of [parse_config] consumes a
    character or changes the state of the parser, so that the loop ends. *)

From S2P Require Import Prelude.
From S2P Require Import Enums.
From S2P Require Import Uapi.
From S2P Require Import Bitset.
From S2P Require Import AnomalyFlags.
From S2P Require Import ConfigUpdater.
From S2P Require Import LineConsumer.
From S2P Require Import Tcl.
From S2P Require Import Cli.

Open Scope Z_scope.

(** ** Results of functions without state *)

(** The errors satisfy [F], the result satisfies [P]. *)
Definition rsat {E A} (F : E -> Prop) (r : E + A) (P : A -> Prop) : Prop :=
  match r with inl e => F e | inr a => P a end.

Section results.
Context {E : Type} {F : E -> Prop}.

Lemma rsat_bind {A B} (m : E + A) (k : A -> E + B) P :
  rsat F m (fun a => rsat F (k a) P) -> rsat F (rbind m k) P.
Proof. by destruct m. Qed.

Lemma rsat_verify cond e (P : unit -> Prop) : F e -> (cond = true -> P tt) -> rsat F (rverify cond e) P.
Proof. destruct cond; cbn; auto. Qed.

Lemma rsat_some {A} (o : option A) e (P : A -> Prop) :
  F e -> (forall a, o = Some a -> P a) -> rsat F (rsome o e) P.
Proof. destruct o; cbn; auto. Qed.

Lemma rsat_mono {A} (r : E + A) (P Q : A -> Prop) : rsat F r P -> (forall a, P a -> Q a) -> rsat F r Q.
Proof. destruct r; cbn; auto. Qed.

(** A loop with an invariant. *)
Lemma rsat_fold {A B} (f : B -> A -> E + B) (I : B -> Prop) b l :
  I b -> (forall b x, I b -> x ∈ l -> rsat F (f b x) I) -> rsat F (rfold f b l) I.
Proof.
  revert b. induction l as [|x l IH]; intros b Hb Hf; cbn [rfold]; [done|].
  apply rsat_bind. eapply rsat_mono; [apply Hf; [done|left]|]. intros b' Hb'. apply IH; [done|].
  intros ? ? ? ?. apply Hf; [done|by right].
Qed.
End results.

(** No assertion has failed and the bound of a loop was not met. *)
Definition fine (e : CliError) : Prop := e <> CE_ASSERT /\ e <> CE_FUEL.
Abbreviation rok := (rsat fine).

Lemma cwp_pure {S A} (r : CliError + A) (Q : A -> S -> Prop) s :
  rok r (fun a => Q a s) -> cwp (cpure r) Q s.
Proof. unfold cwp, cpure. by destruct r. Qed.

(** An assertion that holds. *)
Lemma cwp_asserted {S A} cond (m : C S A) Q s :
  cond = true -> cwp m Q s -> cwp (cverify cond CE_ASSERT) (fun _ => cwp m Q) s.
Proof. by intros ->. Qed.

Lemma read_digits_nonneg acc l : 0 <= acc -> 0 <= (read_digits acc l).1.
Proof.
  revert acc. induction l as [|c l IH]; intros acc Ha; cbn; [done|]. unfold digit.
  destruct ((48 <=? _) && _) eqn:Hc; [|done]. apply IH. lia.
Qed.

Lemma parse_as_ok w lv : rok (parse_as w lv) (fun n => 0 <= n < 2 ^ w).
Proof.
  unfold parse_as. destruct (starts_with_digit lv); cbn [negb]; [|done].
  pose proof (read_digits_nonneg 0 lv ltac:(lia)) as Hn.
  destruct (read_digits 0 lv) as [n rest]. destruct (2 ^ w <=? n) eqn:Hw; [done|].
  destruct rest; [|done]. cbn in *. lia.
Qed.

(** ** [LineConsumer] *)

Lemma until_length ts l : (length (until ts l) <= length l)%nat.
Proof. induction l as [|c l IH]; cbn; [lia|]. case_bool_decide; cbn; lia. Qed.

Lemma leading_spaces_length l : (leading_spaces l <= length l)%nat.
Proof. induction l as [|c l IH]; cbn; [lia|]. destruct (isspace c); cbn; lia. Qed.

Lemma until_prefix ts l : take (length (until ts l)) l = until ts l.
Proof. induction l as [|c l IH]; cbn; [done|]. case_bool_decide; cbn; by rewrite ?IH. Qed.

Section lines.
Implicit Types c : LineConsumer.

Lemma cwp_consume_acc n b Q c :
  (n <= length (line_ c))%nat -> (forall c', line_ c' = drop n (line_ c) -> Q tt c') ->
  cwp (consume_acc n b) Q c.
Proof.
  intros Hn HQ. unfold consume_acc, cwp, mbind, C_bind, cget, cverify, cput.
  rewrite (proj2 (Nat.leb_le _ _) Hn). by apply HQ.
Qed.

Lemma cwp_consume n Q c :
  (n <= length (line_ c))%nat -> (forall c', line_ c' = drop n (line_ c) -> Q tt c') ->
  cwp (consume n) Q c.
Proof. intros. by apply (cwp_consume_acc n (accumulate_enabled_ c)). Qed.

Lemma cwp_peek Q c : Q (match line_ c with [] => nul | a :: _ => a end) c -> cwp peek Q c.
Proof. done. Qed.

Lemma cwp_is_empty Q c : Q (bool_decide (line_ c = [])) c -> cwp is_empty Q c.
Proof. done. Qed.

Lemma cwp_peek_until ts Q c : Q (until ts (line_ c)) c -> cwp (peek_until ts) Q c.
Proof. done. Qed.

Lemma cwp_consume_until ts Q c :
  (forall c', line_ c' = drop (length (until ts (line_ c))) (line_ c) -> Q (until ts (line_ c)) c') ->
  cwp (consume_until ts) Q c.
Proof.
  intros HQ. apply cwp_bind, cwp_peek_until, cwp_bind, cwp_consume; [apply until_length|].
  intros c' Hc. by apply cwp_ret, HQ.
Qed.

Lemma cwp_skip_spaces Q c :
  (forall c', line_ c' = drop (leading_spaces (line_ c)) (line_ c) -> Q tt c') -> cwp skip_spaces Q c.
Proof.
  intros HQ. apply cwp_bind. unfold cwp, cget.
  apply cwp_consume_acc; [apply leading_spaces_length|done].
Qed.

Lemma cwp_consume_prefix p Q c :
  take (length p) (line_ c) = p ->
  (forall c', line_ c' = drop (length p) (line_ c) -> Q tt c') -> cwp (consume_prefix p) Q c.
Proof.
  intros Hp HQ. unfold consume_prefix. apply cwp_bind. unfold cwp at 1, cget.
  apply cwp_bind. unfold cwp at 1, cverify, text_eqb. rewrite bool_decide_eq_true_2 by done.
  change (cwp (consume (length p)) Q c). apply cwp_consume; [|done].
  rewrite <- Hp, length_take. lia.
Qed.

Lemma cwp_consume_expected ch Q c :
  (forall c', (S (length (line_ c')) = length (line_ c))%nat -> Q tt c') ->
  cwp (consume_expected_char ch) Q c.
Proof.
  intros HQ. apply cwp_bind, cwp_is_empty, cwp_bind, cwp_verify; [done..|]. intros He.
  apply cwp_bind, cwp_peek, cwp_bind, cwp_verify; [done..|]. intros _.
  apply cwp_consume; [|intros c' Hc; apply HQ; rewrite Hc, length_drop].
  all: apply negb_true_iff, bool_decide_eq_false in He; destruct (line_ c); cbn in *; [done|lia].
Qed.

(** An assignment consumes its key and the equals sign at least. *)
Lemma cwp_consume_assignment key Q c :
  take (length key) (line_ c) = key ->
  (forall v c', (length (line_ c') + length key < length (line_ c))%nat -> Q v c') ->
  cwp (consume_assignment key) Q c.
Proof.
  intros Hk HQ. apply cwp_bind, cwp_consume_prefix; [done|]. intros c1 H1.
  apply cwp_bind, cwp_skip_spaces. intros c2 H2. apply cwp_bind, cwp_consume_expected. intros c3 H3.
  apply cwp_bind, cwp_skip_spaces. intros c4 H4. apply cwp_consume_until. intros c5 H5. apply HQ.
  rewrite H5, length_drop, H4, length_drop. rewrite H2, length_drop, H1, length_drop in H3.
  assert (length key <= length (line_ c))%nat by (rewrite <- Hk, length_take; lia). lia.
Qed.

Lemma cwp_typed_assignment w key Q c :
  take (length key) (line_ c) = key ->
  (forall v c', 0 <= v < 2 ^ w -> (length (line_ c') + length key < length (line_ c))%nat -> Q v c') ->
  cwp (consume_typed_assignment w key) Q c.
Proof.
  intros Hk HQ. apply cwp_bind, cwp_consume_assignment; [done|]. intros t c' Hc.
  apply cwp_pure. eapply rsat_mono; [apply parse_as_ok|]. cbv beta; intros v Hv. by apply HQ.
Qed.
End lines.

(** ** Well-formed configurations of the client *)

Record cli_net4_ok (n : CliNet4) : Prop := mkCliNet4Ok {
  c4_len : length (c4_addr n) = 4%nat;
  c4_bytes : Forall is_byte (c4_addr n);
  c4_port_range : 0 <= c4_port n < 2 ^ 16;
  c4_prefix_range : 0 <= c4_prefix n <= 32
}.
Record cli_net6_ok (n : CliNet6) : Prop := mkCliNet6Ok {
  c6_len : length (c6_addr n) = 16%nat;
  c6_bytes : Forall is_byte (c6_addr n);
  c6_port_range : 0 <= c6_port n < 2 ^ 16;
  c6_prefix_range : 0 <= c6_prefix n <= 128
}.
Definition cli_ports_ok (p : Z * option Z) : Prop :=
  0 < p.1 < 2 ^ 16 /\ forall e, p.2 = Some e -> p.1 < e < 2 ^ 16.

(** A rule, in or after its section. *)
Record cli_rule_ok (r : CliNetRule) : Prop := mkCliRuleOk {
  cr_flags : bitset_wf NetRuleAttr_MAX_BIT (cn_flags r);
  cr_net4s : Forall cli_net4_ok (cn_net4s r);
  cr_net6s : Forall cli_net6_ok (cn_net6s r);
  cr_nets : Forall (fun n => 0 <= cc_code n < 2 ^ 16) (cn_nets r);
  cr_ports : Forall cli_ports_ok (cn_ports r)
}.

Definition NetKind_src (k : NetKind) : bool := match k with SrcSection => true | _ => false end.
Definition NetKind_prot (k : NetKind) : bool :=
  match k with ProtectedNetSection => true | _ => false end.

Record open_rule_ok (kind : NetKind) (r : CliNetRule) : Prop := mkOpenRuleOk {
  or_rule : cli_rule_ok r;
  or_src : cn_test NetRuleAttr_SRC r = NetKind_src kind;
  or_prot : cn_test NetRuleAttr_PROTECTED_NET r = NetKind_prot kind;
  or_replace : cn_test NetRuleAttr_REPLACE r = false;
  or_delete : cn_test NetRuleAttr_DELETE r = false
}.
Record final_rule_ok (r : CliNetRule) : Prop := mkFinalRuleOk {
  fr_rule : cli_rule_ok r;
  fr_kind : cn_test NetRuleAttr_SRC r = true -> cn_test NetRuleAttr_PROTECTED_NET r = false;
  fr_alias : cn_alias r <> [];
  fr_edit : cn_test NetRuleAttr_REPLACE r = true -> cn_test NetRuleAttr_DELETE r = false
}.
(** What identifies a rule: its section and its name. *)
Definition rule_id (r : CliNetRule) : bool * bool * text :=
  (cn_test NetRuleAttr_SRC r, cn_test NetRuleAttr_PROTECTED_NET r, cn_alias r).

Record cli_icmp_ok (r : CliIcmpRule) : Prop := mkCliIcmpOk {
  cio_flags : bitset_wf IcmpRuleAttr_MAX_BIT (ci_flags r);
  cio_types : Forall is_byte (ci_types r)
}.
Record final_icmp_ok (r : CliIcmpRule) : Prop := mkFinalIcmpOk {
  fi_rule : cli_icmp_ok r;
  fi_alias : ci_alias r <> [];
  fi_edit : BitSet_test IcmpRuleAttr_REPLACE (ci_flags r) = true ->
    BitSet_test IcmpRuleAttr_DELETE (ci_flags r) = false
}.

Definition u64_opt (o : option Z) : Prop := forall v, o = Some v -> 0 <= v < 2 ^ 64.
Definition u32_opt (o : option Z) : Prop := forall v, o = Some v -> 0 <= v < 2 ^ 32.
Record cli_ratelimit_ok (r : CliRatelimit) : Prop := mkCliRatelimitOk {
  cl_flags : bitset_wf RatelimitAttr_MAX_BIT (crl_flags r);
  cl_pps : u64_opt (crl_pps r);
  cl_bps : u64_opt (crl_bps r)
}.

Record anomaly_ok (a : TcpAnomalyRule) : Prop := mkAnomalyOk {
  an_features : bitset_wf XFW_TCP_ANOMALY_FEATURE_MAX (ta_features a);
  an_flags f : ta_bad_tcp_flags a = Some f -> bitset_wf XFW_BIT_CONTROL_MAX f;
  an_seqno : 0 <= ta_seqno_value a < 2 ^ 32
}.

(** Sets of default indices: well formed, and none has an index of another. The
    indices are the bits of the two bytes of such a set. *)
Definition default_index (i : Z) : Prop := 0 <= i < 16.
Definition disjoint_flags (a b : list Z) : Prop :=
  forall i, default_index i -> BitSet_test i a = true -> BitSet_test i b = false.
Record defaults_ok (ds : list CliDefaultAction) : Prop := mkDefaultsOk {
  do_flags : Forall (fun d => bitset_wf XFW_DEFAULT_MAX (cd_flags d)) ds;
  do_disjoint : ForallOrdPairs (fun a b => disjoint_flags (cd_flags a) (cd_flags b)) ds
}.

(** The configuration; [patch] says whether it is sent as a patch. *)
Record conf_ok (patch : bool) (x : XfwConf) : Prop := mkConfOk {
  xo_flags : bitset_wf Opt_MAX_BIT (x_flags x);
  xo_patch : BitSet_test Opt_XFW_CONFIG_PATCH (x_flags x) = patch;
  xo_rules : Forall final_rule_ok (x_net_rules x);
  xo_rule_ids : NoDup (rule_id <$> x_net_rules x);
  xo_tcp_flags : Forall (fun r => ct_ratelimit r <> []) (x_tcp_flags x);
  xo_ratelimits : Forall (fun r => cli_ratelimit_ok r /\ crl_alias r <> []) (x_ratelimits x);
  xo_ratelimit_ids : NoDup (crl_alias <$> x_ratelimits x);
  xo_icmp : Forall final_icmp_ok (x_icmp_rules x);
  xo_icmp_ids : NoDup (ci_alias <$> x_icmp_rules x);
  xo_defaults : defaults_ok (x_defaults x);
  xo_anomaly a : x_tcp_anomaly x = Some a -> anomaly_ok a;
  xo_ip_proto p : x_ip_proto x = Some p -> bitset_wf XFW_SUPPORTED_PROTOCOL_MAX p
}.

(** ** Readers *)

Lemma u16_id p : 0 <= p < 2 ^ 16 -> u16 p = p.
Proof. intros. by apply Z.mod_small. Qed.

Lemma read_mask_ok lv s c limit : limit < 256 ->
  rok (read_mask lv s c limit) (fun o => forall m, o = Some m -> 0 <= m <= limit).
Proof.
  intros Hl. unfold read_mask. destruct s as [s|]; [|done].
  apply rsat_bind, rsat_some; [done|]. intros v _. apply rsat_bind, rsat_verify; [done|]. intros Hv m [= <-].
  assert (0 <= u32 v) by (apply (wrap_range 32); lia).
  assert (u8 (u32 v) = u32 v) as -> by (apply Z.mod_small; lia). lia.
Qed.

Lemma read_port_ok lv : rok (read_port lv) (fun p => 0 < p < 2 ^ 16).
Proof.
  apply rsat_bind. eapply rsat_mono; [apply parse_as_ok|]. cbv beta; intros p Hp. unfold MAX_PORTS.
  apply rsat_bind, rsat_verify; [done|]. intros Hv. cbn [rsat]. rewrite u16_id; lia.
Qed.

Lemma read_port_at_ok lv c :
  rok (read_port_at lv c) (fun o => forall p, o = Some p -> 0 < p < 2 ^ 16).
Proof.
  unfold read_port_at. destruct c; [|done]. apply rsat_bind. eapply rsat_mono; [apply read_port_ok|].
  cbv beta; intros p Hp q [= <-]. done.
Qed.

Lemma read_ports_ok b e : rok (read_ports b e) cli_ports_ok.
Proof.
  apply rsat_bind. eapply rsat_mono; [apply parse_as_ok|]. cbv beta; intros p Hp. unfold MAX_PORTS.
  apply rsat_bind, rsat_verify; [done|]. intros Hv. destruct e as [|c e].
  { split; cbn [fst snd]; [rewrite u16_id; lia|done]. }
  apply rsat_bind. eapply rsat_mono; [apply parse_as_ok|]. cbv beta; intros q Hq.
  apply rsat_bind, rsat_verify; [done|]. intros H1. apply rsat_bind, rsat_verify; [done|]. intros H2.
  split; cbn [fst snd]; [rewrite u16_id; lia|]. intros x [= <-]. rewrite !u16_id; lia.
Qed.

Lemma find_last_lt c l i : find_last c l = Some i -> (i < length l)%nat.
Proof.
  revert i. induction l as [|d l IH]; intros i; cbn; [done|].
  destruct (find_last c l) as [j|] eqn:Hj.
  - intros [= <-]. specialize (IH j eq_refl). lia.
  - destruct (char_eqb c d); intros [= <-]. lia.
Qed.

Lemma ascii_z_byte c : is_byte (ascii_z c).
Proof. unfold is_byte, ascii_z. pose proof (nat_ascii_bounded c). lia. Qed.

Lemma get_netcode_ok code port : length code = 2%nat ->
  rok (get_netcode code port) (fun n => 0 <= cc_code n < 2 ^ 16).
Proof.
  destruct code as [|c0 [|c1 [|? ?]]]; intros Hl; try done. cbn [get_netcode rok cc_code].
  pose proof (le_combine_range [ascii_z c0; ascii_z c1]) as Hr. apply Hr.
  repeat constructor; apply ascii_z_byte.
Qed.

Section readers.
Context `{BoostIpSpec}.

Lemma get_net4_ok t ip mask port :
  from_string t = Some ip -> (forall m, mask = Some m -> 0 <= m <= 32) ->
  (forall p, port = Some p -> 0 < p < 2 ^ 16) -> rok (get_net4 ip mask port) cli_net4_ok.
Proof.
  intros Ht Hm Hp. apply rsat_bind, rsat_verify; [done|]. intros _. destruct ip as [b|b]; [|done].
  apply from_string_v4 in Ht as [Hl Hb].
  split; cbn; [done|done|destruct port as [p|]; cbn; [specialize (Hp p eq_refl)|]; lia
    |destruct mask as [m|]; cbn; [specialize (Hm m eq_refl)|]; lia].
Qed.

Lemma get_net6_ok t ip mask port :
  from_string t = Some ip -> (forall m, mask = Some m -> 0 <= m <= 128) ->
  (forall p, port = Some p -> 0 < p < 2 ^ 16) -> rok (get_net6 ip mask port) cli_net6_ok.
Proof.
  intros Ht Hm Hp. apply rsat_bind, rsat_verify; [done|]. intros _. destruct ip as [b|b]; [done|].
  apply from_string_v6 in Ht as [Hl Hb].
  split; cbn; [done|done|destruct port as [p|]; cbn; [specialize (Hp p eq_refl)|]; lia
    |destruct mask as [m|]; cbn; [specialize (Hm m eq_refl)|]; lia].
Qed.

Definition address_ok (limit : Z) (r : text * option Z * option Z) : Prop :=
  (forall m, r.1.2 = Some m -> 0 <= m <= limit) /\ (forall p, r.2 = Some p -> 0 < p < 2 ^ 16).

Lemma read_ip4_address_ok lv : lv <> [] -> rok (read_ip4_address lv) (address_ok 32).
Proof.
  destruct lv as [|c lv]; [done|]. intros _. unfold read_ip4_address.
  apply rsat_bind. eapply rsat_mono; [by apply read_mask_ok|]. cbv beta; intros m Hm.
  apply rsat_bind. eapply rsat_mono; [by apply read_port_at_ok|]. cbv beta; intros p Hp. by split.
Qed.

Lemma read_ip6_address_ok lv : lv <> [] -> rok (read_ip6_address lv) (address_ok 128).
Proof.
  destruct lv as [|c lv]; [done|]. intros _. unfold read_ip6_address.
  set (s := find_first "/"%char _). set (q := find_last _ _).
  assert (Hrest : forall (ip : text) pos, rok (let? mask := read_mask6 (c :: lv) s pos in
    let? port := read_port_at (c :: lv) pos in inr (ip, mask, port)) (address_ok 128)).
  { intros ip pos. apply rsat_bind. eapply rsat_mono; [by apply read_mask_ok|]. cbv beta; intros m Hm.
    apply rsat_bind. eapply rsat_mono; [by apply read_port_at_ok|]. cbv beta; intros p Hp. by split. }
  apply rsat_bind. destruct (char_eqb c "["%char).
  - apply rsat_bind, rsat_some; [done|]. intros i _. apply rsat_bind, rsat_verify; [done|]. intros _.
    apply Hrest.
  - destruct s as [i|]; [apply Hrest|]. by split.
Qed.

(** The same rule with more matchers. *)
Definition same_flags (r r' : CliNetRule) : Prop := cn_flags r' = cn_flags r.

Lemma read_address_ok ipv r : ipv <> [] -> cli_rule_ok r ->
  rok (read_address ipv r) (fun r' => cli_rule_ok r' /\ same_flags r r').
Proof.
  intros Hv [Hf H4 H6 Hn Hp]. unfold read_address. destruct (cn_test _ r); apply rsat_bind.
  - eapply rsat_mono; [by apply read_ip6_address_ok|]. cbv beta; intros a [Hm Ho].
    apply rsat_bind, rsat_some; [done|]. intros ip Hip. apply rsat_bind.
    eapply rsat_mono; [by eapply get_net6_ok|]. cbv beta; intros n Hnet. split; [|done].
    split; cbn; try done. apply Forall_app_2; [done|by constructor].
  - eapply rsat_mono; [by apply read_ip4_address_ok|]. cbv beta; intros a [Hm Ho].
    apply rsat_bind, rsat_some; [done|]. intros ip Hip. apply rsat_bind.
    eapply rsat_mono; [by eapply get_net4_ok|]. cbv beta; intros n Hnet. split; [|done].
    split; cbn; try done. apply Forall_app_2; [done|by constructor].
Qed.

Lemma country_ok ipv r : is_iso_country_code ipv = true -> cli_rule_ok r ->
  rok (let? a := read_iso_code_address ipv in
       let? net := get_netcode a.1 a.2 in inr (add_net_code net r))
    (fun r' => cli_rule_ok r' /\ same_flags r r').
Proof.
  intros [Hl _]%andb_prop [Hf H4 H6 Hn Hp]. apply Nat.eqb_eq in Hl.
  apply rsat_bind, rsat_bind. eapply rsat_mono; [apply read_port_at_ok|]. cbv beta; intros p _.
  apply rsat_bind. eapply rsat_mono; [by apply get_netcode_ok|]. cbv beta; intros n Hnet. split; [|done].
  split; cbn; try done. apply Forall_app_2; [done|by constructor].
Qed.
End readers.

(** ** Sections *)

Definition lof (o : Sec) : text := line_ (base_ o).

Section sections.
Implicit Types (o : Sec) (h : Heap) (s : Sec * Heap).

Lemma cwp_line {A} (m : L A) (Q : A -> Sec * Heap -> Prop) o h :
  cwp m (fun a b => Q a (with_base b o, h)) (base_ o) -> cwp (line m) Q (o, h).
Proof. unfold cwp, line. by destruct (m (base_ o)) as [e|[a b]]. Qed.

(** Functions that only look at the line. *)
Lemma with_base_id o : with_base (base_ o) o = o.
Proof. by destruct o. Qed.

Lemma cwp_line_peek_until ts (Q : text -> Sec * Heap -> Prop) o h :
  Q (until ts (lof o)) (o, h) -> cwp (line (peek_until ts)) Q (o, h).
Proof. intros HQ. apply cwp_line, cwp_peek_until. by rewrite with_base_id. Qed.

Lemma cwp_line_peek (Q : ascii -> Sec * Heap -> Prop) o h :
  Q (match lof o with [] => nul | a :: _ => a end) (o, h) -> cwp (line peek) Q (o, h).
Proof. intros HQ. apply cwp_line, cwp_peek. by rewrite with_base_id. Qed.

Lemma cwp_line_is_empty (Q : bool -> Sec * Heap -> Prop) o h :
  Q (bool_decide (lof o = [])) (o, h) -> cwp (line is_empty) Q (o, h).
Proof. intros HQ. apply cwp_line, cwp_is_empty. by rewrite with_base_id. Qed.

Lemma cwp_this (Q : Sec -> Sec * Heap -> Prop) s : Q s.1 s -> cwp this Q s.
Proof. done. Qed.

Lemma cwp_heap (Q : Heap -> Sec * Heap -> Prop) s : Q s.2 s -> cwp heap Q s.
Proof. done. Qed.

Lemma cwp_set_heap h' (Q : unit -> Sec * Heap -> Prop) s : Q tt (s.1, h') -> cwp (set_heap h') Q s.
Proof. done. Qed.

Lemma cwp_modify_this f (Q : unit -> Sec * Heap -> Prop) s : Q tt (f s.1, s.2) -> cwp (modify_this f) Q s.
Proof. done. Qed.

Lemma cwp_modify_xfw f (Q : unit -> Sec * Heap -> Prop) s :
  Q tt (s.1, set_h_xfw (f (h_xfw s.2)) s.2) -> cwp (modify_xfw f) Q s.
Proof. done. Qed.

Lemma cwp_set_action a (Q : unit -> Sec * Heap -> Prop) s :
  Q tt (with_action (Some a) s.1, s.2) -> cwp (set_action a) Q s.
Proof.
  intros HQ. apply cwp_bind, cwp_this, cwp_bind, cwp_verify; [done..|]. intros _.
  by apply cwp_modify_this.
Qed.

Lemma cwp_set_edit t (Q : unit -> Sec * Heap -> Prop) s :
  Q tt (with_edit (Some t) s.1, s.2) -> cwp (set_edit_type t) Q s.
Proof.
  intros HQ. apply cwp_bind, cwp_this, cwp_bind, cwp_verify; [done..|]. intros _.
  by apply cwp_modify_this.
Qed.

Lemma cwp_default_alias name (Q : unit -> Sec * Heap -> Prop) s :
  (forall a, Q tt (with_alias a s.1, s.2)) -> cwp (default_alias name) Q s.
Proof.
  intros HQ. apply cwp_bind, cwp_this. case_bool_decide; [by apply cwp_modify_this|].
  apply cwp_ret. specialize (HQ (section_alias_ s.1)). by destruct s as [[] ?].
Qed.
End sections.

(** ** Invariants *)

(** What a section has read so far. *)
Definition members_ok (m : Members) : Prop :=
  match m with
  | NetRuleSection kind nr _ => open_rule_ok kind nr
  | IcmpSection r => cli_icmp_ok r /\ BitSet_test IcmpRuleAttr_REPLACE (ci_flags r) = false
      /\ BitSet_test IcmpRuleAttr_DELETE (ci_flags r) = false
  | RatelimitSection rl => cli_ratelimit_ok rl
  | TcpAnomalySection a => anomaly_ok a
  | IpProtoSection p => forall b, p = Some b -> bitset_wf XFW_SUPPORTED_PROTOCOL_MAX b
  | TcpSyncookieSection f p => u32_opt f /\ u32_opt p
  | _ => True
  end.

(** The indices of the defaults that were read are in the set of those present. *)
Definition within (flags presence : list Z) : Prop :=
  forall i, default_index i -> BitSet_test i flags = true -> BitSet_test i presence = true.
Record heap_ok (h : Heap) : Prop := mkHeapOk {
  ho_xfw : conf_ok false (h_xfw h);
  ho_conf x : xfw_conf (h_conf h) = Some x -> conf_ok false x;
  ho_presence : bitset_wf XFW_DEFAULT_MAX (h_presence h);
  ho_defaults : defaults_ok (h_defaults h);
  ho_within : Forall (fun d => within (cd_flags d) (h_presence h)) (h_defaults h)
}.

(** The indices of an open default section are present and of no other default. *)
Record held (flags : list Z) (h : Heap) : Prop := mkHeld {
  he_wf : bitset_wf XFW_DEFAULT_MAX flags;
  he_within : within flags (h_presence h);
  he_disjoint : Forall (fun d => disjoint_flags (cd_flags d) flags) (h_defaults h)
}.
Definition coupled (m : Members) (h : Heap) : Prop :=
  match m with
  | TcpIpDefaultSection _ flags | IpProtoDefaultSection _ flags => held flags h
  | _ => True
  end.

Record good (s : Sec * Heap) : Prop := mkGood {
  gd_members : members_ok (members_ s.1);
  gd_heap : heap_ok s.2;
  gd_coupled : coupled (members_ s.1) s.2
}.

(** The object is of the same class and in the same state. *)
Record kept (o o' : Sec) : Prop := mkKept {
  kp_state : state_ o' = state_ o;
  kp_action : has_action_processor (members_ o') = has_action_processor (members_ o);
  kp_edit : has_edit_processor (members_ o') = has_edit_processor (members_ o)
}.

Lemma kept_refl o : kept o o.
Proof. done. Qed.

(** After a function that may have consumed something. *)
Definition attr_post (o : Sec) (b : bool) (s' : Sec * Heap) : Prop :=
  good s' /\ kept o s'.1 /\ if b then (length (lof s'.1) < length (lof o))%nat else s'.1 = o.

Ltac cstep := lazymatch goal with
  | |- cwp (mret _) _ _ => apply cwp_ret
  | |- cwp (_ ≫= _) _ _ => apply cwp_bind
  | |- cwp (line (peek_until _)) _ (_, _) => apply cwp_line_peek_until
  | |- cwp (line peek_until_delimeters) _ (_, _) => apply cwp_line_peek_until
  | |- cwp (line peek) _ (_, _) => apply cwp_line_peek
  | |- cwp (line is_empty) _ (_, _) => apply cwp_line_is_empty
  | |- cwp (line (consume _)) _ (_, _) => apply cwp_line, cwp_consume; [|intros ? ?]
  | |- cwp (line _) _ (_, _) => apply cwp_line
  | |- cwp this _ _ => apply cwp_this
  | |- cwp heap _ _ => apply cwp_heap
  | |- cwp (set_heap _) _ _ => apply cwp_set_heap
  | |- cwp (modify_xfw _) _ _ => apply cwp_modify_xfw
  | |- cwp (set_members _) _ _ => apply cwp_modify_this
  | |- cwp (set_state _) _ _ => apply cwp_modify_this
  | |- cwp (set_alias _) _ _ => apply cwp_modify_this
  | |- cwp (set_action _) _ _ => apply cwp_set_action
  | |- cwp (set_edit_type _) _ _ => apply cwp_set_edit
  | |- cwp (default_alias _) _ _ => apply cwp_default_alias; intros ?
  | |- cwp peek _ _ => apply cwp_peek
  | |- cwp is_empty _ _ => apply cwp_is_empty
  | |- cwp (peek_until _) _ _ => apply cwp_peek_until
  | |- cwp peek_until_delimeters _ _ => apply cwp_peek_until
  | |- cwp (consume_until _) _ _ => apply cwp_consume_until; intros ? ?
  | |- cwp consume_until_delimeters _ _ => apply cwp_consume_until; intros ? ?
  | |- cwp skip_spaces _ _ => apply cwp_skip_spaces; intros ? ?
  | |- cwp (cthrow _) _ _ => apply cwp_throw; done
  | |- cwp (cverify _ _) _ _ => apply cwp_verify; [done|done|intros ?]
  end; cbv beta; cbn [fst snd].

Lemma text_eqb_true a b : text_eqb a b = true -> a = b.
Proof. apply bool_decide_eq_true_1. Qed.

(** A word that was recognised is on the line. *)
Lemma word_length ts l w n : until ts l = w -> length w = n -> (n <= length l)%nat.
Proof. intros <- <-. apply until_length. Qed.

Ltac attrs := unfold NetRuleAttr_IPV6, NetRuleAttr_TCP, NetRuleAttr_SRC, NetRuleAttr_ALLOW,
  NetRuleAttr_REPLACE, NetRuleAttr_DELETE, NetRuleAttr_PROTECTED_NET, IcmpRuleAttr_IPV6,
  IcmpRuleAttr_ALLOW, IcmpRuleAttr_REPLACE, IcmpRuleAttr_DELETE in *; lia.

Lemma cn_test_set f g r : 0 <= f <= 7 -> 0 <= g <= 7 -> bitset_wf NetRuleAttr_MAX_BIT (cn_flags r) ->
  cn_test f (cn_set g r) = (f =? g) || cn_test f r.
Proof.
  intros Hf Hg [Hl _]. unfold cn_test, cn_set, set_cn_flags. cbn [cn_flags].
  apply BitSet_test_set; [lia|lia|]. rewrite Hl. change (ByteCount NetRuleAttr_MAX_BIT) with 1%nat. dlia.
Qed.

Lemma cli_rule_set g r : cli_rule_ok r -> cli_rule_ok (cn_set g r).
Proof. intros [Hf H4 H6 Hn Hp]. split; cbn; try done. by apply BitSet_set_wf. Qed.

(** Attributes other than the kind and the edit action. *)
Lemma open_rule_set kind g r : 0 <= g <= 1 \/ g = 3 -> open_rule_ok kind r -> open_rule_ok kind (cn_set g r).
Proof.
  intros Hg [Hr Hs Hp Hre Hd]. pose proof (cr_flags r Hr) as Hf.
  split; [by apply cli_rule_set|..]; rewrite cn_test_set by (done || attrs);
    rewrite (proj2 (Z.eqb_neq _ _)) by attrs; done.
Qed.

Lemma set_proto_ok kind proto r : open_rule_ok kind r -> rok (set_proto proto r) (open_rule_ok kind).
Proof.
  intros Hr. unfold set_proto.
  repeat (destruct (text_eqb proto _); [cbn [rsat]; repeat (apply open_rule_set; [attrs|]); done|]).
  done.
Qed.

(** *** Attributes *)

Section attributes.
Implicit Types (o : Sec) (h : Heap).

(** Nothing was recognised. *)
Lemma attr_false o h : good (o, h) -> attr_post o false (o, h).
Proof. intros Hg. split; [done|]. split; [apply kept_refl|done]. Qed.

(** The members have changed, and a word has been consumed. *)
Lemma attr_true o o' h :
  good (o', h) -> kept o o' -> (length (lof o') < length (lof o))%nat -> attr_post o true (o', h).
Proof. intros Hg Hk Hl. by split; [|split]. Qed.

Lemma drop_shorter n (l l' : text) : l' = drop n l -> (0 < n <= length l)%nat -> (length l' < length l)%nat.
Proof. intros -> Hn. rewrite length_drop. lia. Qed.

Lemma starts_with_ip_length name : starts_with_ip name = true -> (2 <= length name)%nat.
Proof.
  intros Hn%text_eqb_true. apply (f_equal length) in Hn. rewrite length_take in Hn.
  change (length (T "ip")) with 2%nat in Hn. lia.
Qed.

Lemma net_attributes_ok kind nr hp o h :
  members_ o = NetRuleSection kind nr hp -> good (o, h) -> cwp (net_attributes kind nr) (attr_post o) (o, h).
Proof.
  intros Hm Hg. pose proof Hg as [Hr Hh _]. cbn [fst snd] in Hr, Hh. rewrite Hm in Hr. unfold net_attributes.
  do 2 cstep. set (name := until _ (lof o)).
  destruct (starts_with_ip name) eqn:Hn; [|by apply cwp_ret, attr_false].
  cstep. apply cwp_pure. eapply rsat_mono; [by apply set_proto_ok|]. cbv beta. intros nr' Hr'.
  do 6 cstep; [apply until_length|]. cstep.
  apply attr_true; [by split|by split; cbn; rewrite ?Hm|].
  eapply drop_shorter; [eassumption|]. apply starts_with_ip_length in Hn.
  split; [lia|apply until_length].
Qed.

(** A word of the grammar was found at the start of the line. *)
Lemma word_found ts l w : text_eqb (until ts l) (T w) = true -> T w <> [] ->
  (0 < length (until ts l) <= length l)%nat.
Proof.
  intros Hw%text_eqb_true Hn. split; [|apply until_length]. rewrite Hw. destruct (T w); [done|cbn; lia].
Qed.

(** A function that consumes the word it has found and changes the members. *)
Lemma attr_word o o' h ts w c :
  text_eqb (until ts (lof o)) (T w) = true -> T w <> [] ->
  good (with_base c o', h) -> kept o o' ->
  line_ c = drop (length (until ts (lof o))) (lof o) -> attr_post o true (with_base c o', h).
Proof.
  intros Hw Hn Hg Hk Hc. apply attr_true; [done|by destruct Hk|].
  eapply drop_shorter; [exact Hc|]. by eapply word_found.
Qed.

Lemma protected_attributes_ok nr hp o h :
  members_ o = NetRuleSection ProtectedNetSection nr hp -> good (o, h) ->
  cwp (protected_attributes nr) (attr_post o) (o, h).
Proof.
  intros Hm Hg. pose proof Hg as [Hr Hh _]. cbn [fst snd] in Hr, Hh. rewrite Hm in Hr.
  unfold protected_attributes. do 2 cstep.
  destruct (text_eqb _ (T "ip6")) eqn:H6; [|destruct (text_eqb _ (T "ip4")) eqn:H4];
    [..|by apply cwp_ret, attr_false];
    (do 6 cstep; [apply until_length|]; cstep;
     eapply attr_word; [eassumption|done| |by split; cbn; rewrite ?Hm|eassumption]; split; [|done|done]).
  - apply open_rule_set; [attrs|done].
  - done.
Qed.

Lemma icmp_test_set f g r : 0 <= f <= 4 -> 0 <= g <= 4 -> bitset_wf IcmpRuleAttr_MAX_BIT (ci_flags r) ->
  BitSet_test f (ci_flags (ci_set g r)) = (f =? g) || BitSet_test f (ci_flags r).
Proof.
  intros Hf Hg [Hl _]. apply BitSet_test_set; [lia|lia|]. rewrite Hl.
  change (ByteCount IcmpRuleAttr_MAX_BIT) with 1%nat. dlia.
Qed.

Lemma cli_icmp_set g r : cli_icmp_ok r -> cli_icmp_ok (ci_set g r).
Proof. intros [Hf Ht]. split; [|done]. by apply BitSet_set_wf. Qed.

Lemma icmp_set_proto_ok proto r :
  members_ok (IcmpSection r) -> rok (icmp_set_proto proto r) (fun r' => members_ok (IcmpSection r')).
Proof.
  intros (Hr & H1 & H2). unfold icmp_set_proto. destruct (text_eqb proto _).
  - cbn [rsat members_ok]. pose proof (cio_flags r Hr) as Hf.
    split; [by apply cli_icmp_set|]. rewrite !icmp_test_set by (done || attrs). by rewrite H1, H2.
  - by destruct (text_eqb proto _).
Qed.

Lemma icmp_attributes_ok r o h :
  members_ o = IcmpSection r -> good (o, h) -> cwp (icmp_attributes r) (attr_post o) (o, h).
Proof.
  intros Hm Hg. pose proof Hg as [Hr Hh _]. cbn [fst snd] in Hr, Hh. rewrite Hm in Hr.
  unfold icmp_attributes. do 2 cstep. case_bool_decide; [by apply cwp_ret, attr_false|].
  destruct (starts_with_ip _) eqn:Hn; [|by apply cwp_ret, attr_false].
  cstep. apply cwp_pure. eapply rsat_mono; [by apply icmp_set_proto_ok|]. cbv beta. intros r' Hr'.
  do 6 cstep; [apply until_length|]. cstep.
  apply attr_true; [by split|by split; cbn; rewrite ?Hm|].
  eapply drop_shorter; [eassumption|]. apply starts_with_ip_length in Hn.
  split; [lia|apply until_length].
Qed.

Lemma tcp_flag_attributes_ok f o h :
  members_ o = TcpFlagSection f -> good (o, h) -> cwp (tcp_flag_attributes f) (attr_post o) (o, h).
Proof.
  intros Hm Hg. pose proof Hg as [_ Hh _]. cbn [fst snd] in Hh.
  unfold tcp_flag_attributes. do 2 cstep. cbv zeta.
  destruct (text_eqb _ (T "syn")) eqn:H1; [|destruct (text_eqb _ (T "rst")) eqn:H2];
    [..|by apply cwp_ret, attr_false];
    (do 6 cstep; [apply until_length|]; cstep;
     eapply attr_word; [eassumption|done|by split|by split; cbn; rewrite ?Hm|eassumption]).
Qed.

(** [consume_typed_assignment] of a word that was found. *)
Lemma cwp_line_typed w ts word (Q : Z -> Sec * Heap -> Prop) o h :
  text_eqb (until ts (lof o)) (T word) = true ->
  (forall v c, 0 <= v < 2 ^ w -> (length (line_ c) < length (lof o))%nat -> Q v (with_base c o, h)) ->
  cwp (line (consume_typed_assignment w (until ts (lof o)))) Q (o, h).
Proof.
  intros Hw HQ. apply cwp_line, cwp_typed_assignment; [apply until_prefix|].
  intros v c Hv Hc. apply HQ; [done|]. unfold lof in *. lia.
Qed.

Lemma syncookie_attributes_ok f p o h :
  members_ o = TcpSyncookieSection f p -> good (o, h) -> cwp (syncookie_attributes f p) (attr_post o) (o, h).
Proof.
  intros Hm Hg. pose proof Hg as [Hr Hh _]. cbn [fst snd] in Hr, Hh. rewrite Hm in Hr. destruct Hr as [Hf Hp].
  unfold syncookie_attributes. do 2 cstep.
  destruct (text_eqb _ (T "passive_timer")) eqn:H1; [|destruct (text_eqb _ (T "flood_timer")) eqn:H2];
    [..|by apply cwp_ret, attr_false];
    (cstep; eapply cwp_line_typed; [eassumption|]; intros v c Hv Hc; do 3 cstep;
     apply attr_true; [|by split; cbn; rewrite ?Hm|done]; split; cbn; [|done|done];
     split; try done; by intros ? [= <-]).
Qed.

Lemma ratelimit_attributes_ok rl o h :
  members_ o = RatelimitSection rl -> good (o, h) -> cwp (ratelimit_attributes rl) (attr_post o) (o, h).
Proof.
  intros Hm Hg. pose proof Hg as [Hr Hh _]. cbn [fst snd] in Hr, Hh. rewrite Hm in Hr. destruct Hr as [Hf Hp Hb].
  unfold ratelimit_attributes. do 2 cstep.
  destruct (text_eqb _ (T "bps")) eqn:H1; [|destruct (text_eqb _ (T "pps")) eqn:H2];
    [..|by apply cwp_ret, attr_false];
    (cstep; eapply cwp_line_typed; [eassumption|]; intros v c Hv Hc; do 3 cstep;
     apply attr_true; [|by split; cbn; rewrite ?Hm|done]; split; cbn; [|done|done];
     split; cbn; try done; by intros ? [= <-]).
Qed.

(** *** Combinations of TCP flags *)

Definition front (l : text) : ascii := match l with [] => nul | a :: _ => a end.

Lemma front_length l ch : char_eqb (front l) ch = true -> ch <> nul -> (0 < length l)%nat.
Proof.
  intros He%bool_decide_eq_true_1 Hn. destruct l; cbn in *; [congruence|lia].
Qed.

Lemma tcp_flag_to_bit_ok t : rok (tcp_flag_to_bit t) (fun _ => t <> []).
Proof.
  unfold tcp_flag_to_bit.
  repeat (destruct (text_eqb t _) eqn:Ht; [apply text_eqb_true in Ht as ->; done|clear Ht]). done.
Qed.

Lemma save_combination_ok b a : anomaly_ok a -> anomaly_ok (save_tcp_flags_combination b a).
Proof.
  intros [Hf Hb Hs]. split; cbn; [done| |done]. intros f [= <-]. apply BitSet_set_wf.
  destruct (ta_bad_tcp_flags a); cbn; [by apply Hb|apply BitSet_empty_wf].
Qed.

Lemma tcp_flags_loop_ok n comb a c : (length (line_ c) < n)%nat -> anomaly_ok a ->
  cwp (tcp_flags_loop n comb a) (fun a' c' => anomaly_ok a' /\ (length (line_ c') <= length (line_ c))%nat) c.
Proof.
  revert comb a c. induction n as [|n IH]; intros comb a c Hl Ha; [lia|]. cbn [tcp_flags_loop].
  do 2 cstep. case_bool_decide as He; [by cstep|]. do 2 cstep. do 2 cstep. fold (front (line_ c')).
  assert (Hc1 : (length (line_ c') <= length (line_ c))%nat) by (rewrite H, length_drop; lia).
  destruct (char_eqb _ ")"%char) eqn:Hp.
  { cstep. apply cwp_consume; [by apply front_length in Hp|]. intros c2 H2. cstep. split.
    - destruct comb; [by apply save_combination_ok|done].
    - rewrite H2, length_drop. lia. }
  do 2 cstep. cstep. apply cwp_pure. eapply rsat_mono; [apply tcp_flag_to_bit_ok|]. cbv beta. intros bit Hbit.
  assert (Hc2 : (length (line_ c'0) < length (line_ c'))%nat).
  { rewrite H0, length_drop. pose proof (until_length (spaces ++ T "+,)") (line_ c')).
    destruct (until _ _); [done|cbn in *; lia]. }
  do 2 cstep. do 2 cstep. fold (front (line_ c'1)).
  assert (Hc3 : (length (line_ c'1) <= length (line_ c'0))%nat) by (rewrite H1, length_drop; lia).
  assert (Hgo : forall comb' a' c3, anomaly_ok a' -> (length (line_ c3) <= length (line_ c'1))%nat ->
    cwp (tcp_flags_loop n comb' a')
      (fun a' c' => anomaly_ok a' /\ (length (line_ c') <= length (line_ c))%nat) c3).
  { intros comb' a' c3 Ha' H3. eapply cwp_mono; [apply IH; [lia|done]|]. cbv beta. intros a2 c4 [??].
    split; [done|lia]. }
  destruct (char_eqb _ "+"%char) eqn:Hplus; [|destruct (char_eqb _ ","%char) eqn:Hcomma].
  - cstep. apply cwp_consume; [by apply front_length in Hplus|]. intros c3 H3.
    apply Hgo; [done|]. rewrite H3, length_drop. lia.
  - cstep. apply cwp_consume; [by apply front_length in Hcomma|]. intros c3 H3.
    apply Hgo; [by apply save_combination_ok|]. rewrite H3, length_drop. lia.
  - by apply Hgo.
Qed.

Lemma consume_tcp_flags_ok a c : char_eqb (front (line_ c)) "("%char = true -> anomaly_ok a ->
  cwp (consume_tcp_flags a) (fun a' c' => anomaly_ok a' /\ (length (line_ c') < length (line_ c))%nat) c.
Proof.
  intros Hp Ha. apply front_length in Hp; [|done]. unfold consume_tcp_flags. cstep.
  apply cwp_consume; [lia|]. intros c1 H1. cstep. unfold cwp at 1, cget.
  eapply cwp_mono; [apply tcp_flags_loop_ok; [lia|done]|]. cbv beta. intros a' c2 [Ha2 H2].
  split; [done|]. rewrite H1, length_drop in H2. lia.
Qed.

Lemma set_features_ok f a : anomaly_ok a -> anomaly_ok (set_features f a).
Proof. intros [Hf Hb Hs]. split; cbn; [by apply BitSet_set_wf|done|done]. Qed.

Lemma anomaly_attributes_ok a o h :
  members_ o = TcpAnomalySection a -> good (o, h) -> cwp (anomaly_attributes a) (attr_post o) (o, h).
Proof.
  intros Hm Hg. pose proof Hg as [Ha Hh _]. cbn [fst snd] in Ha, Hh. rewrite Hm in Ha. cbn in Ha.
  unfold anomaly_attributes. do 2 cstep. cbv zeta.
  destruct (text_eqb _ (T "syn_without_opt")) eqn:H1;
    [|destruct (text_eqb _ (T "syn_with_payload")) eqn:H2;
      [|destruct (text_eqb _ (T "syn_with_seqno")) eqn:H3;
        [|destruct (text_eqb _ (T "bad_flags")) eqn:H4; [|by apply cwp_ret, attr_false]]]].
  1,2: (do 4 cstep; [apply until_length|]; cstep;
     eapply attr_word; [eassumption|done| |by split; cbn; rewrite ?Hm|eassumption];
     split; [by apply set_features_ok|done|done]).
  - cstep. eapply cwp_line_typed; [eassumption|]. intros v c Hv Hc. do 3 cstep.
    apply attr_true; [|by split; cbn; rewrite ?Hm|done]. split; cbn; [|done|done].
    destruct (set_features_ok XFW_SYN_WITH_SEQ_NO a Ha) as [Hf Hb _]. by split.
  - pose proof (word_found _ _ _ H4 ltac:(done)) as Hw.
    do 4 cstep; [apply until_length|]. do 3 cstep. do 2 cstep. unfold lof. cbn [base_ with_base].
    fold (front (line_ c'0)).
    assert (Hc : (length (line_ c'0) < length (lof o))%nat).
    { eapply Nat.le_lt_trans; [|apply (drop_shorter _ _ _ H Hw)].
      cbn in H0. rewrite H0, length_drop. lia. }
    destruct (char_eqb _ "("%char) eqn:Hp.
    + cstep. cstep. eapply cwp_mono; [apply consume_tcp_flags_ok; [done|by apply set_features_ok]|].
      cbv beta. intros a' c2 [Ha' Hc2]. do 3 cstep.
      apply attr_true; [|by split; cbn; rewrite ?Hm|unfold lof in *; cbn in *; lia].
      split; cbn; [done|done|done].
    + cstep. apply attr_true; [|by split; cbn; rewrite ?Hm|done].
      split; [by apply set_features_ok|done|done].
Qed.

(** *** Indices of the defaults *)

Lemma default_test_set i j flags : bitset_wf XFW_DEFAULT_MAX flags -> default_index i -> default_index j ->
  BitSet_test j (BitSet_set i flags) = (j =? i) || BitSet_test j flags.
Proof.
  intros [Hl _] Hi Hj. unfold default_index in *. apply BitSet_test_set; [lia|lia|]. rewrite Hl.
  change (ByteCount XFW_DEFAULT_MAX) with 2%nat. dlia.
Qed.

Lemma get_index_range type tp ipv : 0 <= tp <= 1 -> 0 <= ipv <= 1 -> default_index (get_index type tp ipv).
Proof.
  intros Ht Hv. assert (tp = 0 \/ tp = 1) as [-> | ->] by lia;
    assert (ipv = 0 \/ ipv = 1) as [-> | ->] by lia; destruct type; by split.
Qed.

Lemma cwp_set_flag i flags (Q : list Z -> Sec * Heap -> Prop) o h :
  default_index i -> heap_ok h -> held flags h ->
  (forall flags' h', heap_ok h' -> held flags' h' -> Q flags' (o, h')) ->
  cwp (set_flag i flags) Q (o, h).
Proof.
  intros Hi [Hx Hc Hp Hd Hw] [Hf Hfp Hfd] HQ. unfold set_flag, set_presence_or_throw. do 6 cstep.
  apply negb_true_iff in H.
  assert (Hmono : forall d, within d (h_presence h) -> within d (BitSet_set i (h_presence h))).
  { intros d Hdw j Hj Ht. rewrite default_test_set by done. rewrite (Hdw j Hj Ht). apply orb_true_r. }
  apply HQ; split; cbn; try done.
  - by apply BitSet_set_wf.
  - eapply Forall_impl; [exact Hw|]. cbv beta. auto.
  - by apply BitSet_set_wf.
  - intros j Hj. rewrite !default_test_set by done. intros [->|Ht]%orb_prop; [done|].
    rewrite (Hfp j Hj Ht). apply orb_true_r.
  - rewrite list.Forall_forall in Hw, Hfd |- *. intros d Hin j Hj Ht.
    rewrite default_test_set by done. rewrite (Hfd d Hin j Hj Ht), orb_false_r.
    apply Z.eqb_neq. intros ->. rewrite (Hw d Hin i Hj Ht) in H. done.
Qed.

Lemma tcp_ip_version_ok type flags ipv o o0 h : 0 <= ipv <= 1 ->
  members_ o = TcpIpDefaultSection type flags -> good (o, h) -> kept o0 o ->
  (length (lof o) < length (lof o0))%nat -> cwp (tcp_ip_version type flags ipv) (attr_post o0) (o, h).
Proof.
  intros Hv Hm Hg Hk Hl. pose proof Hg as [_ Hh Hc]. cbn [fst snd] in Hh, Hc. rewrite Hm in Hc. cbn in Hc.
  destruct Hk as [Hk1 Hk2 Hk3]. rewrite Hm in Hk2, Hk3.
  assert (Hend : forall flags' h' c, heap_ok h' -> held flags' h' -> (length (line_ c) <= length (lof o))%nat ->
    attr_post o0 true (with_members (TcpIpDefaultSection type flags') (with_base c o), h')).
  { intros flags' h' c Hh' Hc' Hle. apply attr_true; [by split|by split|]. unfold lof in *. cbn. lia. }
  unfold tcp_ip_version. do 2 cstep. fold (front (lof o)).
  destruct (char_eqb _ "."%char) eqn:Hp.
  - do 2 cstep; [by apply front_length in Hp|]. do 3 cstep.
    assert (length (line_ c'0) <= length (lof o))%nat.
    { rewrite H0, length_drop. cbn. rewrite H, length_drop. unfold lof. lia. }
    destruct (text_eqb _ (T "tcp")); [|destruct (text_eqb _ (T "udp")); [|cstep]].
    all: cstep; apply cwp_set_flag; [by apply get_index_range|done..|].
    all: intros flags' h' Hh' Hc'; do 3 cstep; by apply Hend.
  - cstep. apply cwp_set_flag; [by apply get_index_range|done..|]. intros f1 h1 Hh1 Hc1.
    cstep. apply cwp_set_flag; [by apply get_index_range|done..|]. intros f2 h2 Hh2 Hc2.
    do 3 cstep. rewrite <- (with_base_id o). by apply Hend.
Qed.

Lemma tcp_ip_default_attributes_ok type flags o h :
  members_ o = TcpIpDefaultSection type flags -> good (o, h) ->
  cwp (tcp_ip_default_attributes type flags) (attr_post o) (o, h).
Proof.
  intros Hm Hg. unfold tcp_ip_default_attributes. do 2 cstep.
  destruct (text_eqb _ (T "ip4")) eqn:H4; [|destruct (text_eqb _ (T "ip6")) eqn:H6];
    [..|by apply cwp_ret, attr_false].
  all: do 2 cstep; [apply until_length|].
  all: apply tcp_ip_version_ok; [unfold IPV_IP4, IPV_IP6; lia|done|by destruct Hg|done|].
  all: eapply drop_shorter; [exact H|]; by eapply word_found.
Qed.

Lemma ip_proto_default_attributes_ok type flags o h :
  members_ o = IpProtoDefaultSection type flags -> good (o, h) ->
  cwp (ip_proto_default_attributes type flags) (attr_post o) (o, h).
Proof.
  intros Hm Hg. pose proof Hg as [_ Hh Hc]. cbn [fst snd] in Hh, Hc. rewrite Hm in Hc.
  unfold ip_proto_default_attributes. do 2 cstep. cbv zeta.
  destruct (text_eqb _ (T "ip4")) eqn:H4; [|destruct (text_eqb _ (T "ip6")) eqn:H6];
    [..|by apply cwp_ret, attr_false].
  all: do 2 cstep; [apply until_length|]; cstep.
  all: apply cwp_set_flag; [apply get_index_range; unfold TP_NONE, IPV_IP4, IPV_IP6; lia|done..|].
  all: intros flags' h' Hh' Hc'; do 3 cstep.
  all: apply attr_true; [by split|by split; cbn; rewrite ?Hm|].
  all: eapply drop_shorter; [exact H|]; by eapply word_found.
Qed.

Lemma process_attributes_ok o h : good (o, h) -> cwp process_attributes (attr_post o) (o, h).
Proof.
  intros Hg. unfold process_attributes. do 2 cstep. destruct (members_ o) eqn:Hm; try (cstep; fail).
  all: try by apply cwp_throw.
  - destruct kind; eauto using net_attributes_ok, protected_attributes_ok.
  - by apply icmp_attributes_ok.
  - by apply tcp_flag_attributes_ok.
  - by apply syncookie_attributes_ok.
  - by apply ratelimit_attributes_ok.
  - by apply anomaly_attributes_ok.
  - by apply tcp_ip_default_attributes_ok.
  - by apply ip_proto_default_attributes_ok.
Qed.

(** *** The action and the edit action *)

Lemma action_process_ok o h : good (o, h) -> cwp action_process (attr_post o) (o, h).
Proof.
  intros Hg. unfold action_process. do 2 cstep.
  destruct (text_eqb _ (T "allow")) eqn:H1;
    [|destruct (text_eqb _ (T "block")) eqn:H2; [|destruct (text_eqb _ (T "ratelimit")) eqn:H3]];
    [..|by apply cwp_ret, attr_false].
  1,2: do 4 cstep; [apply until_length|]; cstep;
    (eapply attr_word; [eassumption|done|by destruct Hg|by destruct o|eassumption]).
  cstep. apply cwp_line, cwp_consume_assignment; [apply until_prefix|]. intros v c Hc. do 3 cstep.
  apply attr_true; [by destruct Hg|by destruct o|]. unfold lof in *. cbn. lia.
Qed.

Lemma edit_process_ok o h : good (o, h) -> cwp edit_process (attr_post o) (o, h).
Proof.
  intros Hg. unfold edit_process. do 2 cstep.
  destruct (text_eqb _ (T "/add")) eqn:H1;
    [|destruct (text_eqb _ (T "/del")) eqn:H2; [|destruct (text_eqb _ (T "/replace")) eqn:H3]];
    [..|by apply cwp_ret, attr_false].
  all: do 4 cstep; [apply until_length|]; cstep;
    (eapply attr_word; [eassumption|done|by destruct Hg|by destruct o|eassumption]).
Qed.
End attributes.
