(* ===== verification/CliBodies.v ===== *)
(** * CliBodies: the bodies of the sections and their end

    The functions [process_body] and [commit] of every class ([Cli]) keep the
    invariant of the parser: they never fail an assertion, a body that was
    recognised has been consumed or has opened a section whose name is on the
    line, and what is committed is well formed. *)

From S2P Require Import Prelude.
From S2P Require Import Enums.
From S2P Require Import Uapi.
From S2P Require Import Bitset.
From S2P Require Import AnomalyFlags.
From S2P Require Import ConfigUpdater.
From S2P Require Import LineConsumer.
From S2P Require Import Tcl.
From S2P Require Import Cli.
From S2P Require Import CliSpec.

Open Scope Z_scope.

(** A section that opens others. *)
Definition is_parent (m : Members) : Prop := m = XfwSection \/ m = DefaultsSection.

Definition body_post (o : Sec) (r : Body) (s' : Sec * Heap) : Prop :=
  good s' /\ kept o s'.1 /\
  match r with
  | NotMine => (length (lof s'.1) <= length (lof o))%nat
  | Mine => (length (lof s'.1) < length (lof o))%nat
  | Child s => lof s'.1 = lof o /\ is_parent (members_ s'.1) /\ state_ s = Start
      /\ good (s, s'.2) /\ take (length (name_ (members_ s))) (lof o) = name_ (members_ s)
  end.

Section bodies.
Context `{BoostIpSpec}.
Implicit Types (o : Sec) (h : Heap).

(** Reading changes the line of an object only. *)
Lemma good_base c o h : good (o, h) -> good (with_base c o, h).
Proof. by intros []. Qed.

Lemma kept_base c o o' : kept o o' -> kept o (with_base c o').
Proof. by intros []. Qed.

(** *** The text of another program *)

Lemma generic_loop_ok n bcnt (c : LineConsumer) : (n <= length (line_ c))%nat ->
  cwp (generic_loop n bcnt) (fun (r : bool * Z) c' => (length (line_ c') <= length (line_ c))%nat
    /\ (r.1 = true -> (length (line_ c') + n = length (line_ c))%nat)) c.
Proof.
  revert bcnt c. induction n as [|n IH]; intros bcnt c Hn; cbn [generic_loop].
  - apply cwp_ret. cbn. split; [lia|]. lia.
  - do 2 cstep. cbv zeta. destruct (_ && _).
    { apply cwp_ret. cbn. split; [lia|done]. }
    cstep. apply cwp_consume; [lia|]. intros c1 H1.
    eapply cwp_mono; [apply IH; rewrite H1, length_drop; lia|]. cbv beta. intros r c2 [Ha Hb].
    rewrite H1, length_drop in Ha, Hb. split; [lia|]. intros Hr. specialize (Hb Hr). lia.
Qed.

Lemma generic_body_ok mk bcnt o h :
  (forall n, has_action_processor (mk n) = has_action_processor (members_ o)
    /\ has_edit_processor (mk n) = has_edit_processor (members_ o) /\ members_ok (mk n) /\ coupled (mk n) h) ->
  state_ o = ProcessingBody -> lof o <> [] -> good (o, h) ->
  cwp (generic_body mk bcnt) (body_post o) (o, h).
Proof.
  intros Hmk Hst Hne [Hm Hh Hc]. cbn [fst snd] in Hh. unfold generic_body. do 3 cstep.
  apply cwp_asserted; [by apply bool_decide_eq_true_2|]. cstep. apply cwp_line. cstep.
  unfold cwp at 1, cget. eapply cwp_mono; [by apply generic_loop_ok|]. cbv beta. intros [b n] c [Ha Hb].
  do 3 cstep. destruct (Hmk n) as (M1 & M2 & M3 & M4).
  split; [by split|]. split; [by split|]. cbn [fst snd] in *. destruct b; [|done].
  specialize (Hb eq_refl). unfold lof in *. cbn in *. destruct (line_ (base_ o)); [done|cbn in *; lia].
Qed.

(** *** Sections in sections *)

Lemma child_ok ts w (m : Members) o h :
  text_eqb (until ts (lof o)) (T w) = true -> name_ m = T w -> is_parent (members_ o) ->
  members_ok m -> coupled m h -> good (o, h) -> cwp (open_child m) (body_post o) (o, h).
Proof.
  intros Hw%text_eqb_true Hn Hp Hm Hc Hg. apply cwp_ret. pose proof Hg as [_ Hh _].
  split; [done|]. split; [done|]. cbn [fst snd members_ new_sec state_].
  split; [done|]. split; [done|]. split; [done|]. split; [by split|].
  rewrite Hn, <- Hw. apply until_prefix.
Qed.

Lemma not_mine o h : good (o, h) -> body_post o NotMine (o, h).
Proof. by split. Qed.

Lemma init_rule_ok : cli_rule_ok (NetRule_init None).
Proof. split; cbn; [apply BitSet_empty_wf|constructor..]. Qed.

Lemma open_rule_init kind flag :
  flag = match kind with SrcSection => Some NetRuleAttr_SRC | DstSection => None
         | ProtectedNetSection => Some NetRuleAttr_PROTECTED_NET end ->
  open_rule_ok kind (NetRule_init flag).
Proof.
  intros ->. split; [|by destruct kind..].
  destruct kind; [apply (cli_rule_set _ _ init_rule_ok)|apply init_rule_ok|apply (cli_rule_set _ _ init_rule_ok)].
Qed.

Lemma anomaly_init_ok : anomaly_ok TcpAnomalyRule_init.
Proof. split; cbn; [apply BitSet_empty_wf|done|lia]. Qed.

Lemma heap_reset h : heap_ok h ->
  heap_ok (mkHeap (h_conf h) (h_xfw h) [] (BitSet_empty XFW_DEFAULT_MAX)).
Proof.
  intros [Hx Hc Hp Hd Hw]. split; [done|done|apply BitSet_empty_wf|by split; constructor|constructor].
Qed.

Lemma xfw_body_ok o h : members_ o = XfwSection -> good (o, h) -> cwp xfw_body (body_post o) (o, h).
Proof.
  intros Hm Hg. unfold xfw_body. do 2 cstep. cbv zeta.
  assert (Hp : is_parent (members_ o)) by by left.
  repeat match goal with
  | |- cwp (if ?b then _ else _) _ _ => destruct b eqn:?
  | |- cwp (mret NotMine) _ _ => by apply cwp_ret, not_mine
  | |- cwp (open_child _) _ _ => eapply child_ok; [eassumption|reflexivity|done| |done|done]
  end.
  - by apply open_rule_init.
  - by apply open_rule_init.
  - split; cbn; [apply BitSet_empty_wf|done|done].
  - done.
  - done.
  - apply anomaly_init_ok.
  - done.
  - done.
  - by split.
  - by apply open_rule_init.
  - split; [split; cbn; [apply BitSet_empty_wf|constructor]|done].
  - unfold open_defaults. do 4 cstep. eapply cwp_mono.
    + eapply child_ok; [eassumption|reflexivity|done|done|done|].
      destruct Hg as [? Hh ?]. split; [done|by apply heap_reset|]. cbn. by rewrite Hm.
    + done.
  - done.
Qed.

Lemma defaults_body_ok o h : members_ o = DefaultsSection -> good (o, h) -> cwp defaults_body (body_post o) (o, h).
Proof.
  intros Hm Hg. unfold defaults_body. do 2 cstep. cbv zeta.
  assert (Hp : is_parent (members_ o)) by by right.
  assert (Hheld : held (BitSet_empty XFW_DEFAULT_MAX) h).
  { split; [apply BitSet_empty_wf|intros i _; by rewrite BitSet_test_empty|].
    apply list.Forall_forall. intros d _ i _ _. apply BitSet_test_empty. }
  repeat match goal with
  | |- cwp (if ?b then _ else _) _ _ => destruct b eqn:?
  | |- cwp (mret NotMine) _ _ => by apply cwp_ret, not_mine
  | |- cwp (open_child _) _ _ => eapply child_ok; [eassumption|reflexivity|done|done|done|done]
  end.
Qed.

(** *** Lists of matchers *)

Lemma cwp_skip_comma (Q : unit -> Sec * Heap -> Prop) o h :
  (forall c, (length (line_ c) <= length (lof o))%nat -> Q tt (with_base c o, h)) ->
  cwp skip_comma Q (o, h).
Proof.
  intros HQ. unfold skip_comma. do 2 cstep. fold (front (lof o)).
  destruct (char_eqb _ ","%char) eqn:Hc.
  - cstep; [by apply front_length in Hc|]. apply HQ. rewrite H1, length_drop. unfold lof. lia.
  - cstep. rewrite <- (with_base_id o). by apply HQ.
Qed.

Lemma cwp_interval_end (Q : text -> Sec * Heap -> Prop) o h :
  (forall t c, (length (line_ c) <= length (lof o))%nat -> Q t (with_base c o, h)) ->
  cwp interval_end Q (o, h).
Proof.
  intros HQ. unfold interval_end. do 3 cstep. do 2 cstep. fold (front (lof (with_base c' o))).
  assert (Hc' : (length (line_ c') <= length (lof o))%nat) by (rewrite H1, length_drop; unfold lof; lia).
  destruct (char_eqb _ "-"%char) eqn:Hc; [|cstep; by apply HQ].
  do 2 cstep; [by apply front_length in Hc|]. do 3 cstep. do 2 cstep. cbn in *.
  apply (HQ _ c'2). rewrite H4, length_drop, H3, length_drop, H2, length_drop. lia.
Qed.

Lemma open_rule_same kind r r' : open_rule_ok kind r -> cli_rule_ok r' -> same_flags r r' -> open_rule_ok kind r'.
Proof.
  intros [Hr Hs Hp Hre Hd] Hr' Hf. unfold same_flags, cn_test in *.
  by split; unfold cn_test; rewrite ?Hf.
Qed.

Lemma is_port_ok ipv : ipv <> [] -> rok (is_port ipv) (fun _ => True).
Proof.
  destruct ipv as [|c [|d r]]; [done|..]; intros _; cbn; by destruct (char_eqb _ _).
Qed.

Lemma ports_ok p e r : cli_rule_ok r ->
  rok (let? p := read_ports p e in inr (add_ports p r)) (fun r' => cli_rule_ok r' /\ same_flags r r').
Proof.
  intros [Hf H4 H6 Hn Hp]. apply rsat_bind. eapply rsat_mono; [apply read_ports_ok|]. cbv beta.
  intros q Hq. split; [|done]. split; cbn; try done. apply Forall_app_2; [done|by constructor].
Qed.

(** The rest of a matcher: the rule is stored and a comma is skipped. *)
Lemma matcher_ok kind nr hp nr' o o' h :
  members_ o = NetRuleSection kind nr hp -> heap_ok h -> open_rule_ok kind nr ->
  cli_rule_ok nr' -> same_flags nr nr' -> (exists c, o' = with_base c o) ->
  (length (lof o') < length (lof o))%nat ->
  cwp (_ ← set_members (NetRuleSection kind nr' hp); _ ← skip_comma; mret Mine) (body_post o) (o', h).
Proof.
  intros Hm Hh Hr Hr' Hf [c ->] Hl. do 3 cstep. apply cwp_skip_comma. intros c' Hc. cstep.
  split; [split; [by eapply open_rule_same|done|done]|]. split; [by split; cbn; rewrite ?Hm|].
  unfold lof in *. cbn in *. lia.
Qed.

Lemma net_rule_body_ok kind nr hp o h :
  members_ o = NetRuleSection kind nr hp -> good (o, h) ->
  cwp (net_rule_body kind nr hp) (body_post o) (o, h).
Proof.
  intros Hm Hg. pose proof Hg as [Hr Hh _]. cbn [fst snd] in Hr, Hh. rewrite Hm in Hr. cbn in Hr.
  unfold net_rule_body. do 3 cstep. set (ipv := until _ _) in *.
  assert (Hc : (length (line_ c') + length ipv = length (lof o))%nat).
  { rewrite H1, length_drop. pose proof (until_length (delimeters ++ T "-") (line_ (base_ o))).
    unfold ipv, lof. lia. }
  case_bool_decide as Hne.
  { cstep. split; [by apply good_base|]. split; [by apply kept_base|]. unfold lof in *. cbn. lia. }
  assert (Hlt : (length (line_ c') < length (lof o))%nat) by (destruct ipv; [done|cbn in *; lia]).
  assert (Hend : forall nr' c, cli_rule_ok nr' /\ same_flags nr nr' -> (length (line_ c) <= length (line_ c'))%nat ->
    cwp (_ ← set_members (NetRuleSection kind nr' hp); _ ← skip_comma; mret Mine) (body_post o) (with_base c o, h)).
  { intros nr' c [Hn Hf] Hl. eapply matcher_ok; [done..|by exists c|]. unfold lof in *. cbn. lia. }
  pose proof (or_rule _ _ Hr) as Hrule. cstep. destruct (is_iso_country_code ipv) eqn:Hiso.
  { apply cwp_pure. eapply rsat_mono; [by apply country_ok|]. cbv beta. intros nr' Hn. by apply Hend. }
  cstep. apply cwp_pure. eapply rsat_mono; [by apply is_port_ok|]. cbv beta. intros [] _.
  - cstep. apply cwp_interval_end. intros e c Hle. apply cwp_pure.
    eapply rsat_mono; [by apply ports_ok|]. cbv beta. intros nr' Hn. by apply (Hend nr' c).
  - apply cwp_pure. eapply rsat_mono; [by apply read_address_ok|]. cbv beta. intros nr' Hn. by apply Hend.
Qed.

(** A number was read up to a delimiter. *)
Lemma number_read o c' : line_ c' = drop (length (until delimeters (line_ (base_ o)))) (line_ (base_ o)) ->
  (length (line_ c') <= length (lof o))%nat
  /\ (until delimeters (line_ (base_ o)) <> [] -> (length (line_ c') < length (lof o))%nat).
Proof.
  intros Hc. pose proof (until_length delimeters (line_ (base_ o))). rewrite Hc, length_drop. unfold lof.
  split; [lia|]. destruct (until _ _); [done|cbn in *; lia].
Qed.

Lemma icmp_body_ok r o h : members_ o = IcmpSection r -> good (o, h) -> cwp (icmp_body r) (body_post o) (o, h).
Proof.
  intros Hm Hg. pose proof Hg as [Hr Hh _]. cbn [fst snd] in Hr, Hh. rewrite Hm in Hr. destruct Hr as ([Hf Ht] & H2 & H3).
  unfold icmp_body. do 3 cstep. apply number_read in H1 as [Hle Hlt]. case_bool_decide as Hne.
  { cstep. split; [by apply good_base|]. split; [by apply kept_base|done]. }
  specialize (Hlt Hne). cstep. apply cwp_pure. eapply rsat_mono; [apply parse_as_ok|]. cbv beta. intros n Hn.
  do 3 cstep. apply cwp_skip_comma. intros c2 Hc2. cstep.
  split; [split; [|done|done]|]. { split; [|done]. split; [done|]. cbn. apply Forall_app_2; [done|].
    constructor; [|constructor]. apply (wrap_range 8). lia. }
  split; [by split; cbn; rewrite ?Hm|]. unfold lof in *. cbn in *. lia.
Qed.

Lemma ip_proto_body_ok p o h :
  members_ o = IpProtoSection p -> good (o, h) -> cwp (ip_proto_body p) (body_post o) (o, h).
Proof.
  intros Hm Hg. pose proof Hg as [Hr Hh _]. cbn [fst snd] in Hr, Hh. rewrite Hm in Hr. cbn in Hr.
  unfold ip_proto_body. do 3 cstep. apply number_read in H1 as [Hle Hlt]. case_bool_decide as Hne.
  { cstep. split; [by apply good_base|]. split; [by apply kept_base|done]. }
  specialize (Hlt Hne). cstep. apply cwp_pure. eapply rsat_mono; [apply parse_as_ok|]. cbv beta. intros n Hn.
  do 2 cstep. do 2 cstep. do 3 cstep. cstep. apply cwp_skip_comma. intros c2 Hc2. cstep.
  split; [split; [|done|done]|].
  { cbn. intros b [= <-]. apply BitSet_set_wf. destruct p; cbn; [by apply Hr|apply BitSet_empty_wf]. }
  split; [by split; cbn; rewrite ?Hm|]. unfold lof in *. cbn in *.
  rewrite H2, length_drop in Hc2. lia.
Qed.

Lemma process_body_ok o h : state_ o = ProcessingBody -> lof o <> [] -> good (o, h) -> cwp process_body (body_post o) (o, h).
Proof.
  intros Hst Hne Hg. unfold process_body. do 2 cstep. destruct (members_ o) eqn:Hm; try by apply cwp_throw.
  1,2: apply generic_body_ok; [intros n; rewrite Hm; done|done..].
  - by apply xfw_body_ok.
  - by apply net_rule_body_ok.
  - by apply icmp_body_ok.
  - by apply defaults_body_ok.
  - by apply ip_proto_body_ok.
Qed.
End bodies.

(** *** Commits *)

Section commits.
Implicit Types (o : Sec) (h : Heap) (x : XfwConf).

Definition commit_post (o : Sec) (_ : unit) (s' : Sec * Heap) : Prop := heap_ok s'.2 /\ lof s'.1 = lof o.

(** A change of the configuration of the xfw section. *)
Lemma heap_xfw x h : heap_ok h -> conf_ok false x -> heap_ok (set_h_xfw x h).
Proof. by intros [] Hx. Qed.

Lemma opt_test_set f g x : bitset_wf Opt_MAX_BIT (x_flags x) -> 0 <= f < 16 -> 0 <= g < 16 ->
  BitSet_test f (x_flags (x_set g x)) = (f =? g) || BitSet_test f (x_flags x).
Proof.
  intros [Hl _] Hf Hg. apply BitSet_test_set; [lia|lia|]. rewrite Hl.
  change (ByteCount Opt_MAX_BIT) with 2%nat. dlia.
Qed.

Lemma conf_set flag x : 0 < flag < 16 -> conf_ok false x -> conf_ok false (x_set flag x).
Proof.
  intros Hf []. split; try done; [by apply BitSet_set_wf|]. rewrite opt_test_set by (done || lia).
  rewrite (proj2 (Z.eqb_neq _ _)) by (unfold Opt_XFW_CONFIG_PATCH; lia). done.
Qed.

Lemma cwp_not_deleted {A} edit (del keep : Ps A) Q s :
  cwp del Q s -> cwp keep Q s -> cwp (not_deleted edit del keep) Q s.
Proof. intros Hd Hk. destruct edit as [[]|]; cbn [not_deleted]; [by apply cwp_throw|done|by apply cwp_throw|done]. Qed.

Lemma switch_commit_ok on off o h : 0 < on < 16 -> 0 < off < 16 -> heap_ok h -> cwp (switch_commit on off) (commit_post o) (o, h).
Proof.
  intros Hon Hoff Hh. pose proof (ho_xfw _ Hh). unfold switch_commit. do 2 cstep.
  apply cwp_not_deleted; cstep; (split; [|done]; apply heap_xfw; [done|by apply conf_set]).
Qed.

Lemma conf_syncookie v x : conf_ok false x -> conf_ok false (set_x_syncookie v x).
Proof. by intros []. Qed.

Lemma syncookie_commit_ok f p o h : heap_ok h -> cwp (syncookie_commit f p) (commit_post o) (o, h).
Proof.
  intros Hh. pose proof (ho_xfw _ Hh). unfold syncookie_commit. do 2 cstep. apply cwp_not_deleted.
  - cstep. split; [|done]. apply heap_xfw; [done|by apply conf_set].
  - do 3 cstep. split; [|done]. apply heap_xfw; [done|by apply conf_syncookie].
Qed.

Lemma conf_anomaly a x : anomaly_ok a -> conf_ok false x -> conf_ok false (set_x_tcp_anomaly (Some a) x).
Proof. intros Ha []. split; cbn; try done. by intros ? [= <-]. Qed.

Lemma anomaly_commit_ok a o h : anomaly_ok a -> heap_ok h -> cwp (anomaly_commit a) (commit_post o) (o, h).
Proof.
  intros Ha Hh. pose proof (ho_xfw _ Hh). unfold anomaly_commit. do 2 cstep.
  apply cwp_not_deleted; cstep; (split; [|done]; apply heap_xfw; [done|]); [by apply conf_set|by apply conf_anomaly].
Qed.

Lemma conf_ip_proto p x : members_ok (IpProtoSection p) -> conf_ok false x -> conf_ok false (set_x_ip_proto p x).
Proof. intros Hp []. by split. Qed.

Lemma ip_proto_commit_ok p o h : members_ok (IpProtoSection p) -> heap_ok h ->
  cwp (ip_proto_commit p) (commit_post o) (o, h).
Proof.
  intros Hp Hh. pose proof (ho_xfw _ Hh). unfold ip_proto_commit. do 2 cstep.
  apply cwp_not_deleted; cstep; (split; [|done]; apply heap_xfw; [done|]); [by apply conf_set|by apply conf_ip_proto].
Qed.

Lemma conf_tcp_flags l x : Forall (fun r => ct_ratelimit r <> []) l -> conf_ok false x -> conf_ok false (set_x_tcp_flags l x).
Proof. intros Hl []. by split. Qed.

Lemma tcp_flag_commit_ok f o h : heap_ok h -> cwp (tcp_flag_commit f) (commit_post o) (o, h).
Proof.
  intros Hh. pose proof (ho_xfw _ Hh) as Hx. unfold tcp_flag_commit. do 4 cstep. apply cwp_not_deleted.
  - do 3 cstep. split; [|done]. apply heap_xfw; [done|]. destruct f; by repeat apply conf_set.
  - destruct (action_ o) as [a|]; [|by apply cwp_throw]. do 2 cstep. cbv zeta. do 3 cstep. split; [|done].
    apply heap_xfw; [done|]. apply conf_tcp_flags; [|done]. apply Forall_app_2; [apply Hx|].
    constructor; [|constructor]. apply negb_true_iff, bool_decide_eq_false in H. done.
Qed.

(** Rules are found by their names. *)
Lemma not_listed {R I} (same : R -> bool) (id : R -> I) (r : R) l :
  (forall r', id r' = id r -> same r' = true) -> existsb same l = false -> id r ∉ id <$> l.
Proof.
  intros Hs He (r' & Hid & Hin)%list_elem_of_fmap. revert He. apply not_false_iff_true, existsb_exists.
  exists r'. split; [by apply list_elem_of_In|by apply Hs].
Qed.

Lemma NoDup_snoc {R I} (id : R -> I) (r : R) l : NoDup (id <$> l) -> id r ∉ id <$> l -> NoDup (id <$> l ++ [r]).
Proof.
  intros Hl Hr. rewrite fmap_app. apply list.NoDup_app. split; [done|]. split; [|apply NoDup_singleton].
  intros i Hi Hin. apply list_elem_of_singleton in Hin as ->. done.
Qed.

Lemma Forall_snoc {R} (P : R -> Prop) r l : Forall P l -> P r -> Forall P (l ++ [r]).
Proof. intros. apply Forall_app_2; [done|by constructor]. Qed.

Lemma add_rule_ok {R} (alias : R -> text) r rules : NoDup (alias <$> rules) ->
  rok (add_rule alias r rules) (fun l => l = rules ++ [r] /\ NoDup (alias <$> l)).
Proof.
  intros Hn. unfold add_rule. destruct (existsb _ _) eqn:He; [done|]. cbn [rsat]. split; [done|].
  apply NoDup_snoc; [done|]. eapply not_listed; [|exact He]. intros r' Hr. by apply bool_decide_eq_true_2.
Qed.

Lemma ratelimit_commit_ok rl o h : cli_ratelimit_ok rl -> heap_ok h ->
  cwp (ratelimit_commit rl) (commit_post o) (o, h).
Proof.
  intros [Hf Hp Hb] Hh. pose proof (ho_xfw _ Hh) as Hx. unfold ratelimit_commit. do 5 cstep.
  assert (Hgo : forall flags, bitset_wf RatelimitAttr_MAX_BIT flags ->
    cwp (_ ← cverify (negb (bool_decide (section_alias_ o = []))) CE_NO_NAME;
         _ ← cverify (bool_decide (is_Some (crl_bps rl)) || bool_decide (is_Some (crl_pps rl))
               || BitSet_test RatelimitAttr_DELETE flags) CE_VALUE_REQUIRED;
         rules ← cpure (add_rule crl_alias (mkCliRatelimit (section_alias_ o) flags (crl_pps rl) (crl_bps rl))
                   (x_ratelimits (h_xfw h)));
         modify_xfw (set_x_ratelimits rules)) (commit_post o) (o, h)).
  { intros flags Hfl. do 2 cstep. do 2 cstep. cstep. apply cwp_pure.
    eapply rsat_mono; [apply add_rule_ok, Hx|]. cbv beta. intros l [-> Hnd]. cstep. split; [|done].
    apply heap_xfw; [done|]. pose proof (xo_ratelimits _ _ Hx). destruct Hx. split; try done.
    apply Forall_snoc; [done|]. split; [by split|]. by apply negb_true_iff, bool_decide_eq_false in H. }
  apply cwp_not_deleted; cstep; apply Hgo; [by apply BitSet_set_wf|done].
Qed.

(** What the action and the edit action set in the flags of a rule. *)
Lemma edited_rule_ok kind r r' edit :
  open_rule_ok kind r -> cn_alias r' <> [] ->
  cn_flags r' = cn_flags (match edit with
    | EDIT_ADD => r | EDIT_DELETE => cn_set NetRuleAttr_DELETE r | EDIT_REPLACE => cn_set NetRuleAttr_REPLACE r end) ->
  cn_net4s r' = cn_net4s r -> cn_net6s r' = cn_net6s r -> cn_nets r' = cn_nets r -> cn_ports r' = cn_ports r ->
  final_rule_ok r'.
Proof.
  intros [Hr Hs Hp Hre Hd] Ha Hf H4 H6 Hn Hpo. pose proof (cr_flags _ Hr) as Hw.
  assert (Ht : forall f, 0 <= f <= 7 -> cn_test f r' = match edit with
    | EDIT_ADD => cn_test f r | EDIT_DELETE => (f =? NetRuleAttr_DELETE) || cn_test f r
    | EDIT_REPLACE => (f =? NetRuleAttr_REPLACE) || cn_test f r end).
  { intros f Hfr. unfold cn_test at 1. rewrite Hf.
    destruct edit; [done|by apply (cn_test_set f NetRuleAttr_DELETE)|by apply (cn_test_set f NetRuleAttr_REPLACE)]. }
  split; [|rewrite !Ht by attrs|done|rewrite !Ht by attrs].
  - destruct Hr as [R1 R2 R3 R4 R5]. split; rewrite ?Hf, ?H4, ?H6, ?Hn, ?Hpo; try done.
    destruct edit; [done|by apply BitSet_set_wf..].
  - rewrite Hs, Hp. by destruct edit, kind.
  - rewrite Hre, Hd. by destruct edit.
Qed.

Lemma add_netrule_ok r x : conf_ok false x -> final_rule_ok r -> rok (add_netrule r x) (conf_ok false).
Proof.
  intros Hx Hr. unfold add_netrule. destruct (existsb _ _) eqn:He; [done|]. cbn [rsat].
  destruct Hx. split; try done.
  - by apply Forall_snoc.
  - apply NoDup_snoc; [done|]. eapply not_listed; [|exact He]. intros r' [= H1 H2 H3].
    unfold same_netrule. rewrite H1, H2, !Bool.eqb_reflx. by apply bool_decide_eq_true_2.
Qed.

Lemma net_rule_commit_ok kind nr hp o h : open_rule_ok kind nr -> heap_ok h ->
  cwp (net_rule_commit nr hp) (commit_post o) (o, h).
Proof.
  intros Hr Hh. pose proof (ho_xfw _ Hh) as Hx. unfold net_rule_commit. do 4 cstep.
  set (q := match action_ o with Some _ => _ | None => _ end).
  assert (Hq : open_rule_ok kind q.1).
  { unfold q. destruct (action_ o) as [a|]; [|done]. cbn [fst]. destruct (act_allow a); [|done].
    apply open_rule_set; [attrs|done]. }
  destruct q as [nr1 rl]. cbn [fst] in Hq. do 2 cstep. do 2 cstep.
  apply negb_true_iff, bool_decide_eq_false in H0.
  assert (Hadd : forall nr2 edit, nr2 = match edit with
    | EDIT_ADD => nr1 | EDIT_DELETE => cn_set NetRuleAttr_DELETE nr1 | EDIT_REPLACE => cn_set NetRuleAttr_REPLACE nr1 end ->
    cwp (x ← cpure (add_netrule (mkCliNetRule (section_alias_ o) (cn_flags nr2) (cn_net6s nr2) (cn_net4s nr2)
               (cn_nets nr2) (cn_ports nr2) rl) (h_xfw h)); set_heap (set_h_xfw x h)) (commit_post o) (o, h)).
  { intros nr2 edit ->. cstep. apply cwp_pure. eapply rsat_mono.
    - apply add_netrule_ok; [done|]. apply (edited_rule_ok kind nr1 _ edit); try done; by destruct edit.
    - cbv beta. intros x Hx'. cstep. split; [by apply heap_xfw|done]. }
  cstep. destruct (default _ _).
  - do 3 cstep. by apply (Hadd nr1 EDIT_ADD).
  - do 3 cstep. by apply (Hadd _ EDIT_DELETE).
  - cstep. by apply (Hadd _ EDIT_REPLACE).
Qed.

Lemma icmp_commit_ok r o h : members_ok (IcmpSection r) -> heap_ok h -> cwp (icmp_commit r) (commit_post o) (o, h).
Proof.
  intros Hr Hh. pose proof (ho_xfw _ Hh) as Hx. unfold icmp_commit. do 4 cstep.
  set (q := match action_ o with Some _ => _ | None => _ end).
  assert (Hq : members_ok (IcmpSection q.1)).
  { unfold q. destruct (action_ o) as [a|]; [|done]. cbn [fst]. destruct (act_allow a); [|done].
    destruct Hr as (H1 & H2 & H3). pose proof (cio_flags _ H1). split; [by apply cli_icmp_set|].
    rewrite !icmp_test_set by (done || attrs). by rewrite H2, H3. }
  destruct q as [r1 rl]. cbn [fst] in Hq. destruct Hq as (H1 & H2 & H3). pose proof (cio_flags _ H1) as Hf.
  do 2 cstep. apply negb_true_iff, bool_decide_eq_false in H. cbv zeta. set (r2 := match edit_type_ o with Some _ => _ | None => _ end).
  assert (Hfin : final_icmp_ok (mkCliIcmpRule (section_alias_ o) (ci_flags r2) (ci_types r2) rl)).
  { split; [|done|].
    - unfold r2. destruct H1. destruct (edit_type_ o) as [[]|]; split; cbn; try done; by apply BitSet_set_wf.
    - unfold r2. destruct (edit_type_ o) as [[]|]; cbn [ci_flags]; rewrite ?icmp_test_set by (done || attrs);
        by rewrite H2, H3. }
  cstep. apply cwp_pure. eapply rsat_mono; [apply add_rule_ok, Hx|]. cbv beta. intros l [-> Hnd]. cstep.
  split; [|done]. apply heap_xfw; [done|]. pose proof (xo_icmp _ _ Hx). destruct Hx. split; try done.
  by apply Forall_snoc.
Qed.

Lemma ForallOrdPairs_snoc {R} (P : R -> R -> Prop) r l :
  ForallOrdPairs P l -> Forall (fun a => P a r) l -> ForallOrdPairs P (l ++ [r]).
Proof.
  induction 1 as [|a l Ha Hl IH]; intros Hr; cbn.
  - repeat constructor.
  - inversion Hr; subst. constructor; [by apply Forall_snoc|by apply IH].
Qed.

Lemma heap_default d h : heap_ok h -> held (cd_flags d) h ->
  heap_ok (mkHeap (h_conf h) (h_xfw h) (h_defaults h ++ [d]) (h_presence h)).
Proof.
  intros [Hx Hc Hp [Hd1 Hd2] Hw] [Hf Hfw Hfd]. split; cbn; try done.
  - split; [by apply Forall_snoc|by apply ForallOrdPairs_snoc].
  - by apply Forall_snoc.
Qed.

Lemma cwp_set_flags indices flags (Q : list Z -> Sec * Heap -> Prop) o h :
  Forall default_index indices -> heap_ok h -> held flags h ->
  (forall flags' h', heap_ok h' -> held flags' h' -> Q flags' (o, h')) ->
  cwp (set_flags indices flags) Q (o, h).
Proof.
  intros Hi. revert flags h. induction Hi as [|i l Hi _ IH]; intros flags h Hh Hf HQ; cbn [set_flags].
  - cstep. by apply HQ.
  - cstep. apply cwp_set_flag; [done..|]. intros flags' h' Hh' Hf'. by apply IH.
Qed.

Lemma default_commit_ok indices flags o h : Forall default_index indices -> heap_ok h -> held flags h ->
  cwp (default_commit indices flags) (commit_post o) (o, h).
Proof.
  intros Hi Hh Hf. unfold default_commit. do 2 cstep. destruct (action_ o) as [a|]; [|by apply cwp_throw].
  assert (Hend : forall flags' h', heap_ok h' -> held flags' h' ->
    cwp (h ← heap; set_heap (mkHeap (h_conf h) (h_xfw h)
      (h_defaults h ++ [mkCliDefaultAction (act_ratelimit a) (act_allow a) flags']) (h_presence h)))
      (commit_post o) (o, h')).
  { intros flags' h' Hh' Hf'. do 3 cstep. split; [|done]. by apply heap_default. }
  cstep. destruct (existsb _ _); [cstep; by apply Hend|by apply cwp_set_flags].
Qed.

Lemma defaults_commit_ok o h : heap_ok h -> cwp defaults_commit (commit_post o) (o, h).
Proof.
  intros [Hx Hc Hp Hd Hw]. unfold defaults_commit. do 5 cstep. split; [|done].
  split; cbn; try done; [by destruct Hx; split|by split; constructor].
Qed.

(** The text of another program is stored. *)
Lemma generic_commit_ok store o h : (forall t c, xfw_conf (store t c) = xfw_conf c) -> heap_ok h ->
  cwp (generic_commit store) (commit_post o) (o, h).
Proof.
  intros Hs Hh. unfold generic_commit. do 4 cstep. destruct (accumulated_ (base_ o)); cstep; [done|].
  split; [|done]. destruct Hh. split; cbn; try done. intros x. rewrite Hs. auto.
Qed.

Lemma commit_ok o h : good (o, h) -> cwp commit (commit_post o) (o, h).
Proof.
  intros [Hm Hh Hc]. cbn [fst snd] in *. unfold commit. do 4 cstep. destruct (members_ o).
  1,2: by apply generic_commit_ok.
  - cstep. split; [|done]. destruct Hh. split; cbn; try done. by intros x [= <-].
  - by eapply net_rule_commit_ok.
  - by apply icmp_commit_ok.
  - by apply tcp_flag_commit_ok.
  - by apply switch_commit_ok.
  - by apply switch_commit_ok.
  - by apply switch_commit_ok.
  - by apply syncookie_commit_ok.
  - by apply ratelimit_commit_ok.
  - by apply anomaly_commit_ok.
  - by apply defaults_commit_ok.
  - apply default_commit_ok; [|done..]. repeat constructor; by apply get_index_range.
  - apply default_commit_ok; [|done..]. repeat constructor; by apply get_index_range.
  - by apply ip_proto_commit_ok.
Qed.
End commits.
