(* ===== verification/CliProgress.v ===== *)
(** * CliProgress: the loop of [parse_config] ends

    A turn of the loop decreases twice the length of the line plus the rank of
    the state of the parser ([parse_step_progress]), never fails an assertion and
    keeps the invariant of the stack, so that every text is parsed to a well-formed
    configuration or rejected ([parse_config_ok]). *)

From S2P Require Import Prelude.
From S2P Require Import Enums.
From S2P Require Import Bitset.
From S2P Require Import ConfigUpdater.
From S2P Require Import LineConsumer.
From S2P Require Import Tcl.
From S2P Require Import Cli.
From S2P Require Import CliSpec.
From S2P Require Import CliBodies.

Open Scope Z_scope.

(** A section on top of the stack, and the line that it is to read. *)
Record top_ok (lv : text) (o : Sec) (h : Heap) : Prop := mkTopOk {
  to_good : good (o, h);
  to_end : state_ o <> End_;
  to_edit : state_ o = ProcessEditAction -> has_edit_processor (members_ o) = true;
  to_action : state_ o = ProcessingAction -> has_action_processor (members_ o) = true;
  to_start : state_ o = Start -> take (length (name_ (members_ o))) lv = name_ (members_ o)
}.
(** A section with another one on top of it. *)
Definition parent_ok (o : Sec) : Prop := state_ o = ProcessingBody /\ is_parent (members_ o).

Definition rank (st : State) : nat :=
  match st with ProcessEditAction | ProcessingBody => 1 | _ => 0 end.
Definition measure (lv : text) (st : State) : nat := 2 * length lv + rank st.

(** What a turn leaves, if the measure was [n] before. *)
Definition turn_post (n : nat) (r : Next) (s' : Sec * Heap) : Prop :=
  match r with
  | N_this => top_ok (lof s'.1) s'.1 s'.2 /\ state_ s'.1 <> Start /\ (measure (lof s'.1) (state_ s'.1) < n)%nat
  | N_child s => parent_ok s'.1 /\ top_ok (lof s'.1) s s'.2 /\ (measure (lof s'.1) (state_ s) < n)%nat
  | N_done => heap_ok s'.2 /\ (measure (lof s'.1) ProcessingBody < n)%nat
  end.

Section turns.
Context `{BoostIpSpec}.
Implicit Types (o : Sec) (h : Heap).

Lemma front_match l : match l with [] => nul | a :: _ => a end = front l.
Proof. done. Qed.

Lemma finish_ok n o h ch : good (o, h) -> char_eqb (front (lof o)) ch = true -> ch <> nul ->
  (2 * length (lof o) <= n)%nat -> cwp finish (turn_post n) (o, h).
Proof.
  intros Hg Hf Hc Hn. apply front_length in Hf; [|done]. unfold finish. do 4 cstep; [done|].
  cstep. eapply cwp_mono; [apply commit_ok; by destruct Hg|]. cbv beta. intros _ [o' h'] [Hh Hl].
  cstep. split; [done|]. cbn [fst snd] in *. unfold measure. cbn [rank]. rewrite Hl. unfold lof at 1. cbn.
  cbn in H1. rewrite H1, length_drop. unfold lof in *. lia.
Qed.

Lemma open_body_ok n o h ch : good (o, h) -> char_eqb (front (lof o)) ch = true -> ch <> nul ->
  (2 * length (lof o) <= n)%nat -> cwp open_body (turn_post n) (o, h).
Proof.
  intros Hg Hf Hc Hn. apply front_length in Hf; [|done]. unfold open_body. do 4 cstep; [done|]. cstep.
  split; [by split; cbn; destruct Hg|]. split; [done|]. unfold measure, lof in *. cbn in *.
  rewrite H1, length_drop. lia.
Qed.

(** Something was recognised. *)
Lemma recognised n lv o h s' : attr_post o true s' -> top_ok lv o h -> state_ o <> Start ->
  (measure (lof o) (state_ o) <= n)%nat -> turn_post n N_this s'.
Proof.
  intros (Hg & [Hs Ha He] & Hl) [_ Hen Hed Hac _] Hst Hn. destruct s' as [o' h'].
  cbn [fst snd] in *. split; [|split].
  - split; cbn [fst snd]; rewrite ?Hs, ?Ha, ?He; done.
  - cbn [fst]. by rewrite Hs.
  - unfold measure in *. cbn [fst]. rewrite Hs. lia.
Qed.

(** *** The states *)

Lemma reading_attributes_ok o h : top_ok (lof o) o h -> state_ o = ReadingAttributes ->
  cwp reading_attributes (turn_post (measure (lof o) (state_ o))) (o, h).
Proof.
  intros Ht Hs. pose proof (to_good _ _ _ Ht) as Hg. unfold reading_attributes. do 4 cstep. rewrite front_match.
  destruct (char_eqb _ ";"%char) eqn:H1; [eapply finish_ok; [done..|unfold measure; lia]|].
  destruct (char_eqb _ "{"%char) eqn:H2; [eapply open_body_ok; [done..|unfold measure; lia]|].
  destruct (_ && _) eqn:H3.
  - apply andb_prop in H3 as [Hc Ha]. apply front_length in Hc; [|done]. do 4 cstep; [done|]. cstep.
    split; [by split; cbn; destruct Hg|]. split; [done|]. unfold measure, lof in *. cbn in *. rewrite H3, length_drop. lia.
  - cstep. eapply cwp_mono; [by apply process_attributes_ok|]. cbv beta. intros [] s' Hp; cstep.
    eapply recognised; [done..|by rewrite Hs|done].
Qed.

Lemma processing_action_ok o h : top_ok (lof o) o h -> state_ o = ProcessingAction ->
  cwp processing_action (turn_post (measure (lof o) (state_ o))) (o, h).
Proof.
  intros Ht Hs. pose proof (to_good _ _ _ Ht) as Hg. unfold processing_action. do 3 cstep.
  apply cwp_asserted; [by apply (to_action _ _ _ Ht)|].
  cstep. eapply cwp_mono; [by apply action_process_ok|]. cbv beta. intros [] [o' h'] Hp.
  - cstep. eapply recognised; [done..|by rewrite Hs|done].
  - destruct Hp as (Hg' & _ & Hl). cbn in Hl. subst o'. do 2 cstep. rewrite front_match.
    destruct (char_eqb _ ";"%char) eqn:H1; [eapply finish_ok; [done..|unfold measure; lia]|].
    destruct (char_eqb _ "{"%char) eqn:H2; [eapply open_body_ok; [done..|unfold measure; lia]|].
    cstep.
Qed.

Lemma processing_edit_ok o h : top_ok (lof o) o h -> state_ o = ProcessEditAction ->
  cwp processing_edit (turn_post (measure (lof o) (state_ o))) (o, h).
Proof.
  intros Ht Hs. pose proof (to_good _ _ _ Ht) as Hg. unfold processing_edit. do 3 cstep.
  apply cwp_asserted; [by apply (to_edit _ _ _ Ht)|].
  cstep. eapply cwp_mono; [by apply edit_process_ok|]. cbv beta. intros [] [o' h'] Hp.
  - cstep. eapply recognised; [done..|by rewrite Hs|done].
  - destruct Hp as (Hg' & _ & Hl). cbn in Hl. subst o'. do 3 cstep.
    split; [by split; cbn; destruct Hg'|]. split; [done|]. unfold measure. rewrite Hs. unfold lof. cbn. lia.
Qed.

Lemma processing_body_ok o h : top_ok (lof o) o h -> state_ o = ProcessingBody -> lof o <> [] ->
  cwp processing_body (turn_post (measure (lof o) (state_ o))) (o, h).
Proof.
  intros Ht Hs Hne. pose proof (to_good _ _ _ Ht) as Hg. unfold processing_body. cstep.
  eapply cwp_mono; [by apply process_body_ok|]. cbv beta. intros r [o' h'] (Hg' & [K1 K2 K3] & Hr).
  cbn [fst snd] in *. destruct r as [| |s].
  - do 2 cstep. rewrite front_match. destruct (char_eqb _ "}"%char) eqn:H1; [|cstep].
    eapply finish_ok; [done..|unfold measure; lia].
  - cstep. split; [by split; cbn [fst snd]; rewrite ?K1, ?Hs|].
    split; [by cbn; rewrite K1, Hs|]. unfold measure. cbn [fst snd]. rewrite K1. lia.
  - cstep. destruct Hr as (Hl & Hp & Hst & Hgs & Hn).
    split; [by split; cbn; rewrite ?K1|]. cbn [fst snd] in *. rewrite Hl.
    split; [by split; rewrite ?Hst|]. unfold measure. rewrite Hs, Hst. cbn. lia.
Qed.

(** The name of a section starts with a letter. *)
Lemma name_front m : exists c r, name_ m = c :: r /\ isspace c = false /\ char_eqb c "#"%char = false.
Proof.
  destruct m as [| | |[]| | | | | | | | | |[]|[]|]; cbn; eauto.
Qed.

Lemma starting_ok o h : top_ok (lof o) o h -> state_ o = Start ->
  cwp starting (turn_post (measure (lof o) (state_ o))) (o, h).
Proof.
  intros Ht Hs. pose proof (to_good _ _ _ Ht) as Hg. pose proof (to_start _ _ _ Ht Hs) as Hn.
  destruct (name_front (members_ o)) as (c & r & Hname & _ & _).
  assert (Hend : forall o', members_ o' = members_ o -> (length (lof o') < length (lof o))%nat ->
    cwp (o ← this; s ← line peek;
         _ ← set_state (if char_eqb s "/"%char && has_edit_processor (members_ o)
                 then ProcessEditAction else ReadingAttributes);
         mret N_this) (turn_post (measure (lof o) (state_ o))) (o', h)).
  { intros o' Hm Hl. do 4 cstep. destruct (_ && _) eqn:Hb; do 3 cstep.
    all: split; [|split; [done|unfold measure; rewrite Hs; cbn; unfold lof in *; cbn in *; lia]].
    all: split; cbn; [destruct Hg; by split; cbn; rewrite ?Hm|done| |done|done].
    - by apply andb_prop in Hb as [_ ->].
    - done. }
  unfold starting. cstep. unfold process_name. do 3 cstep.
  apply cwp_asserted; [by apply bool_decide_eq_true_2|].
  do 2 cstep. apply cwp_consume_prefix; [done|]. intros c1 Hc1.
  assert (Hl1 : (length (line_ c1) < length (lof o))%nat).
  { assert (length (name_ (members_ o)) <= length (lof o))%nat by (rewrite <- Hn, length_take; lia).
    rewrite Hc1, length_drop. unfold lof in *. rewrite Hname in *. cbn [length] in *. lia. }
  do 2 cstep. destruct (char_eqb _ "="%char); [|cstep; by apply Hend].
  do 2 cstep. apply cwp_consume_expected. intros c2 Hc2. do 3 cstep. cstep. cbn [base_ with_base] in *.
  apply Hend; [done|]. unfold lof in *. cbn. rewrite H1, length_drop. lia.
Qed.

Lemma turn_post_mono n m r s' : (n <= m)%nat -> turn_post n r s' -> turn_post m r s'.
Proof. intros Hle. destruct r; cbn; intuition lia. Qed.

Lemma name_no_space m lv : take (length (name_ m)) lv = name_ m ->
  leading_spaces lv = O /\ lv <> [] /\ char_eqb (front lv) "#"%char = false.
Proof.
  destruct (name_front m) as (c & r & -> & Hc & Hh). destruct lv as [|d lv]; [done|].
  cbn. intros [= -> _]. by rewrite Hc.
Qed.

(** A line without anything to read. *)
Lemma line_read o c h : top_ok (lof o) o h -> state_ o <> Start -> lof o <> [] -> line_ c = [] ->
  turn_post (measure (lof o) (state_ o)) N_this (with_base c o, h).
Proof.
  intros [Hg H1 H2 H3 _] Hs Hne Hc. split; [by split; destruct Hg|]. split; [done|].
  unfold measure, lof in *. cbn. rewrite Hc. destruct (line_ (base_ o)); [done|cbn; lia].
Qed.

Lemma cwp_process_comment (Q : unit -> Sec * Heap -> Prop) o h :
  (forall c, line_ c = [] -> Q tt (with_base c o, h)) -> cwp process_comment Q (o, h).
Proof.
  intros HQ. unfold process_comment. do 2 cstep. apply cwp_line. cstep. unfold cwp at 1, cget. cstep.
  unfold cwp at 1, cput. cstep. unfold consume_all. cstep. unfold cwp at 1, cget. apply cwp_consume; [done|].
  intros c Hc. cstep. unfold cwp at 1, cget. unfold cwp, cput. apply HQ. cbn in *. by rewrite Hc, drop_all.
Qed.

Lemma section_line_ok o h : top_ok (lof o) o h -> lof o <> [] ->
  cwp section_line (turn_post (measure (lof o) (state_ o))) (o, h).
Proof.
  intros Ht Hne. unfold section_line. do 2 cstep. cstep.
  apply cwp_asserted; [by apply negb_true_iff, bool_decide_eq_false, (to_end _ _ _ Ht)|].
  do 3 cstep. set (o1 := with_base c' o).
  assert (Hl1 : lof o1 = drop (leading_spaces (lof o)) (lof o)) by done.
  assert (Hst : state_ o = Start -> lof o1 = lof o /\ lof o1 <> [] /\ char_eqb (front (lof o1)) "#"%char = false).
  { intros Hs. destruct (name_no_space _ _ (to_start _ _ _ Ht Hs)) as (H2 & H3 & H4).
    by rewrite Hl1, H2. }
  assert (Ht1 : top_ok (lof o1) o1 h).
  { destruct Ht as [Hg H2 H3 H4 H5]. split; [by destruct Hg|done..|].
    intros Hs. destruct (Hst Hs) as (-> & _). by apply H5. }
  assert (Hm : (measure (lof o1) (state_ o1) <= measure (lof o) (state_ o))%nat).
  { unfold measure. cbn [state_ o1 with_base]. rewrite Hl1, length_drop. lia. }
  do 2 cstep. case_bool_decide as He.
  { cstep. apply line_read; [done| |done|exact He]. intros Hs. by destruct (Hst Hs) as (_ & ? & _). }
  do 2 cstep. rewrite front_match. destruct (char_eqb _ "#"%char) eqn:Hc.
  { cstep. apply cwp_process_comment. intros c2 Hc2. cstep. apply (line_read o c2); [done| |done|done].
    intros Hs. destruct (Hst Hs) as (_ & _ & Hf). by rewrite Hf in Hc. }
  eapply cwp_mono; [|intros r s'; by apply turn_post_mono].
  change (state_ o) with (state_ o1). destruct (state_ o1) eqn:Hs; rewrite <- ?Hs.
  - by apply starting_ok.
  - by apply processing_edit_ok.
  - by apply reading_attributes_ok.
  - by apply processing_action_ok.
  - by apply processing_body_ok.
  - by destruct (to_end _ _ _ Ht1).
Qed.

(** *** The stack *)

Definition stack_ok (lv : text) (stack : list Sec) (h : Heap) : Prop :=
  match stack with [] => heap_ok h | o :: rest => top_ok lv o h /\ Forall parent_ok rest end.
Definition stack_measure (lv : text) (stack : list Sec) : nat :=
  2 * length lv + match stack with [] => 1 | o :: _ => rank (state_ o) end.

Lemma parent_top lv o h : parent_ok o -> heap_ok h -> top_ok lv o h.
Proof. intros [Hs [Hm|Hm]] Hh; (split; rewrite ?Hs; [split; cbn; by rewrite ?Hm|done..]). Qed.

Lemma consume_line_ok o h lv : top_ok lv o h -> lv <> [] ->
  rok (consume_line o h lv) (fun r => turn_post (measure lv (state_ o)) r.1.1.2 (r.1.2, r.2)
    /\ r.1.1.1 = lof r.1.2).
Proof.
  intros [Hg H2 H3 H4 H5] Hne. unfold consume_line. set (o1 := with_base (set_line lv (base_ o)) o).
  assert (Hl : lof o1 = lv) by done.
  assert (Ht : top_ok (lof o1) o1 h) by (rewrite Hl; split; [by destruct Hg|done..]).
  pose proof (section_line_ok o1 h Ht ltac:(by rewrite Hl)) as Hok. rewrite Hl in Hok. unfold cwp in Hok.
  destruct (section_line (o1, h)) as [e|[r [o' h']]]; cbn; [done|]. split; [|done]. exact Hok.
Qed.

Lemma XfwConf_init_ok : conf_ok false XfwConf_init.
Proof. split; cbn; try (by constructor); [apply BitSet_empty_wf|split; constructor]. Qed.

Lemma root_line_ok h lv : heap_ok h -> lv <> [] ->
  rok (root_line h lv) (fun r => stack_ok r.1.1 (match r.1.2 with Some s => [s] | None => [] end) r.2
    /\ (stack_measure r.1.1 (match r.1.2 with Some s => [s] | None => [] end) < stack_measure lv [])%nat).
Proof.
  intros Hh Hne. unfold root_line. set (l := drop _ lv).
  assert (Hl : (length l <= length lv)%nat) by (unfold l; rewrite length_drop; lia).
  assert (Hlv : (0 < length lv)%nat) by (destruct lv; [done|cbn; lia]). clearbody l. clear Hne.
  assert (Hopen : forall w m h', text_eqb (until delimeters l) (T w) = true -> name_ m = T w ->
    members_ok m -> coupled m h' -> heap_ok h' ->
    stack_ok l [new_sec m] h' /\ (stack_measure l [new_sec m] < stack_measure lv [])%nat).
  { intros w m h' Hw%text_eqb_true Hn Hm Hc Hh'. split; [|unfold stack_measure; cbn; lia].
    split; [|constructor]. split; cbn; try done. intros _. rewrite Hn, <- Hw. apply until_prefix. }
  assert (Hskip : stack_ok [] [] h /\ (stack_measure [] [] < stack_measure lv [])%nat)
    by (split; [done|unfold stack_measure; cbn; lia]).
  destruct l as [|c r] eqn:Hlr; [done|]. rewrite <- Hlr in *. destruct (char_eqb c _); [done|]. cbv zeta.
  destruct (text_eqb _ (T "tfw")) eqn:H1; [|destruct (text_eqb _ (T "xfw")) eqn:H2;
    [|destruct (text_eqb _ (T "tl")) eqn:H3; [|done]]].
  all: apply rsat_bind, rsat_verify; [done|]; intros _; cbn [rsat fst snd].
  - by apply (Hopen "tfw"%string).
  - apply (Hopen "xfw"%string); try done. apply heap_xfw; [done|apply XfwConf_init_ok].
  - by apply (Hopen "tl"%string).
Qed.

Lemma parse_step_progress stack h lv : stack_ok lv stack h -> lv <> [] ->
  rok (parse_step stack h lv) (fun r => stack_ok r.2 r.1.1 r.1.2
    /\ (stack_measure r.2 r.1.1 < stack_measure lv stack)%nat).
Proof.
  destruct stack as [|o rest]; intros Hs Hne; apply rsat_bind.
  - eapply rsat_mono; [by apply root_line_ok|]. done.
  - destruct Hs as [Ht Hr]. eapply rsat_mono; [by apply consume_line_ok|]. cbv beta.
    intros [[[lv' nx] o'] h'] [Hp Hl]. cbn [fst snd] in *. subst lv'. cbn [rsat fst snd].
    destruct nx as [|s|]; cbn in Hp.
    + destruct Hp as (Ht' & _ & Hm). done.
    + destruct Hp as (Hpo & Ht' & Hm). split; [|done]. split; [done|by constructor].
    + destruct Hp as [Hh Hm]. destruct rest as [|p rest]; [done|]. inversion Hr; subst.
      split; [split; [by apply parent_top|done]|]. destruct H3 as [Hst _].
      unfold stack_measure. rewrite Hst. exact Hm.
Qed.

(** *** Lines and texts *)

Lemma parse_line_ok fuel stack h lv : stack_ok lv stack h -> (stack_measure lv stack <= fuel)%nat ->
  rok (parse_line fuel stack h lv) (fun r => stack_ok [] r.1 r.2).
Proof.
  revert stack h lv. induction fuel as [|fuel IH]; intros stack h lv Hs Hf; destruct lv as [|c lv]; try done.
  { unfold stack_measure in Hf. cbn in Hf. lia. }
  cbn [parse_line]. apply rsat_bind.
  eapply rsat_mono; [by apply parse_step_progress|]. cbv beta. intros r [Hs' Hm]. apply IH; [done|lia].
Qed.

(** Between two lines no section is at its start. *)
Lemma next_line lv stack h : stack_ok [] stack h -> stack_ok lv stack h.
Proof.
  destruct stack as [|o rest]; [done|]. intros [[H1 H2 H3 H4 H5] Hr]. split; [|done]. split; try done.
  intros Hs. specialize (H5 Hs). destruct (name_front (members_ o)) as (c & r & Hn & _). by rewrite Hn in H5.
Qed.

Lemma parse_lines_ok lines stack h : stack_ok [] stack h ->
  rok (rfold (fun r lv => parse_line (parse_fuel lv) r.1 r.2 lv) (stack, h) lines)
    (fun r => stack_ok [] r.1 r.2).
Proof.
  revert stack h. induction lines as [|lv lines IH]; intros stack h Hs; [done|]. cbn [rfold].
  apply rsat_bind. eapply rsat_mono.
  - apply parse_line_ok; [by apply next_line|]. unfold stack_measure, parse_fuel. destruct stack as [|o ?]; cbn; [lia|].
    destruct (state_ o); cbn; lia.
  - cbv beta. intros [stack' h'] Hs'. by apply IH.
Qed.

Definition client_conf_ok (patch : bool) (c : TlProgConf) : Prop :=
  forall x, xfw_conf c = Some x -> conf_ok patch x.

Lemma parse_config_ok t : rok (parse_config t) (client_conf_ok false).
Proof.
  unfold parse_config. cbv zeta. apply rsat_bind. eapply rsat_mono.
  - apply parse_lines_ok. cbn.
    split; cbn; [apply XfwConf_init_ok|done|apply BitSet_empty_wf|by split; constructor|constructor].
  - cbv beta. intros [[|o stack] h] Hs; cbn; [|done]. exact (ho_conf _ Hs).
Qed.

(** The parsers of the client. *)
Lemma tcl_parse_conf_ok t patch c : tcl_parse_conf t patch = Some c -> client_conf_ok patch c.
Proof.
  unfold tcl_parse_conf. pose proof (parse_config_ok t) as Hok. destruct (parse_config t) as [e|c0]; [done|].
  intros [= <-] x. cbn. destruct (xfw_conf c0) as [x0|] eqn:Hx; [|done]. intros [= <-].
  specialize (Hok x0 Hx). destruct patch; [|done]. pose proof (xo_flags _ _ Hok).
  destruct Hok. split; try done; [by apply BitSet_set_wf|]. by rewrite opt_test_set.
Qed.
End turns.
