(* ===== verification/Serialize.v ===== *)
(** * Serialize: the message of a configuration, and the client

    src/lib/proto/serialize.cc, src/lib/cli/client.cc and the command push of
    src/cli/main.cc. A message is given by what its reader finds in it ([Proto]):
    a string or a vector that was written is present. The second part is the command
    line of the client. *)

From stdpp Require Import strings.
From S2P Require Import Prelude.
From S2P Require Import Bitset.
From S2P Require Import Proto.
From S2P Require Import ConfigUpdater.
From S2P Require Import Service.
From S2P Require Import LineConsumer.
From S2P Require Import Tcl.
From S2P Require Import Cli.

Open Scope Z_scope.

Definition TcpFlagToProtoFlag (type : FlagType) : Z :=
  match type with
  | FT_ALL => TcpFlagType_ALL
  | FT_SYN => TcpFlagType_SYN
  | FT_RST => TcpFlagType_RST
  end.

(** [x.empty() ? 0 : builder.CreateVector(...)] *)
Definition vector_or_null {A B} (f : A -> B) (l : list A) : option (list B) :=
  match l with [] => None | _ => Some (f <$> l) end.
Definition string_or_null (s : text) : option string :=
  match s with [] => None | _ => Some (to_string s) end.

Definition serialize_net_rule (r : CliNetRule) : NetRule :=
  mkNetRule (Some (to_string (cn_alias r))) (Some (bitset_serialize (cn_flags r)))
    (vector_or_null (fun n => Some (mkNet6 (Some (c6_addr n)) (c6_port n) (c6_prefix n))) (cn_net6s r))
    (vector_or_null (fun n => Some (mkNet4 (Some (c4_addr n)) (c4_port n) (c4_prefix n))) (cn_net4s r))
    (vector_or_null (fun n => Some (mkNetCode (cc_port n) (cc_code n))) (cn_nets r))
    (vector_or_null (fun p => mkPortPair p.1 (default 0 p.2)) (cn_ports r))
    (string_or_null (cn_ratelimit r)).

Definition serialize_icmp_rule (r : CliIcmpRule) : IcmpRuleMsg :=
  mkIcmpRuleMsg (Some (to_string (ci_alias r))) (Some (bitset_serialize (ci_flags r)))
    (Some (ci_types r)) (string_or_null (ci_ratelimit r)).

Definition serialize_ratelimit (r : CliRatelimit) : RatelimitMsg :=
  mkRatelimitMsg (Some (to_string (crl_alias r))) (Some (bitset_serialize (crl_flags r)))
    (default 0 (crl_pps r)) (default 0 (crl_bps r)).

Definition serialize_default (d : CliDefaultAction) : DefaultAction :=
  mkDefaultAction (Some (bitset_serialize (cd_flags d))) (cd_allow d) (string_or_null (cd_ratelimit d)).

Definition serialize_tcp_flags (r : CliTcpFlags) : TcpFlagsFilterMsg :=
  mkTcpFlagsFilterMsg (TcpFlagToProtoFlag (ct_flag r)) (Some (to_string (ct_ratelimit r))).

Definition serialize (x : XfwConf) : XFWCfg :=
  mkXFWCfg (Some (bitset_serialize (x_flags x)))
    ((fun p => mkIpProtoMsg (Some (bitset_serialize p))) <$> x_ip_proto x)
    ((fun s => mkSyncookieMsg (u32 (sk_passive_timer s)) (u32 (sk_flood_timer s))) <$> x_syncookie x)
    (vector_or_null (fun r => Some (serialize_tcp_flags r)) (x_tcp_flags x))
    (vector_or_null (fun r => Some (serialize_net_rule r)) (x_net_rules x))
    (vector_or_null (fun r => Some (serialize_icmp_rule r)) (x_icmp_rules x))
    (vector_or_null (fun r => Some (serialize_ratelimit r)) (x_ratelimits x))
    (vector_or_null (fun r => Some (serialize_default r)) (x_defaults x))
    ((fun a => mkTcpAnomalyMsg (Some (bitset_serialize (ta_features a)))
                 (bitset_serialize <$> ta_bad_tcp_flags a) (ta_seqno_value a)) <$> x_tcp_anomaly x).

(** The records of a request. *)
Definition build_set_config_request (conf : TlProgConf) : CliError + list ReqRecord :=
  let records :=
    (match tl_prog_txt conf with [] => [] | txt => [RRT_TL_OBJ (to_string txt)] end)
    ++ (match tfw_conf conf with [] => [] | txt => [RRT_TFW_CFG (to_string txt)] end)
    ++ (match xfw_conf conf with Some x => [RRT_XFW_CFG (serialize x)] | None => [] end) in
  match records with [] => inl CE_NOTHING_TO_SEND | _ => inr records end.

Definition build_reload_request : list ReqRecord := [RRT_TFW_CFG_RLD].

(** ** client.cc *)

(** What the stub of the service returns: a failed call, a response without data,
    or the version and the status code of the response. *)
Inductive Reply :=
  | RPC_ERROR
  | RPC_EMPTY
  | RPC_RESPONSE (proto_ver : Z) (code : StatusCode).

(** [process_response(...) == 0] *)
Definition process_response (r : Reply) : bool :=
  match r with
  | RPC_ERROR | RPC_EMPTY => false
  | RPC_RESPONSE proto_ver code =>
      if negb (proto_ver =? ProtoVersion) then false else
      match code with OK => true | _ => false end
  end.

Section client.
Context `{BoostIp} (stub : list ReqRecord -> Reply).

(** [Client::send_reload] and [Client::send_configuration]; building a request may
    throw. *)
Definition send_reload : bool := process_response (stub build_reload_request).
Definition send_configuration (conf : TlProgConf) : CliError + bool :=
  let? request := build_set_config_request conf in
  inr (process_response (stub request)).

(** ** src/cli/main.cc *)

Inductive ExitCode := Exit_Ok | Exit_Error | Exit_UsageError.

(** The lines of a file, each followed by a newline; [None] is a file that cannot be
    opened. *)
Definition read_file (content : option text) : option text :=
  (fun t => match list.last t with
            | None => []
            | Some c => if char_eqb c newline then t else t ++ [newline]
            end) <$> content.

(** The options of the command push; a file is given by its content. *)
Record PushOptions := mkPushOptions {
  po_conf : option (option text);
  po_tl : option text;
  po_conf_inline : option text;
  po_patch : option (option text);
  po_patch_inline : option text
}.

Definition given {A} (o : option A) : nat := match o with Some _ => 1 | None => 0 end.
Definition opt_cnt (vm : PushOptions) : nat :=
  given (po_conf vm) + given (po_tl vm) + given (po_conf_inline vm) + given (po_patch vm)
  + given (po_patch_inline vm).

(** An exception ends the program with [Exit_Error]. *)
Definition push_data (vm : PushOptions) : ExitCode :=
  if negb (opt_cnt vm =? 1)%nat then Exit_UsageError else
  let conf := None in
  let conf := match po_conf vm with
    | Some f => prog ← read_file f; tcl_parse_full_conf prog | None => conf end in
  let conf := match po_conf_inline vm with
    | Some prog => tcl_parse_full_conf prog | None => conf end in
  let conf := match po_patch vm with
    | Some f => prog ← read_file f; tcl_parse_patch_conf prog | None => conf end in
  let conf := match po_patch_inline vm with
    | Some prog => tcl_parse_patch_conf prog | None => conf end in
  let conf := match po_tl vm with
    | Some prog => tcl_parse_tl prog | None => conf end in
  match conf with
  | None => Exit_Error
  | Some conf =>
      match send_configuration conf with
      | inr true => Exit_Ok
      | _ => Exit_Error
      end
  end.

Definition reload_data : ExitCode := if send_reload then Exit_Ok else Exit_Error.
End client.

(** * The command line of the client

    src/cli/main.cc, from the arguments to the exit code: the dispatch on the
    command, the options that each command has, and which help text is printed.
    The parser of Boost.Program_options is the parameter [parse_command_line];
    the commands themselves are [push_data] and [reload_data]. *)

Inductive Command := Push | Fetch | Reload | Unknown.

Definition cmd_to_enum (s : string) : Command :=
  if String.eqb s "push" then Push
  else if String.eqb s "fetch" then Fetch
  else if String.eqb s "reload" then Reload
  else Unknown.

(** The names of the options. *)
Definition get_global_options : list string := ["help"; "debug"; "server"; "port"].

(** [None] is the exception. *)
Definition get_command_options (command : string) : option (list string) :=
  match cmd_to_enum command with
  | Push => Some ["conf"; "conf-inline"; "patch"; "patch-inline"; "tl"]
  | Fetch => None
  | Reload => Some []
  | Unknown => None
  end.

(** The values of the options. *)
Record VariablesMap := mkVariablesMap { vm_help : bool; vm_push : PushOptions }.

Section client_main.
Context `{BoostIp} (stub : list ReqRecord -> Reply).
(** The options with the given names, read from the arguments; [None] is an
    exception of the parser. *)
Variable parse_command_line : list string -> list string -> option VariablesMap.

(** [argv] without the name of the program. The exit code, and the command whose
    help is printed, if any. *)
Definition client_main (argv : list string) : ExitCode * option string :=
  match argv with
  | [] => (Exit_UsageError, None)
  | first_arg :: args =>
      if String.eqb first_arg "--help" || String.eqb first_arg "-h"
      then (Exit_Ok, Some EmptyString)
      else match get_command_options first_arg with
      | None => (Exit_Error, None)
      | Some cmd_opts =>
          match parse_command_line (get_global_options ++ cmd_opts) args with
          | None => (Exit_UsageError, None)
          | Some vm =>
              if vm_help vm then (Exit_Ok, Some first_arg)
              else
                let res := match cmd_to_enum first_arg with
                           | Push => push_data stub (vm_push vm)
                           | Fetch => Exit_UsageError
                           | Reload => reload_data stub
                           | Unknown => Exit_UsageError
                           end in
                match res with
                | Exit_UsageError => (res, Some first_arg)
                | _ => (res, None)
                end
          end
      end
  end.

(** The cases of the switch for an unknown command and for [fetch], which would
    print the help, are never reached: the options of the command are asked for
    first, and that is a general error. *)
Lemma unknown_command_no_help c args : get_command_options c = None ->
  c <> "--help"%string -> c <> "-h"%string ->
  client_main (c :: args) = (Exit_Error, None).
Proof.
  intros Hc H1 H2. unfold client_main. rewrite Hc.
  by rewrite (proj2 (String.eqb_neq _ _) H1), (proj2 (String.eqb_neq _ _) H2).
Qed.

(** A request reaches the server only for [push] and [reload]: the exit code and
    the help of every other command line are the same for every server. *)
Lemma only_commands_talk argv :
  (forall args, argv <> "push"%string :: args) -> (forall args, argv <> "reload"%string :: args) ->
  client_main argv = match argv with
                     | [] => (Exit_UsageError, None)
                     | c :: _ => if String.eqb c "--help" || String.eqb c "-h"
                                 then (Exit_Ok, Some EmptyString) else (Exit_Error, None)
                     end.
Proof.
  intros Hp Hr. destruct argv as [|c args]; [done|]. unfold client_main.
  destruct (_ || _); [done|]. unfold get_command_options, cmd_to_enum.
  destruct (String.eqb_spec c "push") as [->|]; [by destruct (Hp args)|].
  destruct (String.eqb_spec c "fetch") as [->|]; [done|].
  destruct (String.eqb_spec c "reload") as [->|]; [by destruct (Hr args)|done].
Qed.
End client_main.
