(* ===== verification/ClientMsg.v ===== *)
(** * ClientMsg: the manager never finds a message of the client malformed

    What the client sends for a text that it has accepted ([Serialize]) passes every
    check of the manager on the form of a message ([ConfigUpdater]): the manager can
    reject it only for what it says, such as a rule that does not exist. *)

From S2P Require Import Prelude.
From S2P Require Import Enums.
From S2P Require Import Uapi.
From S2P Require Import Bitset.
From S2P Require Import AnomalyFlags.
From S2P Require Import Config.
From S2P Require Import GeoIp.
From S2P Require Import StdMap.
From S2P Require Import Proto.
From S2P Require Import ConfigUpdater.
From S2P Require Import UpdaterSpec.
From S2P Require Import LineConsumer.
From S2P Require Import Tcl.
From S2P Require Import Cli.
From S2P Require Import CliSpec.
From S2P Require Import Serialize.

Open Scope Z_scope.

(** ** Texts and vectors *)

Lemma to_string_length t : String.length (to_string t) = length t.
Proof. unfold to_string. induction t as [|c t IH]; cbn; [done|]. by rewrite IH. Qed.

Lemma to_string_inj : Inj (=) (=) to_string.
Proof. intros a b Hab. apply (f_equal String.list_ascii_of_string) in Hab.
  by rewrite !String.list_ascii_of_string_of_list_ascii in Hab. Qed.

(** The name is not empty, as the manager asks for. *)
Lemma named t : t <> [] -> negb (String.length (to_string t) =? 0)%nat = true.
Proof. rewrite to_string_length. by destruct t. Qed.

Lemma vector_elem {A B} (f : A -> B) l v y : vector_or_null f l = Some v -> y ∈ v -> exists x, y = f x /\ x ∈ l.
Proof. destruct l as [|a l]; [done|]. intros [= <-] Hy. by apply (list_elem_of_fmap f (a :: l)) in Hy. Qed.

Lemma over_vector {A B C} (f : A -> B) l (g : C -> B -> UpdateError + C) c :
  over (vector_or_null f l) g c = rfold (fun c x => g c (f x)) c l.
Proof.
  assert (Hf : forall l c, rfold g c (f <$> l) = rfold (fun c x => g c (f x)) c l).
  { clear. intros l. induction l as [|x l IH]; intros c; [done|]. cbn. destruct (g c (f x)); [done|]. apply IH. }
  destruct l as [|x l]; [done|]. exact (Hf (x :: l) c).
Qed.

(** ** Checks on the form of a message *)

Definition malformed (e : UpdateError) : bool :=
  match e with
  | UE_NULL_FIELD | UE_BITSET_SIZE | UE_REPLACE_AND_DELETE | UE_ADDR_SIZE | UE_PORT_RANGE
  | UE_DEFAULT_TWICE | UE_TCP_FLAG_TYPE => true
  | _ => false
  end.
Abbreviation rsound := (rsat (fun e : UpdateError => malformed e = false)).

(** The client and the manager agree on the number of bytes of a set of flags. *)
Lemma read_bitset n m data : bitset_wf n data -> ByteCount n = ByteCount m ->
  bitset_deserialize m (bitset_serialize data) = Some data.
Proof. intros [Hl _] He. unfold bitset_deserialize, bitset_serialize. by rewrite Hl, He, Nat.eqb_refl. Qed.

Section message.
Context (geodb : CountryMap) (rl : Ratelimits).

Lemma ratelimit_idx_sound t : rsound (get_ratelimit_idx rl (string_or_null t)) (fun _ => True).
Proof.
  unfold string_or_null. destruct t as [|c t]; [done|]. cbn [get_ratelimit_idx].
  rewrite named by done. cbn [rverify rbind]. apply rsat_bind, rsat_some; [done|]. done.
Qed.

Lemma net4key_sound n f : cli_net4_ok n ->
  rsound (get_net4key (Some (mkNet4 (Some (c4_addr n)) (c4_port n) (c4_prefix n))) f) (fun _ => True).
Proof.
  intros [Hl _ _ _]. unfold get_net4key. cbn [rsome rbind m4_addr]. rewrite Hl. cbn [Nat.eqb rverify rbind].
  unfold get_net4key_prot_net, get_net4key_src, get_net4key_dst.
  destruct (isProcNet f), (isSrc f); repeat (apply rsat_bind, rsat_verify; [done|intros _]); done.
Qed.

Lemma net6key_sound n f : cli_net6_ok n ->
  rsound (get_net6key (Some (mkNet6 (Some (c6_addr n)) (c6_port n) (c6_prefix n))) f) (fun _ => True).
Proof.
  intros [Hl _ _ _]. unfold get_net6key. cbn [rsome rbind m6_addr]. rewrite Hl. cbn [Nat.eqb rverify rbind].
  unfold get_net6key_prot_net, get_net6key_src, get_net6key_dst.
  destruct (isProcNet f), (isSrc f); repeat (apply rsat_bind, rsat_verify; [done|intros _]); done.
Qed.

Lemma port_range_sound p : cli_ports_ok p -> rsound (ports_from_range p.1 (default 0 p.2)) (fun _ => True).
Proof.
  intros [Hp He]. unfold ports_from_range. destruct p as [p [e|]]; cbn [fst snd default from_option id] in *; [|done].
  specialize (He e eq_refl). rewrite (proj2 (Z.eqb_neq _ _)) by lia.
  rewrite (proj2 (Z.leb_gt _ _)) by lia. done.
Qed.

(** A loop over a vector of the message, none of whose turns finds it malformed. *)
Lemma over_sound {A B C} (f : A -> B) l (g : C -> B -> UpdateError + C) c :
  (forall c x, x ∈ l -> rsound (g c (f x)) (fun _ => True)) ->
  rsound (over (vector_or_null f l) g c) (fun _ => True).
Proof. intros Hg. rewrite over_vector. apply rsat_fold; [done|]. intros. by apply Hg. Qed.

Lemma vec_add_sound l x : rsound (vec_add l x) (fun _ => True).
Proof. unfold vec_add. by case_decide. Qed.

Lemma vec_delete_sound l x : rsound (vec_delete l x) (fun _ => True).
Proof. by apply rsat_some. Qed.

(** The ports of a rule, added or deleted. *)
Lemma rule_ports_sound f (to : NetIp) ports :
  (forall l x, rsound (f l x) (fun _ => True)) -> Forall cli_ports_ok ports ->
  rsound (match vector_or_null (fun p => mkPortPair p.1 (default 0 p.2)) ports with
    | None => inr to
    | Some ports =>
        rverify (isSrc (ni_flags to)) UE_ONLY_SRC ;?
        let? l := rfold (over_ports f) (ni_ports to) ports in
        inr (set_ports l to)
    end) (fun _ => True).
Proof.
  intros Hf Hp. destruct (vector_or_null _ _) as [v|] eqn:Hv; [|done].
  apply rsat_bind, rsat_verify; [done|]. intros _. apply rsat_bind.
  eapply rsat_mono; [apply (rsat_fold _ (fun _ => True)); [done|]|done]. intros b x _ Hx.
  destruct (vector_elem _ _ _ _ Hv Hx) as (p & -> & Hin). unfold over_ports. cbn [pp_port pp_port_end].
  rewrite list.Forall_forall in Hp. apply rsat_bind. eapply rsat_mono; [by apply port_range_sound, Hp|].
  cbv beta. intros r _. apply rsat_fold; [done|]. intros ? ? _ _. apply Hf.
Qed.

(** The countries of a rule. *)
Lemma rule_nets_sound f (to : NetIp) nets :
  (forall to n, rsound (f to (Some (mkNetCode (cc_port n) (cc_code n)))) (fun _ => True)) ->
  rsound (match vector_or_null (fun n => Some (mkNetCode (cc_port n) (cc_code n))) nets with
    | None => inr to
    | Some nets => rverify (isSrc (ni_flags to)) UE_ONLY_SRC ;? rfold f to nets
    end) (fun _ => True).
Proof.
  intros Hf. destruct (vector_or_null _ _) as [v|] eqn:Hv; [|done].
  apply rsat_bind, rsat_verify; [done|]. intros _. apply rsat_fold; [done|]. intros b x _ Hx.
  destruct (vector_elem _ _ _ _ Hv Hx) as (n & -> & _). apply Hf.
Qed.

Lemma add_matchers_sound r alias flags to : cli_rule_ok r ->
  rsound (net_add_matchers_to geodb (mkProtoWrapper (serialize_net_rule r) alias flags) to) (fun _ => True).
Proof.
  intros [Hf H4 H6 Hn Hp]. rewrite list.Forall_forall in H4. rewrite list.Forall_forall in H6. unfold net_add_matchers_to.
  cbn [pw_rule serialize_net_rule nr_net6s nr_net4s nr_ports nr_nets]. apply rsat_bind.
  eapply rsat_mono; [apply over_sound|cbv beta; intros to1 _; apply rsat_bind;
    eapply rsat_mono; [apply over_sound|cbv beta; intros to2 _; apply rsat_bind;
      eapply rsat_mono; [by apply rule_ports_sound; [apply vec_add_sound|]|cbv beta; intros to3 _]]].
  - intros c x Hx. apply rsat_bind. eapply rsat_mono; [by apply net6key_sound, H6|]. cbv beta. intros k _.
    by apply rsat_bind, rsat_some.
  - intros c x Hx. apply rsat_bind. eapply rsat_mono; [by apply net4key_sound, H4|]. cbv beta. intros k _.
    by apply rsat_bind, rsat_some.
  - apply rule_nets_sound. intros to4 n. apply rsat_bind. cbn [rsome rsat]. apply rsat_bind, rsat_verify; [done|].
    intros _. by destruct (load_geo_entry _ _ _ _).
Qed.

Lemma delete_matchers_sound r alias flags from : cli_rule_ok r ->
  rsound (net_delete_matchers_from (mkProtoWrapper (serialize_net_rule r) alias flags) from) (fun _ => True).
Proof.
  intros [Hf H4 H6 Hn Hp]. rewrite list.Forall_forall in H4. rewrite list.Forall_forall in H6. unfold net_delete_matchers_from.
  cbn [pw_rule serialize_net_rule nr_net6s nr_net4s nr_ports nr_nets]. apply rsat_bind.
  eapply rsat_mono; [apply over_sound|cbv beta; intros to1 _; apply rsat_bind;
    eapply rsat_mono; [apply over_sound|cbv beta; intros to2 _; apply rsat_bind;
      eapply rsat_mono; [by apply rule_ports_sound; [apply vec_delete_sound|]|cbv beta; intros to3 _]]].
  - intros c x Hx. apply rsat_bind. eapply rsat_mono; [by apply net6key_sound, H6|]. cbv beta. intros k _.
    by apply rsat_bind, rsat_some.
  - intros c x Hx. apply rsat_bind. eapply rsat_mono; [by apply net4key_sound, H4|]. cbv beta. intros k _.
    by apply rsat_bind, rsat_some.
  - apply rule_nets_sound. intros to4 n. apply rsat_bind. cbn [rsome rsat]. by apply rsat_bind, rsat_verify.
Qed.

(** *** Rules *)

Lemma edit_sound `{ProtoRule P} `{!EditTarget P V} (proto : ProtoWrapper P) (set : list (string * V)) :
  (BitSet_test opt_replace (pw_flags proto) = true -> BitSet_test opt_delete (pw_flags proto) = false) ->
  (forall r, rsound (set_attributes_to proto r) (fun _ => True)) ->
  (forall r, rsound (add_matchers_to proto r) (fun _ => True)) ->
  (forall r, rsound (delete_matchers_from proto r) (fun _ => True)) ->
  rsound (apply_edit_action proto set) (fun _ => True).
Proof.
  intros He Hs Ha Hd.
  assert (Hget : rsound (get_rule set (pw_alias proto)) (fun _ => True))
    by (unfold get_rule; by destruct (std_find _ _ _) as [[]|]).
  assert (Hstep : forall m k, rsound m (fun _ => True) -> (forall v : V, rsound (k v) (fun _ => True)) ->
    rsound (rbind (B := list (string * V)) m k) (fun _ => True)).
  { intros m k Hm Hk. apply rsat_bind. eapply rsat_mono; [exact Hm|]. intros v _. apply Hk. }
  unfold apply_edit_action. apply rsat_bind. unfold edit_action.
  destruct (BitSet_test opt_replace _) eqn:Hr; [rewrite He by done|destruct (BitSet_test opt_delete _)]; cbn.
  - destruct (has_matchers proto); apply Hstep; try done; intros v; by apply Hstep.
  - destruct (has_matchers proto); [|by apply rsat_some]. apply Hstep; [done|]. intros v; by apply Hstep.
  - apply Hstep; [done|]. intros v; by apply Hstep.
Qed.

Definition net_wrapper (r : CliNetRule) : ProtoWrapper NetRule :=
  mkProtoWrapper (serialize_net_rule r) (to_string (cn_alias r)) (cn_flags r).

Lemma net_wrapper_sound r : bitset_wf NetRuleAttr_MAX_BIT (cn_flags r) ->
  rsound (ProtoWrapper_of (Some (serialize_net_rule r))) (fun p => p = net_wrapper r).
Proof.
  intros Hf. unfold ProtoWrapper_of, read_alias, read_flags. cbn [rsome rbind].
  apply rsat_bind. cbn [pr_alias NetRule_proto nr_alias serialize_net_rule rsome rbind].
  apply rsat_bind, rsat_verify; [done|]. intros _. cbn [rsat]. apply rsat_bind.
  cbn [pr_flags NetRule_proto nr_flags serialize_net_rule rsome rbind].
  by rewrite (read_bitset NetRuleAttr_MAX_BIT).
Qed.

Lemma net_rule_sound sets r : final_rule_ok r ->
  rsound (prepare_net_rule geodb rl sets (Some (serialize_net_rule r))) (fun _ => True).
Proof.
  intros [Hr _ _ He]. apply rsat_bind. eapply rsat_mono; [by apply net_wrapper_sound, Hr|].
  cbv beta. intros p ->.
  assert (Hset : forall set, rsound (apply_edit_action (EditTarget0 := net_target geodb rl) (net_wrapper r) set)
    (fun _ => True)).
  { intros set. apply edit_sound.
    - exact He.
    - intros n. apply rsat_bind. eapply rsat_mono; [apply ratelimit_idx_sound|]. done.
    - intros n. by apply add_matchers_sound.
    - intros n. by apply delete_matchers_sound. }
  repeat case_match; apply rsat_bind; (eapply rsat_mono; [apply Hset|]); done.
Qed.

Definition icmp_wrapper (r : CliIcmpRule) : ProtoWrapper IcmpRuleMsg :=
  mkProtoWrapper (serialize_icmp_rule r) (to_string (ci_alias r)) (ci_flags r).

Lemma icmp_wrapper_sound r : bitset_wf IcmpRuleAttr_MAX_BIT (ci_flags r) ->
  rsound (ProtoWrapper_of (Some (serialize_icmp_rule r))) (fun p => p = icmp_wrapper r).
Proof.
  intros Hf. unfold ProtoWrapper_of, read_alias, read_flags. cbn [rsome rbind].
  apply rsat_bind. cbn [pr_alias IcmpRule_proto im_alias serialize_icmp_rule rsome rbind].
  apply rsat_bind, rsat_verify; [done|]. intros _. cbn [rsat]. apply rsat_bind.
  cbn [pr_flags IcmpRule_proto im_flags serialize_icmp_rule rsome rbind].
  by rewrite (read_bitset IcmpRuleAttr_MAX_BIT).
Qed.

Lemma icmp_rules_sound rules rs : Forall final_icmp_ok rules ->
  rsound (over (vector_or_null (fun r => Some (serialize_icmp_rule r)) rules) (fun rs m =>
    let? rule := ProtoWrapper_of m in apply_edit_action (EditTarget0 := icmp_target rl) rule rs) rs) (fun _ => True).
Proof.
  intros Hr. apply over_sound. intros c r Hin. rewrite list.Forall_forall in Hr. destruct (Hr r Hin) as [Hok _ He].
  apply rsat_bind. eapply rsat_mono; [by apply icmp_wrapper_sound, Hok|]. cbv beta. intros p ->. apply edit_sound.
  - exact He.
  - intros n. apply rsat_bind. eapply rsat_mono; [apply ratelimit_idx_sound|]. done.
  - intros n. apply rsat_bind. eapply rsat_mono; [apply (rsat_fold _ (fun _ => True)); [done|]|done].
    intros. apply vec_add_sound.
  - intros n. apply rsat_bind. eapply rsat_mono; [apply (rsat_fold _ (fun _ => True)); [done|]|done].
    intros. apply vec_delete_sound.
Qed.

(** *** Defaults *)

Lemma default_enum_index (i : DefaultIndex) : default_index (enum_z i).
Proof.
  pose proof (enum_z_range i) as Hr. unfold default_index.
  change (length enum_values) with 14%nat in Hr. lia.
Qed.

(** One action for the indices of a set that no earlier action has. *)
Lemma set_defaults_sound flags a l ds : NoDup l ->
  (forall i, BitSet_test (enum_z i) flags = true -> i ∈ l -> ds i = None) ->
  rsound (rfold (set_default flags a) ds l)
    (fun ds' => forall i, is_Some (ds' i) -> is_Some (ds i) \/ BitSet_test (enum_z i) flags = true).
Proof.
  revert ds. induction l as [|i l IH]; intros ds Hnd Hds; cbn [rfold]; [by left|].
  apply list.NoDup_cons in Hnd as [Hi Hnd]. apply rsat_bind. unfold set_default.
  destruct (BitSet_test (enum_z i) flags) eqn:Ht; cbn [negb].
  - rewrite (Hds i Ht) by left. cbn [rsat]. eapply rsat_mono; [apply IH; [done|]|].
    + intros j Hj Hin. case_decide as Hd; [by subst|]. apply Hds; [done|by right].
    + cbv beta. intros ds' H' j Hj. apply H' in Hj as [Hj|Hj]; [|by right].
      revert Hj. case_decide as Hd; intros Hj; [right; by subst|by left].
  - apply IH; [done|]. intros j Hj Hin. apply Hds; [done|by right].
Qed.

Lemma default_values_NoDup : NoDup (enum_values : list DefaultIndex).
Proof. by apply (bool_decide_unpack _). Qed.

Lemma defaults_sound l ds :
  Forall (fun d => bitset_wf XFW_DEFAULT_MAX (cd_flags d)) l ->
  ForallOrdPairs (fun a b => disjoint_flags (cd_flags a) (cd_flags b)) l ->
  Forall (fun d => forall i, is_Some (ds i) -> BitSet_test (enum_z i) (cd_flags d) = false) l ->
  rsound (rfold (fun ds d => prepare_default rl ds (Some (serialize_default d))) ds l) (fun _ => True).
Proof.
  intros Hw Hp. revert ds. induction Hp as [|d l Hd Hp IH]; intros ds Hs; cbn [rfold]; [done|].
  apply list.Forall_cons in Hw as [Hw Hwl], Hs as [Hsd Hsl]. apply rsat_bind.
  apply rsat_bind. cbn [rsome rsat]. apply rsat_bind. cbn [serialize_default da_flags rsome rsat da_ratelimit].
  apply rsat_bind. eapply rsat_mono; [apply ratelimit_idx_sound|]. cbv beta. intros idx _.
  rewrite (read_bitset XFW_DEFAULT_MAX) by done. cbn [rsome rbind]. eapply rsat_mono.
  - apply set_defaults_sound; [apply default_values_NoDup|]. intros i Hi _.
    destruct (ds i) eqn:Hdi; [|done]. by rewrite (Hsd i) in Hi by eauto.
  - cbv beta. intros ds' Hds'. apply IH; [done|]. rewrite list.Forall_forall in Hsl, Hd |- *.
    intros d' Hin i Hi. apply Hds' in Hi as [Hi|Hi]; [by apply (Hsl d' Hin)|].
    apply (Hd d' Hin); [apply default_enum_index|done].
Qed.

(** *** Limits of TCP flags *)

Lemma tcp_flag_sound f r : ct_ratelimit r <> [] ->
  rsound (prepare_tcp_flag rl f (Some (serialize_tcp_flags r))) (fun _ => True).
Proof.
  intros Hn. unfold prepare_tcp_flag. cbn [rsome rbind serialize_tcp_flags fm_ratelimit]. rewrite named by done.
  cbn [rverify rbind]. apply rsat_bind, rsat_some; [done|]. intros i _. cbn. by destruct (ct_flag r).
Qed.
End message.

Lemma ratelimit_sound rl r : cli_ratelimit_ok r -> crl_alias r <> [] ->
  rsound (prepare_ratelimit rl (Some (serialize_ratelimit r))) (fun _ => True).
Proof.
  intros [Hf _ _] Hn. unfold prepare_ratelimit. cbn [rsome rbind serialize_ratelimit rm_alias rm_flags].
  rewrite named by done. cbn [rverify rbind]. rewrite (read_bitset RatelimitAttr_MAX_BIT) by done.
  cbn [rsome rbind]. destruct (BitSet_test _ _); by apply rsat_some.
Qed.

Lemma anomaly_sound flags x old : (forall a, x_tcp_anomaly x = Some a -> anomaly_ok a) ->
  rsound (prepare_tcp_anomaly_filter flags (serialize x) old) (fun _ => True).
Proof.
  intros Ha. unfold prepare_tcp_anomaly_filter. destruct (BitSet_test _ flags); [done|].
  cbn [serialize xc_tcp_anomaly]. destruct (x_tcp_anomaly x) as [a|]; [|done]. destruct (Ha a eq_refl) as [Hf Hb _].
  cbn [fmap option_fmap option_map tm_features tm_bad_tcp_flags rsome rbind].
  rewrite (read_bitset XFW_TCP_ANOMALY_FEATURE_MAX) by done. cbn [rsome rbind]. cbv zeta. apply rsat_bind.
  destruct (BitSet_test _ _); [|done]. destruct (ta_bad_tcp_flags a) as [b|]; [|done].
  cbn [fmap option_fmap option_map]. by rewrite (read_bitset XFW_BIT_CONTROL_MAX) by auto.
Qed.

Lemma protocols_sound flags x old :
  (forall p, x_ip_proto x = Some p -> bitset_wf XFW_SUPPORTED_PROTOCOL_MAX p) ->
  rsound (prepare_protocols flags (serialize x) old) (fun _ => True).
Proof.
  intros Hp. unfold prepare_protocols. destruct (BitSet_test _ flags); [done|].
  cbn [serialize xc_ip_proto]. destruct (x_ip_proto x) as [p|]; [|done].
  cbn [fmap option_fmap option_map pm_protocols rsome rbind].
  by rewrite (read_bitset XFW_SUPPORTED_PROTOCOL_MAX) by auto.
Qed.

(** ** The whole message *)

Lemma serialize_typed patch x : conf_ok patch x -> msg_typed (serialize x).
Proof.
  intros Hx l r Hl Hr. cbn in Hl. destruct (vector_elem _ _ _ _ Hl Hr) as (c & [= ->] & Hin).
  pose proof (xo_rules _ _ Hx) as Hall. rewrite list.Forall_forall in Hall.
  destruct (fr_rule _ (Hall c Hin)) as [_ H4 H6 _ _]. rewrite list.Forall_forall in H4. rewrite list.Forall_forall in H6.
  split; cbn; intros v d Hv Hd; destruct (vector_elem _ _ _ _ Hv Hd) as (n & [= ->] & Hn);
    [destruct (H4 n Hn)|destruct (H6 n Hn)]; split; cbn; try done; by intros a [= <-].
Qed.

Lemma prepared_sound patch x geodb config : conf_ok patch x ->
  rsound (prepared_config geodb config (serialize x)) (fun _ => True).
Proof.
  intros Hx. pose proof (xo_rules _ _ Hx) as Hrules. pose proof (xo_ratelimits _ _ Hx) as Hrl.
  pose proof (xo_tcp_flags _ _ Hx) as Htf. rewrite list.Forall_forall in Hrules. rewrite list.Forall_forall in Hrl.
  rewrite list.Forall_forall in Htf.
  apply rsat_bind. unfold XfwConfigUpdater. cbn [serialize xc_flags rsome rbind].
  rewrite (read_bitset Opt_MAX_BIT) by (done || apply Hx). cbn [rsome rbind rsat]. cbn [fst snd].
  set (c := match config with Some _ => _ | None => _ end). clearbody c. unfold prepare_update. apply rsat_bind. eapply rsat_mono; [apply protocols_sound, Hx|]. cbv beta. intros ip_proto _.
  apply rsat_bind. apply (rsat_mono _ (fun _ => True)); [|cbv beta; intros rl _].
  { apply over_sound. intros r l Hl. destruct (Hrl l Hl). by apply ratelimit_sound. }
  apply rsat_bind. apply (rsat_mono _ (fun _ => True)); [|cbv beta; intros ds _].
  { destruct (xo_defaults _ _ Hx) as [Hd1 Hd2]. unfold prepare_defaults. cbn [serialize xc_defaults].
    destruct (vector_or_null _ (x_defaults x)) as [v|] eqn:Hv; [|done].
    change (rsound (over (Some v) (prepare_default rl) (fun _ => None)) (fun _ => True)).
    rewrite <- Hv, over_vector. apply defaults_sound; [done..|]. apply list.Forall_forall. by intros d _ i [? ?]. }
  apply rsat_bind. apply (rsat_mono _ (fun _ => True)); [|cbv beta; intros nets _].
  { apply over_sound. intros s r Hr. by apply net_rule_sound, Hrules. }
  apply rsat_bind. eapply rsat_mono; [apply anomaly_sound, Hx|]. cbv beta zeta. intros af _.
  apply rsat_bind, rsat_verify; [done|]. intros _.
  apply rsat_bind. apply (rsat_mono _ (fun _ => True)); [|cbv beta; intros fl _].
  { apply over_sound. intros f r Hr. by apply tcp_flag_sound, Htf. }
  apply rsat_bind. eapply rsat_mono; [apply icmp_rules_sound, Hx|]. done.
Qed.
