(* ===== verification/ClientExact.v ===== *)
(** * ClientExact: the configuration of the manager is the one of the text

    A full configuration that the client accepts and the manager takes over: the
    rules, the networks, ports and countries of every rule, the named limits and
    the defaults that the manager keeps are those that the client has read, whatever
    was configured before. *)

From S2P Require Import Prelude.
From S2P Require Import Enums.
From S2P Require Import Uapi.
From S2P Require Import Bitset.
From S2P Require Import AnomalyFlags.
From S2P Require Import Config.
From S2P Require Import GeoIp.
From S2P Require Import StdMap.
From S2P Require Import Proto.
From S2P Require Import ConfigUpdater.
From S2P Require Import UpdaterSpec.
From S2P Require Import UpdaterHistory.
From S2P Require Import LineConsumer.
From S2P Require Import Tcl.
From S2P Require Import Cli.
From S2P Require Import CliSpec.
From S2P Require Import Serialize.
From S2P Require Import ClientMsg.

Open Scope Z_scope.

(** ** A rule with a new name *)

Lemma insert_new `{Compare K} {A} (key : A -> K) x l :
  std_find key (key x) l = None -> insert_or_assign key x l ≡ₚ x :: l.
Proof.
  induction l as [|y l IH]; cbn; [done|]. unfold equiv_keys.
  destruct (StdMap.ltb (key x) (key y)) eqn:Hxy; [done|]. destruct (StdMap.ltb (key y) (key x)) eqn:Hyx; cbn; [|done].
  intros Hl. rewrite IH by done. constructor.
Qed.

Lemma find_none {V} (set : list (string * V)) a : a ∉ set.*1 <-> std_find fst a set = None.
Proof.
  split.
  - intros Ha. destruct (std_find fst a set) as [it|] eqn:Hf; [|done]. destruct Ha.
    apply find_Some in Hf as [Hin He]. apply equiv_keys_eq in He as <-; [|done..].
    apply list_elem_of_fmap. eauto.
  - intros Hf (it & -> & Hin)%list_elem_of_fmap. revert Hf. induction Hin as [it l|it y l Hin IH]; cbn.
    + by rewrite equiv_keys_refl.
    + by destruct (equiv_keys _ _).
Qed.

Lemma fresh_edit `{ProtoRule P} `{!EditTarget P V} (p : ProtoWrapper P) (set set' : list (string * V)) :
  pw_alias p ∉ set.*1 -> apply_edit_action p set = inr set' ->
  exists v0 v, set_attributes_to p target_init = inr v0 /\ add_matchers_to p v0 = inr v
    /\ set' ≡ₚ (pw_alias p, v) :: set.
Proof.
  intros Hn%find_none. unfold apply_edit_action. intros (act & _ & He)%rbind_inr.
  assert (Hg : get_rule set (pw_alias p) = inl (UE_RULE_NOT_FOUND (pw_alias p))) by (unfold get_rule; by rewrite Hn).
  destruct act.
  - by rewrite Hg in He.
  - destruct (has_matchers p); [by rewrite Hg in He|]. unfold delete_rule in He.
    apply rsome_inr in He. by rewrite (proj2 (erase_None fst _ _) Hn) in He.
  - destruct (has_matchers p); [|by rewrite Hg in He].
    apply rbind_inr in He as (v0 & Hv0 & (v & Hv & [= <-])%rbind_inr). exists v0, v.
    split; [done|]. split; [done|]. by apply insert_new.
Qed.

(** The entries of a map are those that the rules of the text describe. *)
Record map_exact {R V} (alias : R -> text) (exact : R -> V -> Prop) (rules : list R) (set : list (string * V))
    : Prop := mkMapExact {
  me_from it : it ∈ set -> exists r, r ∈ rules /\ to_string (alias r) = it.1 /\ exact r it.2;
  me_all r : r ∈ rules -> exists v, (to_string (alias r), v) ∈ set /\ exact r v
}.

Lemma map_exact_snoc {R V} (alias : R -> text) (exact : R -> V -> Prop) rules set r v set' :
  map_exact alias exact rules set -> exact r v -> set' ≡ₚ (to_string (alias r), v) :: set ->
  map_exact alias exact (rules ++ [r]) set'.
Proof.
  intros [Hfrom Hall] He Hp. split.
  - intros it Hit. rewrite Hp in Hit. apply elem_of_cons in Hit as [->|Hit].
    + exists r. split; [apply elem_of_app; right; by apply list_elem_of_singleton|done].
    + destruct (Hfrom it Hit) as (r' & ? & ?). exists r'. split; [apply elem_of_app; by left|done].
  - intros r' [Hin| ->%list_elem_of_singleton]%elem_of_app.
    + destruct (Hall r' Hin) as (v' & ? & ?). exists v'. rewrite Hp. split; [by right|done].
    + exists v. rewrite Hp. split; [by left|done].
Qed.

Lemma map_exact_impl {R V} (alias : R -> text) (exact exact' : R -> V -> Prop) rules set :
  (forall r v, r ∈ rules -> exact r v -> exact' r v) -> map_exact alias exact rules set ->
  map_exact alias exact' rules set.
Proof.
  intros Hi [Hfrom Hall]. split.
  - intros it Hit. destruct (Hfrom it Hit) as (r & ? & ? & ?). eauto.
  - intros r Hr. destruct (Hall r Hr) as (v & ? & ?). eauto.
Qed.

(** ** Network rules *)

Definition set_of (kind : RuleKind) (s : NetRules) : NetIps :=
  match kind with KIND_SRC => nrs_src s | KIND_PROT => nrs_prot s | KIND_DST => nrs_dst s end.
Definition cli_kind (r : CliNetRule) : RuleKind := route (cn_flags r).

Section net_rules.
Context (geodb : CountryMap) (rl : Ratelimits).

Definition built (r : CliNetRule) (net : NetIp) : Prop :=
  exists net0, net_set_attributes_to rl (net_wrapper r) NetIp_init = inr net0
    /\ net_add_matchers_to geodb (net_wrapper r) net0 = inr net.

(** The rules of a kind, in the order of the text. *)
Definition of_kind (kind : RuleKind) (rules : list CliNetRule) : list CliNetRule :=
  filter (fun r => cli_kind r = kind) rules.

Lemma same_id r r' : final_rule_ok r -> final_rule_ok r' -> cli_kind r = cli_kind r' ->
  cn_alias r = cn_alias r' -> rule_id r = rule_id r'.
Proof.
  intros Hr Hr' Hk Ha. unfold rule_id. rewrite Ha. pose proof (fr_kind _ Hr) as H1.
  pose proof (fr_kind _ Hr') as H2. unfold cli_kind, route in Hk. unfold cn_test in *.
  change NetRuleAttr_SRC with NetRuleOpt_SRC in *. change NetRuleAttr_PROTECTED_NET with NetRuleOpt_PROTECTED_NET in *.
  destruct (BitSet_test NetRuleOpt_SRC (cn_flags r)), (BitSet_test NetRuleOpt_SRC (cn_flags r'));
    rewrite ?H1, ?H2 by done; try done;
    destruct (BitSet_test NetRuleOpt_PROTECTED_NET (cn_flags r)),
      (BitSet_test NetRuleOpt_PROTECTED_NET (cn_flags r')); done.
Qed.

(** One rule of the message, in terms of the set that it goes to. *)
Lemma prepare_net_rule_set s r s' : bitset_wf NetRuleAttr_MAX_BIT (cn_flags r) ->
  prepare_net_rule geodb rl s (Some (serialize_net_rule r)) = inr s' ->
  apply_edit_action (EditTarget0 := net_target geodb rl) (net_wrapper r) (set_of (cli_kind r) s)
    = inr (set_of (cli_kind r) s') /\ forall kind, kind <> cli_kind r -> set_of kind s' = set_of kind s.
Proof.
  intros Hf. unfold prepare_net_rule. intros (p & Hp & Hs)%rbind_inr.
  pose proof (net_wrapper_sound r Hf) as Hw. rewrite Hp in Hw. cbn in Hw. subst p.
  unfold cli_kind, route. cbn [pw_flags net_wrapper] in Hs.
  destruct (BitSet_test NetRuleOpt_SRC _); [|destruct (BitSet_test NetRuleOpt_PROTECTED_NET _)];
    apply rbind_inr in Hs as (l & Hl & [= <-]); split; try exact Hl; by intros [].
Qed.

Lemma of_kind_snoc kind rules r :
  of_kind kind (rules ++ [r]) = of_kind kind rules ++ if decide (cli_kind r = kind) then [r] else [].
Proof. unfold of_kind. by rewrite filter_app, filter_cons, filter_nil. Qed.

Lemma rules_built rules s : Forall final_rule_ok rules -> NoDup (rule_id <$> rules) ->
  rfold (fun s r => prepare_net_rule geodb rl s (Some (serialize_net_rule r))) (mkNetRules [] [] []) rules = inr s ->
  forall kind, map_exact cn_alias built (of_kind kind rules) (set_of kind s).
Proof.
  revert s. induction rules as [|r rules IH] using rev_ind; intros s Hok Hnd.
  { intros [= <-] []; split; by intros ? ?%not_elem_of_nil. }
  rewrite rfold_app. intros (s1 & H1 & (s2 & H2 & [= <-])%rbind_inr)%rbind_inr kind.
  apply list.Forall_app in Hok as [Hok [Hr _]%list.Forall_cons]. rewrite fmap_app in Hnd.
  apply list.NoDup_app in Hnd as (Hnd & Hnew & _). specialize (IH s1 Hok Hnd H1).
  destruct (prepare_net_rule_set s1 r s2) as [He Hother]; [apply Hr|done|]. rewrite of_kind_snoc.
  case_decide as Hk; [subst kind|by rewrite app_nil_r, (Hother _ (not_eq_sym Hk))].
  apply fresh_edit in He as (v0 & v & Hv0 & Hv & Hp); [eapply map_exact_snoc; [apply IH|by exists v0|done]|].
  intros (it & Ha & Hin)%list_elem_of_fmap.
  destruct (me_from _ _ _ _ (IH _) _ Hin) as (r' & [Hk Hin']%list_elem_of_filter & Ha' & _).
  cbn in Ha. rewrite <- Ha in Ha'. apply to_string_inj in Ha'. rewrite list.Forall_forall in Hok.
  apply (Hnew (rule_id r')); [by apply list_elem_of_fmap_2|].
  rewrite (same_id r' r) by auto. by apply list_elem_of_singleton.
Qed.
End net_rules.

(** ** What a rule of the manager says, by the rule of the text *)

Definition cli_flags (r : CliNetRule) : Flags :=
  mkFlags (cn_test NetRuleAttr_PROTECTED_NET r) (cn_test NetRuleAttr_SRC r) (cn_test NetRuleAttr_ALLOW r)
    (cn_test NetRuleAttr_TCP r) (cn_test NetRuleAttr_IPV6 r).

(** The key of a network; a destination has a port in place of the prefix. *)
Definition cli_key4 (r : CliNetRule) (n : CliNet4) : Net4Key :=
  mkNet4Key (match cli_kind r with KIND_DST => bpf_htons (c4_port n) | _ => c4_prefix n end)
    (le_combine (c4_addr n)).
Definition cli_key6 (r : CliNetRule) (n : CliNet6) : Net6Key :=
  mkNet6Key (match cli_kind r with KIND_DST => bpf_htons (c6_port n) | _ => c6_prefix n end)
    (ip6_of_bytes (c6_addr n)).
Definition cli_port_list (p : Z * option Z) : list Z :=
  match p.2 with None => [p.1] | Some e => seqZ p.1 (e - p.1 + 1) end.

(** The index of the limit with the given name, none without a name. *)
Definition limit_is (rl : Ratelimits) (name : text) (idx : option Z) : Prop :=
  match name with
  | [] => idx = None
  | _ => exists i, get_active_index (to_string name) rl = Some i /\ idx = Some (Z.of_nat i)
  end.

Record rule_exact (geodb : CountryMap) (rl : Ratelimits) (r : CliNetRule) (net : NetIp) : Prop := mkRuleExact {
  re_flags : ni_flags net = cli_flags r;
  re_limit : limit_is rl (cn_ratelimit r) (ni_ratelimit_index net);
  re_net4s k : k ∈ ni_net4s net <-> k ∈ cli_key4 r <$> cn_net4s r;
  re_net6s k : k ∈ ni_net6s net <-> k ∈ cli_key6 r <$> cn_net6s r;
  re_ports : ni_ports net = bpf_htons <$> (cn_ports r ≫= cli_port_list);
  re_nets : Forall2 (fun n g => load_geo_entry geodb (cc_code n) (negb (cn_test NetRuleAttr_IPV6 r))
                                  (cn_test NetRuleAttr_IPV6 r) = inr g) (cn_nets r) (ni_nets net)
}.

Lemma limit_found rl name idx : get_ratelimit_idx rl (string_or_null name) = inr idx -> limit_is rl name idx.
Proof.
  destruct name as [|c name]; [by intros [= <-]|]. cbn [string_or_null get_ratelimit_idx].
  intros (? & _ & (i & Hi%rsome_inr & [= <-])%rbind_inr)%rbind_inr. by exists i.
Qed.

Lemma key4_of r n k : final_rule_ok r ->
  get_net4key (Some (mkNet4 (Some (c4_addr n)) (c4_port n) (c4_prefix n))) (cli_flags r) = inr k -> k = cli_key4 r n.
Proof.
  intros Hr. pose proof (fr_kind _ Hr) as Hk. unfold get_net4key. cbn [rsome rbind m4_addr].
  intros (? & _ & Hs)%rbind_inr. unfold cli_flags in Hs. cbn [isProcNet isSrc] in Hs.
  unfold cli_key4, cli_kind, route. unfold cn_test in *.
  change NetRuleAttr_SRC with NetRuleOpt_SRC in *. change NetRuleAttr_PROTECTED_NET with NetRuleOpt_PROTECTED_NET in *.
  destruct (BitSet_test NetRuleOpt_SRC _); [rewrite Hk in Hs by done|destruct (BitSet_test NetRuleOpt_PROTECTED_NET _)];
    unfold get_net4key_src, get_net4key_prot_net, get_net4key_dst in Hs;
    repeat (apply rbind_inr in Hs as (? & _ & Hs)); by injection Hs as <-.
Qed.

Lemma key6_of r n k : final_rule_ok r ->
  get_net6key (Some (mkNet6 (Some (c6_addr n)) (c6_port n) (c6_prefix n))) (cli_flags r) = inr k -> k = cli_key6 r n.
Proof.
  intros Hr. pose proof (fr_kind _ Hr) as Hk. unfold get_net6key. cbn [rsome rbind m6_addr].
  intros (? & _ & Hs)%rbind_inr. unfold cli_flags in Hs. cbn [isProcNet isSrc] in Hs.
  unfold cli_key6, cli_kind, route. unfold cn_test in *.
  change NetRuleAttr_SRC with NetRuleOpt_SRC in *. change NetRuleAttr_PROTECTED_NET with NetRuleOpt_PROTECTED_NET in *.
  destruct (BitSet_test NetRuleOpt_SRC _); [rewrite Hk in Hs by done|destruct (BitSet_test NetRuleOpt_PROTECTED_NET _)];
    unfold get_net6key_src, get_net6key_prot_net, get_net6key_dst in Hs;
    repeat (apply rbind_inr in Hs as (? & _ & Hs)); by injection Hs as <-.
Qed.

(** *** The loops over the matchers *)

Lemma add_net4s_exact r l to to' : final_rule_ok r -> ni_flags to = cli_flags r ->
  rfold (fun to n => add_net4 to (Some (mkNet4 (Some (c4_addr n)) (c4_port n) (c4_prefix n)))) to l = inr to' ->
  exists l4, to' = set_net4s l4 to /\ forall k, k ∈ l4 <-> k ∈ ni_net4s to \/ k ∈ cli_key4 r <$> l.
Proof.
  intros Hr. revert to. induction l as [|n l IH]; intros to Hf.
  { intros [= <-]. exists (ni_net4s to). split; [by destruct to|]. intros k. cbn. rewrite elem_of_nil. tauto. }
  cbn [rfold]. intros (to1 & (k1 & Hk1 & (n4 & Hn4%rsome_inr & [= <-])%rbind_inr)%rbind_inr & Hl)%rbind_inr.
  rewrite Hf in Hk1. apply key4_of in Hk1 as ->; [|done]. apply set_insert_Some in Hn4 as [Hnone ->].
  apply IH in Hl as (l4 & -> & Hin); [|done]. exists l4. split; [done|]. intros k. rewrite Hin. cbn [ni_net4s set_net4s].
  rewrite (insert_new id) by done. cbn. rewrite !elem_of_cons. tauto.
Qed.

Lemma add_net6s_exact r l to to' : final_rule_ok r -> ni_flags to = cli_flags r ->
  rfold (fun to n => add_net6 to (Some (mkNet6 (Some (c6_addr n)) (c6_port n) (c6_prefix n)))) to l = inr to' ->
  exists l6, to' = set_net6s l6 to /\ forall k, k ∈ l6 <-> k ∈ ni_net6s to \/ k ∈ cli_key6 r <$> l.
Proof.
  intros Hr. revert to. induction l as [|n l IH]; intros to Hf.
  { intros [= <-]. exists (ni_net6s to). split; [by destruct to|]. intros k. cbn. rewrite elem_of_nil. tauto. }
  cbn [rfold]. intros (to1 & (k1 & Hk1 & (n6 & Hn6%rsome_inr & [= <-])%rbind_inr)%rbind_inr & Hl)%rbind_inr.
  rewrite Hf in Hk1. apply key6_of in Hk1 as ->; [|done]. apply set_insert_Some in Hn6 as [Hnone ->].
  apply IH in Hl as (l6 & -> & Hin); [|done]. exists l6. split; [done|]. intros k. rewrite Hin. cbn [ni_net6s set_net6s].
  rewrite (insert_new id) by done. cbn. rewrite !elem_of_cons. tauto.
Qed.

Lemma vec_adds_exact (f : Z -> Z) l v v' : rfold (fun v p => vec_add v (f p)) v l = inr v' -> v' = v ++ (f <$> l).
Proof.
  revert v. induction l as [|p l IH]; intros v; cbn [rfold]; [intros [= <-]; by rewrite app_nil_r|].
  intros (v1 & H1 & H2)%rbind_inr. apply IH in H2 as ->. unfold vec_add in H1. case_decide; [done|].
  injection H1 as <-. rewrite <- app_assoc. done.
Qed.

Lemma ports_exact l v v' : Forall cli_ports_ok l ->
  rfold (fun v p => over_ports vec_add v (mkPortPair p.1 (default 0 p.2))) v l = inr v' ->
  v' = v ++ (bpf_htons <$> (l ≫= cli_port_list)).
Proof.
  intros Hl. revert v. induction Hl as [|p l Hp _ IH]; intros v; cbn [rfold]; [intros [= <-]; by rewrite app_nil_r|].
  intros (v1 & H1 & H2)%rbind_inr. apply IH in H2 as ->. unfold over_ports in H1.
  apply rbind_inr in H1 as (range & Hr & H1). apply vec_adds_exact in H1 as ->.
  rewrite <- app_assoc. f_equal. cbn [mbind list_bind]. rewrite fmap_app. f_equal. f_equal.
  destruct p as [p e], Hp as [Hp He]. cbn [pp_port pp_port_end fst snd] in *. unfold ports_from_range in Hr.
  unfold cli_port_list. destruct e as [e|]; cbn [fst snd default from_option id] in *; [|by injection Hr as <-].
  specialize (He e eq_refl). rewrite (proj2 (Z.eqb_neq _ _)) in Hr by lia.
  rewrite (proj2 (Z.leb_gt _ _)) in Hr by lia. by injection Hr as <-.
Qed.

Lemma nets_exact geodb l to to' :
  rfold (fun to n => add_geo geodb to (Some (mkNetCode (cc_port n) (cc_code n)))) to l = inr to' ->
  exists gs, to' = set_nets (ni_nets to ++ gs) to /\
    Forall2 (fun n g => load_geo_entry geodb (cc_code n) (negb (isIpv6 (ni_flags to))) (isIpv6 (ni_flags to)) = inr g) l gs.
Proof.
  revert to. induction l as [|n l IH]; intros to; cbn [rfold].
  { intros [= <-]. exists []. split; [|constructor]. rewrite app_nil_r. by destruct to. }
  intros (to1 & H1 & H2)%rbind_inr. apply IH in H2 as (gs & -> & Hgs). unfold add_geo in H1.
  apply rbind_inr in H1 as (d & [= <-] & (? & _ & (g & Hg & [= <-])%rbind_inr)%rbind_inr). cbn [nc_code] in Hg.
  exists (g :: gs). cbn [ni_nets set_nets ni_flags] in *. rewrite <- app_assoc. split; [done|]. constructor; [|done].
  unfold geo in Hg. destruct (load_geo_entry _ _ _ _); [done|]. by injection Hg as <-.
Qed.

Lemma rule_ports_exact l (to to' : NetIp) : Forall cli_ports_ok l ->
  (match vector_or_null (fun p => mkPortPair p.1 (default 0 p.2)) l with
   | None => inr to
   | Some ports =>
       rverify (isSrc (ni_flags to)) UE_ONLY_SRC ;?
       let? l := rfold (over_ports vec_add) (ni_ports to) ports in inr (set_ports l to)
   end) = inr to' ->
  to' = set_ports (ni_ports to ++ (bpf_htons <$> (l ≫= cli_port_list))) to.
Proof.
  intros Hl. destruct (vector_or_null _ l) as [v|] eqn:Hv.
  - intros (? & _ & (ports & Hp & [= <-])%rbind_inr)%rbind_inr.
    change (over (Some v) (over_ports vec_add) (ni_ports to) = inr ports) in Hp.
    rewrite <- Hv, over_vector in Hp. by apply ports_exact in Hp as ->.
  - destruct l; [|done]. intros [= <-]. cbn. rewrite app_nil_r. by destruct to.
Qed.

Lemma rule_nets_exact geodb l (to to' : NetIp) :
  (match vector_or_null (fun n => Some (mkNetCode (cc_port n) (cc_code n))) l with
   | None => inr to
   | Some nets => rverify (isSrc (ni_flags to)) UE_ONLY_SRC ;? rfold (add_geo geodb) to nets
   end) = inr to' ->
  exists gs, to' = set_nets (ni_nets to ++ gs) to /\
    Forall2 (fun n g => load_geo_entry geodb (cc_code n) (negb (isIpv6 (ni_flags to))) (isIpv6 (ni_flags to)) = inr g) l gs.
Proof.
  destruct (vector_or_null _ l) as [v|] eqn:Hv.
  - intros (? & _ & Hg)%rbind_inr. change (over (Some v) (add_geo geodb) to = inr to') in Hg.
    rewrite <- Hv, over_vector in Hg. by apply nets_exact.
  - destruct l; [|done]. intros [= <-]. exists []. split; [|constructor]. rewrite app_nil_r. by destruct to.
Qed.

Lemma built_exact geodb rl r net : final_rule_ok r -> built geodb rl r net -> rule_exact geodb rl r net.
Proof.
  intros Hr (net0 & Hattr & Hadd). pose proof (fr_rule _ Hr) as [_ _ _ _ Hports].
  unfold net_set_attributes_to in Hattr. apply rbind_inr in Hattr as (idx & Hidx & [= <-]).
  apply limit_found in Hidx. unfold net_add_matchers_to in Hadd.
  cbn [pw_rule pw_flags net_wrapper serialize_net_rule nr_net6s nr_net4s nr_ports nr_nets NetIp_init ni_net4s ni_net6s ni_nets ni_ports] in Hadd.
  rewrite !over_vector in Hadd. apply rbind_inr in Hadd as (n1 & H1 & Hadd).
  apply (add_net6s_exact r) in H1 as (l6 & -> & H6); [|done|done].
  rewrite over_vector in Hadd. apply rbind_inr in Hadd as (n2 & H2 & Hadd).
  apply (add_net4s_exact r) in H2 as (l4 & -> & H4); [|done|done].
  apply rbind_inr in Hadd as (n3 & H3 & Hadd). apply rule_ports_exact in H3 as ->; [|done].
  apply rule_nets_exact in Hadd as (gs & -> & Hgs). split; try done.
  - intros k. cbn. rewrite H4. cbn. rewrite elem_of_nil. tauto.
  - intros k. cbn. rewrite H6. cbn. rewrite elem_of_nil. tauto.
Qed.

(** ** ICMP rules *)

Record icmp_exact (rl : Ratelimits) (r : CliIcmpRule) (rule : IcmpRule) : Prop := mkIcmpExact {
  ie_allow : ir_isAllowed rule = BitSet_test IcmpRuleAttr_ALLOW (ci_flags r);
  ie_ipv6 : ir_isIpv6 rule = BitSet_test IcmpRuleAttr_IPV6 (ci_flags r);
  ie_limit : limit_is rl (ci_ratelimit r) (ir_ratelimit_index rule);
  ie_types : ir_types rule = ci_types r
}.

Lemma icmp_rules_exact rl rules set : Forall final_icmp_ok rules -> NoDup (ci_alias <$> rules) ->
  rfold (fun rs r => let? rule := ProtoWrapper_of (Some (serialize_icmp_rule r)) in
                     apply_edit_action (EditTarget0 := icmp_target rl) rule rs) [] rules = inr set ->
  map_exact ci_alias (icmp_exact rl) rules set.
Proof.
  revert set. induction rules as [|r rules IH] using rev_ind; intros set Hok Hnd.
  { intros [= <-]. split; by intros ? ?%not_elem_of_nil. }
  rewrite rfold_app. intros (s1 & H1 & (s2 & (p & Hp & H2)%rbind_inr & [= <-])%rbind_inr)%rbind_inr.
  apply list.Forall_app in Hok as [Hok [Hr _]%list.Forall_cons]. rewrite fmap_app in Hnd.
  apply list.NoDup_app in Hnd as (Hnd & Hnew & _). specialize (IH s1 Hok Hnd H1).
  pose proof (icmp_wrapper_sound r (cio_flags _ (fi_rule _ Hr))) as Hw. rewrite Hp in Hw. cbn in Hw. subst p.
  apply fresh_edit in H2 as (v0 & v & Hv0 & Hv & Hperm).
  2: { intros (it & Ha & Hin)%list_elem_of_fmap. destruct (me_from _ _ _ _ IH _ Hin) as (r' & Hin' & Ha' & _).
    cbn in Ha. rewrite <- Ha in Ha'. apply to_string_inj in Ha'.
    apply (Hnew (ci_alias r')); [by apply list_elem_of_fmap_2|]. rewrite Ha'. by apply list_elem_of_singleton. }
  eapply map_exact_snoc; [done| |done].
  apply rbind_inr in Hv0 as (idx & Hidx & [= <-]). apply limit_found in Hidx.
  apply rbind_inr in Hv as (types & Ht & [= <-]).
  apply (vec_adds_exact id) in Ht as ->. split; try done. cbn. by rewrite list_fmap_id.
Qed.

(** ** Named limits *)

Definition limits_exact (limits : list CliRatelimit) (rl : Ratelimits) : Prop :=
  forall a rate, active_rate rl a = Some rate <-> exists l, l ∈ limits /\ to_string (crl_alias l) = a
    /\ BitSet_test RatelimitAttr_DELETE (crl_flags l) = false
    /\ rate = (default 0 (crl_pps l), default 0 (crl_bps l)).

Lemma prepare_limit_rate rl l rl' : cli_ratelimit_ok l -> rl_inv rl ->
  prepare_ratelimit rl (Some (serialize_ratelimit l)) = inr rl' ->
  rl_inv rl' /\ forall a, active_rate rl' a = if decide (a = to_string (crl_alias l))
    then if BitSet_test RatelimitAttr_DELETE (crl_flags l) then None
         else Some (default 0 (crl_pps l), default 0 (crl_bps l))
    else active_rate rl a.
Proof.
  intros [Hf _ _] Hrl. unfold prepare_ratelimit. cbn [rsome rbind serialize_ratelimit rm_alias rm_flags rm_pps rm_bps].
  intros (? & _ & Hs)%rbind_inr. rewrite (read_bitset RatelimitAttr_MAX_BIT) in Hs by done. cbn [rsome rbind] in Hs.
  change RatelimitAttr_DELETE with RatelimitOpt_DELETE.
  destruct (BitSet_test RatelimitOpt_DELETE _); apply rsome_inr in Hs.
  - split; [by eapply inactivate_inv|]. intros a. by apply active_rate_inactivate.
  - split; [by eapply upsert_inv|]. intros a. by apply active_rate_upsert.
Qed.

Lemma prepare_limits_exact limits rl rl' :
  Forall (fun l => cli_ratelimit_ok l /\ crl_alias l <> []) limits -> NoDup (crl_alias <$> limits) ->
  rl_inv rl -> (forall a, active_rate rl a = None) ->
  rfold (fun rl l => prepare_ratelimit rl (Some (serialize_ratelimit l))) rl limits = inr rl' ->
  rl_inv rl' /\ limits_exact limits rl'.
Proof.
  intros Hok Hnd Hrl Hnone. revert rl'. induction limits as [|l limits IH] using rev_ind; intros rl'.
  { intros [= <-]. split; [done|]. intros a rate. rewrite Hnone. split; [done|].
    by intros (? & ?%not_elem_of_nil & _). }
  rewrite rfold_app. intros (r1 & H1 & (r2 & H2 & [= <-])%rbind_inr)%rbind_inr.
  apply list.Forall_app in Hok as [Hok [[Hl _] _]%list.Forall_cons]. rewrite fmap_app in Hnd.
  apply list.NoDup_app in Hnd as (Hnd & Hnew & _). destruct (IH Hok Hnd r1 H1) as [Hr1 Hex].
  destruct (prepare_limit_rate r1 l r2 Hl Hr1 H2) as [Hr2 Hrate]. split; [done|]. intros a rate. rewrite Hrate.
  setoid_rewrite elem_of_app. setoid_rewrite list_elem_of_singleton. case_decide as Ha.
  - split.
    + destruct (BitSet_test _ _) eqn:Hd; [done|]. intros [= <-]. exists l. subst a. auto.
    + intros (l' & [Hin| ->] & Ha' & Hd & ->); [|by rewrite Hd]. subst a. apply to_string_inj in Ha'.
      destruct (Hnew (crl_alias l')); [by apply list_elem_of_fmap_2|]. rewrite Ha'. by apply list_elem_of_singleton.
  - rewrite (Hex a rate). split; intros (l' & Hin & Ha' & Hd & Hr).
    + exists l'. auto.
    + destruct Hin as [Hin| ->]; [by exists l'|by destruct Ha].
Qed.

(** ** Defaults *)

Definition default_exact (rl : Ratelimits) (d : CliDefaultAction) (a : Action) : Prop :=
  allow_ a = cd_allow d /\ limit_is rl (cd_ratelimit d) (act_ratelimit_index a).

(** The actions by index, and the sections of the text with that index. *)
Record defaults_exact (rl : Ratelimits) (ds : list CliDefaultAction) (m : Defaults) : Prop := mkDefaultsExact {
  de_from i a : m i = Some a -> exists d, d ∈ ds /\ BitSet_test (enum_z i) (cd_flags d) = true /\ default_exact rl d a;
  de_all i d : d ∈ ds -> BitSet_test (enum_z i) (cd_flags d) = true -> exists a, m i = Some a /\ default_exact rl d a
}.

(** An action is never overwritten. *)
Lemma set_default_spec flags a ds j ds' i b : set_default flags a ds j = inr ds' ->
  (ds i = Some b -> ds' i = Some b) /\ (BitSet_test (enum_z j) flags = true -> ds' j = Some a)
  /\ (ds' i = Some b -> ds i = Some b \/ BitSet_test (enum_z i) flags = true /\ b = a).
Proof.
  unfold set_default. destruct (BitSet_test (enum_z j) flags) eqn:Ht; cbn [negb].
  - destruct (ds j) eqn:Hj; [done|]. intros [= <-]. repeat case_decide; subst; naive_solver.
  - intros [= <-]. naive_solver.
Qed.

Lemma set_defaults_spec flags a l ds ds' : rfold (set_default flags a) ds l = inr ds' -> forall i b,
  (ds i = Some b -> ds' i = Some b) /\ (BitSet_test (enum_z i) flags = true -> i ∈ l -> ds' i = Some a)
  /\ (ds' i = Some b -> ds i = Some b \/ BitSet_test (enum_z i) flags = true /\ b = a).
Proof.
  revert ds. induction l as [|j l IH]; intros ds; cbn [rfold].
  { intros [= <-] i b. split_and!; [done|by intros _ ?%not_elem_of_nil|by left]. }
  intros (d1 & H1 & H2)%rbind_inr i b. pose proof (set_default_spec _ _ _ _ _ i b H1) as (Hk & Hn & Hf).
  destruct (IH d1 H2 i b) as (Hk2 & _ & Hf2). split_and!.
  - auto.
  - intros Ht [->|Hin]%elem_of_cons; [by apply (proj1 (IH d1 H2 j a)), Hn|by apply (IH d1 H2 i b)].
  - intros [Hd|Hd]%Hf2; [by apply Hf|by right].
Qed.

Lemma all_defaults (i : DefaultIndex) : i ∈ (enum_values : list DefaultIndex).
Proof. eapply list_elem_of_lookup_2, enum_nth. Qed.

Lemma prepare_defaults_exact rl l m : Forall (fun d => bitset_wf XFW_DEFAULT_MAX (cd_flags d)) l ->
  rfold (fun ds d => prepare_default rl ds (Some (serialize_default d))) (fun _ => None) l = inr m ->
  defaults_exact rl l m.
Proof.
  intros Hw. revert m. induction l as [|d l IH] using rev_ind; intros m.
  { intros [= <-]. split; [done|]. by intros ? ? ?%not_elem_of_nil. }
  rewrite rfold_app. intros (m1 & H1 & (m2 & H2 & [= <-])%rbind_inr)%rbind_inr.
  apply list.Forall_app in Hw as [Hw [Hd _]%list.Forall_cons]. destruct (IH Hw m1 H1) as [Hfrom Hall].
  unfold prepare_default in H2. cbn [rsome rbind serialize_default da_flags da_ratelimit da_allow] in H2.
  apply rbind_inr in H2 as (idx & Hidx%limit_found & H2).
  rewrite (read_bitset XFW_DEFAULT_MAX) in H2 by done. cbn [rsome rbind] in H2.
  pose proof (set_defaults_spec _ _ _ _ _ H2) as Hs. split.
  - intros i a Ha. destruct (Hs i a) as (_ & _ & Hf). apply Hf in Ha as [Ha|[Ht ->]].
    + destruct (Hfrom i a Ha) as (d' & ? & ?). exists d'. split; [apply elem_of_app; by left|done].
    + exists d. split; [apply elem_of_app; right; by apply list_elem_of_singleton|done].
  - intros i d' [Hin| ->%list_elem_of_singleton]%elem_of_app Ht.
    + destruct (Hall i d' Hin Ht) as (a & Ha & Hex). exists a. split; [|done]. by apply (Hs i a).
    + eexists. split; [by apply (Hs i (mkAction (cd_allow d) idx)), all_defaults|done].
Qed.

(** ** The whole configuration *)

Record config_exact (geodb : CountryMap) (x : XfwConf) (c : XfwConfig) : Prop := mkConfigExact {
  ce_rules kind : map_exact cn_alias (rule_exact geodb (ratelimits c)) (of_kind kind (x_net_rules x))
    (match kind with KIND_SRC => src_rules c | KIND_PROT => prot_net c | KIND_DST => dst_rules c end);
  ce_icmp : map_exact ci_alias (icmp_exact (ratelimits c)) (x_icmp_rules x) (icmp_rules c);
  ce_limits : limits_exact (x_ratelimits x) (ratelimits c);
  ce_defaults : defaults_exact (ratelimits c) (x_defaults x) (defaults c);
  ce_evaluation : evaluation_mode c = BitSet_test Opt_EVALUATION_MODE_ON (x_flags x)
    && negb (BitSet_test Opt_EVALUATION_MODE_OFF (x_flags x));
  ce_auth : auth_filter c = BitSet_test Opt_TCP_AUTH_FILTER_ON (x_flags x)
    && negb (BitSet_test Opt_TCP_AUTH_FILTER_OFF (x_flags x));
  ce_dns : dns_filter c = BitSet_test Opt_DNS_FILTER_ON (x_flags x)
    && negb (BitSet_test Opt_DNS_FILTER_OFF (x_flags x));
  ce_ip_proto : ip_proto_filter c =
    if BitSet_test Opt_IP_PROTO_FILTER_OFF (x_flags x) then None else x_ip_proto x
}.

Lemma full_config_built geodb config x c : (forall c0, config = Some c0 -> config_ok c0) -> conf_ok false x ->
  prepared_config geodb config (serialize x) = inr c -> config_exact geodb x c.
Proof.
  intros Hc Hx (r & Hr & Hp)%rbind_inr.
  destruct (full_start config (serialize x) (x_flags x) r Hc eq_refl (xo_patch _ _ Hx) Hr) as (rl & -> & Hrl & Hnone).
  cbn [fst snd] in Hp. unfold prepare_update in Hp.
  apply rbind_inr in Hp as (ip & Hip & (rl1 & Hrl1 & (ds & Hds & (nets & Hnets & (af & _ & Hp)%rbind_inr)%rbind_inr)%rbind_inr)%rbind_inr).
  apply rbind_inr in Hp as (? & _ & (tf & _ & (icmp & Hicmp & [= <-])%rbind_inr)%rbind_inr).
  unfold prepare_ratelimits in Hrl1. cbn [serialize xc_ratelimits ratelimits] in Hrl1. rewrite over_vector in Hrl1.
  destruct (prepare_limits_exact _ _ _ (xo_ratelimits _ _ Hx) (xo_ratelimit_ids _ _ Hx) Hrl Hnone Hrl1) as [_ Hlim].
  split; cbn [ratelimits icmp_rules defaults evaluation_mode auth_filter dns_filter ip_proto_filter]; try done.
  - intros kind. unfold prepare_net_rules in Hnets. cbn [serialize xc_net_rules src_rules prot_net dst_rules] in Hnets.
    rewrite over_vector in Hnets.
    apply (map_exact_impl _ (built geodb rl1)).
    + intros r v [_ Hin]%list_elem_of_filter. apply built_exact. pose proof (xo_rules _ _ Hx) as Hall.
      rewrite list.Forall_forall in Hall. by apply Hall.
    + pose proof (rules_built _ _ _ _ (xo_rules _ _ Hx) (xo_rule_ids _ _ Hx) Hnets kind) as Hb. by destruct kind.
  - unfold prepare_icmp_rules in Hicmp. cbn [serialize xc_icmp_rules icmp_rules] in Hicmp. rewrite over_vector in Hicmp.
    by apply icmp_rules_exact; [apply Hx..|].
  - unfold prepare_defaults in Hds. cbn [serialize xc_defaults defaults] in Hds.
    destruct (vector_or_null _ (x_defaults x)) as [v|] eqn:Hv.
    + change (over (Some v) (prepare_default rl1) (fun _ => None) = inr ds) in Hds. rewrite <- Hv, over_vector in Hds.
      apply prepare_defaults_exact; [apply (xo_defaults _ _ Hx)|done].
    + injection Hds as <-. destruct (x_defaults x); [|done]. split; [done|]. by intros ? ? ?%not_elem_of_nil.
  - unfold prepare_evaluation_mode. cbn. change EVALUATION_MODE_OFF with Opt_EVALUATION_MODE_OFF.
    change EVALUATION_MODE_ON with Opt_EVALUATION_MODE_ON. by do 2 destruct (BitSet_test _ _).
  - unfold prepare_tcp_auth_filter. cbn. change TCP_AUTH_FILTER_OFF with Opt_TCP_AUTH_FILTER_OFF.
    change TCP_AUTH_FILTER_ON with Opt_TCP_AUTH_FILTER_ON. by do 2 destruct (BitSet_test _ _).
  - unfold prepare_dns_filter. cbn. change DNS_FILTER_OFF with Opt_DNS_FILTER_OFF.
    change DNS_FILTER_ON with Opt_DNS_FILTER_ON. by do 2 destruct (BitSet_test _ _).
  - unfold prepare_protocols in Hip. cbn [serialize xc_ip_proto ip_proto_filter] in Hip.
    change IP_PROTO_FILTER_OFF with Opt_IP_PROTO_FILTER_OFF in Hip. destruct (BitSet_test _ _); [by injection Hip as <-|].
    pose proof (xo_ip_proto _ _ Hx) as Hpr. destruct (x_ip_proto x) as [p|]; [|by injection Hip as <-].
    cbn [fmap option_fmap option_map pm_protocols rsome rbind] in Hip.
    rewrite (read_bitset XFW_SUPPORTED_PROTOCOL_MAX) in Hip by auto. by injection Hip as <-.
Qed.
