(* ===== verification/ClientClaims.v ===== *)
(** * ClientClaims: from a configuration text to the firewall

    The guarantees of the command line client: its parser is total and never fails
    an assertion, what it sends is never malformed for the manager, and a full
    configuration that is accepted is the one that the manager keeps and puts in
    force. *)

From S2P Require Import Prelude.
From S2P Require Import Enums.
From S2P Require Import Uapi.
From S2P Require Import Bitset.
From S2P Require Import Config.
From S2P Require Import MapsManager.
From S2P Require Import ManagerSpec.
From S2P Require Import Manager.
From S2P Require Import ManagerClaims.
From S2P Require Import GeoIp.
From S2P Require Import StdMap.
From S2P Require Import Proto.
From S2P Require Import ConfigUpdater.
From S2P Require Import UpdaterSpec.
From S2P Require Import Service.
From S2P Require Import ServiceClaims.
From S2P Require Import LineConsumer.
From S2P Require Import Tcl.
From S2P Require Import Cli.
From S2P Require Import CliSpec.
From S2P Require Import CliProgress.
From S2P Require Import Serialize.
From S2P Require Import ClientMsg.
From S2P Require Import ClientExact.

Open Scope Z_scope.

(** ** The request *)

(** The records of Tempesta TL and FW do not change the manager. *)
Lemma handle_request hz `{MgrKernel} conf x reqs recs rs s rs' s' :
  xfw_conf conf = Some x -> build_set_config_request conf = inr reqs -> recs.*2 = reqs ->
  handle_records hz recs rs s = (rs', s') -> rs' <> INTERNAL ->
  exists w, update_xfw_config hz (w_env w) (serialize x) s = (None, s').
Proof.
  unfold build_set_config_request. intros ->.
  assert (Hone : forall recs, recs.*2 = [RRT_XFW_CFG (serialize x)] -> handle_records hz recs rs s = (rs', s') ->
    rs' <> INTERNAL -> exists w, update_xfw_config hz (w_env w) (serialize x) s = (None, s')).
  { intros [|[w r] [|? ?]] Hr; try done. injection Hr as ->. cbn [handle_records handle_record].
    destruct (update_xfw_config _ _ _ _) as [[e|] s1] eqn:Hu; intros [= <- <-]; [done|]. by exists w. }
  intros Hb Hrecs. revert Hb. destruct (tl_prog_txt conf), (tfw_conf conf); cbn; intros [= <-];
    [by apply Hone|..]; destruct recs as [|[w1 r1] recs]; try done; injection Hrecs as -> Hrecs; cbn;
    [by apply Hone..|]; destruct recs as [|[w2 r2] recs]; try done; injection Hrecs as -> Hrecs; cbn; by apply Hone.
Qed.

(** The manager in the state [s], as the stub of the client sees it. *)
Definition manager_stub (hz : Z) `{MgrKernel} (w : World) (s : Xfw) (recs : list ReqRecord) : Reply :=
  RPC_RESPONSE ProtoVersion (send hz ProtoVersion (pair w <$> recs) s).1.

(** The text of a full configuration among the options. *)
Definition full_text (vm : PushOptions) (t : text) : Prop :=
  po_conf_inline vm = Some t \/ exists f, po_conf vm = Some f /\ read_file f = Some t.

Section claims.
Context `{BoostIpSpec}.

Lemma push_full stub vm t : full_text vm t -> push_data stub vm = Exit_Ok ->
  exists conf recs, tcl_parse_full_conf t = Some conf /\ build_set_config_request conf = inr recs
    /\ process_response (stub recs) = true.
Proof.
  intros Ht. unfold push_data. destruct (opt_cnt vm =? 1)%nat eqn:Hn; [|done]. cbn [negb]. cbv zeta.
  apply Nat.eqb_eq in Hn.
  assert (Hconf : match po_tl vm with Some prog => tcl_parse_tl prog | None =>
    match po_patch_inline vm with Some prog => tcl_parse_patch_conf prog | None =>
    match po_patch vm with Some f => prog ← read_file f; tcl_parse_patch_conf prog | None =>
    match po_conf_inline vm with Some prog => tcl_parse_full_conf prog | None =>
    match po_conf vm with Some f => prog ← read_file f; tcl_parse_full_conf prog | None => None end end end end end
    = tcl_parse_full_conf t).
  { unfold opt_cnt in Hn. destruct Ht as [He|(f & He & Hf)]; rewrite He in *; cbn [given] in Hn;
    (destruct (po_tl vm); [cbn in Hn; lia|]); (destruct (po_patch_inline vm); [cbn in Hn; lia|]);
    (destruct (po_patch vm); [cbn in Hn; lia|]); [done|].
    destruct (po_conf_inline vm); [cbn in Hn; lia|]. by rewrite Hf. }
  rewrite Hconf. destruct (tcl_parse_full_conf t) as [conf|]; [|done]. unfold send_configuration.
  destruct (build_set_config_request conf) as [e|recs] eqn:Hreq; [done|]. cbn [rbind].
  destruct (process_response _) eqn:Hr; [|done]. intros _. by exists conf, recs.
Qed.

(** C11: the parser of the client is total: on every text it returns a well-formed
    configuration or reports an error of the text. No assertion fails, no character
    is read beyond the line, and the loop over a line ends: its bound is never met. *)
Theorem client_parser_total t :
  match parse_config t with
  | inl e => e <> CE_ASSERT /\ e <> CE_FUEL
  | inr conf => forall x, xfw_conf conf = Some x -> conf_ok false x
  end.
Proof. exact (parse_config_ok t). Qed.

(** C14: what the client sends for a text that it accepts is never malformed for the
    manager, whatever its state: no field is missing, the sets of flags, the
    addresses and the ranges of ports have the form that the manager asks for, no
    rule is both replaced and deleted and no default is given twice. *)
Theorem client_message_well_formed t patch conf x geodb config :
  tcl_parse_conf t patch = Some conf -> xfw_conf conf = Some x ->
  msg_typed (serialize x)
  /\ match prepared_config geodb config (serialize x) with inl e => malformed e = false | inr _ => True end.
Proof.
  intros Hp Hx. pose proof (tcl_parse_conf_ok t patch conf Hp x Hx) as Hok.
  split; [by eapply serialize_typed|]. exact (prepared_sound patch x geodb config Hok).
Qed.

End claims.

(** ** Numbers that are out of range

    The value of a mask is cut to 32 bits before it is compared with the limit, and
    the text behind its digits is ignored; the type of an ICMP rule is cut to
    8 bits. *)
Lemma mask_wraps : read_ip4_address (T "10.0.0.0/4294967304") = inr (T "10.0.0.0", Some 8, None).
Proof. vm_compute. reflexivity. Qed.

Lemma mask_rest_ignored : read_ip4_address (T "10.0.0.0/8abc") = inr (T "10.0.0.0", Some 8, None).
Proof. vm_compute. reflexivity. Qed.

Lemma icmp_type_wraps h :
  let o := with_base (set_line (T "264 }") (base_ (new_sec (IcmpSection IcmpRule_empty))))
             (new_sec (IcmpSection IcmpRule_empty)) in
  match icmp_body IcmpRule_empty (o, h) with
  | inr (Mine, (o', _)) => members_ o' = IcmpSection (mkCliIcmpRule [] (ci_flags IcmpRule_empty) [8] [])
  | _ => False
  end.
Proof. vm_compute. reflexivity. Qed.

(** ** Witnesses *)

(** A reader of addresses that knows one of them. *)
Definition sample_boost : BoostIp := {|
  from_string t := if text_eqb t (T "10.0.0.2") then Some (IP_V4 [10; 0; 0; 2]) else None
|}.

Lemma sample_boost_spec : @BoostIpSpec sample_boost.
Proof.
  split; intros t b; cbn; destruct (text_eqb t _); intros [= <-]. split; [done|].
  repeat constructor; discriminate.
Qed.

(** The text of the sample message of [ServiceClaims]. *)
Definition sample_text : text :=
  T "xfw {" ++ [newline]
  ++ T "ratelimit=a pps=10 bps=1000;" ++ [newline]
  ++ T "dst=web ip4.tcp: ratelimit=a { 10.0.0.2:80 }" ++ [newline] ++ T "}".

Definition sample_conf : TlProgConf :=
  match @tcl_parse_full_conf sample_boost sample_text with Some c => c | None => TlProgConf_init end.
Definition sample_xfw : XfwConf := default XfwConf_init (xfw_conf sample_conf).

Lemma sample_parse : @parse_config sample_boost sample_text = inr sample_conf.
Proof. vm_compute. reflexivity. Qed.

Lemma sample_accepted : @tcl_parse_conf sample_boost sample_text false = Some sample_conf.
Proof. vm_compute. reflexivity. Qed.

Lemma sample_text_parsed : @tcl_parse_full_conf sample_boost sample_text = Some sample_conf.
Proof. vm_compute. reflexivity. Qed.

Lemma sample_conf_xfw : xfw_conf sample_conf = Some sample_xfw.
Proof. vm_compute. reflexivity. Qed.

Lemma sample_xfw_msg : serialize sample_xfw = sample_msg.
Proof. vm_compute. reflexivity. Qed.

Lemma sample_request : build_set_config_request sample_conf = inr [RRT_XFW_CFG (serialize sample_xfw)].
Proof. vm_compute. reflexivity. Qed.

Lemma client_parser_total_witness : exists conf, @parse_config sample_boost sample_text = inr conf
  /\ forall x, xfw_conf conf = Some x -> conf_ok false x.
Proof.
  pose proof (@client_parser_total sample_boost sample_boost_spec sample_text) as Ht. rewrite sample_parse in Ht.
  exists sample_conf. split; [exact sample_parse|exact Ht].
Defined.

Lemma client_message_well_formed_witness : msg_typed sample_msg
  /\ match prepared_config ∅ None sample_msg with inl e => malformed e = false | inr _ => True end.
Proof.
  rewrite <- sample_xfw_msg.
  pose proof (@client_message_well_formed sample_boost sample_boost_spec sample_text false sample_conf sample_xfw
    ∅ None sample_accepted sample_conf_xfw) as Hw. exact Hw.
Defined.

