(* ===== verification/Window.v ===== *)
(** * Window: the sliding window and the rates of the manager

    The constructor of [BpfMapsManager] derives the window of the rate limiter
    from CONFIG_HZ ([xfw_round_pow2], [xfw_ilog2]), and [set_ratelimits] converts
    rates per second to rates per window ([scale_rl_to_window]). The last part is how
    the manager finds CONFIG_HZ. *)

From S2P Require Import Prelude.
From S2P Require Import Uapi.
From S2P Require Import RateLimit.
From S2P Require Import MapsManager.
From S2P Require Import LineConsumer.

Open Scope Z_scope.

(** The two powers of two around a value. *)
Lemma bit_ceil_around v :
  1 < v -> exists k, 0 <= k /\ bit_ceil v = 2 ^ (k + 1) /\ 2 ^ k < v <= 2 ^ (k + 1)
    /\ Z.shiftr (bit_ceil v) 1 = 2 ^ k.
Proof.
  intros Hv. unfold bit_ceil. pose proof (Z.log2_up_spec v Hv) as Hs.
  pose proof (Z.log2_up_pos v Hv) as Hp. exists (Z.pred (Z.log2_up v)).
  replace (Z.pred (Z.log2_up v) + 1) with (Z.log2_up v) by lia.
  split_and!; [lia|done|lia..|].
  rewrite Z.shiftr_div_pow2 by lia. change (2 ^ 1) with 2.
  replace (Z.log2_up v) with (Z.pred (Z.log2_up v) + 1) at 1 by lia.
  rewrite Z.pow_add_r by lia. change (2 ^ 1) with 2. apply Z.div_mul. lia.
Qed.

(** No power of two lies between two consecutive ones. *)
Lemma pow2_gap k j : 0 <= k -> 0 <= j -> 2 ^ j <= 2 ^ k \/ 2 ^ (k + 1) <= 2 ^ j.
Proof.
  intros Hk Hj. destruct (Z.le_gt_cases j k).
  - left. apply Z.pow_le_mono_r; lia.
  - right. apply Z.pow_le_mono_r; lia.
Qed.

Lemma round_pow2_spec v :
  1 <= v -> exists k, 0 <= k /\ xfw_round_pow2 v = 2 ^ k
    /\ 2 * v <= 3 * 2 ^ k /\ 3 * 2 ^ k <= 4 * v
    /\ forall j, 0 <= j -> Z.abs (v - 2 ^ k) <= Z.abs (v - 2 ^ j).
Proof.
  intros Hv. unfold xfw_round_pow2. destruct (Z.leb_spec v 1) as [Hle|Hgt].
  { exists 0. assert (v = 1) as -> by lia. split_and!; [lia|done|lia..|].
    intros j Hj. change (2 ^ 0) with 1. lia. }
  destruct (bit_ceil_around v Hgt) as (k & Hk & Hhi & Hb & Hlo). rewrite Hlo, Hhi.
  pose proof (Z.pow_succ_r 2 k Hk) as Hs. replace (Z.succ k) with (k + 1) in Hs by lia.
  pose proof (fun j Hj => pow2_gap k j Hk Hj) as Hgap.
  destruct (Z.eqb_spec v (2 ^ (k + 1))) as [He|Hne].
  { exists (k + 1). split_and!; [lia|done|lia..|]. intros j Hj. rewrite He. lia. }
  destruct (Z.ltb_spec (v - 2 ^ k) (2 ^ (k + 1) - v)).
  - exists k. split_and!; [lia|done|lia..|]. intros j Hj. specialize (Hgap j Hj). lia.
  - exists (k + 1). split_and!; [lia|done|lia..|]. intros j Hj. specialize (Hgap j Hj). lia.
Qed.

(** What the kernel may have as CONFIG_HZ. *)
Definition hz_ok (hz : Z) : Prop := 1 <= hz <= 2 ^ 31.

Lemma window_pow2 hz :
  hz_ok hz -> exists k, 0 <= k <= 31 /\ rl_window_jiffies hz = 2 ^ k /\ rl_window_shift hz = k
    /\ 2 * hz <= 3 * 2 ^ k /\ 3 * 2 ^ k <= 4 * hz
    /\ forall j, 0 <= j -> Z.abs (hz - 2 ^ k) <= Z.abs (hz - 2 ^ j).
Proof.
  intros Hz. unfold hz_ok in Hz.
  destruct (round_pow2_spec hz ltac:(lia)) as (k & Hk & Hr & H1 & H2 & H3).
  assert (Hw : rl_window_jiffies hz = 2 ^ k).
  { unfold rl_window_jiffies, u32, wrap. by rewrite Z.mod_small by lia. }
  exists k. split_and!; [lia| |done| |done..].
  - destruct (Z.le_gt_cases k 31); [done|]. exfalso.
    pose proof (Z.pow_le_mono_r 2 32 k ltac:(lia) ltac:(lia)). lia.
  - unfold rl_window_shift, xfw_ilog2. rewrite Hw. by apply Z.log2_pow2.
Qed.

Lemma rate_no_overflow hz rate k :
  0 <= k <= 31 -> rl_window_shift hz = k -> 0 <= rate <= rl_max_rate hz ->
  0 <= rate * 2 ^ k <= UINT64_MAX.
Proof.
  intros Hk Hs [H0 Hr]. unfold rl_max_rate in Hr. rewrite Hs, Z.shiftr_div_pow2 in Hr by lia.
  pose proof (Z.pow_pos_nonneg 2 k ltac:(lia) ltac:(lia)) as Hp.
  pose proof (Z.mul_div_le UINT64_MAX (2 ^ k) Hp) as Hm. nia.
Qed.

(** For every CONFIG_HZ the window of the rate limiter is the power of two
    nearest to one second, its shift and mask agree with it as the limiter
    requires, and a rate that passes the validation is converted without
    overflow: the rate per window is the rate per second times the length of the
    window, rounded down, at least one packet and within a third of the rate per
    second. *)
Lemma rl_window_sound hz rate :
  hz_ok hz -> 1 <= rate <= rl_max_rate hz ->
  let w := rl_window_jiffies hz in
  mkRlWindow w (rl_window_shift hz) (rl_window_mask hz) = window_of (rl_window_shift hz)
  /\ (forall j, 0 <= j -> Z.abs (hz - w) <= Z.abs (hz - 2 ^ j))
  /\ scale_rl_to_window hz rate = Z.max 1 (rate * w / hz)
  /\ 2 * rate - 3 <= 3 * scale_rl_to_window hz rate <= 4 * rate + 3
  /\ 1 <= scale_rl_to_window hz rate <= UINT64_MAX.
Proof.
  intros Hz Hr w. destruct (window_pow2 hz Hz) as (k & Hk & Hw & Hs & H1 & H2 & H3).
  pose proof (rate_no_overflow hz rate k Hk Hs ltac:(lia)) as Ho. unfold hz_ok in Hz.
  assert (Hsc : scale_rl_to_window hz rate = Z.max 1 (rate * w / hz)).
  { unfold scale_rl_to_window, w. rewrite (proj2 (Z.eqb_neq rate 0)) by lia.
    rewrite Hs, Hw, Z.shiftl_mul_pow2 by lia. unfold u64, wrap.
    rewrite (Z.mod_small (rate * 2 ^ k)); [done|]. unfold UINT64_MAX in Ho. lia. }
  rewrite Hsc. unfold w in *. rewrite Hw in *.
  pose proof (Z.div_mod (rate * 2 ^ k) hz ltac:(lia)) as Hd.
  pose proof (Z.mod_pos_bound (rate * 2 ^ k) hz ltac:(lia)) as Hm.
  split_and!; [|done|done|nia|nia|lia|nia].
  unfold window_of, rl_window_mask. by rewrite Hs, Hw.
Qed.

(** HZ = 250, one million packets per second. *)
Lemma rl_window_sound_example :
  rl_window_jiffies 250 = 256 /\ scale_rl_to_window 250 1000000 = 1024000
  /\ 2 * 1000000 - 3 <= 3 * scale_rl_to_window 250 1000000 <= 4 * 1000000 + 3.
Proof.
  split; [reflexivity|]. split; [reflexivity|].
  apply (rl_window_sound 250 1000000).
  - unfold hz_ok. lia.
  - split; [lia|]. vm_compute. discriminate.
Defined.

(** The validation bounds the rate per second; with HZ = 250 the largest accepted
    rate, scaled to the window of 256 jiffies, times the window exceeds 64 bits. *)
Lemma accepted_rate_overflows_window :
  let rate := rl_max_rate 250 in
  rate * rl_window_jiffies 250 <= UINT64_MAX
  /\ UINT64_MAX < scale_rl_to_window 250 rate * rl_window_jiffies 250.
Proof. vm_compute. split; congruence. Qed.

(** * The tick frequency of the kernel

    src/manager/xfw/maps_manager.cc: how the manager finds CONFIG_HZ, the number
    of jiffies per second from which the window of the rate limits is computed
    above.  The release of the kernel and the files are inputs; a file is the
    list of its lines. *)

Inductive HzError := UnameFailed | NotANumber | HzUnavailable.

Definition HZ_KEY : text := T "CONFIG_HZ=".

(** [None] if the file cannot be opened or no line has the option. *)
Fixpoint find_config_hz (lines : list text) : HzError + option Z :=
  match lines with
  | [] => inr None
  | line :: lines =>
      if bool_decide (take 10 line = HZ_KEY) then
        match stoul (drop 10 line) with
        | Some hz => inr (Some hz)
        | None => inl NotANumber
        end
      else find_config_hz lines
  end.

Definition parse_config_hz_file (file : option (list text)) : HzError + option Z :=
  match file with None => inr None | Some lines => find_config_hz lines end.

Definition get_config_hz (release : option text) (files : text -> option (list text))
    : HzError + Z :=
  let? rel := rsome release UnameFailed in
  let? hz := parse_config_hz_file (files (T "/boot/config-" ++ rel)) in
  match hz with
  | Some hz => inr hz
  | None =>
      let? hz := parse_config_hz_file (files (T "/lib/modules/" ++ rel ++ T "/build/.config")) in
      rsome hz HzUnavailable
  end.

(** The lines before the option do not matter, whatever similar options they set. *)
Lemma find_config_hz_skips before line after :
  Forall (fun l => take 10 l <> HZ_KEY) before ->
  find_config_hz (before ++ line :: after) = find_config_hz (line :: after).
Proof.
  induction 1 as [|l before Hl _ IH]; [done|]. cbn [app find_config_hz].
  by rewrite bool_decide_eq_false_2.
Qed.

(** The frequencies that the kernel can be configured with. *)
Definition kernel_hz : list (string * Z) :=
  [("100", 100); ("250", 250); ("300", 300); ("1000", 1000)]%string.

(** For each of them the option is read exactly, and the window computed from it is
    sound: it is in the range that [Window] asks for. *)
Lemma kernel_hz_read rel files before after h hz :
  (h, hz) ∈ kernel_hz ->
  Forall (fun l => take 10 l <> HZ_KEY) before ->
  files (T "/boot/config-" ++ rel) = Some (before ++ (HZ_KEY ++ T h) :: after) ->
  get_config_hz (Some rel) files = inr hz /\ hz_ok hz.
Proof.
  intros Hh Hb Hf. unfold get_config_hz. cbn [rsome rbind]. rewrite Hf. cbn [parse_config_hz_file].
  rewrite find_config_hz_skips by done. unfold kernel_hz in Hh.
  rewrite !elem_of_cons, elem_of_nil in Hh.
  destruct Hh as [[= -> ->]|[[= -> ->]|[[= -> ->]|[[= -> ->]|[]]]]]; (split; [done|]);
    unfold hz_ok; lia.
Qed.

(** The second file is read only if the first is missing or does not set the
    option; without both the manager does not start. *)
Lemma hz_fallback rel files : parse_config_hz_file (files (T "/boot/config-" ++ rel)) = inr None ->
  get_config_hz (Some rel) files
  = let? hz := parse_config_hz_file (files (T "/lib/modules/" ++ rel ++ T "/build/.config")) in
    rsome hz HzUnavailable.
Proof. intros H. unfold get_config_hz. cbn [rsome rbind]. by rewrite H. Qed.
