(* ===== verification/Xxh64.v ===== *)
(** * Xxh64: the hash of a SYN's addresses, ports and sequence number

    src/bpf/xxh64_hash.h and src/bpf/syn_hash.h.  The program unrolls XXH64 for
    two input sizes, the 16-byte IPv4 tuple and the 40-byte IPv6 tuple, and feeds
    it with words put together by shifts.  The specification is XXH64 over a list
    of bytes of any length.  The theorems: both routines are XXH64 of the memory
    representation of their tuple, and, since every step that absorbs a block is
    a permutation of the 64-bit words, tuples between the same two addresses
    never collide. *)

From S2P Require Import Prelude.

(** ** The program *)

Definition XXH_PRIME64_1 : Z := 0x9E3779B185EBCA87.
Definition XXH_PRIME64_2 : Z := 0xC2B2AE3D27D4EB4F.
Definition XXH_PRIME64_3 : Z := 0x165667B19E3779F9.
Definition XXH_PRIME64_4 : Z := 0x85EBCA77C2B2AE63.
Definition XXH_PRIME64_5 : Z := 0x27D4EB2F165667C5.

(** [uint64_t acc[4]]. *)
Record Accs := mkAccs { acc0 : Z; acc1 : Z; acc2 : Z; acc3 : Z }.

Definition xxh64_init_accs (seed : Z) : Accs :=
  mkAccs (u64 (u64 (seed + XXH_PRIME64_1) + XXH_PRIME64_2)) (u64 (seed + XXH_PRIME64_2))
    seed (u64 (seed - XXH_PRIME64_1)).

(** [p] is the list of the eight bytes that start at the pointer. *)
Definition xxh_load64_le (p : list Z) : Z :=
  let at_ i := nth i p 0 in
  Z.lor (Z.lor (Z.lor (Z.lor (Z.lor (Z.lor (Z.lor (at_ 0%nat)
    (u64 (Z.shiftl (at_ 1%nat) 8))) (u64 (Z.shiftl (at_ 2%nat) 16)))
    (u64 (Z.shiftl (at_ 3%nat) 24))) (u64 (Z.shiftl (at_ 4%nat) 32)))
    (u64 (Z.shiftl (at_ 5%nat) 40))) (u64 (Z.shiftl (at_ 6%nat) 48)))
    (u64 (Z.shiftl (at_ 7%nat) 56)).

Definition xxh_rotl64 (x r : Z) : Z :=
  Z.lor (u64 (Z.shiftl x r)) (Z.shiftr x (64 - r)).

Definition xxh64_round (acc input : Z) : Z :=
  let acc := u64 (acc + u64 (input * XXH_PRIME64_2)) in
  let acc := xxh_rotl64 acc 31 in
  u64 (acc * XXH_PRIME64_1).

Definition xxh64_merge_round (acc val : Z) : Z :=
  let val := xxh64_round 0 val in
  let acc := Z.lxor acc val in
  u64 (u64 (acc * XXH_PRIME64_1) + XXH_PRIME64_4).

Definition xxh64_merge_accs (acc : Accs) : Z :=
  let h64 :=
    u64 (u64 (u64 (xxh_rotl64 (acc0 acc) 1 + xxh_rotl64 (acc1 acc) 7)
              + xxh_rotl64 (acc2 acc) 12) + xxh_rotl64 (acc3 acc) 18) in
  let h64 := xxh64_merge_round h64 (acc0 acc) in
  let h64 := xxh64_merge_round h64 (acc1 acc) in
  let h64 := xxh64_merge_round h64 (acc2 acc) in
  xxh64_merge_round h64 (acc3 acc).

Definition xxh64_update64 (hash input : Z) : Z :=
  let k1 := xxh64_round 0 input in
  let hash := Z.lxor hash k1 in
  u64 (u64 (xxh_rotl64 hash 27 * XXH_PRIME64_1) + XXH_PRIME64_4).

Definition xxh64_avalanche (h : Z) : Z :=
  let h := Z.lxor h (Z.shiftr h 33) in
  let h := u64 (h * XXH_PRIME64_2) in
  let h := Z.lxor h (Z.shiftr h 29) in
  let h := u64 (h * XXH_PRIME64_3) in
  Z.lxor h (Z.shiftr h 32).

Record XfwIpv4SynTuple := mkIpv4SynTuple {
  s4_src_ip : Z; s4_dst_ip : Z; s4_seq : Z; s4_sport : Z; s4_dport : Z }.

Record XfwIpv6SynTuple := mkIpv6SynTuple {
  s6_src_ip : list Z; s6_dst_ip : list Z; s6_seq : Z; s6_sport : Z; s6_dport : Z }.

Definition syn_ports_seq (sport dport seq : Z) : Z :=
  Z.lor (Z.lor seq (u64 (Z.shiftl sport 32))) (u64 (Z.shiftl dport 48)).

Definition syn_xxh64_ipv4 (syn_tuple : XfwIpv4SynTuple) (seed : Z) : Z :=
  let hash := u64 (u64 (seed + XXH_PRIME64_5) + 16) in
  let block := Z.lor (s4_src_ip syn_tuple) (u64 (Z.shiftl (s4_dst_ip syn_tuple) 32)) in
  let hash := xxh64_update64 hash block in
  let block := syn_ports_seq (s4_sport syn_tuple) (s4_dport syn_tuple) (s4_seq syn_tuple) in
  let hash := xxh64_update64 hash block in
  xxh64_avalanche hash.

Definition syn_xxh64_ipv6 (syn_tuple : XfwIpv6SynTuple) (seed : Z) : Z :=
  let acc := xxh64_init_accs seed in
  let a0 := xxh64_round (acc0 acc) (xxh_load64_le (s6_src_ip syn_tuple)) in
  let a1 := xxh64_round (acc1 acc) (xxh_load64_le (drop 8 (s6_src_ip syn_tuple))) in
  let a2 := xxh64_round (acc2 acc) (xxh_load64_le (s6_dst_ip syn_tuple)) in
  let a3 := xxh64_round (acc3 acc) (xxh_load64_le (drop 8 (s6_dst_ip syn_tuple))) in
  let hash := xxh64_merge_accs (mkAccs a0 a1 a2 a3) in
  let hash := u64 (hash + 40) in
  let block := syn_ports_seq (s6_sport syn_tuple) (s6_dport syn_tuple) (s6_seq syn_tuple) in
  let hash := xxh64_update64 hash block in
  xxh64_avalanche hash.

(** ** The specification: XXH64 of a list of bytes

    Words are residues modulo [2^64]; a rotation moves the high part below the
    low part; the input is read in little-endian words. *)

Module Ref.
Section ref.
Definition P1 : Z := 11400714785074694791.
Definition P2 : Z := 14029467366897019727.
Definition P3 : Z := 1609587929392839161.
Definition P4 : Z := 9650029242287828579.
Definition P5 : Z := 2870177450012600261.
Definition rotl (x r : Z) : Z := (x mod 2 ^ (64 - r)) * 2 ^ r + x / 2 ^ (64 - r).
Definition word (n : nat) (l : list Z) : Z := le_combine (take n l).
Definition round (acc v : Z) : Z := u64 (rotl (u64 (acc + v * P2)) 31 * P1).
Definition merge_round (h acc : Z) : Z := u64 (Z.lxor h (round 0 acc) * P1 + P4).

(** One stripe: a word for each of the four lanes. *)
Definition stripe (a : Accs) (l : list Z) : Accs :=
  mkAccs (round (acc0 a) (word 8 l)) (round (acc1 a) (word 8 (drop 8 l)))
    (round (acc2 a) (word 8 (drop 16 l))) (round (acc3 a) (word 8 (drop 24 l))).
Fixpoint stripes (n : nat) (a : Accs) (l : list Z) : Accs :=
  match n with O => a | S n' => stripes n' (stripe a l) (drop 32 l) end.
Definition converge (a : Accs) : Z :=
  merge_round (merge_round (merge_round (merge_round
    (u64 (rotl (acc0 a) 1 + rotl (acc1 a) 7 + rotl (acc2 a) 12 + rotl (acc3 a) 18))
    (acc0 a)) (acc1 a)) (acc2 a)) (acc3 a).

Definition step8 (h : Z) (l : list Z) : Z :=
  u64 (rotl (Z.lxor h (round 0 (word 8 l))) 27 * P1 + P4).
Definition step4 (h : Z) (l : list Z) : Z :=
  u64 (rotl (Z.lxor h (u64 (word 4 l * P1))) 23 * P2 + P3).
Definition step1 (h b : Z) : Z := u64 (rotl (Z.lxor h (u64 (b * P5))) 11 * P1).
Fixpoint words (n : nat) (h : Z) (l : list Z) : Z :=
  match n with O => h | S n' => words n' (step8 h l) (drop 8 l) end.
(** The tail of fewer than 32 bytes. *)
Definition finalize (h : Z) (l : list Z) : Z :=
  let n8 := (length l / 8)%nat in
  let h := words n8 h l in
  let l := drop (8 * n8) l in
  if (4 <=? length l)%nat then foldl step1 (step4 h l) (drop 4 l) else foldl step1 h l.
Definition xorshift (k h : Z) : Z := Z.lxor h (h / 2 ^ k).
Definition avalanche (h : Z) : Z :=
  xorshift 32 (u64 (xorshift 29 (u64 (xorshift 33 h * P2)) * P3)).

Definition XXH64 (l : list Z) (seed : Z) : Z :=
  let n := (length l / 32)%nat in
  let h :=
    if (32 <=? length l)%nat
    then converge (stripes n (mkAccs (u64 (seed + P1 + P2)) (u64 (seed + P2)) seed
                                (u64 (seed - P1))) l)
    else u64 (seed + P5) in
  avalanche (finalize (u64 (h + Z.of_nat (length l))) (drop (32 * n) l)).
End ref.
End Ref.

(** The published values of the algorithm for the empty input, for the strings
    [a] and [abc], and for a sentence of 39 characters. *)
Lemma XXH64_vectors :
  Ref.XXH64 [] 0 = 0xEF46DB3751D8E999 /\ Ref.XXH64 [97] 0 = 0xD24EC4F1A98C6E5B
  /\ Ref.XXH64 [97; 98; 99] 0 = 0x44BC2CF5AD770999
  /\ Ref.XXH64 [78; 111; 98; 111; 100; 121; 32; 105; 110; 115; 112; 101; 99; 116;
       115; 32; 116; 104; 101; 32; 115; 112; 97; 109; 109; 105; 115; 104; 32; 114;
       101; 112; 101; 116; 105; 116; 105; 111; 110] 0 = 0xFBCEA83C8A378BF1.
Proof. by vm_compute. Qed.

(** ** The representation of a tuple in memory *)

Definition ipv4_tuple_bytes (t : XfwIpv4SynTuple) : list Z :=
  le_split 4 (s4_src_ip t) ++ le_split 4 (s4_dst_ip t) ++ le_split 4 (s4_seq t)
  ++ le_split 2 (s4_sport t) ++ le_split 2 (s4_dport t).

Definition ipv6_tuple_bytes (t : XfwIpv6SynTuple) : list Z :=
  s6_src_ip t ++ s6_dst_ip t ++ le_split 4 (s6_seq t)
  ++ le_split 2 (s6_sport t) ++ le_split 2 (s6_dport t).

(** The fields are in the range of their types. *)
Definition wf_ports (sport dport seq : Z) : Prop :=
  0 <= sport < 2 ^ 16 /\ 0 <= dport < 2 ^ 16 /\ 0 <= seq < 2 ^ 32.
Definition wf_ipv4_tuple (t : XfwIpv4SynTuple) : Prop :=
  0 <= s4_src_ip t < 2 ^ 32 /\ 0 <= s4_dst_ip t < 2 ^ 32
  /\ wf_ports (s4_sport t) (s4_dport t) (s4_seq t).
Definition wf_ip6 (a : list Z) : Prop := length a = 16%nat /\ Forall is_byte a.
Definition wf_ipv6_tuple (t : XfwIpv6SynTuple) : Prop :=
  wf_ip6 (s6_src_ip t) /\ wf_ip6 (s6_dst_ip t)
  /\ wf_ports (s6_sport t) (s6_dport t) (s6_seq t).

(** ** Words *)

Definition word64 (x : Z) : Prop := 0 <= x < 2 ^ 64.

Lemma u64_word x : word64 (u64 x).
Proof. by apply wrap_range. Qed.

Lemma lxor_word x y : word64 x -> word64 y -> word64 (Z.lxor x y).
Proof.
  intros Hx Hy. assert (0 <= Z.lxor x y) as H0.
  { apply Z.lxor_nonneg. unfold word64 in *. lia. }
  split; [done|]. destruct (decide (Z.lxor x y = 0)) as [->|Hne]; [done|].
  apply Z.log2_lt_pow2; [lia|].
  eapply Z.le_lt_trans; [apply Z.log2_lxor; unfold word64 in *; lia|].
  pose proof (Z.log2_lt_pow2 x 64). pose proof (Z.log2_lt_pow2 y 64).
  unfold word64 in *. destruct (decide (x = 0)) as [->|]; destruct (decide (y = 0)) as [->|];
    simpl Z.log2 in *; lia.
Qed.

Lemma shiftr_word x k : 0 <= k -> word64 x -> word64 (Z.shiftr x k).
Proof.
  intros Hk Hx. rewrite Z.shiftr_div_pow2 by done. unfold word64 in *.
  pose proof (Z.pow_pos_nonneg 2 k). split; [apply Z.div_pos; lia|].
  apply Z.div_lt_upper_bound; [lia|]. nia.
Qed.

(** Rotation by shifts is rotation by parts. *)
Lemma rotl64 x r : 0 < r < 64 -> word64 x -> xxh_rotl64 x r = Ref.rotl x r.
Proof.
  intros Hr Hx. unfold xxh_rotl64, Ref.rotl. rewrite Z.lor_comm.
  assert (u64 (Z.shiftl x r) = Z.shiftl (x mod 2 ^ (64 - r)) r) as ->.
  { rewrite !Z.shiftl_mul_pow2 by lia. unfold wrap.
    replace 64 with ((64 - r) + r) at 1 by lia. rewrite Z.pow_add_r by lia.
    rewrite Z.mul_mod_distr_r; lia. }
  rewrite lor_low_high, Z.shiftr_div_pow2; [lia|lia|lia|].
  rewrite Z.shiftr_div_pow2 by lia. unfold word64 in Hx.
  split; [apply Z.div_pos; lia|]. apply Z.div_lt_upper_bound; [lia|].
  rewrite <- Z.pow_add_r by lia. replace (64 - r + r) with 64 by lia. lia.
Qed.

Lemma rotl_word x r : 0 < r < 64 -> word64 x -> word64 (Ref.rotl x r).
Proof.
  intros Hr Hx. unfold Ref.rotl, word64 in *.
  assert (2 ^ 64 = 2 ^ (64 - r) * 2 ^ r) as E by (rewrite <- Z.pow_add_r by lia; f_equal; lia).
  pose proof (Z.mod_pos_bound x (2 ^ (64 - r))).
  assert (0 <= x / 2 ^ (64 - r) < 2 ^ r).
  { split; [apply Z.div_pos; lia|]. apply Z.div_lt_upper_bound; lia. }
  pose proof (Z.pow_pos_nonneg 2 r). rewrite E. nia.
Qed.

Lemma u64_idemp_add x y : u64 (u64 x + y) = u64 (x + y).
Proof. apply wrap_add_idemp_l. Qed.
Lemma u64_idemp_add_r x y : u64 (x + u64 y) = u64 (x + y).
Proof. rewrite Z.add_comm, u64_idemp_add. f_equal. lia. Qed.

(** ** The steps of the program are the steps of the specification *)

Lemma round_word a v : word64 (Ref.round a v).
Proof. apply u64_word. Qed.

Lemma xxh64_round_ref a v : xxh64_round a v = Ref.round a v.
Proof.
  unfold xxh64_round, Ref.round. rewrite u64_idemp_add_r.
  rewrite rotl64 by (done || apply u64_word). reflexivity.
Qed.

Lemma xxh64_merge_round_ref h v : xxh64_merge_round h v = Ref.merge_round h v.
Proof.
  unfold xxh64_merge_round, Ref.merge_round. by rewrite xxh64_round_ref, u64_idemp_add.
Qed.

Lemma xxh64_merge_accs_ref a :
  word64 (acc0 a) -> word64 (acc1 a) -> word64 (acc2 a) -> word64 (acc3 a) ->
  xxh64_merge_accs a = Ref.converge a.
Proof.
  intros. unfold xxh64_merge_accs, Ref.converge.
  rewrite !xxh64_merge_round_ref, !rotl64 by (lia || done).
  by rewrite (u64_idemp_add (Ref.rotl (acc0 a) 1 + _)), u64_idemp_add.
Qed.

Lemma xxh64_update64_ref h l : word64 h -> xxh64_update64 h (Ref.word 8 l) = Ref.step8 h l.
Proof.
  intros Hh. unfold xxh64_update64, Ref.step8. rewrite xxh64_round_ref.
  rewrite rotl64 by (lia || (apply lxor_word; [done|apply round_word])).
  by rewrite u64_idemp_add.
Qed.

Lemma xxh64_avalanche_ref h : xxh64_avalanche h = Ref.avalanche h.
Proof.
  unfold xxh64_avalanche, Ref.avalanche, Ref.xorshift.
  by rewrite !Z.shiftr_div_pow2 by lia.
Qed.

(** ** Loads and the blocks put together from fields *)

Lemma lor_field a b k : 0 <= k -> 0 <= a < 2 ^ k -> 0 <= b * 2 ^ k < 2 ^ 64 ->
  Z.lor a (u64 (Z.shiftl b k)) = a + b * 2 ^ k.
Proof.
  intros. rewrite (wrap_small 64 (Z.shiftl b k)) by (rewrite Z.shiftl_mul_pow2; lia).
  by apply lor_low_high.
Qed.

Lemma xxh_load64_le_ref p : (8 <= length p)%nat -> Forall is_byte p ->
  xxh_load64_le p = Ref.word 8 p.
Proof.
  intros Hl Hb. destruct p as [|b0 [|b1 [|b2 [|b3 [|b4 [|b5 [|b6 [|b7 p]]]]]]]];
    try (simpl in Hl; lia).
  repeat (apply list.Forall_cons in Hb as [? Hb]). unfold is_byte in *.
  unfold xxh_load64_le, Ref.word. cbn [nth take le_combine].
  rewrite (lor_field b0 b1 8), (lor_field _ b2 16), (lor_field _ b3 24), (lor_field _ b4 32),
    (lor_field _ b5 40), (lor_field _ b6 48), (lor_field _ b7 56) by lia.
  rewrite take_0. simpl le_combine. lia.
Qed.

Lemma word_fields4 a b r : 0 <= a < 2 ^ 32 -> 0 <= b < 2 ^ 32 ->
  Ref.word 8 (le_split 4 a ++ le_split 4 b ++ r) = a + b * 2 ^ 32.
Proof. intros. unfold Ref.word. cbn [le_split app take]. rewrite take_0.
  cbn [le_combine]. dlia. Qed.

Lemma word_ports_seq sport dport seq r : wf_ports sport dport seq ->
  Ref.word 8 (le_split 4 seq ++ le_split 2 sport ++ le_split 2 dport ++ r)
  = syn_ports_seq sport dport seq.
Proof.
  intros (? & ? & ?). unfold syn_ports_seq.
  rewrite (lor_field seq sport 32), (lor_field _ dport 48) by lia.
  unfold Ref.word. cbn [le_split app take]. rewrite take_0.
  cbn [le_combine]. dlia.
Qed.

(** ** The tuples *)

Lemma seed_word seed : word64 (u64 (u64 (seed + Ref.P5) + 16)).
Proof. apply u64_word. Qed.

Lemma step8_word h l : word64 (Ref.step8 h l).
Proof. apply u64_word. Qed.

Lemma syn_xxh64_ipv4_ref t seed : wf_ipv4_tuple t ->
  syn_xxh64_ipv4 t seed = Ref.XXH64 (ipv4_tuple_bytes t) seed.
Proof.
  intros (Hs & Hd & Hp). unfold syn_xxh64_ipv4, Ref.XXH64.
  change (length (ipv4_tuple_bytes t)) with 16%nat.
  change (drop (32 * (16 / 32)) ?l) with l. cbn [Nat.leb].
  unfold Ref.finalize. change (length (ipv4_tuple_bytes t) / 8)%nat with 2%nat.
  change (drop (8 * 2) (ipv4_tuple_bytes t)) with (@nil Z). cbn [length Nat.leb foldl].
  cbn [Ref.words].
  change (drop 8 (ipv4_tuple_bytes t)) with
    (le_split 4 (s4_seq t) ++ le_split 2 (s4_sport t) ++ le_split 2 (s4_dport t) ++ []).
  rewrite <- xxh64_update64_ref, word_ports_seq by (done || apply step8_word).
  rewrite <- xxh64_update64_ref by apply seed_word.
  unfold ipv4_tuple_bytes. rewrite word_fields4, xxh64_avalanche_ref by done.
  by rewrite lor_field by lia.
Qed.

Lemma ipv6_tuple_parts t : wf_ipv6_tuple t ->
  length (ipv6_tuple_bytes t) = 40%nat
  /\ drop 32 (ipv6_tuple_bytes t)
     = le_split 4 (s6_seq t) ++ le_split 2 (s6_sport t) ++ le_split 2 (s6_dport t) ++ [].
Proof.
  intros ([Hs _] & [Hd _] & _). unfold ipv6_tuple_bytes.
  rewrite !length_app, !length_le_split, Hs, Hd. split; [done|].
  rewrite app_nil_r, app_assoc. by apply drop_app_length'; rewrite length_app, Hs, Hd.
Qed.

(** The words of an address inside the representation of a tuple. *)
Lemma address_words a r : wf_ip6 a ->
  Ref.word 8 (a ++ r) = xxh_load64_le a
  /\ Ref.word 8 (drop 8 (a ++ r)) = xxh_load64_le (drop 8 a).
Proof.
  intros [Hl Hb]. rewrite !xxh_load64_le_ref
    by (rewrite ?length_drop; (lia || by apply Forall_drop || done)).
  unfold Ref.word. rewrite drop_app_le, !take_app_le by (rewrite ?length_drop; lia). done.
Qed.

Lemma stripe_ipv6 a t : wf_ipv6_tuple t ->
  Ref.stripe a (ipv6_tuple_bytes t)
  = mkAccs (xxh64_round (acc0 a) (xxh_load64_le (s6_src_ip t)))
      (xxh64_round (acc1 a) (xxh_load64_le (drop 8 (s6_src_ip t))))
      (xxh64_round (acc2 a) (xxh_load64_le (s6_dst_ip t)))
      (xxh64_round (acc3 a) (xxh_load64_le (drop 8 (s6_dst_ip t)))).
Proof.
  intros (Hs & Hd & _). rewrite !xxh64_round_ref. unfold Ref.stripe, ipv6_tuple_bytes.
  set (r := le_split 4 _ ++ _).
  destruct (address_words (s6_src_ip t) (s6_dst_ip t ++ r) Hs) as [-> ->].
  destruct (address_words (s6_dst_ip t) r Hd) as [<- <-].
  destruct Hs as [Hl _].
  assert (drop 16 (s6_src_ip t ++ s6_dst_ip t ++ r) = s6_dst_ip t ++ r) as E
    by (by apply drop_app_length').
  change 24%nat with (16 + 8)%nat. rewrite <- drop_drop, E. done.
Qed.

Lemma syn_xxh64_ipv6_ref t seed : wf_ipv6_tuple t ->
  syn_xxh64_ipv6 t seed = Ref.XXH64 (ipv6_tuple_bytes t) seed.
Proof.
  intros Ht. destruct (ipv6_tuple_parts t Ht) as (Hl & Hr).
  unfold syn_xxh64_ipv6, Ref.XXH64. rewrite Hl. change (40 / 32)%nat with 1%nat.
  cbn [Nat.leb]. change (32 * 1)%nat with 32%nat. rewrite Hr.
  unfold Ref.finalize. cbn [Ref.stripes].
  change (length _ / 8)%nat with 1%nat. change (drop (8 * 1) _) with (@nil Z).
  cbn [length Nat.leb foldl Ref.words]. rewrite stripe_ipv6 by done. cbn [acc0 acc1 acc2 acc3].
  rewrite <- xxh64_update64_ref, word_ports_seq by (apply u64_word || apply Ht).
  rewrite <- xxh64_merge_accs_ref, xxh64_avalanche_ref by apply u64_word.
  unfold xxh64_init_accs. cbn [acc0 acc1 acc2 acc3]. by rewrite u64_idemp_add.
Qed.

(** ** Every step that absorbs a block is a permutation *)

Lemma u64_add_inj c x y : word64 x -> word64 y -> u64 (x + c) = u64 (y + c) -> x = y.
Proof.
  unfold word64, wrap. intros Hx Hy H.
  apply (f_equal (fun z => (z - c) mod 2 ^ 64)) in H.
  rewrite !Zminus_mod_idemp_l in H. rewrite !Z.add_simpl_r, !Z.mod_small in H; lia.
Qed.

(** A multiplication by [p] is undone by its inverse modulo [2^64]. *)
Lemma u64_mul_inj p inv x y : u64 (p * inv) = 1 -> word64 x -> word64 y ->
  u64 (x * p) = u64 (y * p) -> x = y.
Proof.
  unfold word64, wrap. intros Hp Hx Hy H.
  apply (f_equal (fun z => (z * inv) mod 2 ^ 64)) in H.
  rewrite !Zmult_mod_idemp_l, <- !Z.mul_assoc in H.
  rewrite <- (Zmult_mod_idemp_r (p * inv)), Hp in H.
  rewrite <- (Zmult_mod_idemp_r (p * inv) y), Hp in H.
  rewrite !Z.mul_1_r, !Z.mod_small in H; lia.
Qed.

Lemma mul_prime1_inj x y : word64 x -> word64 y ->
  u64 (x * XXH_PRIME64_1) = u64 (y * XXH_PRIME64_1) -> x = y.
Proof. by apply (u64_mul_inj _ 0x887493432badb37). Qed.

Lemma mul_prime2_inj x y : word64 x -> word64 y ->
  u64 (x * XXH_PRIME64_2) = u64 (y * XXH_PRIME64_2) -> x = y.
Proof. by apply (u64_mul_inj _ 0xba79078168d4baf). Qed.

Lemma mul_prime3_inj x y : word64 x -> word64 y ->
  u64 (x * XXH_PRIME64_3) = u64 (y * XXH_PRIME64_3) -> x = y.
Proof. by apply (u64_mul_inj _ 0xe9e9f4c41d6df849). Qed.

Lemma rotl_inj r x y : 0 < r < 64 -> word64 x -> word64 y ->
  xxh_rotl64 x r = xxh_rotl64 y r -> x = y.
Proof.
  intros Hr Hx Hy. rewrite !rotl64 by done. unfold Ref.rotl. intros H.
  assert (forall z, word64 z -> 0 <= z / 2 ^ (64 - r) < 2 ^ r) as Hq.
  { intros z Hz. unfold word64 in Hz. split; [apply Z.div_pos; lia|].
    apply Z.div_lt_upper_bound; [lia|]. rewrite <- Z.pow_add_r by lia.
    replace (64 - r + r) with 64 by lia. lia. }
  pose proof (Hq x Hx). pose proof (Hq y Hy).
  rewrite !(Z.mul_comm _ (2 ^ r)) in H.
  apply Z.div_mod_unique in H as [Hm Hd]; [|by left..].
  rewrite (Z.div_mod x (2 ^ (64 - r))), (Z.div_mod y (2 ^ (64 - r))) by lia. congruence.
Qed.

(** The bits of [h ^ (h >> k)] give those of [h] from the highest down. *)
Lemma xorshift_inj k x y : 0 < k -> word64 x -> word64 y ->
  Z.lxor x (Z.shiftr x k) = Z.lxor y (Z.shiftr y k) -> x = y.
Proof.
  intros Hk Hx Hy H. apply Z.bits_inj'. intros i Hi.
  remember (Z.to_nat (64 - i)) as n eqn:En. revert i Hi En.
  induction (lt_wf n) as [n _ IH]. intros i Hi ->.
  destruct (Z.le_gt_cases 64 i) as [Hb|Hb]; [by rewrite !(testbit_above _ 64)|].
  apply (f_equal (fun z => Z.testbit z i)) in H as Hz.
  rewrite !Z.lxor_spec, !Z.shiftr_spec in Hz by done.
  rewrite (IH (Z.to_nat (64 - (i + k))) ltac:(lia) (i + k) ltac:(lia) eq_refl) in Hz.
  by destruct (Z.testbit x i), (Z.testbit y i), (Z.testbit y (i + k)).
Qed.

Lemma lxor_inj_r a x y : Z.lxor a x = Z.lxor a y -> x = y.
Proof.
  intros H. apply (f_equal (Z.lxor a)) in H.
  by rewrite <- !Z.lxor_assoc, Z.lxor_nilpotent, !Z.lxor_0_l in H.
Qed.

Lemma rotl64_word x r : 0 < r < 64 -> word64 x -> word64 (xxh_rotl64 x r).
Proof. intros. rewrite rotl64 by done. by apply rotl_word. Qed.

Lemma xxh64_round_word a v : word64 (xxh64_round a v).
Proof. apply u64_word. Qed.

Create HintDb word64.
#[export] Hint Resolve u64_word lxor_word shiftr_word rotl64_word xxh64_round_word : word64.
#[export] Hint Extern 1 (_ <= _) => lia : word64.
#[export] Hint Extern 1 (_ < _ < _) => lia : word64.
#[export] Hint Extern 1 (_ < _) => lia : word64.

Lemma round0_inj x y : word64 x -> word64 y -> xxh64_round 0 x = xxh64_round 0 y -> x = y.
Proof.
  unfold xxh64_round. intros Hx Hy H.
  apply mul_prime1_inj, rotl_inj in H; auto with word64.
  rewrite !Z.add_0_l, !(wrap_small 64 (u64 _)) in H by apply u64_word.
  by apply mul_prime2_inj in H.
Qed.

Lemma update64_inj h h' x y : word64 h -> word64 h' ->
  xxh64_update64 h x = xxh64_update64 h' y ->
  Z.lxor h (xxh64_round 0 x) = Z.lxor h' (xxh64_round 0 y).
Proof.
  unfold xxh64_update64. intros Hh Hh' H.
  apply u64_add_inj, mul_prime1_inj, rotl_inj in H; auto 8 with word64.
Qed.

Lemma update64_inj_input h x y : word64 h -> word64 x -> word64 y ->
  xxh64_update64 h x = xxh64_update64 h y -> x = y.
Proof. intros Hh Hx Hy H%update64_inj; [|done..]. by apply lxor_inj_r, round0_inj in H. Qed.

Lemma update64_inj_hash h h' x : word64 h -> word64 h' ->
  xxh64_update64 h x = xxh64_update64 h' x -> h = h'.
Proof.
  intros Hh Hh' H%update64_inj; [|done..]. rewrite !(Z.lxor_comm _ (xxh64_round 0 x)) in H.
  by apply lxor_inj_r in H.
Qed.

Lemma avalanche_inj x y : word64 x -> word64 y ->
  xxh64_avalanche x = xxh64_avalanche y -> x = y.
Proof.
  unfold xxh64_avalanche. intros Hx Hy H.
  apply xorshift_inj, mul_prime3_inj, xorshift_inj, mul_prime2_inj, xorshift_inj in H;
    auto 8 with word64.
Qed.

Lemma update64_word h x : word64 (xxh64_update64 h x).
Proof. apply u64_word. Qed.
#[export] Hint Resolve update64_word : word64.

(** The last block determines the ports and the sequence number. *)
Lemma syn_ports_seq_word sport dport seq : wf_ports sport dport seq ->
  word64 (syn_ports_seq sport dport seq).
Proof.
  intros (? & ? & ?). unfold syn_ports_seq, word64.
  rewrite (lor_field seq sport 32), (lor_field _ dport 48) by lia. lia.
Qed.

Lemma syn_ports_seq_inj s d q s' d' q' : wf_ports s d q -> wf_ports s' d' q' ->
  syn_ports_seq s d q = syn_ports_seq s' d' q' -> s = s' /\ d = d' /\ q = q'.
Proof.
  intros (? & ? & ?) (? & ? & ?). unfold syn_ports_seq.
  rewrite (lor_field q s 32), (lor_field _ d 48), (lor_field q' s' 32), (lor_field _ d' 48)
    by lia. lia.
Qed.

(** The block of two IPv4 addresses determines both. *)
Lemma addresses_word a b : 0 <= a < 2 ^ 32 -> 0 <= b < 2 ^ 32 ->
  word64 (Z.lor a (u64 (Z.shiftl b 32))).
Proof. intros. rewrite lor_field by lia. unfold word64. lia. Qed.

Lemma addresses_inj a b a' b' : 0 <= a < 2 ^ 32 -> 0 <= b < 2 ^ 32 ->
  0 <= a' < 2 ^ 32 -> 0 <= b' < 2 ^ 32 ->
  Z.lor a (u64 (Z.shiftl b 32)) = Z.lor a' (u64 (Z.shiftl b' 32)) -> a = a' /\ b = b'.
Proof. intros. rewrite !lor_field in * by lia. lia. Qed.

#[export] Hint Resolve syn_ports_seq_word addresses_word : word64.

#[local] Opaque xxh64_update64 xxh64_avalanche syn_ports_seq wrap.

Lemma ipv4_no_collision t t' seed : wf_ipv4_tuple t -> wf_ipv4_tuple t' ->
  syn_xxh64_ipv4 t seed = syn_xxh64_ipv4 t' seed ->
  (s4_src_ip t = s4_src_ip t' /\ s4_dst_ip t = s4_dst_ip t')
  \/ (s4_seq t = s4_seq t' /\ s4_sport t = s4_sport t' /\ s4_dport t = s4_dport t') ->
  t = t'.
Proof.
  destruct t as [s d q sp dp], t' as [s' d' q' sp' dp'].
  unfold wf_ipv4_tuple; cbn [s4_src_ip s4_dst_ip s4_seq s4_sport s4_dport].
  intros (Hs & Hd & Hp) (Hs' & Hd' & Hp') H. unfold syn_xxh64_ipv4 in H. cbv zeta in H.
  cbn [s4_src_ip s4_dst_ip s4_seq s4_sport s4_dport] in H.
  apply avalanche_inj in H; [|apply update64_word..].
  intros [[<- <-]|(<- & <- & <-)].
  - apply update64_inj_input, syn_ports_seq_inj in H as (-> & -> & ->); auto with word64.
  - apply update64_inj_hash, update64_inj_input, addresses_inj in H as [-> ->];
      auto with word64.
Qed.

Lemma ipv6_no_collision t t' seed : wf_ipv6_tuple t -> wf_ipv6_tuple t' ->
  syn_xxh64_ipv6 t seed = syn_xxh64_ipv6 t' seed ->
  s6_src_ip t = s6_src_ip t' -> s6_dst_ip t = s6_dst_ip t' -> t = t'.
Proof.
  destruct t as [s d q sp dp], t' as [s' d' q' sp' dp'].
  unfold wf_ipv6_tuple; cbn [s6_src_ip s6_dst_ip s6_seq s6_sport s6_dport].
  intros (_ & _ & Hp) (_ & _ & Hp') H <- <-. unfold syn_xxh64_ipv6 in H. cbv zeta in H.
  cbn [s6_src_ip s6_dst_ip s6_seq s6_sport s6_dport] in H.
  apply avalanche_inj in H; [|apply update64_word..].
  apply update64_inj_input, syn_ports_seq_inj in H as (-> & -> & ->); auto with word64.
Qed.

(** ** Properties *)

(** C34: the unrolled hashes of a SYN are XXH64, the generic algorithm over a
    byte string of any length, applied to the tuple as it lies in memory: 16
    bytes for IPv4, on the path for short inputs, and 40 bytes for IPv6, on the
    path for inputs of at least a stripe. *)
Theorem syn_hash_is_xxh64 t4 t6 seed : wf_ipv4_tuple t4 -> wf_ipv6_tuple t6 ->
  syn_xxh64_ipv4 t4 seed = Ref.XXH64 (ipv4_tuple_bytes t4) seed
  /\ syn_xxh64_ipv6 t6 seed = Ref.XXH64 (ipv6_tuple_bytes t6) seed.
Proof. intros. split; [by apply syn_xxh64_ipv4_ref|by apply syn_xxh64_ipv6_ref]. Qed.

(** The tuples of the golden vectors of src/t/bpf/syn_hash.cc. *)
Definition golden4 : XfwIpv4SynTuple :=
  mkIpv4SynTuple 0x01020304 0x05060708 0x11223344 12345 443.
Definition golden_addr (b : Z) : list Z :=
  [0x20; 0x01; 0x0d; 0xb8; 0; 0; 0; 0; 0; 0; 0; 0; 0; 0; 0; b].
Definition golden6 : XfwIpv6SynTuple :=
  mkIpv6SynTuple (golden_addr 1) (golden_addr 2) 0x11223344 12345 443.

Lemma golden4_wf : wf_ipv4_tuple golden4.
Proof. by vm_compute. Qed.

Lemma golden6_wf : wf_ipv6_tuple golden6.
Proof.
  assert (forall b, 0 <= b < 256 -> wf_ip6 (golden_addr b)) as H.
  { intros b Hb. split; [done|]. unfold golden_addr. repeat constructor; unfold is_byte; lia. }
  split; [by apply H|]. split; [by apply H|]. by vm_compute.
Qed.

Lemma syn_hash_is_xxh64_witness :
  syn_xxh64_ipv4 golden4 0 = Ref.XXH64 (ipv4_tuple_bytes golden4) 0
  /\ syn_xxh64_ipv6 golden6 0 = Ref.XXH64 (ipv6_tuple_bytes golden6) 0.
Proof. apply (syn_hash_is_xxh64 golden4 golden6 0); [apply golden4_wf|apply golden6_wf]. Defined.

(** Two SYNs between the same addresses that differ in a port or in the
    sequence number never have the same hash, whatever the seed; and two IPv4
    SYNs with the same ports and sequence number that differ in an address do
    not either. *)
Lemma syn_hash_no_collision t4 t4' t6 t6' seed :
  wf_ipv4_tuple t4 -> wf_ipv4_tuple t4' -> wf_ipv6_tuple t6 -> wf_ipv6_tuple t6' ->
  (syn_xxh64_ipv4 t4 seed = syn_xxh64_ipv4 t4' seed ->
   (s4_src_ip t4 = s4_src_ip t4' /\ s4_dst_ip t4 = s4_dst_ip t4')
   \/ (s4_seq t4 = s4_seq t4' /\ s4_sport t4 = s4_sport t4' /\ s4_dport t4 = s4_dport t4') ->
   t4 = t4')
  /\ (syn_xxh64_ipv6 t6 seed = syn_xxh64_ipv6 t6' seed ->
      s6_src_ip t6 = s6_src_ip t6' -> s6_dst_ip t6 = s6_dst_ip t6' -> t6 = t6').
Proof. intros. split; intros; [by eapply ipv4_no_collision|by eapply ipv6_no_collision]. Qed.

(** The golden IPv4 SYN retransmitted from the next port. *)
Definition next_port4 : XfwIpv4SynTuple :=
  mkIpv4SynTuple 0x01020304 0x05060708 0x11223344 12346 443.

Lemma syn_hash_no_collision_example :
  syn_xxh64_ipv4 golden4 7 <> syn_xxh64_ipv4 next_port4 7.
Proof.
  destruct (syn_hash_no_collision golden4 next_port4 golden6 golden6 7) as [H _];
    [apply golden4_wf|by vm_compute|apply golden6_wf|apply golden6_wf|].
  intros E. discriminate (H E (or_introl (conj eq_refl eq_refl))).
Defined.
