(* ===== verification/Stats.v ===== *)
(** * Stats: the counters of all CPUs, their export and the metrics service

    src/lib/bpf/per_cpu_counter.hh, src/manager/xfw/stats.cc and
    src/manager/http_service.cc, each in a part of its own. *)

From stdpp Require Import strings pretty.
From S2P Require Import Prelude.
From S2P Require Import Enums.
From S2P Require Import Uapi.

(** * Values with one element per CPU

    src/lib/bpf/per_cpu_counter.hh ([BpfPerCpuCounter]): what the kernel keeps for
    every CPU is read as an array and summed in user space.  The sums are those of
    the integers modulo 2^64, whatever the order of the CPUs. *)

(** [add] is the [operator+=] of the value type, [zero] its value-initialised
    object. *)
Definition per_cpu_sum {V} (zero : V) (add : V -> V -> V) (data : list V) : V :=
  foldl add zero data.

(** The sum of a [uint64_t] member. *)
Definition per_cpu_sum_field {V} (member : V -> Z) (data : list V) : Z :=
  foldl (fun total v => u64 (total + member v)) 0 data.

(** The sum of the integers. *)
Definition sum_of {V} (member : V -> Z) (data : list V) : Z :=
  foldr (fun v n => member v + n) 0 data.

Lemma sum_of_perm {V} (f : V -> Z) l l' : l ≡ₚ l' -> sum_of f l = sum_of f l'.
Proof. unfold sum_of. induction 1; cbn in *; lia. Qed.

(** A member of a sum, when the addition adds it modulo 2^64. *)
Lemma sum_member {V} (f : V -> Z) (zero : V) add data :
  f zero = 0 -> (forall a b, f (add a b) = u64 (f a + f b)) ->
  f (per_cpu_sum zero add data) = u64 (sum_of f data).
Proof.
  intros Hz Ha. unfold per_cpu_sum.
  enough (forall a, 0 <= f a < 2 ^ 64 -> f (foldl add a data) = u64 (f a + sum_of f data)) as H.
  { rewrite H, Hz; [done|lia]. }
  induction data as [|v data IH]; intros a Hr; unfold sum_of in *; cbn [foldl foldr].
  - by rewrite Z.add_0_r, wrap_small.
  - rewrite IH by (rewrite Ha; by apply wrap_range). rewrite Ha, wrap_add_idemp_l. f_equal. lia.
Qed.

Lemma sum_field_spec {V} (f : V -> Z) data : per_cpu_sum_field f data = u64 (sum_of f data).
Proof.
  unfold per_cpu_sum_field.
  enough (forall a, 0 <= a < 2 ^ 64 ->
    foldl (fun total v => u64 (total + f v)) a data = u64 (a + sum_of f data)) as H.
  { rewrite H by lia. done. }
  induction data as [|v data IH]; intros a Hr; unfold sum_of in *; cbn [foldl foldr].
  - by rewrite Z.add_0_r, wrap_small.
  - rewrite IH by (by apply wrap_range). rewrite wrap_add_idemp_l. f_equal. lia.
Qed.

(** * The exported statistics

    src/manager/xfw/stats.cc over src/lib/bpf/per_cpu_counter.hh and the tables of
    src/bpf_uapi/pass_stats.h, traffic_stats.h and tx_stats.h: the manager sums the
    counters of all CPUs and prints them in the Prometheus text format.  The
    theorem: a scrape of the text gives, for every statistic, exactly the sums
    over the CPUs modulo 2^64, each under a name of its own. *)

Open Scope Z_scope.

Record XfwStatInfo := mkStatInfo { si_name : string; si_desc : string }.

Definition xfw_pass_stats (i : XfwPassStat) : XfwStatInfo :=
  match i with
  | XFW_SRC_PORT_ALLOWED =>
      mkStatInfo "xfw_src_port_allowed" "Whitelisted by 'src_port: allow' rule"
  | XFW_SRC_IP_ALLOWED => mkStatInfo "xfw_src_ip_allowed" "Whitelisted by 'src_ip: allow' rule"
  | XFW_ARP_INGRESS => mkStatInfo "xfw_arp_ingress" "Allowed on parsing: ARP packet"
  | XFW_GRE_INGRESS => mkStatInfo "xfw_gre_ingress" "Allowed on parsing: GRE packet"
  | XFW_SUPPORTED_PROTOCOL_INGRESS =>
      mkStatInfo "xfw_supported_protocol_ingress"
        "Allowed on parsing: packet with supported protocol"
  | XFW_PRELOAD_INGRESS => mkStatInfo "xfw_preload_ingress" "Allowed: xFW rules are not loaded"
  | XFW_L2_UNKNOWN_EGRESS =>
      mkStatInfo "xfw_l2_unknown_egress" "Allowed on parsing: unknown EtherType"
  | XFW_ETH_BADHDR_EGRESS =>
      mkStatInfo "xfw_eth_badhdr_egress" "Allowed on parsing: bad ethernet header"
  | XFW_L4_UNSUPPORTED_EGRESS =>
      mkStatInfo "xfw_l4_unsupported_egress" "Allowed on parsing: unsupported IP proto"
  | XFW_IP4_BADHDR_EGRESS =>
      mkStatInfo "xfw_ip4_badhdr_egress" "Allowed on parsing: IPv4 bad header"
  | XFW_IP6_BADHDR_EGRESS =>
      mkStatInfo "xfw_ip6_badhdr_egress" "Allowed on parsing: IPv6 bad header"
  | XFW_TCP_BADHDR_EGRESS =>
      mkStatInfo "xfw_tcp_badhdr_egress" "Allowed on parsing: TCP bad header"
  | XFW_UDP_BADHDR_EGRESS =>
      mkStatInfo "xfw_udp_badhdr_egress" "Allowed on parsing: UDP bad header"
  | XFW_METADATA_CREATION_FAILED =>
      mkStatInfo "xfw_metadata_creation_failed" "Internal error: metadata creation failed"
  | XFW_ASSERT_FAILED => mkStatInfo "xfw_assert_failed" "Internal error: internal assert failed"
  end.

Definition xfw_traffic_stats (i : XfwTrafficStat) : XfwStatInfo :=
  match i with
  | XFW_SYN => mkStatInfo "xfw_syn" "Packets with SYN"
  | XFW_ACK => mkStatInfo "xfw_ack" "Packets with ACK"
  | XFW_SYNACK => mkStatInfo "xfw_synack" "Packets with SYN+ACK"
  | XFW_FIN => mkStatInfo "xfw_fin" "Packets with FIN"
  | XFW_RST => mkStatInfo "xfw_rst" "Packets with RST"
  | XFW_IP4_TOTAL_INGRESS => mkStatInfo "xfw_ip4_total_ingress" "IPv4 total ingress"
  | XFW_IP6_TOTAL_INGRESS => mkStatInfo "xfw_ip6_total_ingress" "IPv6 total ingress"
  | XFW_TCP_TOTAL_INGRESS => mkStatInfo "xfw_tcp_total_ingress" "TCP total ingress"
  | XFW_UDP_TOTAL_INGRESS => mkStatInfo "xfw_udp_total_ingress" "UDP total ingress"
  | XFW_ICMP_TOTAL_INGRESS => mkStatInfo "xfw_icmp_total_ingress" "ICMP total ingress"
  | XFW_TOTAL_DOWNSTREAM_INGRESS =>
      mkStatInfo "xfw_total_downstream_ingress" "Total trafic from downstream to xFW"
  | XFW_PASSED_DOWNSTREAM_INGRESS =>
      mkStatInfo "xfw_passed_downstream_ingress" "Passed trafic from downstream to xFW"
  | XFW_IP4_TOTAL_EGRESS => mkStatInfo "xfw_ip4_total_egress" "IP4 total egress"
  | XFW_IP6_TOTAL_EGRESS => mkStatInfo "xfw_ip6_total_egress" "IP6 total egress"
  | XFW_TCP_TOTAL_EGRESS => mkStatInfo "xfw_tcp_total_egress" "TPC total egress"
  | XFW_UDP_TOTAL_EGRESS => mkStatInfo "xfw_udp_total_egress" "UDP total egress"
  | XFW_TOTAL_DOWNSTREAM_EGRESS =>
      mkStatInfo "xfw_total_downstream_egress" "Total trafic from xFW to upstream"
  | XFW_TOTAL_UPSTREAM_EGRESS =>
      mkStatInfo "xfw_total_upstream_egress" "Total trafic from xFW to downstream"
  | XFW_PASSED_DOWNSTREAM_EGRESS =>
      mkStatInfo "xfw_passed_downstream_egress" "Passed trafic from xFW to upstream"
  | XFW_PASSED_UPSTREAM_EGRESS =>
      mkStatInfo "xfw_passed_upstream_egress" "Passed trafic from xFW to downstream"
  | XFW_SYNCOOKIE_RECEIVED =>
      mkStatInfo "xfw_syncookie_received" "Received packet with valid syncookie"
  | XFW_SYNCOOKIE_FAILED => mkStatInfo "xfw_syncookie_failed" "Failed syncookie verification"
  end.

Definition xfw_tx_stats (i : XfwTxStat) : XfwStatInfo :=
  match i with
  | XFW_SYNCOOKIE_GENERATED =>
      mkStatInfo "xfw_syncookie_generated" "Transmit packet back to client with syncookie"
  end.

(** The line feed, and a stream insertion of a [uint64_t]. *)
Definition nl : string := String (Ascii.ascii_of_nat 10) EmptyString.
Definition show (x : Z) : string := pretty (Z.to_N x).

Definition format_stat (ss : string) (field : XfwStatInfo) (packet_stats : XfwPacketStats)
    : string :=
  let ss := ss +:+ "# HELP " +:+ si_name field +:+ "_packets Total " +:+ si_desc field
              +:+ " packets." +:+ nl in
  let ss := ss +:+ "# TYPE " +:+ si_name field +:+ "_packets counter" +:+ nl in
  let ss := ss +:+ si_name field +:+ "_packets " +:+ show (st_packets packet_stats) +:+ nl in
  let ss := ss +:+ "# HELP " +:+ si_name field +:+ "_bytes Total " +:+ si_desc field
              +:+ " bytes." +:+ nl in
  let ss := ss +:+ "# TYPE " +:+ si_name field +:+ "_bytes counter" +:+ nl in
  ss +:+ si_name field +:+ "_bytes " +:+ show (st_bytes packet_stats) +:+ nl.

(** [cpus] is what [global_stats_map_.get] wrote, one element per CPU, and [None]
    if it failed: the exception. *)
Definition load_global_stats (cpus : option (list XfwPerCpuStats)) : option XfwPerCpuStats :=
  match cpus with
  | Some data => Some (per_cpu_sum zero_stats XfwPerCpuStats_add data)
  | None => None
  end.

Definition load_global_stats_prometheus (cpus : option (list XfwPerCpuStats)) : option string :=
  match load_global_stats cpus with
  | None => None
  | Some stats =>
      let ss := EmptyString in
      let ss := foldl (fun ss i => format_stat ss (xfw_pass_stats i) (st_pass stats i)) ss
                  (enum_values (T := XfwPassStat)) in
      let ss := foldl (fun ss i => format_stat ss (xfw_traffic_stats i) (st_traffic stats i)) ss
                  (enum_values (T := XfwTrafficStat)) in
      Some (foldl (fun ss i => format_stat ss (xfw_tx_stats i) (st_transmitted stats i)) ss
              (enum_values (T := XfwTxStat)))
  end.

(** ** Reading the text back

    A scrape splits the text into lines, leaves out the comments, and takes a
    sample to be a name and a value separated by a space. *)

Definition is_nl (c : Ascii.ascii) : bool := (Ascii.nat_of_ascii c =? 10)%nat.

Fixpoint lines (s : string) : list string :=
  match s with
  | EmptyString => []
  | String c r =>
      if is_nl c then EmptyString :: lines r
      else match lines r with
           | [] => [String c EmptyString]
           | x :: xs => String c x :: xs
           end
  end.

Fixpoint cut (s : string) : option (string * string) :=
  match s with
  | EmptyString => None
  | String c r =>
      if (Ascii.nat_of_ascii c =? 32)%nat then Some (EmptyString, r)
      else '(a, b) ← cut r; Some (String c a, b)
  end.

Definition sample (line : string) : option (string * string) :=
  match line with
  | String c _ => if (Ascii.nat_of_ascii c =? 35)%nat then None else cut line
  | EmptyString => None
  end.

Definition scrape (text : string) : list (string * string) := omap sample (lines text).

(** No line feed, respectively no space, in a string. *)
Fixpoint no_char (n : nat) (s : string) : bool :=
  match s with
  | EmptyString => true
  | String c r => negb (Ascii.nat_of_ascii c =? n)%nat && no_char n r
  end.

Lemma no_char_app n a b : no_char n (a +:+ b) = no_char n a && no_char n b.
Proof.
  induction a as [|c a IH]; [done|]. simpl. rewrite IH. apply andb_assoc.
Qed.

Lemma string_app_assoc (a b c : string) : (a +:+ b) +:+ c = a +:+ (b +:+ c).
Proof.
  induction a as [|x a IH]; [done|].
  change (String x ((a +:+ b) +:+ c) = String x (a +:+ b +:+ c)). by rewrite IH.
Qed.

Lemma lines_app a b : no_char 10 a = true -> lines (a +:+ nl +:+ b) = a :: lines b.
Proof.
  induction a as [|c a IH]; intros H; [done|]. cbn in H. apply andb_true_iff in H as [H1 H2].
  simpl. unfold is_nl. rewrite (proj1 (negb_true_iff _) H1).
  by rewrite IH.
Qed.

Lemma cut_app a b : no_char 32 a = true -> cut (a +:+ " " +:+ b) = Some (a, b).
Proof.
  induction a as [|c a IH]; intros H; [done|]. cbn in H. apply andb_true_iff in H as [H1 H2].
  simpl. rewrite (proj1 (negb_true_iff _) H1). by rewrite IH.
Qed.

(** Decimal numbers hold digits only. *)
Lemma digit_range x : (48 <= Ascii.nat_of_ascii (pretty_N_char x))%nat.
Proof. apply Nat.leb_le. unfold pretty_N_char. by repeat case_match. Qed.

Lemma no_char_pretty_go n x s : (n < 48)%nat -> no_char n s = true ->
  no_char n (pretty_N_go x s) = true.
Proof.
  intros Hn. revert s. induction (N.lt_wf_0 x) as [x _ IH]. intros s Hs.
  destruct (decide (x = 0)%N) as [->|Hx]; [by rewrite pretty_N_go_0|].
  rewrite pretty_N_go_step by lia. apply IH; [apply N.div_lt; lia|].
  cbn [no_char]. rewrite Hs, andb_true_r. apply negb_true_iff, Nat.eqb_neq.
  pose proof (digit_range (x `mod` 10)). lia.
Qed.

Lemma no_char_show n x : (n < 48)%nat -> no_char n (show x) = true.
Proof.
  intros Hn. unfold show, pretty, pretty_N. case_decide; [|by apply no_char_pretty_go].
  cbn [no_char]. rewrite andb_true_r. apply negb_true_iff, Nat.eqb_neq.
  change (Ascii.nat_of_ascii _) with 48%nat. lia.
Qed.

(** ** The text of one statistic *)

Definition stat_text (field : XfwStatInfo) (st : XfwPacketStats) : string :=
  format_stat EmptyString field st.

Lemma format_stat_app ss field st : format_stat ss field st = ss +:+ stat_text field st.
Proof. unfold stat_text, format_stat. by rewrite !string_app_assoc. Qed.

(** A field of the tables: no line feeds, a name without spaces that does not
    look like a comment. *)
Definition field_ok (f : XfwStatInfo) : bool :=
  no_char 10 (si_name f) && no_char 32 (si_name f) && no_char 10 (si_desc f)
  && match si_name f with String c _ => negb (Ascii.nat_of_ascii c =? 35)%nat | _ => false end.

Definition field_samples (f : XfwStatInfo) (st : XfwPacketStats) : list (string * string) :=
  [(si_name f +:+ "_packets", show (st_packets st)); (si_name f +:+ "_bytes", show (st_bytes st))].

Lemma sample_value f suffix v : field_ok f = true -> no_char 32 suffix = true ->
  sample (si_name f +:+ suffix +:+ " " +:+ v) = Some (si_name f +:+ suffix, v).
Proof.
  intros H Hs. unfold field_ok in H.
  apply andb_true_iff in H as [H Hc]. apply andb_true_iff in H as [H _].
  apply andb_true_iff in H as [_ Hn]. rewrite <- string_app_assoc.
  assert (no_char 32 (si_name f +:+ suffix) = true) as Hns by (by rewrite no_char_app, Hn).
  pose proof (cut_app _ v Hns) as Hcut. unfold sample.
  destruct (si_name f) as [|c r]; [done|]. simpl in *.
  by rewrite (proj1 (negb_true_iff _) Hc).
Qed.

Lemma scrape_line a rest : no_char 10 a = true ->
  scrape (a +:+ nl +:+ rest) = match sample a with Some x => [x] | None => [] end ++ scrape rest.
Proof. intros Ha. unfold scrape. rewrite lines_app by done. cbn. by destruct (sample a). Qed.

(** The six lines of a statistic. *)
Definition comment (kind : string) (f : XfwStatInfo) (tail : string) : string :=
  "# " +:+ kind +:+ si_name f +:+ tail.

Lemma stat_lines f st rest : stat_text f st +:+ rest
  = comment "HELP " f ("_packets Total " +:+ si_desc f +:+ " packets.") +:+ nl +:+
    comment "TYPE " f "_packets counter" +:+ nl +:+
    (si_name f +:+ "_packets" +:+ " " +:+ show (st_packets st)) +:+ nl +:+
    comment "HELP " f ("_bytes Total " +:+ si_desc f +:+ " bytes.") +:+ nl +:+
    comment "TYPE " f "_bytes counter" +:+ nl +:+
    (si_name f +:+ "_bytes" +:+ " " +:+ show (st_bytes st)) +:+ nl +:+ rest.
Proof. unfold stat_text, format_stat, comment. by rewrite !string_app_assoc. Qed.

Lemma scrape_comment kind f tail rest :
  no_char 10 kind && no_char 10 (si_name f) && no_char 10 tail = true ->
  scrape (comment kind f tail +:+ nl +:+ rest) = scrape rest.
Proof.
  intros H. rewrite scrape_line; [done|]. unfold comment. rewrite !no_char_app.
  change (no_char 10 "# ") with true. cbn [andb]. by rewrite andb_assoc.
Qed.

Lemma scrape_stat f st rest : field_ok f = true ->
  scrape (stat_text f st +:+ rest) = field_samples f st ++ scrape rest.
Proof.
  intros H. pose proof (sample_value f "_packets" (show (st_packets st)) H eq_refl) as Hp.
  pose proof (sample_value f "_bytes" (show (st_bytes st)) H eq_refl) as Hb.
  unfold field_ok in H. apply andb_true_iff in H as [H _]. apply andb_true_iff in H as [H Hd].
  apply andb_true_iff in H as [Hn _].
  rewrite stat_lines, !scrape_comment by (rewrite ?no_char_app, Hn, ?Hd; done).
  rewrite scrape_line by (rewrite !no_char_app, Hn, no_char_show by lia; done). rewrite Hp.
  rewrite !scrape_comment by (rewrite ?no_char_app, Hn, ?Hd; done).
  rewrite scrape_line by (rewrite !no_char_app, Hn, no_char_show by lia; done). by rewrite Hb.
Qed.

(** ** The whole text *)

Definition all_fields (stats : XfwPerCpuStats) : list (XfwStatInfo * XfwPacketStats) :=
  ((fun i => (xfw_pass_stats i, st_pass stats i)) <$> enum_values)
  ++ ((fun i => (xfw_traffic_stats i, st_traffic stats i)) <$> enum_values)
  ++ ((fun i => (xfw_tx_stats i, st_transmitted stats i)) <$> enum_values).

Fixpoint fields_text (l : list (XfwStatInfo * XfwPacketStats)) : string :=
  match l with
  | [] => EmptyString
  | (f, st) :: l => stat_text f st +:+ fields_text l
  end.

Lemma foldl_text {T} (f : T -> XfwStatInfo) (g : T -> XfwPacketStats) l ss :
  foldl (fun ss i => format_stat ss (f i) (g i)) ss l
  = ss +:+ fields_text ((fun i => (f i, g i)) <$> l).
Proof.
  revert ss. induction l as [|x l IH]; intros ss; cbn [foldl fmap list_fmap fields_text].
  - induction ss as [|c ss IH]; [done|]. change (String c ss = String c (ss +:+ EmptyString)).
    by rewrite <- IH.
  - by rewrite IH, format_stat_app, string_app_assoc.
Qed.

Lemma fields_text_app l l' : fields_text (l ++ l') = fields_text l +:+ fields_text l'.
Proof.
  induction l as [|[f st] l IH]; [done|]. cbn [app fields_text]. by rewrite IH, string_app_assoc.
Qed.

Lemma prometheus_text cpus stats : load_global_stats cpus = Some stats ->
  load_global_stats_prometheus cpus = Some (fields_text (all_fields stats)).
Proof.
  intros H. unfold load_global_stats_prometheus. rewrite H, !foldl_text. f_equal.
  unfold all_fields. by rewrite !fields_text_app, string_app_assoc.
Qed.

Lemma scrape_fields l : Forall (fun x => field_ok x.1 = true) l ->
  scrape (fields_text l) = l ≫= (fun x => field_samples x.1 x.2).
Proof.
  induction 1 as [|[f st] l H _ IH]; [done|]. cbn [fields_text].
  by rewrite scrape_stat, IH.
Qed.

(** The tables are well formed, and their names differ. *)
Lemma all_fields_ok stats : Forall (fun x => field_ok x.1 = true) (all_fields stats).
Proof. unfold all_fields. cbn. repeat constructor. Qed.

Definition all_samples (stats : XfwPerCpuStats) : list (string * string) :=
  all_fields stats ≫= (fun x => field_samples x.1 x.2).

Lemma all_names_distinct stats : NoDup (all_samples stats).*1.
Proof.
  change (NoDup (all_samples zero_stats).*1). apply (bool_decide_unpack _). by vm_compute.
Qed.

Lemma enum_complete {T} `{Enumeration T} (x : T) : x ∈ enum_values.
Proof. eapply list_elem_of_lookup_2, enum_nth. Qed.

Lemma sampled f st stats x : (f, st) ∈ all_fields stats -> x ∈ field_samples f st ->
  x ∈ all_samples stats.
Proof. intros H Hx. apply list_elem_of_bind. by exists (f, st). Qed.

Lemma field_listed stats :
  (forall i, (xfw_pass_stats i, st_pass stats i) ∈ all_fields stats)
  /\ (forall i, (xfw_traffic_stats i, st_traffic stats i) ∈ all_fields stats)
  /\ (forall i, (xfw_tx_stats i, st_transmitted stats i) ∈ all_fields stats).
Proof.
  unfold all_fields. repeat split; intros i; rewrite !elem_of_app, !list_elem_of_fmap;
    [left|right; left|right; right]; exists i; (split; [done|apply enum_complete]).
Qed.

(** The decimal text of a counter determines it. *)
Lemma show_inj x y : 0 <= x -> 0 <= y -> show x = show y -> x = y.
Proof. unfold show. intros Hx Hy H. apply (inj pretty) in H. lia. Qed.

(** The samples of a statistic: the sums over the CPUs modulo 2^64. *)
Definition reported (f : XfwStatInfo) (g : XfwPerCpuStats -> XfwPacketStats)
    (cpus : list XfwPerCpuStats) (samples : list (string * string)) : Prop :=
  (si_name f +:+ "_packets", show (u64 (sum_of (fun s => st_packets (g s)) cpus))) ∈ samples
  /\ (si_name f +:+ "_bytes", show (u64 (sum_of (fun s => st_bytes (g s)) cpus))) ∈ samples.

Lemma reported_field f (g : XfwPerCpuStats -> XfwPacketStats) cpus stats :
  stats = per_cpu_sum zero_stats XfwPerCpuStats_add cpus -> g zero_stats = mkPacketStats 0 0 ->
  (forall a b, g (XfwPerCpuStats_add a b) = XfwPacketStats_add (g a) (g b)) ->
  (f, g stats) ∈ all_fields stats -> reported f g cpus (all_samples stats).
Proof.
  intros -> Hz Ha Hin. unfold reported.
  rewrite <- (sum_member (fun s => st_packets (g s)) zero_stats XfwPerCpuStats_add),
    <- (sum_member (fun s => st_bytes (g s)) zero_stats XfwPerCpuStats_add)
    by (intros; by rewrite ?Hz, ?Ha).
  split; (eapply sampled; [exact Hin|]); unfold field_samples; rewrite !elem_of_cons; auto.
Qed.

(** ** Properties *)

(** C35: the statistics round trip through the text. Whatever the counters of the
    CPUs, the manager prints a text whose scrape has one sample for the packets
    and one for the bytes of every statistic of the firewall, each under a name
    of its own, and the values are the sums over all CPUs modulo 2^64; if the
    counters cannot be read there is no text. *)
Theorem metrics_roundtrip cpus :
  load_global_stats_prometheus None = None
  /\ exists text, load_global_stats_prometheus (Some cpus) = Some text
    /\ NoDup (scrape text).*1 /\ length (scrape text) = 76%nat
    /\ (forall i, reported (xfw_pass_stats i) (fun s => st_pass s i) cpus (scrape text))
    /\ (forall i, reported (xfw_traffic_stats i) (fun s => st_traffic s i) cpus (scrape text))
    /\ (forall i, reported (xfw_tx_stats i) (fun s => st_transmitted s i) cpus (scrape text)).
Proof.
  split; [done|]. set (stats := per_cpu_sum zero_stats XfwPerCpuStats_add cpus).
  eexists. split; [by apply (prometheus_text (Some cpus) stats)|].
  rewrite scrape_fields by apply all_fields_ok. fold (all_samples stats).
  split; [apply all_names_distinct|]. split; [done|].
  destruct (field_listed stats) as (Hp & Ht & Hx).
  split; [|split]; intros i; by apply (reported_field _ _ cpus stats).
Qed.

(** * The metrics service of the manager

    src/manager/http_service.cc ([ManagerHttpService]): the loop of a connection
    and the handler of a request.  What the socket gives is an input: the outcome
    of every read, the counters a request finds or the exception that reading
    them raises, and the exception of every write that fails.  Boost.Beast is not part of the repository; a request and a
    response are records of the fields the code uses, and [need_eof] is a
    parameter. *)

Inductive HttpStatus :=
| status_ok | status_method_not_allowed | status_internal_server_error | status_not_found.

Record HttpRequest := mkRequest {
  rq_get : bool;
  rq_target : string;
  rq_version : Z;
  rq_keep_alive : bool
}.

(** [rs_length]: the field Content-Length, set by [prepare_payload]. *)
Record HttpResponse := mkResponse {
  rs_status : HttpStatus;
  rs_version : Z;
  rs_keep_alive : bool;
  rs_body : string;
  rs_length : option nat
}.

Definition create_plain_response (keep_alive : bool) (version : Z) (body : string)
    : HttpResponse :=
  match body with
  | EmptyString => mkResponse status_ok version keep_alive EmptyString None
  | _ => mkResponse status_ok version keep_alive body (Some (String.length body))
  end.

(** [res.result(status)]. *)
Definition set_status (s : HttpStatus) (r : HttpResponse) : HttpResponse :=
  mkResponse s (rs_version r) (rs_keep_alive r) (rs_body r) (rs_length r).

(** The exceptions that the handlers tell apart: [std::bad_alloc] and the rest. *)
Inductive HttpException := BadAlloc | OtherException.

(** What the constructor of [BpfStats] and the read of the counters give: an
    exception of their own, or the counters, [None] if the read fails. *)
Definition StatsRead : Type := HttpException + option (list XfwPerCpuStats).

Definition handle_metrics_request (stats : StatsRead) (req : HttpRequest)
    : HttpException + HttpResponse :=
  match stats with
  | inl e => inl e
  | inr cpus =>
      match load_global_stats_prometheus cpus with
      | None => inl OtherException
      | Some text => inr (create_plain_response (rq_keep_alive req) (rq_version req) text)
      end
  end.

(** What a connection has sent; [s_writes] counts the attempts. *)
Record Socket := mkSocket { s_sent : list HttpResponse; s_writes : nat }.

Lemma load_global_stats_prometheus_some cpus :
  exists text, load_global_stats_prometheus (Some cpus) = Some text.
Proof. by eexists. Qed.

Section service.
Variable need_eof : HttpResponse -> bool.
(** The exception of the n-th write of the connection, if it fails. *)
Variable write_fails : nat -> option HttpException.

(** [close], or the exception of the write. *)
Definition send_response (res : HttpResponse) (s : Socket) : (HttpException + bool) * Socket :=
  let close := negb (rs_keep_alive res) || need_eof res in
  match write_fails (s_writes s) with
  | None => (inr close, mkSocket (s_sent s ++ [res]) (S (s_writes s)))
  | Some e => (inl e, mkSocket (s_sent s) (S (s_writes s)))
  end.

Definition handle_request (stats : StatsRead) (req : HttpRequest) (s : Socket)
    : (HttpException + bool) * Socket :=
  let version := rq_version req in
  let keep_alive := rq_keep_alive req in
  if negb (rq_get req) then
    send_response (set_status status_method_not_allowed
                     (create_plain_response keep_alive version "Method not Allowed")) s
  else
    let on_exception s :=
      send_response (set_status status_internal_server_error
        (create_plain_response keep_alive version
           "Exception caught while processing request")) s in
    if String.eqb (rq_target req) "/metrics" then
      match handle_metrics_request stats req with
      | inl BadAlloc => (inl BadAlloc, s)
      | inl OtherException => on_exception s
      | inr res =>
          match send_response res s with
          | (inl BadAlloc, s) => (inl BadAlloc, s)
          | (inl OtherException, s) => on_exception s
          | r => r
          end
      end
    else
      send_response (set_status status_not_found
        (create_plain_response keep_alive version
           ("The resource '" +:+ rq_target req +:+ "' was not found"))) s.

(** The outcome of a read: a request, with the counters that its handler will
    find, the end of the stream, or another error. *)
Inductive Read :=
| ReadRequest (req : HttpRequest) (stats : StatsRead)
| ReadEnd
| ReadError.

(** The connection after the given reads; [true] when it was shut down. *)
Fixpoint session (reads : list Read) (s : Socket) : bool * Socket :=
  match reads with
  | [] => (false, s)
  | ReadEnd :: _ => (true, s)
  | ReadError :: _ => (true, s)
  | ReadRequest req stats :: reads =>
      match handle_request stats req s with
      | (inl _, s) => (true, s)
      | (inr true, s) => (true, s)
      | (inr false, s) => session reads s
      end
  end.

(** ** Specification *)

(** The answer to a request, if there is one: none is given when there is no
    memory for the metrics. *)
Definition answer (req : HttpRequest) (stats : StatsRead) : option HttpResponse :=
  let plain s b := set_status s (create_plain_response (rq_keep_alive req) (rq_version req) b) in
  if negb (rq_get req) then Some (plain status_method_not_allowed "Method not Allowed")
  else if String.eqb (rq_target req) "/metrics" then
    match stats with
    | inl BadAlloc => None
    | inl OtherException | inr None =>
        Some (plain status_internal_server_error "Exception caught while processing request")
    | inr (Some cpus) => plain status_ok <$> load_global_stats_prometheus (Some cpus)
    end
  else Some (plain status_not_found ("The resource '" +:+ rq_target req +:+ "' was not found")).

(** The answers of a connection up to and including the one after which it is
    closed. *)
Fixpoint answers (reads : list Read) : list HttpResponse :=
  match reads with
  | ReadRequest req stats :: reads =>
      match answer req stats with
      | None => []
      | Some res => res :: (if rq_keep_alive req && negb (need_eof res) then answers reads else [])
      end
  | _ => []
  end.

Lemma answer_keep_alive req stats res : answer req stats = Some res ->
  rs_keep_alive res = rq_keep_alive req.
Proof.
  assert (forall st v k b, rs_keep_alive (set_status st (create_plain_response k v b)) = k)
    as Hk by (by intros ? ? ? []).
  unfold answer. destruct (negb _); [by intros [= <-]|].
  destruct (String.eqb _ _); [|by intros [= <-]].
  destruct stats as [[]|[cpus|]]; [done|by intros [= <-]| |by intros [= <-]].
  intros (t & _ & ->)%fmap_Some. apply Hk.
Qed.

Lemma set_status_ok keep v body :
  set_status status_ok (create_plain_response keep v body) = create_plain_response keep v body.
Proof. by destruct body. Qed.

Lemma handle_request_ok stats req s : write_fails (s_writes s) = None ->
  handle_request stats req s
  = match answer req stats with
    | None => (inl BadAlloc, s)
    | Some res => (inr (negb (rq_keep_alive req) || need_eof res),
                   mkSocket (s_sent s ++ [res]) (S (s_writes s)))
    end.
Proof.
  intros Hw. destruct (answer req stats) as [res|] eqn:Ha.
  - rewrite <- (answer_keep_alive _ _ _ Ha). revert Ha.
    unfold handle_request, handle_metrics_request, answer, send_response. rewrite Hw.
    destruct (rq_get req); cbn [negb]; [|by intros [= <-]].
    destruct (String.eqb _ _); [|by intros [= <-]].
    destruct stats as [[]|[cpus|]]; [done|by intros [= <-]| |by intros [= <-]].
    destruct (load_global_stats_prometheus (Some cpus)); [|done]. cbn [fmap option_fmap option_map].
    rewrite set_status_ok. intros [= <-]. reflexivity.
  - revert Ha. unfold handle_request, handle_metrics_request, answer.
    destruct (rq_get req); cbn [negb]; [|done]. destruct (String.eqb _ _); [|done].
    destruct stats as [[]|[cpus|]]; [done..| |done].
    destruct (load_global_stats_prometheus_some cpus) as [text ->]. done.
Qed.

Lemma session_answers reads s :
  (forall n, (s_writes s <= n)%nat -> write_fails n = None) ->
  s_sent (session reads s).2 = s_sent s ++ answers reads.
Proof.
  revert s. induction reads as [|[req stats| |] reads IH]; intros s Hw; cbn [session answers];
    try by rewrite app_nil_r.
  rewrite handle_request_ok by (apply Hw; lia).
  destruct (answer req stats) as [res|]; [|by rewrite app_nil_r].
  destruct (negb (rq_keep_alive req) || need_eof res) eqn:Hc.
  - apply orb_true_iff in Hc. replace (_ && _) with false; [done|]. symmetry.
    apply andb_false_iff. rewrite negb_true_iff in Hc. rewrite negb_false_iff. done.
  - apply orb_false_iff in Hc as [H1 H2]. apply negb_false_iff in H1. rewrite H1, H2.
    rewrite IH by (intros n Hn; apply Hw; cbn in Hn; lia). cbn. by rewrite <- app_assoc.
Qed.
End service.

(** A response of the metrics that cannot be written is caught together with the
    exceptions of the computation: a second response, an internal server error,
    is written to the same connection. *)
Lemma failed_write_answered_twice need_eof write_fails cpus req text s :
  rq_get req = true -> rq_target req = "/metrics" ->
  load_global_stats_prometheus (Some cpus) = Some text ->
  write_fails (s_writes s) = Some OtherException -> write_fails (S (s_writes s)) = None ->
  exists res, rs_status res = status_internal_server_error
    /\ s_sent (handle_request need_eof write_fails (inr (Some cpus)) req s).2 = s_sent s ++ [res].
Proof.
  intros Hg Ht Hl H0 H1. unfold handle_request, handle_metrics_request, send_response.
  rewrite Hg, Ht, Hl, H0. cbn. rewrite H1. eexists. split; [|reflexivity]. done.
Qed.

(** ** Properties *)

(** A connection of the metrics service gets exactly one answer to every
    request, in order, up to the request that closes it: 405 to a method other
    than GET, the text of the statistics to GET /metrics, 500 if the counters
    cannot be read, and 404 with the name of any other resource; a request that
    does not keep the connection alive is the last one served, and when there is
    no memory for the metrics the connection is closed without an answer. *)
Lemma http_session_answers need_eof write_fails reads :
  (forall n, write_fails n = None) ->
  s_sent (session need_eof write_fails reads (mkSocket [] 0)).2 = answers need_eof reads.
Proof. intros Hw. rewrite session_answers; [done|]. intros n _. apply Hw. Qed.

(** Two requests on a connection that is kept alive, the second one the last. *)
Definition sample_reads : list Read :=
  [ReadRequest (mkRequest true "/" 11 true) (inr None);
   ReadRequest (mkRequest true "/metrics" 11 false) (inr None); ReadEnd].

Lemma http_session_answers_example :
  rs_status <$> s_sent (session (fun _ => false) (fun _ => None) sample_reads (mkSocket [] 0)).2
  = [status_not_found; status_internal_server_error].
Proof. rewrite (http_session_answers (fun _ => false) (fun _ => None)); reflexivity. Defined.
