(* ===== verification/Logger.v ===== *)
(** * Logger: the plug-in that exports the incident logs

    src/logger/incident_log_plugin ([IncidentLogProcessor], [IncidentLogClickhouse]
    and the entry points of the plug-in) over src/lib/bpf/per_cpu_counter.hh and
    [drain_by_batch] of src/lib/bpf/hash_map.hh.  Every CPU has two log maps: the
    eBPF programs fill the active one ([IncidentLog]); the processor swaps the
    two, reads the one that became inactive, and clears it.  The state is that of
    the processor and of the kernel's log; what the system calls, the clocks and
    the allocator give at a call is its argument ([Inputs]).  A descriptor stands
    for the kernel map it refers to.

    The base class of the writer ([ClickHouseDecorator]) and the error codes of
    libtus are not part of the repository: they are parameters. *)

From S2P Require Import Prelude.
From S2P Require Import Enums.
From S2P Require Import Uapi.
From S2P Require Import Kernel.
From S2P Require Import Ctx.
From S2P Require Import IncidentLog.
From S2P Require Import ShadowMap.
From S2P Require Import Stats.
From stdpp Require Import strings pretty.
Open Scope Z_scope.

(** ** incident_log_clickhouse.cc

    The columns of the block, in the order of [TfwFields]. *)
Record Block := mkBlock {
  b_timestamp : list Z;
  b_addr : list XfwIp;
  b_reason : list Z;
  b_packets : list Z;
  b_bytes : list Z;
  b_dropped : list Z
}.

Definition empty_block : Block := mkBlock [] [] [] [] [] [].

(** What happens while a row is appended: the wall clock in milliseconds, and the
    column whose [Append] throws, if one does. The exception is caught; the
    columns before it keep their new value. *)
Record RowInput := mkRowInput { ri_time_ms : Z; ri_throws : option nat }.

Definition append_if {A} (throws : option nat) (i : nat) (x : A) (col : list A) : list A :=
  match throws with
  | Some c => if (c <=? i)%nat then col else col ++ [x]
  | None => col ++ [x]
  end.

Definition append_event (i : RowInput) (key : XfwIp) (value : IncidentLogStat) (drops : Z)
    (b : Block) : Block :=
  let t := ri_throws i in
  mkBlock (append_if t 0 (ri_time_ms i) (b_timestamp b))
    (append_if t 1 key (b_addr b))
    (append_if t 2 (il_reason value) (b_reason b))
    (append_if t 3 (il_packets value) (b_packets b))
    (append_if t 4 (il_bytes value) (b_bytes b))
    (append_if t 5 drops (b_dropped b)).

(** ** incident_log_processor.hh *)

Record Processor := mkProcessor {
  cpu_ : Z;
  active_map_ : Z;
  inactive_map_ : Z;
  last_swap_ts_ : Z;
  next_swap_ : Z;
  stopped_ : bool;
  stop_called_ : bool;
  writer_ : Block
}.

(** One second, in nanoseconds. *)
Definition timer_interval_ : Z := 1000000000.
Definition batch_size_ : nat := 1024.
Definition MAX_INCIDENT_CPU : Z := 128.
Definition BPF_OBJ_NAME_LEN : nat := 16.
Definition MAP_LOG_BASENAME_STR : string := "xfw_ilog".

Definition set_maps (a i : Z) (p : Processor) : Processor :=
  mkProcessor (cpu_ p) a i (last_swap_ts_ p) (next_swap_ p) (stopped_ p) (stop_called_ p)
    (writer_ p).
Definition set_times (last next : Z) (p : Processor) : Processor :=
  mkProcessor (cpu_ p) (active_map_ p) (inactive_map_ p) last next (stopped_ p)
    (stop_called_ p) (writer_ p).
Definition set_flags (stopped stop_called : bool) (p : Processor) : Processor :=
  mkProcessor (cpu_ p) (active_map_ p) (inactive_map_ p) (last_swap_ts_ p) (next_swap_ p)
    stopped stop_called (writer_ p).
Definition set_writer (b : Block) (p : Processor) : Processor :=
  mkProcessor (cpu_ p) (active_map_ p) (inactive_map_ p) (last_swap_ts_ p) (next_swap_ p)
    (stopped_ p) (stop_called_ p) b.

(** The kernel as the processor sees it: the log, and the number of batch calls
    made so far. *)
Record World := mkWorld { w_log : IncidentLog; w_calls : nat }.

Definition set_log (l : IncidentLog) (w : World) : World := mkWorld l (w_calls w).

(** [bpf_map_update_elem] on the array of active maps. *)
Definition set_active_fd (cpu fd : Z) (l : IncidentLog) : IncidentLog :=
  mkIncidentLog (<[cpu := fd]> (ilog_active_fd l)) (ilog_maps l) (ilog_events l)
    (ilog_ev_cnt l).

(** The result and the buffer of [incident_log_events_.get], the result of
    [incident_log_active_fd_.update], the steady clock before and after a swap,
    and the inputs of the rows. *)
Record Inputs := mkInputs {
  in_get : Z;
  in_events : list IncidentPerCpuNotifyInfo;
  in_update_fd : Z;
  in_now : Z;
  in_now_after : Z;
  in_row : nat -> RowInput
}.

Definition get_dropped_ev_cnt (infos : list IncidentPerCpuNotifyInfo) : Z :=
  per_cpu_sum_field drop_cnt infos.

(** ** incident_log_processor.cc *)

Inductive LogError :=
| MapNameTooLong | MapNotCreated | MapNotOpened | CpuTooBig | NoEventsForCpu
| MapNotAssigned.

Section processor.
Context `{!BpfBatch XfwIp IncidentLogStat}.
(** [Err::DB_CLT_TRANSIENT], and [ClickHouseDecorator::flush]. *)
Variable DB_CLT_TRANSIENT : Z.
Variable flush : bool -> Block -> bool * Block.

Definition incident_map_name (cpu : Z) (active : bool) : string :=
  MAP_LOG_BASENAME_STR +:+ "_" +:+ (if active then "0" else "1") +:+ "_" +:+ pretty cpu.

(** [fd] is the result of [bpf_map_create]. *)
Definition create_incident_map (cpu : Z) (active : bool) (fd : Z) : LogError + Z :=
  if (BPF_OBJ_NAME_LEN <=? String.length (incident_map_name cpu active))%nat
  then inl MapNameTooLong
  else if fd <? 0 then inl MapNotCreated else inr fd.

Definition populate_percpu_maps (i : Inputs) (p : Processor) (w : World) : LogError + World :=
  if (in_get i <? 0) || (Z.of_nat (length (in_events i)) <=? cpu_ p) then inl NoEventsForCpu
  else if in_update_fd i <? 0 then inl MapNotAssigned
  else inr (set_log (set_active_fd (u32 (cpu_ p)) (active_map_ p) (w_log w)) w).

(** The constructor. [opened]: the two pinned maps could be opened and have the
    expected layout; [fd0] and [fd1] are the results of [bpf_map_create];
    [garbage] is the indeterminate value of [last_swap_ts_], which no initialiser
    sets. After an exception the guards have closed the two maps. *)
Definition IncidentLogProcessor (cpu fd0 fd1 : Z) (opened : bool) (garbage : Z) (i : Inputs)
    (w : World) : LogError + (Processor * World) :=
  let? active := create_incident_map cpu true fd0 in
  let? inactive := create_incident_map cpu false fd1 in
  rverify opened MapNotOpened ;?
  let p := mkProcessor cpu active inactive garbage (in_now i + timer_interval_) false false
             empty_block in
  rverify (negb (MAX_INCIDENT_CPU <? cpu)) CpuTooBig ;?
  let? w := populate_percpu_maps i p
              (set_log (set_log_map inactive ∅ (set_log_map active ∅ (w_log w))) w) in
  inr (p, w).

Definition has_stopped (p : Processor) : Z := if stopped_ p then 1 else 0.

Definition request_stop (p : Processor) : Processor := set_flags (stopped_ p) true p.

Definition swap_active_map (i : Inputs) (p : Processor) (w : World) : Z * Processor * World :=
  let err := in_update_fd i in
  if err <? 0 then (err, p, w)
  else (err, set_maps (inactive_map_ p) (active_map_ p) p,
        set_log (set_active_fd (u32 (cpu_ p)) (inactive_map_ p) (w_log w)) w).

Fixpoint append_events (row : nat -> RowInput) (k : nat) (drops : Z)
    (kvs : list (XfwIp * IncidentLogStat)) (b : Block) : Block :=
  match kvs with
  | [] => b
  | (key, value) :: kvs => append_events row (S k) drops kvs (append_event (row k) key value drops b)
  end.

(** The callback of [drain_by_batch] appends the entries of every batch in turn.
    [None] if the fuel ends, which it does not: every batch removes an entry. *)
Definition read_and_clear_inactive_map (drops : Z) (i : Inputs) (p : Processor) (w : World)
    : option (Processor * World) :=
  let m := log_map (w_log w) (inactive_map_ p) in
  match drain_by_batch (S (size m)) (w_calls w) 0 batch_size_ m with
  | None => None
  | Some (_, n, m, kvs) =>
      Some (set_writer (append_events (in_row i) 0 drops kvs (writer_ p)) p,
            mkWorld (set_log_map (inactive_map_ p) m (w_log w)) n)
  end.

Definition handle_swap_event (drops : Z) (i : Inputs) (p : Processor) (w : World)
    : option (Z * Processor * World) :=
  let '(err, p, w) := swap_active_map i p w in
  if negb (err =? 0) then Some (err, p, w)
  else
    match read_and_clear_inactive_map drops i p w with
    | None => None
    | Some (p, w) =>
        let now := in_now_after i in
        Some (0, set_times (u64 now) (now + timer_interval_) p, w)
    end.

Definition consume (i : Inputs) (p : Processor) (w : World)
    : option (Z * Processor * World) :=
  if stopped_ p then Some (0, p, w)
  else if (in_get i <? 0) || (Z.of_nat (length (in_events i)) <=? cpu_ p)
  then Some (- DB_CLT_TRANSIENT, p, w)
  else if stop_called_ p then
    match handle_swap_event (get_dropped_ev_cnt (in_events i)) i p w with
    | None => None
    | Some (_, p, w) => Some (0, set_flags true (stop_called_ p) p, w)
    end
  else if next_swap_ p <=? in_now i
  then handle_swap_event (get_dropped_ev_cnt (in_events i)) i p w
  else
    match in_events i !! Z.to_nat (cpu_ p) with
    | None => None
    | Some ev =>
        if swap_ts ev <=? last_swap_ts_ p then Some (0, p, w)
        else handle_swap_event (get_dropped_ev_cnt (in_events i)) i p w
    end.

Definition send (force : bool) (p : Processor) : Z * Processor :=
  let '(ok, b) := flush force (writer_ p) in
  (if ok then 0 else - DB_CLT_TRANSIENT, set_writer b p).

(** The destructor, up to the release of the two maps. *)
Definition destroy (i : Inputs) (p : Processor) (w : World) : option (Processor * World) :=
  if in_get i <? 0 then Some (p, w)
  else
    let '(err, p, w) := swap_active_map i p w in
    if negb (err =? 0) then Some (p, w)
    else read_and_clear_inactive_map (get_dropped_ev_cnt (in_events i)) i p w.

(** ** plugin.cc: a processor is passed as a pointer, null after a failure *)

Definition plugin_create_processor (cpu_id fd0 fd1 : Z) (opened : bool) (garbage : Z)
    (i : Inputs) (w : World) : option Processor * World :=
  match IncidentLogProcessor cpu_id fd0 fd1 opened garbage i w with
  | inl _ => (None, w)
  | inr (p, w) => (Some p, w)
  end.

Definition plugin_destroy_processor (i : Inputs) (processor : option Processor) (w : World)
    : option World :=
  match processor with
  | None => Some w
  | Some p => snd <$> destroy i p w
  end.
End processor.
