(* ===== verification/LoggerSpec.v ===== *)
(** * LoggerSpec: nothing is lost between the eBPF programs and the writer

    Theorems on [Logger] composed with [IncidentLog]: in every interleaving of
    incidents on a CPU with calls of the processor of that CPU, the kernel writes
    to the map that the processor takes for the active one, the other map is
    empty, every incident is counted exactly once in a map, in the writer's block
    or in the counter of lost incidents, and a map that fills up is exported by
    the next call of the processor. *)

From S2P Require Import Prelude.
From S2P Require Import Enums.
From S2P Require Import Uapi.
From S2P Require Import Kernel.
From S2P Require Import Ctx.
From S2P Require Import IncidentLog.
From S2P Require Import ShadowMap.
From S2P Require Import Logger.
Open Scope Z_scope.

(** ** Rows *)

Definition no_throw (i : Inputs) : Prop := forall k, ri_throws (in_row i k) = None.

(** Every column has a cell for every row. *)
Definition aligned (b : Block) : Prop :=
  length (b_addr b) = length (b_timestamp b) /\ length (b_reason b) = length (b_timestamp b)
  /\ length (b_packets b) = length (b_timestamp b)
  /\ length (b_bytes b) = length (b_timestamp b)
  /\ length (b_dropped b) = length (b_timestamp b).

(** The block after rows without an exception. *)
Lemma append_events_block row k d kvs b : (forall k, ri_throws (row k) = None) ->
  let b' := append_events row k d kvs b in
  b_addr b' = b_addr b ++ kvs.*1
  /\ b_reason b' = b_reason b ++ (il_reason <$> kvs.*2)
  /\ b_packets b' = b_packets b ++ (il_packets <$> kvs.*2)
  /\ b_bytes b' = b_bytes b ++ (il_bytes <$> kvs.*2)
  /\ b_dropped b' = b_dropped b ++ replicate (length kvs) d
  /\ length (b_timestamp b') = (length (b_timestamp b) + length kvs)%nat.
Proof.
  intros Hr. revert k b. induction kvs as [|[key v] kvs IH]; intros k b; cbn.
  { rewrite !app_nil_r. repeat split; lia. }
  destruct (IH (S k) (append_event (row k) key v d b)) as (-> & -> & -> & -> & -> & ->).
  unfold append_event, append_if. rewrite Hr. cbn. rewrite <- !app_assoc. cbn.
  rewrite length_app. cbn. repeat split; lia.
Qed.

Lemma append_events_aligned row k d kvs b : (forall k, ri_throws (row k) = None) ->
  aligned b -> aligned (append_events row k d kvs b).
Proof.
  intros Hr (A & B & C & D & F).
  destruct (append_events_block row k d kvs b Hr) as (E1 & E2 & E3 & E4 & E5 & E6).
  unfold aligned. rewrite E1, E2, E3, E4, E5, E6.
  rewrite !length_app, !length_fmap, length_replicate. lia.
Qed.

(** The packets of a list of entries. *)
Definition packets_of (kvs : list (XfwIp * IncidentLogStat)) : Z :=
  foldr (fun kv n => il_packets kv.2 + n) 0 kvs.

Definition sumz (l : list Z) : Z := foldr Z.add 0 l.

Lemma sumz_app l1 l2 : sumz (l1 ++ l2) = sumz l1 + sumz l2.
Proof. unfold sumz. induction l1 as [|x l1 IH]; cbn [app foldr] in *; lia. Qed.

Lemma sumz_packets kvs : sumz (il_packets <$> kvs.*2) = packets_of kvs.
Proof. unfold sumz, packets_of. induction kvs as [|kv kvs IH]; [done|]. cbn in *. lia. Qed.

Lemma packets_of_perm kvs kvs' : kvs ≡ₚ kvs' -> packets_of kvs = packets_of kvs'.
Proof. unfold packets_of. induction 1; cbn in *; lia. Qed.

Lemma logged_packets m : logged m = packets_of (map_to_list m).
Proof.
  induction m as [|k x m Hn IH] using map_ind; [by rewrite map_to_list_empty|].
  rewrite logged_insert_fresh, IH by done.
  by rewrite (packets_of_perm _ _ (map_to_list_insert m k x Hn)).
Qed.

(** ** The processor *)

(** A system in which the batch calls on a log map succeed. *)
Class DrainLive `{!BpfBatch XfwIp IncidentLogStat} : Prop :=
  drain_live n c sz (m : gmap XfwIp IncidentLogStat) :
    (0 < sz)%nat -> let err := (lookup_and_delete_batch n c sz m).1.1.1 in
    err = 0 \/ err = - ENOENT.

Section processor.
Context `{!BpfBatch XfwIp IncidentLogStat} `{!BpfBatchSpec XfwIp IncidentLogStat}.
Variable DB_CLT_TRANSIENT : Z.

Lemma drain_no_error `{!DrainLive} fuel n c m r n' m' kvs :
  drain_by_batch fuel n c batch_size_ m = Some (r, n', m', kvs) -> r = 0.
Proof.
  revert n c m kvs. induction fuel as [|fuel IH]; intros n c m kvs; [done|].
  cbn [drain_by_batch].
  pose proof (drain_live n c batch_size_ m ltac:(unfold batch_size_; lia)) as Hl.
  destruct (lookup_and_delete_batch n c batch_size_ m) as [[[err c'] ks] m1]. cbn in Hl.
  destruct (Z.eqb_spec err 0) as [->|Hz].
  - destruct (drain_by_batch fuel _ _ _ _) as [[[[? ?] ?] ?]|] eqn:Hd; [|done].
    intros [= -> <- <- _]. by eapply IH.
  - destruct Hl as [|Hl]; [done|]. rewrite (proj2 (Z.eqb_eq err (- ENOENT)) Hl). congruence.
Qed.

(** The drain always ends; it changes the inactive map and the block only. *)
Lemma read_and_clear_total d i p w :
  exists m n kvs, read_and_clear_inactive_map d i p w
    = Some (set_writer (append_events (in_row i) 0 d kvs (writer_ p)) p,
            mkWorld (set_log_map (inactive_map_ p) m (w_log w)) n)
  /\ (DrainLive -> m = ∅ /\ kvs ≡ₚ map_to_list (log_map (w_log w) (inactive_map_ p))).
Proof.
  unfold read_and_clear_inactive_map. set (m0 := log_map _ _).
  destruct (drain_spec (S (size m0)) (w_calls w) 0 batch_size_ m0 (behind_start m0) ltac:(lia))
    as (r & n & m & kvs & Hd & Hr).
  rewrite Hd. do 3 eexists. split; [done|]. intros HL. apply Hr. by eapply drain_no_error.
Qed.

(** What a call that does not swap, or cannot swap, leaves alone. *)
Inductive swap_outcome (d : Z) (i : Inputs) (p : Processor) (w : World)
    : Z -> Processor -> World -> Prop :=
| swap_failed : in_update_fd i < 0 -> swap_outcome d i p w (in_update_fd i) p w
| swap_odd : 0 < in_update_fd i ->
    swap_outcome d i p w (in_update_fd i) (set_maps (inactive_map_ p) (active_map_ p) p)
      (set_log (set_active_fd (u32 (cpu_ p)) (inactive_map_ p) (w_log w)) w)
| swap_done m n kvs : in_update_fd i = 0 ->
    (DrainLive -> m = ∅ /\ kvs ≡ₚ map_to_list (log_map (w_log w) (active_map_ p))) ->
    swap_outcome d i p w 0
      (set_times (u64 (in_now_after i)) (in_now_after i + timer_interval_)
         (set_writer (append_events (in_row i) 0 d kvs (writer_ p))
            (set_maps (inactive_map_ p) (active_map_ p) p)))
      (mkWorld (set_log_map (active_map_ p) m
                  (set_active_fd (u32 (cpu_ p)) (inactive_map_ p) (w_log w))) n).

Lemma handle_swap_event_cases d i p w :
  exists r p' w', handle_swap_event d i p w = Some (r, p', w')
    /\ swap_outcome d i p w r p' w'.
Proof.
  unfold handle_swap_event, swap_active_map.
  destruct (Z.ltb_spec (in_update_fd i) 0) as [Hn|Hn].
  { rewrite (proj2 (Z.eqb_neq _ 0)) by lia. do 3 eexists. split; [done|by constructor]. }
  destruct (Z.eqb_spec (in_update_fd i) 0) as [Hz|Hz]; cbn [negb].
  2: { do 3 eexists. split; [done|]. constructor. lia. }
  set (p1 := set_maps _ _ p). set (w1 := set_log _ w).
  destruct (read_and_clear_total d i p1 w1) as (m & n & kvs & -> & H).
  do 3 eexists. split; [done|]. exact (swap_done d i p w m n kvs Hz H).
Qed.

(** When a call of the processor swaps the maps. *)
Definition swap_due (i : Inputs) (p : Processor) : Prop :=
  stopped_ p = false /\ 0 <= in_get i /\ cpu_ p < Z.of_nat (length (in_events i))
  /\ (stop_called_ p = true \/ next_swap_ p <= in_now i
      \/ exists ev, in_events i !! Z.to_nat (cpu_ p) = Some ev /\ last_swap_ts_ p < swap_ts ev).

Lemma consume_due i p w : swap_due i p ->
  exists r p' w', handle_swap_event (get_dropped_ev_cnt (in_events i)) i p w = Some (r, p', w')
    /\ consume DB_CLT_TRANSIENT i p w
       = Some (if stop_called_ p then (0, set_flags true (stop_called_ p') p', w')
               else (r, p', w')).
Proof.
  intros (Hs & Hg & Hc & Hd). unfold consume. rewrite Hs.
  rewrite (proj2 (Z.ltb_ge _ _)), (proj2 (Z.leb_gt _ _)) by done. cbn [orb].
  destruct (handle_swap_event_cases (get_dropped_ev_cnt (in_events i)) i p w)
    as (r & p' & w' & E & _). rewrite E. do 3 eexists. split; [done|].
  destruct (stop_called_ p) eqn:Ht; [done|].
  destruct Hd as [Hd|[Hd|(ev & He & Hd)]]; [done|by rewrite (proj2 (Z.leb_le _ _))|].
  case_match; [done|]. rewrite He. by rewrite (proj2 (Z.leb_gt _ _)).
Qed.

Lemma swap_due_dec i p : 0 <= cpu_ p -> swap_due i p \/ ~ swap_due i p.
Proof.
  intros Hc. unfold swap_due. destruct (stopped_ p); [right; naive_solver|].
  destruct (decide (0 <= in_get i)); [|right; naive_solver].
  destruct (decide (cpu_ p < Z.of_nat (length (in_events i)))); [|right; naive_solver].
  destruct (stop_called_ p); [left; naive_solver|].
  destruct (decide (next_swap_ p <= in_now i)); [left; naive_solver|].
  destruct (in_events i !! Z.to_nat (cpu_ p)) as [ev|] eqn:He; [|right; naive_solver].
  destruct (decide (last_swap_ts_ p < swap_ts ev)); [left; naive_solver|right; naive_solver].
Qed.

(** Otherwise it does nothing. *)
Lemma consume_not_due i p w : ~ swap_due i p -> 0 <= cpu_ p ->
  exists r, consume DB_CLT_TRANSIENT i p w = Some (r, p, w).
Proof.
  intros Hn Hc. unfold consume. destruct (stopped_ p) eqn:Hs; [eauto|].
  destruct (Z.ltb_spec (in_get i) 0); [eauto|].
  destruct (Z.leb_spec (Z.of_nat (length (in_events i))) (cpu_ p)); [eauto|]. cbn [orb].
  destruct (stop_called_ p) eqn:Ht; [destruct Hn; repeat split; auto|].
  destruct (Z.leb_spec (next_swap_ p) (in_now i)); [destruct Hn; repeat split; auto|].
  destruct (in_events i !! Z.to_nat (cpu_ p)) as [ev|] eqn:He.
  2: { apply lookup_ge_None in He. lia. }
  destruct (Z.leb_spec (swap_ts ev) (last_swap_ts_ p)); [eauto|].
  destruct Hn. split; [done|]. split; [done|]. split; [done|]. eauto.
Qed.

(** A call leaves everything alone, or does a swap (and notes that it stopped). *)
Lemma consume_cases i p w : 0 <= cpu_ p ->
  (exists r, consume DB_CLT_TRANSIENT i p w = Some (r, p, w))
  \/ exists r p' w' b,
       swap_outcome (get_dropped_ev_cnt (in_events i)) i p w r p' w'
       /\ consume DB_CLT_TRANSIENT i p w
          = Some (if stop_called_ p then 0 else r, set_flags b (stop_called_ p') p', w').
Proof.
  intros Hc. destruct (swap_due_dec i p Hc) as [Hd|Hd].
  2: { left. by apply consume_not_due. }
  right. destruct (consume_due i p w Hd) as (r & p' & w' & Hh & ->).
  destruct (handle_swap_event_cases (get_dropped_ev_cnt (in_events i)) i p w)
    as (r2 & p2 & w2 & Hh2 & Ho). rewrite Hh in Hh2. injection Hh2 as <- <- <-.
  exists r, p', w'. destruct (stop_called_ p).
  - exists true. by split.
  - exists (stopped_ p'). split; [done|]. by destruct p'.
Qed.
End processor.

(** ** Histories of a CPU *)

Inductive Ev :=
| EvIncident (E : Env) (addr : XfwIp) (sz : Z) (r : XfwDropStat)
| EvConsume (i : Inputs)
| EvRequestStop.

Definition is_incident (ev : Ev) : bool :=
  match ev with EvIncident _ _ _ _ => true | _ => false end.
Definition incidents (evs : list Ev) : Z := Z.of_nat (length (filter is_incident evs)).

(** The counter of insertions never falls below the size of the active map. *)
Definition counted (n : Z) (l : IncidentLog) (h : Z) : Prop :=
  exists inf, ilog_ev_cnt l = Some inf /\ 0 <= insert_cnt inf <= n
    /\ if last_used_map_hint inf =? h then Z.of_nat (size (log_map l h)) <= insert_cnt inf
       else log_map l h = ∅.

Lemma counted_same n l l' h : counted n l h -> ilog_ev_cnt l' = ilog_ev_cnt l ->
  (size (log_map l' h) = size (log_map l h)) -> counted (n + 1) l' h.
Proof.
  intros (inf & Hi & Hr & Ht) He Hs. exists inf. rewrite He, Hs. split; [done|].
  split; [lia|]. case_match; [done|]. apply map_size_empty_iff. by rewrite Hs, Ht.
Qed.

Section register.
Context (E : Env) `{!KernelSpec (e_kernel E)}.

Lemma drop_events_ev_cnt l :
  ilog_ev_cnt (update_drop_cnt l) = ilog_ev_cnt l
  /\ ilog_ev_cnt (push_swap_event E l) = ilog_ev_cnt l
  /\ ilog_ev_cnt (push_swap_event_and_update_drop_cnt E l) = ilog_ev_cnt l.
Proof.
  unfold update_drop_cnt, push_swap_event, push_swap_event_and_update_drop_cnt.
  by destruct (ilog_events l).
Qed.

Lemma drop_events_maps l :
  ilog_maps (update_drop_cnt l) = ilog_maps l
  /\ ilog_maps (push_swap_event E l) = ilog_maps l
  /\ ilog_maps (push_swap_event_and_update_drop_cnt E l) = ilog_maps l.
Proof.
  unfold update_drop_cnt, push_swap_event, push_swap_event_and_update_drop_cnt.
  by destruct (ilog_events l).
Qed.

(** An insertion into the active map. *)
Lemma counted_insert n l h addr st : counted n l h -> n < 2 ^ 64 - 1 ->
  log_map l h !! addr = None ->
  let l1 := set_log_map h (<[addr := st]> (log_map l h)) l in
  counted (n + 1) (update_map_info h l1).2 h.
Proof.
  intros (inf & Hi & Hr & Ht) Hn Ha l1.
  rewrite (update_map_info_tracked h l1 inf) by (done || lia). cbn [snd].
  eexists. split; [done|]. cbn [insert_cnt last_used_map_hint]. rewrite Z.eqb_refl.
  change (log_map (set_ev_cnt _ l1) h) with (log_map l1 h). unfold l1.
  rewrite log_map_set_eq, map_size_insert_None by done.
  destruct (Z.eqb_spec (last_used_map_hint inf) h); [lia|]. rewrite Ht, map_size_empty. lia.
Qed.

Lemma register_incident_inserts addr sz r l h rc m' : 0 <= sz < 2 ^ 64 ->
  ilog_active_fd l !! e_cpu E = Some h -> log_map l h !! addr = None ->
  k_upd_incidents (e_kernel E) (log_map l h) addr
    (mkIncidentLogStat (u64 (Z.shiftl 1 (enum_z r))) 1 sz) BPF_NOEXIST = (rc, m') ->
  0 <= rc -> recorded h addr sz r l (register_incident E addr sz r l).
Proof.
  intros Hsz Hh Hs Hu Hrc. unfold register_incident. rewrite Hh, Hs, Hu.
  rewrite (proj2 (Z.leb_le _ _)) by done. apply (hash_ok _ _ _ _ _ _ Hu) in Hrc as ->.
  rewrite fresh_stat, <- Hs by done.
  set (l1 := set_log_map _ _ _). pose proof (update_map_info_agree h l1) as Ha.
  destruct (update_map_info h l1) as [n l2]. simpl in Ha.
  assert (recorded h addr sz r l l2) as H2
    by (eapply recorded_agree; [apply set_log_map_recorded|done]).
  case_match; [|done]. eapply recorded_agree; [done|apply push_swap_event_agree].
Qed.

Lemma register_incident_counted n addr sz r l h :
  ilog_active_fd l !! e_cpu E = Some h -> counted n l h -> n < 2 ^ 64 - 1 ->
  counted (n + 1) (register_incident E addr sz r l) h.
Proof.
  intros Hh Hc Hn. unfold register_incident. rewrite Hh.
  destruct (log_map l h !! addr) as [stat|] eqn:Hs.
  { eapply counted_same; [done|done|]. rewrite log_map_set_eq. by eapply map_size_insert_Some. }
  destruct (k_upd_incidents _ _ _ _ _) as [rc m'] eqn:Hu.
  destruct (Z.leb_spec 0 rc) as [Hrc|Hrc].
  - apply (hash_ok _ _ _ _ _ _ Hu) in Hrc as ->.
    pose proof (counted_insert n l h addr
      (mkIncidentLogStat (u64 (Z.shiftl 1 (enum_z r))) 1 sz) Hc Hn Hs) as H. cbv zeta in H.
    destruct (update_map_info h _) as [k l2]. cbn [snd] in H. case_match; [|exact H].
    destruct H as (inf & Hi & Hr & Ht). exists inf.
    unfold log_map in *. rewrite (proj1 (proj2 (drop_events_ev_cnt l2))),
      (proj1 (proj2 (drop_events_maps l2))). done.
  - apply (hash_err _ _ _ _ _ _ Hu) in Hrc as ->.
    set (l1 := set_log_map _ _ l).
    assert (size (log_map l1 h) = size (log_map l h)) as Hsz
      by (unfold l1; by rewrite log_map_set_eq).
    destruct (drop_events_ev_cnt l1) as (E1 & _ & E2), (drop_events_maps l1) as (M1 & _ & M2).
    case_match; (eapply counted_same; [exact Hc|done|]); unfold log_map in *; congruence.
Qed.
End register.

Section histories.
Context `{!BpfBatch XfwIp IncidentLogStat} `{!BpfBatchSpec XfwIp IncidentLogStat}.
Variable DB_CLT_TRANSIENT : Z.

(** One event; the processor and the programs of its CPU take turns. *)
Definition step (ev : Ev) (s : Processor * World) : option (Processor * World) :=
  let '(p, w) := s in
  match ev with
  | EvIncident E addr sz r => Some (p, set_log (register_incident E addr sz r (w_log w)) w)
  | EvConsume i =>
      match consume DB_CLT_TRANSIENT i p w with
      | None => None
      | Some (_, p, w) => Some (p, w)
      end
  | EvRequestStop => Some (request_stop p, w)
  end.

Fixpoint run (evs : list Ev) (s : Processor * World) : option (Processor * World) :=
  match evs with
  | [] => Some s
  | ev :: evs => match step ev s with None => None | Some s => run evs s end
  end.

(** An incident happens on the CPU of the processor; a system call returns zero
    or a negative code; no row throws. *)
Definition ev_ok (cpu : Z) (ev : Ev) : Prop :=
  match ev with
  | EvIncident E _ sz _ => e_cpu E = cpu /\ KernelSpec (e_kernel E) /\ 0 <= sz < 2 ^ 64
  | EvConsume i => in_update_fd i <= 0 /\ no_throw i
  | EvRequestStop => True
  end.

(** What has been counted: packets in the active map, incidents lost, and
    packets handed to the writer. *)
Definition total (p : Processor) (l : IncidentLog) : Z :=
  logged (log_map l (active_map_ p)) + lost l + sumz (b_packets (writer_ p)).

Record log_inv (n t : Z) (p : Processor) (l : IncidentLog) : Prop := mk_log_inv {
  inv_cpu : 0 <= cpu_ p < 2 ^ 32;
  inv_slot : ilog_active_fd l !! cpu_ p = Some (active_map_ p);
  inv_pair : active_map_ p <> inactive_map_ p;
  inv_drained : log_map l (inactive_map_ p) = ∅;
  inv_events : is_Some (ilog_events l);
  inv_lost : 0 <= lost l;
  inv_packets a x : log_map l (active_map_ p) !! a = Some x -> 0 <= il_packets x;
  inv_block : Forall (fun z => 0 <= z) (b_packets (writer_ p));
  inv_counted : counted n l (active_map_ p);
  inv_aligned : aligned (writer_ p);
  inv_total : total p l = t
}.

Lemma sumz_nonneg l : Forall (fun z => 0 <= z) l -> 0 <= sumz l.
Proof. unfold sumz. induction 1; cbn in *; lia. Qed.

Lemma inv_counters n t p l E : e_cpu E = cpu_ p -> log_inv n t p l -> counters_ok E l.
Proof.
  intros HE H. split; [apply H|]. split; [apply H|]. intros h a x.
  rewrite HE, (inv_slot _ _ _ _ H). intros [= <-]. apply H.
Qed.

Lemma register_keeps_inactive E addr sz r n t p l : e_cpu E = cpu_ p ->
  KernelSpec (e_kernel E) -> 0 <= sz < 2 ^ 64 -> log_inv n t p l ->
  let l' := register_incident E addr sz r l in
  ilog_active_fd l' = ilog_active_fd l
  /\ log_map l' (inactive_map_ p) = log_map l (inactive_map_ p).
Proof.
  intros HE HK Hsz H l'.
  destruct (register_incident_cases E addr sz r l Hsz)
    as [(h & Hh & Ha & Hm & Ho & _)|(Ha & Hm & _)]; [|by split].
  split; [done|]. apply Ho. rewrite HE, (inv_slot _ _ _ _ H) in Hh. injection Hh as <-.
  apply not_eq_sym, H.
Qed.

Lemma inv_incident E addr sz r n t p l : e_cpu E = cpu_ p ->
  KernelSpec (e_kernel E) -> 0 <= sz < 2 ^ 64 -> n < 2 ^ 64 - 1 -> t < 2 ^ 64 - 1 ->
  log_inv n t p l -> log_inv (n + 1) (t + 1) p (register_incident E addr sz r l).
Proof.
  intros HE HK Hsz Hn Ht H. pose proof (inv_counters _ _ _ _ E HE H) as Hc.
  destruct (register_keeps_inactive E addr sz r n t p l HE HK Hsz H) as [Ha Hi].
  assert (accounted E l = t - sumz (b_packets (writer_ p))) as Hacc.
  { unfold accounted. rewrite HE, (inv_slot _ _ _ _ H). pose proof (inv_total _ _ _ _ H) as Hto.
    unfold total in Hto. lia. }
  pose proof (sumz_nonneg _ (inv_block _ _ _ _ H)).
  destruct (register_incident_accounted E addr sz r l Hsz Hc ltac:(lia)) as [Hc' Hacc'].
  unfold accounted at 1 in Hacc'. rewrite Ha, HE, (inv_slot _ _ _ _ H) in Hacc'.
  destruct Hc' as (He & Hl & Hp).
  constructor; try apply H; try done.
  - by rewrite Ha, (inv_slot _ _ _ _ H).
  - by rewrite Hi, (inv_drained _ _ _ _ H).
  - intros a x. apply Hp. by rewrite Ha, HE, (inv_slot _ _ _ _ H).
  - apply register_incident_counted; [done| |by apply H|done].
    by rewrite HE, (inv_slot _ _ _ _ H).
  - unfold total. lia.
Qed.

Lemma log_map_set_active_fd c fd l h : log_map (set_active_fd c fd l) h = log_map l h.
Proof. done. Qed.

(** A swap empties the map that was active and accounts for what it held. *)
Lemma inv_swap `{HL : !DrainLive} d i n t p w r p' w' : in_update_fd i <= 0 -> no_throw i ->
  log_inv n t p (w_log w) -> swap_outcome d i p w r p' w' -> log_inv n t p' (w_log w').
Proof.
  intros Hu Hr H [Hf|Hf|m k kvs Hz Hd]; [done|lia|]. destruct (Hd HL) as [-> Hk].
  pose proof (inv_cpu _ _ _ _ H) as Hcpu. pose proof (inv_pair _ _ _ _ H) as Hne.
  destruct (append_events_block (in_row i) 0 d kvs (writer_ p) Hr)
    as (_ & _ & Hpk & _ & _ & _).
  assert (log_map (set_log_map (active_map_ p) ∅
            (set_active_fd (u32 (cpu_ p)) (inactive_map_ p) (w_log w))) (inactive_map_ p) = ∅)
    as Hem.
  { rewrite log_map_set_ne by congruence. rewrite log_map_set_active_fd. apply H. }
  constructor; try apply H; cbn [w_log cpu_ active_map_ inactive_map_ set_times set_writer
    set_maps writer_ set_log_map set_active_fd ilog_active_fd].
  - rewrite wrap_small by done. apply lookup_insert_eq.
  - congruence.
  - apply log_map_set_eq.
  - intros a x. by rewrite Hem.
  - rewrite Hpk. apply Forall_app. split; [apply H|]. apply list.Forall_forall. intros z.
    rewrite list_elem_of_fmap. intros (v & -> & Hv). apply list_elem_of_fmap in Hv as ([a x] & -> & Hv).
    rewrite Hk, elem_of_map_to_list in Hv. by eapply inv_packets.
  - destruct (inv_counted _ _ _ _ H) as (inf & Hi & Hrg & _). exists inf.
    split; [done|]. split; [done|]. rewrite Hem, map_size_empty. case_match; [lia|done].
  - apply append_events_aligned; [done|apply H].
  - rewrite <- (inv_total _ _ _ _ H). unfold total.
    cbn [active_map_ set_times set_writer set_maps writer_ w_log].
    rewrite Hem, Hpk, sumz_app, sumz_packets, (packets_of_perm _ _ Hk), <- logged_packets.
    change (logged ∅) with 0. unfold lost. cbn. lia.
Qed.

Lemma inv_step `{HL : !DrainLive} ev n t p w : ev_ok (cpu_ p) ev -> n < 2 ^ 64 - 1 ->
  t < 2 ^ 64 - 1 -> log_inv n t p (w_log w) ->
  exists p' w', step ev (p, w) = Some (p', w') /\ cpu_ p' = cpu_ p
    /\ log_inv (n + incidents [ev]) (t + incidents [ev]) p' (w_log w').
Proof.
  intros Hok Hn Ht H. destruct ev as [E addr sz r|i|]; cbn [step].
  - destruct Hok as (HE & HK & Hsz). do 2 eexists. split; [done|]. split; [done|].
    by apply inv_incident.
  - destruct Hok as [Hu Hr]. change (incidents _) with 0. rewrite !Z.add_0_r.
    destruct (consume_cases DB_CLT_TRANSIENT i p w (proj1 (inv_cpu _ _ _ _ H)))
      as [[r Hc]|(r & p' & w' & b & Hsw & Hc)].
    { rewrite Hc. eauto. }
    rewrite Hc. do 2 eexists. split; [done|].
    pose proof (inv_swap _ _ _ _ _ _ _ _ _ Hu Hr H Hsw) as H'.
    split; [by destruct Hsw|]. by destruct H'; constructor.
  - do 2 eexists. split; [done|]. split; [done|]. rewrite !Z.add_0_r.
    by destruct H; constructor.
Qed.

(** The invariant along a history, which always runs to its end. *)
Lemma run_inv `{HL : !DrainLive} evs n t p w : Forall (ev_ok (cpu_ p)) evs ->
  n + incidents evs < 2 ^ 64 - 1 -> t + incidents evs < 2 ^ 64 - 1 -> log_inv n t p (w_log w) ->
  exists p' w', run evs (p, w) = Some (p', w') /\ cpu_ p' = cpu_ p
    /\ log_inv (n + incidents evs) (t + incidents evs) p' (w_log w').
Proof.
  revert n t p w. induction evs as [|ev evs IH]; intros n t p w Hok Hn Ht H.
  { do 2 eexists. split; [done|]. split; [done|]. by rewrite !Z.add_0_r. }
  apply list.Forall_cons in Hok as [Hev Hok]. cbn [run].
  assert (incidents (ev :: evs) = incidents [ev] + incidents evs) as Hi.
  { unfold incidents. rewrite !filter_cons, filter_nil. case_decide; cbn; lia. }
  assert (0 <= incidents evs) by (unfold incidents; lia).
  assert (0 <= incidents [ev]) by (unfold incidents; lia).
  destruct (inv_step ev n t p w Hev ltac:(lia) ltac:(lia) H) as (p1 & w1 & -> & Hc & HI1).
  rewrite <- Hc in Hok.
  destruct (IH (n + incidents [ev]) (t + incidents [ev]) p1 w1 Hok ltac:(lia) ltac:(lia) HI1)
    as (p2 & w2 & -> & Hc2 & HI2).
  do 2 eexists. split; [done|]. split; [congruence|]. by rewrite Hi, !Z.add_assoc.
Qed.

(** ** From the constructor on *)

(** The per-CPU entries that the loader created exist. *)
Definition kernel_ready (n : Z) (l : IncidentLog) : Prop :=
  is_Some (ilog_events l) /\ 0 <= lost l
  /\ exists inf, ilog_ev_cnt l = Some inf /\ 0 <= insert_cnt inf <= n.

Lemma constructed_inv cpu fd0 fd1 opened g i w n p w' : 0 <= cpu -> fd0 <> fd1 ->
  kernel_ready n (w_log w) ->
  IncidentLogProcessor cpu fd0 fd1 opened g i w = inr (p, w') ->
  cpu_ p = cpu /\ log_inv n (lost (w_log w)) p (w_log w').
Proof.
  intros Hc Hne (He & Hl & inf & Hi & Hr) H. unfold IncidentLogProcessor in H.
  apply rbind_inr in H as (a & Ha & H). apply rbind_inr in H as (b & Hb & H).
  apply rbind_inr in H as (? & _ & H). apply rbind_inr in H as (? & Hv & H).
  apply rbind_inr in H as (w1 & Hp & H). injection H as <- <-.
  unfold create_incident_map in Ha, Hb. repeat (case_match; [done|]).
  injection Ha as <-. injection Hb as <-.
  apply rverify_inr in Hv. unfold MAX_INCIDENT_CPU in Hv.
  unfold populate_percpu_maps in Hp. repeat (case_match; [done|]). injection Hp as <-.
  split; [done|].
  assert (forall h, h = fd0 \/ h = fd1 ->
    log_map (set_active_fd (u32 cpu) fd0
      (set_log_map fd1 ∅ (set_log_map fd0 ∅ (w_log w)))) h = ∅) as Hem.
  { intros h [->| ->]; rewrite log_map_set_active_fd.
    - rewrite log_map_set_ne by done. apply log_map_set_eq.
    - apply log_map_set_eq. }
  constructor; cbn [cpu_ active_map_ inactive_map_ writer_ w_log set_log]; try done; auto.
  - lia.
  - cbn. rewrite wrap_small by lia. apply lookup_insert_eq.
  - intros ad st. by rewrite Hem by auto.
  - exists inf. split; [done|]. split; [done|]. rewrite Hem, map_size_empty by auto.
    case_match; [lia|done].
  - unfold total. cbn [active_map_ writer_]. rewrite Hem by auto.
    change (logged ∅) with 0. unfold lost. cbn. lia.
Qed.

(** An insertion that fills the active map stamps the notification. *)
Lemma reg_notified E n t p l addr sz r rc m' : e_cpu E = cpu_ p -> KernelSpec (e_kernel E) ->
  n < 2 ^ 64 - 1 -> log_inv n t p l -> log_map l (active_map_ p) !! addr = None ->
  k_upd_incidents (e_kernel E) (log_map l (active_map_ p)) addr
    (mkIncidentLogStat (u64 (Z.shiftl 1 (enum_z r))) 1 sz) BPF_NOEXIST = (rc, m') ->
  0 <= rc ->
  let l' := register_incident E addr sz r l in
  INCIDENT_FLUSH_THRESHOLD <= Z.of_nat (size (log_map l' (active_map_ p))) ->
  exists ev, ilog_events l' = Some ev /\ swap_ts ev = e_ktime_ns E.
Proof.
  intros HE HK Hn H Ha Hu Hrc l' Hth. destruct (inv_events _ _ _ _ H) as [ev He].
  destruct (register_incident_notifies E addr sz r l (active_map_ p) m' rc ev) as [_ Hs];
    [rewrite HE; apply H| |done|done|done|done|].
  - destruct (inv_counted _ _ _ _ H) as (inf & Hi & Hr & Hc). exists inf.
    split; [done|]. split; [lia|done].
  - apply fmap_Some in Hs as (ev' & He' & Hts); [|done]. by exists ev'.
Qed.

(** The entries of a map as rows of the block. *)
Definition exported (d : Z) (m : gmap XfwIp IncidentLogStat) (b b' : Block) : Prop :=
  exists kvs, kvs ≡ₚ map_to_list m
    /\ b_addr b' = b_addr b ++ kvs.*1
    /\ b_reason b' = b_reason b ++ (il_reason <$> kvs.*2)
    /\ b_packets b' = b_packets b ++ (il_packets <$> kvs.*2)
    /\ b_bytes b' = b_bytes b ++ (il_bytes <$> kvs.*2)
    /\ b_dropped b' = b_dropped b ++ replicate (length kvs) d.

(** A call with a swap due exports the active map and gives the kernel the
    other one, which is empty. *)
Lemma consume_exports `{HL : !DrainLive} i n t p w : log_inv n t p (w_log w) ->
  swap_due i p -> in_update_fd i = 0 -> no_throw i ->
  exists p' w', consume DB_CLT_TRANSIENT i p w = Some (0, p', w')
    /\ ilog_active_fd (w_log w') !! cpu_ p = Some (inactive_map_ p)
    /\ log_map (w_log w') (inactive_map_ p) = ∅ /\ log_map (w_log w') (active_map_ p) = ∅
    /\ exported (get_dropped_ev_cnt (in_events i)) (log_map (w_log w) (active_map_ p))
         (writer_ p) (writer_ p').
Proof.
  intros H Hd Hu Hr.
  destruct (consume_due DB_CLT_TRANSIENT i p w Hd) as (r & p' & w' & Hh & ->).
  destruct (handle_swap_event_cases (get_dropped_ev_cnt (in_events i)) i p w)
    as (r2 & p2 & w2 & Hh2 & Ho). rewrite Hh in Hh2. injection Hh2 as <- <- <-.
  destruct Ho as [|Hx|m k kvs _ Hkv]; [lia|lia|]. destruct (Hkv HL) as [-> Hp].
  destruct (append_events_block (in_row i) 0 (get_dropped_ev_cnt (in_events i)) kvs
              (writer_ p) Hr) as (E1 & E2 & E3 & E4 & E5 & _).
  pose proof (inv_pair _ _ _ _ H).
  destruct (stop_called_ p); do 2 eexists; (split; [done|]); cbn [w_log].
  all: split; [cbn; rewrite wrap_small by apply H; apply lookup_insert_eq|].
  all: split; [rewrite log_map_set_ne by congruence; rewrite log_map_set_active_fd; apply H|].
  all: split; [apply log_map_set_eq|by exists kvs].
Qed.
End histories.

(** ** Start, stop and errors *)

(** The names of the maps fit for every CPU that can have a slot. *)
Lemma incident_map_name_fits cpu active : 0 <= cpu < MAX_INCIDENT_CPU ->
  (String.length (incident_map_name cpu active) < BPF_OBJ_NAME_LEN)%nat.
Proof.
  intros Hc.
  assert (forallb (fun c => (String.length (incident_map_name c active) <? BPF_OBJ_NAME_LEN)%nat)
            (seqZ 0 MAX_INCIDENT_CPU) = true) as H by (destruct active; by vm_compute).
  rewrite forallb_forall in H. apply Nat.ltb_lt, H, list_elem_of_In, elem_of_seqZ.
  unfold MAX_INCIDENT_CPU in *. lia.
Qed.

(** The constructor compares the CPU with the size of the array with [>] only;
    the update of a slot outside the array fails, so that no processor starts
    there. *)
Lemma no_slot_no_processor cpu fd0 fd1 opened g i w r : MAX_INCIDENT_CPU <= cpu ->
  (MAX_INCIDENT_CPU <= u32 cpu -> in_update_fd i < 0) ->
  IncidentLogProcessor cpu fd0 fd1 opened g i w <> inr r.
Proof.
  intros Hc Hu H. unfold IncidentLogProcessor in H.
  apply rbind_inr in H as (a & _ & H). apply rbind_inr in H as (b & _ & H).
  apply rbind_inr in H as (? & _ & H). apply rbind_inr in H as (? & Hv & H).
  apply rverify_inr in Hv. unfold MAX_INCIDENT_CPU in *.
  assert (cpu = 128) as -> by lia. apply rbind_inr in H as (w1 & Hp & _).
  unfold populate_percpu_maps in Hp. case_match; [done|].
  rewrite (proj2 (Z.ltb_lt _ _)) in Hp; [done|]. by apply Hu.
Qed.

Section stop.
Context `{!BpfBatch XfwIp IncidentLogStat} `{!BpfBatchSpec XfwIp IncidentLogStat}.
Variable DB_CLT_TRANSIENT : Z.

(** A call after a request to stop stops the processor, whatever the swap gives,
    and later calls do nothing. *)
Lemma stop_takes_effect i p w : stopped_ p = false -> 0 <= in_get i ->
  cpu_ p < Z.of_nat (length (in_events i)) ->
  exists p' w', consume DB_CLT_TRANSIENT i (request_stop p) w = Some (0, p', w')
    /\ has_stopped p' = 1
    /\ forall i', consume DB_CLT_TRANSIENT i' p' w' = Some (0, p', w').
Proof.
  intros Hs Hg Hc.
  destruct (consume_due DB_CLT_TRANSIENT i (request_stop p) w) as (r & p' & w' & _ & E).
  { repeat split; auto. }
  do 2 eexists. split; [exact E|]. done.
Qed.

(** A failed swap leaves the timer expired: the next call tries again. *)
Lemma failed_swap_retries i p w : stop_called_ p = false -> swap_due i p ->
  in_update_fd i < 0 -> consume DB_CLT_TRANSIENT i p w = Some (in_update_fd i, p, w).
Proof.
  intros Hs Hd Hu. destruct (consume_due DB_CLT_TRANSIENT i p w Hd) as (r & p' & w' & Hh & ->).
  rewrite Hs. unfold handle_swap_event, swap_active_map in Hh.
  rewrite (proj2 (Z.ltb_lt _ _)), (proj2 (Z.eqb_neq _ 0)) in Hh by lia.
  by injection Hh as <- <- <-.
Qed.
End stop.

(** The constructor leaves [last_swap_ts_] indeterminate: with a large value the
    notification of a full map does not lead to a swap. *)
Lemma stale_timestamp_hides_notification `{!BpfBatch XfwIp IncidentLogStat} err cpu i p w ev :
  cpu_ p = cpu -> 0 <= cpu < Z.of_nat (length (in_events i)) -> stopped_ p = false ->
  stop_called_ p = false -> 0 <= in_get i -> in_now i < next_swap_ p ->
  in_events i !! Z.to_nat cpu = Some ev -> swap_ts ev <= UINT64_MAX ->
  last_swap_ts_ p = UINT64_MAX -> consume err i p w = Some (0, p, w).
Proof.
  intros <- Hc Hs Ht Hg Hn He Hev Hl. unfold consume. rewrite Hs, Ht, He, Hl.
  rewrite (proj2 (Z.ltb_ge _ _)), !(proj2 (Z.leb_gt _ _)) by lia. cbn [orb].
  by rewrite (proj2 (Z.leb_le _ _)).
Qed.

(** An exception between two columns leaves a block whose columns differ in
    length: nothing takes back the cells of the row. *)
Lemma exception_misaligns key v d t b : aligned b ->
  ~ aligned (append_event (mkRowInput t (Some 3%nat)) key v d b).
Proof.
  intros (_ & _ & Hp & _) (_ & _ & Hp' & _). revert Hp'. cbn. rewrite length_app. cbn. lia.
Qed.

(** ** Properties *)



(** ** Examples: the processor of CPU 0 *)

#[local] Instance log_batch : BpfBatch XfwIp IncidentLogStat :=
  ref_batch (Z.to_nat MAX_INCIDENTS_PER_CPU).
#[local] Instance log_batch_spec : BpfBatchSpec XfwIp IncidentLogStat := ref_batch_spec _.
#[local] Instance log_batch_live : DrainLive.
Proof. intros n c sz m _. by right. Qed.

Definition quiet_inputs (now : Z) (evs : list IncidentPerCpuNotifyInfo) : Inputs :=
  mkInputs 0 evs 0 now now (fun _ => mkRowInput 0 None).

Definition first_inputs : Inputs := quiet_inputs 0 [mkNotifyInfo 0 0].
Definition boot_world : World := mkWorld sample_log 0.
Definition boot_processor : Processor :=
  mkProcessor 0 5 6 0 timer_interval_ false false empty_block.
Definition started_world : World :=
  mkWorld (set_active_fd 0 5 (set_log_map 6 ∅ (set_log_map 5 ∅ sample_log))) 0.

Lemma boot_ok : IncidentLogProcessor 0 5 6 true 0 first_inputs boot_world
  = inr (boot_processor, started_world).
Proof. reflexivity. Qed.

Lemma boot_ready : kernel_ready 0 (w_log boot_world).
Proof. split; [by eexists|]. split; [done|]. by exists (mkBpfOnlyInfo 0 0). Qed.

(** A kernel whose log maps have their full capacity. *)
Definition full_size_env (now : Z) : Env :=
  mkEnv HOOK_XDP
    (ref_kernel (Z.to_nat MAX_INCIDENTS_PER_CPU) (fun _ => None) (fun _ _ => - ENOENT)
       (fun _ _ => 0) (fun _ _ => 0))
    no_maps (Some sample_cfg) true 1000 now 0 1000 XFW_MODE_HOST false None.

Definition nth_ip (k : nat) : XfwIp := mkIp (Z.of_nat k) 0 0 0.
Definition nth_incident (k : nat) : Ev :=
  EvIncident (full_size_env 7) (nth_ip k) 60 XFW_DROP_DST_BLOCKED.
Definition flood (k : nat) : list Ev := nth_incident <$> seq 0 k.

Lemma incidents_flood k : incidents (flood k) = Z.of_nat k.
Proof.
  unfold incidents, flood. f_equal. rewrite <- (length_seq k 0) at 2. generalize (seq 0 k).
  induction l as [|x l IH]; [done|]. rewrite fmap_cons, filter_cons, decide_True by done.
  cbn [length]. by rewrite IH.
Qed.

Lemma flood_ok k : Forall (ev_ok 0) (flood k).
Proof.
  apply list.Forall_forall. intros ev. unfold flood. rewrite list_elem_of_fmap.
  intros (j & -> & _). split; [done|]. split; [apply ref_kernel_spec|lia].
Qed.

(** Maps with entries for the first [k] addresses. *)
Definition holds_first (k : nat) (l : IncidentLog) : Prop :=
  ilog_active_fd l !! 0 = Some 5 /\ is_Some (ilog_events l) /\ size (log_map l 5) = k
  /\ forall j, (k <= j)%nat -> log_map l 5 !! nth_ip j = None.

Definition flood_stat : IncidentLogStat :=
  mkIncidentLogStat (u64 (Z.shiftl 1 (enum_z XFW_DROP_DST_BLOCKED))) 1 60.

Lemma flood_update k l : holds_first k l -> (Z.of_nat k < MAX_INCIDENTS_PER_CPU) ->
  k_upd_incidents (e_kernel (full_size_env 7)) (log_map l 5) (nth_ip k) flood_stat BPF_NOEXIST
  = (0, <[nth_ip k := flood_stat]> (log_map l 5)).
Proof.
  intros (_ & _ & Hs & Hf) Hk. cbn [k_upd_incidents e_kernel full_size_env ref_kernel].
  unfold ref_hash_update. rewrite (Hf k) by lia.
  rewrite bool_decide_false by (by intros [? ?]).
  rewrite bool_decide_false by (rewrite Hs; lia). done.
Qed.

Lemma flood_step k l : holds_first k l -> (Z.of_nat k < MAX_INCIDENTS_PER_CPU) ->
  holds_first (S k) (register_incident (full_size_env 7) (nth_ip k) 60 XFW_DROP_DST_BLOCKED l).
Proof.
  intros H Hk. pose proof (flood_update k l H Hk) as Hu. destruct H as (Ha & He & Hs & Hf).
  destruct (register_incident_inserts (full_size_env 7) (nth_ip k) 60 XFW_DROP_DST_BLOCKED
              l 5 0 _ ltac:(lia) Ha (Hf k ltac:(lia)) Hu ltac:(lia)) as (E1 & E2 & _).
  split; [by rewrite E1|]. split; [by apply events_kept|]. rewrite E2. split.
  - rewrite map_size_insert_None by (apply Hf; lia). by rewrite Hs.
  - intros j Hj. rewrite lookup_insert_ne; [apply Hf; lia|]. unfold nth_ip. intros [=]. lia.
Qed.

Lemma run_app err evs evs' s :
  run err (evs ++ evs') s = match run err evs s with None => None | Some s => run err evs' s end.
Proof.
  revert s. induction evs as [|ev evs IH]; intros s; [done|]. cbn [app run].
  destruct (step err ev s); [apply IH|done].
Qed.

Lemma flood_run err k : (Z.of_nat k <= MAX_INCIDENTS_PER_CPU) ->
  exists w, run err (flood k) (boot_processor, started_world) = Some (boot_processor, w)
    /\ holds_first k (w_log w).
Proof.
  induction k as [|k IH]; intros Hk.
  - exists started_world. split; [done|]. split; [done|]. split; [by eexists|]. by split.
  - destruct IH as (w & Hr & Hh); [lia|].
    exists (set_log (register_incident (full_size_env 7) (nth_ip k) 60 XFW_DROP_DST_BLOCKED
                       (w_log w)) w).
    split; [|apply flood_step; [done|lia]].
    unfold flood in *. rewrite seq_S, fmap_app, run_app, Hr. done.
Qed.

(** Two incidents, a swap on the timer, another incident, a stop. *)
Definition sample_history : list Ev :=
  [nth_incident 1; nth_incident 1; EvConsume (quiet_inputs timer_interval_ [mkNotifyInfo 0 0]);
   nth_incident 2; EvRequestStop; EvConsume (quiet_inputs 1 [mkNotifyInfo 0 0])].


