(* ===== verification/Daemon.v ===== *)
(** * Daemon: the life of the manager process

    src/manager/main.cc, src/manager/server.cc ([TMServer]) and
    src/manager/shutdown.hh: the start-up with its guards, the accept loop of the
    HTTP side, and the stop of the gRPC side, where the main thread and the gRPC
    thread meet.  The two threads are a step relation on their shared state, with
    the unguarded accesses to [grpc_server_] taken as atomic; the libraries appear through what they give (inputs) and through the documented
    blocking of [Wait] and [join].  The theorems: a shutdown always finishes,
    whatever the interleaving, and the start-up undoes what it did and nothing
    else. *)

From S2P Require Import Prelude.
From stdpp Require Import strings relations.
Open Scope Z_scope.

(** ** server.cc: the gRPC thread and its stop *)

(** [grpc_server_]: null, serving, or shut down. *)
Inductive GrpcServer := Serving | ShutDown.

(** Where the gRPC thread is: before [BuildAndStart]; before the test of the stop
    token; in [Wait]; finished. *)
Inductive GrpcPc := GBuild | GTest | GWait | GDone.

(** Where the main thread is: in [wait_for_shutdown]; before [http_stop]; before
    [request_stop]; before the test of [grpc_server_]; in [join]; before the stop
    of the pool; finished. *)
Inductive MainPc := MWait | MHttpStop | MRequestStop | MShutdown | MJoin | MPool | MDone.

Record ServerSt := mkServerSt {
  shutdown_requested : bool;
  stop_requested : bool;
  grpc_server_ : option GrpcServer;
  acceptor_close_posted : bool;
  grpc_pc : GrpcPc;
  main_pc : MainPc
}.

Definition server_start : ServerSt := mkServerSt false false None false GBuild MWait.

(** [grpc_server_->Shutdown()]. *)
Definition grpc_shutdown (s : option GrpcServer) : option GrpcServer :=
  match s with Some _ => Some ShutDown | None => None end.

(** A step of the gRPC thread: [grpc_thread_function]. *)
Inductive grpc_step : ServerSt -> ServerSt -> Prop :=
| grpc_build sh st a m :
    grpc_step (mkServerSt sh st None a GBuild m) (mkServerSt sh st (Some Serving) a GTest m)
| grpc_build_null sh st a m :
    (* a null server is an exception: [request_shutdown] *)
    grpc_step (mkServerSt sh st None a GBuild m) (mkServerSt true st None a GDone m)
| grpc_test_stop sh s a m :
    grpc_step (mkServerSt sh true s a GTest m) (mkServerSt sh true (grpc_shutdown s) a GDone m)
| grpc_test_go sh s a m :
    grpc_step (mkServerSt sh false s a GTest m) (mkServerSt sh false s a GWait m)
| grpc_wait sh st a m :
    grpc_step (mkServerSt sh st (Some ShutDown) a GWait m)
      (mkServerSt sh st (Some ShutDown) a GDone m).

(** A step of the main thread: [wait_for_shutdown], [TMServer::stop] and the end
    of [main]. *)
Inductive main_step : ServerSt -> ServerSt -> Prop :=
| main_wait st s a g :
    main_step (mkServerSt true st s a g MWait) (mkServerSt true st s a g MHttpStop)
| main_http_stop sh st s a g :
    main_step (mkServerSt sh st s a g MHttpStop) (mkServerSt sh st s true g MRequestStop)
| main_request_stop sh st s a g :
    main_step (mkServerSt sh st s a g MRequestStop) (mkServerSt sh true s a g MShutdown)
| main_shutdown sh st s a g :
    main_step (mkServerSt sh st s a g MShutdown) (mkServerSt sh st (grpc_shutdown s) a g MJoin)
| main_join sh st s a :
    main_step (mkServerSt sh st s a GDone MJoin) (mkServerSt sh st s a GDone MPool)
| main_pool sh st s a g :
    main_step (mkServerSt sh st s a g MPool) (mkServerSt sh st s a g MDone).

(** A signal: [sig_handler] calls [request_shutdown]. *)
Inductive signal_step : ServerSt -> ServerSt -> Prop :=
| signal_shutdown st s a g m :
    signal_step (mkServerSt false st s a g m) (mkServerSt true st s a g m).

Definition server_step (s s' : ServerSt) : Prop :=
  grpc_step s s' \/ main_step s s' \/ signal_step s s'.

(** *** Invariant *)

Definition grpc_left (g : GrpcPc) : nat :=
  match g with GBuild => 3 | GTest => 2 | GWait => 1 | GDone => 0 end.
Definition main_left (m : MainPc) : nat :=
  match m with
  | MWait => 6 | MHttpStop => 5 | MRequestStop => 4 | MShutdown => 3 | MJoin => 2 | MPool => 1
  | MDone => 0
  end.
Definition stopping (m : MainPc) : bool :=
  match m with MShutdown | MJoin | MPool | MDone => true | _ => false end.
Definition past_shutdown (m : MainPc) : bool :=
  match m with MJoin | MPool | MDone => true | _ => false end.

(** The two threads see each other: a gRPC thread that waits on a serving server
    has not been passed by the main thread. *)
Definition server_ok (s : ServerSt) : bool :=
  match grpc_pc s, grpc_server_ s with
  | GBuild, None => true
  | GTest, Some _ => true
  | GWait, Some Serving => negb (past_shutdown (main_pc s))
  | GWait, Some ShutDown => true
  | GDone, None => shutdown_requested s
  | GDone, Some ShutDown => shutdown_requested s
  | _, _ => false
  end
  && implb (stopping (main_pc s)) (stop_requested s)
  && implb (stop_requested s) (shutdown_requested s)
  && match grpc_server_ s with Some ShutDown => shutdown_requested s | _ => true end
  && match main_pc s with MWait => true | _ => shutdown_requested s end
  && match main_pc s with MWait | MHttpStop => true | _ => acceptor_close_posted s end
  && match main_pc s, grpc_pc s with (MPool | MDone), GDone => true
     | (MPool | MDone), _ => false | _, _ => true end.

Lemma server_step_ok s s' : server_ok s = true -> server_step s s' -> server_ok s' = true.
Proof.
  intros Hi [H|[H|H]]; revert Hi; destruct H;
    repeat match goal with
    | b : bool |- _ => destruct b
    | g : GrpcPc |- _ => destruct g
    | m : MainPc |- _ => destruct m
    | o : option GrpcServer |- _ => destruct o as [[]|]
    end; done.
Qed.

Lemma server_reachable_ok s : rtc server_step server_start s -> server_ok s = true.
Proof.
  intros H. remember server_start as s0 eqn:E0. assert (server_ok s0 = true) as Hok by (by subst).
  clear E0. induction H; [done|]. apply IHrtc. by eapply server_step_ok.
Qed.

(** *** Progress and termination *)

Definition server_left (s : ServerSt) : nat :=
  grpc_left (grpc_pc s) + main_left (main_pc s) + (if shutdown_requested s then 0 else 1).

Lemma server_step_left s s' : server_step s s' -> (server_left s' < server_left s)%nat.
Proof.
  intros [H|[H|H]]; destruct H; unfold server_left; cbn;
    try match goal with |- context [if ?b then _ else _] => destruct b end; lia.
Qed.

(** As long as the main thread has something to do after a request to shut down,
    one of the two threads can make a step. *)
Lemma server_progress s : server_ok s = true -> shutdown_requested s = true ->
  main_pc s <> MDone -> exists s', grpc_step s s' \/ main_step s s'.
Proof.
  destruct s as [sh st o a g m]. cbn. intros Hok -> Hm.
  destruct m; try done; try (eexists; right; by constructor).
  destruct g.
  - destruct o; [done|]. eexists. left. apply grpc_build.
  - destruct st; [|by destruct o as [[]|]]. eexists. left. apply grpc_test_stop.
  - destruct o as [[]|]; try done. eexists. left. apply grpc_wait.
  - eexists. right. apply main_join.
Qed.

(** ** The accept loop of the HTTP side: [http_corouting] *)

Inductive Accept := Accepted | Aborted | AcceptFailed | Unrecoverable.

#[export] Instance Accept_eq_dec : EqDecision Accept.
Proof. solve_decision. Defined.

(** The number of sessions started, and whether the loop has ended. *)
Fixpoint http_corouting (outcomes : list Accept) : nat * bool :=
  match outcomes with
  | [] => (0%nat, false)
  | Accepted :: r => let '(n, e) := http_corouting r in (S n, e)
  | Aborted :: _ => (0%nat, true)
  | AcceptFailed :: r => http_corouting r
  | Unrecoverable :: _ => (0%nat, true)
  end.

(** Closing the acceptor ends the loop; errors of single connections do not. *)
Lemma http_stop_ends outcomes outcomes' :
  Forall (fun o => o = Accepted \/ o = AcceptFailed) outcomes ->
  http_corouting (outcomes ++ Aborted :: outcomes')
  = (length (filter (fun o => o = Accepted) outcomes), true).
Proof.
  induction 1 as [|o l [-> | ->] _ IH]; [done| |]; cbn [app http_corouting]; rewrite IH.
  - by rewrite filter_cons_True.
  - by rewrite filter_cons_False.
Qed.

(** ** main.cc *)

(** What the options parser gives: an error, a request for help, or options. *)
Inductive Options :=
| OptError
| OptHelp
| OptRun (foreground : bool) (logfile pidfile : string).

(** What the libraries give, in the order of the calls. *)
Record MainInputs := mkMainInputs {
  mi_options : Options;
  mi_euid : Z;
  mi_daemon : Z;
  mi_log_init : bool;
  mi_pidfile_check : Z;
  mi_pidfile_create : Z;
  mi_server : bool
}.

(** What the process leaves behind, in order. *)
Inductive Effect :=
| Daemonized
| LogInit (path : string) | LogDeinit
| PidCreate (path : string) | PidRemove (path : string) (fd : Z)
| ServerRun.

Inductive ExitStatus := EXIT_SUCCESS | EXIT_FAILURE.

Definition starts_with_slash (s : string) : bool :=
  match s with String c _ => (Ascii.nat_of_ascii c =? 47)%nat | EmptyString => false end.

(** The part of [main] that runs under the guard of the pid file: it starts the
    server, waits for a shutdown and stops it; an exception of the constructor
    skips to the handlers. The guard runs in both cases. *)
Definition main_guarded (i : MainInputs) (pidfile : string) (fd : Z) : ExitStatus * list Effect :=
  if mi_server i then (EXIT_SUCCESS, [ServerRun; PidRemove pidfile fd])
  else (EXIT_FAILURE, [PidRemove pidfile fd]).

(** The part that runs under the guard of the log. *)
Definition main_logged (i : MainInputs) (pidfile : string) : ExitStatus * list Effect :=
  match pidfile with
  | EmptyString => main_guarded i pidfile (-1)
  | _ =>
      if mi_pidfile_check i <? 0 then (EXIT_FAILURE, [])
      else if mi_pidfile_create i <? 0 then (EXIT_FAILURE, [])
      else let '(r, l) := main_guarded i pidfile (mi_pidfile_create i) in
           (r, PidCreate pidfile :: l)
  end.

Definition manager_main (i : MainInputs) : ExitStatus * list Effect :=
  match mi_options i with
  | OptError => (EXIT_FAILURE, [])
  | OptHelp => (EXIT_SUCCESS, [])
  | OptRun foreground logfile pidfile =>
      if negb (starts_with_slash logfile) then (EXIT_FAILURE, [])
      else if negb (mi_euid i =? 0) then (EXIT_FAILURE, [])
      else if negb foreground && (mi_daemon i <? 0) then (EXIT_FAILURE, [])
      else
        let d := if foreground then [] else [Daemonized] in
        if negb (mi_log_init i) then (EXIT_FAILURE, d)
        else let '(r, l) := main_logged i pidfile in
             (r, d ++ LogInit logfile :: l ++ [LogDeinit])
  end.

(** *** The runs of [main] *)

Definition take_last {A} (n : nat) (l : list A) : list A := drop (length l - n) l.

Inductive logged_run (i : MainInputs) : ExitStatus -> list Effect -> Prop :=
| run_no_pid : logged_run i EXIT_FAILURE []
| run_unnamed_fail : logged_run i EXIT_FAILURE [PidRemove EmptyString (-1)]
| run_unnamed : logged_run i EXIT_SUCCESS [ServerRun; PidRemove EmptyString (-1)]
| run_fail p : 0 <= mi_pidfile_check i ->
    logged_run i EXIT_FAILURE [PidCreate p; PidRemove p (mi_pidfile_create i)]
| run_ok p : 0 <= mi_pidfile_check i ->
    logged_run i EXIT_SUCCESS [PidCreate p; ServerRun; PidRemove p (mi_pidfile_create i)].

Lemma main_logged_cases i pidfile r l : main_logged i pidfile = (r, l) -> logged_run i r l.
Proof.
  unfold main_logged, main_guarded. intros H.
  repeat case_match; simplify_eq; constructor; lia.
Qed.

(** A run ends before the log is open, or is bracketed by the log. *)
Lemma manager_main_cases i r l : manager_main i = (r, l) ->
  (l = [] \/ l = [Daemonized]) /\ (r = EXIT_SUCCESS <-> mi_options i = OptHelp)
  \/ exists d lf core, (d = [] \/ d = [Daemonized]) /\ logged_run i r core
       /\ l = d ++ LogInit lf :: core ++ [LogDeinit] /\ mi_options i <> OptHelp.
Proof.
  unfold manager_main. intros H. destruct (mi_options i) as [| |fg lf pf] eqn:Ho.
  1-2: injection H as <- <-; left; split; [by left|done].
  assert (OptRun fg lf pf <> OptHelp) as Hne by done.
  repeat (case_match; [injection H as <- <-; left; split; [destruct fg; auto|naive_solver]|]).
  destruct (main_logged i pf) as [r' core] eqn:Hm. injection H as <- <-. right.
  exists (if fg then [] else [Daemonized]), lf, core. split; [destruct fg; auto|].
  split; [by eapply main_logged_cases|]. by split.
Qed.

(** ** Properties *)

(** C16: a shutdown of the manager always finishes. In every interleaving of the
    main thread, the gRPC thread and signals, every step decreases a measure, and
    after a request to shut down one of the threads can move until the main
    thread has left [main]; by then the gRPC thread has been joined and no server
    is left serving, wherever the request found the gRPC thread. *)
Theorem shutdown_finishes s : rtc server_step server_start s ->
  (forall s', server_step s s' -> (server_left s' < server_left s)%nat)
  /\ (shutdown_requested s = true -> main_pc s <> MDone ->
      exists s', grpc_step s s' \/ main_step s s')
  /\ (main_pc s = MDone -> grpc_pc s = GDone /\ grpc_server_ s <> Some Serving
      /\ acceptor_close_posted s = true).
Proof.
  intros H. pose proof (server_reachable_ok s H) as Hok.
  split; [intros s'; apply server_step_left|]. split; [by apply server_progress|].
  intros Hm. clear H. destruct s as [sh st o a g m]. cbn in *. subst m.
  destruct sh, st, o as [[]|], a, g; done.
Qed.

(** A shutdown requested while the gRPC thread is still building its server. *)
Definition early_stop : ServerSt := mkServerSt true false None false GBuild MWait.

Lemma early_stop_reachable : rtc server_step server_start early_stop.
Proof. apply rtc_once. right. right. apply signal_shutdown. Qed.

Lemma shutdown_finishes_witness : exists s', grpc_step early_stop s' \/ main_step early_stop s'.
Proof.
  destruct (shutdown_finishes early_stop early_stop_reachable) as (_ & H & _).
  by apply H.
Defined.

(** The manager removes a pid file only if it created it in this run (or none
    was asked for), and then exactly once and after everything else but the log;
    so a second instance, whose check fails, never removes the file of the first.
    The log is closed exactly when it was opened, as the last effect; and the exit
    code is a success exactly for a request for help or after a server that
    started. *)
Lemma startup_undoes_itself i :
  let '(r, effects) := manager_main i in
  (forall path fd, PidRemove path fd ∈ effects ->
     (path = EmptyString /\ fd = -1) \/ (PidCreate path ∈ effects /\ fd = mi_pidfile_create i))
  /\ (mi_pidfile_check i < 0 -> forall path fd, PidRemove path fd ∈ effects -> path = EmptyString)
  /\ (forall path, PidCreate path ∈ effects ->
        take_last 2 effects = [PidRemove path (mi_pidfile_create i); LogDeinit])
  /\ (forall path, LogInit path ∈ effects -> take_last 1 effects = [LogDeinit])
  /\ (LogDeinit ∈ effects -> exists path, LogInit path ∈ effects)
  /\ (r = EXIT_SUCCESS <-> mi_options i = OptHelp \/ ServerRun ∈ effects).
Proof.
  destruct (manager_main i) as [r effects] eqn:E.
  destruct (manager_main_cases _ _ _ E) as [[Hl Hr]|(d & lf & core & Hd & Hc & -> & Hh)].
  - rewrite Hr. destruct Hl as [-> | ->]; rewrite ?list_elem_of_singleton;
      setoid_rewrite elem_of_nil || setoid_rewrite list_elem_of_singleton; naive_solver.
  - destruct Hd as [-> | ->], Hc; cbn [app];
      repeat (setoid_rewrite elem_of_cons); setoid_rewrite elem_of_nil;
      unfold take_last; cbn [length Nat.sub drop];
      (split_and!; intros; naive_solver lia).
Qed.
