(* ===== verification/Guard.v ===== *)
(** * Guard: ownership of file descriptors and the wrappers of the maps

    src/lib/fd_guard.hh ([FdGuard]), and the maps that own one:
    src/lib/bpf/map.hh ([BpfMap]) with the checks of src/lib/bpf/map_verifier.hh.
    Guards are objects of a store, since moving one changes two of them; the
    kernel's table is the set of open descriptors, and closing one that is not
    open is an error of the model.  The theorem: no sequence of operations closes
    a descriptor twice or leaves one open without an owner.  The second part holds
    the operations of the wrappers on single elements. *)

From S2P Require Import Prelude.
From S2P Require Import Kernel.

Open Scope Z_scope.

(** The guards by their address, and the open descriptors. *)
Record Store := mkStore { guards : gmap nat Z; open_fds : gset Z }.

(** [close(fd)]. *)
Definition close_fd (fd : Z) (s : Store) : option Store :=
  if decide (fd ∈ open_fds s) then Some (mkStore (guards s) (open_fds s ∖ {[fd]})) else None.

Definition set_guard (g : nat) (fd : Z) (s : Store) : Store :=
  mkStore (<[g := fd]> (guards s)) (open_fds s).

(** [if (fd_ >= 0) close(fd_)]. *)
Definition release (fd : Z) (s : Store) : option Store :=
  if 0 <=? fd then close_fd fd s else Some s.

(** The constructor, on the result of a system call that opens a descriptor; an
    exception ([None] inside) leaves no guard. *)
Definition FdGuard_ctor (g : nat) (fd : Z) (s : Store) : bool * Store :=
  if fd <? 0 then (false, s)
  else (true, mkStore (<[g := fd]> (guards s)) (open_fds s ∪ {[fd]})).

Definition FdGuard_dtor (g : nat) (s : Store) : option Store :=
  match guards s !! g with
  | None => None
  | Some fd =>
      match release fd s with
      | None => None
      | Some s => Some (mkStore (delete g (guards s)) (open_fds s))
      end
  end.

Definition FdGuard_move_ctor (g other : nat) (s : Store) : option Store :=
  match guards s !! other with
  | None => None
  | Some fd => Some (set_guard other (-1) (set_guard g fd s))
  end.

Definition FdGuard_move_assign (g o : nat) (s : Store) : option Store :=
  if decide (g = o) then Some s
  else
    match guards s !! g, guards s !! o with
    | Some fd, Some ofd =>
        match release fd s with
        | None => None
        | Some s => Some (set_guard o (-1) (set_guard g ofd s))
        end
    | _, _ => None
    end.

Definition FdGuard_swap (a b : nat) (s : Store) : option Store :=
  match guards s !! a, guards s !! b with
  | Some x, Some y => Some (set_guard b x (set_guard a y s))
  | _, _ => None
  end.

(** ** Programs over guards *)

Inductive GuardOp :=
| OpOpen (g : nat) (fd : Z)
| OpDtor (g : nat)
| OpMoveCtor (g other : nat)
| OpMoveAssign (g o : nat)
| OpSwap (a b : nat).

(** The rules of the language and of the kernel: an object is constructed where
    there is none and used where there is one; a descriptor just opened is not
    one that is already open. *)
Definition op_ok (op : GuardOp) (s : Store) : Prop :=
  match op with
  | OpOpen g fd => guards s !! g = None /\ fd ∉ open_fds s
  | OpDtor g => is_Some (guards s !! g)
  | OpMoveCtor g o => guards s !! g = None /\ is_Some (guards s !! o)
  | OpMoveAssign g o => is_Some (guards s !! g) /\ is_Some (guards s !! o)
  | OpSwap a b => is_Some (guards s !! a) /\ is_Some (guards s !! b)
  end.

Definition guard_op (op : GuardOp) (s : Store) : option Store :=
  match op with
  | OpOpen g fd => Some (FdGuard_ctor g fd s).2
  | OpDtor g => FdGuard_dtor g s
  | OpMoveCtor g o => FdGuard_move_ctor g o s
  | OpMoveAssign g o => FdGuard_move_assign g o s
  | OpSwap a b => FdGuard_swap a b s
  end.

(** Sequences of operations that follow the rules. *)
Inductive guard_run : Store -> list GuardOp -> option Store -> Prop :=
| guard_run_nil s : guard_run s [] (Some s)
| guard_run_cons s op ops s' r : op_ok op s -> guard_op op s = Some s' ->
    guard_run s' ops r -> guard_run s (op :: ops) r
| guard_run_error s op ops : op_ok op s -> guard_op op s = None -> guard_run s (op :: ops) None.

(** ** Ownership *)

(** Every open descriptor has exactly one guard, and guards hold open
    descriptors or nothing. *)
Record owned (s : Store) : Prop := mk_owned {
  owned_unique g g' fd : guards s !! g = Some fd -> guards s !! g' = Some fd -> 0 <= fd -> g = g';
  owned_open g fd : guards s !! g = Some fd -> 0 <= fd -> fd ∈ open_fds s;
  owned_all fd : fd ∈ open_fds s -> 0 <= fd /\ exists g, guards s !! g = Some fd
}.

Lemma release_owned g fd s : owned s -> guards s !! g = Some fd ->
  exists s', release fd s = Some s' /\ guards s' = guards s
    /\ (forall x, x ∈ open_fds s' <-> x ∈ open_fds s /\ x <> fd).
Proof.
  intros Ho Hg. unfold release. destruct (Z.leb_spec 0 fd) as [Hf|Hf].
  - unfold close_fd. rewrite decide_True by (by eapply owned_open).
    eexists. split; [done|]. split; [done|]. cbn. set_solver.
  - eexists. split; [done|]. split; [done|]. intros x. split; [|tauto]. intros Hx.
    split; [done|]. intros ->. apply (owned_all _ Ho) in Hx. lia.
Qed.

Ltac guard_case :=
  repeat match goal with
  | H : <[_ := _]> _ !! _ = Some _ |- _ => rewrite lookup_insert_Some in H
  | H : delete _ _ !! _ = Some _ |- _ => rewrite lookup_delete_Some in H
  | H : _ /\ _ |- _ => destruct H
  | H : _ \/ _ |- _ => destruct H
  end; subst.

Lemma ctor_owned g fd s : owned s -> guards s !! g = None -> fd ∉ open_fds s ->
  owned (FdGuard_ctor g fd s).2.
Proof.
  intros Ho Hg Hf. unfold FdGuard_ctor. destruct (Z.ltb_spec fd 0); [done|]. cbn.
  destruct Ho as [U O A]. constructor; cbn.
  - intros g1 g2 x H1 H2 Hx. guard_case; try done; [exfalso; eauto..|eauto].
  - intros g1 x H1 Hx. guard_case; set_solver.
  - intros x [Hx|Hx%elem_of_singleton]%elem_of_union.
    + destruct (A x Hx) as [? [g' Hg']]. split; [done|]. exists g'.
      rewrite lookup_insert_ne; [done|]. congruence.
    + subst. split; [done|]. exists g. apply lookup_insert_eq.
Qed.

Lemma dtor_owned g s : owned s -> is_Some (guards s !! g) ->
  exists s', FdGuard_dtor g s = Some s' /\ owned s'.
Proof.
  intros Ho [fd Hg]. unfold FdGuard_dtor. rewrite Hg.
  destruct (release_owned g fd s Ho Hg) as (s' & -> & E & Hopen). eexists. split; [done|].
  destruct Ho as [U O A]. constructor; cbn; rewrite E.
  - intros g1 g2 x H1 H2 Hx. guard_case. eauto.
  - intros g1 x H1 Hx. guard_case. apply Hopen. split; [eauto|]. intros ->. eauto.
  - intros x [Hx Hne]%Hopen. destruct (A x Hx) as [? [g' Hg']]. split; [done|]. exists g'.
    rewrite lookup_delete_ne; [done|]. congruence.
Qed.

Lemma set_guard_twice g x y s : set_guard g x (set_guard g y s) = set_guard g x s.
Proof. unfold set_guard. cbn. by rewrite insert_insert_eq. Qed.

(** Moving a descriptor to a place that owns nothing. *)
Lemma move_owned g o fd s : g <> o -> guards s !! o = Some fd ->
  (forall x, guards s !! g = Some x -> x < 0) -> owned s ->
  owned (set_guard o (-1) (set_guard g fd s)).
Proof.
  intros Hne Ho Hg [U O A]. constructor; cbn.
  - intros g1 g2 x H1 H2 Hx. guard_case; try lia; try done; [|exfalso|]; eauto.
    destruct H1. eapply U; eauto.
  - intros g1 x H1 Hx. guard_case; try lia; eauto.
  - intros x Hx. destruct (A x Hx) as [Hp [g' Hg']]. split; [done|].
    destruct (decide (g' = o)) as [->|Hno].
    + exists g. rewrite lookup_insert_ne, lookup_insert_eq by done. congruence.
    + exists g'. rewrite !lookup_insert_ne; [done| |done]. intros ->. specialize (Hg _ Hg'). lia.
Qed.

Lemma move_assign_owned g o s : owned s -> is_Some (guards s !! g) -> is_Some (guards s !! o) ->
  exists s', FdGuard_move_assign g o s = Some s' /\ owned s'.
Proof.
  intros Ho [fd Hg] [ofd Hof]. unfold FdGuard_move_assign.
  case_decide as Hd; [eauto|]. rewrite Hg, Hof.
  destruct (release_owned g fd s Ho Hg) as (s' & -> & E & Hopen). eexists. split; [done|].
  (* assigning is destroying the old value and moving into its place *)
  assert (owned (set_guard g (-1) s')) as Ho1.
  { destruct Ho as [U O A]. constructor; cbn; rewrite E.
    - intros g1 g2 x H1 H2 Hx. guard_case; try lia. eauto.
    - intros g1 x H1 Hx. guard_case; [lia|]. apply Hopen. split; [eauto|]. intros ->. eauto.
    - intros x [Hx Hne]%Hopen. destruct (A x Hx) as [? [g' Hg']]. split; [done|]. exists g'.
      rewrite lookup_insert_ne; [done|]. congruence. }
  apply (move_owned g o ofd) in Ho1; [|done| |].
  - by rewrite (set_guard_twice g) in Ho1.
  - cbn. by rewrite lookup_insert_ne, E.
  - intros x. cbn. rewrite lookup_insert_eq. intros [= <-]. lia.
Qed.

Lemma swap_owned a b s : owned s -> is_Some (guards s !! a) -> is_Some (guards s !! b) ->
  exists s', FdGuard_swap a b s = Some s' /\ owned s'.
Proof.
  intros [U O A] [x Ha] [y Hb]. unfold FdGuard_swap. rewrite Ha, Hb.
  eexists. split; [done|]. constructor; cbn.
  - intros g1 g2 z H1 H2 Hz. guard_case; try done; eauto; exfalso; eauto.
  - intros g1 z H1 Hz. guard_case; eauto.
  - intros z Hz. destruct (A z Hz) as [? [g Hg]]. split; [done|].
    destruct (decide (g = a)) as [->|]; [exists b; rewrite lookup_insert_eq; congruence|].
    destruct (decide (g = b)) as [->|]; [|exists g; by rewrite !lookup_insert_ne].
    exists a. destruct (decide (a = b)) as [->|]; [congruence|].
    rewrite lookup_insert_ne, lookup_insert_eq by done. congruence.
Qed.

(** No operation fails, and ownership is kept. *)
Lemma guard_op_owned op s : owned s -> op_ok op s ->
  exists s', guard_op op s = Some s' /\ owned s'.
Proof.
  intros Ho Hok. destruct op as [g fd|g|g o|g o|a b]; cbn in *.
  - destruct Hok. eexists. split; [done|]. by apply ctor_owned.
  - by apply dtor_owned.
  - destruct Hok as [Hg [fd Hof]]. unfold FdGuard_move_ctor. rewrite Hof.
    eexists. split; [done|]. apply move_owned; [congruence|done|congruence|done].
  - destruct Hok. by apply move_assign_owned.
  - destruct Hok. by apply swap_owned.
Qed.

Lemma guard_run_owned s ops r : guard_run s ops r -> owned s ->
  exists s', r = Some s' /\ owned s'.
Proof.
  induction 1 as [s|s op ops s' r Hok Hop _ IH|s op ops Hok Hop]; intros Ho; [eauto| |].
  - destruct (guard_op_owned op s Ho Hok) as (s1 & E & H1). apply IH. congruence.
  - destruct (guard_op_owned op s Ho Hok) as (s1 & E & _). congruence.
Qed.

(** ** map.hh, map_verifier.hh and the constructors of the maps *)

Record MapInfo := mkMapInfo { key_size : Z; value_size : Z; max_entries : Z }.

Inductive MapError :=
| MapNotFound | NoMapInfo | KeySizeMismatch | ValueSizeMismatch | BadMaxEntries | MmapFailed.

(** [open_bpf_map_fd]: the constructor of [BpfMap], on the result of [bpf_obj_get]. *)
Definition BpfMap_open (g : nat) (fd : Z) (s : Store) : MapError + Store :=
  if fd <? 0 then inl MapNotFound
  else match FdGuard_ctor g fd s with
       | (true, s) => inr s
       | (false, _) => inl MapNotFound
       end.

Definition get_info (info : option MapInfo) : MapError + MapInfo := rsome info NoMapInfo.

Definition verify_kv (ks vs : Z) (info : MapInfo) : MapError + unit :=
  rverify (key_size info =? ks) KeySizeMismatch ;?
  rverify (value_size info =? vs) ValueSizeMismatch.

Definition verify_array (ks vs : Z) (info : option MapInfo) : MapError + unit :=
  let? info := get_info info in
  verify_kv ks vs info ;?
  rverify (negb (max_entries info =? 0)) BadMaxEntries.

Definition verify_array_fixed (ks vs n : Z) (info : option MapInfo) : MapError + unit :=
  let? info := get_info info in
  verify_kv ks vs info ;?
  rverify (max_entries info =? n) BadMaxEntries.

Definition verify_hash (ks vs : Z) (info : option MapInfo) : MapError + unit :=
  let? info := get_info info in
  verify_kv ks vs info.

(** The constructors: when the body throws, the destructor of the base class has
    run. The error, and the store; [None] if a descriptor was closed twice. *)
Definition map_ctor (g : nat) (fd : Z) (body : MapError + unit) (s : Store)
    : option (option MapError * Store) :=
  match BpfMap_open g fd s with
  | inl e => Some (Some e, s)
  | inr s =>
      match body with
      | inr _ => Some (None, s)
      | inl e => match FdGuard_dtor g s with Some s => Some (Some e, s) | None => None end
      end
  end.

Definition BpfHashMap (ks vs : Z) (g : nat) (fd : Z) (info : option MapInfo) (s : Store) :=
  map_ctor g fd (verify_hash ks vs info) s.

Definition BpfArrayMap (vs : Z) (g : nat) (fd : Z) (info : option MapInfo) (s : Store) :=
  map_ctor g fd (verify_array 4 vs info) s.

Definition BpfSingleElementMap (vs : Z) (g : nat) (fd : Z) (info : option MapInfo) (s : Store) :=
  map_ctor g fd (verify_array_fixed 4 vs 1 info) s.

(** [mapped]: [mmap] did not fail. *)
Definition BpfMmapedArrayMap (vs n : Z) (g : nat) (fd : Z) (info : option MapInfo)
    (mapped : bool) (s : Store) :=
  map_ctor g fd (verify_array_fixed 4 vs n info ;? rverify mapped MmapFailed) s.

(** A constructor that throws leaves the store as it found it. *)
Lemma map_ctor_spec g fd body s : guards s !! g = None -> fd ∉ open_fds s ->
  (exists e, map_ctor g fd body s = Some (Some e, s))
  \/ (0 <= fd /\ (exists u, body = inr u)
      /\ map_ctor g fd body s
         = Some (None, mkStore (<[g := fd]> (guards s)) (open_fds s ∪ {[fd]}))).
Proof.
  intros Hg Hf. unfold map_ctor, BpfMap_open, FdGuard_ctor.
  destruct (Z.ltb_spec fd 0) as [Hn|Hn]; [left; eauto|].
  destruct body as [e|u]; [left|right; eauto]. exists e.
  unfold FdGuard_dtor. cbn [guards]. rewrite lookup_insert_eq. unfold release, close_fd.
  rewrite (proj2 (Z.leb_le _ _)), decide_True by (done || set_solver). cbn.
  rewrite delete_insert_id by done. destruct s as [m o]. cbn in *. do 3 f_equal. set_solver.
Qed.

(** ** Properties *)

(** Every program over guards that follows the rules of the language closes
    each descriptor exactly once: constructing, moving, assigning (to itself as
    well), swapping and destroying guards in any order never closes a descriptor
    that is not open, at every time each open descriptor has exactly one owner,
    and when the last guard is gone no descriptor is left open. *)
Lemma guards_close_once ops r :
  guard_run (mkStore ∅ ∅) ops r ->
  exists s, r = Some s
    /\ (forall fd, fd ∈ open_fds s -> exists g, guards s !! g = Some fd
          /\ forall g', guards s !! g' = Some fd -> g' = g)
    /\ (guards s = ∅ -> open_fds s = ∅).
Proof.
  intros H. destruct (guard_run_owned _ _ _ H) as (s & -> & [U O A]).
  { by constructor. }
  exists s. split; [done|]. split.
  - intros fd Hf. destruct (A fd Hf) as [? [g Hg]]. exists g. split; [done|]. eauto.
  - intros Hg. apply set_eq. intros fd. split; [|set_solver]. intros [_ [g Hf]]%A.
    by rewrite Hg in Hf.
Qed.

(** A descriptor handed from one guard to another. *)
Definition hand_over : list GuardOp := [OpOpen 0 3; OpMoveCtor 1 0; OpDtor 0; OpDtor 1].

Lemma guards_close_once_example : exists s, guard_run (mkStore ∅ ∅) hand_over (Some s)
  /\ (guards s = ∅ -> open_fds s = ∅).
Proof.
  assert (guard_run (mkStore ∅ ∅) hand_over (Some (mkStore ∅ ∅))) as H.
  { repeat (eapply guard_run_cons; [vm_compute; repeat split; try done; by eexists|reflexivity|]).
    constructor. }
  eexists. split; [exact H|].
  destruct (guards_close_once _ _ H) as (s & [= <-] & _ & Hs). exact Hs.
Defined.

(** * The operations of the map wrappers on single elements

    lookup, update and erase of src/lib/bpf/hash_map.hh, lookup and update of
    [BpfArrayMap] and get and set of [BpfSingleElementMap]
    (src/lib/bpf/array_map.hh), and the life of [BpfMmapedArrayMap]
    (src/lib/bpf/array_mmaped_map.hh) with its mapping. The system calls are a
    parameter, each with its number, so that any of them may fail at any time; what
    a call that succeeds does is the documentation of bpf(2). *)

Definition BPF_ANY : Z := 0.

(** ** The system calls

    The error code and what was read, or the map afterwards. An array is the map
    of its indices. *)
Class BpfElem (K V : Type) `{Countable K} := mkBpfElem {
  bpf_map_lookup_elem_flags : nat -> K -> Z -> gmap K V -> Z * option V;
  bpf_map_update_elem : nat -> K -> V -> Z -> gmap K V -> Z * gmap K V;
  bpf_map_delete_elem_flags : nat -> K -> Z -> gmap K V -> Z * gmap K V
}.

(** A call fails and leaves the map as it is, or does its work; deleting a key that
    is absent fails with ENOENT, and so does reading it. *)
Class BpfElemSpec (K V : Type) `{BpfElem K V} : Prop := mkBpfElemSpec {
  lookup_elem_ok n k m v : bpf_map_lookup_elem_flags n k BPF_ANY m = (0, v) -> v = m !! k /\ is_Some v;
  update_elem_ok n k v m m' : bpf_map_update_elem n k v BPF_ANY m = (0, m') -> m' = <[k := v]> m;
  update_elem_error n k v m r m' : bpf_map_update_elem n k v BPF_ANY m = (r, m') -> r <> 0 -> m' = m;
  delete_elem_ok n k m m' : bpf_map_delete_elem_flags n k BPF_ANY m = (0, m') -> m' = delete k m;
  delete_elem_error n k m r m' : bpf_map_delete_elem_flags n k BPF_ANY m = (r, m') -> r <> 0 -> m' = m;
  delete_elem_absent n k m m' : bpf_map_delete_elem_flags n k BPF_ANY m = (- ENOENT, m') -> m !! k = None
}.

Section elem.
Context {K V : Type} `{BpfElem K V}.

(** ** hash_map.hh *)

(** What the caller's variable holds: its old value if nothing was read. *)
Definition HashMap_lookup (n : nat) (key : K) (value : V) (m : gmap K V) : Z * V :=
  let '(r, v) := bpf_map_lookup_elem_flags n key BPF_ANY m in (r, default value v).

Definition HashMap_update (n : nat) (key : K) (value : V) (m : gmap K V) : Z * gmap K V :=
  bpf_map_update_elem n key value BPF_ANY m.

Definition HashMap_erase (n : nat) (key : K) (m : gmap K V) : Z * gmap K V :=
  let '(ret, m) := bpf_map_delete_elem_flags n key BPF_ANY m in
  if ret =? - ENOENT then (0, m) else (ret, m).

Context `{!BpfElemSpec K V}.

(** An erase that reports success left exactly the other keys, whether or not the
    key was there; one that reports an error changed nothing. *)
Lemma erase_spec n k m r m' : HashMap_erase n k m = (r, m') ->
  (r = 0 -> m' = delete k m) /\ (r <> 0 -> m' = m).
Proof.
  unfold HashMap_erase. destruct (bpf_map_delete_elem_flags n k BPF_ANY m) as [ret m1] eqn:E.
  destruct (Z.eqb_spec ret (- ENOENT)) as [->|Hne]; intros [= <- <-]; (split; [|intros Hr]).
  - intros _. rewrite (delete_elem_error n k m _ m1 E) by done.
    symmetry. apply delete_id. by eapply delete_elem_absent.
  - done.
  - intros ->. by eapply delete_elem_ok.
  - by eapply delete_elem_error.
Qed.

(** Erasing twice is erasing once. *)
Lemma erase_twice n n' k m m1 r2 m2 : HashMap_erase n k m = (0, m1) -> HashMap_erase n' k m1 = (r2, m2) -> m2 = m1.
Proof.
  intros [H1 _]%erase_spec [H2 H3]%erase_spec. rewrite H1 in * by done.
  destruct (decide (r2 = 0)) as [->|Hr]; [|by apply H3]. rewrite H2 by done. apply delete_delete_eq.
Qed.

(** What was stored is read back, until it is overwritten or erased. *)
Lemma update_lookup n n' k v old m m1 r w : HashMap_update n k v m = (0, m1) ->
  HashMap_lookup n' k old m1 = (r, w) -> r = 0 -> w = v.
Proof.
  intros ->%update_elem_ok. unfold HashMap_lookup.
  destruct (bpf_map_lookup_elem_flags n' k BPF_ANY _) as [r' x] eqn:E. intros [= <- <-] ->.
  apply lookup_elem_ok in E as [-> _]. by rewrite lookup_insert_eq.
Qed.
End elem.

(** ** array_map.hh *)

Section array.
Context {V : Type} `{BpfElem Z V}.

(** [bpf_map_lookup_elem] is the call without flags. *)
Definition ArrayMap_lookup (n : nat) (key : Z) (value : V) (m : gmap Z V) : Z * V :=
  let '(r, v) := bpf_map_lookup_elem_flags n key BPF_ANY m in (r, default value v).
Definition ArrayMap_update (n : nat) (key : Z) (value : V) (m : gmap Z V) : Z * gmap Z V :=
  bpf_map_update_elem n key value BPF_ANY m.

Definition ZeroKey : Z := 0.
Definition SingleElement_get (n : nat) (value : V) (m : gmap Z V) : Z * V :=
  let '(r, v) := bpf_map_lookup_elem_flags n ZeroKey BPF_ANY m in (r, default value v).
Definition SingleElement_set (n : nat) (value : V) (m : gmap Z V) : Z * gmap Z V :=
  bpf_map_update_elem n ZeroKey value BPF_ANY m.

Context `{!BpfElemSpec Z V}.

(** The only element is the one that was set last. *)
Lemma single_set_get n n' v old m m1 r w : SingleElement_set n v m = (0, m1) ->
  SingleElement_get n' old m1 = (r, w) -> r = 0 -> w = v.
Proof. apply (update_lookup (K := Z) n n' ZeroKey v old m m1 r w). Qed.

(** A map of one element stays one. *)
Lemma single_set_dom n v m r m1 : dom m = {[ZeroKey]} -> SingleElement_set n v m = (r, m1) -> dom m1 = {[ZeroKey]}.
Proof.
  unfold SingleElement_set. intros Hd Hu. destruct (decide (r = 0)) as [->|Hr].
  - apply update_elem_ok in Hu as ->. rewrite dom_insert_L. set_solver.
  - apply update_elem_error in Hu as ->; [|done]. done.
Qed.
End array.

(** ** array_mmaped_map.hh *)

(** The descriptors, and the objects whose memory is mapped. *)
Record MmapStore := mkMmapStore { ms_store : Store; mappings : gset nat }.

(** The constructor; [mapped]: mmap did not fail. *)
Definition Mmaped_ctor (vs n : Z) (g : nat) (fd : Z) (info : option MapInfo) (mapped : bool) (s : MmapStore)
    : option (option MapError * MmapStore) :=
  match BpfMmapedArrayMap vs n g fd info mapped (ms_store s) with
  | None => None
  | Some (None, st) => Some (None, mkMmapStore st (mappings s ∪ {[g]}))
  | Some (Some e, st) => Some (Some e, mkMmapStore st (mappings s))
  end.

(** The destructor, and that of its base; [None]: memory that is not mapped is
    unmapped, or a descriptor that is not open is closed. *)
Definition Mmaped_dtor (g : nat) (s : MmapStore) : option MmapStore :=
  if decide (g ∈ mappings s) then
    match FdGuard_dtor g (ms_store s) with
    | Some st => Some (mkMmapStore st (mappings s ∖ {[g]}))
    | None => None
    end
  else None.

(** The life of a mapped array leaves nothing behind: a constructor that throws
    leaves the store as it was, and after one that returns the destructor unmaps
    the memory and closes the descriptor. *)
Lemma mmaped_balanced vs n g fd info mapped s :
  guards (ms_store s) !! g = None -> fd ∉ open_fds (ms_store s) -> g ∉ mappings s ->
  (exists e, Mmaped_ctor vs n g fd info mapped s = Some (Some e, s))
  \/ (exists s', Mmaped_ctor vs n g fd info mapped s = Some (None, s')
        /\ g ∈ mappings s' /\ fd ∈ open_fds (ms_store s') /\ Mmaped_dtor g s' = Some s).
Proof.
  intros Hg Hf Hm. unfold Mmaped_ctor, BpfMmapedArrayMap.
  destruct (map_ctor_spec g fd (verify_array_fixed 4 vs n info ;? rverify mapped MmapFailed) (ms_store s) Hg Hf)
    as [[e ->]|(Hp & _ & ->)].
  - left. exists e. by destruct s.
  - right. eexists. split; [done|]. cbn. split; [set_solver|]. split; [set_solver|].
    unfold Mmaped_dtor, FdGuard_dtor, release, close_fd. cbn. rewrite decide_True by set_solver.
    rewrite lookup_insert_eq, (proj2 (Z.leb_le _ _)), decide_True by (done || set_solver). cbn.
    rewrite delete_insert_id by done. destruct s as [[gm o] mm]. cbn in *.
    do 2 f_equal; [f_equal|]; set_solver.
Qed.

(** ** A kernel that behaves so *)

#[export] Instance ref_elem {K V} `{Countable K} : BpfElem K V := {|
  bpf_map_lookup_elem_flags _ k _ m := match m !! k with Some v => (0, Some v) | None => (- ENOENT, None) end;
  bpf_map_update_elem _ k v _ m := (0, <[k := v]> m);
  bpf_map_delete_elem_flags _ k _ m := if decide (is_Some (m !! k)) then (0, delete k m) else (- ENOENT, m)
|}.

#[export] Instance ref_elem_spec {K V} `{Countable K} : BpfElemSpec K V.
Proof.
  split; cbn.
  - intros _ k m v. destruct (m !! k) eqn:E; intros [= <-]. eauto.
  - by intros _ k v m m' [= <-].
  - by intros _ k v m r m' [= <- <-].
  - intros _ k m m'. case_decide; by intros [= <-].
  - intros _ k m r m'. case_decide; by intros [= <- <-].
  - intros _ k m m'. case_decide as Hd; intros [=]. by apply eq_None_not_Some.
Qed.
