(* ===== verification/StatePool.v ===== *)
(** * StatePool: slots that are reclaimed in two steps

    src/manager/xfw/indexed_state_pool.hh ([IndexedStatePool]), a template that no
    class of the program uses yet: slots are handed out from a stack of free ones,
    released, and made free again only by [reclaim_inactive].  The hooks of the
    derived class are parameters that act on a state of their own.  The invariant
    says that the stack holds exactly the slots that are ready to use, each once. *)

From S2P Require Import Prelude.

Inductive SlotState := ReadyToUse | Active | Inactive.

#[export] Instance SlotState_eq_dec : EqDecision SlotState.
Proof. solve_decision. Defined.

(** The exceptions, and an access behind the end of the array. *)
Inductive PoolError := NoFreeSlots | ReleaseOfNonActive | OutOfBounds.

(** [pool_free]: the vector with its last element first. *)
Record StatePool (D : Type) := mkStatePool {
  pool_state : list SlotState;
  pool_free : list nat;
  pool_derived : D
}.
Arguments mkStatePool {D}. Arguments pool_state {D}. Arguments pool_free {D}.
Arguments pool_derived {D}.

Section pool.
Context {D : Type} (N : nat) (on_allocate on_release on_reclaim : nat -> D -> D).
Abbreviation Pool := (StatePool D).

Definition StatePool_ctor (d : D) : Pool :=
  mkStatePool (replicate N ReadyToUse) (reverse (seq 0 N)) d.

Definition pool_allocate (p : Pool) : PoolError + (nat * Pool) :=
  match pool_free p with
  | [] => inl NoFreeSlots
  | idx :: free =>
      inr (idx, mkStatePool (<[idx := Active]> (pool_state p)) free
                  (on_allocate idx (pool_derived p)))
  end.

Definition pool_release (idx : nat) (p : Pool) : PoolError + Pool :=
  match pool_state p !! idx with
  | None => inl OutOfBounds
  | Some Active =>
      inr (mkStatePool (<[idx := Inactive]> (pool_state p)) (pool_free p)
             (on_release idx (pool_derived p)))
  | Some _ => inl ReleaseOfNonActive
  end.

Definition reclaim_slot (p : Pool) (i : nat) : Pool :=
  match pool_state p !! i with
  | Some Inactive =>
      mkStatePool (<[i := ReadyToUse]> (pool_state p)) (i :: pool_free p)
        (on_reclaim i (pool_derived p))
  | _ => p
  end.

Definition reclaim_inactive (p : Pool) : Pool := foldl reclaim_slot p (seq 0 N).

Definition pool_is_active (i : nat) (p : Pool) : bool :=
  bool_decide (pool_state p !! i = Some Active).

(** ** The invariant *)

Record pool_ok (p : Pool) : Prop := {
  pk_size : length (pool_state p) = N;
  pk_nodup : NoDup (pool_free p);
  pk_free : forall i, i ∈ pool_free p <-> pool_state p !! i = Some ReadyToUse
}.

Lemma ctor_ok d : pool_ok (StatePool_ctor d).
Proof.
  constructor; cbn; [apply length_replicate|by rewrite reverse_Permutation; apply list.NoDup_seq|].
  intros i. rewrite reverse_Permutation, elem_of_seq, lookup_replicate. naive_solver lia.
Qed.

(** What every operation changes: one slot. *)
Lemma slot_change p i st free d : pool_ok p -> (i < N)%nat -> NoDup free ->
  (forall j, j ∈ free <-> (if decide (j = i) then st = ReadyToUse else j ∈ pool_free p)) ->
  pool_ok (mkStatePool (<[i := st]> (pool_state p)) free d).
Proof.
  intros [S1 S2 S3] Hi Hn Hf. constructor; cbn; [by rewrite length_insert|done|].
  intros j. rewrite Hf. destruct (decide (j = i)) as [->|Hj].
  - rewrite list_lookup_insert_eq by lia. naive_solver.
  - by rewrite list_lookup_insert_ne by done.
Qed.

Lemma allocate_ok p : pool_ok p ->
  match pool_allocate p with
  | inl e => e = NoFreeSlots /\ forall i, pool_state p !! i <> Some ReadyToUse
  | inr (idx, p') => pool_ok p' /\ pool_state p !! idx = Some ReadyToUse
      /\ pool_is_active idx p' = true
  end.
Proof.
  intros Hp. unfold pool_allocate. destruct (pool_free p) as [|i free] eqn:Hf.
  - split; [done|]. intros i Hi. apply (pk_free p Hp) in Hi. rewrite Hf in Hi.
    by apply elem_of_nil in Hi.
  - assert (pool_state p !! i = Some ReadyToUse) as Hi.
    { apply (pk_free p Hp). rewrite Hf. left. }
    pose proof (lookup_lt_Some _ _ _ Hi) as Hl. pose proof (pk_nodup p Hp) as Hn.
    rewrite Hf in Hn. apply list.NoDup_cons in Hn as [Hn1 Hn2]. split; [|split; [done|]].
    + apply slot_change; [done|by rewrite <- (pk_size p Hp)|done|]. intros j. rewrite Hf.
      destruct (decide (j = i)) as [->|Hj]; [naive_solver|]. rewrite elem_of_cons. naive_solver.
    + unfold pool_is_active. cbn. apply bool_decide_eq_true. by apply list_lookup_insert_eq.
Qed.

Lemma release_ok i p p' : pool_ok p -> pool_release i p = inr p' ->
  pool_ok p' /\ pool_free p' = pool_free p.
Proof.
  unfold pool_release. intros Hp H. destruct (pool_state p !! i) as [[]|] eqn:Hi; try done.
  injection H as <-. split; [|done]. apply slot_change; [done| |apply (pk_nodup p Hp)|].
  - rewrite <- (pk_size p Hp). by eapply lookup_lt_Some.
  - intros j. destruct (decide (j = i)) as [->|]; [|done]. rewrite (pk_free p Hp), Hi. done.
Qed.

Lemma reclaim_slot_ok p i : pool_ok p -> pool_ok (reclaim_slot p i).
Proof.
  unfold reclaim_slot. intros Hp. destruct (pool_state p !! i) as [[]|] eqn:Hi; try done.
  assert (i ∉ pool_free p) as Hn by (rewrite (pk_free p Hp), Hi; done).
  apply slot_change; [done| | |].
  - rewrite <- (pk_size p Hp). by eapply lookup_lt_Some.
  - apply list.NoDup_cons. split; [done|apply (pk_nodup p Hp)].
  - intros j. rewrite elem_of_cons. destruct (decide (j = i)); naive_solver.
Qed.

Lemma reclaim_slot_state p i j : pool_state (reclaim_slot p i) !! j
  = if decide (j = i /\ pool_state p !! j = Some Inactive) then Some ReadyToUse
    else pool_state p !! j.
Proof.
  unfold reclaim_slot. destruct (decide _) as [[-> Hj]|Hn].
  - rewrite Hj. cbn. apply list_lookup_insert_eq. by eapply lookup_lt_Some.
  - destruct (pool_state p !! i) as [[]|] eqn:Hi; try done. cbn.
    rewrite list_lookup_insert_ne; [done|]. intros ->. naive_solver.
Qed.

(** After [reclaim_inactive] no slot is inactive, and the active ones are
    untouched. *)
Lemma reclaim_inactive_ok p : pool_ok p -> pool_ok (reclaim_inactive p)
  /\ forall j, pool_state (reclaim_inactive p) !! j
       = if decide (pool_state p !! j = Some Inactive) then Some ReadyToUse
         else pool_state p !! j.
Proof.
  intros Hp. unfold reclaim_inactive.
  assert (forall l q, pool_ok q -> pool_ok (foldl reclaim_slot q l)
    /\ forall j, pool_state (foldl reclaim_slot q l) !! j
       = if decide (j ∈ l /\ pool_state q !! j = Some Inactive) then Some ReadyToUse
         else pool_state q !! j) as HL.
  { induction l as [|i l IH]; intros q Hq; cbn.
    - split; [done|]. intros j. rewrite decide_False; [done|]. by intros [?%elem_of_nil _].
    - destruct (IH _ (reclaim_slot_ok q i Hq)) as [I1 I2]. split; [done|]. intros j.
      rewrite I2, reclaim_slot_state. repeat case_decide; set_solver. }
  destruct (HL (seq 0 N) p Hp) as [H1 H2]. split; [done|]. intros j. rewrite H2.
  repeat case_decide; try done; [naive_solver|]. exfalso. apply H. split; [|done].
  apply elem_of_seq. rewrite <- (pk_size p Hp). split; [lia|]. by eapply lookup_lt_Some.
Qed.
End pool.
