(* ===== verification/Loader.v ===== *)
(** * Loader: loading, pinning and attaching the programs

    src/loader/loader.c, the whole program.  libbpf, the kernel and the file
    system are not part of the repository: they are the record [LibBpf], one
    function per call with the state [W] it acts on, and the class [LibBpfSpec]
    states what their documentation says about the paths at which objects are
    pinned.  Beside [W] the state keeps the descriptors and objects that the
    process holds.  Messages are not modelled. *)

From S2P Require Import Prelude.
From S2P Require Import Kernel.
From stdpp Require Import strings.
Open Scope Z_scope.

Definition ENODEV : Z := 19.
Definition ENAMETOOLONG : Z := 36.
Definition PATH_MAX : nat := 4096.

(** ** Descriptions of the programs *)

Record XfwLMapDesc := mkMapDesc { md_name : string; md_dns_only : bool }.

Inductive DeploymentMode := LMODE_HOST | LMODE_GW | LMODE_SCRUBBER.

#[export] Instance DeploymentMode_eq_dec : EqDecision DeploymentMode.
Proof. solve_decision. Defined.

Definition deployment_mode_z (m : DeploymentMode) : Z :=
  match m with LMODE_HOST => 0 | LMODE_GW => 1 | LMODE_SCRUBBER => 2 end.

Record XfwLoadMode := mkLoadMode { lm_deployment_mode : DeploymentMode; lm_dns : bool }.

Inductive ProgType := BPF_PROG_TYPE_XDP | BPF_PROG_TYPE_SCHED_CLS | BPF_PROG_TYPE_OTHER.

#[export] Instance ProgType_eq_dec : EqDecision ProgType.
Proof. solve_decision. Defined.

Record XfwProg := mkProg {
  pg_name : string;
  pg_obj_path : string;
  pg_prog_name : string;
  pg_prog_pin_name : string;
  pg_prog_type : ProgType;
  pg_reuse_maps : list XfwLMapDesc;
  pg_pin_maps : bool
}.

Definition MAP_GLBL_STAT_STR : string := "xfw_glbl_stats".
Definition MAP_CFG_STR : string := "xfw_cfg".
Definition MAP_LOG_ACTIVE_FD_STR : string := "xfw_ilog_act_fd".
Definition MAP_LOG_EVENTS_STR : string := "xfw_ilog_ev_rb".
Definition MAP_LOG_EV_CNT_STR : string := "xfw_ilog_ev_cnt".
Definition MAP_RATELIMIT_STR : string := "xfw_ratelim".
Definition MAP_DNS_EGR_FD_STR : string := "xfw_dns_egr_qrs".
Definition MAP_TCP_CONN_STR : string := "xfw_tcp_conns".
Definition MAP_SYNCOOKIES_STR : string := "xfw_syncookie".
Definition MAP_DST_STR (idx : nat) : string :=
  match idx with O => "xfw_0_dst" | _ => "xfw_1_dst" end.

Section descriptions.
(** The directory the loader was built with. *)
Variable XFW_BPF_LIB_DIR : string.

Definition main_xdp : XfwProg :=
  mkProg "xdp" (XFW_BPF_LIB_DIR +:+ "/xdp.o") "xfw_xdp" "xdp" BPF_PROG_TYPE_XDP [] true.

Definition tc_maps : list XfwLMapDesc :=
  [ mkMapDesc MAP_GLBL_STAT_STR false; mkMapDesc MAP_CFG_STR false;
    mkMapDesc MAP_LOG_ACTIVE_FD_STR false; mkMapDesc MAP_LOG_EVENTS_STR false;
    mkMapDesc MAP_LOG_EV_CNT_STR false; mkMapDesc MAP_RATELIMIT_STR false;
    mkMapDesc MAP_DNS_EGR_FD_STR true; mkMapDesc MAP_TCP_CONN_STR false;
    mkMapDesc (MAP_DST_STR 0) false; mkMapDesc (MAP_DST_STR 1) false ].

Definition main_tc : XfwProg :=
  mkProg "tc" (XFW_BPF_LIB_DIR +:+ "/tc.o") "xfw_tc" "tc" BPF_PROG_TYPE_SCHED_CLS tc_maps true.

Definition programs : list XfwProg := [main_xdp; main_tc].

Definition find_program (name : string) : option XfwProg :=
  List.find (fun p => String.eqb (pg_name p) name) programs.
End descriptions.

(** ** parse_load_mode *)

Definition deployment_modes : list (string * DeploymentMode) :=
  [("host", LMODE_HOST); ("gw", LMODE_GW); ("scrubbing", LMODE_SCRUBBER)]%string.

Inductive ModeState := MODE_START | MODE_HAVE_DEPLOYMENT | MODE_HAVE_DNS | MODE_COMPLETE.

(** The first token, and what follows the comma if there is one. *)
Fixpoint next_token (s : string) : string * option string :=
  match s with
  | EmptyString => (EmptyString, None)
  | String c r =>
      if (Ascii.nat_of_ascii c =? 44)%nat then (EmptyString, Some r)
      else let '(t, rest) := next_token r in (String c t, rest)
  end.

Definition mode_token (token : string) (state : ModeState) (mode : XfwLoadMode)
    : option (ModeState * XfwLoadMode) :=
  match token with
  | EmptyString => None
  | _ =>
      if String.eqb token "dns" then
        match state with
        | MODE_START => Some (MODE_HAVE_DNS, mkLoadMode (lm_deployment_mode mode) true)
        | MODE_HAVE_DEPLOYMENT => Some (MODE_COMPLETE, mkLoadMode (lm_deployment_mode mode) true)
        | _ => None
        end
      else
        match List.find (fun d => String.eqb d.1 token) deployment_modes with
        | None => None
        | Some (_, m) =>
            match state with
            | MODE_START => Some (MODE_HAVE_DEPLOYMENT, mkLoadMode m (lm_dns mode))
            | MODE_HAVE_DNS => Some (MODE_COMPLETE, mkLoadMode m (lm_dns mode))
            | _ => None
            end
        end
  end.

(** The loop over the tokens; the tokens are shorter than the string, which is
    the fuel. *)
Fixpoint parse_tokens (fuel : nat) (s : string) (state : ModeState) (mode : XfwLoadMode)
    : option XfwLoadMode :=
  match fuel with
  | O => None
  | S fuel =>
      let '(token, rest) := next_token s in
      match mode_token token state mode with
      | None => None
      | Some (state, mode) =>
          match rest with
          | None => Some mode
          | Some r => parse_tokens fuel r state mode
          end
      end
  end.

(** [None] for [-EINVAL]. *)
Definition parse_load_mode (name : option string) : option XfwLoadMode :=
  let mode := mkLoadMode LMODE_HOST false in
  match name with
  | None => Some mode
  | Some s => parse_tokens (S (String.length s)) s MODE_START mode
  end.

(** ** Paths

    [snprintf] of strings always has the length of its result as its value; the
    branch for a negative value is left out. *)

Definition make_pin_path (pin_root name : string) : Z + string :=
  let buf := pin_root +:+ "/" +:+ name in
  if (PATH_MAX <=? String.length buf)%nat then inl (- ENAMETOOLONG) else inr buf.

Definition make_tc_link_pin_path (pin_root dev : string) : Z + string :=
  let buf := pin_root +:+ "/tcx-" +:+ dev +:+ "-egress" in
  if (PATH_MAX <=? String.length buf)%nat then inl (- ENAMETOOLONG) else inr buf.

(** ** set_rodata_variable

    A member of the section: its type is no variable, or has no name, or it is a
    variable with a name, a size and an offset. *)
Record VarSecinfo := mkVarSecinfo {
  vs_var : option (option string);
  vs_size : Z;
  vs_offset : Z
}.

Fixpoint set_rodata_variable (vars : list VarSecinfo) (data : list Z) (name : string)
    (value : list Z) : Z * list Z :=
  match vars with
  | [] => (- ENOENT, data)
  | v :: vars =>
      match vs_var v with
      | None => (- EINVAL, data)
      | Some None => (- EINVAL, data)
      | Some (Some var_name) =>
          if negb (String.eqb var_name name) then set_rodata_variable vars data name value
          else
            let data_size := Z.of_nat (length data) in
            let value_size := Z.of_nat (length value) in
            if negb (vs_size v =? value_size) || (data_size <? vs_offset v)
               || (data_size - vs_offset v <? value_size)
            then (- EINVAL, data)
            else match splice data (vs_offset v) value with
                 | Some data => (0, data)
                 | None => (- EINVAL, data)
                 end
      end
  end.

(** ** libbpf, the kernel and the file system *)

(** What [set_load_mode] finds in an object: whether it has a map [.rodata] and
    type information, the result of the search for the section, its members, and
    the initial value of the map. *)
Record Rodata := mkRodata {
  rd_map : bool;
  rd_btf : bool;
  rd_id : Z;
  rd_datasec : option (list VarSecinfo);
  rd_data : option (list Z)
}.

(** Results are those of the C functions: zero or a positive error number for
    [access] and [unlink] ([errno]), a descriptor or a negative error number for
    the calls that open one. *)
Record LibBpf (W : Type) := mkLibBpf {
  access : string -> W -> Z;
  unlink : string -> W -> Z * W;
  if_nametoindex : string -> W -> Z + Z;
  bpf_obj_get : string -> W -> Z * W;
  bpf_obj_pin : Z -> string -> W -> Z * W;
  bpf_link_create : Z -> Z -> W -> Z * W;
  close_ : Z -> W -> W;
  object_open_file : string -> option string -> W -> (Z + nat) * W;
  object_close : nat -> W -> W;
  object_find_map : nat -> string -> W -> bool;
  object_rodata : nat -> W -> Rodata;
  object_set_rodata : nat -> list Z -> W -> W;
  map_reuse_fd : nat -> string -> Z -> W -> Z * W;
  map_clear_pin_path : nat -> string -> W -> Z * W;
  map_set_autocreate : nat -> string -> W -> Z * W;
  object_find_program : nat -> string -> W -> option ProgType;
  object_load : nat -> W -> Z * W;
  program_pin : nat -> string -> string -> W -> Z * W
}.
Arguments access {W}. Arguments unlink {W}. Arguments if_nametoindex {W}.
Arguments bpf_obj_get {W}. Arguments bpf_obj_pin {W}. Arguments bpf_link_create {W}.
Arguments close_ {W}. Arguments object_open_file {W}. Arguments object_close {W}.
Arguments object_find_map {W}. Arguments object_rodata {W}. Arguments object_set_rodata {W}.
Arguments map_reuse_fd {W}. Arguments map_clear_pin_path {W}.
Arguments map_set_autocreate {W}. Arguments object_find_program {W}.
Arguments object_load {W}. Arguments program_pin {W}.

(** What the process holds. *)
Inductive Resource := Fd (fd : Z) | Obj (o : nat).

#[export] Instance Resource_eq_dec : EqDecision Resource.
Proof. solve_decision. Defined.

Record LoaderSt (W : Type) := mkLoaderSt { ls_world : W; ls_held : list Resource }.
Arguments mkLoaderSt {W}. Arguments ls_world {W}. Arguments ls_held {W}.

Section loader.
Context {W : Type} (B : LibBpf W).
Variable XFW_BPF_LIB_DIR : string.
Abbreviation LSt := (LoaderSt W).

Definition set_world (w : W) (s : LSt) : LSt := mkLoaderSt w (ls_held s).
Definition hold (r : Resource) (w : W) (s : LSt) : LSt := mkLoaderSt w (r :: ls_held s).

Fixpoint drop_one (r : Resource) (l : list Resource) : list Resource :=
  match l with
  | [] => []
  | x :: l => if decide (x = r) then l else x :: drop_one r l
  end.

Definition do_close (fd : Z) (s : LSt) : LSt :=
  mkLoaderSt (close_ B fd (ls_world s)) (drop_one (Fd fd) (ls_held s)).
Definition do_object_close (o : nat) (s : LSt) : LSt :=
  mkLoaderSt (object_close B o (ls_world s)) (drop_one (Obj o) (ls_held s)).

(** A call that opens a descriptor. *)
Definition opened (r : Z * W) (s : LSt) : Z * LSt :=
  let '(fd, w) := r in
  (fd, if fd <? 0 then set_world w s else hold (Fd fd) w s).

(** A call that only has a result. *)
Definition called (r : Z * W) (s : LSt) : Z * LSt := (r.1, set_world r.2 s).

Definition check_path_absent (path : string) (s : LSt) : Z :=
  let e := access B path (ls_world s) in
  if e =? 0 then - EEXIST else if e =? ENOENT then 0 else - e.

Definition check_pin_root (path : string) (s : LSt) : Z := - access B path (ls_world s).

Definition reuse_map (obj : nat) (map_name pin : string) (s : LSt) : Z * LSt :=
  let '(fd, s) := opened (bpf_obj_get B pin (ls_world s)) s in
  if fd <? 0 then (fd, s)
  else
    let '(r, s) :=
      if negb (object_find_map B obj map_name (ls_world s)) then (- ENOENT, s)
      else
        let '(r, s) := called (map_reuse_fd B obj map_name fd (ls_world s)) s in
        if negb (r =? 0) then (r, s)
        else called (map_clear_pin_path B obj map_name (ls_world s)) s in
    (r, do_close fd s).

Definition disable_map (obj : nat) (name : string) (s : LSt) : Z * LSt :=
  if negb (object_find_map B obj name (ls_world s)) then (- ENOENT, s)
  else called (map_set_autocreate B obj name (ls_world s)) s.

Definition check_tc_dns_mode (pin_root : string) (dns : bool) (s : LSt) : Z :=
  match make_pin_path pin_root MAP_DNS_EGR_FD_STR with
  | inl r => r
  | inr path =>
      let e := access B path (ls_world s) in
      if e =? 0 then (if negb dns then - EINVAL else 0)
      else if e =? ENOENT then (if dns then - EINVAL else 0)
      else - e
  end.

Definition set_load_mode (obj : nat) (mode : XfwLoadMode) (s : LSt) : Z * LSt :=
  let rd := object_rodata B obj (ls_world s) in
  let deployment := deployment_mode_z (lm_deployment_mode mode) in
  let dns := b2z (lm_dns mode) in
  if negb (rd_map rd) || negb (rd_btf rd) then (- ENOENT, s)
  else if rd_id rd <? 0 then (rd_id rd, s)
  else match rd_datasec rd, rd_data rd with
       | None, _ => (- EINVAL, s)
       | _, None => (- EINVAL, s)
       | _, Some [] => (- EINVAL, s)
       | Some vars, Some data =>
           let '(r, data) := set_rodata_variable vars data "dns_mode" [dns] in
           if negb (r =? 0) then (r, s)
           else
             let s := set_world (object_set_rodata B obj data (ls_world s)) s in
             let '(r, data) := set_rodata_variable vars data "deployment_mode" [deployment] in
             if negb (r =? 0) then (r, s)
             else (0, set_world (object_set_rodata B obj data (ls_world s)) s)
       end.

Definition attach_tc (desc : XfwProg) (pin_root dev : string) (s : LSt) : Z * LSt :=
  if negb (bool_decide (pg_prog_type desc = BPF_PROG_TYPE_SCHED_CLS)) then (- EINVAL, s)
  else
    let r := check_pin_root pin_root s in
    if negb (r =? 0) then (r, s)
    else match if_nametoindex B dev (ls_world s) with
    | inl e => (if negb (e =? 0) then - e else - ENODEV, s)
    | inr ifindex =>
        match make_pin_path pin_root (pg_prog_pin_name desc) with
        | inl r => (r, s)
        | inr prog_pin =>
            match make_tc_link_pin_path pin_root dev with
            | inl r => (r, s)
            | inr link_pin =>
                let r := check_path_absent link_pin s in
                if negb (r =? 0) then (r, s)
                else
                  let '(prog_fd, s) := opened (bpf_obj_get B prog_pin (ls_world s)) s in
                  if prog_fd <? 0 then (prog_fd, s)
                  else
                    let '(link_fd, s) :=
                      opened (bpf_link_create B prog_fd ifindex (ls_world s)) s in
                    if link_fd <? 0 then (link_fd, do_close prog_fd s)
                    else
                      let '(r, s) := called (bpf_obj_pin B link_fd link_pin (ls_world s)) s in
                      (r, do_close prog_fd (do_close link_fd s))
            end
        end
    end.

Definition detach_tc (desc : XfwProg) (pin_root dev : string) (s : LSt) : Z * LSt :=
  if negb (bool_decide (pg_prog_type desc = BPF_PROG_TYPE_SCHED_CLS)) then (- EINVAL, s)
  else match make_tc_link_pin_path pin_root dev with
       | inl r => (r, s)
       | inr link_pin =>
           let '(e, s) := called (unlink B link_pin (ls_world s)) s in
           (if e =? 0 then 0 else if e =? ENOENT then 0 else - e, s)
       end.

(** The loop over [reuse_maps]. *)
Fixpoint reuse_maps (obj : nat) (pin_root : string) (dns : bool) (maps : list XfwLMapDesc)
    (s : LSt) : Z * LSt :=
  match maps with
  | [] => (0, s)
  | m :: maps =>
      if md_dns_only m && negb dns then reuse_maps obj pin_root dns maps s
      else match make_pin_path pin_root (md_name m) with
           | inl r => (r, s)
           | inr map_pin =>
               let '(r, s) := reuse_map obj (md_name m) map_pin s in
               if negb (r =? 0) then (r, s) else reuse_maps obj pin_root dns maps s
           end
  end.

(** [is_tc] and [is_xdp]: the comparisons of [desc] with the two descriptions. *)
Definition is_prog (p desc : XfwProg) : bool := String.eqb (pg_name p) (pg_name desc).

(** The part of [load_program] that configures the open object. *)
Definition prepare_object (obj : nat) (desc : XfwProg) (pin_root : string) (mode : XfwLoadMode)
    (s : LSt) : Z * LSt :=
  let '(r, s) := set_load_mode obj mode s in
  if negb (r =? 0) then (r, s)
  else
    let '(r, s) := if lm_dns mode then (0, s) else disable_map obj MAP_DNS_EGR_FD_STR s in
    if negb (r =? 0) then (r, s)
    else
      let '(r, s) :=
        if is_prog (main_xdp XFW_BPF_LIB_DIR) desc
           && negb (bool_decide (lm_deployment_mode mode = LMODE_HOST))
        then disable_map obj MAP_SYNCOOKIES_STR s else (0, s) in
      if negb (r =? 0) then (r, s)
      else reuse_maps obj pin_root (lm_dns mode) (pg_reuse_maps desc) s.

(** The part between the opening and the closing of the object. *)
Definition load_object (obj : nat) (desc : XfwProg) (pin_root prog_pin : string)
    (mode : XfwLoadMode) (s : LSt) : Z * LSt :=
  let '(r, s) := prepare_object obj desc pin_root mode s in
  if negb (r =? 0) then (r, s)
  else match object_find_program B obj (pg_prog_name desc) (ls_world s) with
       | None => (- ENOENT, s)
       | Some t =>
           if negb (bool_decide (t = pg_prog_type desc)) then (- EINVAL, s)
           else
             let '(r, s) := called (object_load B obj (ls_world s)) s in
             if negb (r =? 0) then (r, s)
             else called (program_pin B obj (pg_prog_name desc) prog_pin (ls_world s)) s
       end.

Definition load_program (desc : XfwProg) (pin_root : string) (mode : XfwLoadMode) (s : LSt)
    : Z * LSt :=
  let r := check_pin_root pin_root s in
  if negb (r =? 0) then (r, s)
  else match make_pin_path pin_root (pg_prog_pin_name desc) with
  | inl r => (r, s)
  | inr prog_pin =>
      let r := check_path_absent prog_pin s in
      if negb (r =? 0) then (r, s)
      else
        let r := if is_prog (main_tc XFW_BPF_LIB_DIR) desc
                 then check_tc_dns_mode pin_root (lm_dns mode) s else 0 in
        if negb (r =? 0) then (r, s)
        else match object_open_file B (pg_obj_path desc)
                     (if pg_pin_maps desc then Some pin_root else None) (ls_world s) with
        | (inl e, w) => (- e, set_world w s)
        | (inr obj, w) =>
            let '(r, s) := load_object obj desc pin_root prog_pin mode (hold (Obj obj) w s) in
            (r, do_object_close obj s)
        end
  end.

Definition unload_program (desc : XfwProg) (pin_root : string) (s : LSt) : Z * LSt :=
  match make_pin_path pin_root (pg_prog_pin_name desc) with
  | inl r => (r, s)
  | inr prog_pin =>
      let '(e, s) := called (unlink B prog_pin (ls_world s)) s in
      (if e =? 0 then 0 else if e =? ENOENT then 0 else - e, s)
  end.

(** [argv] without the name of the program. *)
Definition loader_main (argv : list string) (s : LSt) : bool * LSt :=
  match argv with
  | command :: prog :: pin_root :: rest =>
      match find_program XFW_BPF_LIB_DIR prog with
      | None => (false, s)
      | Some desc =>
          let absolute :=
            match pin_root with
            | String c _ => (Ascii.nat_of_ascii c =? 47)%nat
            | EmptyString => false
            end in
          let done_ (r : Z * LSt) := (r.1 =? 0, r.2) in
          if negb absolute then (false, s)
          else if String.eqb command "load" then
            match rest with
            | [] | [_] =>
                match parse_load_mode (head rest) with
                | None => (false, s)
                | Some mode => done_ (load_program desc pin_root mode s)
                end
            | _ => (false, s)
            end
          else if String.eqb command "unload" then
            match rest with [] => done_ (unload_program desc pin_root s) | _ => (false, s) end
          else if String.eqb command "attach" then
            match rest with [dev] => done_ (attach_tc desc pin_root dev s) | _ => (false, s) end
          else if String.eqb command "detach" then
            match rest with [dev] => done_ (detach_tc desc pin_root dev s) | _ => (false, s) end
          else (false, s)
      end
  | _ => (false, s)
  end.
End loader.
