(* ===== verification/LoaderSpec.v ===== *)
(** * LoaderSpec: theorems on the loader

    The grammar of the load modes; the bounds of the writes into the read-only
    data of an object; that no command keeps a descriptor or an object, whatever
    the calls return; and, from the documented effect of the calls on the pinned
    paths ([LibBpfSpec]), that loading and unloading undo each other and that the
    TC program is only loaded with the DNS mode of the XDP program. *)

From S2P Require Import Prelude.
From S2P Require Import Kernel.
From S2P Require Import Loader.
From stdpp Require Import strings.
Open Scope Z_scope.

(** ** parse_load_mode *)

(** The strings of the usage message. *)
Definition mode_string (m : DeploymentMode) : string :=
  match m with LMODE_HOST => "host" | LMODE_GW => "gw" | LMODE_SCRUBBER => "scrubbing" end.

Inductive mode_grammar : string -> XfwLoadMode -> Prop :=
| mode_plain m : mode_grammar (mode_string m) (mkLoadMode m false)
| mode_dns : mode_grammar "dns" (mkLoadMode LMODE_HOST true)
| mode_then_dns m : mode_grammar (mode_string m +:+ ",dns") (mkLoadMode m true)
| dns_then_mode m : mode_grammar ("dns," +:+ mode_string m) (mkLoadMode m true).

Lemma next_token_rest s t r : next_token s = (t, r) ->
  match r with
  | None => s = t
  | Some r => s = t +:+ String (Ascii.ascii_of_nat 44) r
  end.
Proof.
  revert t r. induction s as [|c s IH]; intros t r H; cbn in H.
  { by injection H as <- <-. }
  destruct (Nat.eqb_spec (Ascii.nat_of_ascii c) 44) as [Hc|Hc].
  - injection H as <- <-. rewrite <- (Ascii.ascii_nat_embedding c). by rewrite Hc.
  - destruct (next_token s) as [t' r'] eqn:Hn. injection H as <- <-.
    specialize (IH _ _ eq_refl). destruct r'; by rewrite IH at 1.
Qed.

Lemma mode_token_cases t st m st' m' : mode_token t st m = Some (st', m') ->
  (t = "dns"%string /\ (st = MODE_START /\ st' = MODE_HAVE_DNS
                 \/ st = MODE_HAVE_DEPLOYMENT /\ st' = MODE_COMPLETE)
     /\ m' = mkLoadMode (lm_deployment_mode m) true)
  \/ exists d, t = mode_string d
     /\ (st = MODE_START /\ st' = MODE_HAVE_DEPLOYMENT \/ st = MODE_HAVE_DNS /\ st' = MODE_COMPLETE)
     /\ m' = mkLoadMode d (lm_dns m).
Proof.
  unfold mode_token. destruct t as [|c t]; [done|].
  destruct (String.eqb_spec (String c t) "dns") as [->|_].
  { destruct st; intros [= <- <-]; naive_solver. }
  destruct (List.find _ deployment_modes) as [[n d]|] eqn:Hf; [|done].
  apply List.find_some in Hf as [Hin Heq]. apply String.eqb_eq in Heq. cbn in Heq. subst n.
  intros H. right. exists d. split.
  - cbn in Hin. destruct Hin as [[= <- <- <-]|[[= <- <- <-]|[[= <- <- <-]|[]]]]; done.
  - destruct st; simplify_eq; auto.
Qed.

(** After two tokens of the right kinds nothing may follow. *)
Lemma complete_rejects fuel s m m' : parse_tokens fuel s MODE_COMPLETE m = Some m' -> False.
Proof.
  destruct fuel as [|fuel]; cbn; [done|]. destruct (next_token s) as [t r].
  destruct (mode_token t MODE_COMPLETE m) as [[st' m'']|] eqn:H; [|done].
  apply mode_token_cases in H. naive_solver.
Qed.

Lemma parse_load_mode_sound s m : parse_load_mode (Some s) = Some m -> mode_grammar s m.
Proof.
  unfold parse_load_mode. generalize (String.length s) as n. intros n.
  cbn [parse_tokens]. destruct (next_token s) as [t r] eqn:Hn.
  apply next_token_rest in Hn.
  destruct (mode_token t MODE_START _) as [[st' m']|] eqn:H; [|done].
  apply mode_token_cases in H.
  destruct r as [r|]; [|intros [= <-]; subst t;
    destruct H as [(-> & _ & ->)|(d & -> & _ & ->)]; constructor].
  destruct n as [|n]; cbn [parse_tokens]; [done|]. destruct (next_token r) as [t2 r2] eqn:Hn2.
  apply next_token_rest in Hn2. destruct (mode_token t2 st' m') as [[st2 m2]|] eqn:H2; [|done].
  apply mode_token_cases in H2. destruct r2 as [r2|].
  - intros H3. assert (st2 = MODE_COMPLETE) as -> by naive_solver. by apply complete_rejects in H3.
  - intros [= <-]. subst s r.
    destruct H as [(-> & [[_ ->]|[? _]] & ->)|(d & -> & [[_ ->]|[? _]] & ->)]; [|done| |done].
    + destruct H2 as [(_ & [[? _]|[? _]] & _)|(d & -> & _ & ->)]; [done..|]. apply dns_then_mode.
    + destruct H2 as [(-> & _ & ->)|(d' & _ & [[? _]|[? _]] & _)]; [|done..]. apply mode_then_dns.
Qed.

Lemma parse_load_mode_complete s m : mode_grammar s m -> parse_load_mode (Some s) = Some m.
Proof. intros [[]| |[]|[]]; reflexivity. Qed.

(** ** set_rodata_variable *)

(** The first member with the name, if every member before it is a variable. *)
Fixpoint find_variable (vars : list VarSecinfo) (name : string) : option VarSecinfo :=
  match vars with
  | [] => None
  | v :: vars =>
      match vs_var v with
      | Some (Some n) => if String.eqb n name then Some v else find_variable vars name
      | _ => None
      end
  end.

(** Nothing is written on an error; otherwise exactly the bytes of the variable
    are, inside the data. *)
Lemma set_rodata_spec vars data name value r data' :
  Forall (fun v => 0 <= vs_offset v) vars ->
  set_rodata_variable vars data name value = (r, data') ->
  (r <> 0 /\ data' = data)
  \/ (r = 0 /\ exists v, find_variable vars name = Some v
      /\ vs_size v = Z.of_nat (length value) /\ 0 <= vs_offset v
      /\ vs_offset v + vs_size v <= Z.of_nat (length data)
      /\ splice data (vs_offset v) value = Some data').
Proof.
  induction 1 as [|v vars Hv _ IH]; cbn; [intros [= <- <-]; left; by split|].
  destruct (vs_var v) as [[n|]|]; [|intros [= <- <-]; left; by split..].
  destruct (String.eqb n name); cbn [negb]; [|done].
  destruct (_ || _ || _) eqn:Hb; [intros [= <- <-]; left; by split|].
  destruct (splice_Some data value (vs_offset v)) as [d' Hs]; [lia|lia|].
  rewrite Hs. intros [= <- <-]. right. split; [done|]. exists v. repeat split; auto; lia.
Qed.

(** The value of a one-byte variable. *)
Definition variable_value (vars : list VarSecinfo) (data : list Z) (name : string)
    : option (list Z) :=
  match find_variable vars name with
  | Some v => slice data (vs_offset v) 1
  | None => None
  end.

Lemma set_two_variables vars data d1 d2 n1 n2 x y :
  Forall (fun v => 0 <= vs_offset v) vars ->
  (forall v1 v2, find_variable vars n1 = Some v1 -> find_variable vars n2 = Some v2 ->
     vs_offset v1 <> vs_offset v2) ->
  set_rodata_variable vars data n1 [x] = (0, d1) ->
  set_rodata_variable vars d1 n2 [y] = (0, d2) ->
  variable_value vars d2 n1 = Some [x] /\ variable_value vars d2 n2 = Some [y]
  /\ length d2 = length data.
Proof.
  intros Hv Hne H1 H2.
  destruct (set_rodata_spec _ _ _ _ _ _ Hv H1) as [[? _]|(_ & v1 & F1 & S1 & _ & _ & P1)];
    [done|].
  destruct (set_rodata_spec _ _ _ _ _ _ Hv H2) as [[? _]|(_ & v2 & F2 & S2 & _ & _ & P2)];
    [done|].
  specialize (Hne v1 v2 F1 F2). unfold variable_value. rewrite F1, F2.
  split; [|split].
  - rewrite (slice_splice_ne _ _ _ _ _ _ P2) by (cbn; lia). exact (slice_splice_eq _ _ _ _ P1).
  - exact (slice_splice_eq _ _ _ _ P2).
  - rewrite (splice_length _ _ _ _ P2). exact (splice_length _ _ _ _ P1).
Qed.

(** ** No command keeps a resource *)

Section held.
Context {W : Type} (B : LibBpf W).
Variable dir : string.
Abbreviation LSt := (LoaderSt W).

(** The resources before and after. *)
Definition keeps (s : LSt) (r : Z * LSt) : Prop := ls_held r.2 = ls_held s.

Lemma drop_held r l : drop_one r (r :: l) = l.
Proof. cbn. by rewrite decide_True. Qed.

Lemma called_keeps r (s : LSt) : keeps s (called r s).
Proof. done. Qed.

Lemma close_opened fd w (s s1 : LSt) : ls_held s1 = ls_held (hold (Fd fd) w s) ->
  ls_held (do_close B fd s1) = ls_held s.
Proof. intros H. cbn. rewrite H. apply drop_held. Qed.

Lemma opened_cases r (s : LSt) fd s1 : opened r s = (fd, s1) ->
  (fd < 0 /\ ls_held s1 = ls_held s) \/ (0 <= fd /\ s1 = hold (Fd fd) r.2 s).
Proof.
  destruct r as [f w]. cbn. destruct (Z.ltb_spec f 0); intros [= <- <-]; auto.
Qed.

Lemma reuse_map_keeps o n p s : keeps s (reuse_map B o n p s).
Proof.
  unfold reuse_map. destruct (opened _ s) as [fd s1] eqn:Ho.
  apply opened_cases in Ho as [[Hf Hs]|[Hf ->]].
  - rewrite (proj2 (Z.ltb_lt _ _)) by done. exact Hs.
  - rewrite (proj2 (Z.ltb_ge _ _)) by done. set (s1 := hold _ _ s).
    match goal with |- keeps s (let '(r, s') := ?t in _) =>
      assert (keeps s1 t) as Hk by (unfold keeps, called; repeat case_match; simplify_eq/=; done);
      destruct t as [r s2] end.
    unfold keeps in *. cbn [snd] in *. by apply (close_opened _ (snd (bpf_obj_get B p (ls_world s)))).
Qed.

Lemma disable_map_keeps o n s : keeps s (disable_map B o n s).
Proof. unfold disable_map. by case_match. Qed.

Lemma set_load_mode_keeps o m s : keeps s (set_load_mode B o m s).
Proof. unfold set_load_mode. repeat case_match; done. Qed.

Lemma reuse_maps_keeps o root dns maps s : keeps s (reuse_maps B o root dns maps s).
Proof.
  revert s. induction maps as [|m maps IH]; intros s; [done|]. cbn [reuse_maps].
  case_match; [apply IH|]. case_match; [done|].
  match goal with |- context [reuse_map B o ?n ?p s] =>
    pose proof (reuse_map_keeps o n p s) as Hk; destruct (reuse_map B o n p s) as [r s1] end.
  unfold keeps in *. cbn [snd] in Hk. case_match; [done|]. by rewrite IH.
Qed.

Lemma attach_tc_keeps desc root dev s : keeps s (attach_tc B desc root dev s).
Proof.
  unfold attach_tc. destruct (negb (bool_decide _)); [done|].
  destruct (negb (check_pin_root B root s =? 0)); [done|].
  destruct (if_nametoindex B dev _) as [e|ifindex]; [done|].
  destruct (make_pin_path root _) as [e|prog_pin]; [done|].
  destruct (make_tc_link_pin_path root dev) as [e|link_pin]; [done|].
  destruct (negb (check_path_absent B link_pin s =? 0)); [done|].
  destruct (opened _ s) as [prog_fd s1] eqn:Ho.
  apply opened_cases in Ho as [[Hf Hs]|[Hf ->]].
  { by rewrite (proj2 (Z.ltb_lt _ _)). }
  rewrite (proj2 (Z.ltb_ge _ _)) by done. set (s1 := hold _ _ s).
  destruct (opened _ s1) as [link_fd s2] eqn:Hl.
  apply opened_cases in Hl as [[Hlf Hs]|[Hlf ->]].
  - rewrite (proj2 (Z.ltb_lt _ _)) by done. by apply (close_opened _ (ls_world s1)).
  - rewrite (proj2 (Z.ltb_ge _ _)) by done. destruct (called _ _) as [r s3] eqn:Hc.
    apply (f_equal snd) in Hc. cbn in Hc. subst s3.
    apply (close_opened _ (ls_world s1)). by apply (close_opened _ (ls_world s1)).
Qed.

Lemma prepare_object_keeps o desc root mode s :
  keeps s (prepare_object B dir o desc root mode s).
Proof.
  unfold prepare_object. pose proof (set_load_mode_keeps o mode s) as HK1.
  destruct (set_load_mode B o mode s) as [r1 s1]. unfold keeps in *. cbn [snd] in HK1.
  case_match; [done|].
  match goal with |- context [let '(r, s) := ?t in _] =>
    assert (keeps s1 t) as HK2 by (case_match; [done|apply disable_map_keeps]);
    destruct t as [r2 s2] end. unfold keeps in *. cbn [snd] in HK2. rewrite HK1 in HK2.
  case_match; [done|].
  match goal with |- context [let '(r, s) := ?t in _] =>
    assert (keeps s2 t) as HK3 by (case_match; [apply disable_map_keeps|done]);
    destruct t as [r3 s3] end. unfold keeps in *. cbn [snd] in HK3. rewrite HK2 in HK3.
  case_match; [done|]. rewrite <- HK3. apply reuse_maps_keeps.
Qed.

Lemma load_object_keeps o desc root pin mode s : keeps s (load_object B dir o desc root pin mode s).
Proof.
  unfold load_object. pose proof (prepare_object_keeps o desc root mode s) as HK.
  destruct (prepare_object B dir o desc root mode s) as [r1 s1]. unfold keeps in *.
  cbn [snd] in HK. case_match; [done|]. case_match; [|done]. case_match; [done|].
  destruct (called _ s1) as [r2 s2] eqn:Hc. apply (f_equal snd) in Hc. cbn in Hc. subst s2.
  by case_match.
Qed.

Lemma load_program_keeps desc root mode s : keeps s (load_program B dir desc root mode s).
Proof.
  unfold load_program. destruct (negb (check_pin_root B root s =? 0)); [done|].
  destruct (make_pin_path root _) as [e|pin]; [done|].
  destruct (negb (check_path_absent B pin s =? 0)); [done|].
  destruct (negb ((if is_prog _ desc then _ else 0) =? 0)); [done|].
  destruct (object_open_file B _ _ _) as [[e|o] w]; [done|].
  pose proof (load_object_keeps o desc root pin mode (hold (Obj o) w s)) as Hk.
  destruct (load_object B dir o desc root pin mode _) as [r s1]. unfold keeps in *. cbn [snd] in *.
  cbn. rewrite Hk. apply drop_held.
Qed.

Lemma unlink_keeps p s (f : Z -> Z) :
  keeps s (let '(e, s') := called (unlink B p (ls_world s)) s in (f e, s')).
Proof. done. Qed.

(** Whatever libbpf and the kernel do. *)
Lemma loader_main_keeps argv s : ls_held (loader_main B dir argv s).2 = ls_held s.
Proof.
  unfold loader_main. destruct argv as [|command [|prog [|root rest]]]; try done.
  destruct (find_program dir prog) as [desc|]; [|done]. destruct (negb _); [done|].
  destruct (String.eqb command "load").
  { destruct rest as [|m [|? ?]]; [|..|done]; (destruct (parse_load_mode _); [|done]);
      apply load_program_keeps. }
  destruct (String.eqb command "unload").
  { destruct rest; [|done]. cbn. unfold unload_program. by case_match. }
  destruct (String.eqb command "attach").
  { destruct rest as [|d [|? ?]]; try done. apply attach_tc_keeps. }
  destruct (String.eqb command "detach"); [|done].
  destruct rest as [|d [|? ?]]; try done. unfold detach_tc.
  destruct (negb (bool_decide _)); [done|]. by destruct (make_tc_link_pin_path root d).
Qed.
End held.

(** ** The documented effect of the calls on pinned paths *)

(** [paths]: the existing paths. [pin_dir] and [to_pin]: the directory in which
    and the names under which loading an open object will pin its maps. [declared]:
    the maps that an object file declares with LIBBPF_PIN_BY_NAME. *)
Class LibBpfSpec {W} (B : LibBpf W) := mkLibBpfSpec {
  paths : W -> gset string;
  pin_dir : nat -> W -> string;
  to_pin : nat -> W -> gset string;
  declared : string -> gset string;
  quiet (o : nat) (w w' : W) :=
    paths w' = paths w /\ pin_dir o w' = pin_dir o w /\ to_pin o w' ⊆ to_pin o w;
  still (o : nat) (w w' : W) :=
    paths w' = paths w /\ pin_dir o w' = pin_dir o w /\ to_pin o w' = to_pin o w;
  pinned_maps (o : nat) (w : W) : gset string :=
    set_map (fun n => pin_dir o w +:+ "/" +:+ n) (to_pin o w);
  access_present p w : access B p w = 0 -> p ∈ paths w;
  access_absent p w : access B p w = ENOENT -> p ∉ paths w;
  unlink_ok p w w' : unlink B p w = (0, w') -> p ∈ paths w /\ paths w' = paths w ∖ {[p]};
  unlink_err p w e w' : unlink B p w = (e, w') -> e <> 0 ->
    paths w' = paths w /\ (e = ENOENT -> p ∉ paths w);
  obj_get_still o p w : still o w (bpf_obj_get B p w).2;
  link_create_still o fd i w : still o w (bpf_link_create B fd i w).2;
  close_still o fd w : still o w (close_ B fd w);
  object_close_paths o w : paths (object_close B o w) = paths w;
  set_rodata_still o d w : still o w (object_set_rodata B o d w);
  reuse_fd_still o n fd w : still o w (map_reuse_fd B o n fd w).2;
  clear_pin_path_quiet o n w : quiet o w (map_clear_pin_path B o n w).2;
  clear_pin_path_one o n w : to_pin o w ∖ {[n]} ⊆ to_pin o (map_clear_pin_path B o n w).2;
  autocreate_quiet o n w : quiet o w (map_set_autocreate B o n w).2;
  autocreate_ok o n w w' : map_set_autocreate B o n w = (0, w') -> to_pin o w' = to_pin o w ∖ {[n]};
  obj_pin_effect fd p w e w' : bpf_obj_pin B fd p w = (e, w') ->
    if e =? 0 then (p ∉ paths w) /\ (paths w' = paths w ∪ {[p]}) else paths w' = paths w;
  program_pin_effect o n p w e w' : program_pin B o n p w = (e, w') ->
    if e =? 0 then (p ∉ paths w) /\ (paths w' = paths w ∪ {[p]}) else paths w' = paths w;
  open_paths f r w : paths (object_open_file B f r w).2 = paths w;
  open_err f r w e w' : object_open_file B f r w = (inl e, w') -> e <> 0;
  open_maps f root w o w' : object_open_file B f (Some root) w = (inr o, w') ->
    pin_dir o w' = root /\ to_pin o w' = declared f;
  load_effect o w e w' : object_load B o w = (e, w') ->
    paths w ⊆ paths w' /\ paths w' ⊆ paths w ∪ pinned_maps o w
    /\ (e = 0 -> paths w' = paths w ∪ pinned_maps o w)
}.

Section pinning.
Context {W : Type} (B : LibBpf W) `{!LibBpfSpec B}.
Variable dir : string.
Abbreviation LSt := (LoaderSt W).

Definition squiet (o : nat) (s : LSt) (r : Z * LSt) : Prop :=
  quiet (B := B) o (ls_world s) (ls_world r.2).

Lemma quiet_refl o w : quiet (B := B) o w w.
Proof. by repeat split. Qed.

Lemma quiet_trans o w1 w2 w3 : quiet (B := B) o w1 w2 -> quiet (B := B) o w2 w3 ->
  quiet (B := B) o w1 w3.
Proof. intros (A1 & A2 & A3) (B1 & B2 & B3). repeat split; [congruence..|set_solver]. Qed.

Lemma still_quiet o w w' : still (B := B) o w w' -> quiet (B := B) o w w'.
Proof. intros (H1 & H2 & H3). repeat split; [done..|]. by rewrite H3. Qed.

Lemma opened_world r (s : LSt) : ls_world (opened r s).2 = r.2.
Proof. destruct r as [fd w]. cbn. by case_match. Qed.

(** A world that differs at most in that the maps [X] will not be pinned. *)
Definition drops (X : gset string) (o : nat) (w w' : W) : Prop :=
  quiet (B := B) o w w' /\ to_pin (B := B) o w ∖ X ⊆ to_pin (B := B) o w'.

Lemma still_drops X o w w' : still (B := B) o w w' -> drops X o w w'.
Proof. intros H. split; [by apply still_quiet|]. destruct H as (_ & _ & ->). set_solver. Qed.

Lemma drops_trans X Y o w1 w2 w3 : drops X o w1 w2 -> drops Y o w2 w3 -> drops (X ∪ Y) o w1 w3.
Proof. intros [Q1 S1] [Q2 S2]. split; [by eapply quiet_trans|set_solver]. Qed.

Lemma drops_mono X Y o w w' : X ⊆ Y -> drops X o w w' -> drops Y o w w'.
Proof. intros HXY [Q S]. split; [done|set_solver]. Qed.

Lemma drops_refl X o w : drops X o w w.
Proof. split; [apply quiet_refl|set_solver]. Qed.

Lemma reuse_map_drops o n p s :
  drops {[n]} o (ls_world s) (ls_world (reuse_map B o n p s).2).
Proof.
  unfold reuse_map. pose proof (still_drops ∅ _ _ _ (obj_get_still o p (ls_world s))) as H1.
  rewrite <- (opened_world _ s) in H1. destruct (opened _ s) as [fd s1]. cbn [snd] in H1.
  case_match; [by eapply drops_mono; [|exact H1]; set_solver|].
  match goal with |- drops _ _ _ (ls_world (let '(r, s') := ?t in _).2) =>
    assert (drops {[n]} o (ls_world s1) (ls_world t.2)) as HK; [|destruct t as [r s2]] end.
  - case_match; [apply drops_refl|]. cbn [called fst snd].
    pose proof (reuse_fd_still o n fd (ls_world s1)) as H2. case_match; [by apply still_drops|].
    apply (drops_mono (∅ ∪ {[n]})); [set_solver|].
    eapply drops_trans; [by apply still_drops|]. split; [apply clear_pin_path_quiet|].
    apply clear_pin_path_one.
  - cbn [snd] in *. apply (drops_mono (∅ ∪ ({[n]} ∪ ∅))); [set_solver|].
    eapply drops_trans; [exact H1|]. eapply drops_trans; [exact HK|].
    apply still_drops, close_still.
Qed.

Definition reuse_names (maps : list XfwLMapDesc) : gset string := list_to_set (md_name <$> maps).

Lemma reuse_maps_drops o root dns maps s :
  drops (reuse_names maps) o (ls_world s) (ls_world (reuse_maps B o root dns maps s).2).
Proof.
  revert s. induction maps as [|m maps IH]; intros s; [apply drops_refl|]. cbn [reuse_maps].
  assert (reuse_names (m :: maps) = {[md_name m]} ∪ reuse_names maps) as HR by done.
  case_match; [eapply drops_mono; [|apply IH]; set_solver|]. case_match; [apply drops_refl|].
  match goal with |- context [reuse_map B o ?n ?p s] =>
    pose proof (reuse_map_drops o n p s) as HK; destruct (reuse_map B o n p s) as [r s1] end.
  cbn [snd] in HK. rewrite HR. case_match; [eapply drops_mono; [|exact HK]; set_solver|].
  eapply drops_trans; [exact HK|apply IH].
Qed.

Lemma set_load_mode_still o m s :
  still (B := B) o (ls_world s) (ls_world (set_load_mode B o m s).2).
Proof.
  unfold set_load_mode. destruct (negb _ || negb _); [done|].
  destruct (rd_id _ <? 0); [done|]. destruct (rd_datasec _) as [vars|]; [|done].
  destruct (rd_data _) as [[|x l]|]; [done| |done].
  destruct (set_rodata_variable vars (x :: l) _ _) as [r1 d1].
  destruct (negb (r1 =? 0)); [done|].
  destruct (set_rodata_variable vars d1 _ _) as [r2 d2].
  destruct (set_rodata_still o d1 (ls_world s)) as (P1 & D1 & T1).
  destruct (negb (r2 =? 0)); [done|].
  destruct (set_rodata_still o d2 (object_set_rodata B o d1 (ls_world s))) as (P2 & D2 & T2).
  cbn. unfold still. repeat split; congruence.
Qed.

Lemma disable_map_quiet o n s : squiet o s (disable_map B o n s)
  /\ ((disable_map B o n s).1 = 0 ->
      to_pin (B := B) o (ls_world (disable_map B o n s).2)
      = to_pin (B := B) o (ls_world s) ∖ {[n]}).
Proof.
  unfold disable_map, squiet. case_match; cbn; [split; [apply quiet_refl|done]|].
  split; [apply autocreate_quiet|]. intros Hz. apply autocreate_ok.
  rewrite <- Hz. by destruct (map_set_autocreate B o n (ls_world s)).
Qed.

(** The calls before the object is loaded; which maps are left to be pinned is
    exact for a program that reuses none. *)
Definition left_to_pin (desc : XfwProg) (mode : XfwLoadMode) (names : gset string) : gset string :=
  let names := if lm_dns mode then names else names ∖ {[MAP_DNS_EGR_FD_STR]} in
  if is_prog (main_xdp dir) desc && negb (bool_decide (lm_deployment_mode mode = LMODE_HOST))
  then names ∖ {[MAP_SYNCOOKIES_STR]} else names.

Lemma prepare_object_quiet o desc root mode s :
  squiet o s (prepare_object B dir o desc root mode s)
  /\ ((prepare_object B dir o desc root mode s).1 = 0 ->
      let left := left_to_pin desc mode (to_pin (B := B) o (ls_world s)) in
      let after := to_pin (B := B) o (ls_world (prepare_object B dir o desc root mode s).2) in
      (left ∖ reuse_names (pg_reuse_maps desc) ⊆ after) /\ (after ⊆ left)).
Proof.
  unfold prepare_object, left_to_pin, squiet. pose proof (set_load_mode_still o mode s) as HS.
  destruct (set_load_mode B o mode s) as [r1 s1]. cbn [snd] in HS.
  pose proof (still_quiet _ _ _ HS) as Q1. destruct HS as (_ & _ & T1).
  destruct (Z.eqb_spec r1 0); cbn [negb]; [|by split].
  match goal with |- context [let '(r, s) := ?t in _] =>
    assert (quiet (B := B) o (ls_world s1) (ls_world t.2) /\ (t.1 = 0 ->
      to_pin (B := B) o (ls_world t.2) = if lm_dns mode then to_pin (B := B) o (ls_world s1)
        else to_pin (B := B) o (ls_world s1) ∖ {[MAP_DNS_EGR_FD_STR]})) as [Q2 T2];
      [destruct (lm_dns mode); [split; [apply quiet_refl|done]|apply disable_map_quiet]|];
    destruct t as [r2 s2] end. cbn [fst snd] in *. pose proof (quiet_trans _ _ _ _ Q1 Q2) as Q12.
  destruct (Z.eqb_spec r2 0) as [->|]; cbn [negb]; [specialize (T2 eq_refl)|by split].
  match goal with |- context [let '(r, s) := ?t in _] =>
    assert (quiet (B := B) o (ls_world s2) (ls_world t.2) /\ (t.1 = 0 ->
      to_pin (B := B) o (ls_world t.2)
      = if is_prog (main_xdp dir) desc && negb (bool_decide (lm_deployment_mode mode = LMODE_HOST))
        then to_pin (B := B) o (ls_world s2) ∖ {[MAP_SYNCOOKIES_STR]}
        else to_pin (B := B) o (ls_world s2))) as [Q3 T3];
      [destruct (_ && _); [apply disable_map_quiet|split; [apply quiet_refl|done]]|];
    destruct t as [r3 s3] end. cbn [fst snd] in *. pose proof (quiet_trans _ _ _ _ Q12 Q3) as Q13.
  destruct (Z.eqb_spec r3 0) as [->|]; cbn [negb]; [specialize (T3 eq_refl)|by split].
  destruct (reuse_maps_drops o root (lm_dns mode) (pg_reuse_maps desc) s3) as [Q4 S4].
  split; [by eapply quiet_trans|]. intros _. cbv zeta. rewrite <- T1, <- T2, <- T3.
  split; [exact S4|]. apply Q4.
Qed.

Lemma pins_mono d (X Y : gset string) : X ⊆ Y ->
  (set_map (fun n => d +:+ "/" +:+ n) X : gset string) ⊆ set_map (fun n => d +:+ "/" +:+ n) Y.
Proof. intros H. by apply set_map_mono. Qed.

(** What loading an open object may do to the paths. *)
Definition load_outcome (o : nat) (desc : XfwProg) (mode : XfwLoadMode) (pin : string)
    (s : LSt) (r : Z) (s' : LSt) : Prop :=
  let P s := paths (B := B) (ls_world s) in
  let maps := pinned_maps (B := B) o (ls_world s) in
  (P s ⊆ P s') /\ (r = 0 -> (pin ∉ P s) /\ pin ∈ P s') /\ (r <> 0 -> P s' ⊆ P s ∪ maps)
  /\ (r = 0 ->
      let left := left_to_pin desc mode (to_pin (B := B) o (ls_world s)) in
      let at_dir (X : gset string) : gset string :=
        set_map (fun n => pin_dir (B := B) o (ls_world s) +:+ "/" +:+ n) X in
      (at_dir (left ∖ reuse_names (pg_reuse_maps desc)) ⊆ P s')
      /\ (P s' ⊆ P s ∪ at_dir left ∪ {[pin]})).

Lemma load_object_effect o desc root pin mode s r s' :
  load_object B dir o desc root pin mode s = (r, s') -> load_outcome o desc mode pin s r s'.
Proof.
  unfold load_object. destruct (prepare_object_quiet o desc root mode s) as [(Q1 & Q2 & Q3) T].
  destruct (prepare_object B dir o desc root mode s) as [r1 s1]. cbn [fst snd] in *. intros H.
  set (maps := pinned_maps (B := B) o (ls_world s)).
  assert (forall r0 : Z, r0 <> 0 -> (r0, s1) = (r, s') -> load_outcome o desc mode pin s r s')
    as Hfail.
  { intros r0 Hr0 [= -> ->]. unfold load_outcome. rewrite Q1. split; [done|]. split; [done|].
    split; [set_solver|done]. }
  destruct (Z.eqb_spec r1 0) as [->|Hr1]; cbn [negb] in H; [|refine (Hfail _ _ H); done].
  destruct (object_find_program B o _ _) as [t|]; [|refine (Hfail _ _ H); done].
  destruct (negb (bool_decide _)); [refine (Hfail _ _ H); done|]. clear Hfail.
  unfold called in H. destruct (object_load B o (ls_world s1)) as [r2 w2] eqn:Hl.
  cbn [fst snd] in H. destruct (load_effect o _ _ _ Hl) as (L1 & L2 & L3).
  assert (pinned_maps (B := B) o (ls_world s1) ⊆ maps) as Hm.
  { unfold maps, pinned_maps. rewrite Q2. set_solver. }
  unfold load_outcome. fold maps. rewrite Q1 in L1, L2, L3.
  destruct (Z.eqb_spec r2 0) as [->|Hr2]; cbn [negb] in H.
  2: { injection H as <- <-. cbn. split; [done|]. split; [done|]. split; [set_solver|done]. }
  specialize (L3 eq_refl). cbn [set_world ls_world] in H.
  destruct (program_pin B o _ pin w2) as [r3 w3] eqn:Hp. cbn in H. injection H as <- <-. cbn.
  apply program_pin_effect in Hp. destruct (Z.eqb_spec r3 0) as [->|Hr3].
  - destruct Hp as [P1 P2]. rewrite P2. split; [set_solver|].
    split; [intros _; split; [set_solver|set_solver]|]. split; [done|].
    intros _. destruct (T eq_refl) as [T1 T2]. rewrite L3. unfold pinned_maps. rewrite Q2.
    apply (pins_mono (pin_dir (B := B) o (ls_world s))) in T1, T2.
    split; [etrans; [exact T1|]|]; set_solver.
  - rewrite Hp. split; [done|]. split; [done|]. split; [set_solver|done].
Qed.

(** ** The commands *)

Abbreviation P s := (paths (B := B) (ls_world s)).

Lemma path_absent_ok p s : check_path_absent B p s = 0 -> p ∉ P s.
Proof.
  unfold check_path_absent. destruct (Z.eqb_spec (access B p (ls_world s)) 0); [done|].
  destruct (Z.eqb_spec (access B p (ls_world s)) ENOENT); [|lia]. intros _. by apply access_absent.
Qed.

Lemma pin_path_absolute root name pin : make_pin_path root name = inr pin ->
  pin = root +:+ "/" +:+ name.
Proof. unfold make_pin_path. cbv zeta. destruct (_ <=? _)%nat; congruence. Qed.

Lemma pin_path_error root name e : make_pin_path root name = inl e -> e <> 0.
Proof.
  unfold make_pin_path. cbv zeta. destruct (_ <=? _)%nat; [|done]. intros [= <-]. by vm_compute.
Qed.

(** A load that succeeds had a path for its pin. *)
Lemma load_has_path desc root mode s s' : load_program B dir desc root mode s = (0, s') ->
  exists pin, make_pin_path root (pg_prog_pin_name desc) = inr pin.
Proof.
  unfold load_program. destruct (make_pin_path root _) as [e|pin] eqn:Hp; [|by eexists].
  apply pin_path_error in Hp. destruct (Z.eqb_spec (check_pin_root B root s) 0);
    cbn [negb]; intros [= Hz _]; congruence.
Qed.

Lemma pin_path_inj root n m : root +:+ "/" +:+ n = root +:+ "/" +:+ m -> n = m.
Proof. intros H. by apply (inj (String.append root)), (inj (String.append "/")) in H. Qed.

Lemma load_program_cases desc root mode s r s' pin :
  load_program B dir desc root mode s = (r, s') -> pg_pin_maps desc = true ->
  make_pin_path root (pg_prog_pin_name desc) = inr pin ->
  (r <> 0 /\ P s' = P s)
  \/ exists o w s1,
      object_open_file B (pg_obj_path desc) (Some root) (ls_world s) = (inr o, w)
      /\ load_object B dir o desc root pin mode (hold (Obj o) w s) = (r, s1)
      /\ s' = do_object_close B o s1
      /\ (is_prog (main_tc dir) desc = true -> check_tc_dns_mode B root (lm_dns mode) s = 0).
Proof.
  unfold load_program. intros H Hpm Hpin. rewrite Hpm, Hpin in H.
  destruct (Z.eqb_spec (check_pin_root B root s) 0); cbn [negb] in H;
    [|injection H as <- <-; by left].
  destruct (Z.eqb_spec (check_path_absent B pin s) 0); cbn [negb] in H;
    [|injection H as <- <-; by left].
  match type of H with context [negb (?t =? 0)] => destruct (Z.eqb_spec t 0) as [Ht|] end;
    cbn [negb] in H; [|injection H as <- <-; by left].
  pose proof (open_paths (pg_obj_path desc) (Some root) (ls_world s)) as Hw.
  destruct (object_open_file B _ _ (ls_world s)) as [[err|o] w] eqn:Ho.
  - apply open_err in Ho. injection H as <- <-. left. cbn in *. split; [lia|done].
  - destruct (load_object B dir o desc root pin mode (hold (Obj o) w s)) as [r1 s1] eqn:Hl.
    injection H as <- <-. right. exists o, w, s1. split_and!; try done.
    intros Hi. by rewrite Hi in Ht.
Qed.

(** What [load_program] does to the paths. *)
Lemma load_program_effect desc root mode s r s' pin :
  load_program B dir desc root mode s = (r, s') -> pg_pin_maps desc = true ->
  make_pin_path root (pg_prog_pin_name desc) = inr pin ->
  let maps := set_map (fun n => root +:+ "/" +:+ n) (declared (B := B) (pg_obj_path desc)) in
  (P s ⊆ P s') /\ (r = 0 -> (pin ∉ P s) /\ pin ∈ P s') /\ (r <> 0 -> P s' ⊆ P s ∪ maps)
  /\ (r = 0 ->
      let left := left_to_pin desc mode (declared (B := B) (pg_obj_path desc)) in
      let at_dir (X : gset string) : gset string := set_map (fun n => root +:+ "/" +:+ n) X in
      (at_dir (left ∖ reuse_names (pg_reuse_maps desc)) ⊆ P s')
      /\ (P s' ⊆ P s ∪ at_dir left ∪ {[pin]}))
  /\ (r = 0 -> is_prog (main_tc dir) desc = true -> check_tc_dns_mode B root (lm_dns mode) s = 0).
Proof.
  intros H Hpm Hpin maps.
  destruct (load_program_cases _ _ _ _ _ _ _ H Hpm Hpin)
    as [[Hr HP]|(o & w & s1 & Ho & Hl & -> & Hd)].
  { rewrite HP. split_and!; (done || set_solver). }
  pose proof (open_paths (pg_obj_path desc) (Some root) (ls_world s)) as Hw.
  rewrite Ho in Hw. cbn [snd] in Hw. destruct (open_maps _ _ _ _ _ Ho) as [D1 D2].
  apply load_object_effect in Hl. unfold load_outcome, pinned_maps in Hl.
  cbn [hold ls_world do_object_close] in *. rewrite object_close_paths.
  rewrite D1, D2, Hw in Hl. destruct Hl as (L1 & L2 & L3 & L4). split_and!; auto.
Qed.

(** Both ways to remove a pin answer alike: absence is no error. *)
Lemma unlink_effect (s : LSt) (pin : string) (r : Z) (s' : LSt) :
  (let '(e, s) := called (unlink B pin (ls_world s)) s in
   (if e =? 0 then 0 else if e =? ENOENT then 0 else - e, s)) = (r, s') ->
  P s' = if r =? 0 then P s ∖ {[pin]} else P s.
Proof.
  unfold called. destruct (unlink B pin (ls_world s)) as [e w] eqn:Hu. cbn. intros [= <- <-]. cbn.
  destruct (Z.eqb_spec e 0) as [->|He]; [apply (unlink_ok _ _ _ Hu)|].
  destruct (unlink_err _ _ _ _ Hu He) as [HP HN]. destruct (Z.eqb_spec e ENOENT) as [->|].
  - rewrite HP. cbn. specialize (HN eq_refl). set_solver.
  - destruct (Z.eqb_spec (- e) 0); [lia|done].
Qed.

Lemma unload_program_effect desc root s r s' pin :
  unload_program B desc root s = (r, s') ->
  make_pin_path root (pg_prog_pin_name desc) = inr pin ->
  P s' = if r =? 0 then P s ∖ {[pin]} else P s.
Proof. unfold unload_program. intros H Hpin. rewrite Hpin in H. by apply unlink_effect. Qed.

Lemma detach_tc_effect desc root dev s r s' pin :
  detach_tc B desc root dev s = (r, s') -> make_tc_link_pin_path root dev = inr pin ->
  P s' = if r =? 0 then P s ∖ {[pin]} else P s.
Proof.
  unfold detach_tc. intros H Hpin. rewrite Hpin in H.
  destruct (negb (bool_decide _)); [by injection H as <- <-|]. by apply unlink_effect.
Qed.

Lemma opened_paths t (s : LSt) : still (B := B) 0 (ls_world s) t.2 ->
  P (opened t s).2 = P s.
Proof. intros [H _]. by rewrite opened_world. Qed.

Lemma close_paths fd s : P (do_close B fd s) = P s.
Proof. apply (close_still 0 fd (ls_world s)). Qed.

(** A failed attachment leaves no pin; the other errors of [attach_tc] come before
    it pins anything. *)
Lemma attach_tc_effect desc root dev s r s' pin :
  attach_tc B desc root dev s = (r, s') -> make_tc_link_pin_path root dev = inr pin ->
  P s' = (if r =? 0 then P s ∪ {[pin]} else P s) /\ (r = 0 -> pin ∉ P s).
Proof.
  intros H Hpin. unfold attach_tc in H. rewrite Hpin in H.
  assert (forall r0 s0, r0 <> 0 -> P s0 = P s -> (r0, s0) = (r, s') ->
    P s' = (if r =? 0 then P s ∪ {[pin]} else P s) /\ (r = 0 -> pin ∉ P s)) as Hfail.
  { intros r0 s0 Hr0 Hs0 [= -> ->]. destruct (Z.eqb_spec r 0); done. }
  destruct (negb (bool_decide _)); [refine (Hfail _ _ _ _ H); done|].
  destruct (Z.eqb_spec (check_pin_root B root s) 0); cbn [negb] in H;
    [|refine (Hfail _ _ _ _ H); done].
  destruct (if_nametoindex B dev (ls_world s)) as [er|i].
  { refine (Hfail _ _ _ _ H); [|done]. unfold ENODEV. destruct (Z.eqb_spec er 0); cbn; lia. }
  destruct (make_pin_path root (pg_prog_pin_name desc)) as [rp|pp] eqn:Hpp.
  { apply pin_path_error in Hpp. refine (Hfail _ _ _ _ H); done. }
  destruct (Z.eqb_spec (check_path_absent B pin s) 0) as [Ha|]; cbn [negb] in H;
    [apply path_absent_ok in Ha|refine (Hfail _ _ _ _ H); done].
  pose proof (opened_paths _ s (obj_get_still 0 pp (ls_world s))) as P1.
  destruct (opened _ s) as [pfd s1]. cbn [snd] in P1.
  destruct (Z.ltb_spec pfd 0); [refine (Hfail _ _ _ _ H); [lia|done]|].
  pose proof (opened_paths _ s1 (link_create_still 0 pfd i (ls_world s1))) as P2.
  destruct (opened _ s1) as [lfd s2]. cbn [snd] in P2.
  destruct (Z.ltb_spec lfd 0).
  { refine (Hfail _ _ _ _ H); [lia|]. rewrite close_paths. congruence. }
  unfold called in H. destruct (bpf_obj_pin B lfd pin (ls_world s2)) as [e3 w3] eqn:Hpi.
  cbn [fst snd] in H. injection H as <- <-. rewrite !close_paths. cbn [set_world ls_world].
  apply obj_pin_effect in Hpi. destruct (Z.eqb_spec e3 0); [|split; [congruence|done]].
  destruct Hpi as [_ ->]. split; [congruence|done].
Qed.
(** What the check of the DNS mode has seen. *)
Lemma dns_check_ok root dns s : check_tc_dns_mode B root dns s = 0 ->
  if dns then root +:+ "/" +:+ MAP_DNS_EGR_FD_STR ∈ P s
  else root +:+ "/" +:+ MAP_DNS_EGR_FD_STR ∉ P s.
Proof.
  unfold check_tc_dns_mode. destruct (make_pin_path root _) as [r|path] eqn:Hp.
  { intros ->. by apply pin_path_error in Hp. }
  apply pin_path_absolute in Hp as ->.
  destruct (Z.eqb_spec (access B (root +:+ "/" +:+ MAP_DNS_EGR_FD_STR) (ls_world s)) 0) as [Ha|].
  { apply access_present in Ha. by destruct dns. }
  destruct (Z.eqb_spec (access B (root +:+ "/" +:+ MAP_DNS_EGR_FD_STR) (ls_world s)) ENOENT)
    as [Ha|]; [|lia].
  apply access_absent in Ha. by destruct dns.
Qed.

(** What is pinned after a successful load: every map that is left to pin and is
    not reused from an earlier load. *)
Lemma load_pins desc root mode s s' n : pg_pin_maps desc = true ->
  load_program B dir desc root mode s = (0, s') ->
  n ∈ left_to_pin desc mode (declared (B := B) (pg_obj_path desc)) ->
  n ∉ reuse_names (pg_reuse_maps desc) -> root +:+ "/" +:+ n ∈ P s'.
Proof.
  intros Hm H Hl Hr. destruct (load_has_path _ _ _ _ _ H) as [pin Hp].
  destruct (load_program_effect _ _ _ _ _ _ _ H Hm Hp) as (_ & _ & _ & HP & _).
  apply HP; [done|]. apply elem_of_map. exists n. split; [done|]. by apply elem_of_difference.
Qed.

(** Where the egress DNS map is after the XDP program was loaded. *)
Lemma xdp_pins_dns root mode s s' :
  MAP_DNS_EGR_FD_STR ∈ declared (B := B) (pg_obj_path (main_xdp dir)) ->
  root +:+ "/" +:+ MAP_DNS_EGR_FD_STR ∉ P s ->
  load_program B dir (main_xdp dir) root mode s = (0, s') ->
  root +:+ "/" +:+ MAP_DNS_EGR_FD_STR ∈ P s' <-> lm_dns mode = true.
Proof.
  intros Hd Hn H. split.
  - destruct (load_has_path _ _ _ _ _ H) as [pin Hp].
    destruct (load_program_effect _ _ _ _ _ _ _ H eq_refl Hp) as (_ & _ & _ & HP & _).
    intros Hi. apply HP in Hi; [|done]. apply pin_path_absolute in Hp as ->.
    rewrite !elem_of_union, elem_of_map, elem_of_singleton in Hi.
    destruct Hi as [[?|(n & Hn' & Hin)]|Hx]; [done| |by apply pin_path_inj in Hx].
    apply pin_path_inj in Hn' as <-. revert Hin. unfold left_to_pin.
    destruct (lm_dns mode); [done|]. destruct (_ && _); set_solver.
  - intros Hdns. eapply (load_pins (main_xdp dir)); [done|exact H| |apply not_elem_of_empty].
    unfold left_to_pin. rewrite Hdns. destruct (_ && _); [|done].
    apply elem_of_difference. split; [done|]. by rewrite elem_of_singleton.
Qed.
End pinning.
