(* ===== verification/LoaderClaims.v ===== *)
(** * LoaderClaims: what the commands of the loader promise

    The properties of src/loader/loader.c, from the lemmas of [LoaderSpec], and a
    small file system with libbpf's pinning ([ref_libbpf]) that satisfies
    [LibBpfSpec] and runs the commands. *)

From S2P Require Import Prelude.
From S2P Require Import Kernel.
From S2P Require Import Loader.
From S2P Require Import LoaderSpec.
From stdpp Require Import strings.
Open Scope Z_scope.

(** ** A reference file system

    The existing paths; the open objects with the directory and names of the
    maps that they will pin. *)
Record RefWorld := mkRefWorld {
  rw_paths : gset string;
  rw_dir : gmap nat string;
  rw_maps : gmap nat (gset string)
}.

Definition ref_set_paths (p : gset string) (w : RefWorld) : RefWorld :=
  mkRefWorld p (rw_dir w) (rw_maps w).
Definition ref_dir (o : nat) (w : RefWorld) : string := default EmptyString (rw_dir w !! o).
Definition ref_maps (o : nat) (w : RefWorld) : gset string := default ∅ (rw_maps w !! o).

Definition ref_pin (p : string) (w : RefWorld) : Z * RefWorld :=
  if decide (p ∈ rw_paths w) then (- EEXIST, w)
  else (0, ref_set_paths (rw_paths w ∪ {[p]}) w).

Definition ref_skip_map (o : nat) (n : string) (w : RefWorld) : Z * RefWorld :=
  (0, mkRefWorld (rw_paths w) (rw_dir w) (<[o := ref_maps o w ∖ {[n]}]> (rw_maps w))).

Section reference.
(** The maps that an object file declares. *)
Variable decl : string -> gset string.

Definition ref_open (f : string) (root : option string) (w : RefWorld) : (Z + nat) * RefWorld :=
  let o := size (rw_maps w) in
  (inr o, mkRefWorld (rw_paths w) (<[o := default EmptyString root]> (rw_dir w))
            (<[o := decl f]> (rw_maps w))).

Definition ref_rodata : Rodata :=
  mkRodata true true 1
    (Some [mkVarSecinfo (Some (Some "deployment_mode"%string)) 1 0;
           mkVarSecinfo (Some (Some "dns_mode"%string)) 1 1]) (Some [0; 0]).

Definition ref_libbpf : LibBpf RefWorld := {|
  access := fun p w => if decide (p ∈ rw_paths w) then 0 else ENOENT;
  unlink := fun p w => if decide (p ∈ rw_paths w)
                       then (0, ref_set_paths (rw_paths w ∖ {[p]}) w) else (ENOENT, w);
  if_nametoindex := fun _ _ => inr 2;
  bpf_obj_get := fun p w => (if decide (p ∈ rw_paths w) then 5 else - ENOENT, w);
  bpf_obj_pin := fun _ p w => ref_pin p w;
  bpf_link_create := fun _ _ w => (6, w);
  close_ := fun _ w => w;
  object_open_file := ref_open;
  object_close := fun _ w => w;
  object_find_map := fun _ _ _ => true;
  object_rodata := fun _ _ => ref_rodata;
  object_set_rodata := fun _ _ w => w;
  map_reuse_fd := fun _ _ _ w => (0, w);
  map_clear_pin_path := ref_skip_map;
  map_set_autocreate := ref_skip_map;
  object_find_program := fun _ n _ =>
    if String.eqb n "xfw_xdp" then Some BPF_PROG_TYPE_XDP else Some BPF_PROG_TYPE_SCHED_CLS;
  object_load := fun o w =>
    (0, ref_set_paths (rw_paths w ∪ set_map (fun n => ref_dir o w +:+ "/" +:+ n) (ref_maps o w)) w);
  program_pin := fun _ _ p w => ref_pin p w
|}.

Lemma ref_pin_effect p w e w' : ref_pin p w = (e, w') ->
  if e =? 0 then (p ∉ rw_paths w) /\ (rw_paths w' = rw_paths w ∪ {[p]})
  else rw_paths w' = rw_paths w.
Proof. unfold ref_pin. case_decide; by intros [= <- <-]. Qed.

Lemma ref_skip_maps o n w : ref_maps o (ref_skip_map o n w).2 = ref_maps o w ∖ {[n]}.
Proof. unfold ref_maps at 1. cbn. by rewrite lookup_insert_eq. Qed.

#[export] Program Instance ref_spec : LibBpfSpec ref_libbpf := {|
  paths := rw_paths; pin_dir := ref_dir; to_pin := ref_maps; declared := decl
|}.
Next Obligation. intros p w H. cbn in H. by case_decide. Qed.
Next Obligation. intros p w H. cbn in H. by case_decide. Qed.
Next Obligation. intros p w w' H. cbn in H. case_decide; [|done]. by injection H as <-. Qed.
Next Obligation.
  intros p w e w' H He. cbn in H. case_decide; injection H as <- <-; [done|by split].
Qed.
Next Obligation. by repeat split. Qed.
Next Obligation. by repeat split. Qed.
Next Obligation. by repeat split. Qed.
Next Obligation. done. Qed.
Next Obligation. by repeat split. Qed.
Next Obligation. by repeat split. Qed.
Next Obligation.
  intros o n w. repeat split. cbv [map_clear_pin_path map_set_autocreate ref_libbpf].
  rewrite ref_skip_maps. set_solver.
Qed.
Next Obligation. intros o n w. cbv [map_clear_pin_path ref_libbpf]. by rewrite ref_skip_maps. Qed.
Next Obligation.
  intros o n w. repeat split. cbv [map_clear_pin_path map_set_autocreate ref_libbpf].
  rewrite ref_skip_maps. set_solver.
Qed.
Next Obligation. intros o n w w' H. injection H as <-. apply ref_skip_maps. Qed.
Next Obligation. intros fd p w e w' H. by apply ref_pin_effect. Qed.
Next Obligation. intros o n p w e w' H. by apply ref_pin_effect. Qed.
Next Obligation. done. Qed.
Next Obligation. done. Qed.
Next Obligation.
  intros f root w o w' H. injection H as <- <-. unfold ref_dir, ref_maps. cbn.
  by rewrite !lookup_insert_eq.
Qed.
Next Obligation. intros o w e w' H. injection H as <- <-. cbn. split; [set_solver|done]. Qed.
End reference.

(** ** The properties *)

(** The optional argument that names the mode is accepted exactly for the
    strings of the usage message: a deployment mode, [dns], or both in either
    order separated by a comma; without it the mode is [host] without DNS.  In
    particular no mode is given twice, no token is empty and none is ignored. *)
Lemma load_mode_grammar :
  parse_load_mode None = Some (mkLoadMode LMODE_HOST false)
  /\ forall s m, parse_load_mode (Some s) = Some m <-> mode_grammar s m.
Proof.
  split; [done|]. intros s m. split; [apply parse_load_mode_sound|apply parse_load_mode_complete].
Qed.

(** C33: for every command line, and whatever libbpf, the kernel and the file
    system answer, the process holds at the end exactly the descriptors and
    objects that it held at the start: nothing is leaked on any error path and
    nothing is closed that was not opened. *)
Theorem loader_leaks_nothing {W} (B : LibBpf W) dir argv s :
  ls_held (loader_main B dir argv s).2 = ls_held s.
Proof. apply loader_main_keeps. Qed.

(** A variable of the read-only data is only written if the whole write is
    inside the data, at the offset and with the size that the type information
    gives for it; if both variables are set the object has exactly the chosen
    DNS and deployment modes, and its data has its old size. *)
Lemma rodata_holds_mode vars data d1 d2 dns mode :
  Forall (fun v => 0 <= vs_offset v) vars ->
  (forall v1 v2, find_variable vars "dns_mode" = Some v1 ->
     find_variable vars "deployment_mode" = Some v2 -> vs_offset v1 <> vs_offset v2) ->
  set_rodata_variable vars data "dns_mode" [b2z dns] = (0, d1) ->
  set_rodata_variable vars d1 "deployment_mode" [deployment_mode_z mode] = (0, d2) ->
  variable_value vars d2 "dns_mode" = Some [b2z dns]
  /\ variable_value vars d2 "deployment_mode" = Some [deployment_mode_z mode]
  /\ length d2 = length data.
Proof. apply set_two_variables. Qed.

Lemma rodata_holds_mode_example :
  exists d, set_rodata_variable (default [] (rd_datasec ref_rodata)) [7; 0; 9] "dns_mode" [1]
            = (0, [7; 1; 9])
    /\ set_rodata_variable (default [] (rd_datasec ref_rodata)) [7; 1; 9] "deployment_mode" [2]
       = (0, d)
    /\ length d = 3%nat.
Proof.
  exists [2; 1; 9]. split; [reflexivity|]. split; [reflexivity|].
  apply (rodata_holds_mode (default [] (rd_datasec ref_rodata)) [7; 0; 9] [7; 1; 9] [2; 1; 9]
           true LMODE_SCRUBBER); [repeat constructor; done| |reflexivity|reflexivity].
  intros v1 v2 [= <-] [= <-]. discriminate.
Defined.

Section lifecycle.
Context {W : Type} (B : LibBpf W) `{!LibBpfSpec B}.
Variable dir : string.
Abbreviation P s := (paths (B := B) (ls_world s)).

Lemma second_load_fails desc root mode s pin :
  pg_pin_maps desc = true -> make_pin_path root (pg_prog_pin_name desc) = inr pin ->
  pin ∈ P s -> (load_program B dir desc root mode s).1 <> 0.
Proof.
  intros Hm Hp Hin. destruct (load_program B dir desc root mode s) as [r s'] eqn:H. intros Hr.
  destruct (load_program_effect B dir _ _ _ _ _ _ _ H Hm Hp) as (_ & Hok & _).
  by destruct (Hok Hr).
Qed.

Lemma programs_pin desc : desc ∈ programs dir -> pg_pin_maps desc = true.
Proof. unfold programs. rewrite !elem_of_cons. by intros [->|[->|?%elem_of_nil]]. Qed.

Lemma path_not_map root name (names : gset string) : name ∉ names ->
  root +:+ "/" +:+ name ∉ (set_map (fun n => root +:+ "/" +:+ n) names : gset string).
Proof. intros Hn (m & Hm & Hin)%elem_of_map. apply pin_path_inj in Hm. by subst. Qed.
End lifecycle.

(** C23: the life of a pinned program, for any libbpf with the documented effect on
    paths.  A successful load turns an absent pin into a present one and removes
    nothing; while the pin exists no further load of the program succeeds, in
    any mode; unloading removes the pin, and only it.  A failed load, at
    whichever step it fails, leaves the pin as it was. *)
Theorem pinned_program_lifecycle {W} (B : LibBpf W) `{!LibBpfSpec B} dir desc root mode s r s1 pin :
  desc ∈ programs dir ->
  pg_prog_pin_name desc ∉ declared (B := B) (pg_obj_path desc) ->
  make_pin_path root (pg_prog_pin_name desc) = inr pin ->
  load_program B dir desc root mode s = (r, s1) ->
  let P s := paths (B := B) (ls_world s) in
  (P s ⊆ P s1)
  /\ if r =? 0 then
       (pin ∉ P s) /\ (pin ∈ P s1)
       /\ (forall mode2, (load_program B dir desc root mode2 s1).1 <> 0)
       /\ forall s2, unload_program B desc root s1 = (0, s2) ->
          P s2 = P s1 ∖ {[pin]} /\ P s ⊆ P s2
     else pin ∈ P s1 <-> pin ∈ P s.
Proof.
  intros Hd Hn Hp H P. apply programs_pin in Hd as Hm.
  destruct (load_program_effect B dir _ _ _ _ _ _ _ H Hm Hp) as (Hsub & Hok & Herr & _).
  split; [done|]. destruct (Z.eqb_spec r 0) as [->|Hr].
  - destruct (Hok eq_refl) as [H1 H2]. split; [done|]. split; [done|].
    split; [intros mode2; by eapply second_load_fails|]. intros s2 Hu.
    apply (unload_program_effect B) with (pin := pin) in Hu; [|done]. cbn in Hu.
    split; [done|]. unfold P. set_solver.
  - specialize (Herr Hr). split; [|apply Hsub].
    intros Hi. apply Herr in Hi. apply elem_of_union in Hi as [?|Hi]; [done|].
    apply pin_path_absolute in Hp as ->. by apply path_not_map in Hi.
Qed.

(** C29: after the XDP program was loaded into a directory without the egress DNS
    map, the TC program can only be loaded with the DNS mode of the XDP program:
    the two never run with different ideas of whether egress queries are
    tracked. *)
Theorem dns_modes_agree {W} (B : LibBpf W) `{!LibBpfSpec B} dir root mode1 mode2 s s1 s2 :
  MAP_DNS_EGR_FD_STR ∈ declared (B := B) (pg_obj_path (main_xdp dir)) ->
  root +:+ "/" +:+ MAP_DNS_EGR_FD_STR ∉ paths (B := B) (ls_world s) ->
  load_program B dir (main_xdp dir) root mode1 s = (0, s1) ->
  load_program B dir (main_tc dir) root mode2 s1 = (0, s2) ->
  lm_dns mode2 = lm_dns mode1.
Proof.
  intros Hd Hn H1 H2. pose proof (xdp_pins_dns B dir _ _ _ _ Hd Hn H1) as HX.
  destruct (load_has_path _ _ _ _ _ _ _ H2) as [pin Hp].
  destruct (load_program_effect B dir _ _ _ _ _ _ _ H2 eq_refl Hp) as (_ & _ & _ & _ & Hc).
  specialize (Hc eq_refl eq_refl). apply (dns_check_ok B) in Hc.
  destruct (lm_dns mode1), (lm_dns mode2); naive_solver.
Qed.

(** The commands run on the reference file system, from an empty pin directory. *)
Definition ref_decl (f : string) : gset string :=
  list_to_set (MAP_SYNCOOKIES_STR :: (md_name <$> tc_maps)).
Definition ref_bpf : LibBpf RefWorld := ref_libbpf ref_decl.
Definition ref_root : string := "/sys/fs/bpf/xfw".
Definition ref_start : LoaderSt RefWorld := mkLoaderSt (mkRefWorld {[ref_root]} ∅ ∅) [].
Definition ref_mode : XfwLoadMode := mkLoadMode LMODE_GW true.
Definition ref_loaded : LoaderSt RefWorld :=
  (load_program ref_bpf "/lib" (main_xdp "/lib") ref_root ref_mode ref_start).2.
Definition ref_both : LoaderSt RefWorld :=
  (load_program ref_bpf "/lib" (main_tc "/lib") ref_root ref_mode ref_loaded).2.

Lemma pinned_program_lifecycle_witness :
  load_program ref_bpf "/lib" (main_xdp "/lib") ref_root ref_mode ref_start = (0, ref_loaded)
  /\ rw_paths (ls_world ref_start) ⊆ rw_paths (ls_world ref_loaded)
  /\ (ref_root +:+ "/xdp")%string ∈ rw_paths (ls_world ref_loaded).
Proof.
  assert (load_program ref_bpf "/lib" (main_xdp "/lib") ref_root ref_mode ref_start
          = (0, ref_loaded)) as H by (vm_compute; reflexivity).
  destruct (pinned_program_lifecycle (ref_libbpf ref_decl) "/lib" (main_xdp "/lib") ref_root ref_mode
              ref_start 0 ref_loaded (ref_root +:+ "/xdp")) as (Hs & _ & Hp & _).
  - left.
  - vm_compute. discriminate.
  - vm_compute. reflexivity.
  - exact H.
  - split; [exact H|]. split; [exact Hs|exact Hp].
Defined.

Lemma dns_modes_agree_witness :
  load_program ref_bpf "/lib" (main_xdp "/lib") ref_root ref_mode ref_start = (0, ref_loaded)
  /\ load_program ref_bpf "/lib" (main_tc "/lib") ref_root ref_mode ref_loaded = (0, ref_both)
  /\ lm_dns ref_mode = lm_dns ref_mode.
Proof.
  assert (load_program ref_bpf "/lib" (main_xdp "/lib") ref_root ref_mode ref_start
          = (0, ref_loaded)) as H1 by (vm_compute; reflexivity).
  assert (load_program ref_bpf "/lib" (main_tc "/lib") ref_root ref_mode ref_loaded
          = (0, ref_both)) as H2 by (vm_compute; reflexivity).
  split; [exact H1|]. split; [exact H2|].
  refine (dns_modes_agree (ref_libbpf ref_decl) "/lib" ref_root ref_mode ref_mode ref_start ref_loaded
            ref_both _ _ H1 H2); vm_compute; [reflexivity|discriminate].
Defined.

(** The second witness with the DNS mode off: the TC program is refused. *)
Lemma other_dns_mode_refused :
  (load_program ref_bpf "/lib" (main_tc "/lib") ref_root (mkLoadMode LMODE_GW false)
     ref_loaded).1 = - EINVAL.
Proof. vm_compute. reflexivity. Qed.
