(* ===== verification/MapDecls.v ===== *)
(** * MapDecls: the maps on both sides of the interface

    Every map is written down twice: as a declaration of a BPF program
    (src/bpf: xdp.c, tc.c and the headers they include) and as an object of the
    manager or of the logger that opens the pinned map by its name
    (src/manager/xfw/maps_manager.hh, src/manager/xfw/stats.hh,
    src/logger/incident_log_plugin/incident_log_processor.hh).  Both refer to the
    C types of src/bpf_uapi.  This file has the types with the layout rules of
    the C compiler, the declarations, and the objects; the theorems say that the
    two sides agree. *)

From S2P Require Import Prelude.
From S2P Require Import Enums.
From S2P Require Import Uapi.
From S2P Require Import AnomalyFlags.
From S2P Require Import Guard.
From S2P Require Import Logger.
From S2P Require Import Loader.
From S2P Require Import LoaderSpec.
From S2P Require Import LoaderClaims.
From stdpp Require Import strings pretty.
Open Scope Z_scope.

(** ** C types

    An integer of a number of bytes, aligned to its size; an array; a structure
    with the alignment of its attribute, 1 if it has none. *)
#[warnings="-register-all"]
Inductive CType :=
| CInt (bytes : Z)
| CArr (n : Z) (t : CType)
| CStruct (align : Z) (fields : list CType).

Definition round_up (x a : Z) : Z := (x + a - 1) / a * a.

Fixpoint alignof (t : CType) : Z :=
  match t with
  | CInt b => b
  | CArr _ t => alignof t
  | CStruct a fields => List.fold_right Z.max a (List.map alignof fields)
  end.

Fixpoint sizeof (t : CType) : Z :=
  match t with
  | CInt b => b
  | CArr n t => n * sizeof t
  | CStruct a fields =>
      round_up (List.fold_left (fun off f => round_up off (alignof f) + sizeof f) fields 0)
        (List.fold_right Z.max a (List.map alignof fields))
  end.

(** The bytes that belong to a member; the others are padding. *)
Fixpoint used_bytes (t : CType) : Z :=
  match t with
  | CInt b => b
  | CArr n t => n * used_bytes t
  | CStruct _ fields => List.fold_right Z.add 0 (List.map used_bytes fields)
  end.

Definition no_padding (t : CType) : bool := sizeof t =? used_bytes t.

Definition c_u8 : CType := CInt 1.
Definition c_u16 : CType := CInt 2.
Definition c_u32 : CType := CInt 4.
Definition c_u64 : CType := CInt 8.
Definition c_bool : CType := CInt 1.
Definition c_int : CType := CInt 4.
Definition struct_ : list CType -> CType := CStruct 1.

(** [DECLARE_BITSET64]. *)
Definition c_bitset64 (max_bit : Z) : CType :=
  CStruct 64 [CArr ((max_bit + 1 + 63) / 64) c_u64].

Definition c_XfwPort : CType := c_u16.
Definition c_XfwIp : CType := CArr 4 c_u32.
Definition c_in6_addr : CType := CArr 4 c_u32.

Definition c_XfwSrcRule : CType := struct_ [c_u8; c_u8].
Definition c_XfwRLimitSlot : CType := struct_ [c_u64; c_u64; c_u64].
Definition c_XfwRLimitSlidingWindow : CType := CStruct 64 [CArr 2 c_XfwRLimitSlot].
Definition c_XfwRLimitRule : CType := struct_ [c_u32; c_u8].
Definition c_XfwActionRule : CType := struct_ [c_u8; c_XfwRLimitRule].

Definition c_XfwIpv4LpmKey : CType := struct_ [c_u32; c_u32].
Definition c_XfwIpv6LpmKey : CType := struct_ [c_u32; CArr 4 c_u32].
Definition c_XfwIcmpKey : CType := struct_ [c_u8; c_u8].
Definition c_XfwDstKey : CType := struct_ [c_u8; c_u8; c_XfwPort; c_XfwIp].

Definition c_XfwPacketStats : CType := struct_ [c_u64; c_u64].
Definition c_XfwPerCpuStats : CType :=
  struct_ [CArr (Z.of_nat (length (enum_values (T := XfwPassStat)))) c_XfwPacketStats;
           CArr (Z.of_nat (length (enum_values (T := XfwTxStat)))) c_XfwPacketStats;
           CArr (Z.of_nat (length (enum_values (T := XfwTrafficStat)))) c_XfwPacketStats].

Definition c_XfwRulesCfgTcpAnomaly : CType :=
  struct_ [c_bool; c_bool; c_bool; c_bool; c_u32; c_bitset64 XFW_BIT_CONTROL_MAX].
Definition c_XfwRulesCfgSyncookie : CType := struct_ [c_u64; c_u64; c_bool].
Definition c_XfwRulesCfg : CType :=
  CStruct 8 [struct_ [c_bool]; struct_ [c_bitset64 XFW_SUPPORTED_PROTOCOL_MAX];
             c_XfwRulesCfgSyncookie; c_XfwRulesCfgTcpAnomaly; struct_ [c_bool]; struct_ [c_bool];
             CArr 2 c_XfwActionRule;
             CArr (Z.of_nat (length (enum_values (T := DefaultIndex)))) c_XfwActionRule].
Definition c_XfwPacketRate : CType := struct_ [c_u64; c_u64].
Definition c_XfwRlWindow : CType := struct_ [c_u32; c_u32; c_u32].
Definition c_XfwFilterCfg : CType :=
  struct_ [c_XfwRulesCfg; c_bool; c_u8; c_u8; c_u8; c_u8; c_XfwRlWindow;
           CArr XFW_MAX_NAMED_RATELIMITS c_XfwPacketRate].

Definition c_IncidentLogStat : CType := struct_ [c_u64; c_u64; c_u64].
Definition c_IncidentPerCpuNotifyInfo : CType := CStruct 64 [c_u64; c_u64].
Definition c_IncidentPerCpuBpfOnlyInfo : CType := CStruct 64 [c_u64; c_u64].
Definition c_XfwSockAddr : CType := struct_ [c_XfwIp; c_XfwPort; CArr 2 c_u8].
Definition c_XfwTcpConnState : CType := struct_ [c_u64].
Definition c_XfwTcpSynCookieTs : CType := struct_ [c_u64; c_u64].

(** The sizes that the code asserts: STATIC_ASSERT in types.h, proto_keys.h and
    tcp_auth.h. *)
Lemma asserted_sizes :
  sizeof c_XfwIp = 16 /\ sizeof c_XfwDstKey = 20 /\ sizeof c_XfwSockAddr = 20.
Proof. repeat split. Qed.

(** ** Names *)

Definition REGULAR_MAP_STR (basename : string) : string := "xfw_" +:+ basename.
Definition SHADOW_MAP_STR (basename : string) (idx : nat) : string :=
  "xfw_" +:+ pretty idx +:+ "_" +:+ basename.

Definition MAP_SRC_RATELIM_STR : string := REGULAR_MAP_STR "src_ratelim".
Definition MAP_SRC_PORT_RL_STR : string := REGULAR_MAP_STR "src_port_rl".
Definition MAP_SRC_4_UDP_BASENAME : string := "src_4_udp".
Definition MAP_SRC_4_TCP_BASENAME : string := "src_4_tcp".
Definition MAP_SRC_6_UDP_BASENAME : string := "src_6_udp".
Definition MAP_SRC_6_TCP_BASENAME : string := "src_6_tcp".
Definition MAP_SRC_P_UDP_BASENAME : string := "src_p_udp".
Definition MAP_SRC_P_TCP_BASENAME : string := "src_p_tcp".
Definition MAP_ICMP_BASENAME : string := "icmp".
Definition MAP_DST_BASENAME : string := "dst".
Definition MAP_NET_IP4_BASENAME : string := "net_ip4".
Definition MAP_NET_IP6_BASENAME : string := "net_ip6".

(** ** Declarations of the BPF programs *)

Inductive BpfMapType :=
| BPF_MAP_TYPE_HASH | BPF_MAP_TYPE_LRU_HASH | BPF_MAP_TYPE_LPM_TRIE
| BPF_MAP_TYPE_ARRAY | BPF_MAP_TYPE_PERCPU_ARRAY | BPF_MAP_TYPE_ARRAY_OF_MAPS.

#[export] Instance BpfMapType_eq_dec : EqDecision BpfMapType.
Proof. solve_decision. Defined.

Record MapDecl := mkMapDecl {
  dc_name : string;
  dc_type : BpfMapType;
  dc_key : CType;
  dc_value : CType;
  dc_max_entries : Z;
  dc_pinned : bool
}.

Definition pinned_map (n : string) (t : BpfMapType) (k v : CType) (max : Z) : MapDecl :=
  mkMapDecl n t k v max true.

Definition SHADOW_MAP (basename : string) (t : BpfMapType) (max : Z) (k v : CType)
    : list MapDecl :=
  [pinned_map (SHADOW_MAP_STR basename 0) t k v max;
   pinned_map (SHADOW_MAP_STR basename 1) t k v max].

Definition SHADOW_SRC_IP_MAP (basename : string) (k : CType) : list MapDecl :=
  SHADOW_MAP basename BPF_MAP_TYPE_LPM_TRIE XFW_MAX_SRC_IP_RULES k c_XfwSrcRule.

(** ctx.h *)
Definition cfg_map : MapDecl := pinned_map MAP_CFG_STR BPF_MAP_TYPE_ARRAY c_u32 c_XfwFilterCfg 1.
Definition glbl_stat_map : MapDecl :=
  pinned_map MAP_GLBL_STAT_STR BPF_MAP_TYPE_PERCPU_ARRAY c_u32 c_XfwPerCpuStats 1.

(** filter.h *)
Definition ratelimit_map : MapDecl :=
  pinned_map MAP_RATELIMIT_STR BPF_MAP_TYPE_ARRAY c_u32 c_XfwRLimitSlidingWindow
    XFW_MAX_RATE_LIMITER_BUCKETS.

(** incident_log_maps.h *)
Definition incident_log_map : MapDecl :=
  mkMapDecl MAP_LOG_BASENAME_STR BPF_MAP_TYPE_HASH c_in6_addr c_IncidentLogStat
    MAX_INCIDENTS_PER_CPU false.
Definition log_active_fd_map : MapDecl :=
  pinned_map MAP_LOG_ACTIVE_FD_STR BPF_MAP_TYPE_ARRAY_OF_MAPS c_u32 c_u32 MAX_INCIDENT_CPU.
Definition log_events_map : MapDecl :=
  pinned_map MAP_LOG_EVENTS_STR BPF_MAP_TYPE_PERCPU_ARRAY c_u32 c_IncidentPerCpuNotifyInfo 1.
Definition log_ev_cnt_map : MapDecl :=
  pinned_map MAP_LOG_EV_CNT_STR BPF_MAP_TYPE_PERCPU_ARRAY c_u32 c_IncidentPerCpuBpfOnlyInfo 1.

(** dst.h, dns.h, tcp_auth.h and tcp_syncookies.h *)
Definition dst_maps : list MapDecl :=
  SHADOW_MAP MAP_DST_BASENAME BPF_MAP_TYPE_HASH XFW_MAX_DST_RULES c_XfwDstKey c_XfwActionRule.
Definition dns_egr_map : MapDecl :=
  pinned_map MAP_DNS_EGR_FD_STR BPF_MAP_TYPE_LRU_HASH c_u16 c_u8 XFW_MAX_DNS_QRS_TRACKER_BUCKETS.
Definition tcp_conn_map : MapDecl :=
  pinned_map MAP_TCP_CONN_STR BPF_MAP_TYPE_LRU_HASH c_XfwSockAddr c_XfwTcpConnState
    XFW_MAX_CONCURRENT_TCP_CONNECTIONS.
Definition syncookies_map : MapDecl :=
  pinned_map MAP_SYNCOOKIES_STR BPF_MAP_TYPE_PERCPU_ARRAY c_u32 c_XfwTcpSynCookieTs 1.

(** xdp.c *)
Definition xdp_maps : list MapDecl :=
  SHADOW_SRC_IP_MAP MAP_SRC_4_UDP_BASENAME c_XfwIpv4LpmKey
  ++ SHADOW_SRC_IP_MAP MAP_SRC_4_TCP_BASENAME c_XfwIpv4LpmKey
  ++ SHADOW_SRC_IP_MAP MAP_SRC_6_UDP_BASENAME c_XfwIpv6LpmKey
  ++ SHADOW_SRC_IP_MAP MAP_SRC_6_TCP_BASENAME c_XfwIpv6LpmKey
  ++ SHADOW_MAP MAP_SRC_P_UDP_BASENAME BPF_MAP_TYPE_HASH XFW_MAX_PORTS c_XfwPort c_XfwSrcRule
  ++ SHADOW_MAP MAP_SRC_P_TCP_BASENAME BPF_MAP_TYPE_HASH XFW_MAX_PORTS c_XfwPort c_XfwSrcRule
  ++ SHADOW_MAP MAP_ICMP_BASENAME BPF_MAP_TYPE_HASH XFW_MAX_ICMP_RULES c_XfwIcmpKey
       c_XfwActionRule
  ++ [pinned_map MAP_SRC_RATELIM_STR BPF_MAP_TYPE_LRU_HASH c_XfwIp c_XfwRLimitSlidingWindow
        XFW_MAX_SRC_RATE_LIMITER_BUCKETS;
      pinned_map MAP_SRC_PORT_RL_STR BPF_MAP_TYPE_HASH c_u16 c_XfwRLimitSlidingWindow
        XFW_MAX_PORTS].

(** tc.c *)
Definition net_maps : list MapDecl :=
  SHADOW_MAP MAP_NET_IP4_BASENAME BPF_MAP_TYPE_LPM_TRIE XFW_MAX_PROTECTED_NET_RULES
    c_XfwIpv4LpmKey c_int
  ++ SHADOW_MAP MAP_NET_IP6_BASENAME BPF_MAP_TYPE_LPM_TRIE XFW_MAX_PROTECTED_NET_RULES
       c_XfwIpv6LpmKey c_int.

(** The maps of the two object files, by the headers that they include. *)
Definition shared_maps : list MapDecl :=
  [cfg_map; glbl_stat_map; ratelimit_map; incident_log_map; log_active_fd_map; log_events_map;
   log_ev_cnt_map; dns_egr_map; tcp_conn_map] ++ dst_maps.
Definition xdp_object : list MapDecl := shared_maps ++ syncookies_map :: xdp_maps.
Definition tc_object : list MapDecl := shared_maps ++ net_maps.

Definition pinned_names (l : list MapDecl) : gset string :=
  list_to_set (dc_name <$> List.filter dc_pinned l).

(** What the kernel reports about a map; for a per-CPU map the size of the value
    of one CPU. *)
Definition map_info (d : MapDecl) : MapInfo :=
  mkMapInfo (sizeof (dc_key d)) (sizeof (dc_value d)) (dc_max_entries d).

(** ** Maps opened by the manager and the logger

    The class of the object, with the types of its key and its value.
    [BpfKernelTraits]: the kernel's type of a [BpfPerCpuCounter<T>] is [T]. *)
Inductive ValueType := Scalar (t : CType) | BpfPerCpuCounter (t : CType).

Definition BpfKernelTraits (v : ValueType) : CType :=
  match v with Scalar t => t | BpfPerCpuCounter t => t end.

Inductive MapClass :=
| HashMap (key : CType) (value : ValueType)
| SingleElementMap (value : ValueType)
| MmapedArrayMap (value : CType) (n : Z).

Record OpenedMap := mkOpened { om_name : string; om_class : MapClass }.

Definition shadow_pair (basename : string) (c : MapClass) : list OpenedMap :=
  [mkOpened (SHADOW_MAP_STR basename 0) c; mkOpened (SHADOW_MAP_STR basename 1) c].

(** The members of [MapsManager]. *)
Definition manager_maps : list OpenedMap :=
  [mkOpened MAP_CFG_STR (SingleElementMap (Scalar c_XfwFilterCfg));
   mkOpened MAP_GLBL_STAT_STR (SingleElementMap (BpfPerCpuCounter c_XfwPerCpuStats))]
  ++ shadow_pair MAP_SRC_4_UDP_BASENAME (HashMap c_XfwIpv4LpmKey (Scalar c_XfwSrcRule))
  ++ shadow_pair MAP_SRC_4_TCP_BASENAME (HashMap c_XfwIpv4LpmKey (Scalar c_XfwSrcRule))
  ++ shadow_pair MAP_SRC_6_UDP_BASENAME (HashMap c_XfwIpv6LpmKey (Scalar c_XfwSrcRule))
  ++ shadow_pair MAP_SRC_6_TCP_BASENAME (HashMap c_XfwIpv6LpmKey (Scalar c_XfwSrcRule))
  ++ shadow_pair MAP_SRC_P_UDP_BASENAME (HashMap c_XfwPort (Scalar c_XfwSrcRule))
  ++ shadow_pair MAP_SRC_P_TCP_BASENAME (HashMap c_XfwPort (Scalar c_XfwSrcRule))
  ++ shadow_pair MAP_ICMP_BASENAME (HashMap c_XfwIcmpKey (Scalar c_XfwActionRule))
  ++ shadow_pair MAP_DST_BASENAME (HashMap c_XfwDstKey (Scalar c_XfwActionRule))
  ++ shadow_pair MAP_NET_IP4_BASENAME (HashMap c_XfwIpv4LpmKey (Scalar c_int))
  ++ shadow_pair MAP_NET_IP6_BASENAME (HashMap c_XfwIpv6LpmKey (Scalar c_int))
  ++ [mkOpened MAP_RATELIMIT_STR
        (MmapedArrayMap c_XfwRLimitSlidingWindow XFW_MAX_RATE_LIMITER_BUCKETS)].

(** The members of [IncidentLogProcessor]. *)
Definition logger_maps : list OpenedMap :=
  [mkOpened MAP_LOG_ACTIVE_FD_STR (HashMap c_u32 (Scalar c_u32));
   mkOpened MAP_LOG_EVENTS_STR (SingleElementMap (BpfPerCpuCounter c_IncidentPerCpuNotifyInfo))].

(** The constructor of an object, on the descriptor that [bpf_obj_get] gave and
    the information that the kernel gives for it; [mmap] does not fail. *)
Definition open_map (c : MapClass) (g : nat) (fd : Z) (info : option MapInfo) (s : Store)
    : option (option MapError * Store) :=
  match c with
  | HashMap k v => BpfHashMap (sizeof k) (sizeof (BpfKernelTraits v)) g fd info s
  | SingleElementMap v => BpfSingleElementMap (sizeof (BpfKernelTraits v)) g fd info s
  | MmapedArrayMap v n => BpfMmapedArrayMap (sizeof v) n g fd info true s
  end.

(** The map that [create_incident_map] creates. *)
Definition created_incident_map : BpfMapType * Z * Z * Z :=
  (BPF_MAP_TYPE_HASH, sizeof c_in6_addr, sizeof c_IncidentLogStat, MAX_INCIDENTS_PER_CPU).

(** ** Agreement of the two sides *)

Definition per_cpu_map (t : BpfMapType) : bool :=
  match t with BPF_MAP_TYPE_PERCPU_ARRAY => true | _ => false end.
Definition per_cpu_value (c : MapClass) : bool :=
  match c with
  | HashMap _ (BpfPerCpuCounter _) | SingleElementMap (BpfPerCpuCounter _) => true
  | _ => false
  end.

(** What the constructor of the object verifies, and that the object reads as many
    values as the map has. *)
Definition map_fits (m : OpenedMap) (d : MapDecl) : bool :=
  Bool.eqb (per_cpu_map (dc_type d)) (per_cpu_value (om_class m))
  && match om_class m with
     | HashMap k v =>
         (sizeof (dc_key d) =? sizeof k) && (sizeof (dc_value d) =? sizeof (BpfKernelTraits v))
     | SingleElementMap v =>
         (sizeof (dc_key d) =? 4) && (sizeof (dc_value d) =? sizeof (BpfKernelTraits v))
         && (dc_max_entries d =? 1)
     | MmapedArrayMap v n =>
         (sizeof (dc_key d) =? 4) && (sizeof (dc_value d) =? sizeof v) && (dc_max_entries d =? n)
     end.

Lemma fits_opens m d g fd s : map_fits m d = true -> 0 <= fd ->
  open_map (om_class m) g fd (Some (map_info d)) s
  = Some (None, mkStore (<[g := fd]> (guards s)) (open_fds s ∪ {[fd]})).
Proof.
  unfold map_fits. intros [_ H]%andb_true_iff Hfd. destruct (om_class m) as [k v|v|v n];
    unfold open_map, BpfHashMap, BpfSingleElementMap, BpfMmapedArrayMap, map_ctor, verify_hash,
      verify_array_fixed, verify_kv, get_info, BpfMap_open, FdGuard_ctor;
    rewrite (proj2 (Z.ltb_ge fd 0)) by done; cbn [rsome rbind map_info key_size value_size max_entries];
    repeat (apply andb_true_iff in H as [H ?]);
    repeat match goal with E : (_ =? _) = true |- _ => rewrite E; clear E end; done.
Qed.

Definition all_decls : list MapDecl := xdp_object ++ tc_object.

Definition decl_of (name : string) : option MapDecl :=
  List.find (fun d => String.eqb (dc_name d) name) all_decls.

(** Every object fits the declaration of its name. *)
Lemma opened_fit :
  forallb (fun m => match decl_of (om_name m) with
                    | Some d => dc_pinned d && map_fits m d
                    | None => false
                    end) (manager_maps ++ logger_maps) = true.
Proof. vm_compute. reflexivity. Qed.

Lemma opened_decl m : m ∈ manager_maps ++ logger_maps ->
  exists d, d ∈ all_decls /\ dc_name d = om_name m /\ dc_pinned d = true /\ map_fits m d = true.
Proof.
  intros Hm. pose proof (proj1 (forallb_forall _ _) opened_fit m) as H.
  rewrite <- list_elem_of_In in H. specialize (H Hm). cbv beta in H.
  destruct (decl_of (om_name m)) as [d|] eqn:Hd; [|done]. apply andb_true_iff in H as [H1 H2].
  apply find_some in Hd as [Hi Hn]. exists d. split; [by apply list_elem_of_In|].
  split; [by apply String.eqb_eq|]. by split.
Qed.

(** *** Where the maps are pinned *)

(** Every object is one of XDP's maps, or one of TC's that TC does not reuse; none
    depends on the load mode. *)
Lemma opened_pinned :
  forallb (fun m =>
    let n := om_name m in
    negb (bool_decide (n = MAP_DNS_EGR_FD_STR)) && negb (bool_decide (n = MAP_SYNCOOKIES_STR))
    && (bool_decide (n ∈ pinned_names xdp_object)
        || bool_decide (n ∈ pinned_names tc_object)
           && negb (bool_decide (n ∈ reuse_names tc_maps)))) (manager_maps ++ logger_maps) = true.
Proof. vm_compute. reflexivity. Qed.

Lemma left_other dir desc mode names n : n ∈ names -> n <> MAP_DNS_EGR_FD_STR ->
  n <> MAP_SYNCOOKIES_STR -> n ∈ left_to_pin dir desc mode names.
Proof. unfold left_to_pin. intros. destruct (lm_dns mode), (_ && _); set_solver. Qed.

Lemma opened_is_pinned {W} (B : LibBpf W) `{!LibBpfSpec B} dir root mode1 mode2 s s1 s2 m :
  declared (B := B) (pg_obj_path (main_xdp dir)) = pinned_names xdp_object ->
  declared (B := B) (pg_obj_path (main_tc dir)) = pinned_names tc_object ->
  load_program B dir (main_xdp dir) root mode1 s = (0, s1) ->
  load_program B dir (main_tc dir) root mode2 s1 = (0, s2) ->
  m ∈ manager_maps ++ logger_maps -> root +:+ "/" +:+ om_name m ∈ paths (B := B) (ls_world s2).
Proof.
  intros Dx Dt H1 H2 Hm. pose proof (proj1 (forallb_forall _ _) opened_pinned m) as H.
  rewrite <- list_elem_of_In in H. specialize (H Hm). cbv beta zeta in H.
  apply andb_true_iff in H as [[Hd Hs]%andb_true_iff H].
  apply negb_true_iff, bool_decide_eq_false in Hd, Hs.
  apply orb_true_iff in H as [Hx%bool_decide_eq_true|[Ht%bool_decide_eq_true Hr]%andb_true_iff].
  - destruct (load_has_path _ _ _ _ _ _ _ H2) as [pin Hp].
    destruct (load_program_effect B dir _ _ _ _ _ _ _ H2 eq_refl Hp) as [Hsub _].
    apply Hsub. eapply (load_pins B dir (main_xdp dir)); [done|exact H1| |apply not_elem_of_empty].
    rewrite Dx. by apply left_other.
  - apply negb_true_iff, bool_decide_eq_false in Hr.
    eapply (load_pins B dir (main_tc dir)); [done|exact H2| |exact Hr].
    rewrite Dt. by apply left_other.
Qed.

(** *** Layouts *)

(** The map types whose keys are compared byte by byte. *)
Definition byte_keyed (t : BpfMapType) : bool :=
  match t with
  | BPF_MAP_TYPE_HASH | BPF_MAP_TYPE_LRU_HASH | BPF_MAP_TYPE_LPM_TRIE => true
  | _ => false
  end.

(** The distance of two values of an array, or of the values of two CPUs, in
    the kernel's layout. *)
Definition kernel_stride (t : CType) : Z := round_up (sizeof t) 8.

Definition array_map (t : BpfMapType) : bool :=
  match t with BPF_MAP_TYPE_ARRAY | BPF_MAP_TYPE_PERCPU_ARRAY => true | _ => false end.

Definition layout_ok (d : MapDecl) : bool :=
  (String.length (dc_name d) <? BPF_OBJ_NAME_LEN)%nat
  && implb (byte_keyed (dc_type d)) (no_padding (dc_key d))
  && implb (array_map (dc_type d)) (kernel_stride (dc_value d) =? sizeof (dc_value d)).

Lemma layouts_ok : forallb layout_ok all_decls = true.
Proof. vm_compute. reflexivity. Qed.

Definition CType_eqb : CType -> CType -> bool :=
  fix eqb (a b : CType) {struct a} : bool :=
    match a, b with
    | CInt x, CInt y => x =? y
    | CArr n x, CArr m y => (n =? m) && eqb x y
    | CStruct p xs, CStruct q ys =>
        (p =? q)
        && (fix eqbs (l l' : list CType) {struct l} : bool :=
              match l, l' with
              | [], [] => true
              | x :: l, y :: l' => eqb x y && eqbs l l'
              | _, _ => false
              end) xs ys
    | _, _ => false
    end.

(** Declarations of one name agree in everything that the kernel compares. *)
Definition same_map (d d' : MapDecl) : bool :=
  bool_decide (dc_type d = dc_type d') && CType_eqb (dc_key d) (dc_key d')
  && CType_eqb (dc_value d) (dc_value d') && (dc_max_entries d =? dc_max_entries d')
  && Bool.eqb (dc_pinned d) (dc_pinned d').

Lemma names_agree :
  forallb (fun d => forallb (fun d' =>
    implb (String.eqb (dc_name d) (dc_name d')) (same_map d d')) all_decls) all_decls = true.
Proof. vm_compute. reflexivity. Qed.

Lemma all_decls_forall (f : MapDecl -> bool) d : forallb f all_decls = true -> d ∈ all_decls ->
  f d = true.
Proof. intros H Hd. by apply (proj1 (forallb_forall _ _) H), list_elem_of_In. Qed.

(** ** Properties *)

(** C8: once the loader has loaded the XDP and the TC program into the directory of
    the pins, in whatever modes, every map that the manager and the logger open
    exists there, and is a map of the declared kind: the object's constructor,
    which verifies the sizes of key and value and the number of elements against
    the C++ types, succeeds on it, and the object expects a value per CPU exactly
    if the map has one. *)
Theorem manager_opens_its_maps {W} (B : LibBpf W) `{!LibBpfSpec B} dir mode1 mode2 s s1 s2 m :
  declared (B := B) (pg_obj_path (main_xdp dir)) = pinned_names xdp_object ->
  declared (B := B) (pg_obj_path (main_tc dir)) = pinned_names tc_object ->
  load_program B dir (main_xdp dir) "/sys/fs/bpf/xfw" mode1 s = (0, s1) ->
  load_program B dir (main_tc dir) "/sys/fs/bpf/xfw" mode2 s1 = (0, s2) ->
  m ∈ manager_maps ++ logger_maps ->
  "/sys/fs/bpf/xfw/" +:+ om_name m ∈ paths (B := B) (ls_world s2)
  /\ exists d, d ∈ xdp_object ++ tc_object /\ dc_name d = om_name m /\ dc_pinned d = true
     /\ per_cpu_map (dc_type d) = per_cpu_value (om_class m)
     /\ forall g fd st, 0 <= fd ->
        open_map (om_class m) g fd (Some (map_info d)) st
        = Some (None, mkStore (<[g := fd]> (guards st)) (open_fds st ∪ {[fd]})).
Proof.
  intros Dx Dt H1 H2 Hm. split; [by apply (opened_is_pinned B _ _ _ _ _ _ _ _ Dx Dt H1 H2)|].
  destruct (opened_decl m Hm) as (d & Hd & Hn & Hp & Hf). exists d. split; [done|].
  split; [done|]. split; [done|]. split.
  - apply andb_true_iff in Hf as [Hf _]. by apply eqb_prop.
  - intros g fd st. by apply fits_opens.
Qed.


(** The two programs loaded on the reference file system. *)
Definition both_decl (f : string) : gset string :=
  if String.eqb f "/lib/xdp.o" then pinned_names xdp_object else pinned_names tc_object.
Definition both_bpf : LibBpf RefWorld := ref_libbpf both_decl.
Definition both_xdp : LoaderSt RefWorld :=
  (load_program both_bpf "/lib" (main_xdp "/lib") ref_root ref_mode ref_start).2.
Definition both_tc : LoaderSt RefWorld :=
  (load_program both_bpf "/lib" (main_tc "/lib") ref_root ref_mode both_xdp).2.

Lemma both_decl_xdp : both_decl (pg_obj_path (main_xdp "/lib")) = pinned_names xdp_object.
Proof. reflexivity. Qed.
Lemma both_decl_tc : both_decl (pg_obj_path (main_tc "/lib")) = pinned_names tc_object.
Proof. reflexivity. Qed.

Definition ratelim_map : OpenedMap :=
  mkOpened MAP_RATELIMIT_STR
    (MmapedArrayMap c_XfwRLimitSlidingWindow XFW_MAX_RATE_LIMITER_BUCKETS).

Lemma manager_opens_its_maps_witness :
  load_program both_bpf "/lib" (main_tc "/lib") ref_root ref_mode both_xdp = (0, both_tc)
  /\ "/sys/fs/bpf/xfw/" +:+ om_name ratelim_map ∈ rw_paths (ls_world both_tc).
Proof.
  assert (load_program both_bpf "/lib" (main_xdp "/lib") ref_root ref_mode ref_start
          = (0, both_xdp)) as H1 by (vm_compute; reflexivity).
  assert (load_program both_bpf "/lib" (main_tc "/lib") ref_root ref_mode both_xdp
          = (0, both_tc)) as H2 by (vm_compute; reflexivity).
  assert (ratelim_map ∈ manager_maps ++ logger_maps) as Hm
    by (apply list_elem_of_In; vm_compute; tauto).
  split; [exact H2|].
  destruct (@manager_opens_its_maps _ _ (ref_spec both_decl) "/lib" ref_mode ref_mode ref_start
              both_xdp both_tc ratelim_map both_decl_xdp both_decl_tc H1 H2 Hm) as [Hp _].
  exact Hp.
Defined.
