(* ===== verification/Inet.v ===== *)
(** * Inet: a reader of IP addresses

    The client leaves the text of an address to boost ([BoostIp] of [Cli]). This
    file gives that parameter a value with which the unit tests of the repository
    and the examples can be evaluated: the dotted form of IPv4 and the colon form
    of IPv6 with its abbreviation, as inet_pton reads them, without the form of
    IPv6 that ends in an IPv4 address. *)

From S2P Require Import Prelude.
From S2P Require Import Bitset.
From S2P Require Import LineConsumer.
From S2P Require Import Cli.
From S2P Require Import CliSpec.

Open Scope Z_scope.

(** The parts between the separators. *)
Fixpoint split_on (sep : ascii) (l : text) : list text :=
  match l with
  | [] => [[]]
  | c :: r =>
      let parts := split_on sep r in
      if char_eqb c sep then [] :: parts
      else match parts with p :: ps => (c :: p) :: ps | [] => [[c]] end
  end.

(** The position of the first pair of separators. *)
Fixpoint split_pair (sep : ascii) (l : text) : option (text * text) :=
  match l with
  | c :: r =>
      match r with
      | d :: r' =>
          if char_eqb c sep && char_eqb d sep then Some ([], r')
          else '(a, b) ← split_pair sep r; Some (c :: a, b)
      | [] => None
      end
  | [] => None
  end.

(** A number without a leading zero that fits in a byte. *)
Definition octet (t : text) : option Z :=
  match t with
  | [] => None
  | c :: r =>
      if char_eqb c "0"%char && negb (bool_decide (r = [])) then None
      else match parse_as 8 t with inr n => Some n | inl _ => None end
  end.

Definition hex_digit (c : ascii) : option Z :=
  let n := Z.of_nat (nat_of_ascii c) in
  if (48 <=? n) && (n <=? 57) then Some (n - 48)
  else if (65 <=? n) && (n <=? 70) then Some (n - 55)
  else if (97 <=? n) && (n <=? 102) then Some (n - 87)
  else None.

(** One to four hexadecimal digits, as two bytes in network order. *)
Definition group (t : text) : option (list Z) :=
  if negb ((1 <=? length t)%nat && (length t <=? 4)%nat) then None else
  ds ← mapM hex_digit t;
  let v := fold_left (fun acc d => 16 * acc + d) ds 0 in
  Some [u8 (v / 256); u8 v].

Definition groups (t : text) : option (list (list Z)) :=
  match t with [] => Some [] | _ => mapM group (split_on ":"%char t) end.

Definition inet_pton4 (t : text) : option (list Z) :=
  bytes ← mapM octet (split_on "."%char t);
  if (length bytes =? 4)%nat then Some bytes else None.

Definition inet_pton6 (t : text) : option (list Z) :=
  match split_pair ":"%char t with
  | Some (a, b) =>
      ga ← groups a; gb ← groups b;
      if (length ga + length gb <=? 7)%nat then
        Some (concat (ga ++ replicate (8 - length ga - length gb) [0; 0] ++ gb))
      else None
  | None =>
      gs ← mapM group (split_on ":"%char t);
      if (length gs =? 8)%nat then Some (concat gs) else None
  end.

#[export] Instance inet_boost : BoostIp := {|
  from_string t :=
    match inet_pton4 t with
    | Some b => Some (IP_V4 b)
    | None => IP_V6 <$> inet_pton6 t
    end
|}.

(** ** The documented behaviour *)

Definition is_group (g : list Z) : Prop := length g = 2%nat /\ Forall is_byte g.

Lemma mapM_Forall {A B} (f : A -> option B) (P : B -> Prop) l k :
  (forall x y, f x = Some y -> P y) -> mapM f l = Some k -> Forall P k.
Proof.
  intros Hf Hk%mapM_Some_1. induction Hk; constructor; eauto.
Qed.

Lemma group_ok t g : group t = Some g -> is_group g.
Proof.
  unfold group. destruct (negb _); [done|]. intros (ds & _ & [= <-])%bind_Some.
  split; [done|]. rewrite !list.Forall_cons. auto using u8_byte.
Qed.

Lemma octet_ok t n : octet t = Some n -> is_byte n.
Proof.
  unfold octet, parse_as. destruct t as [|c r]; [done|]. destruct (_ && _); [done|].
  destruct (negb _); [done|]. pose proof (read_digits_nonneg 0 (c :: r)) as Hp.
  destruct (read_digits 0 (c :: r)) as [v rest]. destruct (Z.leb_spec (2 ^ 8) v); [done|].
  destruct rest; intros [= <-]. cbn in *. unfold is_byte. lia.
Qed.

Lemma concat_groups gs : Forall is_group gs -> length (concat gs) = (2 * length gs)%nat /\ Forall is_byte (concat gs).
Proof.
  induction 1 as [|g gs [Hl Hb] _ [IHl IHb]]; [done|]. cbn [concat]. rewrite length_app, Hl, IHl. cbn [length].
  split; [lia|]. by apply Forall_app.
Qed.

Lemma groups_ok t gs : groups t = Some gs -> Forall is_group gs.
Proof.
  unfold groups. destruct t; [by intros [= <-]|]. apply mapM_Forall, group_ok.
Qed.

Lemma inet_pton6_ok t b : inet_pton6 t = Some b -> length b = 16%nat /\ Forall is_byte b.
Proof.
  unfold inet_pton6. destruct (split_pair _ _) as [[u v]|].
  - intros (ga & Ha%groups_ok & (gb & Hb%groups_ok & H)%bind_Some)%bind_Some.
    destruct (Nat.leb_spec (length ga + length gb) 7) as [Hn|]; [|done]. apply (inj Some) in H as <-.
    assert (Hg : Forall is_group (ga ++ replicate (8 - length ga - length gb) [0; 0] ++ gb)).
    { rewrite !Forall_app. repeat split; [done| |done]. apply Forall_replicate. by split; [|repeat constructor]. }
    destruct (concat_groups _ Hg) as [-> Hc]. split; [|done].
    rewrite !length_app, length_replicate. lia.
  - intros (gs & Hg & H)%bind_Some. destruct (Nat.eqb_spec (length gs) 8) as [Hn|]; [|done].
    apply (inj Some) in H as <-. apply mapM_Forall with (P := is_group) in Hg; [|apply group_ok].
    destruct (concat_groups _ Hg) as [-> Hc]. by rewrite Hn.
Qed.

#[export] Instance inet_boost_spec : BoostIpSpec.
Proof.
  split; intros t b; cbn.
  - destruct (inet_pton4 t) as [b'|] eqn:H4; [|by destruct (inet_pton6 t)]. intros [= <-].
    apply bind_Some in H4 as (bs & Hb & H). destruct (Nat.eqb_spec (length bs) 4) as [Hn|]; [|done].
    injection H as <-. split; [done|]. revert Hb. apply mapM_Forall, octet_ok.
  - destruct (inet_pton4 t); [done|]. destruct (inet_pton6 t) as [b'|] eqn:H6; [|done].
    intros [= <-]. by apply (inet_pton6_ok t).
Qed.
