(* ===== verification/ClientTests.v ===== *)
(** * ClientTests: the unit tests of the client, evaluated in the model

    The tests of src/lib/t as executable definitions, one for each TEST or for a
    group of like ones: a test is [true] if all its assertions hold. A text is read by [Cli], a request is built
    by [Serialize], and an address is read by [inet_boost]. That every test passes
    is checked by evaluation, so that the model of the parser and of the serialiser
    agrees with the code wherever the authors wrote down what they expect of it. *)

From S2P Require Import Prelude.
From S2P Require Import Enums.
From S2P Require Import Uapi.
From S2P Require Import Bitset.
From S2P Require Import AnomalyFlags.
From S2P Require Import Proto.
From S2P Require Import ConfigUpdater.
From S2P Require Import Service.
From S2P Require Import LineConsumer.
From S2P Require Import Tcl.
From S2P Require Import Cli.
From S2P Require Import Serialize.
From S2P Require Import Inet.

Open Scope Z_scope.

(** ** What the tests share *)

Definition parses (prog : text) (check : TlProgConf -> bool) : bool :=
  match tcl_parse_full_conf prog with Some conf => check conf | None => false end.

Definition rejects (prog : text) : bool :=
  match tcl_parse_full_conf prog with Some _ => false | None => true end.

Definition parses_xfw (prog : text) (check : XfwConf -> bool) : bool :=
  parses prog (fun conf => match xfw_conf conf with Some x => check x | None => false end).

(** A request with one record, the configuration of the firewall. *)
Definition serializes_xfw (prog : text) (check : XFWCfg -> bool) : bool :=
  parses prog (fun conf =>
    match build_set_config_request conf with
    | inr [RRT_XFW_CFG xfw_cfg] => check xfw_cfg
    | _ => false
    end).

Definition parses_anomaly (prog : text) (check : TcpAnomalyRule -> bool) : bool :=
  parses_xfw prog (fun x => match x_tcp_anomaly x with Some a => check a | None => false end).

(** [bitset_deserialize] *)
Definition with_flags (MaxBit : Z) (field : option (list Z)) (check : list Z -> bool) : bool :=
  match field ≫= bitset_deserialize MaxBit with Some flags => check flags | None => false end.

Definition z_opt_eqb (o : option Z) (z : Z) : bool := bool_decide (o = Some z).
Definition str_eqb (o : option string) (s : string) : bool := bool_decide (o = Some s).

Definition XFW_OPT_BYTES : Z := ((XFWOpt_MAX - XFW_CONFIG_PATCH + 1) + 7) / 8.

(** ** tcp_anomaly.cc *)

Definition append_flag_if_need (bits : Z) (result : text) (flag : string * Z) : text :=
  if Z.land bits flag.2 =? 0 then result
  else (match result with [] => [] | _ => result ++ T "+" end) ++ T flag.1.

Definition flags_to_string (bits : Z) : text :=
  if bits =? 0 then T "0" else
  fold_left (append_flag_if_need bits)
    [("SYN", XFW_BIT_SYN); ("ACK", XFW_BIT_ACK); ("FIN", XFW_BIT_FIN); ("RST", XFW_BIT_RST);
     ("ECE", XFW_BIT_ECE); ("URG", XFW_BIT_URG); ("PSH", XFW_BIT_PSH); ("CWR", XFW_BIT_CWR)] [].

Fixpoint build_bad_flags (combos : list Z) : text :=
  match combos with
  | [] => []
  | [c] => flags_to_string c
  | c :: combos => flags_to_string c ++ T ", " ++ build_bad_flags combos
  end.

(** The features of a rule, in the order of the enumeration. *)
Definition has_features (bad_flags no_options payload seqno : bool) (a : TcpAnomalyRule) : bool :=
  Bool.eqb (BitSet_test XFW_BAD_FLAGS (ta_features a)) bad_flags
  && Bool.eqb (BitSet_test XFW_SYN_WIHOUT_OPTIONS (ta_features a)) no_options
  && Bool.eqb (BitSet_test XFW_SYN_WITH_PAYLOAD (ta_features a)) payload
  && Bool.eqb (BitSet_test XFW_SYN_WITH_SEQ_NO (ta_features a)) seqno.

Definition has_combos (combos : list Z) (a : TcpAnomalyRule) : bool :=
  match ta_bad_tcp_flags a with
  | Some flags => forallb (fun combo => BitSet_test combo flags) combos
  | None => false
  end.

Definition WithoutTcpAnomalyFilter : bool :=
  parses_xfw (T "xfw{}") (fun x => match x_tcp_anomaly x with None => true | Some _ => false end).

Definition WithShortTcpAnomalyFilter : bool :=
  parses_anomaly (T "xfw{tcp_anomaly_filter;}") (fun a =>
    has_features false false false false a
    && match ta_bad_tcp_flags a with None => true | Some _ => false end
    && (ta_seqno_value a =? 0)).

Definition BadFlags_params : list (list Z) :=
  [ [XFW_BIT_NONE]; [XFW_BIT_FIN]; [XFW_BIT_SYN]; [XFW_BIT_RST]; [XFW_BIT_PSH]; [XFW_BIT_ACK];
    [XFW_BIT_URG]; [XFW_BIT_ECE]; [XFW_BIT_CWR];
    [Z.lor XFW_BIT_SYN XFW_BIT_ACK];
    [Z.lor XFW_BIT_FIN XFW_BIT_RST];
    [fold_left Z.lor [XFW_BIT_SYN; XFW_BIT_RST; XFW_BIT_FIN; XFW_BIT_ACK; XFW_BIT_ECE; XFW_BIT_URG;
                      XFW_BIT_PSH; XFW_BIT_CWR] 0];
    [Z.lor XFW_BIT_SYN XFW_BIT_ACK; Z.lor XFW_BIT_FIN XFW_BIT_RST] ].

Definition bad_flags_prog (flags : text) : text :=
  T "xfw{tcp_anomaly_filter bad_flags(" ++ flags ++ T ");}".

Definition InTcpAnomalyFilter (combos : list Z) : bool :=
  parses_anomaly (bad_flags_prog (build_bad_flags combos)) (fun a =>
    has_features true false false false a && has_combos combos a).

Definition WhitespacedBadFlags_params : list (string * list Z) :=
  let syn_ack := Z.lor XFW_BIT_SYN XFW_BIT_ACK in
  let fin_rst := Z.lor XFW_BIT_FIN XFW_BIT_RST in
  [ ("SYN+ACK,FIN+RST", [syn_ack; fin_rst])%string;
    ("SYN + ACK,FIN + RST", [syn_ack; fin_rst])%string;
    ("SYN+ACK , FIN+RST", [syn_ack; fin_rst])%string;
    (" SYN  +  ACK  ,  FIN  +  RST ", [syn_ack; fin_rst])%string;
    ("SYN, SYN + ACK + URG ,FIN  +  RST ", [XFW_BIT_SYN; Z.lor syn_ack XFW_BIT_URG; fin_rst])%string;
    ("SYN + ACK,FIN", [syn_ack; XFW_BIT_FIN])%string ].

Definition SpacesAroundOperators (param : string * list Z) : bool :=
  parses_anomaly (bad_flags_prog (T param.1)) (has_combos param.2).

(** WithNoOptionsInTcpAnomalyFilter, WithPayloadInTcpAnomalyFilter,
    WithNullSeqNumberInTcpAnomalyFilter and WithHugeSeqNumberInTcpAnomalyFilter. *)
Definition OneOptionInTcpAnomalyFilter : list bool :=
  [ parses_anomaly (T "xfw{tcp_anomaly_filter syn_without_opt;}") (has_features false true false false);
    parses_anomaly (T "xfw{tcp_anomaly_filter syn_with_payload;}") (has_features false false true false);
    parses_anomaly (T "xfw{tcp_anomaly_filter syn_with_seqno=0;}") (fun a =>
      has_features false false false true a && (ta_seqno_value a =? 0));
    parses_anomaly (T "xfw{tcp_anomaly_filter syn_with_seqno=4294967295;}") (fun a =>
      has_features false false false true a && (ta_seqno_value a =? 4294967295)) ].

Definition WithIllegalSeqNumberInTcpAnomalyFilter : bool :=
  rejects (T "xfw{tcp_anomaly_filter syn_with_seqno=4294967296;}").

Definition WithTcpAnomalyFilterOnly : bool :=
  serializes_xfw (T "xfw{ tcp_anomaly_filter syn_with_seqno=1050 syn_with_payload syn_without_opt bad_flags(SYN+ACK,SYN); }")
  (fun xfw_cfg => match xc_tcp_anomaly xfw_cfg with
    | None => false
    | Some anomaly =>
        with_flags XFW_BIT_CONTROL_MAX (tm_bad_tcp_flags anomaly) (fun flags =>
          negb (BitSet_test XFW_BIT_NONE flags)
          && BitSet_test (Z.lor XFW_BIT_SYN XFW_BIT_ACK) flags
          && BitSet_test XFW_BIT_SYN flags
          && negb (BitSet_test (Z.lor XFW_BIT_SYN XFW_BIT_RST) flags)
          && negb (BitSet_test XFW_BIT_RST flags))
        && with_flags XFW_TCP_ANOMALY_FEATURE_MAX (tm_features anomaly) (fun features =>
          BitSet_test XFW_BAD_FLAGS features && BitSet_test XFW_SYN_WIHOUT_OPTIONS features
          && BitSet_test XFW_SYN_WITH_PAYLOAD features && BitSet_test XFW_SYN_WITH_SEQ_NO features)
        && (tm_seqno_value anomaly =? 1050)
    end).

Definition tcp_anomaly_tests : list bool :=
  [ WithoutTcpAnomalyFilter; WithShortTcpAnomalyFilter ]
  ++ (InTcpAnomalyFilter <$> BadFlags_params)
  ++ (SpacesAroundOperators <$> WhitespacedBadFlags_params)
  ++ OneOptionInTcpAnomalyFilter
  ++ [ WithIllegalSeqNumberInTcpAnomalyFilter; WithTcpAnomalyFilterOnly ].

Lemma tcp_anomaly_tests_pass : forallb id tcp_anomaly_tests = true.
Proof. vm_compute. reflexivity. Qed.

(** ** intranet.cc *)

Definition net4_is (n : CliNet4) (addr : list Z) (port prefix : Z) : bool :=
  bool_decide (c4_addr n = addr) && (c4_port n =? port) && (c4_prefix n =? prefix).
Definition net6_is (n : CliNet6) (addr : list Z) (port prefix : Z) : bool :=
  bool_decide (c6_addr n = addr) && (c6_port n =? port) && (c6_prefix n =? prefix).
Definition is_nil {A} (l : list A) : bool := match l with [] => true | _ => false end.

Definition RemoveNetWithoutAlias : bool := rejects (T "xfw{net/del;}").

Definition net_flags_are (protected ipv6 tcp src : bool) (r : CliNetRule) : bool :=
  Bool.eqb (cn_test NetRuleAttr_PROTECTED_NET r) protected
  && Bool.eqb (cn_test NetRuleAttr_IPV6 r) ipv6
  && Bool.eqb (cn_test NetRuleAttr_TCP r) tcp
  && Bool.eqb (cn_test NetRuleAttr_SRC r) src.

(** The rule ip4 with 127.0.0.1 and 127.0.0.0/8. *)
Definition is_ip4_net (rule : CliNetRule) : bool :=
  text_eqb (cn_alias rule) (T "ip4") && is_nil (cn_ratelimit rule) && is_nil (cn_net6s rule)
  && match cn_net4s rule with
     | [a; b] => net4_is a [0x7F; 0; 0; 1] 0 32 && net4_is b [0x7F; 0; 0; 0] 0 8
     | _ => false
     end
  && is_nil (cn_nets rule) && is_nil (cn_ports rule) && net_flags_are true false false false rule.

Definition OneNet : bool :=
  parses_xfw (T "xfw{net ip4 {127.0.0.1, 127.0.0.0/8}}") (fun x =>
    match x_net_rules x with [rule] => is_ip4_net rule | _ => false end).

Definition ip6_bytes : list Z :=
  [0x30; 0x01; 0x0d; 0xb8; 0x85; 0xa3; 0; 0; 0; 0; 0x8a; 0x2e; 0x03; 0x70; 0x73; 0x34].

Definition TwoNetsWithoutAlias : bool :=
  parses_xfw (T "xfw{net ip4 {127.0.0.1, 127.0.0.0/8}net ip6 {3001:db8:85a3::8a2e:370:7334/120}}") (fun x =>
    match x_net_rules x with
    | [rule; rule2] =>
        is_ip4_net rule
        && text_eqb (cn_alias rule2) (T "ip6") && is_nil (cn_ratelimit rule2) && is_nil (cn_net4s rule2)
        && is_nil (cn_nets rule2) && is_nil (cn_ports rule2)
        && match cn_net6s rule2 with [n] => net6_is n ip6_bytes 0 120 | _ => false end
        && net_flags_are true true false false rule2
    | _ => false
    end).

Definition RemoveNetWithAlias : bool :=
  parses_xfw (T "xfw{net=ip4/del;}") (fun x =>
    match x_net_rules x with
    | [rule] => text_eqb (cn_alias rule) (T "ip4")
                && cn_test NetRuleAttr_DELETE rule && cn_test NetRuleAttr_PROTECTED_NET rule
    | _ => false
    end).

(** The flags of a rule of the message. *)
Definition rule_flags (rule : NetRule) (check : list Z -> bool) : bool :=
  with_flags NetRuleOpt_MAX (nr_flags rule) check.

Definition WithNetOnly : bool :=
  serializes_xfw (T "xfw{ net ip4 {127.0.0.1, 127.0.0.0/8}net=my_name ip6 {3001:db8:85a3::8a2e:370:7334/120}net=ip6/del; }")
  (fun xfw_cfg => match xc_net_rules xfw_cfg with
    | Some [Some rule0; Some rule1; Some rule2] =>
        str_eqb (nr_alias rule0) "ip4"
        && match nr_net4s rule0 with
           | Some [Some a; Some b] =>
               (m4_port a =? 0) && (m4_prefix a =? 32) && bool_decide (m4_addr a = Some [0x7F; 0; 0; 1])
               && (m4_port b =? 0) && (m4_prefix b =? 8) && bool_decide (m4_addr b = Some [0x7F; 0; 0; 0])
           | _ => false
           end
        && rule_flags rule0 (fun flags =>
             negb (BitSet_test NetRuleOpt_DELETE flags) && BitSet_test NetRuleOpt_PROTECTED_NET flags
             && negb (BitSet_test NetRuleOpt_IPV6 flags))
        && str_eqb (nr_alias rule1) "my_name"
        && match nr_net6s rule1 with
           | Some [Some n] => (m6_port n =? 0) && (m6_prefix n =? 120) && bool_decide (m6_addr n = Some ip6_bytes)
           | _ => false
           end
        && rule_flags rule1 (fun flags =>
             negb (BitSet_test NetRuleOpt_DELETE flags) && BitSet_test NetRuleOpt_PROTECTED_NET flags)
        && str_eqb (nr_alias rule2) "ip6"
        && rule_flags rule2 (fun flags =>
             BitSet_test NetRuleOpt_DELETE flags && BitSet_test NetRuleOpt_PROTECTED_NET flags)
    | _ => false
    end).

Definition intranet_tests : list bool :=
  [ RemoveNetWithoutAlias; OneNet; TwoNetsWithoutAlias; RemoveNetWithAlias; WithNetOnly ].

Lemma intranet_tests_pass : forallb id intranet_tests = true.
Proof. vm_compute. reflexivity. Qed.

(** ** xfw_defaults.cc *)

(** All the rules of the section, in the order of the enumeration. *)
Definition all_defaults (action : string) : text :=
  T "xfw{defaults{"
  ++ concat ((fun rule => T rule ++ T ": " ++ T action ++ T ";" ) <$>
      ["src_ip ip4.tcp"; " src_ip ip6.tcp"; "src_ip ip4.udp"; " src_ip ip6.udp";
       "src_port ip4.tcp"; " src_port ip6.tcp"; "src_port ip4.udp"; " src_port ip6.udp";
       "dst ip4.tcp"; "dst ip6.tcp"; " dst ip4.udp"; "dst ip6.udp"; " icmp ip4"; "icmp ip6"]%string)
  ++ T "}}".

Definition AllRulesInDefaultSection : bool :=
  parses_xfw (all_defaults "allow") (fun x =>
    (Z.of_nat (length (x_defaults x)) =? XFW_DEFAULT_MAX)
    && forallb (fun i => match x_defaults x !! i with
         | Some rule => cd_allow rule && is_nil (cd_ratelimit rule) && BitSet_test (Z.of_nat i) (cd_flags rule)
         | None => false
         end) (seq 0 (Z.to_nat XFW_DEFAULT_MAX))).

(** A configuration with one default rule, the flags that it has and those that it does not. *)
Definition one_default (prog : string) (allow : bool) (ratelimit : text) (set unset : list DefaultIndex) : bool :=
  parses_xfw (T prog) (fun x => match x_defaults x with
    | [rule] =>
        Bool.eqb (cd_allow rule) allow && text_eqb (cd_ratelimit rule) ratelimit
        && forallb (fun i => BitSet_test (Z.of_nat (enum_index i)) (cd_flags rule)) set
        && forallb (fun i => negb (BitSet_test (Z.of_nat (enum_index i)) (cd_flags rule))) unset
    | _ => false
    end).

Definition DefaultSectionWithoutProtoTypeWithoutTransportType : bool :=
  one_default "xfw{defaults{src_ip: block; }}" false []
    [XFW_DEFAULT_SRC_IP_TCP_IP4; XFW_DEFAULT_SRC_IP_TCP_IP6;
     XFW_DEFAULT_SRC_IP_UDP_IP4; XFW_DEFAULT_SRC_IP_UDP_IP6]
    [XFW_DEFAULT_SRC_PORT_TCP_IP4; XFW_DEFAULT_SRC_PORT_TCP_IP6;
     XFW_DEFAULT_SRC_PORT_UDP_IP4; XFW_DEFAULT_SRC_PORT_UDP_IP6;
     XFW_DEFAULT_DST_TCP_IP4; XFW_DEFAULT_DST_TCP_IP6; XFW_DEFAULT_DST_UDP_IP4; XFW_DEFAULT_DST_UDP_IP6;
     XFW_DEFAULT_ICMP_IP4; XFW_DEFAULT_ICMP_IP6].

Definition DefaultSectionWithIp4WithoutTransportProtocol : bool :=
  one_default "xfw{defaults{src_ip ip4: ratelimit = myRatelimit; }}" true (T "myRatelimit")
    [XFW_DEFAULT_SRC_IP_TCP_IP4; XFW_DEFAULT_SRC_IP_UDP_IP4]
    [XFW_DEFAULT_SRC_IP_TCP_IP6; XFW_DEFAULT_SRC_IP_UDP_IP6].

(** DefaultSectionWhenSecondRuleIncludeFirst, DefaultSectionWhenFirstRuleIncludeSecond and
    DefaultSectionWithUnknownName. *)
Definition RejectXfwConfig_defaults : list text :=
  [ T "xfw{defaults{src_ip ip4.tcp: allow; src_ip : allow;}}";
    T "xfw{defaults{src_ip : allow;src_ip ip6.udp: allow; }}";
    T "xfw{defaults{src_prt : allow;}}" ].

Definition DefaultSectionWithIp6WithoutTransportProtocol : bool :=
  one_default "xfw{defaults{src_ip ip6: ratelimit = myRatelimit; }}" true (T "myRatelimit")
    [XFW_DEFAULT_SRC_IP_TCP_IP6; XFW_DEFAULT_SRC_IP_UDP_IP6]
    [XFW_DEFAULT_SRC_IP_TCP_IP4; XFW_DEFAULT_SRC_IP_UDP_IP4].

(** The size of the vector of options. *)
Definition opt_bytes (xfw_cfg : XFWCfg) : bool :=
  match xc_flags xfw_cfg with Some flags => Z.of_nat (length flags) =? XFW_OPT_BYTES | None => false end.

Definition WithDefaultsOnly : bool :=
  serializes_xfw (all_defaults "block") (fun xfw_cfg =>
    opt_bytes xfw_cfg
    && match xc_defaults xfw_cfg with
       | Some rules =>
           (Z.of_nat (length rules) =? XFW_DEFAULT_MAX)
           && forallb (fun i => match rules !! i with
                | Some (Some rule) =>
                    with_flags XFW_DEFAULT_MAX (da_flags rule) (BitSet_test (Z.of_nat i))
                    && negb (da_allow rule)
                    && match da_ratelimit rule with None => true | Some _ => false end
                | _ => false
                end) (seq 0 (Z.to_nat XFW_DEFAULT_MAX))
       | None => false
       end).

Definition defaults_tests : list bool :=
  [ AllRulesInDefaultSection; DefaultSectionWithoutProtoTypeWithoutTransportType;
    DefaultSectionWithIp4WithoutTransportProtocol; DefaultSectionWithIp6WithoutTransportProtocol; WithDefaultsOnly ]
  ++ (rejects <$> RejectXfwConfig_defaults).

Lemma defaults_tests_pass : forallb id defaults_tests = true.
Proof. vm_compute. reflexivity. Qed.

(** ** tcp_flags.cc *)

Definition WithTypeInTcpFlags : bool :=
  parses_xfw (T "xfw{ tcp_flags syn : ratelimit=my_ratelimit;tcp_flags rst :ratelimit=my_ratelimit2; }") (fun x =>
    match x_tcp_flags x with
    | [a; b] => bool_decide (ct_flag a = FT_SYN) && text_eqb (ct_ratelimit a) (T "my_ratelimit")
                && bool_decide (ct_flag b = FT_RST) && text_eqb (ct_ratelimit b) (T "my_ratelimit2")
    | _ => false
    end).

(** A configuration with one rule for [flag]. *)
Definition one_tcp_flag (prog : string) (flag : FlagType) : bool :=
  parses_xfw (T prog) (fun x =>
    match x_tcp_flags x with [a] => bool_decide (ct_flag a = flag) | _ => false end).

Definition WithoutTypeInTcpFlags : bool :=
  one_tcp_flag "xfw{ tcp_flags : ratelimit=my_ratelimit; }" FT_ALL.

Definition WithoutExtraSpacesInTcpFlags : bool :=
  one_tcp_flag "xfw{ tcp_flags rst:ratelimit=my_ratelimit; }" FT_RST.

(** A configuration that turns the options off and has no rule for the flags. *)
Definition tcp_flags_off (prog : string) (opts : list Z) : bool :=
  parses_xfw (T prog) (fun x =>
    forallb (fun opt => BitSet_test opt (x_flags x)) opts && is_nil (x_tcp_flags x)).

(** WithDeleteSynInTcpFlags, WithDeleteRstInTcpFlags and WithDeleteAllInTcpFlags. *)
Definition WithDeleteInTcpFlags : list bool :=
  [ tcp_flags_off "xfw{ tcp_flags/del syn; }" [Opt_TCP_SYN_FLAGS_FILTER_OFF];
    tcp_flags_off "xfw{ tcp_flags/del rst; }" [Opt_TCP_RST_FLAGS_FILTER_OFF];
    tcp_flags_off "xfw{ tcp_flags/del; }" [Opt_TCP_RST_FLAGS_FILTER_OFF; Opt_TCP_SYN_FLAGS_FILTER_OFF] ].

(** WithConflictRuleInTcpFlags, WithUnknownActionInTcpFlags and WithoutRatelimitInTcpFlags. *)
Definition RejectXfwConfig_tcp_flags : list text :=
  [ T "xfw{ tcp_flags syn :ratelimit=my_ratelimit;tcp_flags :ratelimit=my_ratelimit2; }";
    T "xfw{ tcp_flags/add syn :ratelimit=my_ratelimit; }";
    T "xfw{ tcp_flags syn; }" ].

Definition WithTcpFlagsOnly : bool :=
  serializes_xfw (T "xfw{ tcp_flags syn :ratelimit=my_ratelimit;tcp_flags/del rst; }") (fun xfw_cfg =>
    opt_bytes xfw_cfg
    && with_flags XFWOpt_MAX (xc_flags xfw_cfg) (fun cflags =>
         BitSet_test TCP_RST_FLAGS_FILTER_OFF cflags && negb (BitSet_test TCP_SYN_FLAGS_FILTER_OFF cflags))
    && match xc_tcp_flags xfw_cfg with
       | Some [Some rule] => (fm_flag rule =? TcpFlagType_SYN) && str_eqb (fm_ratelimit rule) "my_ratelimit"
       | _ => false
       end).

Definition tcp_flags_tests : list bool :=
  [ WithTypeInTcpFlags; WithoutTypeInTcpFlags; WithoutExtraSpacesInTcpFlags; WithTcpFlagsOnly ]
  ++ WithDeleteInTcpFlags ++ (rejects <$> RejectXfwConfig_tcp_flags).

Lemma tcp_flags_tests_pass : forallb id tcp_flags_tests = true.
Proof. vm_compute. reflexivity. Qed.

(** ** ratelimits.cc *)

(** NonNumericPpsValueInRatelimit, WithPpsValueTooLargeInRatelimit,
    NonNumericBpsValueInRatelimit, EmptyRatelimitName, RatelimitWithoutData and
    WithRepeatedRatelimitName. *)
Definition RejectsXfwConfig_ratelimits : list text :=
  [ T "xfw{ratelimit=rl1 pps=empty bps=10;}";
    T "xfw{ratelimit pps=2345876475756674848576563675 bps=4000;}";
    T "xfw{ratelimit=rl2 pps=10 bps=;}";
    T "xfw{ratelimit pps=10 bps=20;}";
    T "xfw{ratelimit=my_ratelimit;}";
    T "xfw{ratelimit=my_ratelimit/del;ratelimit=my_ratelimit pps=10 bps=20;}" ].

Definition WithFullRatelimit : bool :=
  parses_xfw (T "xfw{ratelimit=my_ratelimit pps=10 bps=20;}") (fun x =>
    match x_ratelimits x with
    | [r] => text_eqb (crl_alias r) (T "my_ratelimit") && z_opt_eqb (crl_pps r) 10 && z_opt_eqb (crl_bps r) 20
             && negb (BitSet_test RatelimitAttr_DELETE (crl_flags r))
    | _ => false
    end).

Definition WithRemoveRatelimit : bool :=
  parses_xfw (T "xfw{ratelimit=my_ratelimit/del;}") (fun x =>
    match x_ratelimits x with
    | [r] => text_eqb (crl_alias r) (T "my_ratelimit") && BitSet_test RatelimitAttr_DELETE (crl_flags r)
    | _ => false
    end).

Definition WithRatelimitsOnly : bool :=
  serializes_xfw (T "xfw{ ratelimit=my_ratelimit/del;ratelimit=my_ratelimit2 pps=18446744073709551614 bps=18446744073709551615; }")
  (fun xfw_cfg => match xc_ratelimits xfw_cfg with
    | Some [Some rule; Some rule2] =>
        str_eqb (rm_alias rule) "my_ratelimit"
        && with_flags RatelimitOpt_MAX (rm_flags rule) (BitSet_test RatelimitOpt_DELETE)
        && str_eqb (rm_alias rule2) "my_ratelimit2"
        && with_flags RatelimitOpt_MAX (rm_flags rule2) (fun flags => negb (BitSet_test RatelimitOpt_DELETE flags))
        && (rm_pps rule2 =? 0xFFFFFFFFFFFFFFFE) && (rm_bps rule2 =? 0xFFFFFFFFFFFFFFFF)
    | _ => false
    end).

Definition ratelimits_tests : list bool :=
  [ WithFullRatelimit; WithRemoveRatelimit; WithRatelimitsOnly ] ++ (rejects <$> RejectsXfwConfig_ratelimits).

Lemma ratelimits_tests_pass : forallb id ratelimits_tests = true.
Proof. vm_compute. reflexivity. Qed.

(** ** ip_proto.cc *)

(** WithUnsupportedProtocolPositive and WithUnsupportedProtocolNegative. *)
Definition RejectsXfwConfig_ip_proto : list text := [ T "xfw{ip_proto {256} }"; T "xfw{ip_proto {-1} }" ].

Definition supported_protocols (protocols : list Z) : bool :=
  forallb (fun p => BitSet_test p protocols)
    [XFW_L4_PROTO_ICMP; XFW_L4_PROTO_GRE; XFW_L4_PROTO_TCP; XFW_L4_PROTO_UDP; XFW_L4_PROTO_ICMPV6].

Definition all_protocols_prog : text :=
  T "xfw{ip_proto {"
  ++ T "1, 2, 3, 4, 5, 6, 7, 8, 9, 10,"
  ++ T "11, 12, 13, 14, 15, 16, 17, 18, 19, 20,"
  ++ T "21, 22, 23, 24, 25, 26, 27, 28, 29, 30,"
  ++ T "41, 42, 43, 44, 45, 46, 47, 48, 49, 50,"
  ++ T "51, 52, 53, 54, 55, 56, 57, 58, 59, 60,"
  ++ T "61, 62, 63, 64, 65, 66, 67, 68, 69, 70,"
  ++ T "81, 82, 83, 84, 85, 86, 87, 88, 89, 90,"
  ++ T "91, 92, 93, 94, 95, 96, 97, 98, 99, 100,"
  ++ T "101, 102, 103, 104, 105, 106, 107, 108, 109, 110,"
  ++ T "111, 112, 113, 114, 115, 116, 117, 118, 119, 120,"
  ++ T "121, 122, 123, 124, 125, 126, 127, 128, 129, 130,"
  ++ T "131, 132, 133, 134, 135, 136, 137, 138, 139, 140,"
  ++ T "141, 142, 143, 144, 145, 146, 147, 148, 149, 150,"
  ++ T "151, 152, 153, 154, 155, 156, 157, 158, 159, 160,"
  ++ T "161, 162, 163, 164, 165, 166, 167, 168, 169, 170,"
  ++ T "171, 172, 173, 174, 175, 176, 177, 178, 179, 180,"
  ++ T "181, 182, 183, 184, 185, 186, 187, 188, 189, 190,"
  ++ T "191, 192, 193, 194, 195, 196, 197, 198, 199, 200,"
  ++ T "201, 202, 203, 204, 205, 206, 207, 208, 209, 210,"
  ++ T "211, 212, 213, 214, 215, 216, 217, 218, 219, 220,"
  ++ T "221, 222, 223, 224, 225, 226, 227, 228, 229, 230,"
  ++ T "231, 232, 233, 234, 235, 236, 237, 238, 239, 240,"
  ++ T "241, 242, 243, 244, 245, 246, 247, 248, 249, 250,"
  ++ T "251, 252, 253, 254, 255"
  ++ T "} }".

Definition WithAllSupportedProtocols : bool :=
  parses_xfw all_protocols_prog (fun x =>
    match x_ip_proto x with Some protocols => supported_protocols protocols | None => false end).

Definition WithIpProtoDeletion : bool :=
  parses_xfw (T "xfw{ip_proto/del; }") (fun x =>
    BitSet_test Opt_IP_PROTO_FILTER_OFF (x_flags x)
    && match x_ip_proto x with None => true | Some _ => false end).

Definition WithIpProtoOnly : bool :=
  serializes_xfw (T "xfw{ ip_proto {1, 6, 17, 47, 58} }") (fun xfw_cfg =>
    match xc_ip_proto xfw_cfg with
    | Some ip_proto => with_flags XFW_SUPPORTED_PROTOCOL_MAX (pm_protocols ip_proto) supported_protocols
    | None => false
    end).

Definition WithoutIpProto : bool :=
  serializes_xfw (T "xfw{ }") (fun xfw_cfg =>
    match xc_ip_proto xfw_cfg with None => true | Some _ => false end).

Definition ip_proto_tests : list bool :=
  [ WithAllSupportedProtocols; WithIpProtoDeletion; WithIpProtoOnly; WithoutIpProto ]
  ++ (rejects <$> RejectsXfwConfig_ip_proto).

Lemma ip_proto_tests_pass : forallb id ip_proto_tests = true.
Proof. vm_compute. reflexivity. Qed.

(** * The tests of whole configurations

    src/lib/t/config_tests.cc, in the way of the other tests: the reading of a
    configuration with all its parts, the texts that are rejected, and the request
    that is built of it. *)

Definition max_tfw : text := T "tfw {srv_group static{ {server 192.168.1.1}}}".
Definition max_tfw_out : text := T "tfw{srv_group static{ {server 192.168.1.1}}}".
Definition max_tl : text :=
  T "tl {" ++ [newline] ++ T "some" ++ [newline] ++ T "program" ++ [newline] ++ T "here" ++ [newline] ++ T "}".
Definition max_xfw : text :=
  T "xfw {"
  ++ T "tcp_syncookies passive_timer=1 flood_timer=5;"
  ++ T "tcp_anomaly_filter; tcp_auth_filter/del;"
  ++ T "ratelimit=my_ratelimit pps=300 bps=1024;"
  ++ T "icmp ip6 : ratelimit=my_ratelimit { 13, 30 }"
  ++ T "dst=dst_name ip4.tcp: ratelimit=my_ratelimit {" ++ [newline] ++ T "255.255.255.255:64," ++ [newline]
  ++ T "127.0.0.1/2" ++ [newline] ++ T "}"
  ++ T "src=my_add/add ip4.tcp {127.0.0.1}"
  ++ T "src=my_del/del ip4.tcp {127.0.0.2}"
  ++ T "src=my_replace/replace ip4.tcp {127.0.0.3}"
  ++ T "src=ports_0 ip4.tcp {:443, :50-52}"
  ++ T "src=ports_1 ip4.tcp { :5000-5002 :4000-4005}"
  ++ T "src=ports_2 ip4.tcp { :6000 - 6002 :7000-7005}"
  ++ T "dns_filter;"
  ++ T "}".

Definition AcceptEmptyConfig : bool :=
  parses [] (fun conf => is_nil (tfw_conf conf) && is_nil (tl_prog_txt conf)
    && match xfw_conf conf with None => true | Some _ => false end).

(** The rule of the section dst of [max_xfw]. *)
Definition is_dst_name (rule : CliNetRule) : bool :=
  text_eqb (cn_alias rule) (T "dst_name") && text_eqb (cn_ratelimit rule) (T "my_ratelimit")
  && is_nil (cn_net6s rule)
  && match cn_net4s rule with
     | [a; b] => net4_is a [0xff; 0xff; 0xff; 0xff] 64 32 && net4_is b [0x7F; 0; 0; 1] 0 2
     | _ => false
     end
  && is_nil (cn_nets rule)
  && negb (cn_test NetRuleAttr_IPV6 rule) && cn_test NetRuleAttr_TCP rule
  && negb (cn_test NetRuleAttr_SRC rule) && cn_test NetRuleAttr_ALLOW rule.

Definition HandlesMaximumData : bool :=
  parses (max_tl ++ max_tfw ++ max_xfw) (fun conf =>
    text_eqb (tfw_conf conf) max_tfw_out && text_eqb (tl_prog_txt conf) max_tl
    && match xfw_conf conf with
       | Some x =>
           match x_syncookie x with
           | Some s => (sk_flood_timer s =? 5) && (sk_passive_timer s =? 1)
           | None => false
           end
           && negb (BitSet_test Opt_TCP_AUTH_FILTER_ON (x_flags x))
           && BitSet_test Opt_TCP_AUTH_FILTER_OFF (x_flags x)
           && negb (BitSet_test Opt_TCP_ANOMALY_FILTER_OFF (x_flags x))
           && (length (x_net_rules x) =? 7)%nat
           && match x_net_rules x with rule :: _ => is_dst_name rule | [] => false end
           && match x_icmp_rules x with
              | [icmp] =>
                  text_eqb (ci_ratelimit icmp) (T "my_ratelimit") && text_eqb (ci_alias icmp) (T "ip6")
                  && bool_decide (ci_types icmp = [13; 30])
                  && BitSet_test IcmpRuleAttr_IPV6 (ci_flags icmp) && BitSet_test IcmpRuleAttr_ALLOW (ci_flags icmp)
                  && BitSet_test IcmpRuleAttr_REPLACE (ci_flags icmp)
              | _ => false
              end
       | None => false
       end).

Definition HandlesIpAsIsoCodeInSrc : bool :=
  parses_xfw (T "xfw {src ip4.udp {uk}}") (fun x =>
    match x_syncookie x with None => true | Some _ => false end
    && negb (BitSet_test Opt_TCP_AUTH_FILTER_ON (x_flags x))
    && match x_net_rules x with
       | [rule] =>
           is_nil (cn_ratelimit rule) && is_nil (cn_net6s rule) && is_nil (cn_net4s rule)
           && match cn_nets rule with
              | [n] => bool_decide (le_split 2 (cc_code n)
                                    = [Z.of_nat (nat_of_ascii "u"); Z.of_nat (nat_of_ascii "k")])
                       && (cc_port n =? 0)
              | _ => false
              end
           && negb (cn_test NetRuleAttr_IPV6 rule) && negb (cn_test NetRuleAttr_TCP rule)
           && cn_test NetRuleAttr_SRC rule
       | _ => false
       end).

(** WithUnknownRootSection, TwoXfwSection, MissingProtocolInSrc and WithUnknownAttribute. *)
Definition RejectsXfwConfig_sections : list text :=
  [ T "tfwa { srv_group static { server 192.168.1.1:8080}}";
    max_tfw ++ max_tfw;
    T "xfw{src{127.0.0.1}}";
    T "xfw{src tcp.ip4{127.0.0.1}}" ].

Definition InvalidPortRange (ports : string) : bool :=
  rejects (T "xfw{dst tcp.ip4 : block {" ++ T ports ++ T "}}").

Definition AllSpacingVariants : list string :=
  [ ":2000-2003-2005"; ":2000 -2003-2005"; ":2000- 2003-2005"; ":2000 - 2003-2005";
    ":2000-2003 -2005"; ":2000 -2003 -2005"; ":2000- 2003 -2005"; ":2000 - 2003 -2005";
    ":2000-2003- 2005"; ":2000 -2003- 2005"; ":2000- 2003- 2005"; ":2000 - 2003- 2005";
    ":2000-2003 - 2005"; ":2000 -2003 - 2005"; ":2000- 2003 - 2005"; ":2000 - 2003 - 2005" ]%string.

(** An address of a source rule over IPv6. *)
Definition src_ip6 (addr : string) : text := T "xfw { src ip6.tcp { " ++ T addr ++ T " } }".

(** WithMaskAndPort, NullPortIsInvalidInDst, the five tests of an address of IPv6,
    DuplicateAliasInSrc and BadIcmpType. *)
Definition RejectsXfwConfig_bodies : list text :=
  [ T "xfw{dst tcp.ip4 : block {127.0.0.1/30:2000}}";
    T "xfw{dst ip4.tcp {127.0.0.1:0}}";
    src_ip6 "[2001:0db8:85a3:0000:0000:8a2e:0370:7334/60]:80";
    src_ip6 "[2001:0db8:85a3:0000:0000:8a2e:0370:7334]/60";
    src_ip6 "[2001:0db8:85a3:0000:0000:8a2e:0370:7334]/60:80";
    src_ip6 "[2001:0db8:85a3:0000:0000:8a2e:0370:7334]:80/60";
    src_ip6 "2001:0db8:85a3:0000:0000:8a2e:0370:7334:80";
    T "xfw{ src=my_list ip4.tcp { 127.0.0.1} src=my_list ip4.tcp { 127.10.0.1} }";
    T "xfw {icmp ip6 : allow { -13, 30 }}" ].

Definition EmptyIcmpTypes : bool := parses (T "xfw {icmp ip6: allow {}}") (fun _ => true).

(** WithDeleteTcpSyncookies, WithEvaluationModeOn and WithEvaluationModeOff. *)
Definition WithOptions : list bool :=
  [ parses_xfw (T "xfw{tcp_syncookies/del;}") (fun x =>
      BitSet_test Opt_TCP_SYNCOOKIE_FILTER_OFF (x_flags x)
      && match x_syncookie x with None => true | Some _ => false end);
    parses_xfw (T "xfw{evaluation_mode;}") (fun x => BitSet_test Opt_EVALUATION_MODE_ON (x_flags x));
    parses_xfw (T "xfw{evaluation_mode/del;}") (fun x =>
      BitSet_test Opt_EVALUATION_MODE_OFF (x_flags x)
      && match x_syncookie x with None => true | Some _ => false end) ].

(** The ports of a rule of the message. *)
Definition ports_are (rule : NetRule) (alias : string) (ports : list (Z * Z)) : bool :=
  str_eqb (nr_alias rule) alias
  && match nr_ports rule with
     | Some l => bool_decide ((fun p => (pp_port p, pp_port_end p)) <$> l = ports)
     | None => false
     end.

(** The edit flags of a rule of the message. *)
Definition edit_flags_are (rule : NetRule) (replace delete : bool) : bool :=
  rule_flags rule (fun flags => Bool.eqb (BitSet_test NetRuleOpt_REPLACE flags) replace
    && Bool.eqb (BitSet_test NetRuleOpt_DELETE flags) delete).

Definition absent {A} (o : option A) : bool := match o with None => true | Some _ => false end.

Definition check_max_rules (rules : list (option NetRule)) : bool :=
  match rules with
  | [Some rule; Some add_rule; Some del_rule; Some repl_rule; Some ports_0; Some ports_1; Some ports_2] =>
      str_eqb (nr_alias rule) "dst_name" && str_eqb (nr_ratelimit rule) "my_ratelimit"
      && absent (nr_net6s rule)
      && match nr_net4s rule with
         | Some [Some a; Some b] =>
             (m4_port a =? 64) && (m4_prefix a =? 32) && bool_decide (m4_addr a = Some [0xff; 0xff; 0xff; 0xff])
             && (m4_port b =? 0) && (m4_prefix b =? 2) && bool_decide (m4_addr b = Some [0x7F; 0; 0; 1])
         | _ => false
         end
      && absent (nr_nets rule) && absent (nr_ports rule)
      && ports_are ports_0 "ports_0" [(443, 0); (50, 52)]
      && ports_are ports_1 "ports_1" [(5000, 5002); (4000, 4005)]
      && ports_are ports_2 "ports_2" [(6000, 6002); (7000, 7005)]
      && rule_flags rule (fun flags => negb (BitSet_test NetRuleOpt_IPV6 flags) && BitSet_test NetRuleOpt_TCP flags
           && negb (BitSet_test NetRuleOpt_SRC flags))
      && edit_flags_are add_rule false false && edit_flags_are del_rule false true
      && edit_flags_are repl_rule true false
      && absent (nr_net6s ports_0) && absent (nr_net4s ports_0) && absent (nr_nets ports_0)
  | _ => false
  end.

Definition check_max_icmp (rules : list (option IcmpRuleMsg)) : bool :=
  match rules with
  | [Some cfg] =>
      str_eqb (im_alias cfg) "ip6" && str_eqb (im_ratelimit cfg) "my_ratelimit"
      && bool_decide (im_types cfg = Some [13; 30])
      && with_flags IcmpRuleOpt_MAX (im_flags cfg) (fun iflags =>
           BitSet_test IcmpRuleOpt_IPV6 iflags && BitSet_test IcmpRuleOpt_ALLOW iflags
           && BitSet_test IcmpRuleOpt_REPLACE iflags)
  | _ => false
  end.

Definition WithMaximumData : bool :=
  parses (max_tl ++ max_tfw ++ max_xfw) (fun conf =>
    match build_set_config_request conf with
    | inr [RRT_TL_OBJ tl_prog; RRT_TFW_CFG tfw_cfg; RRT_XFW_CFG xfw_cfg] =>
        bool_decide (tl_prog = to_string max_tl) && bool_decide (tfw_cfg = to_string max_tfw_out)
        && match xc_syncookie xfw_cfg with
           | Some s => (sm_passive_timer s =? 1) && (sm_flood_timer s =? 5)
           | None => false
           end
        && opt_bytes xfw_cfg
        && with_flags XFWOpt_MAX (xc_flags xfw_cfg) (fun cflags =>
             negb (BitSet_test TCP_AUTH_FILTER_ON cflags) && BitSet_test TCP_AUTH_FILTER_OFF cflags
             && negb (BitSet_test TCP_SYNCOOKIE_FILTER_OFF cflags)
             && negb (BitSet_test TCP_ANOMALY_FILTER_OFF cflags)
             && BitSet_test DNS_FILTER_ON cflags && negb (BitSet_test DNS_FILTER_OFF cflags))
        && match xc_net_rules xfw_cfg with Some rules => check_max_rules rules | None => false end
        && match xc_icmp_rules xfw_cfg with Some rules => check_max_icmp rules | None => false end
    | _ => false
    end).

Definition config_tests : list bool :=
  [ AcceptEmptyConfig; HandlesMaximumData; HandlesIpAsIsoCodeInSrc; EmptyIcmpTypes; WithMaximumData ]
  ++ WithOptions
  ++ (InvalidPortRange <$> AllSpacingVariants)
  ++ (rejects <$> RejectsXfwConfig_sections ++ RejectsXfwConfig_bodies).

Lemma config_tests_pass : forallb id config_tests = true.
Proof. vm_compute. reflexivity. Qed.

(** ** What two of the tests do not show

    InvalidPortRange and WithMaskAndPort name the protocol tcp.ip4, which is not
    one (the last of [RejectsXfwConfig_sections]): the parser stops there and never reads the body,
    so that the tests pass with any body, a correct one included. *)
Lemma port_tests_stop_at_protocol :
  parse_config (T "xfw{dst tcp.ip4 : block {127.0.0.1:2000}}") = inl CE_UNKNOWN_SYMBOLS
  /\ InvalidPortRange ":2000-2003" = true.
Proof. split; vm_compute; reflexivity. Qed.

(** The code does what they mean to test: with the protocol ip4.tcp, in rules of both
    directions, a range with two dashes and a mask with a port are rejected, and
    their correct forms are accepted. *)
Definition two_dashes (section ports : string) : text :=
  T "xfw{" ++ T section ++ T " ip4.tcp : block {" ++ T ports ++ T "}}".

Lemma two_dashes_rejected :
  forallb (fun ports => rejects (two_dashes "dst" ports) && rejects (two_dashes "src" ports)) AllSpacingVariants = true
  /\ rejects (two_dashes "dst" "127.0.0.1/30:2000") = true
  /\ parses (two_dashes "src" ":2000 - 2003") (fun _ => true) = true
  /\ parses (two_dashes "dst" "127.0.0.1:2000") (fun _ => true) = true.
Proof. repeat split; vm_compute; reflexivity. Qed.
