(* ===== verification/ClientDebug.v ===== *)
(** * ClientDebug: the debug output and the errors of the client library

    src/lib/cli/log.hh ([DbgStream]), src/lib/cli/main.cc (the buffer of the last
    error), src/lib/cli/xfw_conf.cc and the printing of a bit set in src/lib/bitset.hh,
    and the functions of the library interface of src/lib/cli/parser.cc with these
    effects. The theorems: the debug output never changes the result of a parse,
    the buffer holds a terminated text, and what a printed bit set does not show. *)

From stdpp Require Import pretty.
From S2P Require Import Prelude.
From S2P Require Import Bitset.
From S2P Require Import LineConsumer.
From S2P Require Import Tcl.
From S2P Require Import Cli.
From S2P Require Import Inet.

Open Scope Z_scope.

(** ** Numbers, flags and strings of a stream *)

Definition out_z (n : Z) : text := T (pretty n).
Definition out_nat (n : nat) : text := T (pretty (N.of_nat n)).
Definition out_bool (b : bool) : text := T (if b then "1" else "0").

(** [operator<<] of a bit set: the bits of each byte from the highest, as long as the
    number of printed bits is below [BitCount]. *)
Definition print_byte (BitCount : nat) (i : nat) (b : Z) : text :=
  concat ((fun k => if (8 * i + k <? BitCount)%nat then out_bool (Z.testbit b (7 - Z.of_nat k)) else []) <$> seq 0 8).
Definition bitset_print (MaxBit : Z) (data : list Z) : text :=
  concat (imap (print_byte (Z.to_nat (MaxBit + 1))) data).

(** ** xfw_conf.cc *)

Definition default_name (alias : text) : text := match alias with [] => T "default" | _ => alias end.
Definition ratelimit_part (r : text) : text := match r with [] => [] | _ => T " obj.ratelimit_=" ++ r end.

Definition print_ratelimit (r : CliRatelimit) : text :=
  T "obj.alias_=" ++ crl_alias r ++ T " obj.flags_=" ++ bitset_print RatelimitAttr_MAX_BIT (crl_flags r)
  ++ T " obj.bps_.size()=" ++ out_z (default 0 (crl_bps r))
  ++ T " obj.pps_.size()=" ++ out_z (default 0 (crl_pps r)).

Definition print_net_rule (r : CliNetRule) : text :=
  T "obj.alias_=" ++ default_name (cn_alias r) ++ T " obj.flags_=" ++ bitset_print NetRuleAttr_MAX_BIT (cn_flags r)
  ++ T " obj.nets_.size()=" ++ out_nat (length (cn_nets r))
  ++ T " obj.net4s_.size()=" ++ out_nat (length (cn_net4s r))
  ++ T " obj.net6s_.size()=" ++ out_nat (length (cn_net6s r))
  ++ T " obj.ports_.size()=" ++ out_nat (length (cn_ports r))
  ++ ratelimit_part (cn_ratelimit r).

Definition print_icmp_rule (r : CliIcmpRule) : text :=
  T "obj.alias_=" ++ default_name (ci_alias r) ++ ratelimit_part (ci_ratelimit r)
  ++ T " obj.flags_=" ++ bitset_print IcmpRuleAttr_MAX_BIT (ci_flags r)
  ++ T " obj.types_.size()=" ++ out_nat (length (ci_types r)).

Definition print_default (d : CliDefaultAction) : text :=
  T "obj.allow_=" ++ out_bool (cd_allow d) ++ ratelimit_part (cd_ratelimit d)
  ++ T " obj.flags_=" ++ bitset_print ConfigUpdater.XFW_DEFAULT_MAX (cd_flags d).

(** The loop over a list of rules; [sep] follows all but the last of them. *)
Fixpoint print_rules {R} (print : R -> text) (sep : text) (rules : list R) : text :=
  match rules with
  | [] => []
  | r :: rest =>
      [tab] ++ T "{" ++ print r
      ++ (match rest with [] => T "}" ++ [newline] | _ => T "}," ++ sep end)
      ++ print_rules print sep rest
  end.

Definition print_xfw_conf (x : XfwConf) : text :=
  (match x_syncookie x with
   | Some s => T "tcp_syncookies: passive_timer=" ++ out_z (sk_passive_timer s)
               ++ T " flood_timer=" ++ out_z (sk_flood_timer s) ++ [newline]
   | None => []
   end)
  ++ T "flags: " ++ bitset_print Opt_MAX_BIT (x_flags x) ++ [newline] ++ T "net_rules_={" ++ [newline]
  ++ print_rules print_net_rule [newline] (x_net_rules x)
  ++ T "}" ++ [newline] ++ T "icmp_rules_={" ++ [newline]
  ++ print_rules print_icmp_rule [newline] (x_icmp_rules x)
  ++ T "}" ++ [newline]
  ++ T "ratelimits: " ++ [newline]
  ++ print_rules print_ratelimit [newline] (x_ratelimits x)
  ++ T "defaults: " ++ [newline]
  ++ print_rules print_default [] (x_defaults x).

(** ** log.hh and main.cc *)

Definition ERR_BUF_SZ : nat := 1024.

(** [dbg] and the standard output, and [err_buf]: what is before its null. *)
Record TclState := mkTclState { debug_ : bool; stdout : text; err_buf : text }.
Definition TclState_init : TclState := mkTclState false [] [].

(** [DbgStream::operator<<] *)
Definition dbg_put (v : text) (s : TclState) : TclState :=
  if debug_ s then mkTclState (debug_ s) (stdout s ++ v) (err_buf s) else s.

Definition tcl_debug (enable : bool) (s : TclState) : TclState :=
  mkTclState enable (stdout s) (err_buf s).

(** [snprintf] of a string into [err_buf]. *)
Definition set_err (what : text) (s : TclState) : TclState :=
  mkTclState (debug_ s) (stdout s) (take (ERR_BUF_SZ - 1) (until [nul] what)).
Definition dump_except (what : text) (s : TclState) : TclState := set_err what s.
Definition dump_unknown_except (s : TclState) : TclState := set_err (T "unknown error") s.
Definition tcl_error_str (s : TclState) : text := err_buf s.

(** [conf] is never null. *)
Definition dbg_print_conf (conf : TlProgConf) (s : TclState) : TclState :=
  let s := dbg_put (T "tfw_conf (" ++ out_nat (length (tfw_conf conf)) ++ T " bytes):" ++ [newline]
    ++ tfw_conf conf ++ [newline; newline]
    ++ T "tl_prog_txt (" ++ out_nat (length (tl_prog_txt conf)) ++ T " bytes):" ++ [newline]
    ++ tl_prog_txt conf ++ [newline; newline]) s in
  let s := match xfw_conf conf with
           | Some x => dbg_put (T "xfw_conf:" ++ [newline] ++ print_xfw_conf x ++ [newline]) s
           | None => s
           end in
  dbg_put [newline] s.

(** ** The interface of the library *)

Section library.
(** The text of an exception of the class [Exception]; [None] is another exception. *)
Context `{BoostIp} (what : CliError -> option text).

(** The handlers of the functions that parse. *)
Definition dump (e : CliError) (s : TclState) : TclState :=
  match what e with Some t => dump_except t s | None => dump_unknown_except s end.

(** [tcl_parse_conf]: null is [None]. A text is printed up to its first null. *)
Definition lib_parse_conf (t : text) (is_patch : bool) (s : TclState) : option TlProgConf * TclState :=
  let s := dbg_put (T "Config text to parse:" ++ [newline] ++ until [nul] t ++ [newline]) s in
  match parse_config t with
  | inl e => (None, dump e s)
  | inr c =>
      let conf := mkTlProgConf (tfw_conf c) (tl_prog_txt c)
        ((if is_patch then x_set Opt_XFW_CONFIG_PATCH else id) <$> xfw_conf c) in
      (Some conf, dbg_print_conf conf s)
  end.

Definition lib_parse_tl (t : text) (s : TclState) : option TlProgConf * TclState :=
  let s := dbg_put (T "TL program to parse:" ++ [newline] ++ until [nul] t ++ [newline]) s in
  match parse_config (T "tl {" ++ [newline] ++ t ++ [newline] ++ T "}") with
  | inl e => (None, dump e s)
  | inr conf => (Some conf, dbg_print_conf conf s)
  end.
End library.

(** ** Properties *)

Lemma dbg_put_off v s : debug_ s = false -> dbg_put v s = s.
Proof. unfold dbg_put. by intros ->. Qed.

Lemma dbg_put_err v s : err_buf (dbg_put v s) = err_buf s /\ debug_ (dbg_put v s) = debug_ s.
Proof. unfold dbg_put. by destruct (debug_ s) eqn:E. Qed.

Lemma dbg_print_err conf s : err_buf (dbg_print_conf conf s) = err_buf s /\ (debug_ s = false -> dbg_print_conf conf s = s).
Proof.
  unfold dbg_print_conf. cbv zeta. split.
  - destruct (xfw_conf conf); repeat rewrite (proj1 (dbg_put_err _ _)); reflexivity.
  - intros Hf. rewrite (dbg_put_off _ s Hf). destruct (xfw_conf conf); rewrite !(dbg_put_off _ s Hf); reflexivity.
Qed.

(** The text of an error is terminated and fits its buffer. *)
Definition err_ok (s : TclState) : Prop := (length (err_buf s) < ERR_BUF_SZ)%nat /\ nul ∉ err_buf s.

Lemma until_nul t : nul ∉ until [nul] t.
Proof.
  induction t as [|c t IH]; [apply not_elem_of_nil|]. cbn [until]. case_bool_decide as Hc; [apply not_elem_of_nil|].
  rewrite elem_of_cons. intros [Hn|Hi]; [|done]. apply Hc. rewrite <- Hn. left.
Qed.

Lemma set_err_ok w s : err_ok (set_err w s).
Proof.
  unfold err_ok, set_err. cbn [err_buf]. split.
  - rewrite length_take. unfold ERR_BUF_SZ. lia.
  - intros Hi%elem_of_take. destruct Hi as (i & Hi & _). by apply (until_nul w), (list_elem_of_lookup_2 _ i).
Qed.

(** What the debug output and the error buffer are: a parse returns the same with and
    without debug output, prints nothing without it, and sets the error of a
    failure, which fits its buffer; a success keeps the error of the past. *)
Lemma lib_parse_conf_spec `{BoostIp} what t is_patch s :
  let '(r, s') := lib_parse_conf what t is_patch s in
  r = tcl_parse_conf t is_patch
  /\ (debug_ s = false -> stdout s' = stdout s)
  /\ (is_Some r -> err_buf s' = err_buf s)
  /\ (err_ok s -> err_ok s').
Proof.
  unfold lib_parse_conf, tcl_parse_conf. set (s1 := dbg_put _ s).
  destruct (dbg_put_err (T "Config text to parse:" ++ [newline] ++ until [nul] t ++ [newline]) s) as [He Hd].
  fold s1 in He, Hd.
  assert (Ho : debug_ s = false -> s1 = s) by apply dbg_put_off.
  destruct (parse_config t) as [e|c]; (split; [done|]).
  - split; [|split].
    + intros Hf. unfold dump, dump_except, dump_unknown_except. rewrite (Ho Hf). by destruct (what e).
    + by intros [? [=]].
    + intros _. unfold dump. destruct (what e); apply set_err_ok.
  - destruct (dbg_print_err (mkTlProgConf (tfw_conf c) (tl_prog_txt c)
      ((if is_patch then x_set Opt_XFW_CONFIG_PATCH else id) <$> xfw_conf c)) s1) as [He1 Hd1].
    split; [|split].
    + intros Hf. rewrite Hd1 by congruence. by rewrite (Ho Hf).
    + intros _. by rewrite He1.
    + unfold err_ok. by rewrite He1, He.
Qed.

(** *** What a printed bit set shows *)

(** The place of a flag among the printed characters. *)
Definition shown (MaxBit flag : Z) : bool := 8 * (flag / 8) + (7 - flag mod 8) <? MaxBit + 1.

Lemma print_byte_agree n i b b' :
  (forall k, (k < 8)%nat -> (8 * i + k < n)%nat -> Z.testbit b (7 - Z.of_nat k) = Z.testbit b' (7 - Z.of_nat k)) ->
  print_byte n i b = print_byte n i b'.
Proof.
  intros Hk. unfold print_byte. f_equal. apply list_fmap_ext. intros j k [-> Hj]%lookup_seq. rewrite Nat.add_0_l.
  destruct (Nat.ltb_spec (8 * i + j) n) as [Hn|Hn]; [|done]. by rewrite Hk by lia.
Qed.

(** A flag whose place is behind the last printed character leaves no trace: the
    sets with and without it are printed alike. *)
Lemma hidden_flag MaxBit flag data : 0 <= flag -> shown MaxBit flag = false -> Forall is_byte data ->
  bitset_print MaxBit (BitSet_set flag data) = bitset_print MaxBit data.
Proof.
  intros Hf Hs%Z.ltb_ge Hb. unfold bitset_print. f_equal. apply list_eq. intros i.
  rewrite !list_lookup_imap. unfold BitSet_set.
  destruct (decide (i = Z.to_nat (flag / 8))) as [->|Hi]; [|by rewrite list_lookup_alter_ne].
  rewrite list_lookup_alter_eq. destruct (data !! Z.to_nat (flag / 8)) as [b|] eqn:Hl; [|done]. cbn. f_equal.
  apply print_byte_agree. intros k Hk Hn.
  unfold u8, wrap. rewrite Z.mod_pow2_bits_low, Z.lor_spec, Z.shiftl_1_l, Z.pow2_bits_false, orb_false_r by dlia. done.
Qed.

(** The flags of a configuration that its debug output does not show: that the filter
    of RST flags was turned off, and the DNS filter on and off; of an ICMP rule, that
    it is one of IPv6, that it allows, and that it replaces; of a rate limit, that
    it is deleted. *)
Lemma hidden_flags :
  filter (fun f => shown Opt_MAX_BIT f = false) (seqZ 0 (Opt_MAX_BIT + 1))
    = [Opt_TCP_RST_FLAGS_FILTER_OFF; Opt_DNS_FILTER_ON; Opt_DNS_FILTER_OFF]
  /\ filter (fun f => shown IcmpRuleAttr_MAX_BIT f = false) (seqZ 0 (IcmpRuleAttr_MAX_BIT + 1))
    = [IcmpRuleAttr_IPV6; IcmpRuleAttr_ALLOW; IcmpRuleAttr_REPLACE]
  /\ shown RatelimitAttr_MAX_BIT RatelimitAttr_DELETE = false.
Proof. repeat split; vm_compute; reflexivity. Qed.
