(* ===== verification/Containers.v ===== *)
(** * Containers: what the containers of the manager rely on, and the benchmarks

    src/lib/enum_array.hh ([EnumArray]), the array indexed by an enumeration that
    holds the default actions of a configuration, and src/manager/xfw/map_key_hash.hh
    with the equality of src/bpf_uapi/proto_keys.h, by which the unordered maps of
    the manager find a key. The rest of the development takes such an array to be a
    function and such a map to be a finite map; here is why it may. The second part
    is the hash of src/benchmarks. *)

From S2P Require Import Prelude.
From S2P Require Import Enums.
From S2P Require Import Uapi.
From S2P Require Import Config.
From S2P Require Import Xxh64.

Open Scope Z_scope.

(** ** enum_array.hh *)

Section enum_array.
Context {E A : Type} `{Enumeration E}.

(** [data], as long as the enumeration has values. *)
Record EnumArray := mkEnumArray { data : list A }.

(** [operator[]] to read and to write; [None] is an access outside the array. *)
Definition EnumArray_at (a : EnumArray) (idx : E) : option A := data a !! enum_index idx.
Definition EnumArray_set (a : EnumArray) (idx : E) (v : A) : option EnumArray :=
  if (enum_index idx <? length (data a))%nat then Some (mkEnumArray (<[enum_index idx := v]> (data a))) else None.

Definition EnumArray_size (a : EnumArray) : nat := length (data a).
Definition EnumArray_front (a : EnumArray) : option A := head (data a).
Definition EnumArray_back (a : EnumArray) : option A := list.last (data a).

(** [data{}]: every element is the default value. *)
Definition EnumArray_init (v : A) : EnumArray := mkEnumArray (replicate (length (enum_values (T := E))) v).

(** The function that an array is. *)
Definition represents (a : EnumArray) (f : E -> A) : Prop := data a = f <$> enum_values.

Definition fn_update `{EqDecision E} (f : E -> A) (e : E) (v : A) : E -> A :=
  fun e' => if decide (e' = e) then v else f e'.

Lemma represents_at a f e : represents a f -> EnumArray_at a e = Some (f e).
Proof. unfold represents, EnumArray_at. intros ->. by rewrite list_lookup_fmap, enum_nth. Qed.

Lemma represents_init v : represents (EnumArray_init v) (fun _ => v).
Proof.
  unfold represents, EnumArray_init. cbn. by rewrite (const_fmap (fun _ : E => v) _ v).
Qed.

(** No access is out of range, and writing an element changes that one only. *)
Lemma represents_set `{EqDecision E} a f e v : NoDup (enum_values (T := E)) -> represents a f ->
  exists a', EnumArray_set a e v = Some a' /\ represents a' (fn_update f e v).
Proof.
  intros Hd Hr. unfold EnumArray_set. pose proof (enum_nth e) as He.
  assert (Hlt : (enum_index e < length (data a))%nat).
  { rewrite Hr, length_fmap. by eapply lookup_lt_Some. }
  rewrite (proj2 (Nat.ltb_lt _ _) Hlt). eexists. split; [done|]. unfold represents in *. cbn. rewrite Hr.
  apply list_eq. intros i. rewrite list_lookup_fmap.
  destruct (decide (i = enum_index e)) as [->|Hi].
  - rewrite list_lookup_insert_eq by (by rewrite <- Hr). rewrite He. cbn. unfold fn_update. by rewrite decide_True.
  - rewrite list_lookup_insert_ne by done. rewrite list_lookup_fmap.
    destruct (enum_values !! i) as [x|] eqn:Hx; [|done]. cbn. unfold fn_update.
    rewrite decide_False; [done|]. intros ->. by destruct Hi; eapply NoDup_lookup.
Qed.
End enum_array.
Arguments EnumArray : clear implicits.

(** [XfwConfig::Defaults] *)
Definition DefaultsArray : Type := EnumArray (option Action).

(** ** map_key_hash.hh *)

Section hash.
(** [std::hash] of the unsigned types of one, two and four bytes; the language fixes
    only that equal values have equal hashes. *)
Variables std_hash8 std_hash16 std_hash32 : Z -> Z.

(** [hash_combine], on a [size_t] of 64 bits. *)
Definition hash_combine (std_hash : Z -> Z) (seed v : Z) : Z :=
  Z.lxor seed (u64 (std_hash v + 0x9e3779b9 + u64 (Z.shiftl seed 6) + Z.shiftr seed 2)).

Definition ip_words (a : XfwIp) : list Z := [addr32_0 a; addr32_1 a; addr32_2 a; addr32_3 a].

Definition XfwIpv4LpmKeyHash (k : XfwIpv4LpmKey) : Z :=
  hash_combine std_hash32 (hash_combine std_hash32 0 (prefixlen4 k)) (lpm_addr4 k).

Definition XfwIpv6LpmKeyHash (k : XfwIpv6LpmKey) : Z :=
  fold_left (hash_combine std_hash32) (ip_words (lpm_addr6 k)) (hash_combine std_hash32 0 (prefixlen6 k)).

Definition XfwDstKeyHash (k : XfwDstKey) : Z :=
  fold_left (hash_combine std_hash32) (ip_words (dst_addr k))
    (hash_combine std_hash16 (hash_combine std_hash8 (hash_combine std_hash8 0 (dst_ipver k)) (dst_proto k))
       (dst_port k)).

Definition XfwIcmpKeyHash (k : XfwIcmpKey) : Z :=
  hash_combine std_hash8 (hash_combine std_hash8 0 (icmp_proto k)) (icmp_type k).

(** The bytes of a key, which [operator==] of [XfwDstKey] compares with memcmp; the
    fields leave no gap ([interface_layout] of [MapDecls]). *)
Definition dst_key_bytes (k : XfwDstKey) : list Z :=
  le_split 1 (dst_ipver k) ++ le_split 1 (dst_proto k) ++ le_split 2 (dst_port k)
  ++ concat (le_split 4 <$> ip_words (dst_addr k)).
Definition XfwDstKey_eqb (k k' : XfwDstKey) : bool := bool_decide (dst_key_bytes k = dst_key_bytes k').

(** The fields within their types. *)
Definition dst_key_typed (k : XfwDstKey) : Prop :=
  0 <= dst_ipver k < 2 ^ 8 /\ 0 <= dst_proto k < 2 ^ 8 /\ 0 <= dst_port k < 2 ^ 16
  /\ Forall (fun w => 0 <= w < 2 ^ 32) (ip_words (dst_addr k)).

Lemma hash_combine_range (std_hash : Z -> Z) seed v : 0 <= seed < 2 ^ 64 -> 0 <= hash_combine std_hash seed v < 2 ^ 64.
Proof.
  intros Hs. unfold hash_combine. apply lxor_word; [exact Hs|]. apply Z.mod_pos_bound. lia.
Qed.

(** Comparing the bytes is comparing the fields. *)
Lemma XfwDstKey_eqb_spec k k' : dst_key_typed k -> dst_key_typed k' ->
  XfwDstKey_eqb k k' = true <-> k = k'.
Proof.
  intros (V & P & Q & W) (V' & P' & Q' & W'). unfold XfwDstKey_eqb. rewrite bool_decide_eq_true.
  split; [|by intros ->]. unfold dst_key_bytes, ip_words in *. cbn [fmap list_fmap concat]. rewrite !app_nil_r.
  rewrite !list.Forall_cons in W, W'. destruct W as (A & B & C & D & _), W' as (A' & B' & C' & D' & _).
  destruct k as [v p q [a b c d]], k' as [v' p' q' [a' b' c' d']].
  cbn [dst_ipver dst_proto dst_port dst_addr addr32_0 addr32_1 addr32_2 addr32_3] in *.
  intros E. repeat (apply app_inj_1 in E; [|by rewrite !length_le_split]; destruct E as [H E];
    apply le_split_inj in H; [subst|lia..]).
  by apply le_split_inj in E as ->.
Qed.
End hash.

(** * The Jenkins hash of the benchmarks

    src/benchmarks/jhash.h, a copy of the hash of the Linux kernel against which the
    benchmarks measure XXH64, and the loops of src/benchmarks/benchmark.cc. The
    theorems: the version for words and the one for a fixed number of words compute
    the hash of the same bytes as the general one, the mixing is reversible as its
    comment says, and a benchmark stays within its table. *)

Definition rol32 (word shift : Z) : Z :=
  Z.lor (u32 (Z.shiftl word shift)) (Z.shiftr word (32 - shift)).

Definition __get_unaligned_cpu32 (p : list Z) : Z :=
  match p with
  | b0 :: b1 :: b2 :: b3 :: _ =>
      Z.lor (Z.lor (Z.lor b0 (u32 (Z.shiftl b1 8))) (u32 (Z.shiftl b2 16))) (u32 (Z.shiftl b3 24))
  | _ => 0
  end.

(** One line of [__jhash_mix]: x -= z; x ^= rol32(z, k); z += y. *)
Definition mix_line (k x y z : Z) : Z * Z :=
  let x := u32 (x - z) in
  let x := Z.lxor x (rol32 z k) in
  (x, u32 (z + y)).

Definition __jhash_mix (a b c : Z) : Z * Z * Z :=
  let '(a, c) := mix_line 4 a b c in
  let '(b, a) := mix_line 6 b c a in
  let '(c, b) := mix_line 8 c a b in
  let '(a, c) := mix_line 16 a b c in
  let '(b, a) := mix_line 19 b c a in
  let '(c, b) := mix_line 4 c a b in
  (a, b, c).

(** One line of [__jhash_final]: x ^= y; x -= rol32(y, k). *)
Definition final_line (k x y : Z) : Z := u32 (Z.lxor x y - rol32 y k).

Definition __jhash_final (a b c : Z) : Z * Z * Z :=
  let c := final_line 14 c b in
  let a := final_line 11 a c in
  let b := final_line 25 b a in
  let c := final_line 16 c b in
  let a := final_line 4 a c in
  let b := final_line 14 b a in
  let c := final_line 24 c b in
  (a, b, c).

Definition JHASH_INITVAL : Z := 0xdeadbeef.

(** ** jhash

    The key is the list of its bytes. Every turn of the loop takes twelve of them,
    so that their number bounds the turns. *)
Fixpoint jhash_blocks (fuel : nat) (a b c : Z) (k : list Z) : Z * Z * Z * list Z :=
  match fuel with
  | O => (a, b, c, k)
  | S fuel =>
      if (12 <? length k)%nat then
        let a := u32 (a + __get_unaligned_cpu32 k) in
        let b := u32 (b + __get_unaligned_cpu32 (drop 4 k)) in
        let c := u32 (c + __get_unaligned_cpu32 (drop 8 k)) in
        let '(a, b, c) := __jhash_mix a b c in
        jhash_blocks fuel a b c (drop 12 k)
      else (a, b, c, k)
  end.

(** The cases of the switch, from the last byte down to the first. *)
Definition add_byte (s : Z * Z * Z) (ib : nat * Z) : Z * Z * Z :=
  let '(a, b, c) := s in
  let v := u32 (Z.shiftl ib.2 (8 * Z.of_nat (ib.1 mod 4))) in
  match (ib.1 / 4)%nat with
  | O => (u32 (a + v), b, c)
  | 1%nat => (a, u32 (b + v), c)
  | _ => (a, b, u32 (c + v))
  end.
Definition add_tail (s : Z * Z * Z) (k : list Z) : Z * Z * Z :=
  fold_left add_byte (rev (imap pair k)) s.

Definition jhash (key : list Z) (initval : Z) : Z :=
  let i := u32 (JHASH_INITVAL + Z.of_nat (length key) + initval) in
  let '(a, b, c, k) := jhash_blocks (length key) i i i key in
  match k with
  | [] => c
  | _ => let '(a, b, c) := add_tail (a, b, c) k in (__jhash_final a b c).2
  end.

(** ** jhash2 *)

(** A turn of the loop, and the cases of the switch. *)
Definition mix_words (s : Z * Z * Z) (k0 k1 k2 : Z) : Z * Z * Z :=
  let '(a, b, c) := s in __jhash_mix (u32 (a + k0)) (u32 (b + k1)) (u32 (c + k2)).
Definition tail_words (s : Z * Z * Z) (k : list Z) : Z :=
  let '(a, b, c) := s in
  match k with
  | [] => c
  | [k0] => (__jhash_final (u32 (a + k0)) b c).2
  | [k0; k1] => (__jhash_final (u32 (a + k0)) (u32 (b + k1)) c).2
  | k0 :: k1 :: k2 :: _ => (__jhash_final (u32 (a + k0)) (u32 (b + k1)) (u32 (c + k2))).2
  end.

Fixpoint jhash2_loop (s : Z * Z * Z) (k : list Z) : Z :=
  match k with
  | k0 :: k1 :: k2 :: ((_ :: _) as r) => jhash2_loop (mix_words s k0 k1 k2) r
  | _ => tail_words s k
  end.

Definition jhash2 (k : list Z) (initval : Z) : Z :=
  let i := u32 (JHASH_INITVAL + Z.shiftl (Z.of_nat (length k)) 2 + initval) in
  jhash2_loop (i, i, i) k.

Definition __jhash_nwords (a b c initval : Z) : Z :=
  (__jhash_final (u32 (a + initval)) (u32 (b + initval)) (u32 (c + initval))).2.
Definition jhash_3words (a b c initval : Z) : Z :=
  __jhash_nwords a b c (u32 (initval + JHASH_INITVAL + Z.shiftl 3 2)).
Definition jhash_2words (a b initval : Z) : Z :=
  __jhash_nwords a b 0 (u32 (initval + JHASH_INITVAL + Z.shiftl 2 2)).
Definition jhash_1word (a initval : Z) : Z :=
  __jhash_nwords a 0 0 (u32 (initval + JHASH_INITVAL + Z.shiftl 1 2)).

(** ** Words and bytes *)

Definition word32 (x : Z) : Prop := 0 <= x < 2 ^ 32.

(** The bytes of an array of words in memory. *)
Definition word_bytes (ws : list Z) : list Z := concat (le_split 4 <$> ws).

(** The fields of a word. *)
Lemma lor_bytes b0 b1 b2 b3 : is_byte b0 -> is_byte b1 -> is_byte b2 -> is_byte b3 ->
  Z.lor (Z.lor (Z.lor b0 (u32 (Z.shiftl b1 8))) (u32 (Z.shiftl b2 16))) (u32 (Z.shiftl b3 24))
  = b0 + 2 ^ 8 * b1 + 2 ^ 16 * b2 + 2 ^ 24 * b3.
Proof.
  unfold is_byte. intros H0 H1 H2 H3.
  rewrite !wrap_small by (rewrite Z.shiftl_mul_pow2 by lia; lia).
  rewrite (lor_low_high b0 b1), (lor_low_high _ b2), (lor_low_high _ b3) by lia. lia.
Qed.

Lemma get_unaligned w rest : word32 w -> __get_unaligned_cpu32 (le_split 4 w ++ rest) = w.
Proof.
  unfold word32. intros Hw. cbn [le_split app __get_unaligned_cpu32].
  rewrite lor_bytes by (unfold is_byte; dlia). dlia.
Qed.

(** The tail of the bytes is the tail of the words. *)
Lemma tail_word a w : word32 w ->
  u32 (u32 (u32 (u32 (a + u32 (Z.shiftl (w / 256 / 256 / 256 mod 256) 24))
    + u32 (Z.shiftl (w / 256 / 256 mod 256) 16)) + u32 (Z.shiftl (w / 256 mod 256) 8)) + u32 (Z.shiftl (w mod 256) 0))
  = u32 (a + w).
Proof.
  unfold word32. intros Hw. repeat rewrite wrap_add_idemp_l, <- ?Z.add_assoc.
  rewrite !(wrap_small 32 (Z.shiftl _ _)) by (rewrite Z.shiftl_mul_pow2 by lia; dlia).
  rewrite !Z.shiftl_mul_pow2 by lia. f_equal. dlia.
Qed.

Lemma word_bytes_cons w ws : word_bytes (w :: ws) = le_split 4 w ++ word_bytes ws.
Proof. done. Qed.

Lemma length_word_bytes ws : length (word_bytes ws) = (4 * length ws)%nat.
Proof. induction ws as [|w ws IH]; [done|]. rewrite word_bytes_cons, length_app, length_le_split, IH. cbn [length]. lia. Qed.

Lemma add_tail_words a b c ws : Forall word32 ws -> (length ws <= 3)%nat ->
  add_tail (a, b, c) (word_bytes ws)
  = match ws with
    | [] => (a, b, c)
    | [k0] => (u32 (a + k0), b, c)
    | [k0; k1] => (u32 (a + k0), u32 (b + k1), c)
    | k0 :: k1 :: k2 :: _ => (u32 (a + k0), u32 (b + k1), u32 (c + k2))
    end.
Proof.
  intros Hw Hl. destruct ws as [|k0 [|k1 [|k2 [|k3 ws]]]]; cbn [length] in Hl; [done| | |..|lia];
    rewrite !list.Forall_cons in Hw; destruct Hw as (H0 & Hw); [|destruct Hw as (H1 & Hw)..];
    [| |destruct Hw as (H2 & Hw)].
  - rewrite <- (tail_word a k0) by done. reflexivity.
  - rewrite <- (tail_word a k0), <- (tail_word b k1) by done. reflexivity.
  - rewrite <- (tail_word a k0), <- (tail_word b k1), <- (tail_word c k2) by done. reflexivity.
Qed.

Lemma drop_word_bytes n ws : drop (4 * n) (word_bytes ws) = word_bytes (drop n ws).
Proof.
  revert ws. induction n as [|n IH]; intros ws; [done|]. destruct ws as [|w ws]; [by rewrite drop_nil|].
  rewrite word_bytes_cons. replace (4 * S n)%nat with (length (le_split 4 w) + 4 * n)%nat
    by (rewrite length_le_split; lia). rewrite drop_app_add. apply IH.
Qed.

(** The loops take the same words. *)
Lemma jhash_blocks_words fuel a b c ws : Forall word32 ws -> (length ws <= fuel)%nat ->
  let '(a', b', c', k) := jhash_blocks fuel a b c (word_bytes ws) in
  (match k with [] => c' | _ => let '(a, b, c) := add_tail (a', b', c') k in (__jhash_final a b c).2 end)
  = jhash2_loop (a, b, c) ws.
Proof.
  revert a b c ws. induction fuel as [|fuel IH]; intros a b c ws Hw Hl.
  { by destruct ws; [|cbn in Hl; lia]. }
  cbn [jhash_blocks]. rewrite length_word_bytes. destruct (Nat.ltb_spec 12 (4 * length ws)) as [Hn|Hn].
  - destruct ws as [|k0 [|k1 [|k2 [|k3 ws]]]]; cbn [length] in *; try lia.
    rewrite (drop_word_bytes 1), (drop_word_bytes 2), (drop_word_bytes 3). cbn [drop].
    rewrite !list.Forall_cons in Hw. destruct Hw as (H0 & H1 & H2 & H3 & Hw).
    rewrite !word_bytes_cons, !get_unaligned by done. rewrite <- word_bytes_cons.
    cbn [jhash2_loop mix_words]. destruct (__jhash_mix _ _ _) as [[a' b'] c']. apply IH; [by constructor|cbn [length]; lia].
  - rewrite (add_tail_words a b c ws) by (done || lia).
    destruct ws as [|k0 [|k1 [|k2 [|k3 ws]]]]; cbn [jhash2_loop tail_words];
      [reflexivity..|]. cbn [length] in Hn. lia.
Qed.

(** jhash2 is jhash of the bytes of the words. *)
Lemma jhash2_is_jhash ws initval : Forall word32 ws -> jhash (word_bytes ws) initval = jhash2 ws initval.
Proof.
  intros Hw. unfold jhash, jhash2. rewrite length_word_bytes, Z.shiftl_mul_pow2 by lia.
  replace (Z.of_nat (4 * length ws)) with (Z.of_nat (length ws) * 2 ^ 2) by lia.
  set (i := u32 _). pose proof (jhash_blocks_words (4 * length ws) i i i ws Hw) as Hb.
  destruct (jhash_blocks _ i i i _) as [[[a b] c] k]. apply Hb. lia.
Qed.

(** The functions for one, two and three words are jhash2 of them. *)
Lemma jhash_nwords_is_jhash2 a b c initval :
  jhash_3words a b c initval = jhash2 [a; b; c] initval
  /\ jhash_2words a b initval = jhash2 [a; b] initval
  /\ jhash_1word a initval = jhash2 [a] initval.
Proof.
  unfold jhash_3words, jhash_2words, jhash_1word, jhash2, __jhash_nwords.
  assert (Hi : forall n, u32 (initval + JHASH_INITVAL + n) = u32 (JHASH_INITVAL + n + initval)) by (intros; f_equal; lia).
  assert (Hz : forall x, u32 (0 + u32 x) = u32 x) by (intros; apply wrap_small, wrap_range; lia).
  rewrite !Hi, !Hz. cbn [length jhash2_loop tail_words]. change (Z.of_nat 3) with 3. change (Z.of_nat 2) with 2.
  change (Z.of_nat 1) with 1. rewrite !(Z.add_comm _ (u32 _)). done.
Qed.

(** ** The mixing is reversible *)

Lemma lxor_word32 x y : word32 x -> word32 y -> word32 (Z.lxor x y).
Proof.
  intros Hx Hy. assert (0 <= Z.lxor x y) as H0 by (apply Z.lxor_nonneg; unfold word32 in *; lia).
  split; [done|]. apply Z.nle_gt. intros Hc.
  assert (Hb : Z.testbit (Z.lxor x y) (Z.log2 (Z.lxor x y)) = true) by (apply Z.bit_log2; lia).
  assert (Hl : 32 <= Z.log2 (Z.lxor x y)) by (by apply Z.log2_le_pow2; lia).
  rewrite Z.lxor_spec, !(testbit_above _ 32) in Hb by done. done.
Qed.

Lemma u32_word x : word32 (u32 x).
Proof. by apply wrap_range. Qed.

Lemma rol32_word x k : 0 < k < 32 -> word32 x -> word32 (rol32 x k).
Proof.
  intros Hk Hx. unfold rol32. assert (Hs : word32 (Z.shiftr x (32 - k))).
  { unfold word32 in *. rewrite Z.shiftr_div_pow2 by lia. split; [apply Z.div_pos; lia|].
    apply Z.div_lt_upper_bound; [lia|]. nia. }
  pose proof (u32_word (Z.shiftl x k)) as Hu. unfold word32 in *.
  split; [apply Z.lor_nonneg; lia|]. apply Z.nle_gt. intros Hc. set (z := Z.lor _ _) in *.
  assert (Hb : Z.testbit z (Z.log2 z) = true) by (apply Z.bit_log2; lia).
  assert (Hl : 32 <= Z.log2 z) by (by apply Z.log2_le_pow2; lia).
  unfold z in Hb at 1. rewrite Z.lor_spec, !(testbit_above _ 32) in Hb by done. done.
Qed.

Lemma mix_line_word k x y z : 0 < k < 32 -> word32 z -> word32 (mix_line k x y z).1 /\ word32 (mix_line k x y z).2.
Proof. intros Hk Hz. split; [|apply u32_word]. apply lxor_word32; [apply u32_word|by apply rol32_word]. Qed.

Lemma u32_add_inj y a b : word32 a -> word32 b -> u32 (a + y) = u32 (b + y) -> a = b.
Proof.
  unfold word32, wrap. intros Ha Hb E.
  rewrite <- (Z.mod_small a (2 ^ 32)), <- (Z.mod_small b (2 ^ 32)) by done.
  replace a with (a + y - y) by lia. replace b with (b + y - y) by lia.
  by rewrite Zminus_mod, E, <- Zminus_mod.
Qed.

(** A line is undone: the other two words give the first back. *)
Lemma mix_line_inj k x y z x' z' : word32 x -> word32 z -> word32 x' -> word32 z' ->
  mix_line k x y z = mix_line k x' y z' -> x = x' /\ z = z'.
Proof.
  unfold mix_line. intros Hx Hz Hx' Hz' [= E1 E2]. apply u32_add_inj in E2 as ->; [|done..].
  split; [|done]. rewrite !(Z.lxor_comm (u32 _)) in E1. apply lxor_inj_r in E1.
  by apply (u32_add_inj (- z')).
Qed.

(** The comment of [__jhash_mix]: it mixes three words reversibly. *)
Lemma jhash_mix_reversible a b c a' b' c' :
  word32 a -> word32 b -> word32 c -> word32 a' -> word32 b' -> word32 c' ->
  __jhash_mix a b c = __jhash_mix a' b' c' -> (a, b, c) = (a', b', c').
Proof.
  intros Ha Hb Hc Ha' Hb' Hc'. unfold __jhash_mix.
  assert (St : forall k x y z x1 z1, mix_line k x y z = (x1, z1) -> (0 <? k) && (k <? 32) = true -> word32 z -> word32 x1 /\ word32 z1).
  { intros k x y z x1 z1 E Hk Hz. destruct (mix_line_word k x y z ltac:(lia) Hz). by rewrite E in *. }
  destruct (mix_line 4 a b c) as [a1 c1] eqn:E1, (mix_line 4 a' b' c') as [a1' c1'] eqn:E1'.
  destruct (St _ _ _ _ _ _ E1 eq_refl Hc), (St _ _ _ _ _ _ E1' eq_refl Hc').
  destruct (mix_line 6 b c1 a1) as [b2 a2] eqn:E2, (mix_line 6 b' c1' a1') as [b2' a2'] eqn:E2'.
  destruct (St _ _ _ _ _ _ E2 eq_refl ltac:(assumption)), (St _ _ _ _ _ _ E2' eq_refl ltac:(assumption)).
  destruct (mix_line 8 c1 a2 b2) as [c3 b3] eqn:E3, (mix_line 8 c1' a2' b2') as [c3' b3'] eqn:E3'.
  destruct (St _ _ _ _ _ _ E3 eq_refl ltac:(assumption)), (St _ _ _ _ _ _ E3' eq_refl ltac:(assumption)).
  destruct (mix_line 16 a2 b3 c3) as [a4 c4] eqn:E4, (mix_line 16 a2' b3' c3') as [a4' c4'] eqn:E4'.
  destruct (St _ _ _ _ _ _ E4 eq_refl ltac:(assumption)), (St _ _ _ _ _ _ E4' eq_refl ltac:(assumption)).
  destruct (mix_line 19 b3 c4 a4) as [b5 a5] eqn:E5, (mix_line 19 b3' c4' a4') as [b5' a5'] eqn:E5'.
  destruct (St _ _ _ _ _ _ E5 eq_refl ltac:(assumption)), (St _ _ _ _ _ _ E5' eq_refl ltac:(assumption)).
  destruct (mix_line 4 c4 a5 b5) as [c6 b6] eqn:E6, (mix_line 4 c4' a5' b5') as [c6' b6'] eqn:E6'.
  intros [= <- <- <-].
  rewrite <- E6' in E6. apply mix_line_inj in E6 as [-> ->]; [|done..].
  rewrite <- E5' in E5. apply mix_line_inj in E5 as [-> ->]; [|done..].
  rewrite <- E4' in E4. apply mix_line_inj in E4 as [-> ->]; [|done..].
  rewrite <- E3' in E3. apply mix_line_inj in E3 as [-> ->]; [|done..].
  rewrite <- E2' in E2. apply mix_line_inj in E2 as [-> ->]; [|done..].
  rewrite <- E1' in E1. by apply mix_line_inj in E1 as [-> ->].
Qed.

(** ** benchmark.cc

    The generator gives a stream of numbers; a distribution takes the next one into
    its range. The loop of a benchmark hashes one object per turn. *)

Definition OBJ_COUNT_MAX : Z := 100000.

Section benchmark.
(** The distribution on [lo, hi] applied to the stream: the [n]-th number. *)
Variable distrib : Z -> Z -> nat -> Z.

Definition distrib_ip := distrib 1 (2 ^ 32 - 1).
Definition distrib_port := distrib 1 65535.
Definition distrib_byte := distrib 1 255.

(** The [i]-th object of a table; [val] took the first number. *)
Definition ip4_obj (i : nat) : XfwIpv4SynTuple :=
  let n := (1 + 5 * i)%nat in
  mkIpv4SynTuple (distrib_ip n) (distrib_ip (n + 1)) (distrib_ip (n + 2))
    (distrib_port (n + 3)) (distrib_port (n + 4)).
Definition ip6_obj (i : nat) : XfwIpv6SynTuple :=
  let n := (1 + 35 * i)%nat in
  mkIpv6SynTuple ((fun j => distrib_byte (n + 2 * j)) <$> seq 0 16) ((fun j => distrib_byte (n + 2 * j + 1)) <$> seq 0 16)
    (distrib_ip (n + 32)) (distrib_port (n + 33)) (distrib_port (n + 34)).

Definition table {A} (obj : nat -> A) : list A := obj <$> seq 0 (Z.to_nat OBJ_COUNT_MAX).

(** The loop: the hashes of [turns] turns; [None] is an access outside the table. *)
Fixpoint bench_loop {A} (hash : A -> Z) (objs : list A) (turns : nat) (idx : Z) : option (list Z) :=
  match turns with
  | O => Some []
  | S turns =>
      let idx := u32 (idx + 1) mod OBJ_COUNT_MAX in
      o ← objs !! Z.to_nat idx;
      rest ← bench_loop hash objs turns idx;
      Some (hash o :: rest)
  end.

Definition BM_syn_xxhash_ip4 (turns : nat) :=
  bench_loop (fun t => syn_xxh64_ipv4 t (distrib_ip 0)) (table ip4_obj) turns 0.
Definition BM_syn_jhash_ip4 (turns : nat) :=
  bench_loop (fun t => jhash (ipv4_tuple_bytes t) (distrib_ip 0)) (table ip4_obj) turns 0.
Definition BM_syn_xxhash_ip6 (turns : nat) :=
  bench_loop (fun t => syn_xxh64_ipv6 t (distrib_ip 0)) (table ip6_obj) turns 0.
Definition BM_syn_jhash_ip6 (turns : nat) :=
  bench_loop (fun t => jhash (ipv6_tuple_bytes t) (distrib_ip 0)) (table ip6_obj) turns 0.

(** However long it runs, a benchmark reads only objects of its table. *)
Lemma bench_loop_total {A} (hash : A -> Z) (obj : nat -> A) turns idx :
  exists l, bench_loop hash (table obj) turns idx = Some l /\ length l = turns.
Proof.
  revert idx. induction turns as [|turns IH]; intros idx; [by exists []|]. cbn [bench_loop].
  set (i := u32 (idx + 1) mod OBJ_COUNT_MAX).
  assert (Hi : 0 <= i < OBJ_COUNT_MAX) by (by apply Z.mod_pos_bound).
  assert (Hlk : table obj !! Z.to_nat i = Some (obj (Z.to_nat i))).
  { unfold table. rewrite list_lookup_fmap, lookup_seq_lt by lia. done. }
  rewrite Hlk. cbn. destruct (IH i) as (l & -> & Hl). cbn. eexists. split; [done|]. cbn. lia.
Qed.
End benchmark.
