(* ===== verification/Grammar.v ===== *)
(** * Grammar: the configuration language of the firewall and its words

    The words and numbers of a configuration text, and what the functions of
    [LineConsumer] return on a line that starts with one of them. These lemmas are
    the lexical part of the proof that the parser implements the configuration
    language, which the second part defines. *)

From stdpp Require Import pretty.
From S2P Require Import Prelude.
From S2P Require Import Uapi.
From S2P Require Import Bitset.
From S2P Require Import AnomalyFlags.
From S2P Require Import ConfigUpdater.
From S2P Require Import LineConsumer.
From S2P Require Import Tcl.
From S2P Require Import Cli.
From S2P Require Import CliSpec.

Open Scope Z_scope.

(** ** Characters *)

Definition is_digit (c : ascii) : Prop := is_Some (digit c).

(** What separates words: a delimiter or a slash, and white space. *)
Definition word_char (c : ascii) : bool :=
  negb (isspace c) && negb (bool_decide (c ∈ delimeters ++ T "/")).
Definition word (t : text) : Prop := t <> [] /\ forallb word_char t = true.

(** None of the characters of [ts]. *)
Definition free_of (ts : text) (t : text) : Prop := Forall (fun c => c ∉ ts) t.

Lemma until_tok ts t c r : free_of ts t -> c ∈ ts -> until ts (t ++ c :: r) = t.
Proof.
  intros Ht Hc. induction Ht as [|d t Hd _ IH]; cbn [until app].
  - by rewrite bool_decide_true.
  - rewrite bool_decide_false by done. by rewrite IH.
Qed.

Lemma word_free t : forallb word_char t = true -> free_of (delimeters ++ T "/") t.
Proof.
  intros Ht. apply Forall_forall. intros c Hc. apply forallb_forall with (x := c) in Ht; [|by apply list_elem_of_In].
  unfold word_char in Ht. apply andb_true_iff in Ht as [_ Ht]. apply negb_true_iff, bool_decide_eq_false in Ht. done.
Qed.

Lemma free_of_sub ts ts' t : (forall c, c ∈ ts' -> c ∈ ts) -> free_of ts t -> free_of ts' t.
Proof. unfold free_of. rewrite !Forall_forall. intros Hs Ht c Hc Hc'. by apply (Ht c Hc), Hs. Qed.

Lemma word_delims t : forallb word_char t = true -> free_of delimeters t.
Proof. intros Ht%word_free. eapply free_of_sub; [|done]. intros c Hc. apply elem_of_app. by left. Qed.

Lemma leading_spaces_word t r : word t -> leading_spaces (t ++ r) = O.
Proof.
  intros [Hne Ht]. destruct t as [|c t]; [done|]. cbn in *. apply andb_true_iff in Ht as [Hc _].
  unfold word_char in Hc. apply andb_true_iff in Hc as [Hc _]. by rewrite (proj1 (negb_true_iff _) Hc).
Qed.

(** ** A line that is only consumed *)

Definition clean (l : text) : LineConsumer := mkLineConsumer l [] false false.

Lemma consume_clean n l : (n <= length l)%nat -> consume n (clean l) = inr (tt, clean (drop n l)).
Proof.
  intros Hn. unfold consume, consume_acc, cget, cverify, mbind, C_bind. cbn [clean line_ accumulate_enabled_].
  rewrite (proj2 (Nat.leb_le _ _) Hn). done.
Qed.

Lemma consume_tok t r : consume (length t) (clean (t ++ r)) = inr (tt, clean r).
Proof. rewrite consume_clean by (rewrite length_app; lia). by rewrite drop_app_length. Qed.

Lemma consume_until_tok ts t c r : free_of ts t -> c ∈ ts ->
  consume_until ts (clean (t ++ c :: r)) = inr (t, clean (c :: r)).
Proof.
  intros Ht Hc. unfold consume_until, peek_until, cget, mbind, C_bind, mret, C_ret. cbn [clean line_].
  rewrite until_tok by done. by rewrite consume_tok.
Qed.

Lemma skip_spaces_none l : leading_spaces l = O -> skip_spaces (clean l) = inr (tt, clean l).
Proof.
  intros Hl. unfold skip_spaces, consume_acc, cget, cverify, mbind, C_bind, mret, C_ret. cbn [clean line_]. by rewrite Hl.
Qed.

Lemma consume_prefix_tok p r : consume_prefix p (clean (p ++ r)) = inr (tt, clean r).
Proof.
  unfold consume_prefix, cget, cverify, mbind, C_bind. cbn [clean line_]. rewrite take_app_length.
  unfold text_eqb. rewrite bool_decide_true by done. apply consume_tok.
Qed.

(** key=value *)
Lemma assignment_tok key t c r : word t -> c ∈ delimeters ->
  consume_assignment key (clean (key ++ "="%char :: t ++ c :: r)) = inr (t, clean (c :: r)).
Proof.
  intros Ht Hc. unfold consume_assignment. unfold mbind at 1, C_bind at 1. rewrite consume_prefix_tok.
  unfold mbind at 1, C_bind at 1. rewrite skip_spaces_none by done.
  unfold mbind at 1, C_bind at 1. change (consume_expected_char "=" (clean ("="%char :: t ++ c :: r)))
    with (inr (tt, clean (t ++ c :: r)) : CliError + unit * LineConsumer).
  cbv beta iota. unfold mbind at 1, C_bind at 1. rewrite skip_spaces_none by (by apply leading_spaces_word).
  apply consume_until_tok; [|done]. apply word_delims, Ht.
Qed.

(** ** Numbers *)

Definition dec (n : Z) : text := T (pretty (Z.to_N n)).

Lemma digit_pretty x : (x < 10)%N -> digit (pretty_N_char x) = Some (Z.of_N x).
Proof.
  intros Hx. assert (x ∈ [0; 1; 2; 3; 4; 5; 6; 7; 8; 9]%N) as Hin by (rewrite !elem_of_cons; lia).
  rewrite !elem_of_cons in Hin. destruct_or! Hin; [subst; reflexivity..|by apply elem_of_nil in Hin].
Qed.

Lemma T_cons c s : T (String c s) = c :: T s.
Proof. done. Qed.

Lemma read_pretty_go x s : read_digits 0 (T (pretty_N_go x s)) = read_digits (Z.of_N x) (T s).
Proof.
  revert s. induction (N.lt_wf_0 x) as [x _ IH]. intros s.
  destruct (decide (x = 0)%N) as [->|Hx]; [by rewrite pretty_N_go_0|].
  rewrite pretty_N_go_step by lia. rewrite IH by (apply N.div_lt; lia). rewrite T_cons. cbn [read_digits].
  rewrite digit_pretty by (apply N.mod_lt; lia). f_equal.
  rewrite N2Z.inj_div, N2Z.inj_mod. dlia.
Qed.

Lemma read_dec n : 0 <= n -> read_digits 0 (dec n) = (n, []).
Proof.
  intros Hn. unfold dec, pretty, pretty_N. case_decide as Hz.
  - replace n with 0 by lia. done.
  - rewrite read_pretty_go. rewrite Z2N.id by done. done.
Qed.

Lemma pretty_go_digits x s : exists pre, T (pretty_N_go x s) = pre ++ T s /\ Forall is_digit pre
  /\ ((0 < x)%N -> pre <> []).
Proof.
  revert s. induction (N.lt_wf_0 x) as [x _ IH]. intros s.
  destruct (decide (x = 0)%N) as [->|Hx]; [exists []; rewrite pretty_N_go_0; repeat split; [constructor|lia]|].
  rewrite pretty_N_go_step by lia.
  destruct (IH (x `div` 10)%N ltac:(apply N.div_lt; lia) (String (pretty_N_char (x `mod` 10)) s)) as (pre & -> & Hd & _).
  exists (pre ++ [pretty_N_char (x `mod` 10)]). rewrite T_cons, <- app_assoc. split; [done|]. split; [|by destruct pre].
  apply Forall_app. split; [done|]. constructor; [|constructor].
  unfold is_digit. rewrite digit_pretty by (apply N.mod_lt; lia). done.
Qed.

Lemma dec_digits n : Forall is_digit (dec n) /\ dec n <> [].
Proof.
  unfold dec, pretty, pretty_N. case_decide as Hz.
  - split; [|done]. constructor; [|constructor]. by exists 0.
  - destruct (pretty_go_digits (Z.to_N n) EmptyString) as (pre & -> & Hd & Hn). change (T EmptyString) with (@nil ascii).
    rewrite app_nil_r. split; [done|]. apply Hn. lia.
Qed.

Lemma digit_word c : is_digit c -> word_char c = true.
Proof.
  intros [d Hd]. unfold digit in Hd. unfold word_char, isspace.
  destruct (_ && _) eqn:Hr in Hd; [|done]. apply andb_true_iff in Hr as [H1%Z.leb_le H2%Z.leb_le].
  set (n := Z.of_nat (nat_of_ascii c)) in *.
  assert (Hn : (nat_of_ascii c = Z.to_nat n)%nat) by (subst n; lia).
  replace ((9 <=? n) && (n <=? 13) || (n =? 32)) with false by (clearbody n; lia). cbn.
  apply negb_true_iff, bool_decide_eq_false. intros Hin.
  assert (Hf : forallb (fun c => let n := Z.of_nat (nat_of_ascii c) in (n <? 48) || (57 <? n)) (delimeters ++ T "/") = true)
    by reflexivity.
  apply forallb_forall with (x := c) in Hf; [|by apply list_elem_of_In]. cbv zeta in Hf. fold n in Hf. clearbody n. lia.
Qed.

Lemma dec_word n : word (dec n).
Proof.
  destruct (dec_digits n) as [Hd Hn]. split; [done|]. apply forallb_forall. intros c Hc%list_elem_of_In.
  rewrite Forall_forall in Hd. by apply digit_word, Hd.
Qed.

Lemma starts_with_dec n : starts_with_digit (dec n) = true.
Proof.
  destruct (dec_digits n) as [Hd Hn]. destruct (dec n) as [|c r]; [done|]. inversion Hd; subst.
  by apply bool_decide_true.
Qed.

(** A number is read back if it fits its type. *)
Lemma parse_as_dec w n : 0 <= n -> parse_as w (dec n) = if n <? 2 ^ w then inr n else inl CE_INT.
Proof.
  intros Hn. unfold parse_as. rewrite starts_with_dec. cbn [negb]. rewrite read_dec by lia.
  rewrite Z.leb_antisym. by destruct (n <? 2 ^ w).
Qed.

Lemma typed_assignment_tok w key n c r : 0 <= n -> c ∈ delimeters ->
  consume_typed_assignment w key (clean (key ++ "="%char :: dec n ++ c :: r))
  = if n <? 2 ^ w then inr (n, clean (c :: r)) else inl CE_INT.
Proof.
  intros Hn Hc. unfold consume_typed_assignment. unfold mbind, C_bind.
  rewrite assignment_tok by (apply dec_word || done). unfold cpure. rewrite parse_as_dec by done.
  by destruct (n <? 2 ^ w).
Qed.

(** * The configuration language

    What a configuration text means, apart from the program that reads it: the
    commands of the section xfw as an abstract syntax, the text of a command, and its
    effect on a configuration. A text is a list of commands, one on a line, which may
    be indented, with comments between them. [GrammarClaims] proves that the parser
    of the client gives every such text exactly this meaning. *)

(** ** The syntax *)

Inductive Family := IP4 | IP6.
Inductive Transport := TCP | UDP.

Inductive Act := A_Allow | A_Block | A_Ratelimit (name : text).

(** A mask or a port behind an address. *)
Inductive Suffix := S_None | S_Mask (bits : Z) | S_Port (port : Z).

(** An element of the body of a network rule. *)
Inductive Entry :=
  | E_Country (c0 c1 : ascii) (port : option Z)
  | E_Ports (first : Z) (last : option Z)
  | E_Ip4 (addr : text) (s : Suffix)
  | E_Ip6 (addr : text) (s : Suffix).

(** A rule with a body has braces, another one ends with a semicolon. *)
Record RuleText := mkRuleText {
  r_alias : text;
  r_edit : option EditType;
  r_proto : option (Family * Transport);
  r_action : option Act;
  r_body : option (list Entry)
}.

Record IcmpText := mkIcmpText {
  i_alias : text;
  i_edit : option EditType;
  i_proto : option Family;
  i_action : option Act;
  i_body : option (list Z)
}.

(** An attribute of tcp_anomaly_filter; a combination of flags is the list of the
    names in it, of which NONE is written 0. *)
Inductive TcpFlag := F_NONE | F_ACK | F_CWR | F_ECE | F_FIN | F_PSH | F_RST | F_SYN | F_URG.
Inductive AnomalyAttr :=
  | AA_SynWithoutOpt
  | AA_SynWithPayload
  | AA_SynWithSeqno (n : Z)
  | AA_BadFlags (combos : list (list TcpFlag)).

Inductive TimerAttr := TA_Passive (n : Z) | TA_Flood (n : Z).
Inductive LimitAttr := LA_Pps (n : Z) | LA_Bps (n : Z).

(** The packets of a default rule: of all protocols, of one version of IP, or of one
    transport protocol over it. *)
Inductive Selector := Sel_All | Sel_Family (f : Family) | Sel_Proto (f : Family) (t : Transport).
Record DefaultText := mkDefaultText { d_type : DataType; d_sel : Selector; d_action : Act }.

Inductive Switch := Sw_Dns | Sw_Evaluation | Sw_Auth.

Inductive Item :=
  | I_Switch (s : Switch) (del : bool)
  | I_Syncookies (attrs : list TimerAttr)
  | I_SyncookiesDel
  | I_Ratelimit (name : text) (attrs : list LimitAttr)
  | I_RatelimitDel (name : text)
  | I_TcpFlags (flag : FlagType) (ratelimit : text)
  | I_TcpFlagsDel (flag : FlagType)
  | I_Anomaly (attrs : list AnomalyAttr)
  | I_AnomalyDel
  | I_IpProto (protocols : list Z)
  | I_IpProtoDel
  | I_Icmp (r : IcmpText)
  | I_Net (kind : NetKind) (r : RuleText)
  | I_Defaults (rules : list DefaultText)
  | I_Comment (t : text).

(** ** The text *)

Fixpoint join (sep : text) (l : list text) : text :=
  match l with
  | [] => []
  | [t] => t
  | t :: l => t ++ sep ++ join sep l
  end.

Definition show_family (f : Family) : text := T (match f with IP4 => "ip4" | IP6 => "ip6" end).
Definition show_proto (p : Family * Transport) : text :=
  T (match p with
     | (IP4, TCP) => "ip4.tcp" | (IP4, UDP) => "ip4.udp"
     | (IP6, TCP) => "ip6.tcp" | (IP6, UDP) => "ip6.udp"
     end).
Definition show_act (a : Act) : text :=
  match a with
  | A_Allow => T " :allow"
  | A_Block => T " :block"
  | A_Ratelimit name => T " :ratelimit=" ++ name
  end.
Definition show_alias (a : text) : text := match a with [] => [] | _ => T "=" ++ a end.
Definition show_edit (e : option EditType) : text :=
  match e with
  | None => []
  | Some EDIT_ADD => T "/add" | Some EDIT_DELETE => T "/del" | Some EDIT_REPLACE => T "/replace"
  end.
Definition show_opt {A} (show : A -> text) (o : option A) : text :=
  match o with None => [] | Some a => show a end.
Definition show_body {A} (show : A -> text) (o : option (list A)) : text :=
  match o with None => T ";" | Some l => T " {" ++ join (T ",") (show <$> l) ++ T "}" end.

Definition show_suffix (s : Suffix) : text :=
  match s with S_None => [] | S_Mask n => T "/" ++ dec n | S_Port p => T ":" ++ dec p end.
Definition show_port (p : Z) : text := T ":" ++ dec p.
Definition show_entry (e : Entry) : text :=
  match e with
  | E_Country c0 c1 port => [c0; c1] ++ show_opt show_port port
  | E_Ports p q => show_port p ++ show_opt (fun q => T "-" ++ dec q) q
  | E_Ip4 addr s => addr ++ show_suffix s
  | E_Ip6 addr (S_Port p) => T "[" ++ addr ++ T "]" ++ show_port p
  | E_Ip6 addr s => addr ++ show_suffix s
  end.

Definition show_kind (k : NetKind) : text :=
  T (match k with SrcSection => "src" | DstSection => "dst" | ProtectedNetSection => "net" end).
Definition show_kind_proto (k : NetKind) (p : Family * Transport) : text :=
  match k with ProtectedNetSection => show_family p.1 | _ => show_proto p end.

Definition show_rule (k : NetKind) (r : RuleText) : text :=
  show_kind k ++ show_alias (r_alias r) ++ show_edit (r_edit r)
  ++ show_opt (fun p => T " " ++ show_kind_proto k p) (r_proto r)
  ++ show_opt show_act (r_action r) ++ show_body show_entry (r_body r).

Definition show_icmp (r : IcmpText) : text :=
  T "icmp" ++ show_alias (i_alias r) ++ show_edit (i_edit r)
  ++ show_opt (fun f => T " " ++ show_family f) (i_proto r)
  ++ show_opt show_act (i_action r) ++ show_body dec (i_body r).

Definition show_flag (f : TcpFlag) : text :=
  T (match f with
     | F_NONE => "0" | F_ACK => "ACK" | F_CWR => "CWR" | F_ECE => "ECE" | F_FIN => "FIN"
     | F_PSH => "PSH" | F_RST => "RST" | F_SYN => "SYN" | F_URG => "URG"
     end).
Definition show_combo (c : list TcpFlag) : text := join (T "+") (show_flag <$> c).
Definition show_anomaly (a : AnomalyAttr) : text :=
  match a with
  | AA_SynWithoutOpt => T " syn_without_opt"
  | AA_SynWithPayload => T " syn_with_payload"
  | AA_SynWithSeqno n => T " syn_with_seqno=" ++ dec n
  | AA_BadFlags combos => T " bad_flags(" ++ join (T ", ") (show_combo <$> combos) ++ T ")"
  end.
Definition show_timer (a : TimerAttr) : text :=
  match a with TA_Passive n => T " passive_timer=" ++ dec n | TA_Flood n => T " flood_timer=" ++ dec n end.
Definition show_limit (a : LimitAttr) : text :=
  match a with LA_Pps n => T " pps=" ++ dec n | LA_Bps n => T " bps=" ++ dec n end.

Definition show_selector (s : Selector) : text :=
  match s with
  | Sel_All => []
  | Sel_Family f => T " " ++ show_family f
  | Sel_Proto f t => T " " ++ show_proto (f, t)
  end.
Definition show_default (d : DefaultText) : text :=
  T " " ++ type_to_name (d_type d) ++ show_selector (d_sel d) ++ show_act (d_action d) ++ T ";".

Definition show_switch (s : Switch) : text :=
  T (match s with Sw_Dns => "dns_filter" | Sw_Evaluation => "evaluation_mode" | Sw_Auth => "tcp_auth_filter" end).
Definition show_tcp_flag (f : FlagType) : text :=
  match f with FT_ALL => [] | FT_SYN => T " syn" | FT_RST => T " rst" end.

Definition show_item (i : Item) : text :=
  match i with
  | I_Switch s del => show_switch s ++ (if del then T "/del;" else T ";")
  | I_Syncookies attrs => T "tcp_syncookies" ++ concat (show_timer <$> attrs) ++ T ";"
  | I_SyncookiesDel => T "tcp_syncookies/del;"
  | I_Ratelimit name attrs => T "ratelimit=" ++ name ++ concat (show_limit <$> attrs) ++ T ";"
  | I_RatelimitDel name => T "ratelimit=" ++ name ++ T "/del;"
  | I_TcpFlags flag rl => T "tcp_flags" ++ show_tcp_flag flag ++ T " :ratelimit=" ++ rl ++ T ";"
  | I_TcpFlagsDel flag => T "tcp_flags/del" ++ show_tcp_flag flag ++ T ";"
  | I_Anomaly attrs => T "tcp_anomaly_filter" ++ concat (show_anomaly <$> attrs) ++ T ";"
  | I_AnomalyDel => T "tcp_anomaly_filter/del;"
  | I_IpProto ps => T "ip_proto {" ++ join (T ",") (dec <$> ps) ++ T "}"
  | I_IpProtoDel => T "ip_proto/del;"
  | I_Icmp r => show_icmp r
  | I_Net kind r => show_rule kind r
  | I_Defaults rules => T "defaults {" ++ concat (show_default <$> rules) ++ T " }"
  | I_Comment t => T "#" ++ t
  end.

(** A command with its indentation, and the configuration. *)
Definition show_line (l : text * Item) : text := l.1 ++ show_item l.2 ++ [newline].
Definition show_config (ls : list (text * Item)) : text :=
  T "xfw {" ++ [newline] ++ concat (show_line <$> ls) ++ T "}".

(** ** The meaning

    [None] is a command that is rejected. *)

Definition act_of (a : Act) : CliAction :=
  match a with
  | A_Allow => mkCliAction [] true
  | A_Block => mkCliAction [] false
  | A_Ratelimit name => mkCliAction name true
  end.

(** A set of flags. *)
Definition flags_of (MaxBit : Z) (l : list Z) : list Z := fold_left (fun s f => BitSet_set f s) l (BitSet_empty MaxBit).

Definition guard_some (b : bool) : option unit := if b then Some tt else None.

Definition is_port_number (p : Z) : bool := (0 <? p) && (p <=? MAX_PORTS).
Definition sem_port (o : option Z) : option (option Z) :=
  match o with None => Some None | Some p => if is_port_number p then Some (Some p) else None end.

(** The mask and the port of a suffix. *)
Definition sem_suffix (limit : Z) (s : Suffix) : option (option Z * option Z) :=
  match s with
  | S_None => Some (None, None)
  | S_Mask n => if n <=? limit then Some (Some n, None) else None
  | S_Port p => if is_port_number p then Some (None, Some p) else None
  end.

Section sem.
Context `{BoostIp}.

(** What an entry adds to a rule. *)
Definition sem_entry (nr : CliNetRule) (e : Entry) : option CliNetRule :=
  match e with
  | E_Country c0 c1 port =>
      p ← sem_port port;
      Some (add_net_code (mkCliNetCode (default 0 p) (ascii_z c0 + 256 * ascii_z c1)) nr)
  | E_Ports p q =>
      _ ← guard_some (is_port_number p);
      match q with
      | None => Some (add_ports (p, None) nr)
      | Some q => if (q <=? MAX_PORTS) && (p <? q) then Some (add_ports (p, Some q) nr) else None
      end
  | E_Ip4 addr s =>
      '(mask, port) ← sem_suffix 32 s;
      match from_string addr with
      | Some (IP_V4 b) => Some (add_cli_net4 (mkCliNet4 b (default 0 port) (default 32 mask)) nr)
      | _ => None
      end
  | E_Ip6 addr s =>
      '(mask, port) ← sem_suffix 128 s;
      match from_string addr with
      | Some (IP_V6 b) => Some (add_cli_net6 (mkCliNet6 b (default 0 port) (default 128 mask)) nr)
      | _ => None
      end
  end.

Fixpoint sem_entries (nr : CliNetRule) (es : list Entry) : option CliNetRule :=
  match es with
  | [] => Some nr
  | e :: es => nr ← sem_entry nr e; sem_entries nr es
  end.

(** The flags of a rule: its section, its protocol, its action and its edit. *)
Definition kind_flags (k : NetKind) : list Z :=
  match k with SrcSection => [NetRuleAttr_SRC] | DstSection => [] | ProtectedNetSection => [NetRuleAttr_PROTECTED_NET] end.
Definition proto_flags (k : NetKind) (p : option (Family * Transport)) : list Z :=
  match p with
  | None => []
  | Some (f, t) =>
      match f with IP4 => [] | IP6 => [NetRuleAttr_IPV6] end
      ++ match k, t with ProtectedNetSection, _ | _, UDP => [] | _, TCP => [NetRuleAttr_TCP] end
  end.
Definition action_allows (a : option Act) : bool :=
  match a with Some A_Allow | Some (A_Ratelimit _) => true | _ => false end.
Definition edit_flags (e : option EditType) (replace delete : Z) : list Z :=
  match e with Some EDIT_ADD => [] | Some EDIT_DELETE => [delete] | Some EDIT_REPLACE | None => [replace] end.

Definition is_none {A} (o : option A) : bool := match o with None => true | Some _ => false end.
Definition is_empty_list {A} (l : list A) : bool := match l with [] => true | _ => false end.

(** The name of a rule is that of its protocol unless it has one. *)
Definition rule_name (alias : text) (proto : option text) : text :=
  match alias with [] => default [] proto | _ => alias end.

(** A rule needs a name, and a protocol if it has addresses; only a rule that replaces
    another one has an action. *)
Definition sem_rule (k : NetKind) (r : RuleText) (x : XfwConf) : option XfwConf :=
  nr ← sem_entries (NetRule_init None) (default [] (r_body r));
  let name := rule_name (r_alias r) (show_kind_proto k <$> r_proto r) in
  let flags := flags_of NetRuleAttr_MAX_BIT
    (kind_flags k ++ proto_flags k (r_proto r)
     ++ (if action_allows (r_action r) then [NetRuleAttr_ALLOW] else [])
     ++ edit_flags (r_edit r) NetRuleAttr_REPLACE NetRuleAttr_DELETE) in
  let rule := mkCliNetRule name flags (cn_net6s nr) (cn_net4s nr) (cn_nets nr) (cn_ports nr)
    (act_ratelimit (default (act_of A_Block) (act_of <$> r_action r))) in
  _ ← guard_some (negb (is_none (r_proto r))
        || (is_empty_list (cn_nets nr) && is_empty_list (cn_net4s nr) && is_empty_list (cn_net6s nr)));
  _ ← guard_some (negb (is_empty_list name));
  _ ← guard_some (is_none (r_action r)
        || match r_edit r with None | Some EDIT_REPLACE => true | _ => false end);
  match add_netrule rule x with inr x' => Some x' | inl _ => None end.

Definition sem_icmp (r : IcmpText) (x : XfwConf) : option XfwConf :=
  let types := default [] (i_body r) in
  let name := rule_name (i_alias r) (show_family <$> i_proto r) in
  let flags := flags_of IcmpRuleAttr_MAX_BIT
    (match i_proto r with Some IP6 => [IcmpRuleAttr_IPV6] | _ => [] end
     ++ (if action_allows (i_action r) then [IcmpRuleAttr_ALLOW] else [])
     ++ edit_flags (i_edit r) IcmpRuleAttr_REPLACE IcmpRuleAttr_DELETE) in
  _ ← guard_some (forallb (fun n => n <? 2 ^ 32) types);
  _ ← guard_some (negb (is_empty_list name));
  match add_rule ci_alias (mkCliIcmpRule name flags (u8 <$> types)
          (act_ratelimit (default (act_of A_Block) (act_of <$> i_action r)))) (x_icmp_rules x) with
  | inr rules => Some (set_x_icmp_rules rules x)
  | inl _ => None
  end.

Definition flag_bit (f : TcpFlag) : Z :=
  match f with
  | F_NONE => XFW_BIT_NONE | F_ACK => XFW_BIT_ACK | F_CWR => XFW_BIT_CWR | F_ECE => XFW_BIT_ECE
  | F_FIN => XFW_BIT_FIN | F_PSH => XFW_BIT_PSH | F_RST => XFW_BIT_RST | F_SYN => XFW_BIT_SYN
  | F_URG => XFW_BIT_URG
  end.
Definition combo_bits (c : list TcpFlag) : Z := fold_left (fun acc f => Z.lor (flag_bit f) acc) c 0.

Definition sem_anomaly_attr (a : TcpAnomalyRule) (attr : AnomalyAttr) : option TcpAnomalyRule :=
  match attr with
  | AA_SynWithoutOpt => Some (set_features XFW_SYN_WIHOUT_OPTIONS a)
  | AA_SynWithPayload => Some (set_features XFW_SYN_WITH_PAYLOAD a)
  | AA_SynWithSeqno n =>
      let a := set_features XFW_SYN_WITH_SEQ_NO a in
      if n <? 2 ^ 32 then Some (mkTcpAnomalyRule (ta_features a) (ta_bad_tcp_flags a) n) else None
  | AA_BadFlags combos =>
      Some (fold_left (fun a c => save_tcp_flags_combination (combo_bits c) a) combos (set_features XFW_BAD_FLAGS a))
  end.

(** The attributes of a command, one after the other. *)
Fixpoint sem_attrs {S A} (sem : S -> A -> option S) (s : S) (attrs : list A) : option S :=
  match attrs with
  | [] => Some s
  | a :: attrs => s ← sem s a; sem_attrs sem s attrs
  end.

(** The timers, passive and flood; the later value counts. *)
Definition sem_timer (t : option Z * option Z) (a : TimerAttr) : option (option Z * option Z) :=
  match a with
  | TA_Passive n => if n <? 2 ^ 32 then Some (Some n, t.2) else None
  | TA_Flood n => if n <? 2 ^ 32 then Some (t.1, Some n) else None
  end.
(** The packets and the bytes per second. *)
Definition sem_limit (l : option Z * option Z) (a : LimitAttr) : option (option Z * option Z) :=
  match a with
  | LA_Pps n => if n <? 2 ^ 64 then Some (Some n, l.2) else None
  | LA_Bps n => if n <? 2 ^ 64 then Some (l.1, Some n) else None
  end.

Definition add_limit (rl : CliRatelimit) (x : XfwConf) : option XfwConf :=
  match add_rule crl_alias rl (x_ratelimits x) with
  | inr rules => Some (set_x_ratelimits rules x)
  | inl _ => None
  end.

(** The rules for the flags: one for all of them, or one for each. *)
Definition flag_taken (flag : FlagType) (rules : list CliTcpFlags) : bool :=
  match flag with
  | FT_ALL => negb (is_empty_list rules)
  | _ => existsb (fun r => bool_decide (ct_flag r = flag) || bool_decide (ct_flag r = FT_ALL)) rules
  end.

Definition family_z (f : Family) : Z := match f with IP4 => IPV_IP4 | IP6 => IPV_IP6 end.
Definition transport_z (t : Transport) : Z := match t with TCP => TP_TCP | UDP => TP_UDP end.

(** The default actions that a rule sets. *)
Definition default_indices (d : DefaultText) : list Z :=
  let idx t f := get_index (d_type d) t f in
  match d_type d, d_sel d with
  | ICMP, Sel_All => [idx TP_NONE IPV_IP4; idx TP_NONE IPV_IP6]
  | ICMP, Sel_Family f | ICMP, Sel_Proto f _ => [idx TP_NONE (family_z f)]
  | _, Sel_All => [idx TP_TCP IPV_IP4; idx TP_TCP IPV_IP6; idx TP_UDP IPV_IP4; idx TP_UDP IPV_IP6]
  | _, Sel_Family f => [idx TP_TCP (family_z f); idx TP_UDP (family_z f)]
  | _, Sel_Proto f t => [idx (transport_z t) (family_z f)]
  end.

(** The rules of the section and the actions that have one; none may have two. *)
Fixpoint sem_defaults (rules : list DefaultText) (out : list CliDefaultAction) (taken : list Z)
    : option (list CliDefaultAction) :=
  match rules with
  | [] => Some out
  | d :: rules =>
      let indices := default_indices d in
      let a := act_of (d_action d) in
      if existsb (fun i => bool_decide (i ∈ taken)) indices then None
      else sem_defaults rules
        (out ++ [mkCliDefaultAction (act_ratelimit a) (act_allow a) (flags_of XFW_DEFAULT_MAX indices)])
        (taken ++ indices)
  end.

Definition switch_opt (s : Switch) (del : bool) : Z :=
  match s, del with
  | Sw_Dns, false => Opt_DNS_FILTER_ON | Sw_Dns, true => Opt_DNS_FILTER_OFF
  | Sw_Evaluation, false => Opt_EVALUATION_MODE_ON | Sw_Evaluation, true => Opt_EVALUATION_MODE_OFF
  | Sw_Auth, false => Opt_TCP_AUTH_FILTER_ON | Sw_Auth, true => Opt_TCP_AUTH_FILTER_OFF
  end.

Definition sem_item (i : Item) (x : XfwConf) : option XfwConf :=
  match i with
  | I_Switch s del => Some (x_set (switch_opt s del) x)
  | I_Syncookies attrs =>
      t ← sem_attrs sem_timer (None, None) attrs;
      _ ← guard_some (negb (is_empty_list attrs));
      Some (set_x_syncookie (Some (mkCliSyncookie (to_int (default 1 t.1)) (to_int (default 1 t.2)))) x)
  | I_SyncookiesDel => Some (x_set Opt_TCP_SYNCOOKIE_FILTER_OFF x)
  | I_Ratelimit name attrs =>
      l ← sem_attrs sem_limit (None, None) attrs;
      _ ← guard_some (negb (is_empty_list attrs));
      add_limit (mkCliRatelimit name (BitSet_empty RatelimitAttr_MAX_BIT) l.1 l.2) x
  | I_RatelimitDel name =>
      add_limit (mkCliRatelimit name (flags_of RatelimitAttr_MAX_BIT [RatelimitAttr_DELETE]) None None) x
  | I_TcpFlags flag rl =>
      _ ← guard_some (negb (flag_taken flag (x_tcp_flags x)));
      Some (set_x_tcp_flags (x_tcp_flags x ++ [mkCliTcpFlags flag rl]) x)
  | I_TcpFlagsDel flag =>
      Some (match flag with
            | FT_SYN => x_set Opt_TCP_SYN_FLAGS_FILTER_OFF x
            | FT_RST => x_set Opt_TCP_RST_FLAGS_FILTER_OFF x
            | FT_ALL => x_set Opt_TCP_RST_FLAGS_FILTER_OFF (x_set Opt_TCP_SYN_FLAGS_FILTER_OFF x)
            end)
  | I_Anomaly attrs =>
      a ← sem_attrs sem_anomaly_attr TcpAnomalyRule_init attrs;
      Some (set_x_tcp_anomaly (Some a) x)
  | I_AnomalyDel => Some (x_set Opt_TCP_ANOMALY_FILTER_OFF x)
  | I_IpProto ps =>
      _ ← guard_some (forallb (fun p => p <=? XFW_SUPPORTED_PROTOCOL_MAX) ps);
      Some (set_x_ip_proto (match ps with [] => None | _ => Some (flags_of XFW_SUPPORTED_PROTOCOL_MAX ps) end) x)
  | I_IpProtoDel => Some (x_set Opt_IP_PROTO_FILTER_OFF x)
  | I_Icmp r => sem_icmp r x
  | I_Net kind r => sem_rule kind r x
  | I_Defaults rules =>
      out ← sem_defaults rules [] [];
      _ ← guard_some (is_empty_list (x_defaults x));
      Some (set_x_defaults out x)
  | I_Comment _ => Some x
  end.

Fixpoint sem_items (items : list Item) (x : XfwConf) : option XfwConf :=
  match items with
  | [] => Some x
  | i :: items => x ← sem_item i x; sem_items items x
  end.

(** ** Well-formed texts

    Words are words, numbers are not negative, and an address looks like one of its
    family; everything else is a matter of the meaning. *)

Definition nonneg (n : Z) : bool := 0 <=? n.
Definition nonneg_opt (o : option Z) : bool := match o with Some n => nonneg n | None => true end.
Definition suffix_ok (s : Suffix) : bool := match s with S_None => true | S_Mask n => nonneg n && (n <? 2 ^ 32) | S_Port n => nonneg n end.
Definition wordb (t : text) : bool := negb (is_empty_list t) && forallb word_char t.
Definition act_ok (a : Act) : bool := match a with A_Ratelimit n => wordb n | _ => true end.

(** A character of an address. *)
Definition addr_char (c : ascii) : bool :=
  word_char c && negb (bool_decide (c ∈ T "-[]#")).
Definition addr4_ok (t : text) : bool :=
  forallb (fun c => addr_char c && negb (char_eqb c ":"%char)) t && (2 <? length t)%nat.
(** An address of IPv6 has two colons at least, and a colon at its start is not alone. *)
Definition addr6_ok (t : text) : bool :=
  forallb addr_char t && negb (bool_decide (find_first ":"%char t = find_last ":"%char t))
  && match t with
     | c :: d :: _ => negb (char_eqb c ":"%char) || char_eqb d ":"%char
     | _ => true
     end.

Definition entry_ok (p : option (Family * Transport)) (e : Entry) : bool :=
  match e with
  | E_Country c0 c1 port =>
      addr_char c0 && addr_char c1 && negb (char_eqb c0 ":"%char) && negb (char_eqb c1 ":"%char) && nonneg_opt port
  | E_Ports p q => nonneg p && nonneg_opt q
  | E_Ip4 addr s => addr4_ok addr && suffix_ok s && match p with Some (IP6, _) => false | _ => true end
  | E_Ip6 addr s => addr6_ok addr && suffix_ok s && match p with Some (IP6, _) => true | _ => false end
  end.

Definition alias_ok (t : text) : bool := forallb word_char t.
Definition item_ok (i : Item) : bool :=
  match i with
  | I_Switch _ _ | I_SyncookiesDel | I_AnomalyDel | I_IpProtoDel | I_TcpFlagsDel _ => true
  | I_Syncookies attrs => forallb (fun a => match a with TA_Passive n | TA_Flood n => nonneg n end) attrs
  | I_Ratelimit name attrs =>
      wordb name && forallb (fun a => match a with LA_Pps n | LA_Bps n => nonneg n end) attrs
  | I_RatelimitDel name => wordb name
  | I_TcpFlags _ rl => wordb rl
  | I_Anomaly attrs =>
      forallb (fun a => match a with
        | AA_SynWithSeqno n => nonneg n
        | AA_BadFlags combos => forallb (fun c => negb (is_empty_list c)) combos
        | _ => true
        end) attrs
  | I_IpProto ps => forallb nonneg ps
  | I_Icmp r => alias_ok (i_alias r) && match i_action r with Some a => act_ok a | None => true end
                && forallb nonneg (default [] (i_body r))
  | I_Net _ r => alias_ok (r_alias r) && match r_action r with Some a => act_ok a | None => true end
                 && forallb (entry_ok (r_proto r)) (default [] (r_body r))
  | I_Defaults rules =>
      forallb (fun d => act_ok (d_action d)
        && match d_type d, d_sel d with ICMP, Sel_Proto _ _ => false | _, _ => true end) rules
  | I_Comment t => negb (bool_decide (newline ∈ t))
  end.

(** Spaces and tabs in front of a command. *)
Definition line_ok (l : text * Item) : bool := forallb (fun c => bool_decide (c ∈ spaces)) l.1 && item_ok l.2.
End sem.
