(* ===== verification/GrammarTurns.v ===== *)
(** * GrammarTurns: the turns of the parser on the text of a command, and the bodies

    Runs of the parser as sequences of turns ([psteps]), what a text leads to
    ([leads]), and the turns that the sections share: their names, edits,
    attributes and actions. The parts of a line that are known are evaluated; words
    and numbers are read with the lemmas of [Grammar]. The second part holds the elements between the
    braces of a command. *)

From S2P Require Import Prelude.
From S2P Require Import Uapi.
From S2P Require Import Bitset.
From S2P Require Import AnomalyFlags.
From S2P Require Import ConfigUpdater.
From S2P Require Import LineConsumer.
From S2P Require Import Tcl.
From S2P Require Import Cli.
From S2P Require Import CliSpec.
From S2P Require Import Grammar.

Open Scope Z_scope.

(** A text that is known, in front of one that is not. *)
Fixpoint Tx (s : string) (r : text) : text :=
  match s with EmptyString => r | String c s => c :: Tx s r end.

Lemma Tx_app s r : T s ++ r = Tx s r.
Proof. induction s as [|c s IH]; [done|]. rewrite T_cons. cbn. by rewrite IH. Qed.

Lemma Tx_T s : T s = Tx s [].
Proof. by rewrite <- Tx_app, app_nil_r. Qed.

(** A word in front of another text. *)
Definition cat (t r : text) : text := t ++ r.

(** A section whose line is only consumed. *)
Definition Sx (m : Members) (st : State) (al : text) (ac : option CliAction) (ed : option EditType) (l : text) : Sec :=
  mkSec (clean l) st al ac ed m.
Definition xfwS (l : text) : Sec := Sx XfwSection ProcessingBody [] None None l.

Section runs.
Context `{BoostIp}.

(** ** Runs *)

Inductive psteps : list Sec -> Heap -> text -> list Sec -> Heap -> text -> Prop :=
  | psteps_refl st h lv : psteps st h lv st h lv
  | psteps_step st h lv st1 h1 lv1 st2 h2 lv2 : lv <> [] -> parse_step st h lv = inr (st1, h1, lv1) ->
      psteps st1 h1 lv1 st2 h2 lv2 -> psteps st h lv st2 h2 lv2.

(** What a run leads to: a state with the property, or an error. *)
Inductive leads : list Sec -> Heap -> text -> (list Sec -> Heap -> text -> Prop) -> bool -> Prop :=
  | leads_to st h lv (Q : list Sec -> Heap -> text -> Prop) : Q st h lv -> leads st h lv Q true
  | leads_error st h lv Q e : lv <> [] -> parse_step st h lv = inl e -> leads st h lv Q false
  | leads_step st h lv st1 h1 lv1 Q b : lv <> [] -> parse_step st h lv = inr (st1, h1, lv1) ->
      leads st1 h1 lv1 Q b -> leads st h lv Q b.

Lemma psteps_trans st h lv st1 h1 lv1 st2 h2 lv2 :
  psteps st h lv st1 h1 lv1 -> psteps st1 h1 lv1 st2 h2 lv2 -> psteps st h lv st2 h2 lv2.
Proof. induction 1; [done|]. intros. econstructor; eauto. Qed.

Lemma psteps_leads st h lv st1 h1 lv1 Q b :
  psteps st h lv st1 h1 lv1 -> leads st1 h1 lv1 Q b -> leads st h lv Q b.
Proof. induction 1; [done|]. intros. eapply leads_step; eauto. Qed.

Lemma leads_mono st h lv (Q Q' : list Sec -> Heap -> text -> Prop) b :
  leads st h lv Q b -> (forall st h lv, Q st h lv -> Q' st h lv) -> leads st h lv Q' b.
Proof. induction 1; intros HQ; [apply leads_to; auto|eapply leads_error; eauto|eapply leads_step; eauto]. Qed.

(** Two runs one after the other. *)
Lemma leads_trans st h lv (Q Q' : list Sec -> Heap -> text -> Prop) b :
  leads st h lv Q true -> (forall st h lv, Q st h lv -> leads st h lv Q' b) -> leads st h lv Q' b.
Proof.
  intros Hl. remember true as bt eqn:Ht. induction Hl; intros HQ; [auto|done|]. eapply leads_step; eauto.
Qed.

Lemma leads_false st h lv Q Q' : leads st h lv Q false -> leads st h lv Q' false.
Proof.
  intros Hl. remember false as bf eqn:Hf. induction Hl; [done|by eapply leads_error|eapply leads_step; eauto].
Qed.

(** The command was read: the section is where it was, with the new configuration. *)
Definition read_as (x : option XfwConf) (h : Heap) (r : text) (st : list Sec) (h' : Heap) (lv : text) : Prop :=
  exists l, st = [xfwS l] /\ lv = r /\ Some (h_xfw h') = x /\ h_conf h' = h_conf h.
End runs.

(** ** Evaluation

    [turn] makes a turn by evaluation; what reads a word is left to a rewriting. *)
Ltac ev := cbv -[cat dec word_char set_features consume_tcp_flags consume_assignment consume_typed_assignment consume_until
  h_conf h_xfw h_defaults h_presence x_set set_h_xfw set_h_conf add_rule add_netrule
  x_flags x_tcp_flags x_ratelimits x_icmp_rules x_net_rules x_defaults
  set_x_ratelimits set_x_tcp_flags set_x_icmp_rules set_x_syncookie set_x_tcp_anomaly set_x_ip_proto set_x_defaults
  Z.lor Z.pow Z.le Z.lt to_int read_as].
Ltac ev_in Hr := cbv -[cat dec word_char set_features consume_tcp_flags consume_assignment consume_typed_assignment consume_until
  h_conf h_xfw h_defaults h_presence x_set set_h_xfw set_h_conf add_rule add_netrule
  x_flags x_tcp_flags x_ratelimits x_icmp_rules x_net_rules x_defaults
  set_x_ratelimits set_x_tcp_flags set_x_icmp_rules set_x_syncookie set_x_tcp_anomaly set_x_ip_proto set_x_defaults
  Z.lor Z.pow Z.le Z.lt to_int read_as] in Hr.
(** Reading a word with a lemma, in the evaluated form. *)
Ltac reads lem := let Hr := fresh "Hr" in pose proof lem as Hr; ev_in Hr; rewrite Hr; clear Hr.
Ltac turn_with tac := first [eapply psteps_step | eapply leads_step]; [discriminate|ev; tac; ev; reflexivity|].
Ltac turn := turn_with idtac.
(** A turn that is an error. *)
Ltac error_with tac := eapply leads_error; [discriminate|ev; tac; ev; reflexivity].
Ltac error := error_with idtac.

Lemma wordb_word t : wordb t = true -> word t.
Proof. unfold wordb. intros [Hne Ht]%andb_true_iff. split; [by destruct t|done]. Qed.

Section turns.
Context `{BoostIp}.

Lemma typed_cat w key n c r : 0 <= n -> c ∈ delimeters ->
  consume_typed_assignment w key (clean (key ++ "="%char :: cat (dec n) (c :: r)))
  = if n <? 2 ^ w then inr (n, clean (c :: r)) else inl CE_INT.
Proof. apply typed_assignment_tok. Qed.
Lemma until_cat ts t c r : free_of ts t -> c ∈ ts ->
  consume_until ts (clean (cat t (c :: r))) = inr (t, clean (c :: r)).
Proof. apply consume_until_tok. Qed.
Lemma assignment_cat key t c r : word t -> c ∈ delimeters ->
  consume_assignment key (clean (key ++ "="%char :: cat t (c :: r))) = inr (t, clean (c :: r)).
Proof. apply assignment_tok. Qed.

(** What follows the attributes of a command. *)
Definition next_char (c : ascii) : Prop := c = " "%char \/ c = ";"%char.
Lemma next_delim c : next_char c -> c ∈ delimeters.
Proof. intros [-> | ->]; by apply (bool_decide_eq_true_1 (_ ∈ delimeters)). Qed.

Definition fails (st : list Sec) (h : Heap) (lv : text) : Prop := lv <> [] /\ exists e, parse_step st h lv = inl e.

(** One attribute: the next state of the section, or an error. *)
Definition attr_turn (m : Members) (m' : option Members) (t : text) : Prop :=
  forall al ac ed l stk h c r, next_char c ->
    match m' with
    | Some m' => exists l', psteps (Sx m ReadingAttributes al ac ed l :: stk) h (t ++ c :: r)
                   (Sx m' ReadingAttributes al ac ed l' :: stk) h (c :: r)
    | None => fails (Sx m ReadingAttributes al ac ed l :: stk) h (t ++ c :: r)
    end.

(** Attributes start with a space, or there are none. *)
Lemma attrs_head {A} (show : A -> text) attrs r : (forall a, exists r, show a = " "%char :: r) ->
  exists c t, next_char c /\ concat (show <$> attrs) ++ ";"%char :: r = c :: t.
Proof.
  intros Hsp. destruct attrs as [|a attrs]; [by exists ";"%char, r; split; [right|]|]. cbn [fmap list_fmap concat].
  destruct (Hsp a) as [t ->]. eexists _, _. split; [by left|done].
Qed.

(** The attributes of a command up to its end. *)
Lemma attrs_loop {S A} (mk : S -> Members) (sem : S -> A -> option S) (show : A -> text) (ok : A -> bool) :
  (forall s a, ok a = true -> attr_turn (mk s) (mk <$> sem s a) (show a)) ->
  (forall a, exists r, show a = " "%char :: r) ->
  forall attrs s al ac ed l stk h r Q b, forallb ok attrs = true ->
  match sem_attrs sem s attrs with
  | Some s' => forall l', leads (Sx (mk s') ReadingAttributes al ac ed l' :: stk) h (";"%char :: r) Q b
  | None => b = false
  end ->
  leads (Sx (mk s) ReadingAttributes al ac ed l :: stk) h (concat (show <$> attrs) ++ ";"%char :: r) Q b.
Proof.
  intros Hone Hsp attrs. induction attrs as [|a attrs IH]; intros s al ac ed l stk h r Q b Hok Hb.
  { apply Hb. }
  cbn in Hok. apply andb_true_iff in Hok as [Ha Hok]. cbn [fmap list_fmap concat]. rewrite <- app_assoc.
  destruct (attrs_head show attrs r Hsp) as (c & t & Hc & Ht).
  specialize (Hone s a Ha al ac ed l stk h c t Hc). cbn [sem_attrs] in Hb. rewrite Ht.
  destruct (sem s a) as [s'|]; cbn in Hone, Hb.
  - destruct Hone as [l' Hp]. eapply psteps_leads; [exact Hp|]. rewrite <- Ht. by apply IH.
  - destruct Hone as [Hne [e He]]. subst b. by eapply leads_error.
Qed.

(** *** The attributes of rate limits and timers *)

Lemma limit_turn fl lim a : match a with LA_Pps n | LA_Bps n => nonneg n end = true ->
  attr_turn (RatelimitSection (mkCliRatelimit [] fl lim.1 lim.2))
    ((fun lim => RatelimitSection (mkCliRatelimit [] fl lim.1 lim.2)) <$> sem_limit lim a) (show_limit a).
Proof.
  destruct a as [n|n]; intros Hn%Z.leb_le al ac ed l stk h c r Hc%next_delim; unfold sem_limit, show_limit;
    rewrite <- app_assoc, Tx_app; fold (cat (dec n) (c :: r)).
  - pose proof (typed_cat 64 (T "pps") n c r Hn Hc) as Ht. destruct (n <? 2 ^ 64); cbn [fmap option_fmap option_map].
    + eexists. turn_with ltac:(reads Ht). apply psteps_refl.
    + split; [discriminate|]. eexists. ev. reads Ht. reflexivity.
  - pose proof (typed_cat 64 (T "bps") n c r Hn Hc) as Ht. destruct (n <? 2 ^ 64); cbn [fmap option_fmap option_map].
    + eexists. turn_with ltac:(reads Ht). apply psteps_refl.
    + split; [discriminate|]. eexists. ev. reads Ht. reflexivity.
Qed.

Lemma timer_turn t a : match a with TA_Passive n | TA_Flood n => nonneg n end = true ->
  attr_turn (TcpSyncookieSection t.2 t.1) ((fun t => TcpSyncookieSection t.2 t.1) <$> sem_timer t a) (show_timer a).
Proof.
  destruct a as [n|n]; intros Hn%Z.leb_le al ac ed l stk h c r Hc%next_delim; unfold sem_timer, show_timer;
    rewrite <- app_assoc, Tx_app; fold (cat (dec n) (c :: r)).
  - pose proof (typed_cat 32 (T "passive_timer") n c r Hn Hc) as Ht. destruct (n <? 2 ^ 32); cbn [fmap option_fmap option_map].
    + eexists. turn_with ltac:(reads Ht). apply psteps_refl.
    + split; [discriminate|]. eexists. ev. reads Ht. reflexivity.
  - pose proof (typed_cat 32 (T "flood_timer") n c r Hn Hc) as Ht. destruct (n <? 2 ^ 32); cbn [fmap option_fmap option_map].
    + eexists. turn_with ltac:(reads Ht). apply psteps_refl.
    + split; [discriminate|]. eexists. ev. reads Ht. reflexivity.
Qed.

(** *** The combinations of flags *)

Lemma flag_plus fuel comb a f sp r : sp = [] \/ sp = T " " ->
  tcp_flags_loop (S fuel) comb a (clean (sp ++ show_flag f ++ "+"%char :: r))
  = tcp_flags_loop fuel (Some (Z.lor (flag_bit f) (default XFW_BIT_NONE comb))) a (clean r).
Proof. by intros [-> | ->]; destruct f. Qed.
Lemma flag_comma fuel comb a f sp r : sp = [] \/ sp = T " " ->
  tcp_flags_loop (S fuel) comb a (clean (sp ++ show_flag f ++ ","%char :: r))
  = tcp_flags_loop fuel None (save_tcp_flags_combination (Z.lor (flag_bit f) (default XFW_BIT_NONE comb)) a) (clean r).
Proof. by intros [-> | ->]; destruct f. Qed.
Lemma flag_close fuel comb a f sp r : sp = [] \/ sp = T " " ->
  tcp_flags_loop (S (S fuel)) comb a (clean (sp ++ show_flag f ++ ")"%char :: r))
  = inr (save_tcp_flags_combination (Z.lor (flag_bit f) (default XFW_BIT_NONE comb)) a, clean r).
Proof. by intros [-> | ->]; destruct f. Qed.

Lemma show_flag_length f : (1 <= length (show_flag f))%nat.
Proof. destruct f; cbn; lia. Qed.

(** The flags of one combination, in front of a comma or of the end. *)
Lemma combo_loop fs : fs <> [] -> forall fuel comb a sp r, sp = [] \/ sp = T " " ->
  let bits := fold_left (fun acc f => Z.lor (flag_bit f) acc) fs (default XFW_BIT_NONE comb) in
  ((length (sp ++ show_combo fs ++ ","%char :: r) < fuel)%nat ->
    exists fuel', (length r < fuel')%nat
      /\ tcp_flags_loop fuel comb a (clean (sp ++ show_combo fs ++ ","%char :: r))
         = tcp_flags_loop fuel' None (save_tcp_flags_combination bits a) (clean r))
  /\ ((length (sp ++ show_combo fs ++ ")"%char :: r) < fuel)%nat ->
      tcp_flags_loop fuel comb a (clean (sp ++ show_combo fs ++ ")"%char :: r))
      = inr (save_tcp_flags_combination bits a, clean r)).
Proof.
  induction fs as [|f fs IH]; [done|]. intros _ fuel comb a sp r Hsp. pose proof (show_flag_length f) as Hf.
  destruct fs as [|g fs].
  - cbn [show_combo fmap list_fmap join fold_left]. split; intros Hl; rewrite !length_app in Hl; cbn [length] in Hl.
    + destruct fuel as [|fuel]; [lia|]. exists fuel. split; [lia|]. by apply flag_comma.
    + destruct fuel as [|[|fuel]]; [lia|lia|]. by apply flag_close.
  - assert (He : show_combo (f :: g :: fs) = show_flag f ++ "+"%char :: show_combo (g :: fs)) by done.
    rewrite He. rewrite <- !app_assoc, <- !app_comm_cons.
    destruct fuel as [|fuel]; [split; intros Hl; rewrite !length_app in Hl; lia|].
    rewrite !flag_plus by done.
    specialize (IH ltac:(done) fuel (Some (Z.lor (flag_bit f) (default XFW_BIT_NONE comb))) a [] r ltac:(by left)).
    cbn [app] in IH. destruct IH as [IH1 IH2].
    split; intros Hl; repeat (rewrite length_app in Hl || cbn [length] in Hl); [apply IH1|apply IH2];
      repeat (rewrite length_app || cbn [length]); lia.
Qed.

Lemma combos_loop combos : combos <> [] -> Forall (fun c => c <> []) combos ->
  forall fuel a sp r, sp = [] \/ sp = T " " ->
  (length (sp ++ join (T ", ") (show_combo <$> combos) ++ ")"%char :: r) < fuel)%nat ->
  tcp_flags_loop fuel None a (clean (sp ++ join (T ", ") (show_combo <$> combos) ++ ")"%char :: r))
  = inr (fold_left (fun a c => save_tcp_flags_combination (combo_bits c) a) combos a, clean r).
Proof.
  induction combos as [|c combos IH]; [done|]. intros _ Hall fuel a sp r Hsp Hl. inversion Hall as [|? ? Hc Hall']; subst.
  destruct combos as [|c' combos].
  - cbn [fmap list_fmap join] in Hl |- *. by apply (combo_loop c Hc fuel None a sp r Hsp).
  - change (join (T ", ") (show_combo <$> c :: c' :: combos))
      with (show_combo c ++ ","%char :: " "%char :: join (T ", ") (show_combo <$> c' :: combos)) in Hl |- *.
    rewrite <- !app_assoc, <- !app_comm_cons in Hl |- *.
    destruct (combo_loop c Hc fuel None a sp (" "%char :: join (T ", ") (show_combo <$> c' :: combos) ++ ")"%char :: r) Hsp)
      as [Hn _]. destruct (Hn Hl) as (fuel' & Hf & ->).
    apply (IH ltac:(done) Hall' fuel' _ (T " ") r ltac:(by right)). exact Hf.
Qed.

Lemma consume_tcp_flags_tok combos a r : forallb (fun c => negb (is_empty_list c)) combos = true ->
  consume_tcp_flags a (clean ("("%char :: cat (join (T ", ") (show_combo <$> combos)) (")"%char :: r)))
  = inr (fold_left (fun a c => save_tcp_flags_combination (combo_bits c) a) combos a, clean r).
Proof.
  intros Hall. unfold consume_tcp_flags. unfold mbind, C_bind. rewrite consume_clean by (cbn; lia). cbn [drop].
  unfold cget. cbv beta iota. cbn [line_ clean]. unfold cat.
  destruct combos as [|c combos]; [done|]. apply (combos_loop (c :: combos)) with (sp := []); [done| |by left|apply Nat.lt_succ_diag_r].
  apply Forall_forall. intros d Hd%list_elem_of_In. rewrite forallb_forall in Hall. specialize (Hall d Hd). by destruct d.
Qed.

(** *** The attributes of the anomaly filter *)

Lemma anomaly_turn a attr :
  match attr with
  | AA_SynWithSeqno n => nonneg n
  | AA_BadFlags combos => forallb (fun c => negb (is_empty_list c)) combos
  | _ => true
  end = true ->
  attr_turn (TcpAnomalySection a) (TcpAnomalySection <$> sem_anomaly_attr a attr) (show_anomaly attr).
Proof.
  destruct attr as [| |n|combos]; intros Ha al ac ed l stk h c r Hc; unfold sem_anomaly_attr, show_anomaly;
    cbn [fmap option_fmap option_map].
  - destruct Hc as [-> | ->]; eexists; turn; apply psteps_refl.
  - destruct Hc as [-> | ->]; eexists; turn; apply psteps_refl.
  - apply Z.leb_le in Ha. rewrite <- app_assoc, Tx_app; fold (cat (dec n) (c :: r)). apply next_delim in Hc.
    pose proof (typed_cat 32 (T "syn_with_seqno") n c r Ha Hc) as Ht. destruct (n <? 2 ^ 32); cbn [option_map].
    + eexists. turn_with ltac:(reads Ht). apply psteps_refl.
    + split; [discriminate|]. eexists. ev. reads Ht. reflexivity.
  - rewrite <- !app_assoc, Tx_app, (Tx_app ")"). fold (cat (join (T ", ") (show_combo <$> combos)) (Tx ")" (c :: r))).
    pose proof (consume_tcp_flags_tok combos (set_features XFW_BAD_FLAGS a) (c :: r) Ha) as Ht.
    revert Ht. generalize (join (T ", ") (show_combo <$> combos)) as X.
    generalize (fold_left (fun a c => save_tcp_flags_combination (combo_bits c) a) combos (set_features XFW_BAD_FLAGS a)) as A.
    intros A X Ht. eexists. turn_with ltac:(reads Ht). apply psteps_refl.
Qed.

(** *** Actions *)

(** What a state of a section does with a line that is not a comment. *)
Definition handler (st : State) : Ps Next :=
  match st with
  | Start => starting
  | ProcessEditAction => processing_edit
  | ReadingAttributes => reading_attributes
  | ProcessingAction => processing_action
  | ProcessingBody => processing_body
  | End_ => cthrow CE_ASSERT
  end.

Lemma skip_spaces_drop lv a r : drop (leading_spaces lv) lv = a :: r -> skip_spaces (clean lv) = inr (tt, clean (a :: r)).
Proof.
  intros Hd. unfold skip_spaces, consume_acc, cget, cverify, mbind, C_bind, mret, C_ret. cbn [clean line_].
  assert (Hl : (leading_spaces lv <= length lv)%nat).
  { clear. induction lv as [|c lv IH]; [done|]. cbn. destruct (isspace c); lia. }
  rewrite (proj2 (Nat.leb_le _ _) Hl), Hd. done.
Qed.

Lemma section_turn m st al ac ed l stk h lv a r :
  drop (leading_spaces lv) lv = a :: r -> a <> "#"%char -> st <> End_ ->
  parse_step (Sx m st al ac ed l :: stk) h lv
  = match handler st (Sx m st al ac ed (a :: r), h) with
    | inl e => inl e
    | inr (n, (o', h')) =>
        inr (match n with N_this => o' :: stk | N_child s => s :: o' :: stk | N_done => stk end, h', line_ (base_ o'))
    end.
Proof.
  intros Hd Ha Hst. unfold parse_step, consume_line.
  assert (Hs : section_line (with_base (set_line lv (base_ (Sx m st al ac ed l))) (Sx m st al ac ed l), h)
    = handler st (Sx m st al ac ed (a :: r), h)).
  { unfold section_line. unfold this, line, cget, mbind, C_bind, mret, C_ret, cverify. cbn [fst snd].
    rewrite bool_decide_false by done. cbn [negb]. unfold mret, C_ret.
    cbn [with_base Sx base_]. change (set_line lv (clean l)) with (clean lv). rewrite (skip_spaces_drop _ _ _ Hd). cbn.
    unfold is_empty, peek, cget, mbind, C_bind, mret, C_ret. cbn. unfold char_eqb. rewrite bool_decide_false by done. by destruct st. }
  rewrite Hs. destruct (handler st _) as [e|[n [o' h']]]; done.
Qed.

(** Running a sequence by its first part. *)
Lemma C_bind_run {S A B} (m : C S A) (k : A -> C S B) s a s' : m s = inr (a, s') -> (m ≫= k) s = k a s'.
Proof. intros Hm. unfold mbind, C_bind. by rewrite Hm. Qed.
Lemma line_run {A} (m : L A) o h a b : m (base_ o) = inr (a, b) -> line m (o, h) = inr (a, (with_base b o, h)).
Proof. intros Hm. unfold line. by rewrite Hm. Qed.

(** The last character of a section. *)
Lemma finish_run m st al ac ed a r h : finish (Sx m st al ac ed (a :: r), h)
  = match commit (Sx m End_ al ac ed r, h) with inl e => inl e | inr (_, s') => inr (N_done, s') end.
Proof.
  unfold finish. erewrite C_bind_run by reflexivity. erewrite C_bind_run by reflexivity. unfold mbind, C_bind, mret, C_ret.
  by destruct (commit _) as [e|[[] s']].
Qed.

(** What ends the name of a section. *)
Definition alias_end (c : ascii) : Prop := c = "/"%char \/ next_char c.
Lemma alias_until t c r : forallb word_char t = true -> alias_end c ->
  consume_until (delimeters ++ T "/") (clean (t ++ c :: r)) = inr (t, clean (c :: r)).
Proof.
  intros Ht Hc. apply consume_until_tok; [by apply word_free|].
  destruct Hc as [-> | [-> | ->]]; by apply (bool_decide_eq_true_1 (_ ∈ delimeters ++ T "/")).
Qed.

Lemma starting_alias m al c r h : forallb word_char al = true -> alias_end c ->
  starting (Sx m Start [] None None (name_ m ++ "="%char :: al ++ c :: r), h)
  = inr (N_this, (Sx m (if char_eqb c "/"%char && has_edit_processor m then ProcessEditAction else ReadingAttributes)
                    al None None (c :: r), h)).
Proof.
  intros Hal Hc. unfold starting. erewrite C_bind_run.
  2:{ unfold process_name. erewrite C_bind_run by reflexivity. erewrite C_bind_run by reflexivity.
      erewrite C_bind_run by (eapply line_run, consume_prefix_tok). erewrite C_bind_run by reflexivity.
      change (char_eqb _ "=") with true. cbv iota. erewrite C_bind_run by reflexivity.
      erewrite C_bind_run by (eapply line_run, (alias_until al c r); done). reflexivity. }
  erewrite C_bind_run by reflexivity. erewrite C_bind_run by reflexivity. reflexivity.
Qed.

Lemma action_ratelimit_tok m al ed h rl c r : word rl -> next_char c ->
  action_process (Sx m ProcessingAction al None ed (Tx "ratelimit=" (cat rl (c :: r))), h)
  = inr (true, (Sx m ProcessingAction al (Some (mkCliAction rl true)) ed (c :: r), h)).
Proof.
  intros Hw Hc%next_delim. pose proof (assignment_cat (T "ratelimit") rl c r Hw Hc) as Ha. ev_in Ha.
  ev. rewrite Ha. reflexivity.
Qed.

Lemma processing_action_done o h s' : has_action_processor (members_ o) = true ->
  action_process (o, h) = inr (true, s') -> processing_action (o, h) = inr (N_this, s').
Proof.
  intros Hm Ha. unfold processing_action, this, cget, mbind, C_bind, mret, C_ret. cbn [fst]. rewrite Hm. cbn [cverify].
  unfold mret, C_ret. by rewrite Ha.
Qed.

(** The action of a rule, up to what follows it. *)
Lemma action_turn m al ed l stk h a c r : has_action_processor m = true -> act_ok a = true -> next_char c ->
  exists l', psteps (Sx m ReadingAttributes al None ed l :: stk) h (show_act a ++ c :: r)
    (Sx m ProcessingAction al (Some (act_of a)) ed l' :: stk) h (c :: r).
Proof.
  intros Hm Ha Hc. destruct a as [| |rl]; unfold show_act.
  - destruct m; try discriminate Hm; destruct Hc as [-> | ->]; eexists; do 2 turn; apply psteps_refl.
  - destruct m; try discriminate Hm; destruct Hc as [-> | ->]; eexists; do 2 turn; apply psteps_refl.
  - rewrite <- app_assoc, Tx_app. fold (cat rl (c :: r)).
    eexists. eapply psteps_trans.
    { destruct m; try discriminate Hm; turn; apply psteps_refl. }
    eapply psteps_step; [discriminate| |apply psteps_refl].
    etransitivity; [apply section_turn with (a := "r"%char) (st := ProcessingAction); [reflexivity|discriminate..]|].
    cbn [handler]. erewrite processing_action_done; [|exact Hm|apply action_ratelimit_tok; [by apply wordb_word|done]].
    reflexivity.
Qed.
End turns.

(** * The bodies of the commands

    The elements between the braces of a command, separated by commas: numbers, ports,
    countries and addresses. *)

Section bodies.
Context `{BoostIp}.

(** What follows an element, and what is left of it: the comma is consumed. *)
Definition elem_end (c : ascii) : Prop := c = ","%char \/ c = "}"%char.
Definition after_elem (c : ascii) (r : text) : text := if char_eqb c ","%char then r else c :: r.

Lemma elem_delim c : elem_end c -> c ∈ delimeters.
Proof. intros [-> | ->]; by apply (bool_decide_eq_true_1 (_ ∈ delimeters)). Qed.

(** An element starts with a character that is neither white space nor a comment. *)
Definition elem_head (t : text) : Prop := exists a t', t = a :: t' /\ isspace a = false /\ a <> "#"%char.

(** One element: the next state of the section, or an error. *)
Definition elem_turn (m : Members) (m' : option Members) (t : text) : Prop :=
  elem_head t /\ forall al ac ed h c r, elem_end c ->
    match m' with
    | Some m' => process_body (Sx m ProcessingBody al ac ed (t ++ c :: r), h)
                 = inr (Mine, (Sx m' ProcessingBody al ac ed (after_elem c r), h))
    | None => exists e, process_body (Sx m ProcessingBody al ac ed (t ++ c :: r), h) = inl e
    end.

Lemma body_step m al ac ed l stk h lv a r :
  lv = a :: r -> isspace a = false -> a <> "#"%char ->
  parse_step (Sx m ProcessingBody al ac ed l :: stk) h lv
  = match processing_body (Sx m ProcessingBody al ac ed lv, h) with
    | inl e => inl e
    | inr (n, (o', h')) =>
        inr (match n with N_this => o' :: stk | N_child s => s :: o' :: stk | N_done => stk end, h', line_ (base_ o'))
    end.
Proof.
  intros -> Ha Hc. apply section_turn with (st := ProcessingBody); [|done..]. cbn [leading_spaces]. by rewrite Ha.
Qed.

Lemma processing_body_mine s s' : process_body s = inr (Mine, s') -> processing_body s = inr (N_this, s').
Proof. intros Hp. unfold processing_body, mbind, C_bind. by rewrite Hp. Qed.
Lemma processing_body_error s e : process_body s = inl e -> processing_body s = inl e.
Proof. intros Hp. unfold processing_body, mbind, C_bind. by rewrite Hp. Qed.

(** The elements up to the closing brace. *)
Lemma body_loop {S A} (mk : S -> Members) (sem : S -> A -> option S) (show : A -> text) (ok : A -> bool) :
  (forall s a, ok a = true -> elem_turn (mk s) (mk <$> sem s a) (show a)) ->
  forall es s al ac ed l stk h r Q b, forallb ok es = true ->
  match sem_attrs sem s es with
  | Some s' => forall l', leads (Sx (mk s') ProcessingBody al ac ed l' :: stk) h ("}"%char :: r) Q b
  | None => b = false
  end ->
  leads (Sx (mk s) ProcessingBody al ac ed l :: stk) h (join (T ",") (show <$> es) ++ "}"%char :: r) Q b.
Proof.
  intros Hone es. induction es as [|e es IH]; intros s al ac ed l stk h r Q b Hok Hb.
  { apply Hb. }
  cbn in Hok. apply andb_true_iff in Hok as [He Hok].
  assert (exists c t, elem_end c /\ after_elem c t = join (T ",") (show <$> es) ++ "}"%char :: r
    /\ join (T ",") (show <$> e :: es) ++ "}"%char :: r = show e ++ c :: t) as (c & t & Hc & Ht & Hj).
  { destruct es as [|e' es].
    - exists "}"%char, r. split; [by right|]. done.
    - exists ","%char, (join (T ",") (show <$> e' :: es) ++ "}"%char :: r). split; [by left|]. split; [done|].
      change (join (T ",") (show <$> e :: e' :: es)) with (show e ++ ","%char :: join (T ",") (show <$> e' :: es)).
      by rewrite <- app_assoc. }
  destruct (Hone s e He) as [(a & t' & Ha & Hsp & Hn) Hp]. specialize (Hp al ac ed h c t Hc). cbn [sem_attrs] in Hb.
  rewrite Hj. assert (Hl : show e ++ c :: t = a :: (t' ++ c :: t)) by (by rewrite Ha).
  destruct (sem s e) as [s'|]; cbn in Hp, Hb.
  - eapply leads_step; [by rewrite Ha| |].
    { rewrite (body_step _ _ _ _ _ _ _ _ _ _ Hl Hsp Hn). rewrite (processing_body_mine _ _ Hp). reflexivity. }
    cbn [line_ base_ Sx clean]. rewrite Ht. by apply IH.
  - destruct Hp as [er Hp]. subst b. eapply leads_error; [by rewrite Ha|].
    rewrite (body_step _ _ _ _ _ _ _ _ _ _ Hl Hsp Hn). by rewrite (processing_body_error _ _ Hp).
Qed.

(** The closing brace. *)
Lemma body_close m al ac ed l stk h r :
  process_body (Sx m ProcessingBody al ac ed ("}"%char :: r), h) = inr (NotMine, (Sx m ProcessingBody al ac ed ("}"%char :: r), h)) ->
  parse_step (Sx m ProcessingBody al ac ed l :: stk) h ("}"%char :: r)
  = match commit (Sx m End_ al ac ed r, h) with
    | inl e => inl e
    | inr (_, (o', h')) => inr (stk, h', line_ (base_ o'))
    end.
Proof.
  intros Hp. rewrite body_step with (a := "}"%char) (r := r) by done.
  unfold processing_body. unfold mbind at 1, C_bind at 1. rewrite Hp.
  change (mbind _ (line peek) _) with (finish (Sx m ProcessingBody al ac ed ("}"%char :: r), h)).
  rewrite finish_run. by destruct (commit _) as [e|[[] [o' h']]].
Qed.

(** Nothing of the body is left in front of the brace. *)
Definition closes (m : Members) : bool :=
  match m with NetRuleSection _ _ _ | IcmpSection _ | IpProtoSection _ => true | _ => false end.
Lemma close_body m al ac ed h r : closes m = true ->
  process_body (Sx m ProcessingBody al ac ed ("}"%char :: r), h) = inr (NotMine, (Sx m ProcessingBody al ac ed ("}"%char :: r), h)).
Proof. by destruct m. Qed.

(** *** Numbers *)

Lemma dec_head n : elem_head (dec n).
Proof.
  destruct (dec_digits n) as [Hd Hn]. destruct (dec n) as [|a t]; [done|]. inversion Hd; subst. exists a, t.
  split; [done|]. apply digit_word in H2 as Hw. unfold word_char in Hw. apply andb_true_iff in Hw as [Hw _].
  apply negb_true_iff in Hw. split; [done|]. intros ->. by destruct H2.
Qed.

Definition icmp_elem (rule : CliIcmpRule) (n : Z) : option CliIcmpRule :=
  if n <? 2 ^ 32
  then Some (mkCliIcmpRule (ci_alias rule) (ci_flags rule) (ci_types rule ++ [u8 n]) (ci_ratelimit rule)) else None.

Lemma dec_until n c r : c ∈ delimeters ->
  consume_until_delimeters (clean (dec n ++ c :: r)) = inr (dec n, clean (c :: r)).
Proof. intros Hc. apply consume_until_tok; [apply word_delims, dec_word|done]. Qed.

Ltac open_body := unfold process_body, line, this, cget, mbind, C_bind, mret, C_ret, cpure; cbn [fst snd members_ base_ Sx].

Lemma icmp_elem_turn rule n : nonneg n = true -> elem_turn (IcmpSection rule) (IcmpSection <$> icmp_elem rule n) (dec n).
Proof.
  intros Hn%Z.leb_le. split; [apply dec_head|]. intros al ac ed h c r Hc.
  unfold icmp_elem. open_body. unfold icmp_body. open_body.
  rewrite dec_until by (by apply elem_delim). rewrite bool_decide_false by apply dec_digits.
  rewrite parse_as_dec by done. destruct (n <? 2 ^ 32); [|by eexists].
  cbn [fmap option_fmap option_map]. destruct Hc as [-> | ->]; reflexivity.
Qed.

Definition ip_proto_elem (s : option (list Z)) (n : Z) : option (option (list Z)) :=
  if n <=? XFW_SUPPORTED_PROTOCOL_MAX
  then Some (Some (BitSet_set n (default (BitSet_empty XFW_SUPPORTED_PROTOCOL_MAX) s))) else None.

Lemma ip_proto_elem_turn s n : nonneg n = true ->
  elem_turn (IpProtoSection s) (IpProtoSection <$> ip_proto_elem s n) (dec n).
Proof.
  intros Hn%Z.leb_le. split; [apply dec_head|]. intros al ac ed h c r Hc.
  unfold ip_proto_elem. open_body. unfold ip_proto_body. open_body.
  rewrite dec_until by (by apply elem_delim). rewrite bool_decide_false by apply dec_digits.
  rewrite parse_as_dec by done. destruct (n <=? XFW_SUPPORTED_PROTOCOL_MAX) eqn:Hm; cbn [fmap option_fmap option_map].
  - rewrite (proj2 (Z.ltb_lt _ _)) by (apply Z.leb_le in Hm; change XFW_SUPPORTED_PROTOCOL_MAX with 255 in Hm; lia).
    rewrite Hm. destruct Hc as [-> | ->]; reflexivity.
  - destruct (n <? 2 ^ 32); [|by eexists]. rewrite Hm. by eexists.
Qed.

(** What the numbers of a body come to. *)
Lemma icmp_elems ns rule : sem_attrs icmp_elem rule ns
  = if forallb (fun n => n <? 2 ^ 32) ns
    then Some (mkCliIcmpRule (ci_alias rule) (ci_flags rule) (ci_types rule ++ (u8 <$> ns)) (ci_ratelimit rule)) else None.
Proof.
  revert rule. induction ns as [|n ns IH]; intros rule; cbn [sem_attrs forallb fmap list_fmap].
  - rewrite app_nil_r. by destruct rule.
  - unfold icmp_elem at 2. destruct (n <? 2 ^ 32); [|done]. cbn [mbind option_bind andb]. rewrite IH.
    cbn [ci_alias ci_flags ci_types ci_ratelimit]. by rewrite <- app_assoc.
Qed.

Lemma ip_proto_elems ns s : sem_attrs ip_proto_elem s ns
  = if forallb (fun n => n <=? XFW_SUPPORTED_PROTOCOL_MAX) ns
    then Some (match ns with
      | [] => s
      | _ => Some (fold_left (fun s f => BitSet_set f s) ns (default (BitSet_empty XFW_SUPPORTED_PROTOCOL_MAX) s))
      end) else None.
Proof.
  revert s. induction ns as [|n ns IH]; intros s; [done|]. cbn [sem_attrs forallb].
  unfold ip_proto_elem at 2. destruct (n <=? XFW_SUPPORTED_PROTOCOL_MAX); [|done]. cbn [mbind option_bind andb].
  rewrite IH. by destruct ns.
Qed.
End bodies.
