(* ===== verification/GrammarRules.v ===== *)
(** * GrammarRules: the rules of the firewall and the default actions

    A rule for networks, ports or kinds of ICMP has a name, an edit, a protocol, an
    action and a body, each of which may be missing. The parts are read one after
    the other and stored at the end. The second part holds the default actions. *)

From S2P Require Import Prelude.
From S2P Require Import Uapi.
From S2P Require Import Bitset.
From S2P Require Import ConfigUpdater.
From S2P Require Import LineConsumer.
From S2P Require Import Tcl.
From S2P Require Import Cli.
From S2P Require Import CliSpec.
From S2P Require Import Grammar.
From S2P Require Import GrammarTurns.

Open Scope Z_scope.

Section rules.
Context `{BoostIp}.

(** The sections of rules, as they start. *)
Definition kind_attr (k : NetKind) : option Z :=
  match k with SrcSection => Some NetRuleAttr_SRC | DstSection => None | ProtectedNetSection => Some NetRuleAttr_PROTECTED_NET end.
Inductive RuleKind := RK_Icmp | RK_Net (k : NetKind).
Definition rule_sec (k : RuleKind) : Members :=
  match k with
  | RK_Icmp => IcmpSection IcmpRule_empty
  | RK_Net k => NetRuleSection k (NetRule_init (kind_attr k)) false
  end.

(** What may follow the name and the edit of a rule. *)
Definition tail_head (t : text) : Prop :=
  (exists r, t = ";"%char :: r)
  \/ exists a r, t = " "%char :: a :: r /\ isspace a = false /\ a <> "#"%char /\ a <> "/"%char.

Definition after_name (c : ascii) : State := if char_eqb c "/"%char then ProcessEditAction else ReadingAttributes.

Lemma rule_name_head k r : exists a r', name_ (rule_sec k) ++ r = a :: r' /\ isspace a = false /\ a <> "#"%char.
Proof. destruct k as [|[]]; eexists _, _; (split; [reflexivity|]); (split; [done|discriminate]). Qed.

Lemma rule_opens k r l h c : c = "="%char \/ alias_end c ->
  psteps [xfwS l] h (name_ (rule_sec k) ++ c :: r)
    [Sx (rule_sec k) Start [] None None []; xfwS (name_ (rule_sec k) ++ c :: r)] h (name_ (rule_sec k) ++ c :: r).
Proof. intros Hc. destruct k as [|[]], Hc as [-> | [-> | [-> | ->]]]; turn; apply psteps_refl. Qed.

Lemma rule_starts k al c r h : forallb word_char al = true -> alias_end c ->
  starting (Sx (rule_sec k) Start [] None None (name_ (rule_sec k) ++ show_alias al ++ c :: r), h)
  = inr (N_this, (Sx (rule_sec k) (after_name c) al None None (c :: r), h)).
Proof.
  intros Hal Hc. destruct al as [|a al]; [destruct k as [|[]], Hc as [-> | [-> | ->]]; reflexivity|].
  change (show_alias (a :: al) ++ c :: r) with ("="%char :: (a :: al) ++ c :: r).
  rewrite starting_alias by done. unfold after_name. destruct k; by rewrite andb_true_r.
Qed.

Lemma name_turn k al c r l h : forallb word_char al = true -> alias_end c ->
  exists l1 l2, psteps [xfwS l] h (name_ (rule_sec k) ++ show_alias al ++ c :: r)
    [Sx (rule_sec k) (after_name c) al None None l2; xfwS l1] h (c :: r).
Proof.
  intros Hal Hc. assert (exists d t, show_alias al ++ c :: r = d :: t /\ (d = "="%char \/ alias_end d)) as (d & t & Hd & Hde).
  { destruct al as [|a al]; eexists _, _; (split; [reflexivity|]); [by right|by left]. }
  eexists _, _. rewrite Hd. eapply psteps_trans; [by apply rule_opens|].
  eapply psteps_step; [by destruct k as [|[]]| |apply psteps_refl].
  destruct (rule_name_head k (d :: t)) as (a0 & r0 & H0 & Hsp & Hcm).
  rewrite (section_turn _ Start _ _ _ _ _ _ _ a0 r0); [|rewrite H0; cbn; by rewrite Hsp|done|done].
  cbn [handler]. rewrite <- H0, <- Hd, rule_starts by done. reflexivity.
Qed.

(** An edit; the second turn finds none and goes on to the attributes. *)
Lemma edit_process_tok m al e h c r : next_char c ->
  edit_process (Sx m ProcessEditAction al None None (show_edit (Some e) ++ c :: r), h)
  = inr (true, (Sx m ProcessEditAction al None (Some e) (c :: r), h)).
Proof. intros Hc. destruct e, Hc as [-> | ->]; reflexivity. Qed.

Lemma processing_edit_run m al e l h b s' : has_edit_processor m = true ->
  edit_process (Sx m ProcessEditAction al None e l, h) = inr (b, s') ->
  processing_edit (Sx m ProcessEditAction al None e l, h)
  = if (b : bool) then inr (N_this, s') else inr (N_this, (with_state ReadingAttributes s'.1, s'.2)).
Proof.
  intros Hm He. unfold processing_edit. erewrite C_bind_run by reflexivity. cbn [fst members_ Sx]. rewrite Hm.
  erewrite C_bind_run by reflexivity. erewrite C_bind_run by exact He. destruct b; [done|]. by destruct s'.
Qed.

Lemma rule_has_edit k : has_edit_processor (rule_sec k) = true.
Proof. by destruct k. Qed.

Lemma edit_turn k al e l stk h c r : next_char c ->
  exists l', psteps (Sx (rule_sec k) ProcessEditAction al None None l :: stk) h (show_edit (Some e) ++ c :: r)
    (Sx (rule_sec k) ProcessEditAction al None (Some e) l' :: stk) h (c :: r).
Proof.
  intros Hc. assert (exists t, show_edit (Some e) ++ c :: r = "/"%char :: t) as [t Ht] by (destruct e; by eexists).
  eexists. eapply psteps_step; [by rewrite Ht| |apply psteps_refl].
  rewrite (section_turn _ ProcessEditAction _ _ _ _ _ _ _ "/"%char t); [|by rewrite Ht|done..]. rewrite <- Ht.
  cbn [handler]. by erewrite processing_edit_run by (apply rule_has_edit || by apply edit_process_tok).
Qed.

Lemma edit_process_none o h a r : base_ o = clean (a :: r) -> a <> "/"%char -> edit_process (o, h) = inr (false, (o, h)).
Proof.
  intros Hb Ha. unfold edit_process, line, peek_until_delimeters, peek_until, cget, mbind, C_bind, mret, C_ret. rewrite Hb.
  cbn [line_ clean until].
  assert (Hn : forall s n, n = (if bool_decide (a ∈ delimeters) then [] else a :: until delimeters r) ->
    text_eqb n (T (String "/" s)) = false).
  { intros s n ->. unfold text_eqb. apply bool_decide_eq_false. rewrite T_cons. destruct (bool_decide _); [done|]. congruence. }
  rewrite !Hn by done. cbn [with_base]. rewrite <- Hb. by destruct o.
Qed.

Lemma edit_done_turn k al e l stk h lv a r : drop (leading_spaces lv) lv = a :: r -> a <> "#"%char -> a <> "/"%char ->
  exists l', parse_step (Sx (rule_sec k) ProcessEditAction al None e l :: stk) h lv
    = inr (Sx (rule_sec k) ReadingAttributes al None e l' :: stk, h, a :: r).
Proof.
  intros Hd Ha Hs. eexists. erewrite section_turn by done. cbn [handler].
  by erewrite processing_edit_run by (apply rule_has_edit || by eapply edit_process_none).
Qed.

(** Leading spaces make no difference. *)
Lemma leads_strip m st al ac ed l stk h a r Q b : isspace a = false -> a <> "#"%char -> st <> End_ ->
  ~ Q (Sx m st al ac ed l :: stk) h (" "%char :: a :: r) ->
  leads (Sx m st al ac ed l :: stk) h (" "%char :: a :: r) Q b -> leads (Sx m st al ac ed l :: stk) h (a :: r) Q b.
Proof.
  intros Hsp Ha Hst HQ Hl.
  assert (He : parse_step (Sx m st al ac ed l :: stk) h (" "%char :: a :: r) = parse_step (Sx m st al ac ed l :: stk) h (a :: r)).
  { rewrite (section_turn m st al ac ed l stk h (" "%char :: a :: r) a r), (section_turn m st al ac ed l stk h (a :: r) a r);
      try done; cbn; by rewrite Hsp. }
  inversion Hl; subst; [done| |].
  - eapply leads_error; [done|]. by rewrite <- He.
  - eapply leads_step; [done| |done]. by rewrite <- He.
Qed.

Lemma tail_next t : tail_head t -> exists c r, t = c :: r /\ next_char c.
Proof. intros [[r ->] | (a & r & -> & _)]; eexists _, _; (split; [reflexivity|]); [by right|by left]. Qed.

(** A goal that only the body of the section xfw reaches. *)
Definition at_top (Q : list Sec -> Heap -> text -> Prop) : Prop := forall o o' stk h lv, ~ Q (o :: o' :: stk) h lv.

(** The name and the edit of a rule. *)
Lemma rule_head k al e l h tail Q b : forallb word_char al = true -> tail_head tail -> at_top Q ->
  (forall l1 l2, leads [Sx (rule_sec k) ReadingAttributes al None e l2; xfwS l1] h tail Q b) ->
  leads [xfwS l] h (name_ (rule_sec k) ++ show_alias al ++ show_edit e ++ tail) Q b.
Proof.
  intros Hal Ht HQ Hl. destruct (tail_next tail Ht) as (c & t & -> & Hc). destruct e as [e|].
  - assert (exists t', show_edit (Some e) ++ c :: t = "/"%char :: t') as [t' He] by (destruct e; by eexists).
    rewrite He. destruct (name_turn k al "/"%char t' l h Hal (or_introl eq_refl)) as (l1 & l2 & Hn).
    eapply psteps_leads; [exact Hn|]. rewrite <- He. change (after_name "/") with ProcessEditAction.
    destruct (edit_turn k al e l2 [xfwS l1] h c t Hc) as [l3 He2]. eapply psteps_leads; [exact He2|].
    destruct Ht as [[r Hr] | (a & r & Hr & Hsp & Ha & Hs)]; inversion Hr; subst.
    + edestruct (edit_done_turn k al (Some e) l3 [xfwS l1] h (";"%char :: r) ";"%char r) as [l4 Hd]; [done..|].
      eapply leads_step; [done|exact Hd|]. apply Hl.
    + edestruct (edit_done_turn k al (Some e) l3 [xfwS l1] h (" "%char :: a :: r) a r) as [l4 Hd];
        [cbn; by rewrite Hsp|done..|].
      eapply leads_step; [done|exact Hd|]. apply leads_strip; [done..|apply HQ|apply Hl].
  - destruct (name_turn k al c t l h Hal (or_intror Hc)) as (l1 & l2 & Hn). eapply psteps_leads; [exact Hn|].
    replace (after_name c) with ReadingAttributes by (by destruct Hc as [-> | ->]). apply Hl.
Qed.

(** ** The protocol and the action *)

Definition show_rule_proto (k : RuleKind) (p : Family * Transport) : text :=
  match k with RK_Icmp => show_family p.1 | RK_Net k => show_kind_proto k p end.
Definition icmp_flags (p : option Family) : list Z := match p with Some IP6 => [IcmpRuleAttr_IPV6] | _ => [] end.

(** The section of a rule with its protocol. *)
Definition rule_with (k : RuleKind) (p : option (Family * Transport)) : Members :=
  match k with
  | RK_Icmp => IcmpSection (mkCliIcmpRule [] (flags_of IcmpRuleAttr_MAX_BIT (icmp_flags (fst <$> p))) [] [])
  | RK_Net k => NetRuleSection k (mkCliNetRule [] (flags_of NetRuleAttr_MAX_BIT (kind_flags k ++ proto_flags k p)) [] [] [] [] [])
                  (negb (is_none p))
  end.

Lemma rule_with_none k : rule_with k None = rule_sec k.
Proof. by destruct k as [|[]]. Qed.

Lemma proto_attributes k p al e h c r : next_char c ->
  process_attributes (Sx (rule_sec k) ReadingAttributes al None e (show_rule_proto k p ++ c :: r), h)
  = inr (true, (Sx (rule_with k (Some p)) ReadingAttributes (rule_name al (Some (show_rule_proto k p))) None e (c :: r), h)).
Proof. intros Hc. destruct k as [|[]], p as [[] []], Hc as [-> | ->], al as [|a al]; reflexivity. Qed.

Lemma reading_attributes_run o h a r : base_ o = clean (a :: r) -> a <> ";"%char -> a <> "{"%char -> a <> ":"%char ->
  reading_attributes (o, h)
  = match process_attributes (o, h) with
    | inl e => inl e
    | inr (ok, s') => if (ok : bool) then inr (N_this, s') else inl CE_UNKNOWN_SYMBOLS
    end.
Proof.
  intros Hb H1 H2 H3. unfold reading_attributes. erewrite C_bind_run by reflexivity.
  erewrite C_bind_run by (eapply line_run; rewrite Hb; reflexivity). cbv iota beta.
  unfold char_eqb. rewrite !bool_decide_false by done. cbn [andb]. rewrite <- Hb.
  replace (with_base (base_ o) o) with o by (by destruct o). unfold mbind, C_bind.
  destruct (process_attributes (o, h)) as [e|[[] s']]; done.
Qed.

Lemma proto_turn k p al e l stk h c r : next_char c ->
  exists l', psteps (Sx (rule_sec k) ReadingAttributes al None e l :: stk) h (" "%char :: show_rule_proto k p ++ c :: r)
    (Sx (rule_with k (Some p)) ReadingAttributes (rule_name al (Some (show_rule_proto k p))) None e l' :: stk) h (c :: r).
Proof.
  intros Hc. assert (exists t, show_rule_proto k p ++ c :: r = "i"%char :: t) as [t Ht].
  { destruct k as [|[]], p as [[] []]; by eexists. }
  eexists. eapply psteps_step; [done| |apply psteps_refl].
  rewrite (section_turn _ ReadingAttributes _ _ _ _ _ _ _ "i"%char t); [|by rewrite Ht|done..].
  cbn [handler]. rewrite (reading_attributes_run _ _ "i"%char t) by done. rewrite <- Ht.
  by rewrite proto_attributes.
Qed.

Lemma rule_has_action k p : has_action_processor (rule_with k p) = true.
Proof. by destruct k. Qed.

Definition after_action (a : option Act) : State := match a with Some _ => ProcessingAction | None => ReadingAttributes end.

Lemma rule_attrs k p a al e l stk h c r Q b : match a with Some a => act_ok a | None => true end = true -> next_char c ->
  (forall l', leads (Sx (rule_with k p) (after_action a) (rule_name al (show_rule_proto k <$> p)) (act_of <$> a) e l' :: stk)
                h (c :: r) Q b) ->
  leads (Sx (rule_sec k) ReadingAttributes al None e l :: stk) h
    (show_opt (fun p => T " " ++ show_rule_proto k p) p ++ show_opt show_act a ++ c :: r) Q b.
Proof.
  intros Ha Hc Hl.
  assert (Hact : forall al l, (forall l', leads (Sx (rule_with k p) (after_action a) al (act_of <$> a) e l' :: stk) h (c :: r) Q b) ->
    leads (Sx (rule_with k p) ReadingAttributes al None e l :: stk) h (show_opt show_act a ++ c :: r) Q b).
  { intros al' l' Hl'. destruct a as [a|]; [|apply Hl'].
    destruct (action_turn (rule_with k p) al' e l' stk h a c r (rule_has_action k p) Ha Hc) as [l3 Hp].
    eapply psteps_leads; [exact Hp|apply Hl']. }
  destruct p as [p|].
  - assert (exists d t, show_opt show_act a ++ c :: r = d :: t /\ next_char d) as (d & t & Hd & Hn).
    { destruct a as [[]|]; eexists _, _; (split; [reflexivity|]); [by left..|done]. }
    cbn [show_opt]. rewrite <- app_assoc, Hd. destruct (proto_turn k p al e l stk h d t Hn) as [l3 Hp].
    eapply psteps_leads; [exact Hp|]. rewrite <- Hd. by apply Hact.
  - cbn [show_opt app]. rewrite <- rule_with_none. apply Hact.
    replace (rule_name al (show_rule_proto k <$> None)) with al in Hl by (by destruct al). exact Hl.
Qed.

(** The text of a rule up to its body. *)
Lemma rule_text_head k p a body : tail_head body ->
  tail_head (show_opt (fun p => T " " ++ show_rule_proto k p) p ++ show_opt show_act a ++ body).
Proof.
  intros Hb. destruct p as [p|].
  - right. destruct k as [|[]], p as [[] []]; eexists _, _; (split; [reflexivity|]); done.
  - destruct a as [[]|]; [right; eexists _, _; (split; [reflexivity|]); done..|done].
Qed.

(** ** The end of a rule *)

Lemma semicolon_turn m st al ac ed l stk h r : st = ReadingAttributes \/ st = ProcessingAction -> has_action_processor m = true ->
  parse_step (Sx m st al ac ed l :: stk) h (";"%char :: r)
  = match commit (Sx m End_ al ac ed r, h) with
    | inl e => inl e
    | inr (_, (o', h')) => inr (stk, h', line_ (base_ o'))
    end.
Proof.
  intros Hst Hm. rewrite (section_turn m st al ac ed l stk h _ ";"%char r); [|done..|by destruct Hst as [-> | ->]].
  replace (handler st (Sx m st al ac ed (";"%char :: r), h)) with (finish (Sx m st al ac ed (";"%char :: r), h)).
  { rewrite finish_run. by destruct (commit _) as [er|[[] [o' h']]]. }
  destruct Hst as [-> | ->]; cbn [handler].
  - unfold reading_attributes. erewrite C_bind_run by reflexivity. erewrite C_bind_run by reflexivity. reflexivity.
  - unfold processing_action. erewrite C_bind_run by reflexivity. cbn [fst members_ Sx]. rewrite Hm.
    erewrite C_bind_run by reflexivity. erewrite C_bind_run by reflexivity. reflexivity.
Qed.

Lemma brace_turn m st al ac ed l stk h r : st = ReadingAttributes \/ st = ProcessingAction -> has_action_processor m = true ->
  exists l', parse_step (Sx m st al ac ed l :: stk) h (" "%char :: "{"%char :: r) = inr (Sx m ProcessingBody al ac ed l' :: stk, h, r).
Proof.
  intros Hst Hm. eexists. 
  rewrite (section_turn m st al ac ed l stk h _ "{"%char r); [|done..|by destruct Hst as [-> | ->]].
  destruct Hst as [-> | ->]; cbn [handler].
  - unfold reading_attributes. erewrite C_bind_run by reflexivity. erewrite C_bind_run by reflexivity. reflexivity.
  - unfold processing_action. erewrite C_bind_run by reflexivity. cbn [fst members_ Sx]. rewrite Hm.
    erewrite C_bind_run by reflexivity. erewrite C_bind_run by reflexivity. reflexivity.
Qed.

(** The body of a rule, if it has one, and its end. *)
Lemma rule_body {S A} (mk : S -> Members) (sem : S -> A -> option S) (show : A -> text) (ok : A -> bool) :
  (forall s a, ok a = true -> elem_turn (mk s) (mk <$> sem s a) (show a)) ->
  (forall s, has_action_processor (mk s) = true) -> (forall s, closes (mk s) = true) ->
  forall body s a al ac ed l stk h r Q b, forallb ok (default [] body) = true ->
  match sem_attrs sem s (default [] body) with
  | Some s' =>
      match commit (Sx (mk s') End_ al ac ed r, h) with
      | inl _ => b = false
      | inr (_, (o', h')) => leads stk h' (line_ (base_ o')) Q b
      end
  | None => b = false
  end ->
  leads (Sx (mk s) (after_action a) al ac ed l :: stk) h (show_body show body ++ r) Q b.
Proof.
  intros Hone Hm Hcl body s a al ac ed l stk h r Q b Hok Hb.
  assert (Hst : after_action a = ReadingAttributes \/ after_action a = ProcessingAction) by (destruct a; auto).
  destruct body as [es|]; cbn [show_body default from_option id] in *.
  - rewrite <- !app_assoc. change (T "}" ++ r) with ("}"%char :: r).
    destruct (brace_turn (mk s) (after_action a) al ac ed l stk h (join (T ",") (show <$> es) ++ "}"%char :: r) Hst (Hm s)) as [l' Hs].
    eapply leads_step; [done|exact Hs|]. eapply (body_loop mk sem show ok Hone); [exact Hok|].
    revert Hb. destruct (sem_attrs sem s es) as [s'|]; [|done]. intros Hb l''.
    pose proof (body_close (mk s') al ac ed l'' stk h r (close_body _ _ _ _ _ _ (Hcl s'))) as Hc.
    revert Hb Hc. destruct (commit _) as [e|[[] [o' h']]]; intros Hb Hc; [subst; by eapply leads_error|]. by eapply leads_step.
  - cbn [sem_attrs] in Hb. pose proof (semicolon_turn (mk s) (after_action a) al ac ed l stk h r Hst (Hm s)) as Hc.
    revert Hb Hc. destruct (commit _) as [e|[[] [o' h']]]; intros Hb Hc; [subst; by eapply leads_error|]. by eapply leads_step.
Qed.
End rules.

(** * The default actions

    The rules of the section defaults. The bits that are taken are those of the rules
    before, and a rule whose bits are not all free is an error. *)

(** ** Bits *)

(** More flags. *)
Definition with_flags (fl : list Z) (fs : list Z) : list Z := fold_left (fun s f => BitSet_set f s) fs fl.
Lemma flags_of_app n l1 l2 : flags_of n (l1 ++ l2) = with_flags (flags_of n l1) l2.
Proof. apply fold_left_app. Qed.

Lemma flags_of_wf taken : Forall default_index taken -> bitset_wf XFW_DEFAULT_MAX (flags_of XFW_DEFAULT_MAX taken).
Proof.
  induction taken as [|i taken IH] using rev_ind; intros Hr; [apply BitSet_empty_wf|].
  rewrite flags_of_app. apply BitSet_set_wf. apply IH. by apply Forall_app in Hr as [? _].
Qed.

Lemma flags_of_test taken i : Forall default_index taken -> default_index i ->
  BitSet_test i (flags_of XFW_DEFAULT_MAX taken) = bool_decide (i ∈ taken).
Proof.
  intros Hr Hi. induction taken as [|j taken IH] using rev_ind.
  { rewrite bool_decide_false by apply not_elem_of_nil. apply BitSet_test_empty. }
  apply Forall_app in Hr as [Ht Hj]. inversion Hj as [|? ? Hj' _]; subst. rewrite flags_of_app. cbn [with_flags fold_left].
  rewrite default_test_set by (done || by apply flags_of_wf). rewrite IH by done.
  apply eq_iff_eq_true. rewrite orb_true_iff, !bool_decide_eq_true, elem_of_app, list_elem_of_singleton. 
  rewrite Z.eqb_eq. naive_solver.
Qed.

(** ** Taking bits *)

Definition with_presence (p : list Z) (h : Heap) : Heap := mkHeap (h_conf h) (h_xfw h) (h_defaults h) p.
Definition some_taken (taken indices : list Z) : bool := existsb (fun i => bool_decide (i ∈ taken)) indices.

Section defaults.
Context `{BoostIp}.

Lemma set_flag_run i fl o h taken : default_index i -> Forall default_index taken ->
  h_presence h = flags_of XFW_DEFAULT_MAX taken ->
  set_flag i fl (o, h)
  = if bool_decide (i ∈ taken) then inl CE_FLAG_ALREADY_SET
    else inr (BitSet_set i fl, (o, with_presence (flags_of XFW_DEFAULT_MAX (taken ++ [i])) h)).
Proof.
  intros Hi Ht Hp. rewrite <- (flags_of_test taken i) by done. rewrite flags_of_app, <- Hp.
  unfold set_flag, set_presence_or_throw. unfold mbind at 1, C_bind at 1. erewrite C_bind_run by reflexivity.
  cbn [snd]. by destruct (BitSet_test i (h_presence h)).
Qed.

Lemma some_taken_other taken i indices : i ∉ indices -> some_taken (taken ++ [i]) indices = some_taken taken indices.
Proof.
  intros Hi. induction indices as [|j indices IH]; [done|]. apply not_elem_of_cons in Hi as [Hj Hi].
  unfold some_taken in *. cbn [existsb]. rewrite IH by done. f_equal. apply bool_decide_ext. rewrite elem_of_app, list_elem_of_singleton. naive_solver.
Qed.

Lemma set_flags_run indices fl o h taken : NoDup indices -> Forall default_index indices -> Forall default_index taken ->
  h_presence h = flags_of XFW_DEFAULT_MAX taken ->
  set_flags indices fl (o, h)
  = if some_taken taken indices then inl CE_FLAG_ALREADY_SET
    else inr (with_flags fl indices, (o, with_presence (flags_of XFW_DEFAULT_MAX (taken ++ indices)) h)).
Proof.
  revert fl h taken. induction indices as [|i indices IH]; intros fl h taken Hnd Hi Ht Hp.
  { cbn. rewrite app_nil_r, <- Hp. by destruct h. }
  apply list.NoDup_cons in Hnd as [Hnot Hnd]. inversion Hi as [|? ? Hi1 Hi2]; subst. cbn [set_flags some_taken existsb].
  unfold mbind at 1, C_bind at 1. rewrite (set_flag_run i fl o h taken) by done.
  destruct (bool_decide (i ∈ taken)); [done|]. rewrite (IH _ _ (taken ++ [i])); [|done|done| |done].
  2: { apply Forall_app. by split; [|constructor]. }
  rewrite some_taken_other, <- app_assoc by done. cbn [orb]. unfold some_taken. by destruct (existsb _ _).
Qed.

(** The bits of a rule are bits of the defaults, and different ones. *)
Lemma default_indices_ok d : NoDup (default_indices d) /\ Forall default_index (default_indices d).
Proof.
  destruct d as [ty sel a]. split.
  - apply (bool_decide_eq_true_1 (NoDup _)). destruct ty, sel as [|[]|[] []]; reflexivity.
  - destruct ty, sel as [|[]|[] []]; repeat constructor; done.
Qed.

(** ** One rule *)

Definition default_sec (ty : DataType) (fl : list Z) : Members :=
  match ty with ICMP => IpProtoDefaultSection ICMP fl | _ => TcpIpDefaultSection ty fl end.

Lemma default_opens ty r l stk h : exists l1 l2,
  psteps (Sx DefaultsSection ProcessingBody [] None None l :: stk) h (T " " ++ type_to_name ty ++ " "%char :: r)
    (Sx (default_sec ty (BitSet_empty XFW_DEFAULT_MAX)) ReadingAttributes [] None None l2
     :: Sx DefaultsSection ProcessingBody [] None None l1 :: stk) h (" "%char :: r).
Proof. destruct ty; eexists _, _; do 2 turn; apply psteps_refl. Qed.

(** The protocols of a rule are read and their bits taken. *)
Lemma selector_attributes d h r : match d_type d, d_sel d with ICMP, Sel_Proto _ _ => false | _, Sel_All => false | _, _ => true end = true ->
  let o l m := Sx m ReadingAttributes [] None None l in
  process_attributes (o (drop 1 (show_selector (d_sel d)) ++ " "%char :: r) (default_sec (d_type d) (BitSet_empty XFW_DEFAULT_MAX)), h)
  = match set_flags (default_indices d) (BitSet_empty XFW_DEFAULT_MAX)
            (o (" "%char :: r) (default_sec (d_type d) (BitSet_empty XFW_DEFAULT_MAX)), h) with
    | inl e => inl e
    | inr (fl, (_, h')) => inr (true, (o (" "%char :: r) (default_sec (d_type d) fl), h'))
    end.
Proof.
  intros Hd o. destruct d as [ty sel a]. cbn [d_type d_sel] in *. subst o.
  assert (Hsf : forall i fl o h, set_flag i fl (o, h) = if BitSet_test i (h_presence h) then inl CE_FLAG_ALREADY_SET
    else inr (BitSet_set i fl, (o, with_presence (BitSet_set i (h_presence h)) h))).
  { intros. unfold set_flag, set_presence_or_throw. unfold mbind at 1, C_bind at 1. erewrite C_bind_run by reflexivity.
    cbn [snd]. by destruct (BitSet_test _ _). }
  destruct ty, sel as [|[]|[] []]; try done;
    repeat (lazy -[set_flag BitSet_empty get_index BitSet_test BitSet_set with_presence h_presence]; rewrite Hsf;
      destruct (BitSet_test _ _); [reflexivity|]); reflexivity.
Qed.

Definition store_default (a : CliAction) (fl : list Z) (h : Heap) : Heap :=
  mkHeap (h_conf h) (h_xfw h) (h_defaults h ++ [mkCliDefaultAction (act_ratelimit a) (act_allow a) fl]) (h_presence h).

(** A rule for all protocols takes its bits at the end. *)
Lemma commit_all d a r h : d_sel d = Sel_All ->
  let o := Sx (default_sec (d_type d) (BitSet_empty XFW_DEFAULT_MAX)) End_ [] (Some a) None r in
  commit (o, h) = match set_flags (default_indices d) (BitSet_empty XFW_DEFAULT_MAX) (o, h) with
    | inl e => inl e
    | inr (fl, (o, h')) => inr (tt, (o, store_default a fl h'))
    end.
Proof.
  intros Hd o. destruct d as [ty sel act]. cbn [d_sel] in Hd. subst sel o.
  destruct ty; unfold commit; do 2 (erewrite C_bind_run by reflexivity); cbn [fst members_ Sx default_sec d_type];
    unfold default_commit; (erewrite C_bind_run by reflexivity); cbn [fst action_ Sx];
    (replace (existsb _ _) with false by reflexivity); unfold mbind at 1, C_bind at 1;
    by destruct (set_flags _ _ _) as [e|[fl [o' h']]].
Qed.

Lemma commit_some d a r h : d_sel d <> Sel_All ->
  let o := Sx (default_sec (d_type d) (with_flags (BitSet_empty XFW_DEFAULT_MAX) (default_indices d))) End_ [] (Some a) None r in
  commit (o, h) = inr (tt, (o, store_default a (with_flags (BitSet_empty XFW_DEFAULT_MAX) (default_indices d)) h)).
Proof. intros Hd. destruct d as [ty [|[]|[] []] act]; try done; destruct ty; reflexivity. Qed.

(** The protocols of a rule: its bits are taken, or one of them was. *)
Lemma selector_turn d taken l stk h r : act_ok (d_action d) = true ->
  match d_type d, d_sel d with ICMP, Sel_Proto _ _ => false | _, Sel_All => false | _, _ => true end = true ->
  Forall default_index taken -> h_presence h = flags_of XFW_DEFAULT_MAX taken ->
  let rest := show_act (d_action d) ++ ";"%char :: r in
  parse_step (Sx (default_sec (d_type d) (BitSet_empty XFW_DEFAULT_MAX)) ReadingAttributes [] None None l :: stk) h
    (show_selector (d_sel d) ++ rest)
  = if some_taken taken (default_indices d) then inl CE_FLAG_ALREADY_SET else
    inr (Sx (default_sec (d_type d) (flags_of XFW_DEFAULT_MAX (default_indices d))) ReadingAttributes [] None None rest :: stk,
         with_presence (flags_of XFW_DEFAULT_MAX (taken ++ default_indices d)) h, rest).
Proof.
  intros Ha Hd Ht Hp rest. destruct (default_indices_ok d) as [Hnd Hr].
  assert (exists t, rest = " "%char :: t) as [t1 Ht1] by (unfold rest; destruct (d_action d); by eexists).
  assert (exists t, show_selector (d_sel d) = " "%char :: "i"%char :: t) as [t2 Hs2].
  { destruct (d_type d), (d_sel d) as [|[]|[] []]; try done; by eexists. }
  pose proof (selector_attributes d h t1 Hd) as Hat. cbv zeta in Hat. rewrite Hs2, <- Ht1 in Hat. cbn [drop app] in Hat.
  rewrite (set_flags_run _ _ _ h taken) in Hat by done. rewrite Hs2. cbn [app].
  rewrite (section_turn _ ReadingAttributes _ _ _ _ _ _ _ "i"%char (t2 ++ rest)) by done.
  cbn [handler]. rewrite (reading_attributes_run _ _ "i"%char (t2 ++ rest)) by done. rewrite Hat.
  by destruct (some_taken _ _).
Qed.

(** A rule of the section. *)
Lemma default_turn d taken l stk h r Q b :
  act_ok (d_action d) && match d_type d, d_sel d with ICMP, Sel_Proto _ _ => false | _, _ => true end = true ->
  Forall default_index taken -> h_presence h = flags_of XFW_DEFAULT_MAX taken ->
  (if some_taken taken (default_indices d) then b = false else forall l',
    leads (Sx DefaultsSection ProcessingBody [] None None l' :: stk)
      (store_default (act_of (d_action d)) (flags_of XFW_DEFAULT_MAX (default_indices d))
         (with_presence (flags_of XFW_DEFAULT_MAX (taken ++ default_indices d)) h)) r Q b) ->
  leads (Sx DefaultsSection ProcessingBody [] None None l :: stk) h (show_default d ++ r) Q b.
Proof.
  intros [Ha Hok]%andb_true_iff Ht Hp Hl. destruct (default_indices_ok d) as [Hnd Hr].
  unfold show_default. rewrite <- !app_assoc. change (T ";" ++ r) with (";"%char :: r).
  assert (exists t, show_selector (d_sel d) ++ show_act (d_action d) ++ ";"%char :: r = " "%char :: t) as [t1 Ht1].
  { destruct (d_sel d) as [|[]|[] []], (d_action d); by eexists. }
  assert (Hm : forall fl, has_action_processor (default_sec (d_type d) fl) = true) by (by destruct (d_type d)).
  rewrite Ht1. destruct (default_opens (d_type d) t1 l stk h) as (l1 & l2 & Ho).
  eapply psteps_leads; [exact Ho|]. rewrite <- Ht1.
  assert (Hdec : d_sel d = Sel_All \/ d_sel d <> Sel_All) by (destruct (d_sel d); auto). destruct Hdec as [Hall|Hsel].
  - rewrite Hall. cbn [show_selector app].
    edestruct action_turn as [l3 Hat]; [|exact Ha|by right|eapply psteps_leads; [exact Hat|]]; [apply Hm|].
    pose proof (semicolon_turn (default_sec (d_type d) (BitSet_empty XFW_DEFAULT_MAX)) ProcessingAction [] (Some (act_of (d_action d)))
      None l3 (Sx DefaultsSection ProcessingBody [] None None l1 :: stk) h r (or_intror eq_refl) (Hm _)) as Hs.
    rewrite commit_all, (set_flags_run _ _ _ h taken) in Hs by done.
    revert Hl Hs. destruct (some_taken _ _); intros Hl Hs; [subst b; by eapply leads_error|].
    eapply leads_step; [done|exact Hs|]. apply Hl.
  - pose proof (selector_turn d taken l2 (Sx DefaultsSection ProcessingBody [] None None l1 :: stk) h r Ha
      ltac:(by destruct (d_type d), (d_sel d)) Ht Hp) as Hstep. cbv zeta in Hstep.
    revert Hl Hstep. destruct (some_taken _ _); intros Hl Hstep; [subst b; eapply leads_error; [by rewrite Ht1|exact Hstep]|].
    eapply leads_step; [by rewrite Ht1|exact Hstep|].
    edestruct action_turn as [l3 Hac]; [|exact Ha|by right|eapply psteps_leads; [exact Hac|]]; [apply Hm|].
    eapply leads_step; [done|rewrite semicolon_turn by (by right || apply Hm); rewrite commit_some by done; reflexivity|].
    apply Hl.
Qed.

(** The rules up to the end of the section. *)
Lemma defaults_loop rules : forall taken l stk h r Q b,
  forallb (fun d => act_ok (d_action d) && match d_type d, d_sel d with ICMP, Sel_Proto _ _ => false | _, _ => true end) rules = true ->
  Forall default_index taken -> h_presence h = flags_of XFW_DEFAULT_MAX taken ->
  match sem_defaults rules (h_defaults h) taken with
  | None => b = false
  | Some out => forall l' p, leads (Sx DefaultsSection ProcessingBody [] None None l' :: stk)
                               (mkHeap (h_conf h) (h_xfw h) out p) r Q b
  end ->
  leads (Sx DefaultsSection ProcessingBody [] None None l :: stk) h (concat (show_default <$> rules) ++ r) Q b.
Proof.
  induction rules as [|d rules IH]; intros taken l stk h r Q b Hok Ht Hp Hl.
  - cbn in Hl |- *. destruct h. apply Hl.
  - cbn [forallb] in Hok. apply andb_true_iff in Hok as [Hd Hok]. cbn [fmap list_fmap concat]. rewrite <- app_assoc.
    apply (default_turn d taken); [exact Hd|done..|]. cbn [sem_defaults] in Hl. fold (some_taken taken (default_indices d)) in Hl.
    destruct (some_taken taken (default_indices d)); [done|]. intros l'.
    apply (IH (taken ++ default_indices d)); [exact Hok| |done|exact Hl].
    apply Forall_app. split; [done|apply default_indices_ok].
Qed.
End defaults.
