(* ===== verification/GrammarEntries.v ===== *)
(** * GrammarEntries: countries, ports and addresses

    The elements of the body of a network rule, each of which is told from the others
    by its colons, slashes and brackets. *)

From S2P Require Import Prelude.
From S2P Require Import Uapi.
From S2P Require Import Bitset.
From S2P Require Import ConfigUpdater.
From S2P Require Import LineConsumer.
From S2P Require Import Tcl.
From S2P Require Import Cli.
From S2P Require Import CliSpec.
From S2P Require Import Grammar.
From S2P Require Import GrammarTurns.

Open Scope Z_scope.

(** ** Positions *)

Lemma find_first_none c t : c ∉ t -> find_first c t = None.
Proof.
  induction t as [|d t IH]; [done|]. intros [Hd Ht]%not_elem_of_cons. cbn. unfold char_eqb.
  rewrite bool_decide_false by done. by rewrite IH.
Qed.
Lemma find_last_none c t : c ∉ t -> find_last c t = None.
Proof.
  induction t as [|d t IH]; [done|]. intros [Hd Ht]%not_elem_of_cons. cbn. unfold char_eqb.
  rewrite IH by done. by rewrite bool_decide_false.
Qed.
Lemma find_first_at c t r : c ∉ t -> find_first c (t ++ c :: r) = Some (length t).
Proof.
  induction t as [|d t IH]; cbn; unfold char_eqb; [by rewrite bool_decide_true|].
  intros [Hd Ht]%not_elem_of_cons. rewrite bool_decide_false by done. by rewrite IH.
Qed.
Lemma find_last_app c t r : c ∉ r -> find_last c (t ++ r) = find_last c t.
Proof. intros Hr. induction t as [|d t IH]; cbn; [by apply find_last_none|]. by rewrite IH. Qed.
Lemma find_last_at c t r : c ∉ r -> find_last c (t ++ c :: r) = Some (length t).
Proof.
  intros Hr. induction t as [|d t IH]; cbn; [|by rewrite IH].
  rewrite find_last_none by done. unfold char_eqb. by rewrite bool_decide_true.
Qed.
Lemma find_first_some c t r i : find_first c t = Some i -> find_first c (t ++ r) = Some i.
Proof.
  revert i. induction t as [|d t IH]; [done|]. intros i. cbn. destruct (char_eqb c d); [done|].
  destruct (find_first c t) as [j|]; [|done]. cbn. intros [= <-]. by rewrite (IH j).
Qed.
Lemma find_first_lt c t i : find_first c t = Some i -> (i < length t)%nat.
Proof.
  revert i. induction t as [|d t IH]; [done|]. intros i. cbn. destruct (char_eqb c d); [intros [= <-]; lia|].
  destruct (find_first c t) as [j|]; [|done]. cbn. intros [= <-]. specialize (IH j eq_refl). lia.
Qed.
Lemma find_none_iff c t : find_first c t = None <-> find_last c t = None.
Proof.
  induction t as [|d t IH]; [done|]. cbn. destruct (find_first c t), (find_last c t), (char_eqb c d);
    naive_solver.
Qed.

(** ** Numbers of entries *)

Lemma dec_no n c : digit c = None -> c ∉ dec n.
Proof.
  intros Hc Hin. destruct (dec_digits n) as [Hd _]. rewrite Forall_forall in Hd. apply Hd in Hin as [x Hx]. congruence.
Qed.

(** The value of a computation that may fail. *)
Definition to_opt {E A} (r : E + A) : option A := match r with inl _ => None | inr a => Some a end.
Lemma to_opt_bind {E A B} (m : E + A) (k : A -> E + B) : to_opt (rbind m k) = to_opt m ≫= (fun a => to_opt (k a)).
Proof. by destruct m. Qed.
Lemma to_opt_verify {E} b (e : E) : to_opt (rverify b e) = guard_some b.
Proof. by destruct b. Qed.
Lemma to_opt_some {E A} (o : option A) (e : E) : to_opt (rsome o e) = o.
Proof. by destruct o. Qed.
Lemma to_opt_inr {E A} (a : A) : to_opt (inr a : E + A) = Some a.
Proof. done. Qed.
Lemma to_opt_inl {E A} (e : E) : to_opt (inl e : E + A) = None.
Proof. done. Qed.
Ltac opts := rewrite ?to_opt_bind, ?to_opt_verify, ?to_opt_some, ?to_opt_inr, ?to_opt_inl.

Lemma parse_dec_opt w n : 0 <= n -> to_opt (parse_as w (dec n)) = if n <? 2 ^ w then Some n else None.
Proof. intros Hn. rewrite parse_as_dec by done. by destruct (n <? 2 ^ w). Qed.

Lemma read_port_dec p : 0 <= p -> to_opt (read_port (dec p)) = if is_port_number p then Some p else None.
Proof.
  intros Hp. unfold read_port, is_port_number, MAX_PORTS. opts. rewrite parse_dec_opt by done.
  destruct (p <? 2 ^ 32) eqn:Hw; cbn [mbind option_bind].
  - opts. destruct (negb _) eqn:Hn; cbn [guard_some mbind option_bind]; opts.
    + replace ((0 <? p) && (p <=? 65535)) with true by lia. f_equal. unfold u16, wrap. apply Z.mod_small. lia.
    + by replace ((0 <? p) && (p <=? 65535)) with false by lia.
  - by replace ((0 <? p) && (p <=? 65535)) with false by lia.
Qed.

Lemma read_port_at_none lv : to_opt (read_port_at lv None) = Some None.
Proof. done. Qed.
Lemma read_port_at_dec lv i p : drop (S i) lv = dec p -> 0 <= p ->
  to_opt (read_port_at lv (Some i)) = if is_port_number p then Some (Some p) else None.
Proof. intros Hd Hp. unfold read_port_at. opts. rewrite Hd, read_port_dec by done. by destruct (is_port_number p). Qed.

Lemma read_ports_dec p q : 0 <= p -> nonneg_opt q = true ->
  to_opt (read_ports (dec p) (show_opt dec q))
  = _ ← guard_some (is_port_number p);
    match q with
    | None => Some (p, None)
    | Some q => if (q <=? MAX_PORTS) && (p <? q) then Some (p, Some q) else None
    end.
Proof.
  intros Hp Hq. unfold read_ports, is_port_number, MAX_PORTS. opts. rewrite parse_dec_opt by done.
  destruct (p <? 2 ^ 32) eqn:Hw; cbn [mbind option_bind]; [|by replace ((0 <? p) && (p <=? 65535)) with false by lia].
  opts. replace (negb ((65535 <? p) || (p =? 0))) with ((0 <? p) && (p <=? 65535)) by lia.
  destruct ((0 <? p) && (p <=? 65535)) eqn:Hr; [|done]. cbn [guard_some mbind option_bind].
  assert (Hu : u16 p = p) by (unfold u16, wrap; apply Z.mod_small; lia). rewrite Hu.
  destruct q as [q|]; [|done]. cbn [show_opt]. apply Z.leb_le in Hq.
  destruct (dec_digits q) as [_ Hne]. pose proof (parse_dec_opt 32 q Hq) as Hd.
  destruct (dec q) as [|d ds]; [done|]. opts. rewrite Hd. destruct (q <? 2 ^ 32) eqn:Hq2; cbn [mbind option_bind].
  - opts. destruct (negb (65535 <? q)) eqn:H1; cbn [guard_some mbind option_bind]; [|by replace (q <=? 65535) with false by lia].
    opts. destruct (negb (q <=? p)) eqn:H2; cbn [guard_some mbind option_bind]; opts.
    + replace ((q <=? 65535) && (p <? q)) with true by lia. do 3 f_equal. unfold u16, wrap. apply Z.mod_small. lia.
    + by replace ((q <=? 65535) && (p <? q)) with false by lia.
  - by replace (q <=? 65535) with false by lia.
Qed.

Lemma stoul_dec n : 0 <= n < 2 ^ 32 -> stoul (dec n) = Some n.
Proof.
  intros Hn. destruct (dec_digits n) as [Hd Hne]. pose proof (starts_with_dec n) as Hs. pose proof (read_dec n ltac:(lia)) as Hr.
  unfold stoul. replace (leading_spaces (dec n)) with O by (symmetry; rewrite <- (app_nil_r (dec n)); apply leading_spaces_word, dec_word).
  rewrite drop_0. destruct (dec n) as [|c t]; [done|]. inversion Hd as [|? ? [x Hx] Ht]; subst.
  replace (char_eqb c "+"%char) with false by (symmetry; apply bool_decide_eq_false; intros ->; done).
  replace (char_eqb c "-"%char) with false by (symmetry; apply bool_decide_eq_false; intros ->; done).
  cbv iota beta zeta. rewrite Hs. cbn [negb]. rewrite Hr. by replace (2 ^ 64 <=? n) with false by lia.
Qed.

Lemma read_mask_dec lv i limit n : drop (S i) lv = dec n -> 0 <= n < 2 ^ 32 -> limit < 256 ->
  to_opt (read_mask lv (Some i) None limit) = if n <=? limit then Some (Some n) else None.
Proof.
  intros Hd Hn Hl. unfold read_mask, mask_text. opts. rewrite Hd, stoul_dec by done. cbn [mbind option_bind]. opts.
  replace (u32 n) with n by (unfold u32, wrap; symmetry; apply Z.mod_small; lia).
  destruct (n <=? limit) eqn:Hle; cbn [guard_some mbind option_bind]; [|done]. opts. do 2 f_equal.
  unfold u8, wrap. apply Z.mod_small. lia.
Qed.

(** ** The turns *)

Section entries.
Context `{BoostIp}.
Variables (k : NetKind) (FL : list Z) (hp : bool).

(** The rule with its flags. *)
Definition net_sec (nr : CliNetRule) : Members := NetRuleSection k (set_cn_flags FL nr) hp.

(** An element that is not a port, and what it adds. *)
Definition plain_value (ipv : text) (nr : CliNetRule) : CliError + CliNetRule :=
  if is_iso_country_code ipv then
    let? r := read_iso_code_address ipv in let? net := get_netcode r.1 r.2 in inr (add_net_code net nr)
  else read_address ipv nr.

Definition net_ends : text := delimeters ++ T "-".

Lemma plain_elem ipv nr nr' : elem_head ipv -> free_of net_ends ipv ->
  is_iso_country_code ipv = true \/ is_port ipv = inr false ->
  to_opt (plain_value ipv (set_cn_flags FL nr)) = set_cn_flags FL <$> nr' ->
  elem_turn (net_sec nr) (net_sec <$> nr') ipv.
Proof.
  intros Hh Hf Hp Hv. split; [done|]. intros al ac ed h c r Hc. unfold net_sec at 1 3.
  assert (Hu : consume_until net_ends (clean (ipv ++ c :: r)) = inr (ipv, clean (c :: r))).
  { apply consume_until_tok; [done|]. apply elem_of_app. left. by apply elem_delim. }
  assert (Hne : ipv <> []) by (destruct Hh as (a & t & -> & _); done).
  assert (He : process_body (Sx (net_sec nr) ProcessingBody al ac ed (ipv ++ c :: r), h)
    = match plain_value ipv (set_cn_flags FL nr) with
      | inl e => inl e
      | inr nr' => inr (Mine, (Sx (NetRuleSection k nr' hp) ProcessingBody al ac ed (after_elem c r), h))
      end).
  { unfold process_body. erewrite C_bind_run by reflexivity. cbn [fst members_ Sx net_sec]. unfold net_rule_body.
    erewrite C_bind_run by (eapply line_run, Hu). rewrite bool_decide_false by done. unfold plain_value.
    destruct (is_iso_country_code ipv).
    - unfold mbind at 1, C_bind at 1. unfold cpure. destruct (rbind _ _) as [er|nr1]; [done|].
      destruct Hc as [-> | ->]; reflexivity.
    - destruct Hp as [Hp|Hp]; [done|]. rewrite Hp. unfold mbind at 1, C_bind at 1. erewrite C_bind_run by reflexivity.
      unfold cpure. destruct (read_address _ _) as [er|nr1]; [done|]. destruct Hc as [-> | ->]; reflexivity. }
  destruct nr' as [nr'|]; cbn [fmap option_fmap option_map] in *; destruct (plain_value _ _) as [er|nr1]; try done.
  - rewrite He. inversion Hv; subst. done.
  - by exists er.
Qed.

(** *** Characters *)

Lemma free_dec ts n : forallb (fun c => bool_decide (digit c = None)) ts = true -> free_of ts (dec n).
Proof.
  intros Hts. apply Forall_forall. intros c Hc Hin. apply forallb_forall with (x := c) in Hts; [|by apply list_elem_of_In].
  apply bool_decide_eq_true in Hts. by apply (dec_no n c).
Qed.

Lemma addr_char_spec c : addr_char c = true -> isspace c = false /\ (c ∉ delimeters ++ T "/") /\ c ∉ T "-[]#".
Proof.
  unfold addr_char, word_char. intros [[H1%negb_true_iff H2%negb_true_iff%bool_decide_eq_false]%andb_true_iff
    H3%negb_true_iff%bool_decide_eq_false]%andb_true_iff. done.
Qed.

Lemma addr_char_ends c : addr_char c = true -> c ∉ net_ends.
Proof.
  intros (_ & H1 & H2)%addr_char_spec [Hin|Hin]%elem_of_app; [apply H1, elem_of_app; by left|].
  apply H2. apply list_elem_of_singleton in Hin as ->. by left.
Qed.

Lemma addr_char_head c : addr_char c = true -> isspace c = false /\ c <> "#"%char.
Proof. intros (H1 & _ & H2)%addr_char_spec. split; [done|]. intros ->. apply H2. by apply (bool_decide_eq_true_1 (_ ∈ _)). Qed.

Lemma addr_char_ne c d : addr_char c = true -> d ∈ T "/[]" -> c <> d.
Proof.
  intros (_ & H1 & H2)%addr_char_spec Hd ->. change (T "/[]") with (T "/" ++ T "[]") in Hd.
  apply elem_of_app in Hd as [Hd|Hd]; [apply H1, elem_of_app; by right|]. apply H2. right.
  change (d ∈ T "[]" ++ T "#"). apply elem_of_app. by left.
Qed.

Lemma port_free n : free_of net_ends (show_port n).
Proof. constructor; [by apply (bool_decide_eq_false_1 (_ ∈ net_ends))|by apply free_dec]. Qed.

(** *** Countries *)

Lemma colon_last t n : find_last ":"%char (t ++ show_port n) = Some (length t).
Proof. apply find_last_at, dec_no. done. Qed.

Lemma drop_at {A} (t : list A) c r : drop (S (length t)) (t ++ c :: r) = r.
Proof. induction t as [|x t IH]; [done|]. exact IH. Qed.

Lemma country_turn c0 c1 port nr : entry_ok None (E_Country c0 c1 port) = true ->
  elem_turn (net_sec nr) (net_sec <$> sem_entry nr (E_Country c0 c1 port)) (show_entry (E_Country c0 c1 port)).
Proof.
  cbn [entry_ok]. intros [[[[H0 H1]%andb_true_iff Hc0%negb_true_iff%bool_decide_eq_false]%andb_true_iff
    Hc1%negb_true_iff%bool_decide_eq_false]%andb_true_iff Hp]%andb_true_iff.
  destruct (addr_char_head c0 H0) as [Hs Hn].
  assert (Hcol : ":"%char ∉ [c0; c1]) by (rewrite !elem_of_cons; intros [?|[?|?%elem_of_nil]]; by subst).
  assert (Hiso : is_iso_country_code (show_entry (E_Country c0 c1 port)) = true
    /\ find_last ":"%char (show_entry (E_Country c0 c1 port)) = (fun _ => 2%nat) <$> port).
  { destruct port as [p|]; cbn [show_entry show_opt].
    - pose proof (colon_last [c0; c1] p) as Hl. unfold is_iso_country_code. rewrite Hl. split; [|done].
      unfold show_port. change (T ":" ++ dec p) with (":"%char :: dec p).
      rewrite find_first_at by done. done.
    - rewrite app_nil_r. unfold is_iso_country_code. rewrite find_last_none, find_first_none by done. done. }
  destruct Hiso as [Hiso Hl].
  apply plain_elem; [by exists c0, (c1 :: show_opt show_port port)| |by left|].
  - cbn [show_entry app]. constructor; [by apply addr_char_ends|]. constructor; [by apply addr_char_ends|].
    destruct port; [apply port_free|constructor].
  - unfold plain_value. rewrite Hiso. unfold read_iso_code_address. rewrite Hl. opts.
    destruct port as [p|]; cbn [fmap option_fmap option_map sem_entry sem_port nonneg_opt] in *.
    + rewrite (read_port_at_dec _ _ p) by (done || by apply Z.leb_le).
      destruct (is_port_number p); [|done]. cbn. by rewrite Z.add_0_r.
    + cbn. by rewrite Z.add_0_r.
Qed.

(** *** Ports *)

Lemma interval_end_tok q c r o h : elem_end c -> base_ o = clean (show_opt (fun q => T "-" ++ dec q) q ++ c :: r) ->
  interval_end (o, h) = inr (show_opt dec q, (with_base (clean (c :: r)) o, h)).
Proof.
  intros Hc Hb. destruct o as [b st al ac ed m]. cbn in Hb. subst b. destruct q as [q|]; cbn [show_opt].
  - unfold interval_end. do 2 erewrite C_bind_run by reflexivity. cbv iota beta. change (char_eqb _ "-") with true. cbv iota.
    erewrite C_bind_run by reflexivity. erewrite C_bind_run by (eapply line_run, skip_spaces_none, leading_spaces_word, dec_word).
    change (line consume_until_delimeters (mkSec (clean (dec q ++ c :: r)) st al ac ed m, h)
      = inr (dec q, (mkSec (clean (c :: r)) st al ac ed m, h))).
    exact (line_run _ (mkSec _ st al ac ed m) _ _ _ (dec_until q c r (elem_delim c Hc))).
  - destruct Hc as [-> | ->]; reflexivity.
Qed.

Lemma ports_turn p q nr : entry_ok None (E_Ports p q) = true ->
  elem_turn (net_sec nr) (net_sec <$> sem_entry nr (E_Ports p q)) (show_entry (E_Ports p q)).
Proof.
  cbn [entry_ok]. intros [Hp%Z.leb_le Hq]%andb_true_iff. split; [by exists ":"%char, (dec p ++ show_opt (fun q => T "-" ++ dec q) q)|].
  intros al ac ed h c r Hc.
  assert (Hiso : is_iso_country_code (show_port p) = false).
  { pose proof (colon_last [] p : find_last ":"%char (show_port p) = Some O) as Hl.
    unfold is_iso_country_code. by rewrite Hl. }
  assert (Hport : is_port (show_port p) = inr true).
  { destruct (dec_digits p) as [Hd Hne]. unfold is_port, show_port. cbn [T String.list_ascii_of_string app].
    change (negb (char_eqb ":" ":")) with false. cbv iota. destruct (dec p) as [|d ds]; [done|].
    inversion Hd as [|? ? [x Hx] Ht]; subst. f_equal. apply negb_true_iff, bool_decide_eq_false. by intros ->. }
  assert (He : process_body (Sx (net_sec nr) ProcessingBody al ac ed (show_entry (E_Ports p q) ++ c :: r), h)
    = match read_ports (dec p) (show_opt dec q) with
      | inl e => inl e
      | inr v => inr (Mine, (Sx (net_sec (add_ports v nr)) ProcessingBody al ac ed (after_elem c r), h))
      end).
  { assert (Hu : consume_until net_ends (clean (show_entry (E_Ports p q) ++ c :: r))
      = inr (show_port p, clean (show_opt (fun q => T "-" ++ dec q) q ++ c :: r))).
    { cbn [show_entry]. rewrite <- app_assoc. destruct q as [q|]; cbn [show_opt]; apply consume_until_tok; try apply port_free.
      - by apply (bool_decide_eq_true_1 (_ ∈ net_ends)).
      - apply elem_of_app. left. by apply elem_delim. }
    unfold process_body. erewrite C_bind_run by reflexivity. cbn [fst members_ Sx net_sec]. unfold net_rule_body.
    erewrite C_bind_run by (eapply line_run, Hu). rewrite bool_decide_false by done. rewrite Hiso, Hport.
    unfold mbind at 1, C_bind at 1. erewrite C_bind_run by reflexivity. cbv iota. erewrite C_bind_run by (by apply interval_end_tok).
    change (drop 1 (show_port p)) with (dec p). unfold cpure. destruct (read_ports _ _) as [er|v]; [done|].
    destruct Hc as [-> | ->]; reflexivity. }
  rewrite He. pose proof (read_ports_dec p q Hp Hq) as Hr. cbn [sem_entry].
  destruct (is_port_number p); cbn [guard_some mbind option_bind] in *; [|by destruct (read_ports _ _); [eexists|]].
  destruct q as [q|]; [destruct ((q <=? MAX_PORTS) && (p <? q))|]; destruct (read_ports _ _) as [er|v];
    try done; try (by eexists); cbn in Hr |- *; inversion Hr; subst; done.
Qed.

(** *** Addresses *)

Lemma suffix_no c t d n : c ∉ t -> c <> d -> digit c = None -> c ∉ t ++ d :: dec n.
Proof. intros Ht Hd Hc [?|[?|?]%elem_of_cons]%elem_of_app; [done..|]. by apply (dec_no n c). Qed.

Lemma addr_no t c : forallb addr_char t = true -> c ∈ T "/[]" -> c ∉ t.
Proof.
  intros Ht Hc Hin. apply forallb_forall with (x := c) in Ht; [|by apply list_elem_of_In]. by apply (addr_char_ne c c).
Qed.
Lemma addr_free t : forallb addr_char t = true -> free_of net_ends t.
Proof.
  intros Ht. apply Forall_forall. intros c Hc. apply addr_char_ends. by apply forallb_forall with (x := c) in Ht; [|apply list_elem_of_In].
Qed.

Lemma suffix_free s : free_of net_ends (show_suffix s).
Proof. destruct s; [constructor|..]; (constructor; [by apply (bool_decide_eq_false_1 (_ ∈ net_ends))|by apply free_dec]). Qed.

Lemma addr4_spec t : addr4_ok t = true -> forallb addr_char t = true /\ (":"%char ∉ t) /\ (2 < length t)%nat.
Proof.
  unfold addr4_ok. intros [Ht Hl%Nat.ltb_lt]%andb_true_iff. rewrite forallb_forall in Ht. split; [|split; [|done]].
  - apply forallb_forall. intros c Hc. by specialize (Ht c Hc) as [? _]%andb_true_iff.
  - intros Hin. apply list_elem_of_In in Hin. by specialize (Ht _ Hin) as [_ ?]%andb_true_iff.
Qed.

Lemma cons_no c d n : c <> d -> digit c = None -> c ∉ d :: dec n.
Proof. intros Hd Hc. apply (suffix_no c []); [apply not_elem_of_nil|done..]. Qed.

(** The parts of an address of IPv4. *)
Lemma read_ip4_parts t s : addr4_ok t = true -> suffix_ok s = true ->
  to_opt (read_ip4_address (t ++ show_suffix s)) = (fun mp => (t, mp.1, mp.2)) <$> sem_suffix 32 s.
Proof.
  intros (Ht & Hcol & Hlen)%addr4_spec Hs.
  assert (Hsl : "/"%char ∉ t) by (apply addr_no; [done|by left]).
  destruct t as [|a t]; [cbn in Hlen; lia|]. unfold read_ip4_address, read_mask4. cbn [app]. rewrite (app_comm_cons t _ a).
  destruct s as [|n|p]; cbn [show_suffix sem_suffix suffix_ok] in *; opts.
  - rewrite app_nil_r. rewrite !find_first_none by done. done.
  - change (T "/" ++ dec n) with ("/"%char :: dec n).
    rewrite (find_first_none ":"%char); [|by apply suffix_no].
    rewrite find_first_at by done. apply andb_true_iff in Hs as [Hs1%Z.leb_le Hs2%Z.ltb_lt].
    rewrite (read_mask_dec _ _ _ n) by (done || apply drop_at). destruct (n <=? 32); [|done].
    cbn [mbind option_bind]. opts. cbn [read_port_at mbind option_bind to_opt pos_min before fmap option_fmap option_map fst snd].
    by rewrite (take_app_length (a :: t)).
  - change (T ":" ++ dec p) with (":"%char :: dec p).
    rewrite (find_first_none "/"%char); [|by apply suffix_no].
    rewrite find_first_at by done. cbn [read_mask to_opt mbind option_bind]. opts.
    rewrite (read_port_at_dec _ _ p) by (apply drop_at || by apply Z.leb_le). destruct (is_port_number p); [|done].
    cbn [mbind option_bind to_opt pos_min before fmap option_fmap option_map fst snd].
    by rewrite (take_app_length (a :: t)).
Qed.

Lemma addr_suffix_no_colon t s : (":"%char ∉ t) -> match s with S_Port _ => False | _ => True end -> ":"%char ∉ t ++ show_suffix s.
Proof. intros Ht Hs. destruct s as [|n|]; [by rewrite app_nil_r|by apply suffix_no|done]. Qed.

(** An address is neither a country nor a port. *)
Lemma ip4_not_country t s : addr4_ok t = true -> is_iso_country_code (t ++ show_suffix s) = false.
Proof.
  intros (Ht & Hcol & Hlen)%addr4_spec. unfold is_iso_country_code. apply andb_false_iff. left. apply Nat.eqb_neq.
  destruct s as [|n|p].
  - rewrite find_last_none by (by apply addr_suffix_no_colon). cbn [before]. rewrite length_app. lia.
  - rewrite find_last_none by (by apply addr_suffix_no_colon). cbn [before]. rewrite length_app. lia.
  - change (show_suffix (S_Port p)) with (show_port p). rewrite colon_last. cbn [before]. rewrite take_app_length. lia.
Qed.

Lemma ip4_turn t s nr : BitSet_test NetRuleAttr_IPV6 FL = false -> addr4_ok t = true -> suffix_ok s = true ->
  elem_turn (net_sec nr) (net_sec <$> sem_entry nr (E_Ip4 t s)) (show_entry (E_Ip4 t s)).
Proof.
  intros Hfam Ht Hs. pose proof (addr4_spec t Ht) as (Hch & Hcol & Hlen).
  assert (exists a t', t = a :: t' /\ addr_char a = true /\ a <> ":"%char) as (a & t' & Ha & Hac & Hane).
  { destruct t as [|a t']; [cbn in Hlen; lia|]. cbn in Hch. apply andb_true_iff in Hch as [? _]. exists a, t'.
    apply not_elem_of_cons in Hcol as [? _]. done. }
  cbn [show_entry sem_entry]. apply plain_elem.
  - exists a, (t' ++ show_suffix s). destruct (addr_char_head a Hac). by rewrite Ha.
  - apply Forall_app. split; [by apply addr_free|apply suffix_free].
  - right. rewrite Ha. cbn [app is_port]. unfold char_eqb. by rewrite bool_decide_false.
  - unfold plain_value. rewrite ip4_not_country by done. unfold read_address, cn_test. cbn [set_cn_flags cn_flags].
    rewrite Hfam. opts. rewrite read_ip4_parts by done.
    destruct s as [|n|p]; cbn [sem_suffix]; [|destruct (n <=? 32); [|done]|destruct (is_port_number p); [|done]];
      cbn [fmap option_fmap option_map mbind option_bind fst snd]; opts; unfold convert_ip; opts;
      (destruct (from_string t) as [[b|b]|]; [|done..]); reflexivity.
Qed.

Lemma addr6_spec t : addr6_ok t = true -> forallb addr_char t = true
  /\ (exists i j, find_first ":"%char t = Some i /\ find_last ":"%char t = Some j /\ i <> j)
  /\ is_port t = inr false /\ exists a t', t = a :: t' /\ addr_char a = true.
Proof.
  unfold addr6_ok. intros [[Ht Hc%negb_true_iff%bool_decide_eq_false]%andb_true_iff Hp]%andb_true_iff. split; [done|].
  destruct (find_first ":"%char t) as [i|] eqn:Hi; [|by rewrite (proj1 (find_none_iff _ _) Hi) in Hc].
  destruct (find_last ":"%char t) as [j|] eqn:Hj; [|by rewrite (proj2 (find_none_iff _ _) Hj) in Hi].
  split; [exists i, j; repeat split; congruence|].
  destruct t as [|a [|d t]]; [done| |].
  - cbn in Hi, Hj. destruct (char_eqb _ _); congruence.
  - cbn in Ht. apply andb_true_iff in Ht as [Ha _]. split; [|by exists a, (d :: t)]. cbn [is_port].
    destruct (char_eqb a ":"); [|done]. cbn in Hp |- *. by rewrite Hp.
Qed.

Lemma ip6_not_country t s : addr6_ok t = true -> is_iso_country_code (show_entry (E_Ip6 t s)) = false.
Proof.
  intros (Ht & (i & j & Hi & Hj & Hij) & _ & _)%addr6_spec. unfold is_iso_country_code. apply andb_false_iff. right.
  apply bool_decide_eq_false. destruct s as [|n|p]; cbn [show_entry show_suffix].
  - rewrite app_nil_r, Hi, Hj. congruence.
  - rewrite (find_first_some _ _ _ i) by done. rewrite find_last_app, Hj by (by apply cons_no). congruence.
  - rewrite (app_assoc t), app_assoc. rewrite colon_last. cbn. rewrite <- app_assoc, (find_first_some _ _ _ i) by done.
    cbn. intros [= Hl]. apply find_first_lt in Hi. rewrite length_app in Hl. cbn in Hl. lia.
Qed.

Lemma read_ip6_parts t s : addr6_ok t = true -> suffix_ok s = true ->
  to_opt (read_ip6_address (show_entry (E_Ip6 t s))) = (fun mp => (t, mp.1, mp.2)) <$> sem_suffix 128 s.
Proof.
  intros (Ht & (i & j & Hi & Hj & Hij) & _ & (a & t' & Ha & Hac))%addr6_spec Hs.
  assert (Hsl : "/"%char ∉ t) by (apply addr_no; [done|by left]).
  assert (Hbr : char_eqb a "[" = false).
  { apply bool_decide_eq_false. apply addr_char_ne; [done|]. right. by left. }
  unfold read_ip6_address, read_mask6. destruct s as [|n|p]; cbn [show_entry show_suffix sem_suffix suffix_ok] in *.
  - rewrite app_nil_r. rewrite (find_first_none "/"%char) by done. rewrite Ha. by rewrite Hbr.
  - change (T "/" ++ dec n) with ("/"%char :: dec n). rewrite (find_first_at "/"%char) by done.
    rewrite find_last_app, Hj by (by apply cons_no). apply andb_true_iff in Hs as [Hs1%Z.leb_le Hs2%Z.ltb_lt].
    pose proof (drop_at t "/"%char (dec n)) as Hd. pose proof (take_app_length t ("/"%char :: dec n)) as Htk.
    apply find_last_lt in Hj. cbn [pos_lt]. rewrite (proj2 (Nat.ltb_lt _ _) Hj).
    destruct (t ++ "/"%char :: dec n) as [|a0 r0] eqn:He; [by rewrite Ha in He|].
    assert (a0 = a) as -> by (rewrite Ha in He; cbn in He; congruence). rewrite Hbr. cbn [rbind]. opts.
    rewrite Htk, (read_mask_dec _ _ _ n) by done. by destruct (n <=? 128).
  - set (lv := T "[" ++ t ++ T "]" ++ show_port p).
    assert (Hlv : lv = "["%char :: t ++ "]"%char :: show_port p) by done.
    assert (Hcl : find_first "]"%char lv = Some (S (length t))).
    { rewrite Hlv. apply (find_first_at "]"%char ("["%char :: t)). apply not_elem_of_cons. split; [done|].
      apply addr_no; [done|]. right. right. by left. }
    assert (Hsl' : find_first "/"%char lv = None).
    { apply find_first_none. rewrite Hlv, elem_of_cons, elem_of_app, elem_of_cons. intros [?|[?|[?|?]]]; [done..|].
      by apply (cons_no "/"%char ":"%char p). }
    assert (Hlc : find_last ":"%char lv = Some (S (S (length t)))).
    { replace lv with (("["%char :: t ++ ["]"%char]) ++ show_port p) by (rewrite Hlv; cbn; by rewrite <- app_assoc).
      rewrite colon_last. f_equal. cbn. rewrite length_app. cbn. lia. }
    rewrite Hsl', Hlc, Hcl, Hlv. change (char_eqb "[" "[") with true. cbn [rsome rbind pos_lt].
    rewrite bool_decide_true by done. cbn [rverify rbind].
    replace (S (S (length t)) <? S (length t))%nat with false by (symmetry; apply Nat.ltb_ge; lia). cbn [read_mask rbind]. opts.
    rewrite (read_port_at_dec _ _ p); [| |by apply Z.leb_le].
    + destruct (is_port_number p); [|done]. cbn. by rewrite Nat.sub_0_r, take_app_length.
    + pose proof (drop_at ("["%char :: t ++ ["]"%char]) ":"%char (dec p)) as Hd. cbn [length app] in Hd.
      rewrite length_app, Nat.add_1_r, <- app_assoc in Hd. exact Hd.
Qed.

Lemma ip6_turn t s nr : BitSet_test NetRuleAttr_IPV6 FL = true -> addr6_ok t = true -> suffix_ok s = true ->
  elem_turn (net_sec nr) (net_sec <$> sem_entry nr (E_Ip6 t s)) (show_entry (E_Ip6 t s)).
Proof.
  intros Hfam Ht Hs. pose proof (addr6_spec t Ht) as (Hch & _ & Hport & (a & t' & Ha & Hac)).
  destruct (addr_char_head a Hac) as [Hsp Hcm]. apply plain_elem.
  - destruct s; cbn [show_entry]; rewrite Ha; by eexists _, _.
  - apply addr_free in Hch. destruct s as [|n|p]; cbn [show_entry].
    + apply Forall_app. split; [done|apply (suffix_free S_None)].
    + apply Forall_app. split; [done|apply (suffix_free (S_Mask n))].
    + constructor; [by apply (bool_decide_eq_false_1 (_ ∈ net_ends))|]. apply Forall_app. split; [done|].
      constructor; [by apply (bool_decide_eq_false_1 (_ ∈ net_ends))|]. apply port_free.
  - right. destruct s as [|n|p]; cbn [show_entry]; [by rewrite app_nil_r| |done].
    rewrite Ha in Hport |- *. destruct t' as [|d t']; [|done]. cbn in Hport |- *. by destruct (negb _).
  - unfold plain_value. rewrite ip6_not_country by done. unfold read_address, cn_test. cbn [set_cn_flags cn_flags].
    rewrite Hfam. opts. rewrite read_ip6_parts by done. cbn [sem_entry].
    destruct s as [|n|p]; cbn [sem_suffix]; [|destruct (n <=? 128); [|done]|destruct (is_port_number p); [|done]];
      cbn [fmap option_fmap option_map mbind option_bind fst snd]; opts; unfold convert_ip; opts;
      (destruct (from_string t) as [[b|b]|]; [done| |done]); reflexivity.
Qed.

(** Every element is read as it is meant. *)
Lemma entry_turn p e nr :
  BitSet_test NetRuleAttr_IPV6 FL = match p with Some (IP6, _) => true | _ => false end -> entry_ok p e = true ->
  elem_turn (net_sec nr) (net_sec <$> sem_entry nr e) (show_entry e).
Proof.
  intros Hfam Hok. destruct e as [c0 c1 port|p0 q|t s|t s].
  - by apply country_turn.
  - by apply ports_turn.
  - cbn in Hok. apply andb_true_iff in Hok as [[Ht Hs]%andb_true_iff Hp]. apply ip4_turn; [|done..].
    rewrite Hfam. by destruct p as [[[] ?]|].
  - cbn in Hok. apply andb_true_iff in Hok as [[Ht Hs]%andb_true_iff Hp]. apply ip6_turn; [|done..].
    rewrite Hfam. by destruct p as [[[] ?]|].
Qed.
End entries.
