(* ===== verification/GrammarItems.v ===== *)
(** * GrammarItems: each command of the language is read as it is meant

    For every command, the run of the parser from the body of the section xfw over
    the text of the command: it ends in the body again with the configuration that
    the meaning of the command gives, or in an error if the command has none. *)

From S2P Require Import Prelude.
From S2P Require Import Uapi.
From S2P Require Import Bitset.
From S2P Require Import AnomalyFlags.
From S2P Require Import ConfigUpdater.
From S2P Require Import LineConsumer.
From S2P Require Import Tcl.
From S2P Require Import Cli.
From S2P Require Import CliSpec.
From S2P Require Import Grammar.
From S2P Require Import GrammarTurns.
From S2P Require Import GrammarRules.
From S2P Require Import GrammarEntries.

Open Scope Z_scope.

Section items.
Context `{BoostIp}.

Definition is_some {A} (o : option A) : bool := match o with Some _ => true | None => false end.

Definition item_read (i : Item) : Prop := forall l h r,
  leads [xfwS l] h (show_item i ++ r) (read_as (sem_item i (h_xfw h)) h r) (is_some (sem_item i (h_xfw h))).

Ltac done_item := apply leads_to; eexists; split; [reflexivity|]; repeat split.

Lemma switch_read s del : item_read (I_Switch s del).
Proof.
  intros l h r. cbn [sem_item is_some show_item]. destruct s, del; unfold show_switch; rewrite <- app_assoc, !Tx_app;
    do 3 turn; try (do 2 turn); done_item.
Qed.

Lemma del_read i : i = I_SyncookiesDel \/ i = I_AnomalyDel \/ i = I_IpProtoDel -> item_read i.
Proof. intros Hi l h r. destruct Hi as [-> | [-> | ->]]; cbn [sem_item is_some show_item]; rewrite Tx_app; do 5 turn; done_item. Qed.

(** *** Commands with attributes *)

(** A command with an attribute has a value. *)
Definition has_value (t : option Z * option Z) : Prop := t.1 <> None \/ t.2 <> None.
Lemma attrs_value {A} (sem : option Z * option Z -> A -> option (option Z * option Z)) attrs t t' :
  (forall t a t', sem t a = Some t' -> has_value t') -> attrs <> [] -> sem_attrs sem t attrs = Some t' -> has_value t'.
Proof.
  intros Hone. revert t. induction attrs as [|a attrs IH]; [done|]. intros t _. cbn.
  destruct (sem t a) as [t1|] eqn:Ht; [|done]. cbn. destruct attrs as [|b attrs]; [|by apply IH].
  intros [= <-]. by eapply Hone.
Qed.
Lemma timers_some attrs t t' : attrs <> [] -> sem_attrs sem_timer t attrs = Some t' -> has_value t'.
Proof.
  apply attrs_value. intros t0 [n|n] t1; cbn; destruct (n <? 2 ^ 32); intros [= <-]; [by left|by right].
Qed.
Lemma limits_some attrs t t' : attrs <> [] -> sem_attrs sem_limit t attrs = Some t' -> has_value t'.
Proof.
  apply attrs_value. intros t0 [n|n] t1; unfold sem_limit; destruct (n <? 2 ^ 64); intros [= <-]; [by left|by right].
Qed.

Lemma syncookies_read attrs : item_ok (I_Syncookies attrs) = true -> item_read (I_Syncookies attrs).
Proof.
  intros Hok l h r. cbn [sem_item show_item item_ok] in *. rewrite <- !app_assoc. change (T ";" ++ r) with (";"%char :: r).
  destruct (attrs_head show_timer attrs r) as (c & t & Hc & Ht); [by intros [n|n]; eexists|]. rewrite Ht, Tx_app.
  assert (Hs : exists l', psteps [xfwS l] h (Tx "tcp_syncookies" (c :: t))
    [Sx (TcpSyncookieSection None None) ReadingAttributes [] None None l'; xfwS (Tx "tcp_syncookies" (c :: t))] h (c :: t)).
  { destruct Hc as [-> | ->]; eexists; do 2 turn; apply psteps_refl. }
  destruct Hs as [l' Hs]. eapply psteps_leads; [exact Hs|]. rewrite <- Ht.
  eapply (attrs_loop (fun t => TcpSyncookieSection t.2 t.1) sem_timer show_timer _ timer_turn)
    with (s := (None, None)); [by intros [n|n]; eexists|exact Hok|].
  destruct (sem_attrs sem_timer (None, None) attrs) as [t'|] eqn:Hsem; [|done]. intros l''.
  destruct attrs as [|a attrs]; [inversion Hsem; subst; error|]. cbn [mbind option_bind guard_some is_empty_list negb is_some].
  apply timers_some in Hsem; [|done].
  destruct t' as [[p|] [f|]]; [turn; done_item..|by destruct Hsem].
Qed.

Lemma anomaly_read attrs : item_ok (I_Anomaly attrs) = true -> item_read (I_Anomaly attrs).
Proof.
  intros Hok l h r. cbn [sem_item show_item item_ok] in *. rewrite <- !app_assoc. change (T ";" ++ r) with (";"%char :: r).
  assert (Hsp : forall a, exists r, show_anomaly a = " "%char :: r) by (intros [| | |]; by eexists).
  destruct (attrs_head show_anomaly attrs r Hsp) as (c & t & Hc & Ht). rewrite Ht, Tx_app.
  assert (Hs : exists l', psteps [xfwS l] h (Tx "tcp_anomaly_filter" (c :: t))
    [Sx (TcpAnomalySection TcpAnomalyRule_init) ReadingAttributes [] None None l'; xfwS (Tx "tcp_anomaly_filter" (c :: t))]
    h (c :: t)).
  { destruct Hc as [-> | ->]; eexists; do 2 turn; apply psteps_refl. }
  destruct Hs as [l' Hs]. eapply psteps_leads; [exact Hs|]. rewrite <- Ht.
  eapply (attrs_loop TcpAnomalySection sem_anomaly_attr show_anomaly _ anomaly_turn); [exact Hsp|exact Hok|].
  destruct (sem_attrs sem_anomaly_attr TcpAnomalyRule_init attrs) as [a|]; [|done]. intros l''.
  cbn [mbind option_bind is_some]. turn. done_item.
Qed.

(** *** Rate limits *)

Lemma ratelimit_start name c r l h : forallb word_char name = true -> alias_end c ->
  exists l1 l2, psteps [xfwS l] h (Tx "ratelimit=" (cat name (c :: r)))
    [Sx (RatelimitSection CliRatelimit_init) (if char_eqb c "/"%char then ProcessEditAction else ReadingAttributes)
       name None None l2; xfwS l1] h (c :: r).
Proof.
  intros Hn Hc. pose proof (alias_until name c r Hn Hc) as Ha. fold (cat name (c :: r)) in Ha. destruct Hc as [-> | [-> | ->]];
    eexists _, _; turn; turn_with ltac:(reads Ha); apply psteps_refl.
Qed.

Lemma ratelimit_read name attrs : item_ok (I_Ratelimit name attrs) = true -> item_read (I_Ratelimit name attrs).
Proof.
  intros [[Hne Hw]%wordb_word Hok]%andb_true_iff l h r. cbn [sem_item show_item] in *. rewrite <- !app_assoc.
  change (T ";" ++ r) with (";"%char :: r).
  assert (Hsp : forall a, exists r, show_limit a = " "%char :: r) by (intros [|]; by eexists).
  destruct (attrs_head show_limit attrs r Hsp) as (c & t & Hc & Ht). rewrite Ht, Tx_app. fold (cat name (c :: t)).
  destruct (ratelimit_start name c t l h Hw (or_intror Hc)) as (l1 & l2 & Hs).
  eapply psteps_leads; [exact Hs|]. replace (char_eqb c "/") with false by (by destruct Hc as [-> | ->]). rewrite <- Ht.
  eapply (attrs_loop (fun lim => RatelimitSection (mkCliRatelimit [] (BitSet_empty RatelimitAttr_MAX_BIT) lim.1 lim.2))
    sem_limit show_limit _ (limit_turn _)) with (s := (None, None)); [exact Hsp|exact Hok|].
  destruct name as [|a0 name]; [done|].
  destruct (sem_attrs sem_limit (None, None) attrs) as [t'|] eqn:Hsem; [|done]. intros l''.
  destruct attrs as [|a attrs]; [inversion Hsem; subst; error|]. cbn [mbind option_bind guard_some is_empty_list negb].
  apply limits_some in Hsem; [|done]. unfold add_limit.
  destruct (add_rule crl_alias _ _) as [e|rules] eqn:Ha; cbn [is_some];
    destruct t' as [[p|] [f|]]; try (by destruct Hsem); [error_with ltac:(reads Ha)..| | |];
    turn_with ltac:(reads Ha); done_item.
Qed.

Lemma ratelimit_del_read name : item_ok (I_RatelimitDel name) = true -> item_read (I_RatelimitDel name).
Proof.
  intros [Hne Hw]%wordb_word l h r. cbn [sem_item show_item] in *. rewrite <- !app_assoc, !Tx_app.
  fold (cat name (Tx "/del;" r)). cbn [Tx].
  destruct (ratelimit_start name "/"%char (Tx "del;" r) l h Hw (or_introl eq_refl)) as (l1 & l2 & Hs).
  eapply psteps_leads; [exact Hs|]. destruct name as [|a0 name]; [done|]. do 2 turn. unfold add_limit.
  destruct (add_rule crl_alias _ _) as [e|rules] eqn:Ha; cbn [is_some];
    [error_with ltac:(reads Ha)|turn_with ltac:(reads Ha); done_item].
Qed.

(** *** The rules for the flags *)

Lemma tcp_flags_taken flag rules : flag_taken flag rules =
  (bool_decide (flag = FT_ALL) && negb (bool_decide (rules = [])))
  || existsb (fun rule => bool_decide (ct_flag rule = flag) || bool_decide (ct_flag rule = FT_ALL)) rules.
Proof. destruct flag; cbn; [|done..]. by destruct rules. Qed.

Lemma tcp_flags_start flag rl r l h : wordb rl = true -> exists l1 l2,
  psteps [xfwS l] h (T "tcp_flags" ++ show_tcp_flag flag ++ T " :ratelimit=" ++ cat rl (";"%char :: r))
    [Sx (TcpFlagSection flag) ProcessingAction [] (Some (mkCliAction rl true)) None l2; xfwS l1] h (";"%char :: r).
Proof.
  intros Hw. change (T " :ratelimit=" ++ cat rl (";"%char :: r)) with (show_act (A_Ratelimit rl) ++ ";"%char :: r).
  destruct (action_turn (TcpFlagSection flag) [] None (show_act (A_Ratelimit rl) ++ ";"%char :: r)
    [xfwS (T "tcp_flags" ++ show_tcp_flag flag ++ show_act (A_Ratelimit rl) ++ ";"%char :: r)] h
    (A_Ratelimit rl) ";"%char r eq_refl) as [l' Ha]; [done|by right|].
  eexists _, l'. eapply psteps_trans; [|exact Ha]. unfold show_act.
  destruct flag; unfold show_tcp_flag; rewrite <- !app_assoc; do 2 turn; [apply psteps_refl|turn..]; apply psteps_refl.
Qed.

Lemma tcp_flags_read flag rl : item_ok (I_TcpFlags flag rl) = true -> item_read (I_TcpFlags flag rl).
Proof.
  intros Hw l h r. cbn [sem_item show_item item_ok] in *. rewrite <- !app_assoc. fold (cat rl (T ";" ++ r)).
  destruct (tcp_flags_start flag rl r l h Hw) as (l1 & l2 & Hs). eapply psteps_leads; [exact Hs|].
  destruct rl as [|a rl]; [done|].
  rewrite tcp_flags_taken. destruct (_ || _) eqn:Ht; cbn [negb guard_some mbind option_bind is_some].
  - destruct flag, (x_tcp_flags (h_xfw h)) as [|f fs] eqn:Hf; try done;
      error_with ltac:(rewrite ?Hf; ev; try (reads Ht)).
  - destruct flag, (x_tcp_flags (h_xfw h)) as [|f fs] eqn:Hf; try done;
      turn_with ltac:(rewrite ?Hf; ev; try (reads Ht)); done_item; by rewrite Hf.
Qed.

Lemma tcp_flags_del_read flag : item_read (I_TcpFlagsDel flag).
Proof.
  intros l h r. cbn [sem_item show_item is_some]. destruct flag; unfold show_tcp_flag; [rewrite app_nil_l|..];
    rewrite <- !app_assoc, !Tx_app; do 5 turn; [|turn..]; done_item.
Qed.

(** *** The protocols *)

Lemma ip_proto_start r l h : exists l1 l2, psteps [xfwS l] h (Tx "ip_proto {" r)
  [Sx (IpProtoSection None) ProcessingBody [] None None l2; xfwS l1] h r.
Proof. eexists _, _. do 3 turn. apply psteps_refl. Qed.

Lemma ip_proto_read ps : item_ok (I_IpProto ps) = true -> item_read (I_IpProto ps).
Proof.
  intros Hok l h r. cbn [sem_item show_item item_ok] in *. rewrite <- !app_assoc, Tx_app. change (T "}" ++ r) with ("}"%char :: r).
  destruct (ip_proto_start (join (T ",") (dec <$> ps) ++ "}"%char :: r) l h) as (l1 & l2 & Hs).
  eapply psteps_leads; [exact Hs|].
  eapply (body_loop IpProtoSection ip_proto_elem dec nonneg ip_proto_elem_turn); [exact Hok|]. clear Hok Hs.
  rewrite ip_proto_elems. destruct (forallb _ ps); [|done]. cbn [guard_some mbind option_bind is_some]. intros l'.
  eapply leads_step; [discriminate|rewrite body_close by (by apply close_body); reflexivity|]. done_item.
Qed.

(** *** Rules *)

Lemma read_as_top x h r : at_top (read_as x h r).
Proof. intros o o' stk h' lv (l & Hst & _). done. Qed.

Lemma body_head {A} (show : A -> text) body r : tail_head (show_body show body ++ r).
Proof. destruct body as [es|]; [right; eexists _, _; (split; [reflexivity|]); done|left; by eexists]. Qed.
Lemma body_next {A} (show : A -> text) body r : exists c t, show_body show body ++ r = c :: t /\ next_char c.
Proof. apply tail_next, body_head. Qed.

Definition act_limit (a : option Act) : text := act_ratelimit (default (act_of A_Block) (act_of <$> a)).

Lemma icmp_commit_eq al fl a e types h r :
  let o := Sx (IcmpSection (mkCliIcmpRule [] fl types [])) End_ al (act_of <$> a) e r in
  let rule := mkCliIcmpRule al (with_flags fl ((if action_allows a then [IcmpRuleAttr_ALLOW] else [])
    ++ edit_flags e IcmpRuleAttr_REPLACE IcmpRuleAttr_DELETE)) types (act_limit a) in
  commit (o, h)
  = if is_empty_list al then inl CE_NO_NAME else
    match add_rule ci_alias rule (x_icmp_rules (h_xfw h)) with
    | inl er => inl er
    | inr rules => inr (tt, (o, set_h_xfw (set_x_icmp_rules rules (h_xfw h)) h))
    end.
Proof.
  intros o rule. unfold commit. do 2 erewrite C_bind_run by reflexivity. subst o. cbn [fst snd members_ Sx].
  unfold icmp_commit. do 2 erewrite C_bind_run by reflexivity. cbn [fst snd action_ section_alias_ edit_type_ Sx].
  destruct al as [|c al]; [by destruct a as [[]|]|]. cbn [is_empty_list].
  destruct a as [[]|], e as [[]|]; subst rule; cbn [fmap option_fmap option_map act_of act_allow act_ratelimit];
    (erewrite C_bind_run by reflexivity); cbv zeta iota; unfold mbind at 1, C_bind at 1, cpure;
    match goal with |- context [add_rule ci_alias ?x ?y] => destruct (add_rule ci_alias x y) eqn:Ha end;
    cbv beta iota; unfold with_flags, action_allows, edit_flags, act_limit in *; cbn in Ha |- *; by rewrite ?Ha.
Qed.

Lemma icmp_read r : item_ok (I_Icmp r) = true -> item_read (I_Icmp r).
Proof.
  intros Hok l h rest. destruct r as [al e p a body]. cbn [item_ok i_alias i_action i_body] in Hok.
  apply andb_true_iff in Hok as [[Hal Ha]%andb_true_iff Hbody]. cbn [sem_item show_item].
  unfold show_icmp. cbn [i_alias i_edit i_proto i_action i_body]. rewrite <- !app_assoc.
  destruct (body_next dec body rest) as (c & t & Hb & Hc).
  replace (show_opt (fun f => T " " ++ show_family f) p)
    with (show_opt (fun q => T " " ++ show_rule_proto RK_Icmp q) ((fun f => (f, TCP)) <$> p)) by (by destruct p).
  apply (rule_head RK_Icmp); [exact Hal|apply rule_text_head, body_head|apply read_as_top|]. intros l1 l2.
  rewrite Hb. apply rule_attrs; [exact Ha|exact Hc|]. intros l3. rewrite <- Hb.
  apply (rule_body IcmpSection icmp_elem dec nonneg icmp_elem_turn); [done..|exact Hbody|].
  rewrite icmp_elems. unfold sem_icmp. cbn [i_alias i_edit i_proto i_action i_body].
  clear Hbody. destruct (forallb _ _); [|done]. cbn [guard_some mbind option_bind ci_alias ci_flags ci_types ci_ratelimit app].
  rewrite icmp_commit_eq, flags_of_app. fold (act_limit a).
  replace (show_rule_proto RK_Icmp <$> ((fun f => (f, TCP)) <$> p)) with (show_family <$> p) by (by destruct p).
  replace (fst <$> ((fun f => (f, TCP)) <$> p)) with p by (by destruct p). fold (icmp_flags p).
  destruct (is_empty_list _); [done|]. cbn [guard_some negb mbind option_bind].
  destruct (add_rule _ _ _) as [er|rules]; [done|]. cbn [is_some]. done_item.
Qed.

Lemma sem_entries_attrs es nr : sem_entries nr es = sem_attrs sem_entry nr es.
Proof. revert nr. induction es as [|e es IH]; [done|]. intros nr. cbn. destruct (sem_entry nr e); [apply IH|done]. Qed.

Lemma sem_entry_limit nr e nr' : sem_entry nr e = Some nr' -> cn_ratelimit nr' = cn_ratelimit nr.
Proof.
  destruct e as [c0 c1 [p|]|p [q|]|t s|t s]; cbn [sem_entry sem_port mbind option_bind];
    repeat (match goal with
            | |- context [if ?b then _ else _] => destruct b
            | |- context [guard_some ?b] => destruct b
            | |- context [sem_suffix ?l ?s] => destruct (sem_suffix l s) as [[? ?]|]
            | |- context [from_string ?t] => destruct (from_string t) as [[]|]
            end; cbn [guard_some mbind option_bind]); intros [= <-]; done.
Qed.
Lemma sem_entries_limit es nr nr' : sem_attrs sem_entry nr es = Some nr' -> cn_ratelimit nr' = cn_ratelimit nr.
Proof.
  revert nr. induction es as [|e es IH]; intros nr; cbn; [by intros [= <-]|].
  destruct (sem_entry nr e) as [nr1|] eqn:He; [|done]. cbn. intros Hn. rewrite (IH nr1 Hn). by eapply sem_entry_limit.
Qed.

Definition no_addresses (nr : CliNetRule) : bool :=
  is_empty_list (cn_nets nr) && is_empty_list (cn_net4s nr) && is_empty_list (cn_net6s nr).
Definition may_act (a : option Act) (e : option EditType) : bool :=
  is_none a || match e with None | Some EDIT_REPLACE => true | _ => false end.

Lemma is_empty_dec {A} (l : list A) (d : Decision (l = [])) : @bool_decide (l = []) d = is_empty_list l.
Proof. destruct l; [by apply bool_decide_true|by apply bool_decide_false]. Qed.

Lemma net_commit_eq k nr hp al fl a e h r : cn_ratelimit nr = [] ->
  let o := Sx (NetRuleSection k (set_cn_flags fl nr) hp) End_ al (act_of <$> a) e r in
  let rule := mkCliNetRule al (with_flags fl ((if action_allows a then [NetRuleAttr_ALLOW] else [])
    ++ edit_flags e NetRuleAttr_REPLACE NetRuleAttr_DELETE)) (cn_net6s nr) (cn_net4s nr) (cn_nets nr) (cn_ports nr) (act_limit a) in
  to_opt (commit (o, h))
  = _ ← guard_some (hp || no_addresses nr);
    _ ← guard_some (negb (is_empty_list al));
    _ ← guard_some (may_act a e);
    x ← to_opt (add_netrule rule (h_xfw h));
    Some (tt, (o, set_h_xfw x h)).
Proof.
  intros Hrl o rule. unfold commit. do 2 erewrite C_bind_run by reflexivity. subst o. cbn [fst snd members_ Sx].
  unfold net_rule_commit. do 2 erewrite C_bind_run by reflexivity.
  cbn [fst snd action_ section_alias_ edit_type_ Sx set_cn_flags cn_nets cn_net4s cn_net6s cn_ratelimit].
  rewrite Hrl.
  assert (Hna : forall b, b || bool_decide (cn_nets nr = []) && bool_decide (cn_net4s nr = []) && bool_decide (cn_net6s nr = [])
    = b || no_addresses nr) by (intros b; by rewrite !is_empty_dec).
  destruct a as [[]|], e as [[]|]; subst rule;
    cbn [fmap option_fmap option_map act_of act_allow act_ratelimit cn_set set_cn_flags cn_nets cn_net4s cn_net6s cn_flags];
    rewrite Hna; (destruct (hp || no_addresses nr); [|done]); (destruct al as [|c al]; [done|]); try done;
    cbn [cverify guard_some mbind option_bind is_empty_list negb may_act is_none orb];
    do 3 (erewrite C_bind_run by reflexivity); unfold mbind at 1, C_bind at 1, cpure;
    match goal with |- context [add_netrule ?x ?y] => destruct (add_netrule x y) eqn:Ha end;
    unfold with_flags, action_allows, edit_flags, act_limit in *; cbn in Ha |- *; by rewrite ?Ha.
Qed.

Definition rule_flags (k : NetKind) (p : option (Family * Transport)) : list Z :=
  flags_of NetRuleAttr_MAX_BIT (kind_flags k ++ proto_flags k p).
Lemma rule_family k p : BitSet_test NetRuleAttr_IPV6 (rule_flags k p) = match p with Some (IP6, _) => true | _ => false end.
Proof. destruct k, p as [[[] []]|]; reflexivity. Qed.

Lemma rule_flags_app k p fs :
  with_flags (rule_flags k p) fs = flags_of NetRuleAttr_MAX_BIT (kind_flags k ++ proto_flags k p ++ fs).
Proof. unfold rule_flags. by rewrite <- flags_of_app, <- app_assoc. Qed.

Lemma net_read k r : item_ok (I_Net k r) = true -> item_read (I_Net k r).
Proof.
  intros Hok l h rest. destruct r as [al e p a body]. cbn [item_ok r_alias r_action r_body r_proto] in Hok.
  apply andb_true_iff in Hok as [[Hal Ha]%andb_true_iff Hbody]. cbn [sem_item show_item].
  unfold show_rule. cbn [r_alias r_edit r_proto r_action r_body]. rewrite <- !app_assoc.
  destruct (body_next show_entry body rest) as (c & t & Hb & Hc).
  replace (show_kind k) with (name_ (rule_sec (RK_Net k))) by (by destruct k).
  change (fun p => T " " ++ show_kind_proto k p) with (fun p => T " " ++ show_rule_proto (RK_Net k) p).
  apply (rule_head (RK_Net k)); [exact Hal|apply rule_text_head, body_head|apply read_as_top|].
  intros l1 l2. rewrite Hb. apply (rule_attrs (RK_Net k)); [exact Ha|exact Hc|]. intros l3. rewrite <- Hb.
  change (rule_with (RK_Net k) p) with (net_sec k (rule_flags k p) (negb (is_none p)) (NetRule_init None)).
  apply (rule_body (net_sec k (rule_flags k p) (negb (is_none p))) sem_entry show_entry (entry_ok p));
    [intros s e0; apply entry_turn, rule_family|done..|exact Hbody|].
  unfold sem_rule. cbn [r_alias r_edit r_proto r_action r_body]. rewrite sem_entries_attrs.
  destruct (sem_attrs sem_entry _ _) as [nr|] eqn:Hsem; [|done]. cbn [mbind option_bind].
  apply sem_entries_limit in Hsem.
  pose proof (net_commit_eq k nr (negb (is_none p)) (rule_name al (show_kind_proto k <$> p)) (rule_flags k p) a e h rest Hsem) as He.
  cbv zeta in He. fold (net_sec k (rule_flags k p) (negb (is_none p)) nr) in He.
  change (show_rule_proto (RK_Net k) <$> p) with (show_kind_proto k <$> p).
  rewrite rule_flags_app in He. fold (act_limit a).
  fold (no_addresses nr). fold (may_act a e). revert He. generalize (commit (Sx (net_sec k (rule_flags k p) (negb (is_none p)) nr)
    End_ (rule_name al (show_kind_proto k <$> p)) (act_of <$> a) e rest, h)) as cm.
  destruct (negb (is_none p) || no_addresses nr), (negb (is_empty_list _)), (may_act a e);
    cbn [guard_some mbind option_bind]; try (by intros [er|cm]).
  destruct (add_netrule _ _) as [er|x]; cbn [to_opt option_bind is_some]; [by intros [er'|cm]|].
  intros [er|cm]; [done|]. intros [= ->]. done_item.
Qed.

(** *** The default actions *)

Lemma defaults_start r l h : exists l1 l2, psteps [xfwS l] h (Tx "defaults {" r)
  [Sx DefaultsSection ProcessingBody [] None None l2; xfwS l1]
  (mkHeap (h_conf h) (h_xfw h) [] (BitSet_empty XFW_DEFAULT_MAX)) r.
Proof. eexists _, _. do 3 turn. apply psteps_refl. Qed.

Lemma defaults_read rules : item_ok (I_Defaults rules) = true -> item_read (I_Defaults rules).
Proof.
  intros Hok l h r. cbn [sem_item show_item item_ok] in *. rewrite <- !app_assoc, Tx_app.
  destruct (defaults_start (concat (show_default <$> rules) ++ T " }" ++ r) l h) as (l1 & l2 & Hs).
  eapply psteps_leads; [exact Hs|].
  apply (defaults_loop rules []); [exact Hok|constructor|done|]. cbn [h_defaults h_conf h_xfw].
  destruct (sem_defaults rules [] []) as [out|]; [|done]. intros l' p. cbn [mbind option_bind].
  destruct (x_defaults (h_xfw h)) as [|d ds] eqn:Hd; cbn [guard_some is_empty_list mbind option_bind is_some].
  - turn_with ltac:(cbn [h_xfw]; rewrite Hd). done_item.
  - error_with ltac:(cbn [h_xfw]; rewrite Hd).
Qed.
End items.
