(* ===== verification/GrammarClaims.v ===== *)
(** * GrammarClaims: from commands to texts, and the theorem on the parser

    A line of a configuration is a command with its indentation. A text is divided
    into its lines, and the parser goes from one to the next. At the end is the theorem that the
    parser implements the configuration language. *)

From S2P Require Import Prelude.
From S2P Require Import Enums.
From S2P Require Import Uapi.
From S2P Require Import Bitset.
From S2P Require Import ConfigUpdater.
From S2P Require Import LineConsumer.
From S2P Require Import Tcl.
From S2P Require Import Cli.
From S2P Require Import CliSpec.
From S2P Require Import CliProgress.
From S2P Require Import Inet.
From S2P Require Import Grammar.
From S2P Require Import GrammarTurns.
From S2P Require Import GrammarRules.
From S2P Require Import GrammarEntries.
From S2P Require Import GrammarItems.

Open Scope Z_scope.

(** ** No command has a newline in it *)

Definition one_line (t : text) : Prop := newline ∉ t.

Lemma one_line_app s t : one_line (s ++ t) <-> one_line s /\ one_line t.
Proof. unfold one_line. rewrite elem_of_app. tauto. Qed.
Lemma one_line_dec n : one_line (dec n).
Proof. by apply dec_no. Qed.
Lemma one_line_T s : bool_decide (newline ∈ T s) = false -> one_line (T s).
Proof. apply bool_decide_eq_false_1. Qed.
Lemma one_line_word t : forallb word_char t = true -> one_line t.
Proof. intros Ht Hin. apply forallb_forall with (x := newline) in Ht; [done|by apply list_elem_of_In]. Qed.
Lemma one_line_addr t : forallb addr_char t = true -> one_line t.
Proof. intros Ht Hin. apply forallb_forall with (x := newline) in Ht; [done|by apply list_elem_of_In]. Qed.
Lemma one_line_concat {A} (show : A -> text) l : (forall a, In a l -> one_line (show a)) -> one_line (concat (show <$> l)).
Proof.
  induction l as [|a l IH]; intros Hl; [by apply not_elem_of_nil|]. cbn. apply one_line_app. split; [apply Hl; by left|].
  apply IH. intros b Hb. apply Hl. by right.
Qed.
Lemma one_line_join {A} sep (show : A -> text) l : one_line sep -> (forall a, In a l -> one_line (show a)) ->
  one_line (join sep (show <$> l)).
Proof.
  intros Hs. induction l as [|a [|b l] IH]; intros Hl; [by apply not_elem_of_nil|apply Hl; by left|].
  change (join sep (show <$> a :: b :: l)) with (show a ++ sep ++ join sep (show <$> b :: l)).
  rewrite !one_line_app. split; [apply Hl; by left|]. split; [done|]. apply IH. intros c Hc. apply Hl. by right.
Qed.
Lemma one_line_opt {A} (show : A -> text) o : (forall a, o = Some a -> one_line (show a)) -> one_line (show_opt show o).
Proof. destruct o; intros Ho; [by apply Ho|apply not_elem_of_nil]. Qed.

Lemma one_line_nil : one_line [].
Proof. apply not_elem_of_nil. Qed.

Create HintDb lines.
#[local] Hint Resolve one_line_nil one_line_dec one_line_word one_line_addr one_line_opt one_line_concat one_line_join : lines.
#[local] Hint Extern 1 (one_line (T _)) => apply one_line_T; reflexivity : lines.
#[local] Hint Extern 1 (one_line (_ ++ _)) => apply one_line_app; split : lines.

Lemma one_line_act a : act_ok a = true -> one_line (show_act a).
Proof. destruct a; cbn [show_act act_ok]; [auto with lines..|]. intros [_ Ha]%wordb_word. auto with lines. Qed.
Lemma one_line_alias al : forallb word_char al = true -> one_line (show_alias al).
Proof. destruct al as [|a al]; cbn [show_alias]; auto with lines. Qed.
Lemma one_line_port n : one_line (show_port n).
Proof. unfold show_port. auto with lines. Qed.
Lemma one_line_suffix s : one_line (show_suffix s).
Proof. destruct s; cbn [show_suffix]; auto with lines. Qed.
#[local] Hint Resolve one_line_act one_line_alias one_line_port one_line_suffix : lines.

Lemma one_line_entry p e : entry_ok p e = true -> one_line (show_entry e).
Proof.
  destruct e as [c0 c1 port|n q|t s|t s]; cbn [entry_ok show_entry]; intros Hok.
  - apply andb_true_iff in Hok as [[[[H0 H1]%andb_true_iff _]%andb_true_iff _]%andb_true_iff _].
    assert (forallb addr_char [c0; c1] = true) by (cbn; by rewrite H0, H1). auto with lines.
  - auto 10 with lines.
  - apply andb_true_iff in Hok as [[(Ht & _)%addr4_spec _]%andb_true_iff _]. auto with lines.
  - apply andb_true_iff in Hok as [[(Ht & _)%addr6_spec _]%andb_true_iff _]. destruct s; auto 10 with lines.
Qed.

Lemma one_line_rule_proto k p : one_line (show_rule_proto k p).
Proof. by destruct k as [|[]], p as [[] []]; apply one_line_T. Qed.
Lemma one_line_edit e : one_line (show_edit e).
Proof. by destruct e as [[]|]; apply one_line_T || apply one_line_nil. Qed.
Lemma one_line_combo c : one_line (show_combo c).
Proof. unfold show_combo. apply one_line_join; [by apply one_line_T|]. intros f _. by destruct f; apply one_line_T. Qed.
Lemma one_line_body {A} (show : A -> text) body : (forall a, In a (default [] body) -> one_line (show a)) -> one_line (show_body show body).
Proof. destruct body as [es|]; cbn [show_body]; intros Hb; auto 10 with lines. Qed.
#[local] Hint Resolve one_line_rule_proto one_line_edit one_line_combo one_line_body : lines.

Lemma forallb_in {A} (f : A -> bool) l a : forallb f l = true -> In a l -> f a = true.
Proof. rewrite forallb_forall. auto. Qed.

Lemma one_line_attrs :
  (forall a, one_line (show_timer a)) /\ (forall a, one_line (show_limit a)) /\ (forall a, one_line (show_anomaly a)).
Proof.
  repeat split; intros a; destruct a; cbn [show_timer show_limit show_anomaly]; auto 10 with lines.
Qed.
Lemma one_line_default d : act_ok (d_action d) = true -> one_line (show_default d).
Proof.
  destruct d as [ty sel a]. intros Ha. unfold show_default. cbn [d_type d_sel d_action] in *.
  assert (one_line (type_to_name ty)) by (by destruct ty; apply one_line_T).
  assert (one_line (show_selector sel)) by (by destruct sel as [|[]|[] []]; apply (bool_decide_eq_false_1 (newline ∈ _))).
  auto 10 with lines.
Qed.

Lemma one_line_item i : item_ok i = true -> one_line (show_item i).
Proof.
  destruct one_line_attrs as (Ht & Hl & Ha). destruct i as [sw del|attrs| |name attrs|name|flag rl|flag|attrs| |ps| |r|k r|rules|t];
    cbn [item_ok show_item]; intros Hok; auto 10 with lines.
  - by destruct sw, del; apply (bool_decide_eq_false_1 (newline ∈ _)).
  - apply andb_true_iff in Hok as [[_ Hw]%wordb_word _]. auto 10 with lines.
  - apply wordb_word in Hok as [_ Hw]. auto 10 with lines.
  - apply wordb_word in Hok as [_ Hw]. assert (one_line (show_tcp_flag flag)) by (by destruct flag; apply (bool_decide_eq_false_1 (newline ∈ _))).
    auto 10 with lines.
  - by destruct flag; apply (bool_decide_eq_false_1 (newline ∈ _)).
  - apply andb_true_iff in Hok as [[Hal Hact]%andb_true_iff Hb]. unfold show_icmp.
    assert (forall f, one_line (show_family f)) by (intros f; by destruct f; apply (bool_decide_eq_false_1 (newline ∈ _))).
    assert (forall a, i_action r = Some a -> one_line (show_act a)) by (intros a Hr; rewrite Hr in Hact; auto with lines).
    auto 12 with lines.
  - apply andb_true_iff in Hok as [[Hal Hact]%andb_true_iff Hb]. unfold show_rule.
    assert (one_line (show_kind k)) by (by destruct k; apply (bool_decide_eq_false_1 (newline ∈ _))).
    assert (forall p, one_line (show_kind_proto k p)) by (intros p; apply (one_line_rule_proto (RK_Net k))).
    assert (forall a, r_action r = Some a -> one_line (show_act a)) by (intros a Hr; rewrite Hr in Hact; auto with lines).
    assert (forall e, In e (default [] (r_body r)) -> one_line (show_entry e)) by (intros e He; eapply one_line_entry, forallb_in; done).
    auto 12 with lines.
  - assert (forall d, In d rules -> one_line (show_default d)).
    { intros d Hd. pose proof (forallb_in _ _ d Hok Hd) as Hact. cbv beta in Hact. apply andb_true_iff in Hact as [Hact _].
      by apply one_line_default. }
    auto 10 with lines.
  - apply negb_true_iff, bool_decide_eq_false in Hok. auto with lines.
Qed.

(** ** The lines of a text *)

Lemma split_line cur t r : one_line t -> split_lines cur (t ++ newline :: r) = (cur ++ t ++ [newline]) :: split_lines [] r.
Proof.
  revert cur. induction t as [|c t IH]; intros cur Ht; [done|]. apply not_elem_of_cons in Ht as [Hc Ht].
  cbn [app split_lines]. unfold char_eqb. rewrite bool_decide_false by congruence. rewrite IH by done.
  by rewrite <- app_assoc.
Qed.

Lemma one_line_indent ws : forallb (fun c => bool_decide (c ∈ spaces)) ws = true -> one_line ws.
Proof. intros Hw Hin. apply forallb_forall with (x := newline) in Hw; [done|by apply list_elem_of_In]. Qed.

Lemma split_show_lines ls r : forallb line_ok ls = true ->
  split_lines [] (concat (show_line <$> ls) ++ r) = (show_line <$> ls) ++ split_lines [] r.
Proof.
  induction ls as [|[ws i] ls IH]; intros Hok; [done|]. cbn [forallb] in Hok. apply andb_true_iff in Hok as [[Hw Hi]%andb_true_iff Hok].
  cbn [fmap list_fmap concat]. rewrite <- app_assoc. unfold show_line at 1. cbn [fst snd] in *. rewrite <- !app_assoc, app_assoc.
  change ([newline] ++ ?x) with (newline :: x). rewrite split_line.
  - rewrite IH by done. unfold show_line at 3. cbn [fst snd]. by rewrite <- app_assoc.
  - apply one_line_app. split; [by apply one_line_indent|by apply one_line_item].
Qed.

Lemma split_show_config ls : forallb line_ok ls = true ->
  split_lines [] (show_config ls) = (T "xfw {" ++ [newline]) :: (show_line <$> ls) ++ [T "}"].
Proof.
  intros Hok. unfold show_config. change ([newline] ++ ?x) with (newline :: x).
  rewrite split_line by (by apply one_line_T). cbn [app]. by rewrite split_show_lines.
Qed.

Section lines.
Context `{BoostIp}.

(** ** One line *)

Lemma item_reads i : item_ok i = true -> match i with I_Comment _ => True | _ => item_read i end.
Proof.
  destruct i; intros Hok; [apply switch_read|by apply syncookies_read|apply del_read; auto|by apply ratelimit_read
    |by apply ratelimit_del_read|by apply tcp_flags_read|apply tcp_flags_del_read|by apply anomaly_read|apply del_read; auto
    |by apply ip_proto_read|apply del_read; auto|by apply icmp_read|by apply net_read|by apply defaults_read|done].
Qed.

(** A command starts with a letter. *)
Lemma item_head i : match i with I_Comment _ => False | _ => True end ->
  exists a t, show_item i = a :: t /\ isspace a = false /\ a <> "#"%char.
Proof.
  destruct i as [sw del|attrs| |name attrs|name|flag rl|flag|attrs| |ps| |r|k r|rules|t]; intros Hi; try done;
    [destruct sw| | | | | | | | | | | |destruct k|]; eexists _, _; (split; [reflexivity|]); (split; [done|discriminate]).
Qed.

(** The indentation is skipped. *)
Lemma leading_indent ws a r : forallb (fun c => bool_decide (c ∈ spaces)) ws = true -> isspace a = false ->
  drop (leading_spaces (ws ++ a :: r)) (ws ++ a :: r) = a :: r.
Proof.
  intros Hw Ha. induction ws as [|c ws IH]; cbn; [by rewrite Ha|]. cbn in Hw. apply andb_true_iff in Hw as [Hc Hw].
  replace (isspace c) with true; [by apply IH|]. apply bool_decide_eq_true in Hc.
  apply elem_of_cons in Hc as [->|[->|Hc%elem_of_nil]%elem_of_cons]; done.
Qed.

Lemma leads_indent l h ws a r Q b : forallb (fun c => bool_decide (c ∈ spaces)) ws = true ->
  isspace a = false -> a <> "#"%char -> ~ Q [xfwS l] h (a :: r) ->
  leads [xfwS l] h (a :: r) Q b -> leads [xfwS l] h (ws ++ a :: r) Q b.
Proof.
  intros Hw Ha Hc HQ Hl.
  assert (He : parse_step [xfwS l] h (ws ++ a :: r) = parse_step [xfwS l] h (a :: r)).
  { unfold xfwS. rewrite !section_turn with (a := a) (r := r); [done|cbn; by rewrite Ha|done|done|by apply leading_indent|done|done]. }
  assert (Hne : ws ++ a :: r <> []) by (by destruct ws).
  inversion Hl; subst; [done| |].
  - eapply leads_error; [done|]. by rewrite He.
  - eapply leads_step; [done| |done]. by rewrite He.
Qed.

(** The line is read to its end. *)
Definition line_read_as (x : option XfwConf) (h : Heap) (st : list Sec) (h' : Heap) (lv : text) : Prop := read_as x h [] st h' lv.

Lemma newline_turn l h : parse_step [xfwS l] h [newline] = inr ([xfwS []], h, []).
Proof. reflexivity. Qed.

Lemma comment_run lv h : process_comment (xfwS lv, h) = inr (tt, (xfwS [], h)).
Proof.
  unfold process_comment. erewrite C_bind_run by reflexivity. unfold line. cbn [base_ xfwS Sx fst members_].
  do 2 erewrite C_bind_run by reflexivity.
  assert (Hc : consume_all (clean lv) = inr (tt, clean [])).
  { unfold consume_all. erewrite C_bind_run by reflexivity. cbn [line_ clean]. rewrite consume_clean by lia. by rewrite drop_all. }
  by erewrite C_bind_run by exact Hc.
Qed.

Lemma comment_turn l h ws t : forallb (fun c => bool_decide (c ∈ spaces)) ws = true ->
  parse_step [xfwS l] h (ws ++ "#"%char :: t) = inr ([xfwS []], h, []).
Proof.
  intros Hw. pose proof (skip_spaces_drop _ _ _ (leading_indent ws "#"%char t Hw eq_refl)) as Hsk.
  assert (Hs : section_line (Sx XfwSection ProcessingBody [] None None (ws ++ "#"%char :: t), h) = inr (N_this, (xfwS [], h))).
  { unfold section_line. do 2 erewrite C_bind_run by reflexivity. erewrite C_bind_run by (eapply line_run; exact Hsk).
    erewrite C_bind_run by reflexivity. change (bool_decide _) with false. cbv iota. erewrite C_bind_run by reflexivity. change (char_eqb _ "#") with true. cbv iota.
    erewrite C_bind_run by apply comment_run. reflexivity. }
  unfold parse_step, consume_line. change (with_base _ _) with (Sx XfwSection ProcessingBody [] None None (ws ++ "#"%char :: t)).
  by rewrite Hs.
Qed.

(** A line. *)
Lemma line_reads ws i l h : line_ok (ws, i) = true ->
  leads [xfwS l] h (show_line (ws, i)) (line_read_as (sem_item i (h_xfw h)) h) (is_some (sem_item i (h_xfw h))).
Proof.
  intros [Hw Hi]%andb_true_iff. unfold show_line. cbn [fst snd] in *.
  destruct (match i with I_Comment _ => true | _ => false end) eqn:Hcm.
  - destruct i; try done. cbn [show_item sem_item is_some]. change ((T "#" ++ t) ++ [newline]) with ("#"%char :: t ++ [newline]).
    eapply leads_step; [by destruct ws|by apply comment_turn|]. apply leads_to. by eexists.
  - pose proof (item_reads i Hi) as Hr. destruct (item_head i ltac:(by destruct i)) as (a & t & Ha & Hsp & Hn).
    assert (Hir : item_read i) by (by destruct i). specialize (Hir l h [newline]).
    assert (Hl : leads [xfwS l] h (ws ++ show_item i ++ [newline]) (read_as (sem_item i (h_xfw h)) h [newline])
      (is_some (sem_item i (h_xfw h)))).
    { rewrite Ha in Hir |- *. apply leads_indent; [done..| |done]. intros (l' & _ & Hlv & _). by destruct t. }
    destruct (is_some _); [|by eapply leads_false]. eapply leads_trans; [exact Hl|].
    intros st h' lv (l' & -> & -> & Hx & Hcf). eapply leads_step; [done|apply newline_turn|]. apply leads_to. by eexists.
Qed.

(** ** From runs to the loop of the parser *)

Lemma leads_parse_line st h lv (Q : list Sec -> Heap -> text -> Prop) b fuel :
  leads st h lv Q b -> (forall st h lv, Q st h lv -> lv = []) -> parse_line fuel st h lv <> inl CE_FUEL ->
  if b then exists st' h', parse_line fuel st h lv = inr (st', h') /\ Q st' h' [] else exists e, parse_line fuel st h lv = inl e.
Proof.
  intros Hl HQ. revert fuel. induction Hl as [st h lv Q Hq|st h lv Q e Hne He|st h lv st1 h1 lv1 Q b Hne He Hl IH];
    intros fuel Hf.
  - pose proof (HQ _ _ _ Hq). subst lv. exists st, h. by destruct fuel.
  - destruct lv as [|c lv]; [done|]. destruct fuel as [|fuel]; [done|]. cbn [parse_line]. rewrite He. by eexists.
  - destruct lv as [|c lv]; [done|]. destruct fuel as [|fuel]; [done|]. cbn [parse_line] in Hf |- *. rewrite He in Hf |- *.
    cbn [rbind fst snd] in Hf |- *. by apply IH.
Qed.

(** The end of the section xfw. *)
Lemma close_turn l h : parse_step [xfwS l] h ["}"%char]
  = inr ([], set_h_conf (mkTlProgConf (tfw_conf (h_conf h)) (tl_prog_txt (h_conf h)) (Some (h_xfw h))) h, []).
Proof. unfold xfwS. rewrite body_close by reflexivity. reflexivity. Qed.

Definition read_lines := rfold (fun (r : list Sec * Heap) lv => parse_line (parse_fuel lv) r.1 r.2 lv).

Lemma rfold_cons_fuel r lv lines : read_lines r (lv :: lines) <> inl CE_FUEL -> parse_line (parse_fuel lv) r.1 r.2 lv <> inl CE_FUEL.
Proof. unfold read_lines. cbn [rfold]. intros Hf He. apply Hf. by rewrite He. Qed.

(** The commands of a configuration and its end. *)
Lemma lines_read ls : forallb line_ok ls = true -> forall l h,
  read_lines ([xfwS l], h) ((show_line <$> ls) ++ [T "}"]) <> inl CE_FUEL ->
  match sem_items (snd <$> ls) (h_xfw h) with
  | Some x => exists h', read_lines ([xfwS l], h) ((show_line <$> ls) ++ [T "}"]) = inr ([], h')
                /\ h_conf h' = mkTlProgConf (tfw_conf (h_conf h)) (tl_prog_txt (h_conf h)) (Some x)
  | None => exists e, read_lines ([xfwS l], h) ((show_line <$> ls) ++ [T "}"]) = inl e
  end.
Proof.
  induction ls as [|[ws i] ls IH]; intros Hok l h Hf.
  - cbn [fmap list_fmap sem_items app]. unfold read_lines. cbn [rfold fst snd].
    change (parse_fuel (T "}")) with 4%nat. change (T "}") with ["}"%char]. cbn [parse_line]. rewrite close_turn.
    cbn [rbind fst snd]. by eexists.
  - cbn [forallb] in Hok. apply andb_true_iff in Hok as [Hi Hok]. cbn [fmap list_fmap app] in Hf |- *.
    pose proof (leads_parse_line _ _ _ _ _ _ (line_reads ws i l h Hi)
      ltac:(intros st h0 lv (l' & _ & Hlv & _); exact Hlv) (rfold_cons_fuel _ _ _ Hf)) as Hp.
    cbn [sem_items snd fst] in Hp |- *. destruct (sem_item i (h_xfw h)) as [x|] eqn:Hs; cbn [is_some mbind option_bind] in Hp |- *.
    + destruct Hp as (st' & h' & Hp & (l' & -> & _ & Hx & Hc)). inversion Hx; subst.
      unfold read_lines in Hf |- *. cbn [rfold fst snd] in Hf |- *. rewrite Hp in Hf |- *. cbn [rbind] in Hf |- *.
      rewrite <- Hc. by apply IH.
    + destruct Hp as [e Hp]. exists e. unfold read_lines. cbn [rfold fst snd]. by rewrite Hp.
Qed.
End lines.

(** * The parser implements the configuration language

    The parser of the client gives every configuration text the meaning that
    [Grammar] gives it: it accepts the text exactly if every command has a meaning,
    and what it returns is the configuration that the commands make. *)

Section claims.
Context `{BoostIpSpec}.

Definition start_heap : Heap := mkHeap TlProgConf_init XfwConf_init [] (BitSet_empty XFW_DEFAULT_MAX).

Lemma opening_line : parse_line (parse_fuel (T "xfw {" ++ [newline])) [] start_heap (T "xfw {" ++ [newline])
  = inr ([xfwS []], start_heap).
Proof. reflexivity. Qed.

Lemma parse_config_lines t :
  parse_config t = match read_lines ([], start_heap) (split_lines [] t) with
    | inl e => inl e
    | inr ([], h) => inr (h_conf h)
    | inr (_ :: _, _) => inl CE_INCOMPLETE
    end.
Proof. unfold parse_config, read_lines. by destruct (rfold _ _ _) as [e|[[|o st] h]]. Qed.

Lemma read_config_lines ls : forallb line_ok ls = true ->
  read_lines ([], start_heap) (split_lines [] (show_config ls))
  = read_lines ([xfwS []], start_heap) ((show_line <$> ls) ++ [T "}"]).
Proof.
  intros Hok. rewrite split_show_config by done. unfold read_lines.
  generalize ((show_line <$> ls) ++ [T "}"]) as lines. intros lines.
  etransitivity; [apply rfold_app with (l1 := [T "xfw {" ++ [newline]])|]. cbn [rfold fst snd]. by rewrite opening_line.
Qed.

Lemma config_read ls : forallb line_ok ls = true ->
  match sem_items (snd <$> ls) XfwConf_init with
  | Some x => parse_config (show_config ls) = inr (mkTlProgConf [] [] (Some x))
  | None => exists e, parse_config (show_config ls) = inl e
  end.
Proof.
  intros Hok. pose proof (parse_config_ok (show_config ls)) as Hf. rewrite parse_config_lines, read_config_lines in Hf |- * by done.
  assert (Hfuel : read_lines ([xfwS []], start_heap) ((show_line <$> ls) ++ [T "}"]) <> inl CE_FUEL).
  { intros He. rewrite He in Hf. by destruct Hf. }
  pose proof (lines_read ls Hok [] start_heap Hfuel) as Hl. change (h_xfw start_heap) with XfwConf_init in Hl.
  destruct (sem_items _ _) as [x|].
  - destruct Hl as (h' & -> & Hc). by rewrite Hc.
  - destruct Hl as [e ->]. by exists e.
Qed.

End claims.

(** ** A configuration *)

Definition sample_lines : list (text * Item) := [
  ([], I_Comment (T " the rules"));
  (T "  ", I_Ratelimit (T "web") [LA_Pps 1000; LA_Bps 1000000]);
  (T "  ", I_Net DstSection (mkRuleText (T "www") None (Some (IP4, TCP)) (Some (A_Ratelimit (T "web")))
    (Some [E_Ip4 (T "10.0.0.2") (S_Port 80); E_Ip4 (T "10.1.0.0") (S_Mask 16); E_Country "U" "S" (Some 443); E_Ports 8080 (Some 8090)])));
  (T "  ", I_Net SrcSection (mkRuleText [] (Some EDIT_DELETE) (Some (IP6, UDP)) None None));
  (T "  ", I_Net SrcSection (mkRuleText (T "v6") (Some EDIT_ADD) (Some (IP6, UDP)) None (Some [E_Ip6 (T "::1") (S_Port 53)])));
  (T "  ", I_Icmp (mkIcmpText [] None (Some IP6) (Some A_Allow) (Some [128; 129])));
  (T "  ", I_Anomaly [AA_SynWithoutOpt; AA_BadFlags [[F_SYN; F_FIN]; [F_NONE]]]);
  (T "  ", I_Syncookies [TA_Passive 30]);
  (T "  ", I_Defaults [mkDefaultText SRC_IP Sel_All A_Block; mkDefaultText DST (Sel_Proto IP4 TCP) A_Allow])].

