(* ===== verification/Xfwctl.v ===== *)
(** * Xfwctl: the control script

    src/xfwctl: the script that loads and unloads the BPF programs and starts and
    stops the manager and the logger. The variables of the shell are the record
    [Sh]. The commands that it runs are the type [Cmd]; what they do to the system is
    a parameter ([Sys]), and so is what the script reads of the configuration file
    with jq, which it does not write. Messages, and the action --status, which only
    prints, are left out.

    [XfwctlClaims] proves that the programs are loaded completely or not at all. *)

From Stdlib Require Import Ascii String.
From stdpp Require Import strings gmap.
From S2P Require Import Prelude.

Open Scope string_scope.
Open Scope Z_scope.

(** ** The system *)

(** A command of the script; the exit code is its result. *)
Inductive Cmd :=
  | MkdirP (path : string)
  | Mktemp (template : string)
  | WriteFile (path text : string)
  | RmRf (path : string)
  | RmF (path : string)
  | RmTemp                                                (** the file of the last mktemp *)
  | FindDelete (path pattern : string)
  | LoaderLoad (prog path mode : string)
  | LoaderUnload (prog path : string)
  | LoaderAttachTc (path dev : string)
  | LoaderDetachTc (path dev : string)
  | NetAttach (attach_type pinned dev : string)
  | NetDetach (attach_type dev : string)
  | Sysctl (key value : string)
  | IpLinkShow (dev : string)
  | Pgrep (name : string)
  | PgrepX (name : string)
  | Pkill (name : string)
  | PkillFile (pid_file : string)
  | PidWait (pid_file : string)
  | WaitGone (name : string) (timeout : Z)
  | Daemon (binary : string) (args : list string)
  | LoggerStop (binary : string) (timeout : Z)
  | Sleep (seconds : Z).

#[export] Instance Cmd_eq_dec : EqDecision Cmd.
Proof. solve_decision. Defined.

(** The state of the system and what the tests of the script see of it. *)
Class Sys (W : Type) := {
  run : Cmd -> W -> Z * W;
  path_exists : string -> W -> bool;
  (** bpftool net: a program of the hook is attached to the device *)
  net_has : string -> string -> W -> bool;
  (** bpftool map: the names that contain xfw_ *)
  xfw_maps : W -> list string
}.

(** What the script finds and does not change. *)
Record Env := mkEnv {
  e_uid : Z;                                              (** id -u *)
  e_xfw_path : string;                                    (** $TEMPESTA_XFW_PATH *)
  e_cfg_file : string;                                    (** $TFW_CFG_FILE *)
  e_log_cfg_file : string;                                (** $TFW_LOG_CFG_FILE *)
  e_is_dir : string -> bool;
  e_is_file : string -> bool;
  e_jq_valid : string -> bool;                            (** the file passes the check of jq *)
  e_jq_entries : string -> list (string * string);        (** the lines key=value *)
  e_kconfig : string -> bool;                             (** the option is set in the kernel *)
  e_versions : list bool;                                 (** dpkg --compare-versions for kernel, glibc and Ubuntu *)
  e_libbpf1 : bool
}.

(** ** The shell *)

Record Sh := mkSh {
  devs : string;
  mgr_args : string;
  devmode : string;
  bpf_load_mode : string;
  cfg_file : string;
  cfg_file_override : string;
  pid_file : string;
  mgr_log : string;
  cfg : gmap string string;
  v : bool;
  is_event_logging_on : bool
}.

(** An unset variable is empty. [${x:-d}] *)
Definition unset : string := EmptyString.
Definition or_else (x d : string) : string := if String.eqb x unset then d else x.

(** The words of an expansion without quotes. *)
Definition is_ifs (c : ascii) : bool := bool_decide (c = " "%char \/ c = "009"%char \/ c = "010"%char).
Fixpoint words_from (cur : string) (s : string) : list string :=
  match s with
  | EmptyString => if String.eqb cur unset then [] else [cur]
  | String c s =>
      if is_ifs c then (if String.eqb cur unset then words_from unset s else cur :: words_from unset s)
      else words_from (cur +:+ String c EmptyString) s
  end.
Definition words (s : string) : list string := words_from unset s.

Definition initial_sh (E : Env) : Sh :=
  mkSh unset unset "native" "host" (or_else (e_cfg_file E) "/etc/tempesta/xfw.json") unset
    "/var/run/tempesta_mgr.pid" "/var/log/tempesta/manager.log" ∅ false true.

Definition xfw_bpf_path : string := "/sys/fs/bpf/xfw".
Definition xfw_tmp_path : string := "/tmp/tempesta/xfw".
Definition version_file : string := xfw_tmp_path +:+ "/version".
Definition status_dir : string := xfw_tmp_path +:+ "/status/".
Definition default_path : string := "/opt/tempesta".
Definition mgr_name : string := "tfw_mgr".
Definition logger_name : string := "tfw_logger".
Definition start_stop_timeout : Z := 5.
Definition version : string := "1.1.0".
Definition kconfig_reqs : list string :=
  ["CONFIG_BPF_SYSCALL"; "CONFIG_BPF_JIT"; "CONFIG_SYN_COOKIES"; "CONFIG_HAVE_EBPF_JIT"; "CONFIG_DEBUG_INFO_BTF"; "CONFIG_BPF_EVENTS"].

(** The first directory that exists. *)
Definition project_path (E : Env) : string :=
  if negb (String.eqb (e_xfw_path E) unset) && e_is_dir E (e_xfw_path E) then e_xfw_path E
  else if e_is_dir E default_path then default_path else unset.
Definition mgr_bin_path (E : Env) : string := project_path E +:+ "/sbin/" +:+ mgr_name.
Definition logger_bin_path (E : Env) : string := project_path E +:+ "/sbin/" +:+ logger_name.
Definition logger_cfg_file (E : Env) : string := or_else (e_log_cfg_file E) "/etc/tempesta/xfw_logger.json".

(** *** Commands in sequence

    The script ends with an exit code or is replaced by sudo. *)
Inductive Stop := Exit (code : Z) | ExecSudo.

Definition X (W A : Type) : Type := Sh * W -> (Stop + A) * (Sh * W).
#[export] Instance X_ret W : MRet (X W) := fun A a s => (inr a, s).
#[export] Instance X_bind W : MBind (X W) := fun A B k m s =>
  match m s with (inl e, s') => (inl e, s') | (inr a, s') => k a s' end.

Section script.
Context {W : Type} `{Sys W} (E : Env).
Abbreviation M := (X W).

Definition exit {A} (code : Z) : M A := fun s => (inl (Exit code), s).
(** [error] prints a message. *)
Definition error {A} : M A := exit 1.
Definition get_sh : M Sh := fun s => (inr s.1, s).
Definition put_sh (sh : Sh) : M unit := fun s => (inr tt, (sh, s.2)).
(** A command and its exit code; a test. *)
Definition sys (c : Cmd) : M Z := fun s => let '(rc, w) := run c s.2 in (inr rc, (s.1, w)).
Definition test (q : W -> bool) : M bool := fun s => (inr (q s.2), s).
Definition when (b : bool) (m : M unit) : M unit := if b then m else mret tt.
Definition ignore (c : Cmd) : M unit := _ ← sys c; mret tt.

(** [for x in l; do f x; done] *)
Fixpoint each {A} (f : A -> M unit) (l : list A) : M unit :=
  match l with
  | [] => mret tt
  | x :: l => _ ← f x; each f l
  end.

(** ** The configuration *)

(** The loop over the arguments of the manager; a [shift] behind the last one does
    nothing. *)
Fixpoint parse_mgr_args (args : list string) (sh : Sh) : Sh :=
  match args with
  | a :: args =>
      if String.eqb a "-P" || String.eqb a "--pidfile" then
        match args with
        | x :: args => parse_mgr_args args (mkSh (devs sh) (mgr_args sh) (devmode sh) (bpf_load_mode sh) (cfg_file sh)
            (cfg_file_override sh) x (mgr_log sh) (cfg sh) (v sh) (is_event_logging_on sh))
        | [] => sh
        end
      else if String.eqb a "-L" || String.eqb a "--log" then
        match args with
        | x :: args => parse_mgr_args args (mkSh (devs sh) (mgr_args sh) (devmode sh) (bpf_load_mode sh) (cfg_file sh)
            (cfg_file_override sh) (pid_file sh) x (cfg sh) (v sh) (is_event_logging_on sh))
        | [] => sh
        end
      else parse_mgr_args args sh
  | [] => sh
  end.

(** What [read_config] does with the entries of the file. *)
Definition load_cfg (entries : list (string * string)) (sh : Sh) : Sh :=
  let c := fold_left (fun c kv => <[kv.1 := kv.2]> c) entries (cfg sh) in
  let get k := default unset (c !! k) in
  let sh := parse_mgr_args (words (get "mgr-args")) (mkSh (get "devices") (get "mgr-args") (devmode sh) (bpf_load_mode sh)
    (cfg_file sh) (cfg_file_override sh) (pid_file sh) (mgr_log sh) c (v sh) (is_event_logging_on sh)) in
  let deployment_mode := or_else (get "deployment-mode") "host" in
  let dns := or_else (get "dns") "false" in
  mkSh (devs sh) (mgr_args sh)
    (match c !! "devices-mode" with Some m => m | None => devmode sh end)
    (if String.eqb dns "true" then deployment_mode +:+ ",dns" else deployment_mode)
    (cfg_file sh) (cfg_file_override sh) (pid_file sh) (mgr_log sh) c
    (match c !! "verbose" with Some x => String.eqb x "true" | None => v sh end)
    (negb (String.eqb (or_else (get "event-logging") "on") "off")).

Definition with_cfg_file (f : string) (sh : Sh) : Sh :=
  mkSh (devs sh) (mgr_args sh) (devmode sh) (bpf_load_mode sh) f (cfg_file_override sh) (pid_file sh) (mgr_log sh)
    (cfg sh) (v sh) (is_event_logging_on sh).
Definition with_override (f : string) (sh : Sh) : Sh :=
  mkSh (devs sh) (mgr_args sh) (devmode sh) (bpf_load_mode sh) (cfg_file sh) f (pid_file sh) (mgr_log sh)
    (cfg sh) (v sh) (is_event_logging_on sh).

Definition read_config : M unit :=
  sh ← get_sh;
  if negb (bool_decide (cfg sh = ∅)) then mret tt else
  let sh := with_cfg_file (or_else (cfg_file_override sh) (cfg_file sh)) sh in
  _ ← put_sh sh;
  if negb (e_is_file E (cfg_file sh)) then error
  else if negb (e_jq_valid E (cfg_file sh)) then error
  else put_sh (load_cfg (e_jq_entries E (cfg_file sh)) sh).

(** ** The BPF programs *)

Definition xdp_attach_type (mode : string) : option string :=
  if String.eqb mode "native" || String.eqb mode "drv" then Some "xdpdrv"
  else if String.eqb mode "skb" || String.eqb mode "generic" then Some "xdpgeneric"
  else None.

Definition is_bpf_attached_to_dev (hook dev : string) : M bool := test (net_has hook dev).

(** No map, or two of a name, is an error. *)
Definition bpf_maps_check : M bool :=
  test (fun w => negb (bool_decide (xfw_maps w = [])) && bool_decide (NoDup (xfw_maps w))).

Definition maps_clean : M unit :=
  b ← test (path_exists xfw_bpf_path); when b (ignore (FindDelete xfw_bpf_path "xfw_*")).

Definition update_status (devmode : string) : M Z :=
  _ ← sys (MkdirP status_dir); sys (WriteFile (status_dir +:+ "/devmode") devmode).

Definition detach_tc (dev : string) : M unit := ignore (LoaderDetachTc xfw_bpf_path dev).

Definition detach_xdp (dev : string) : M unit :=
  b ← test (path_exists ("/sys/class/net/" +:+ dev));
  if negb b then mret tt else
  each (fun attach_type => ignore (NetDetach attach_type dev)) ["xdpdrv"; "xdpgeneric"; "xdpoffload"].

Definition unload_pinned (prog : string) : M unit :=
  b ← test (path_exists (xfw_bpf_path +:+ "/" +:+ prog)); when b (ignore (LoaderUnload prog xfw_bpf_path)).

Definition unload_bpf : M unit :=
  _ ← read_config;
  sh ← get_sh;
  _ ← each (fun dev => _ ← detach_xdp dev; detach_tc dev) (words (devs sh));
  _ ← unload_pinned "tc";
  _ ← unload_pinned "xdp";
  _ ← maps_clean;
  ignore (RmRf status_dir).

(** The part that the functions for loading and attaching share: a log file, the
    command, and the cleanup if it fails. *)
Definition or_unload (c : Cmd) : M unit :=
  rc ← sys c;
  if rc =? 0 then mret tt else _ ← unload_bpf; error.

Definition load_xdp : M unit :=
  rc ← sys (MkdirP xfw_tmp_path);
  if negb (rc =? 0) then error else
  rc ← sys (Mktemp (xfw_tmp_path +:+ "/xdp-load.XXXXXX"));
  if negb (rc =? 0) then error else
  sh ← get_sh;
  or_unload (LoaderLoad "xdp" xfw_bpf_path (bpf_load_mode sh)).

Definition attach_xdp (dev attach_type : string) : M unit :=
  _ ← or_unload (Mktemp (xfw_tmp_path +:+ "/xdp-attach.XXXXXX"));
  or_unload (NetAttach attach_type (xfw_bpf_path +:+ "/xdp") dev).

Definition load_tc : M unit :=
  _ ← or_unload (Mktemp (xfw_tmp_path +:+ "/tc-load.XXXXXX"));
  sh ← get_sh;
  or_unload (LoaderLoad "tc" xfw_bpf_path (bpf_load_mode sh)).

Definition attach_tc (dev : string) : M unit :=
  _ ← or_unload (Mktemp (xfw_tmp_path +:+ "/tc-attach.XXXXXX"));
  or_unload (LoaderAttachTc xfw_bpf_path dev).

(** The two settings of the kernel that the configuration may give. *)
Definition sysctl_opts : list (string * string) :=
  [("sysctl-tcp-syncookies", "tcp_syncookies"); ("sysctl-tcp-max-syn-backlog", "tcp_max_syn_backlog")].

Definition check_dev (dev : string) : M unit :=
  rc ← sys (IpLinkShow dev);
  if negb (rc =? 0) then error else
  xdp ← is_bpf_attached_to_dev "xdp" dev;
  if (xdp : bool) then error else
  tc ← is_bpf_attached_to_dev "tc" dev;
  if (tc : bool) then error else mret tt.

Definition load_bpf : M Z :=
  rc ← sys (MkdirP xfw_bpf_path);
  if negb (rc =? 0) then error else
  pinned ← test (path_exists (xfw_bpf_path +:+ "/" +:+ "xdp"));
  if (pinned : bool) then error else
  _ ← read_config;
  sh ← get_sh;
  match xdp_attach_type (devmode sh) with
  | None => error
  | Some attach_type =>
      _ ← ignore (Sysctl "net.core.bpf_jit_enable" "1");
      _ ← each (fun opt => match cfg sh !! opt.1 with
                           | Some val => ignore (Sysctl ("net.ipv4." +:+ opt.2) val)
                           | None => mret tt
                           end) sysctl_opts;
      _ ← each check_dev (words (devs sh));
      _ ← load_xdp;
      _ ← load_tc;
      _ ← each (fun dev => _ ← attach_xdp dev attach_type; attach_tc dev) (words (devs sh));
      ok ← bpf_maps_check;
      if negb ok then _ ← unload_bpf; error else
      update_status (devmode sh)
  end.

(** ** The daemons *)

(** The exit code of each of these is the result. *)
Definition start_mgr : M Z :=
  running ← sys (Pgrep mgr_name);
  if running =? 0 then mret 0 else
  _ ← read_config;
  sh ← get_sh;
  sys (Daemon (mgr_bin_path E) (words (mgr_args sh))).

(** The loop that waits for the manager runs under timeout, whose exit code is only
    printed. *)
Definition stop_mgr : M Z :=
  sh ← get_sh;
  if negb (String.eqb (pid_file sh) unset) then
    rc ← sys (PkillFile (pid_file sh));
    if rc =? 0 then _ ← sys (PidWait (pid_file sh)); mret 0
    else sys (RmF (pid_file sh))
  else
    _ ← sys (Pkill mgr_name);
    _ ← sys (WaitGone mgr_name start_stop_timeout);
    mret 0.

(** The loop that waits for the logger: one turn a second. *)
Fixpoint wait_logger (turns : nat) : M Z :=
  match turns with
  | O => mret 1
  | S turns =>
      running ← sys (Pgrep logger_name);
      if running =? 0 then mret 0 else
      _ ← sys (Sleep 1);
      wait_logger turns
  end.

Definition start_logger : M Z :=
  _ ← read_config;
  sh ← get_sh;
  if negb (is_event_logging_on sh) then mret 0 else
  running ← sys (Pgrep logger_name);
  if running =? 0 then mret 0 else
  _ ← sys (Mktemp "tmp.XXXXXXXXXX");
  rc ← sys (Daemon (logger_bin_path E) ["-c"; logger_cfg_file E]);
  _ ← sys RmTemp;
  if negb (rc =? 0) then mret 1 else
  wait_logger (Z.to_nat start_stop_timeout).

(** [return] without a value gives the exit code of the test of the verbosity. *)
Definition stop_logger : M Z :=
  _ ← read_config;
  sh ← get_sh;
  if negb (is_event_logging_on sh) then mret 0 else
  running ← sys (PgrepX logger_name);
  if negb (running =? 0) then mret (if v sh then 0 else 1) else
  _ ← sys (LoggerStop (logger_bin_path E) start_stop_timeout);
  mret 0.

(** ** The actions *)

Definition check_requirements : M Z :=
  mret (if forallb (e_kconfig E) kconfig_reqs && forallb id (e_versions E) && e_libbpf1 E then 0 else 1).

Definition write_version : M unit :=
  _ ← sys (MkdirP xfw_tmp_path); ignore (WriteFile version_file version).

(** The end of --start and --restart. *)
Definition start_all : M Z :=
  _ ← load_bpf;
  _ ← start_logger;
  rc ← start_mgr;
  if negb (rc =? 0) then
    _ ← stop_logger; _ ← unload_bpf; exit 1
  else exit 0.

(** [exit] without a value: the exit code of the last command. *)
Definition exit_with (m : M Z) : M Z := rc ← m; exit rc.

Definition action (a : string) : M Z :=
  let named s := String.eqb a s in
  if named "--load-bpf" then _ ← write_version; exit_with load_bpf
  else if named "--unload-bpf" then _ ← unload_bpf; exit 0
  else if named "--reload-bpf" then _ ← unload_bpf; exit_with load_bpf
  else if named "--start-mgr" then _ ← write_version; exit_with start_mgr
  else if named "--stop-mgr" then exit_with stop_mgr
  else if named "--restart-mgr" then _ ← stop_mgr; exit_with start_mgr
  else if named "--start-logger" then _ ← write_version; exit_with start_logger
  else if named "--stop-logger" then exit_with stop_logger
  else if named "--restart-logger" then _ ← stop_logger; exit_with start_logger
  else if named "--start" then _ ← write_version; start_all
  else if named "--stop" then _ ← stop_mgr; _ ← stop_logger; _ ← unload_bpf; exit 0
  else if named "--restart" then _ ← stop_mgr; _ ← stop_logger; _ ← unload_bpf; start_all
  else if named "--status" then exit 0
  else if named "--check-req" then exit_with check_requirements
  else if named "--help" then exit 0
  else error.

(** The arguments: options up to the first action. *)
Fixpoint arguments (args : list string) : M Z :=
  match args with
  | [] => exit 0
  | a :: args =>
      if String.eqb a "-c" || String.eqb a "--config" then
        match args with
        | [] => error
        | f :: args => sh ← get_sh; _ ← put_sh (with_override f sh); arguments args
        end
      else action a
  end.

(** The script from its start; without an installation only two actions work. *)
Definition script (args : list string) : M Z :=
  if negb (e_uid E =? 0) then (fun s => (inl ExecSudo, s)) else
  match project_path E, args with
  | EmptyString, a :: _ =>
      if String.eqb a "--check-req" then exit_with check_requirements
      else if String.eqb a "--help" then exit 0 else exit 1
  | _, _ => arguments args
  end.

Definition xfwctl (args : list string) (w : W) : Stop * W :=
  match script args (initial_sh E, w) with
  | (inl e, (_, w')) => (e, w')
  | (inr rc, (_, w')) => (Exit rc, w')
  end.
End script.
