(* ===== verification/XfwctlClaims.v ===== *)
(** * XfwctlClaims: the programs are loaded completely or not at all

    What the control script leaves behind: after a successful start every device of
    the configuration has both programs, after a failed one none has, and after a stop
    none has. *)

From Stdlib Require Import Ascii String.
From stdpp Require Import strings gmap.
From S2P Require Import Prelude.
From S2P Require Import Xfwctl.

Open Scope string_scope.
Open Scope Z_scope.

(** ** What the commands do *)

(** A program is pinned, or attached to a device. *)
Inductive Fact := Pinned (prog : string) | XdpOn (mode dev : string) | TcOn (dev : string).
#[export] Instance Fact_eq_dec : EqDecision Fact.
Proof. solve_decision. Defined.

Definition xdp_modes : list string := ["xdpdrv"; "xdpgeneric"; "xdpoffload"].

(** What a command makes true or false. *)
Definition effect (c : Cmd) : option (Fact * bool) :=
  match c with
  | LoaderLoad prog _ _ => Some (Pinned prog, true)
  | LoaderUnload prog _ => Some (Pinned prog, false)
  | LoaderAttachTc _ dev => Some (TcOn dev, true)
  | LoaderDetachTc _ dev => Some (TcOn dev, false)
  | NetAttach mode _ dev => Some (XdpOn mode dev, true)
  | NetDetach mode dev => Some (XdpOn mode dev, false)
  | _ => None
  end.

(** A command that succeeds has its effect and no other one, and one that fails has
    none; what is attached or pinned can be detached and unpinned; a program is
    attached to a device that exists. *)
Class SysSpec (W : Type) `{Sys W} (holds : Fact -> W -> bool) : Prop := {
  run_other c w f : (forall b, effect c <> Some (f, b)) -> holds f (run c w).2 = holds f w;
  run_effect c w f b : effect c = Some (f, b) -> (run c w).1 = 0 -> holds f (run c w).2 = b;
  run_failed c w f : (run c w).1 <> 0 -> holds f (run c w).2 = holds f w;
  undo_works c w f : effect c = Some (f, false) -> holds f w = true -> (run c w).1 = 0;
  pinned_path w prog : path_exists (xfw_bpf_path +:+ "/" +:+ prog) w = holds (Pinned prog) w;
  attached_dev w mode dev : holds (XdpOn mode dev) w = true -> path_exists ("/sys/class/net/" +:+ dev) w = true
}.

(** ** Outcomes *)

Section claims.
Context {W : Type} `{SysSpec W holds} (E : Env).

(** The result of a part of the script, returned or as an exit code. *)
Definition swp {A} (m : X W A) (Q : A -> Sh * W -> Prop) (R : Z -> W -> Prop) (s : Sh * W) : Prop :=
  match m s with
  | (inr a, s') => Q a s'
  | (inl (Exit c), s') => R c s'.2
  | (inl ExecSudo, _) => False
  end.

Lemma swp_bind {A B} (m : X W A) (k : A -> X W B) Q R s : swp m (fun a => swp (k a) Q R) R s -> swp (m ≫= k) Q R s.
Proof. unfold swp, mbind, X_bind. destruct (m s) as [[[]|a] s']; auto. Qed.
Lemma swp_mono {A} (m : X W A) (Q Q' : A -> Sh * W -> Prop) (R R' : Z -> W -> Prop) s :
  swp m Q R s -> (forall a s', Q a s' -> Q' a s') -> (forall c w, R c w -> R' c w) -> swp m Q' R' s.
Proof. unfold swp. destruct (m s) as [[[]|a] s']; auto. Qed.
Lemma swp_sys c (Q : Z -> Sh * W -> Prop) R s : (forall rc w, run c s.2 = (rc, w) -> Q rc (s.1, w)) -> swp (sys c) Q R s.
Proof. intros HQ. unfold swp, sys. destruct (run c s.2) as [rc w] eqn:Hr. by apply HQ. Qed.

(** What is loaded does not change. *)
Definition same (w w' : W) : Prop := forall f, holds f w' = holds f w.
Definition neutral (c : Cmd) : Prop := effect c = None.
Lemma run_neutral c w rc w' : neutral c -> run c w = (rc, w') -> same w w'.
Proof. intros Hn Hr f. pose proof (run_other c w f) as Ho. rewrite Hr in Ho; cbn [fst snd] in Ho. apply Ho. unfold neutral in Hn. by rewrite Hn. Qed.

Definition unloaded (ds : list string) (w : W) : Prop :=
  holds (Pinned "xdp") w = false /\ holds (Pinned "tc") w = false
  /\ forall dev, dev ∈ ds -> holds (TcOn dev) w = false /\ forall mode, mode ∈ xdp_modes -> holds (XdpOn mode dev) w = false.
Definition loaded (mode : string) (ds : list string) (w : W) : Prop :=
  holds (Pinned "xdp") w = true /\ holds (Pinned "tc") w = true
  /\ forall dev, dev ∈ ds -> holds (TcOn dev) w = true /\ holds (XdpOn mode dev) w = true.

(** Something that holds stays so, or what does not. *)
Lemma run_undo c w rc w' f : effect c = Some (f, false) -> run c w = (rc, w') -> holds f w' = false.
Proof.
  intros He Hr. destruct (decide (rc = 0)) as [->|Hne].
  - pose proof (run_effect c w f false He) as Hx. rewrite Hr in Hx; cbn [fst snd] in Hx. by apply Hx.
  - pose proof (run_failed c w f) as Hx. rewrite Hr in Hx; cbn [fst snd] in Hx. rewrite Hx by done.
    pose proof (undo_works c w f He) as Hu. rewrite Hr in Hu; cbn [fst snd] in Hu. destruct (holds f w); [|done]. by rewrite Hu in Hne.
Qed.
Lemma run_keeps c w rc w' f b : effect c = Some (f, b) -> run c w = (rc, w') -> forall f', f' <> f -> holds f' w' = holds f' w.
Proof. intros He Hr f' Hne. pose proof (run_other c w f') as Hx. rewrite Hr in Hx; cbn [fst snd] in Hx. apply Hx. rewrite He. congruence. Qed.
Lemma run_falls c w rc w' f g : effect c = Some (f, false) -> run c w = (rc, w') -> holds g w = false -> holds g w' = false.
Proof.
  intros He Hr Hg. destruct (decide (g = f)) as [->|Hne]; [by eapply run_undo|]. by rewrite (run_keeps _ _ _ _ _ _ He Hr g Hne).
Qed.
Lemma run_rises c w rc w' f g : effect c = Some (f, true) -> run c w = (rc, w') -> holds g w = true -> holds g w' = true.
Proof.
  intros He Hr Hg. destruct (decide (g = f)) as [->|Hne]; [|by rewrite (run_keeps _ _ _ _ _ _ He Hr g Hne)].
  destruct (decide (rc = 0)) as [->|Hrc].
  - pose proof (run_effect c w f true He) as Hx. rewrite Hr in Hx; cbn [fst snd] in Hx. by apply Hx.
  - pose proof (run_failed c w f) as Hx. rewrite Hr in Hx; cbn [fst snd] in Hx. by rewrite Hx.
Qed.

(** ** The configuration is read once *)

Definition conf_file (sh : Sh) : string := or_else (cfg_file_override sh) (cfg_file sh).
Definition conf_of (sh : Sh) : Sh := load_cfg (e_jq_entries E (conf_file sh)) (with_cfg_file (conf_file sh) sh).
Definition readable (sh : Sh) : bool := e_is_file E (conf_file sh) && e_jq_valid E (conf_file sh).

Lemma read_config_first sh (w : W) : cfg sh = ∅ ->
  if readable sh then read_config E (sh, w) = (inr tt, (conf_of sh, w))
  else exists sh', read_config E (sh, w) = (inl (Exit 1), (sh', w)).
Proof.
  intros Hc. unfold readable, conf_of, read_config, conf_file. unfold mbind, X_bind, get_sh, put_sh, mret, X_ret. cbn [fst snd].
  rewrite bool_decide_true by done. cbn [negb cfg_file with_cfg_file].
  destruct (e_is_file E _); cbn [negb andb]; [|by eexists]. destruct (e_jq_valid E _); cbn [negb]; [done|by eexists].
Qed.

Lemma fold_insert_nonempty (l : list (string * string)) (m : gmap string string) :
  m <> ∅ \/ l <> [] -> fold_left (fun c kv => <[kv.1 := kv.2]> c) l m <> ∅.
Proof.
  revert m. induction l as [|kv l IH]; intros m [Hm|Hl]; try done.
  - cbn. apply IH. left. apply insert_non_empty.
  - cbn. apply IH. left. apply insert_non_empty.
Qed.

Lemma load_cfg_cfg entries sh : cfg (load_cfg entries sh) = fold_left (fun c kv => <[kv.1 := kv.2]> c) entries (cfg sh).
Proof. done. Qed.

Lemma load_cfg_nil sh : cfg sh = ∅ -> load_cfg [] sh
  = mkSh unset unset (devmode sh) "host" (cfg_file sh) (cfg_file_override sh) (pid_file sh) (mgr_log sh) ∅ (v sh) true.
Proof. intros Hc. unfold load_cfg. cbn [fold_left]. rewrite Hc. by rewrite !lookup_empty. Qed.

(** The second time nothing changes. *)
Lemma read_config_again sh (w : W) : cfg sh = ∅ -> readable sh = true -> read_config E (conf_of sh, w) = (inr tt, (conf_of sh, w)).
Proof.
  intros Hc Hr. destruct (decide (cfg (conf_of sh) = ∅)) as [He|Hne].
  - unfold conf_of in He at 1. rewrite load_cfg_cfg in He.
    destruct (e_jq_entries E (conf_file sh)) as [|kv l] eqn:Hent; [|by apply fold_insert_nonempty in He; [|right]].
    assert (Hn : conf_of sh = mkSh unset unset (devmode sh) "host" (conf_file sh) (cfg_file_override sh) (pid_file sh) (mgr_log sh)
      ∅ (v sh) true) by (unfold conf_of; rewrite Hent; by rewrite load_cfg_nil).
    assert (Hcf : conf_file (conf_of sh) = conf_file sh).
    { rewrite Hn. unfold conf_file at 1. cbn [cfg_file cfg_file_override]. unfold conf_file, or_else.
      by destruct (String.eqb (cfg_file_override sh) unset). }
    pose proof (read_config_first (conf_of sh) w) as Hf. unfold readable in Hf, Hr. rewrite Hcf, Hr in Hf.
    rewrite Hf by (by rewrite Hn). do 2 f_equal. unfold conf_of at 1. rewrite Hcf, Hent, load_cfg_nil by (by rewrite Hn).
    by rewrite Hn.
  - unfold read_config, mbind, X_bind, get_sh, mret, X_ret. cbn [fst]. by rewrite bool_decide_false.
Qed.

(** ** Loops and single commands *)

Definition falls (w w' : W) : Prop := forall f, holds f w = false -> holds f w' = false.
Definition rises (w w' : W) : Prop := forall f, holds f w = true -> holds f w' = true.

Lemma same_falls w w' : same w w' -> falls w w'.
Proof. intros Hs f Hf. by rewrite Hs. Qed.
Lemma same_rises w w' : same w w' -> rises w w'.
Proof. intros Hs f Hf. by rewrite Hs. Qed.

(** A loop whose turns make [P] true of their element and keep [Rel]. *)
Lemma each_ok {A} (f : A -> X W unit) (Rel : W -> W -> Prop) (P : A -> W -> Prop) (R : Z -> W -> Prop) l sh w :
  Reflexive Rel -> Transitive Rel -> (forall x w w', Rel w w' -> P x w -> P x w') ->
  (forall x w0, x ∈ l -> Rel w w0 -> swp (f x) (fun _ s' => s'.1 = sh /\ Rel w0 s'.2 /\ P x s'.2) R (sh, w0)) ->
  swp (each f l) (fun _ s' => s'.1 = sh /\ Rel w s'.2 /\ forall x, x ∈ l -> P x s'.2) R (sh, w).
Proof.
  intros Hrefl Htrans Hst. revert w. induction l as [|x l IH]; intros w Hf.
  { cbn. split; [done|]. split; [done|]. intros x Hx. by apply elem_of_nil in Hx. }
  cbn [each]. apply swp_bind. eapply swp_mono; [apply Hf; [by left|done]| |done].
  cbn beta. intros _ [sh1 w1] (Hsh & Hr1 & Hp). cbn [fst snd] in *. subst sh1.
  eapply swp_mono; [apply IH| |done].
  - intros y w0 Hy Hr0. apply Hf; [by right|by etransitivity].
  - cbn beta. intros _ [sh2 w2] (Hsh & Hr2 & Hall). cbn [fst snd] in *. split; [done|]. split; [by etransitivity|].
    intros y [->|Hy]%elem_of_cons; [by eapply Hst|by apply Hall].
Qed.

Lemma falls_refl : Reflexive falls.
Proof. by intros w f. Qed.
Lemma falls_trans : Transitive falls.
Proof. intros w1 w2 w3 H1 H2 f Hf. by apply H2, H1. Qed.
Lemma rises_refl : Reflexive rises.
Proof. by intros w f. Qed.
Lemma rises_trans : Transitive rises.
Proof. intros w1 w2 w3 H1 H2 f Hf. by apply H2, H1. Qed.

Lemma ignore_undo c f sh w R : effect c = Some (f, false) ->
  swp (ignore c) (fun _ s' => s'.1 = sh /\ falls w s'.2 /\ holds f s'.2 = false) R (sh, w).
Proof.
  intros He. apply swp_bind, swp_sys. intros rc w' Hr. cbn. split; [done|].
  split; [intros g; by eapply run_falls|by eapply run_undo].
Qed.
Lemma ignore_neutral c sh w R : neutral c -> swp (ignore c) (fun _ s' => s'.1 = sh /\ same w s'.2) R (sh, w).
Proof. intros Hn. apply swp_bind, swp_sys. intros rc w' Hr. cbn. split; [done|by eapply run_neutral]. Qed.

(** ** Unloading *)

Definition xdp_off (dev : string) (w : W) : Prop := forall mode, mode ∈ xdp_modes -> holds (XdpOn mode dev) w = false.

Lemma detach_xdp_ok dev sh w R : swp (detach_xdp dev) (fun _ s' => s'.1 = sh /\ falls w s'.2 /\ xdp_off dev s'.2) R (sh, w).
Proof.
  unfold detach_xdp. apply swp_bind. unfold swp at 1, test. cbn [snd].
  destruct (path_exists _ w) eqn:Hp; cbn [negb].
  - apply (each_ok _ falls (fun mode w => holds (XdpOn mode dev) w = false) _ xdp_modes); [apply falls_refl|apply falls_trans|by auto|].
    intros mode w0 _ _. by apply ignore_undo.
  - cbn. split; [done|]. split; [apply falls_refl|]. intros mode _. destruct (holds (XdpOn mode dev) w) eqn:Hh; [|done].
    apply attached_dev in Hh. congruence.
Qed.

Lemma unload_prog_ok prog sh w R :
  swp (unload_pinned prog) (fun _ s' => s'.1 = sh /\ falls w s'.2 /\ holds (Pinned prog) s'.2 = false) R (sh, w).
Proof.
  apply swp_bind. unfold swp at 1, test. cbn [snd]. rewrite pinned_path.
  destruct (holds (Pinned prog) w) eqn:Hp; cbn [when]; [by apply ignore_undo|].
  cbn. split; [done|]. split; [apply falls_refl|done].
Qed.

Lemma maps_clean_ok sh w R : swp maps_clean (fun _ s' => s'.1 = sh /\ same w s'.2) R (sh, w).
Proof.
  apply swp_bind. unfold swp at 1, test. cbn [snd]. destruct (path_exists _ w); cbn [when]; [by apply ignore_neutral|by cbn].
Qed.

Section read.
Variable sh0 : Sh.
Hypothesis fresh : cfg sh0 = ∅.
Definition ds : list string := words (devs (conf_of sh0)).
Definition known (sh : Sh) : Prop := sh = sh0 \/ sh = conf_of sh0.

Lemma read_config_ok sh w R : readable sh0 = true -> known sh ->
  swp (read_config E) (fun _ s' => s' = (conf_of sh0, w)) R (sh, w).
Proof.
  intros Hr Hk. unfold swp. destruct Hk as [-> | ->].
  - pose proof (read_config_first sh0 w fresh) as Hf. rewrite Hr in Hf. by rewrite Hf.
  - by rewrite read_config_again.
Qed.

Lemma detach_ok dev sh w R :
  swp (_ ← detach_xdp dev; detach_tc dev)
    (fun _ s' => s'.1 = sh /\ falls w s'.2 /\ (xdp_off dev s'.2 /\ holds (TcOn dev) s'.2 = false)) R (sh, w).
Proof.
  apply swp_bind. eapply swp_mono; [apply detach_xdp_ok| |done]. cbn beta. intros _ [sh1 w1] (Hs & Hf & Hx). cbn [fst snd] in *. subst sh1.
  eapply swp_mono; [by apply ignore_undo with (f := TcOn dev)| |done]. cbn beta. intros _ [sh2 w2] (Hs & Hf2 & Ht). cbn [fst snd] in *.
  split; [done|]. split; [by eapply falls_trans|]. split; [|done]. intros mode Hm. by apply Hf2, Hx.
Qed.

(** After unloading, no program is pinned and none is attached to a device of the
    configuration. *)
Lemma unload_ok sh w R : readable sh0 = true -> known sh ->
  swp (unload_bpf E) (fun _ s' => s'.1 = conf_of sh0 /\ unloaded ds s'.2) R (sh, w).
Proof.
  intros Hr Hk. unfold unload_bpf. apply swp_bind. eapply swp_mono; [by apply read_config_ok| |done].
  cbn beta. intros _ s' ->. apply swp_bind. change (swp get_sh ?Q R ?s) with (Q s.1 s). cbn [fst]. fold ds.
  apply swp_bind. eapply swp_mono; [apply (each_ok _ falls (fun dev w => xdp_off dev w /\ holds (TcOn dev) w = false))| |done];
    [apply falls_refl|apply falls_trans| |intros; apply detach_ok|].
  { intros dev w1 w2 Hf [Hx Ht]. split; [intros mode Hm; by apply Hf, Hx|by apply Hf]. }
  cbn beta. intros _ [sh1 w1] (Hs & Hf1 & Hall). cbn [fst snd] in *. subst sh1.
  apply swp_bind. eapply swp_mono; [apply unload_prog_ok| |done]. cbn beta. intros _ [sh2 w2] (Hs & Hf2 & Htc). cbn [fst snd] in *. subst sh2.
  apply swp_bind. eapply swp_mono; [apply unload_prog_ok| |done]. cbn beta. intros _ [sh3 w3] (Hs & Hf3 & Hxdp). cbn [fst snd] in *. subst sh3.
  apply swp_bind. eapply swp_mono; [apply maps_clean_ok| |done]. cbn beta. intros _ [sh4 w4] (Hs & Hf4). cbn [fst snd] in *. subst sh4.
  eapply swp_mono; [by apply ignore_neutral| |done]. cbn beta. intros _ [sh5 w5] (Hs & Hf5). cbn [fst snd] in *. split; [done|].
  assert (Hf : falls w3 w5) by (intros f Hff; by rewrite Hf5, Hf4). split; [by apply Hf|]. split; [by apply Hf, Hf3|].
  intros dev Hd. destruct (Hall dev Hd) as [Hx Ht]. split; [by apply Hf, Hf3, Hf2|]. intros mode Hm. by apply Hf, Hf3, Hf2, Hx.
Qed.

(** ** Loading *)

(** The outcome of a start that fails: nothing has changed, or nothing is loaded. *)
Definition gave_up (w : W) (c : Z) (w' : W) : Prop := c = 1 /\ (same w w' \/ unloaded ds w').

Lemma or_unload_ok c w0 w (Q : unit -> Sh * W -> Prop) : readable sh0 = true ->
  (forall w', run c w = (0, w') -> Q tt (conf_of sh0, w')) -> swp (or_unload E c) Q (gave_up w0) (conf_of sh0, w).
Proof.
  intros Hr HQ. apply swp_bind, swp_sys. intros rc w' Hrun. cbn [fst snd] in *. destruct (rc =? 0) eqn:He.
  - apply Z.eqb_eq in He as ->. by apply HQ.
  - apply swp_bind. eapply swp_mono; [apply unload_ok; [done|by right]| |done]. cbn beta. intros _ [sh1 w1] (_ & Hu). cbn. split; [done|by right].
Qed.

Lemma same_refl w : same w w.
Proof. done. Qed.
Lemma same_trans w1 w2 w3 : same w1 w2 -> same w2 w3 -> same w1 w3.
Proof. intros H1 H2 f. by rewrite H2. Qed.

(** A command without an effect in front of the loading. *)
Lemma run_effect_true c w w' f : effect c = Some (f, true) -> run c w = (0, w') -> holds f w' = true.
Proof. intros He Hr. pose proof (run_effect c w f true He) as Hx. rewrite Hr in Hx. by apply Hx. Qed.

Lemma or_unload_neutral c w0 w : readable sh0 = true -> neutral c ->
  swp (or_unload E c) (fun _ s' => s'.1 = conf_of sh0 /\ same w s'.2) (gave_up w0) (conf_of sh0, w).
Proof. intros Hr Hn. apply or_unload_ok; [done|]. intros w' Hrun. split; [done|]. by eapply run_neutral. Qed.
Lemma or_unload_effect c f w0 w : readable sh0 = true -> effect c = Some (f, true) ->
  swp (or_unload E c) (fun _ s' => s'.1 = conf_of sh0 /\ rises w s'.2 /\ holds f s'.2 = true) (gave_up w0) (conf_of sh0, w).
Proof.
  intros Hr He. apply or_unload_ok; [done|]. intros w' Hrun. split; [done|]. split; [|by eapply run_effect_true].
  intros g Hg. by eapply run_rises.
Qed.

Ltac xnext lem := apply swp_bind; eapply swp_mono; [lem| |done]; cbn beta.

(** A command of which the failure ends the script. *)
Lemma or_error {A} c w0 w sh (k : X W A) Q' : neutral c -> same w0 w ->
  (forall w', same w w' -> swp k Q' (gave_up w0) (sh, w')) ->
  swp (rc ← sys c; if negb (rc =? 0) then error else k) Q' (gave_up w0) (sh, w).
Proof.
  intros Hn Hs Hk. apply swp_bind, swp_sys. intros rc w' Hrun. apply (run_neutral _ _ _ _ Hn) in Hrun. cbn [fst snd] in *.
  destruct (rc =? 0); cbn [negb]; [by apply Hk|]. split; [done|]. left. by eapply same_trans.
Qed.

Lemma load_xdp_ok w0 w : readable sh0 = true -> same w0 w ->
  swp (load_xdp E) (fun _ s' => s'.1 = conf_of sh0 /\ holds (Pinned "xdp") s'.2 = true) (gave_up w0) (conf_of sh0, w).
Proof.
  intros Hr Hs. apply or_error; [done..|]. intros w1 Hs1.
  apply or_error; [done|by eapply same_trans|]. intros w2 Hs2.
  apply swp_bind. change (swp get_sh ?Q ?R ?s) with (Q s.1 s). cbn [fst].
  eapply swp_mono; [by apply or_unload_effect with (f := Pinned "xdp")| |done]. cbn beta. by intros _ s' (? & _ & ?).
Qed.

Lemma load_tc_ok w0 w : readable sh0 = true ->
  swp (load_tc E) (fun _ s' => s'.1 = conf_of sh0 /\ rises w s'.2 /\ holds (Pinned "tc") s'.2 = true) (gave_up w0) (conf_of sh0, w).
Proof.
  intros Hr. xnext ltac:(by apply or_unload_neutral). intros _ [sh1 w1] (Hs & Hsame). cbn [fst snd] in *. subst sh1.
  apply swp_bind. change (swp get_sh ?Q ?R ?s) with (Q s.1 s). cbn [fst].
  eapply swp_mono; [by apply or_unload_effect with (f := Pinned "tc")| |done]. cbn beta. intros _ s' (Hs & Hris & Ht).
  split; [done|]. split; [|done]. intros f Hf. apply Hris. by rewrite Hsame.
Qed.

Lemma attach_ok attach_type dev w0 w : readable sh0 = true ->
  swp (_ ← attach_xdp E dev attach_type; attach_tc E dev)
    (fun _ s' => s'.1 = conf_of sh0 /\ rises w s'.2 /\ (holds (TcOn dev) s'.2 = true /\ holds (XdpOn attach_type dev) s'.2 = true))
    (gave_up w0) (conf_of sh0, w).
Proof.
  intros Hr. unfold attach_xdp, attach_tc. apply swp_bind. xnext ltac:(by apply or_unload_neutral).
  intros _ [sh1 w1] (Hs & H1). cbn [fst snd] in *. subst sh1.
  eapply swp_mono; [by apply or_unload_effect with (f := XdpOn attach_type dev)| |done]. cbn beta.
  intros _ [sh2 w2] (Hs & H2 & Hx). cbn [fst snd] in *. subst sh2.
  xnext ltac:(by apply or_unload_neutral). intros _ [sh3 w3] (Hs & H3). cbn [fst snd] in *. subst sh3.
  eapply swp_mono; [by apply or_unload_effect with (f := TcOn dev)| |done]. cbn beta.
  intros _ [sh4 w4] (Hs & H4 & Ht). cbn [fst snd] in *. split; [done|].
  split; [intros f Hf; apply H4; rewrite H3; apply H2; by rewrite H1|]. split; [done|]. apply H4. by rewrite H3.
Qed.

Lemma check_dev_ok dev w0 w sh : same w0 w -> swp (check_dev dev) (fun _ s' => s'.1 = sh /\ same w s'.2 /\ True) (gave_up w0) (sh, w).
Proof.
  intros Hs. apply or_error; [done..|]. intros w1 H1. apply swp_bind. unfold swp at 1, is_bpf_attached_to_dev, test. cbn [snd].
  destruct (net_has "xdp" dev w1); [split; [done|left; by eapply same_trans]|]. apply swp_bind. unfold swp at 1, test. cbn [snd].
  destruct (net_has "tc" dev w1); [split; [done|left; by eapply same_trans]|]. done.
Qed.

(** The part behind the checks of the configuration. *)
Lemma load_devs_ok attach_type w0 w : readable sh0 = true -> same w0 w ->
  swp (_ ← ignore (Sysctl "net.core.bpf_jit_enable" "1");
       _ ← each (fun opt => match cfg (conf_of sh0) !! opt.1 with
                            | Some val => ignore (Sysctl ("net.ipv4." +:+ opt.2) val)
                            | None => mret tt
                            end) sysctl_opts;
       _ ← each check_dev ds;
       _ ← load_xdp E;
       _ ← load_tc E;
       _ ← each (fun dev => _ ← attach_xdp E dev attach_type; attach_tc E dev) ds;
       ok ← bpf_maps_check;
       if negb ok then _ ← unload_bpf E; error else update_status (devmode (conf_of sh0)))
    (fun _ s' => s'.1 = conf_of sh0 /\ loaded attach_type ds s'.2) (gave_up w0) (conf_of sh0, w).
Proof.
  intros Hr Hsame. xnext ltac:(by apply ignore_neutral). intros _ [sh1 w1] (Es & H1). cbn [fst snd] in *. subst sh1.
  apply (same_trans _ _ _ Hsame) in H1.
  xnext ltac:(apply (each_ok _ same (fun _ _ => True)); [done|intros ? ? ?; apply same_trans|done|]).
  { intros [k o] w2 _ _. cbn [fst snd]. destruct (cfg (conf_of sh0) !! k); [|done].
    eapply swp_mono; [by apply ignore_neutral| |done]. cbn beta. by intros _ s' (? & ?). }
  intros _ [sh2 w2] (Es & H2 & _). cbn [fst snd] in *. subst sh2. apply (same_trans _ _ _ H1) in H2.
  xnext ltac:(apply (each_ok _ same (fun _ _ => True)); [done|intros ? ? ?; apply same_trans|done|]).
  { intros dev w3 _ H3. apply check_dev_ok. by eapply same_trans. }
  intros _ [sh3 w3] (Es & H3 & _). cbn [fst snd] in *. subst sh3. apply (same_trans _ _ _ H2) in H3.
  xnext ltac:(by apply load_xdp_ok). intros _ [sh4 w4] (Es & Hx). cbn [fst snd] in *. subst sh4.
  xnext ltac:(by apply load_tc_ok). intros _ [sh5 w5] (Es & H5 & Ht). cbn [fst snd] in *. subst sh5. apply H5 in Hx.
  xnext ltac:(apply (each_ok _ rises (fun dev w => holds (TcOn dev) w = true /\ holds (XdpOn attach_type dev) w = true));
    [apply rises_refl|apply rises_trans|intros dev wa wb Hab [Ha Hb]; split; by apply Hab|intros; by apply attach_ok]).
  intros _ [sh6 w6] (Es & H6 & Hall). cbn [fst snd] in *. subst sh6. apply H6 in Hx, Ht.
  apply swp_bind. unfold swp at 1, bpf_maps_check, test. cbn [snd]. destruct (_ && _); cbn [negb].
  - apply swp_bind, swp_sys. intros rc w7 H7%run_neutral; [|done]. apply swp_sys. intros rc' w8 H8%run_neutral; [|done].
    cbn [fst snd] in *. apply (same_trans _ _ _ H7) in H8. split; [done|].
    split; [by rewrite H8|]. split; [by rewrite H8|]. intros dev Hd. rewrite !H8. by apply Hall.
  - apply swp_bind. eapply swp_mono; [apply unload_ok; [done|by right]| |done]. cbn beta. intros _ s' (_ & Hu). split; [done|by right].
Qed.

Lemma load_bpf_ok sh w : sh = sh0 \/ sh = conf_of sh0 /\ readable sh0 = true ->
  swp (load_bpf E) (fun _ s' => s'.1 = conf_of sh0 /\ readable sh0 = true /\
      exists attach_type, xdp_attach_type (devmode (conf_of sh0)) = Some attach_type /\ loaded attach_type ds s'.2)
    (gave_up w) (sh, w).
Proof.
  intros Hk. unfold load_bpf. apply or_error; [done..|]. intros w1 H1. apply swp_bind. unfold swp at 1, test. cbn [snd].
  destruct (path_exists _ w1); [split; [done|by left]|]. apply swp_bind.
  assert (Hrd : readable sh0 = true \/ readable sh0 = false /\ sh = sh0) by (destruct Hk as [->|[-> ?]]; [destruct (readable sh0)|]; auto).
  destruct Hrd as [Hr|[Hr ->]].
  2: { pose proof (read_config_first sh0 w1 fresh) as Hf. rewrite Hr in Hf. destruct Hf as [sh' Hf]. unfold swp at 1. rewrite Hf.
       split; [done|by left]. }
  eapply swp_mono; [apply read_config_ok; [done|destruct Hk as [->|[-> _]]; [by left|by right]]| |done]. cbn beta. intros _ s' ->.
  apply swp_bind. change (swp get_sh ?Q ?R ?s) with (Q s.1 s). cbn [fst].
  destruct (xdp_attach_type (devmode (conf_of sh0))) as [attach_type|]; [|split; [done|by left]].
  eapply swp_mono; [by apply (load_devs_ok attach_type w w1)| |done]. cbn beta.
  intros _ s' (Hs & Hl). split; [done|]. split; [done|]. by exists attach_type.
Qed.

(** ** The daemons do not change what is loaded *)

(** A part that keeps the variables and what is loaded. *)
Definition quiet {A} (sh' : Sh) (m : X W A) (sh : Sh) : Prop :=
  forall w R, swp m (fun _ s' => s'.1 = sh' /\ same w s'.2) R (sh, w).

Lemma quiet_ret {A} (a : A) sh : quiet sh (mret a) sh.
Proof. by intros w R. Qed.
Lemma quiet_bind {A B} (m : X W A) (k : A -> X W B) sh sh1 sh2 :
  quiet sh1 m sh -> (forall a, quiet sh2 (k a) sh1) -> quiet sh2 (m ≫= k) sh.
Proof.
  intros Hm Hk w R. xnext ltac:(apply Hm). intros a [sh' w'] (Es & H1). cbn [fst snd] in *. subst sh'.
  eapply swp_mono; [apply Hk| |done]. cbn beta. intros b s' (? & H2). split; [done|by eapply same_trans].
Qed.
Lemma quiet_sys c sh : neutral c -> quiet sh (sys c) sh.
Proof. intros Hn w R. apply swp_sys. intros rc w' Hr. split; [done|by eapply run_neutral]. Qed.
Lemma quiet_read sh : readable sh0 = true -> known sh -> quiet (conf_of sh0) (read_config E) sh.
Proof. intros Hr Hk w R. eapply swp_mono; [by apply read_config_ok| |done]. by intros _ s' ->. Qed.
Lemma quiet_get {B} (k : Sh -> X W B) sh sh' : quiet sh' (k sh) sh -> quiet sh' (get_sh ≫= k) sh.
Proof. intros Hk w R. apply swp_bind. apply Hk. Qed.

Ltac quiets := repeat first
  [ apply quiet_ret | apply quiet_get | by apply quiet_sys
  | eapply quiet_bind; [by apply quiet_read; [|first [by left|by right]]|intros ?]
  | eapply quiet_bind; [by apply quiet_sys|intros ?] | case_match ].

Lemma start_mgr_quiet : readable sh0 = true -> quiet (conf_of sh0) (start_mgr E) (conf_of sh0).
Proof. intros Hr. unfold start_mgr. quiets. Qed.
Lemma stop_mgr_quiet sh : quiet sh stop_mgr sh.
Proof. unfold stop_mgr. quiets. Qed.
Lemma start_logger_quiet : readable sh0 = true -> quiet (conf_of sh0) (start_logger E) (conf_of sh0).
Proof. intros Hr. unfold start_logger, wait_logger. quiets. Qed.
Lemma stop_logger_quiet sh : readable sh0 = true -> known sh -> quiet (conf_of sh0) (stop_logger E) sh.
Proof. intros Hr Hk. unfold stop_logger. eapply quiet_bind; [by apply quiet_read|intros _]. quiets. Qed.
Lemma write_version_quiet sh : quiet sh write_version sh.
Proof. unfold write_version, ignore. quiets. Qed.

(** ** The actions *)

Definition outcome (w : W) (c : Z) (w' : W) : Prop :=
  c = 0 /\ (exists attach_type, xdp_attach_type (devmode (conf_of sh0)) = Some attach_type /\ loaded attach_type ds w')
  \/ gave_up w c w'.

Lemma same_gave_up w w1 c w' : same w w1 -> gave_up w1 c w' -> gave_up w c w'.
Proof. intros Hs (-> & [H1|H1]); (split; [done|]); [left; by eapply same_trans|by right]. Qed.

Lemma start_all_ok sh w Q : sh = sh0 \/ sh = conf_of sh0 /\ readable sh0 = true -> swp (start_all E) Q (outcome w) (sh, w).
Proof.
  intros Hk. unfold start_all. apply swp_bind. eapply swp_mono; [by apply load_bpf_ok| |intros c w' Hg; by right]. cbn beta.
  intros _ [sh1 w1] (Es & Hr & t & Ht & Hl). cbn [fst snd] in *. subst sh1.
  xnext ltac:(by apply start_logger_quiet). intros _ [sh2 w2] (Es & H2). cbn [fst snd] in *. subst sh2.
  xnext ltac:(by apply start_mgr_quiet). intros rc [sh3 w3] (Es & H3). cbn [fst snd] in *. subst sh3.
  destruct (rc =? 0); cbn [negb].
  - left. split; [done|]. exists t. split; [done|]. apply (same_trans _ _ _ H2) in H3. destruct Hl as (Hx & Hc & Hd).
    split; [by rewrite H3|]. split; [by rewrite H3|]. intros dev Hdev. rewrite !H3. by apply Hd.
  - xnext ltac:(apply stop_logger_quiet; [done|by right]). intros _ [sh4 w4] (Es & H4). cbn [fst snd] in *. subst sh4.
    apply swp_bind. eapply swp_mono; [apply unload_ok; [done|by right]| |done]. cbn beta. intros _ s' (_ & Hu). right.
    split; [done|by right].
Qed.

(** --restart: the daemons are stopped and the programs unloaded before. *)
Lemma restart_ok w Q :
  swp (_ ← stop_mgr; _ ← stop_logger E; _ ← unload_bpf E; start_all E) Q (outcome w) (sh0, w).
Proof.
  xnext ltac:(apply stop_mgr_quiet). intros _ [sh1 w1] (Es & H1). cbn [fst snd] in *. subst sh1.
  destruct (readable sh0) eqn:Hr.
  - xnext ltac:(apply stop_logger_quiet; [done|by left]). intros _ [sh2 w2] (Es & H2). cbn [fst snd] in *. subst sh2.
    xnext ltac:(apply unload_ok; [done|by right]). intros _ [sh3 w3] (Es & Hu). cbn [fst snd] in *. subst sh3.
    eapply swp_mono; [apply (start_all_ok _ _ Q); right; done|done|]. intros c w' [Hl|(-> & [Hs|Hu'])]; [by left|right..]; (split; [done|]); right; [|done].
    destruct Hu as (Hx & Ht & Hd). split; [by rewrite Hs|]. split; [by rewrite Hs|]. intros dev Hdev.
    destruct (Hd dev Hdev) as [Hdt Hdx]. split; [by rewrite Hs|]. intros mode Hm. rewrite Hs. by apply Hdx.
  - unfold stop_logger. do 2 apply swp_bind. pose proof (read_config_first sh0 w1 fresh) as Hf. rewrite Hr in Hf.
    destruct Hf as [sh' Hf]. unfold swp at 1. rewrite Hf. right. split; [done|by left].
Qed.

Lemma start_ok w Q : swp (_ ← write_version; start_all E) Q (outcome w) (sh0, w).
Proof.
  xnext ltac:(apply write_version_quiet). intros _ [sh1 w1] (Es & H1). cbn [fst snd] in *. subst sh1.
  eapply swp_mono; [apply (start_all_ok _ _ Q); by left|done|]. intros c w' [Hl|Hg]; [by left|right]. by eapply same_gave_up.
Qed.

Definition stopped (w : W) (c : Z) (w' : W) : Prop := c = 0 /\ unloaded ds w' \/ c = 1 /\ same w w'.
Lemma stop_ok w Q : swp (A := Z) (_ ← stop_mgr; _ ← stop_logger E; _ ← unload_bpf E; exit 0) Q (stopped w) (sh0, w).
Proof.
  xnext ltac:(apply stop_mgr_quiet). intros _ [sh1 w1] (Es & H1). cbn [fst snd] in *. subst sh1.
  destruct (readable sh0) eqn:Hr.
  - xnext ltac:(apply stop_logger_quiet; [done|by left]). intros _ [sh2 w2] (Es & H2). cbn [fst snd] in *. subst sh2.
    xnext ltac:(apply unload_ok; [done|by right]). intros _ [sh3 w3] (Es & Hu). cbn [fst snd] in *. by left.
  - unfold stop_logger. do 2 apply swp_bind. pose proof (read_config_first sh0 w1 fresh) as Hf. rewrite Hr in Hf.
    destruct Hf as [sh' Hf]. unfold swp at 1. rewrite Hf. by right.
Qed.
End read.

(** ** The script *)

(** The variables for a configuration file that was given, or for the default. *)
Definition sh_of (file : option string) : Sh :=
  match file with Some f => with_override f (initial_sh E) | None => initial_sh E end.
Definition command (file : option string) (a : string) : list string :=
  match file with Some f => ["-c"; f; a] | None => [a] end.

Lemma xfwctl_action file a w R : e_uid E = 0 -> project_path E <> unset -> a <> "-c" -> a <> "--config" ->
  (forall Q, swp (action E a) Q R (sh_of file, w)) ->
  match xfwctl E (command file a) w with (Exit c, w') => R c w' | (ExecSudo, _) => False end.
Proof.
  intros Hu Hp H1 H2 Ha. specialize (Ha (fun _ _ => False)). unfold xfwctl, script. rewrite Hu. cbn [negb Z.eqb].
  assert (Harg : arguments E (command file a) (initial_sh E, w) = action E a (sh_of file, w)).
  { destruct file as [f|]; cbn [command arguments];
      [change (String.eqb "-c" "-c" || String.eqb "-c" "--config") with true; cbv iota; unfold mbind at 1, X_bind at 1; cbn [get_sh];
       unfold mbind at 1, X_bind at 1; cbn [put_sh fst snd]|];
      by rewrite (proj2 (String.eqb_neq a "-c") H1), (proj2 (String.eqb_neq a "--config") H2). }
  destruct (project_path E) as [|c0 p0] eqn:Hpp; [done|]. rewrite Harg. unfold swp in Ha.
  destruct (action E a (sh_of file, w)) as [[[c|]|rc] [sh' w']]; done.
Qed.

End claims.

(** ** A system *)

(** The facts that hold; every command succeeds. *)
Definition sample_run (c : Cmd) (w : list Fact) : Z * list Fact :=
  (0, match effect c with
      | Some (f, true) => f :: w
      | Some (f, false) => filter (fun g => g <> f) w
      | None => w
      end).
Definition sample_holds (f : Fact) (w : list Fact) : bool := bool_decide (f ∈ w).
#[export] Instance sample_sys : Sys (list Fact) := {
  run := sample_run;
  path_exists p w := existsb (fun f => match f with Pinned prog => String.eqb p (xfw_bpf_path +:+ "/" +:+ prog) | _ => false end) w
                     || String.prefix "/sys/class/net/" p;
  net_has hook dev w := existsb (fun f => match f with
    | XdpOn _ d => String.eqb hook "xdp" && String.eqb d dev
    | TcOn d => String.eqb hook "tc" && String.eqb d dev
    | _ => false
    end) w;
  xfw_maps w := ["xfw_cfg"]
}.

Lemma prefix_app (p s : string) : String.prefix p (p +:+ s) = true.
Proof.
  induction p as [|c p IH]; [by destruct s|]. change (String c p +:+ s) with (String c (p +:+ s)).
  change (String.prefix (String c p) (String c (p +:+ s))) with (if Ascii.ascii_dec c c then String.prefix p (p +:+ s) else false).
  by destruct (Ascii.ascii_dec c c).
Qed.

#[export] Instance sample_spec : SysSpec (list Fact) sample_holds.
Proof.
  split; unfold sample_holds; cbn [run sample_sys]; unfold sample_run; cbn [fst snd].
  - intros c w f Hf. destruct (effect c) as [[g b]|] eqn:He; [|done]. assert (f <> g) by (intros ->; by apply (Hf b)).
    apply bool_decide_ext. destruct b; [rewrite elem_of_cons|rewrite list_elem_of_filter]; naive_solver.
  - intros c w f b -> _. destruct b; [apply bool_decide_true; by left|].
    apply bool_decide_false. rewrite list_elem_of_filter. by intros [? _].
  - done.
  - done.
  - intros w prog. cbn [path_exists sample_sys].
    replace (String.prefix "/sys/class/net/" (xfw_bpf_path +:+ "/" +:+ prog)) with false by done. rewrite orb_false_r.
    apply eq_iff_eq_true. rewrite existsb_exists, bool_decide_eq_true. split.
    + intros (f & Hf%list_elem_of_In & Hp). destruct f as [q| |]; try done. apply String.eqb_eq in Hp.
      do 2 apply (inj (String.append _)) in Hp. by subst.
    + intros Hin. exists (Pinned prog). split; [by apply list_elem_of_In|]. apply String.eqb_refl.
  - intros w mode dev _. cbn [path_exists sample_sys]. rewrite prefix_app. by rewrite orb_true_r.
Qed.

Definition sample_env (mgr_args : string) : Env :=
  mkEnv 0 unset unset unset (fun _ => true) (fun _ => true) (fun _ => true)
    (fun _ => [("devices", "eth0 eth1"); ("mgr-args", mgr_args)]) (fun _ => true) [] true.


(** ** The file with the process id

    The manager is stopped before the configuration is read, so that the script looks
    for it in the default file, whatever the arguments of the manager say. *)
Definition trace_sys : Sys (list Cmd) := {|
  run c w := (match c with PkillFile f => if String.eqb f "/run/mgr.pid" then 0 else 1 | _ => 0 end, (w ++ [c])%list);
  path_exists _ _ := true; net_has _ _ _ := false; xfw_maps _ := ["xfw_cfg"]
|}.

Lemma custom_pid_file_ignored : pid_file (conf_of (sample_env "-P /run/mgr.pid") (initial_sh (sample_env "-P /run/mgr.pid"))) = "/run/mgr.pid"
  /\ exists rest, xfwctl (H := trace_sys) (sample_env "-P /run/mgr.pid") ["--stop"] []
       = (Exit 0, PkillFile "/var/run/tempesta_mgr.pid" :: RmF "/var/run/tempesta_mgr.pid" :: rest)
     /\ PkillFile "/run/mgr.pid" ∉ rest.
Proof.
  split; [vm_compute; reflexivity|]. eexists. split; [vm_compute; reflexivity|].
  apply (bool_decide_eq_false_1 (_ ∈ _)). vm_compute. reflexivity.
Qed.
